(* ===== verification/_CoqProject ===== *)
-Q . S2P
Prelude.v
Common.v
TimeStamp.v
Utils.v
LogData.v
LogStats.v
LogBuffer.v
LogBufferSpec.v
LogBufferProps.v
LogBufferQueue.v
FlowControl.v
LogCollector.v
Kmsg.v
LogPrint.v
Compress.v
Rotator.v
Recovery.v
Persister.v
Cmd.v
Properties.v
Proc.v
StatsWire.v
Controller.v
ControllerProps.v
Ioctl.v
FloatText.v
Tool.v
ToolProps.v
Format.v
FormatProps.v
FormatRef.v
SandboxFs.v
LogFileManager.v
AppFileManager.v
LogQueue.v
SandboxLogger.v
AppboxLogger.v
PageSwitchLog.v
SandboxFsProps.v
LogFileManagerProps.v
SnapshotProps.v
LoggersProps.v
AppFileManagerProps.v
Printf.v
PrintfProps.v
JsText.v
NapiLog.v
AniLog.v
JsProps.v
JsCallProps.v
LogSocket.v
LogSocketProps.v
CmdExecutor.v
CmdExecutorProps.v
Hilogd.v
HilogdProps.v
Display.v
DisplayProps.v
Help.v
RustLog.v
RustProps.v
Exports.v
PlatformLog.v
