(* ===== verification/Prelude.v ===== *)
(** * HiLog: a verification of the OpenHarmony logging system

    The program.  A process logs through a client library, which formats the
    text, decides whether the line may be printed and sends it as a datagram
    to the daemon hilogd.  The daemon checks the line, limits the rate of its
    domain, stores it in a bounded buffer per group of log types and counts it.
    The kernel's messages go to a second buffer.  A tool, hilog, queries and
    administers the daemon over two more sockets; jobs of the daemon write the
    stored lines to compressed, rotated files.

    ** Which file models what

    Each file is one component; a definition has the name of the function or
    type of the source it translates.  Paths are under src/.

    - this file: machine integers, arrays, strings as bytes, C strings, sums
      and the bounded copies of the bounds-checking C library.
    - Common: constants, error codes, the message header and its bytes
      (frameworks/libhilog/include).
    - TimeStamp, Utils, Proc: log_timestamp.h, log_utils.cpp.
    - Format, FormatProps, FormatRef: the formatter with privacy marks
      (frameworks/libhilog/vsnprintf).
    - Properties: the system parameters and their caches (param/properties.cpp).
    - LogCollector, FlowControl: from a datagram to the buffer
      (socket/, services/hilogd/log_collector.cpp, flow_control.cpp,
      log_domains.cpp).
    - LogData, LogBuffer, LogBufferSpec, LogBufferProps: stored lines, filters,
      the buffer and its readers (log_data.h, log_filter.h, log_buffer.cpp).
    - LogStats, StatsWire: statistics, and their transfer to the tool.
    - CmdExecutor, CmdExecutorProps: the threads that serve the clients of the
      daemon, as a step relation (cmd_executor.cpp,
      seq_packet_socket_server.cpp).
    - Hilogd, HilogdProps: the sockets of the daemon, its start and the jobs it
      restores (hilogd/main.cpp, socket/, hilog_input_socket_server.cpp).
    - Kmsg: kernel messages (kmsg_parser.cpp, log_kmsg.cpp).
    - LogPrint: the text of a printed line (utils/log_print.cpp).
    - Compress, Rotator, Recovery, Persister: persist jobs (log_compress.cpp,
      log_persister_rotator.cpp, log_persister.cpp).
    - Cmd, Controller, ControllerProps, Ioctl: the structures of the control
      protocol, the daemon's side and the client's side (hilog_cmd.h,
      service_controller.cpp, ioctl/log_ioctl.cpp).
    - Tool, ToolProps: the command line tool (services/hilogtool/main.cpp).
    - FloatText, Display, DisplayProps: floating point numbers as the C++
      streams print them, and the report of the statistics
      (hilogtool/log_display.cpp).
    - Help: the help pages of the tool.
    - Printf, PrintfProps: the logging calls of a process, from their arguments
      to the datagram, the kernel log, the callback and the sandbox log
      (libhilog/hilog_printf.cpp, hilog.cpp, base/hilog_base.c, hilog_ndk).
    - LogSocket, LogSocketProps: the sockets that the two client libraries
      share between threads (libhilog/socket, base/hilog_base.c).
    - SandboxFs, LogFileManager, AppFileManager, LogQueue, SandboxLogger,
      AppboxLogger, PageSwitchLog with SandboxFsProps, LogFileManagerProps,
      AppFileManagerProps and LoggersProps: the logs that a process keeps in
      its own files, their mapped buffers and their worker thread
      (frameworks/sandbox_log).
    - JsText, NapiLog, AniLog, JsProps, JsCallProps: the bindings for
      JavaScript and ArkTS (interfaces/js, interfaces/ets); Exports: the names
      and enumerations that they export.
    - RustLog, RustProps: the macros for Rust (interfaces/rust).
    - PlatformLog: the library on other platforms (platform) and the binding
      for Cangjie (interfaces/cj).

    ** Conventions

    A w-bit integer is a [Z] with the conversions written out; [None] stands
    for undefined behaviour, for an exception or for a fallible result, as the
    comment of the definition says; objects that the code shares (iterators
    into a list, files seen through several descriptors, cached parameters) are
    modelled with their identity.  What the program calls but does not contain
    (zlib, the parameter service, the C library's floating point output, time
    zones, the file system's answers) is a parameter; the laws that are relied
    on are named hypotheses, and the witnesses instantiate them.  Operations
    that the code runs under a lock are single steps; where the code takes no
    lock, the interleaving is explicit.

    ** What the theorems show

    - the buffer keeps its invariant, readers receive exactly the lines they
      ask for, insertion and deletion remove what they should (LogBufferSpec,
      LogBufferProps);
    - the formatter hides private arguments, stays in its buffer and agrees
      with a reference (FormatProps, FormatRef);
    - a line that is sent is the line that is stored, rates are limited and
      what is dropped is reported (LogCollector, FlowControl);
    - requests are decoded safely, a user without privileges is confined to
      its own lines, and what the tool is asked for is what is printed
      (ControllerProps, Ioctl, ToolProps);
    - files of persist jobs decode to the printed lines, across rotation and
      restarts (Persister, Rotator, Recovery, Compress);
    - a cached parameter is the parameter, and settings take effect
      (Properties);
    - a logging call leaks no private argument, and ends in the buffer of the
      daemon as the line it asked for; the domains of the sandbox log have no
      effect (PrintfProps);
    - lines of the page switch log and of the application log survive the end
      of the process, in order, and the worker drains its queue
      (LogFileManagerProps, AppFileManagerProps, LoggersProps);
    - both bindings print what one reference says and hide private parameters
      (JsProps, JsCallProps); the macros for Rust hide private arguments, and
      send a text without percent signs as it is (RustProps);
    - threads that log through the base library write to nothing but sockets
      connected to the daemon, in any interleaving; through the other library
      a line can end in a file of the application (LogSocketProps);
    - in every interleaving the daemon keeps track of the threads of its
      clients and joins those that have finished; the destructor may wait for
      ever (CmdExecutorProps);
    - the daemon starts in a consistent state, and handles a request on the
      socket that clients use for it only (HilogdProps);
    - every counter of the daemon is on the screen of the tool
      (DisplayProps).

    ** Fuel and bounds

    Loops of the source that are not structural carry a fuel that is computed
    from the input: the length of the text or of the list that the loop
    consumes.  The theorems that concern such a loop are stated for that fuel,
    and say that a result is produced.  The fuel of the digit loops is 64, the
    number of bits of the largest number.

    ** Not modelled

    The calls of the bindings into their runtimes, the registration of their
    exports, and the host that prints lines on other platforms are code that is
    not part of the repository.  The macros of the public headers only put
    arguments in front of modelled calls.  Classes of the shared napi code that
    nothing uses, printing for debugging (LogStats::Print, LogFilter::Print,
    PrintErrorno) and what is compiled under DEBUG are left out; so are the
    formats of Rust other than the default one.  Timing and scheduling are
    modelled as the arguments of the steps and as interleavings of them.
*)

From stdpp Require Export base list gmap strings fin_maps.
From Stdlib Require Export ZArith Lia.
From Stdlib Require Import Ascii.

#[global] Open Scope Z_scope.

(** ** Machine integers

    A [w]-bit unsigned integer of the source is a [Z] in [0, 2^w); the
    functions below are the C++ conversions to the fixed-width types. *)

Definition wrapu (w z : Z) : Z := z mod 2 ^ w.
Definition wraps (w z : Z) : Z := (z + 2 ^ (w - 1)) mod 2 ^ w - 2 ^ (w - 1).

Abbreviation u8 := (wrapu 8).
Abbreviation u16 := (wrapu 16).
Abbreviation u32 := (wrapu 32).
Abbreviation u64 := (wrapu 64).
Abbreviation i16 := (wraps 16).
Abbreviation i32 := (wraps 32).

Lemma wrapu_small w z : 0 <= z < 2 ^ w -> wrapu w z = z.
Proof. apply Z.mod_small. Qed.

Lemma wrapu_range w z : 0 <= w -> 0 <= wrapu w z < 2 ^ w.
Proof. intros. apply Z.mod_pos_bound. lia. Qed.

Lemma wraps_small w z : 0 < w -> - 2 ^ (w - 1) <= z < 2 ^ (w - 1) -> wraps w z = z.
Proof.
  intros Hw Hz. unfold wraps.
  assert (2 ^ w = 2 * 2 ^ (w - 1)) by (rewrite <- Z.pow_succ_r by lia; f_equal; lia).
  rewrite Z.mod_small; lia.
Qed.

Lemma wraps_range w z : 0 < w -> - 2 ^ (w - 1) <= wraps w z < 2 ^ (w - 1).
Proof.
  intros Hw. unfold wraps.
  assert (2 ^ w = 2 * 2 ^ (w - 1)) by (rewrite <- Z.pow_succ_r by lia; f_equal; lia).
  pose proof (Z.mod_pos_bound (z + 2 ^ (w - 1)) (2 ^ w) ltac:(lia)). lia.
Qed.

(** Wrapped addition and subtraction commute with an earlier wrap. *)
Lemma wrapu_add_l w a b : wrapu w (wrapu w a + b) = wrapu w (a + b).
Proof. apply Zplus_mod_idemp_l. Qed.

Lemma wrapu_sub_l w a b : wrapu w (wrapu w a - b) = wrapu w (a - b).
Proof. apply Zminus_mod_idemp_l. Qed.

Lemma wrapu_idem w z : wrapu w (wrapu w z) = wrapu w z.
Proof. apply Zmod_mod. Qed.

(** Masking off the low [k] bits of a 32-bit number. *)
Lemma land_mask_high k x :
  0 <= k <= 32 -> 0 <= x < 2 ^ 32 -> Z.land x (2 ^ 32 - 2 ^ k) = x / 2 ^ k * 2 ^ k.
Proof.
  intros Hk Hx. rewrite <- Z.shiftr_div_pow2, <- Z.shiftl_mul_pow2 by lia.
  replace (2 ^ 32 - 2 ^ k) with (Z.shiftl (Z.ones (32 - k)) k).
  2:{ rewrite Z.shiftl_mul_pow2, Z.ones_equiv, <- Z.sub_1_r, Z.mul_sub_distr_r, <- Z.pow_add_r by lia.
      replace (32 - k + k) with 32 by lia. lia. }
  apply Z.bits_inj'. intros i Hi. rewrite Z.land_spec, !Z.shiftl_spec by lia.
  destruct (Z.lt_ge_cases i k).
  - rewrite !(Z.testbit_neg_r _ (i - k)) by lia. by rewrite andb_false_r.
  - rewrite Z.shiftr_spec, Z.sub_add by lia. destruct (Z.lt_ge_cases i 32).
    + rewrite Z.ones_spec_low by lia. by rewrite andb_true_r.
    + rewrite Z.ones_spec_high, andb_false_r by lia. symmetry.
      destruct (Z.eq_dec x 0) as [->|]; [apply Z.bits_0|].
      apply Z.bits_above_log2; [lia|]. assert (Z.log2 x < 32) by (apply Z.log2_lt_pow2; lia). lia.
Qed.

(** ** Arrays of fixed length

    [aget] and [aset] are array accesses at an index the code has checked;
    [aget_chk] and [aset_chk] return [None] where the source would access
    memory outside the array. *)

Definition aget (l : list Z) (i : Z) : Z := nth (Z.to_nat i) l 0.
Definition aset {A} (l : list A) (i : Z) (v : A) : list A := <[Z.to_nat i := v]> l.

Definition in_bounds {A} (l : list A) (i : Z) : bool :=
  (0 <=? i) && (i <? Z.of_nat (length l)).
Definition aget_chk {A} (l : list A) (i : Z) : option A :=
  if 0 <=? i then l !! Z.to_nat i else None.
Definition aset_chk {A} (l : list A) (i : Z) (v : A) : option (list A) :=
  if in_bounds l i then Some (aset l i v) else None.

Lemma aset_length {A} (l : list A) i v : length (aset l i v) = length l.
Proof. apply length_insert. Qed.

Lemma aget_aset_eq (l : list Z) i v :
  0 <= i < Z.of_nat (length l) -> aget (aset l i v) i = v.
Proof.
  intros Hi. unfold aget, aset.
  rewrite nth_lookup, list_lookup_insert_eq; [done | lia].
Qed.

Lemma aget_aset_ne (l : list Z) i j v :
  0 <= i -> 0 <= j -> i <> j -> aget (aset l i v) j = aget l j.
Proof.
  intros Hi Hj Hne. unfold aget, aset.
  rewrite !nth_lookup, list_lookup_insert_ne; [done | lia].
Qed.

Lemma aget_chk_Some {A} (l : list A) i :
  is_Some (aget_chk l i) <-> 0 <= i < Z.of_nat (length l).
Proof.
  unfold aget_chk. destruct (Z.leb_spec 0 i).
  - rewrite lookup_lt_is_Some. lia.
  - split; [by intros [? ?] | lia].
Qed.

Lemma in_bounds_spec {A} (l : list A) i :
  in_bounds l i = true <-> 0 <= i < Z.of_nat (length l).
Proof. unfold in_bounds. lia. Qed.

(** ** Characters and C strings *)

(** The value of a [char] read as an unsigned byte, and the byte of a value. *)
Definition byte_val (c : ascii) : Z := Z.of_N (N_of_ascii c).
Definition byte_chr (z : Z) : ascii := ascii_of_N (Z.to_N (z mod 256)).

Lemma byte_val_range c : 0 <= byte_val c < 256.
Proof. unfold byte_val. pose proof (N_ascii_bounded c). lia. Qed.

Lemma byte_chr_val c : byte_chr (byte_val c) = c.
Proof.
  unfold byte_chr. rewrite Z.mod_small by apply byte_val_range.
  unfold byte_val. rewrite N2Z.id. apply ascii_N_embedding.
Qed.

Lemma byte_val_chr z : byte_val (byte_chr z) = z mod 256.
Proof.
  unfold byte_val, byte_chr. pose proof (Z.mod_pos_bound z 256 ltac:(lia)).
  rewrite N_ascii_embedding by lia. lia.
Qed.

Lemma byte_val_inj a b : byte_val a = byte_val b -> a = b.
Proof. intros H. rewrite <- (byte_chr_val a), <- (byte_chr_val b). by f_equal. Qed.

Definition NUL : ascii := ascii_of_nat 0.
Definition NL : ascii := ascii_of_nat 10.

Definition slen (s : string) : Z := Z.of_nat (String.length s).

Fixpoint str_take (n : nat) (s : string) : string :=
  match n, s with
  | O, _ => EmptyString
  | _, EmptyString => EmptyString
  | S n, String c s => String c (str_take n s)
  end.

Fixpoint str_drop (n : nat) (s : string) : string :=
  match n, s with
  | O, _ => s
  | _, EmptyString => EmptyString
  | S n, String _ s => str_drop n s
  end.

(** The C string that starts at a buffer: the characters before its first NUL. *)
Fixpoint cstr (s : string) : string :=
  match s with
  | EmptyString => EmptyString
  | String c s => if decide (c = NUL) then EmptyString else String c (cstr s)
  end.

(** [strnlen]. *)
Definition strnlen (s : string) (n : Z) : Z := Z.min (slen (cstr s)) n.

Definition no_char (c : ascii) (s : string) : Prop := c ∉ String.list_ascii_of_string s.

Fixpoint str_mem (c : ascii) (s : string) : bool :=
  match s with
  | EmptyString => false
  | String d s => bool_decide (c = d) || str_mem c s
  end.

Lemma str_cons_app c a b : (String c a +:+ b)%string = String c (a +:+ b).
Proof. done. Qed.

Lemma str_nil_app b : ("" +:+ b)%string = b.
Proof. done. Qed.

Lemma str_app_nil_r s : (s +:+ "")%string = s.
Proof. induction s as [|c s IH]; [done | by rewrite str_cons_app, IH]. Qed.

Lemma str_app_assoc a b c : (a +:+ (b +:+ c) = (a +:+ b) +:+ c)%string.
Proof. induction a as [|d a IH]; [done | by rewrite !str_cons_app, IH]. Qed.

Lemma slen_app a b : slen (a +:+ b) = slen a + slen b.
Proof.
  unfold slen. induction a as [|c a IH]; [done|].
  rewrite str_cons_app. simpl String.length. lia.
Qed.

Lemma slen_nonneg s : 0 <= slen s.
Proof. unfold slen. lia. Qed.

Lemma slen_cons c s : slen (String c s) = 1 + slen s.
Proof. unfold slen. simpl String.length. lia. Qed.

Lemma slen_zero s : slen s = 0 -> s = "".
Proof. destruct s; [done|]. rewrite slen_cons. pose proof (slen_nonneg s). lia. Qed.

(** [n] times the character. *)
Fixpoint fill (n : nat) (c : Ascii.ascii) : string :=
  match n with
  | O => ""
  | S n => String c (fill n c)
  end.

Lemma slen_fill n c : slen (fill n c) = Z.of_nat n.
Proof. induction n as [|n IH]; [done|]. cbn [fill]. rewrite slen_cons. lia. Qed.

Lemma slen_take n s : slen (str_take n s) = Z.min (Z.of_nat n) (slen s).
Proof.
  revert n; induction s as [|c s IH]; intros [|n]; simpl str_take; try done.
  rewrite !slen_cons, IH. lia.
Qed.

Lemma slen_drop n s : slen (str_drop n s) = Z.max 0 (slen s - Z.of_nat n).
Proof.
  revert n; induction s as [|c s IH]; intros [|n]; simpl str_drop; try done.
  rewrite slen_cons, IH. lia.
Qed.

Lemma str_take_drop n s : (str_take n s +:+ str_drop n s)%string = s.
Proof.
  revert n; induction s as [|c s IH]; intros [|n]; simpl; try done.
  by rewrite str_cons_app, IH.
Qed.

Lemma str_take_all n s : slen s <= Z.of_nat n -> str_take n s = s.
Proof.
  revert n; induction s as [|c s IH]; intros n Hn; [by destruct n|].
  rewrite slen_cons in Hn. pose proof (slen_nonneg s). destruct n as [|n]; [lia|].
  simpl. rewrite IH; [done | lia].
Qed.

Lemma slen_Z_to_nat s : Z.to_nat (slen s) = String.length s.
Proof. unfold slen. lia. Qed.

Lemma str_take_app_length a b : str_take (String.length a) (a +:+ b) = a.
Proof. induction a as [|c a IH]; [by destruct b | rewrite str_cons_app; simpl; by f_equal]. Qed.

Lemma str_drop_app_length a b : str_drop (String.length a) (a +:+ b) = b.
Proof. induction a as [|c a IH]; [by destruct b | rewrite str_cons_app; simpl; by rewrite IH]. Qed.

Lemma cstr_le s : slen (cstr s) <= slen s.
Proof.
  induction s as [|c s IH]; [done|]. simpl. case_decide.
  - rewrite slen_cons. change (slen "") with 0. pose proof (slen_nonneg s). lia.
  - rewrite !slen_cons. lia.
Qed.

Lemma no_char_cons c d s : no_char c (String d s) <-> c <> d /\ no_char c s.
Proof.
  unfold no_char. simpl. rewrite not_elem_of_cons. naive_solver.
Qed.

Lemma no_char_app_iff c a b : no_char c (a +:+ b) <-> no_char c a /\ no_char c b.
Proof.
  induction a as [|x a IH]; [rewrite str_nil_app; split; [|tauto]; intros; split; [apply not_elem_of_nil|done]|].
  rewrite str_cons_app, !no_char_cons, IH. tauto.
Qed.

Lemma no_char_app c a b : no_char c a -> no_char c b -> no_char c (a +:+ b).
Proof. rewrite no_char_app_iff. auto. Qed.

Lemma no_char_take c n s : no_char c s -> no_char c (str_take n s).
Proof. rewrite <- (str_take_drop n s) at 1. rewrite no_char_app_iff. tauto. Qed.

Lemma cstr_app_nul a b : no_char NUL a -> cstr (a +:+ String NUL b) = a.
Proof.
  induction a as [|c a IH]; intros Ha; [done|].
  apply no_char_cons in Ha as [Hc Ha].
  rewrite str_cons_app. simpl. rewrite decide_False by congruence. by rewrite IH.
Qed.

Lemma cstr_no_nul s : no_char NUL (cstr s).
Proof.
  induction s as [|c s IH]; simpl; [apply not_elem_of_nil|].
  case_decide; [apply not_elem_of_nil|]. by apply no_char_cons.
Qed.

Lemma cstr_id s : no_char NUL s -> cstr s = s.
Proof.
  induction s as [|c s IH]; [done|]. intros [Hc Hs]%no_char_cons.
  simpl. rewrite decide_False by congruence. by rewrite IH.
Qed.

Lemma str_mem_spec c s : str_mem c s = true <-> ~ no_char c s.
Proof.
  induction s as [|d s IH]; simpl.
  - split; [done|]. intros H. destruct H. apply not_elem_of_nil.
  - rewrite no_char_cons, orb_true_iff, bool_decide_eq_true, IH.
    destruct (decide (c = d)); tauto.
Qed.

(** ** Filtering lists *)

Lemma list_filter_ext_in {A} (P Q : A -> Prop) `{!forall x, Decision (P x), !forall x, Decision (Q x)} (l : list A) :
  (forall x, x ∈ l -> P x <-> Q x) -> filter P l = filter Q l.
Proof.
  induction l as [|x l IH]; intros Hx; [done|]. rewrite !filter_cons.
  rewrite IH by (intros y Hy; apply Hx; by right). specialize (Hx x ltac:(left)).
  by repeat case_decide; try tauto.
Qed.

Lemma list_filter_id {A} (P : A -> Prop) `{!forall x, Decision (P x)} (l : list A) :
  (forall x, x ∈ l -> P x) -> filter P l = l.
Proof.
  induction l as [|x l IH]; intros Hx; [done|].
  rewrite filter_cons_True by (apply Hx; left). f_equal. apply IH. intros y Hy. apply Hx. by right.
Qed.

Lemma sublist_Forall {A} (P : A -> Prop) l1 l2 : l1 `sublist_of` l2 -> Forall P l2 -> Forall P l1.
Proof. induction 1; rewrite ?Forall_cons; tauto. Qed.

Lemma sublist_filter_mono {A} (P : A -> Prop) `{!forall x, Decision (P x)} (l1 l2 : list A) :
  l1 `sublist_of` l2 -> filter P l1 `sublist_of` filter P l2.
Proof.
  induction 1 as [|x l1 l2 _ IH|x l1 l2 _ IH]; [done| |]; rewrite ?filter_cons; case_decide; auto using sublist_skip, sublist_cons.
Qed.

(** ** Sums over lists *)

Definition sumZ {A} (f : A -> Z) (l : list A) : Z := foldr (fun x s => f x + s) 0 l.

Lemma sumZ_app {A} (f : A -> Z) l1 l2 : sumZ f (l1 ++ l2) = sumZ f l1 + sumZ f l2.
Proof. induction l1; simpl; lia. Qed.

Lemma sumZ_nonneg {A} (f : A -> Z) l : (forall x, x ∈ l -> 0 <= f x) -> 0 <= sumZ f l.
Proof.
  induction l as [|x l IH]; intros H; simpl; [done|].
  pose proof (H x ltac:(left)). assert (0 <= sumZ f l) by (apply IH; intros; apply H; by right). lia.
Qed.

Lemma sumZ_ext {A} (f g : A -> Z) l : (forall x, x ∈ l -> f x = g x) -> sumZ f l = sumZ g l.
Proof.
  induction l as [|x l IH]; intros H; simpl; [done|].
  rewrite (H x) by left. rewrite IH; [done|]. intros y Hy. apply H. by right.
Qed.

Lemma sumZ_const {A} (k : Z) (l : list A) : sumZ (fun _ => k) l = k * Z.of_nat (length l).
Proof. induction l; simpl; lia. Qed.

Lemma sumZ_insert {A} (f : A -> Z) l i x y :
  l !! i = Some x -> sumZ f (<[i := y]> l) = sumZ f l + f y - f x.
Proof.
  revert i; induction l as [|z l IH]; intros [|i] H; simplify_eq/=; [lia|].
  rewrite (IH i H). lia.
Qed.

Lemma sumZ_replicate {A} (f : A -> Z) n x : sumZ f (replicate n x) = Z.of_nat n * f x.
Proof. induction n as [|n IH]; simpl replicate; simpl sumZ; lia. Qed.

Lemma sumZ_perm {A} (f : A -> Z) l1 l2 : l1 ≡ₚ l2 -> sumZ f l1 = sumZ f l2.
Proof. induction 1; simpl; lia. Qed.

(** The sum of a measure over the values of a finite map. *)
Definition msum `{Countable K} {A} (f : A -> Z) (m : gmap K A) : Z :=
  sumZ (fun kv => f kv.2) (map_to_list m).

Section msum.
Context `{Countable K} {A : Type} (f : A -> Z).

Lemma msum_empty : msum f (∅ : gmap K A) = 0.
Proof. unfold msum. by rewrite map_to_list_empty. Qed.

Lemma msum_insert_fresh (m : gmap K A) k v :
  m !! k = None -> msum f (<[k := v]> m) = f v + msum f m.
Proof. intros Hk. unfold msum. by rewrite (sumZ_perm _ _ _ (map_to_list_insert m k v Hk)). Qed.

Lemma msum_insert (m : gmap K A) k v :
  msum f (<[k := v]> m) = msum f m + f v - from_option f 0 (m !! k).
Proof.
  destruct (m !! k) as [o|] eqn:E; simpl.
  - rewrite <- (insert_id m k o E) at 2. rewrite <- (insert_delete_eq m k v), <- (insert_delete_eq m k o).
    rewrite !msum_insert_fresh by apply lookup_delete_eq. lia.
  - rewrite msum_insert_fresh by done. lia.
Qed.
End msum.

(** ** Proof automation *)

Create HintDb hilog.
Create Rewrite HintDb hilog.
#[export] Hint Resolve slen_nonneg byte_val_range : hilog.
#[export] Hint Rewrite slen_app slen_cons slen_take slen_drop @aset_length @sumZ_app : hilog.

(** Split every [if] and [match] of the goal on a boolean or an option. *)
Ltac case_goal :=
  repeat match goal with
  | |- context [if ?b then _ else _] => destruct b eqn:?
  | |- context [match ?o with Some _ => _ | None => _ end] => destruct o eqn:?
  end.

(** Split the outermost test of a hypothesis that describes a run. *)
Ltac case_hyp H :=
  repeat match type of H with
  | context [if ?b then _ else _] => destruct b eqn:?; simplify_eq/=
  | context [match ?o with Some _ => _ | None => _ end] => destruct o eqn:?; simplify_eq/=
  end.

(** Turn boolean comparisons of the context into arithmetic and call [lia]. *)
Ltac blia :=
  repeat match goal with
  | H : negb _ = true |- _ => apply negb_true_iff in H
  | H : negb _ = false |- _ => apply negb_false_iff in H
  | H : (_ && _)%bool = true |- _ => apply andb_true_iff in H as [? ?]
  | H : (_ || _)%bool = false |- _ => apply orb_false_iff in H as [? ?]
  end; lia.

(** Remove the innermost conversions whose argument [lia] shows in range. *)
Ltac unwrap :=
  repeat match goal with
  | |- context [wrapu ?w ?z] =>
      lazymatch z with context [wrapu _ _] => fail | _ => rewrite (wrapu_small w z) by lia end
  | |- context [wraps ?w ?z] =>
      lazymatch z with context [wraps _ _] => fail | _ => rewrite (wraps_small w z) by lia end
  end.

(** ** Bounds-checked C string functions (C11 Annex K)

    [strncpy_s] gives the C string stored in the destination, [None] when the
    call reports an error; [memcpy_s] says whether the copy is done. *)

Definition strncpy_s (destMax : Z) (src : string) (count : Z) : option string :=
  if destMax =? 0 then None
  else if (destMax <=? count) && (destMax <=? slen (cstr src)) then None
  else Some (str_take (Z.to_nat count) (cstr src)).

Definition memcpy_s (destMax count : Z) : bool := (0 <? destMax) && (count <=? destMax).

Lemma strncpy_s_short destMax src count :
  0 <= count < destMax -> strncpy_s destMax src count = Some (str_take (Z.to_nat count) (cstr src)).
Proof. intros H. unfold strncpy_s. case_goal; [lia | lia | done]. Qed.
