(* ===== verification/Common.v ===== *)
(** * Constants, message header and its wire format

    The shared headers of the library and the daemon: log types and levels
    (log_c.h), limits and error codes (hilog_common.h), the packed [HilogMsg]
    header (hilog_base.h) with the byte layout it has on the input socket. *)

From S2P Require Import Prelude.
From Stdlib Require Import Ascii.

(** ** Log types and levels *)

Definition LOG_TYPE_MIN : Z := 0.
Definition LOG_APP : Z := 0.
Definition LOG_INIT : Z := 1.
Definition LOG_CORE : Z := 3.
Definition LOG_KMSG : Z := 4.
Definition LOG_ONLY_PRERELEASE : Z := 5.
Definition LOG_TYPE_MAX : Z := 6.

Definition LOG_LEVEL_MIN : Z := 0.
Definition LOG_DEBUG : Z := 3.
Definition LOG_INFO : Z := 4.
Definition LOG_WARN : Z := 5.
Definition LOG_ERROR : Z := 6.
Definition LOG_FATAL : Z := 7.
Definition LOG_LEVEL_MAX : Z := 8.

Definition LevelBase : Z := LOG_DEBUG.
Definition LevelNum : Z := LOG_LEVEL_MAX - LevelBase.
Definition TypeNum : Z := LOG_TYPE_MAX.

(** ** Limits *)

Definition MAX_LOG_LEN : Z := 4096.
Definition MAX_TAG_LEN : Z := 32.
Definition MIN_BUFFER_SIZE : Z := 64 * 1024.
Definition MAX_BUFFER_SIZE : Z := 16 * 1024 * 1024.
Definition MAX_PERSISTER_BUFFER_SIZE : Z := 64 * 1024.
Definition MIN_LOG_FILE_SIZE : Z := MAX_PERSISTER_BUFFER_SIZE.
Definition MAX_LOG_FILE_SIZE : Z := 512 * 1024 * 1024.
Definition MIN_LOG_FILE_NUM : Z := 2.
Definition MAX_LOG_FILE_NUM : Z := 1000.
Definition DOMAIN_OS_MIN : Z := 0xD000000.
Definition DOMAIN_OS_MAX : Z := 0xD0FFFFF.
Definition DOMAIN_APP_MIN : Z := 0x0.
Definition DOMAIN_APP_MAX : Z := 0xFFFF.
Definition JOB_ID_MIN : Z := 10.
Definition JOB_ID_MAX : Z := 2 ^ 32 - 1.
Definition MAX_JOBS : Z := 10.
Definition MAX_DOMAINS : Z := 5.
Definition MAX_TAGS : Z := 10.
Definition MAX_PIDS : Z := 5.
Definition MAX_REGEX_STR_LEN : Z := 128.
Definition MAX_FILE_NAME_LEN : Z := 64.
Definition MAX_STREAM_NAME_LEN : Z := 16.
Definition HILOG_FILE_DIR : string := "/data/log/hilog/".

(** ** Return and error codes *)

Definition RET_SUCCESS : Z := 0.
Definition RET_FAIL : Z := -1.
Definition SUCCESS_CONTINUE : Z := 1.
Definition ERR_LOG_LEVEL_INVALID : Z := -2.
Definition ERR_LOG_TYPE_INVALID : Z := -3.
Definition ERR_INVALID_RQST_CMD : Z := -4.
Definition ERR_INVALID_DOMAIN_STR : Z := -5.
Definition ERR_QUERY_TYPE_INVALID : Z := -8.
Definition ERR_LOG_PERSIST_FILE_SIZE_INVALID : Z := -11.
Definition ERR_LOG_PERSIST_FILE_NAME_INVALID : Z := -12.
Definition ERR_LOG_PERSIST_COMPRESS_BUFFER_EXP : Z := -13.
Definition ERR_LOG_PERSIST_DIR_OPEN_FAIL : Z := -14.
Definition ERR_LOG_PERSIST_COMPRESS_INIT_FAIL : Z := -15.
Definition ERR_LOG_PERSIST_FILE_OPEN_FAIL : Z := -16.
Definition ERR_LOG_PERSIST_JOBID_FAIL : Z := -18.
Definition ERR_DOMAIN_INVALID : Z := -19.
Definition ERR_MSG_LEN_INVALID : Z := -21.
Definition ERR_LOG_PERSIST_FILE_PATH_INVALID : Z := -25.
Definition ERR_LOG_PERSIST_JOBID_INVALID : Z := -28.
Definition ERR_BUFF_SIZE_INVALID : Z := -30.
Definition ERR_COMMAND_INVALID : Z := -31.
Definition ERR_LOG_PERSIST_TASK_EXISTED : Z := -32.
Definition ERR_LOG_FILE_NUM_INVALID : Z := -34.
Definition ERR_NOT_NUMBER_STR : Z := -35.
Definition ERR_TOO_MANY_ARGUMENTS : Z := -36.
Definition ERR_DUPLICATE_OPTION : Z := -37.
Definition ERR_INVALID_ARGUMENT : Z := -38.
Definition ERR_TOO_MANY_DOMAINS : Z := -39.
Definition ERR_INVALID_SIZE_STR : Z := -40.
Definition ERR_TOO_MANY_PIDS : Z := -41.
Definition ERR_TOO_MANY_TAGS : Z := -42.
Definition ERR_TAG_STR_TOO_LONG : Z := -43.
Definition ERR_REGEX_STR_TOO_LONG : Z := -44.
Definition ERR_FILE_NAME_TOO_LONG : Z := -45.
Definition ERR_SOCKET_CLIENT_INIT_FAIL : Z := -46.
Definition ERR_SOCKET_WRITE_MSG_HEADER_FAIL : Z := -47.
Definition ERR_SOCKET_WRITE_CMD_FAIL : Z := -48.
Definition ERR_SOCKET_RECEIVE_RSP : Z := -49.
Definition ERR_PERSIST_TASK_EMPTY : Z := -50.
Definition ERR_JOBID_NOT_EXSIST : Z := -60.
Definition ERR_TOO_MANY_JOBS : Z := -61.
Definition ERR_STATS_NOT_ENABLE : Z := -62.
Definition ERR_NO_RUNNING_TASK : Z := -63.
Definition ERR_NO_PID_PERMISSION : Z := -64.

(** ** The message header

    [tag] is the flexible array member: the bytes of the buffer after the
    packed header. *)

Record HilogMsg := mkHilogMsg {
  msg_len : Z;       (* uint16_t *)
  msg_version : Z;   (* 3 bits *)
  msg_type : Z;      (* 4 bits *)
  msg_level : Z;     (* 3 bits *)
  msg_tagLen : Z;    (* 6 bits, includes the NUL *)
  msg_tv_sec : Z;
  msg_tv_nsec : Z;
  msg_mono_sec : Z;
  msg_pid : Z;
  msg_tid : Z;
  msg_domain : Z;
  msg_tag : string;
}.

Definition sizeof_HilogMsg : Z := 28.

(** [CONTENT_LEN]: [sizeof] makes it a 64-bit unsigned subtraction. *)
Definition CONTENT_LEN (m : HilogMsg) : Z := u64 (msg_len m - sizeof_HilogMsg - msg_tagLen m).
Definition CONTENT_PTR (m : HilogMsg) : string := str_drop (Z.to_nat (msg_tagLen m)) (msg_tag m).

(** Every field is in the range of its type. *)
Definition msg_wf (m : HilogMsg) : Prop :=
  0 <= msg_len m < 2 ^ 16 /\ 0 <= msg_version m < 8 /\ 0 <= msg_type m < 16 /\
  0 <= msg_level m < 8 /\ 0 <= msg_tagLen m < 64 /\ 0 <= msg_tv_sec m < 2 ^ 32 /\
  0 <= msg_tv_nsec m < 2 ^ 32 /\ 0 <= msg_mono_sec m < 2 ^ 32 /\ 0 <= msg_pid m < 2 ^ 32 /\
  0 <= msg_tid m < 2 ^ 32 /\ 0 <= msg_domain m < 2 ^ 32.

(** ** Little-endian byte layout *)

Fixpoint le_bytes (n : nat) (z : Z) : string :=
  match n with
  | O => EmptyString
  | S n => String (byte_chr z) (le_bytes n (z / 256))
  end.

Fixpoint le_val (n : nat) (s : string) : Z :=
  match n, s with
  | S n, String c s => byte_val c + 256 * le_val n s
  | _, _ => 0
  end.

(** The bit fields share one 16-bit unit, allocated from the low bits up. *)
Definition pack_bits (version type level tagLen : Z) : Z :=
  version + 8 * type + 128 * level + 1024 * tagLen.

Definition encode_header (m : HilogMsg) : string :=
  le_bytes 2 (msg_len m) +:+
  le_bytes 2 (pack_bits (msg_version m) (msg_type m) (msg_level m) (msg_tagLen m)) +:+
  le_bytes 4 (msg_tv_sec m) +:+ le_bytes 4 (msg_tv_nsec m) +:+ le_bytes 4 (msg_mono_sec m) +:+
  le_bytes 4 (msg_pid m) +:+ le_bytes 4 (msg_tid m) +:+ le_bytes 4 (msg_domain m).

(** [reinterpret_cast<HilogMsg *>(data)]. *)
Definition HilogMsg_of_bytes (data : string) : HilogMsg :=
  let bits := le_val 2 (str_drop 2 data) in
  {| msg_len := le_val 2 data;
     msg_version := bits mod 8;
     msg_type := (bits / 8) mod 16;
     msg_level := (bits / 128) mod 8;
     msg_tagLen := (bits / 1024) mod 64;
     msg_tv_sec := le_val 4 (str_drop 4 data);
     msg_tv_nsec := le_val 4 (str_drop 8 data);
     msg_mono_sec := le_val 4 (str_drop 12 data);
     msg_pid := le_val 4 (str_drop 16 data);
     msg_tid := le_val 4 (str_drop 20 data);
     msg_domain := le_val 4 (str_drop 24 data);
     msg_tag := str_drop 28 data |}.

Lemma le_bytes_length n z : String.length (le_bytes n z) = n.
Proof. revert z; induction n; intros z; simpl; [done | by rewrite IHn]. Qed.

Lemma slen_le_bytes n z : slen (le_bytes n z) = Z.of_nat n.
Proof. unfold slen. by rewrite le_bytes_length. Qed.

Lemma le_val_bytes_app n z s :
  0 <= z < 256 ^ Z.of_nat n -> le_val n (le_bytes n z +:+ s) = z.
Proof.
  revert z; induction n as [|n IH]; intros z Hz; [simpl in *; lia|].
  simpl le_bytes. rewrite str_cons_app. simpl le_val.
  rewrite IH, byte_val_chr.
  - pose proof (Z.div_mod z 256 ltac:(lia)). lia.
  - rewrite Nat2Z.inj_succ, Z.pow_succ_r in Hz by lia.
    split; [apply Z.div_pos; lia | apply Z.div_lt_upper_bound; lia].
Qed.

Lemma le_val_range n s : 0 <= le_val n s < 256 ^ Z.of_nat n.
Proof.
  revert s; induction n as [|n IH]; intros s; [simpl; lia|].
  rewrite Nat2Z.inj_succ, Z.pow_succ_r by lia.
  destruct s as [|c s]; simpl le_val.
  - pose proof (Z.pow_pos_nonneg 256 (Z.of_nat n) ltac:(lia) ltac:(lia)). lia.
  - specialize (IH s). pose proof (byte_val_range c). lia.
Qed.

Lemma str_drop_le_bytes n z s : str_drop n (le_bytes n z +:+ s) = s.
Proof. rewrite <- (le_bytes_length n z) at 1. apply str_drop_app_length. Qed.

Lemma str_drop_add a b s : str_drop (a + b) s = str_drop b (str_drop a s).
Proof.
  revert s; induction a as [|a IH]; intros [|c s]; simpl; try done.
  destruct b; done.
Qed.

Lemma pack_bits_range v t l g :
  0 <= v < 8 -> 0 <= t < 16 -> 0 <= l < 8 -> 0 <= g < 64 -> 0 <= pack_bits v t l g < 2 ^ 16.
Proof. unfold pack_bits. lia. Qed.

Lemma unpack_bits v t l g :
  0 <= v < 8 -> 0 <= t < 16 -> 0 <= l < 8 -> 0 <= g < 64 ->
  let b := pack_bits v t l g in
  b mod 8 = v /\ (b / 8) mod 16 = t /\ (b / 128) mod 8 = l /\ (b / 1024) mod 64 = g.
Proof. unfold pack_bits. intros. repeat split; Z.div_mod_to_equations; lia. Qed.

(** The header written by a client is the header the daemon reads, and the
    bytes after it are the flexible array. *)
Lemma decode_encode_header m :
  msg_wf m -> HilogMsg_of_bytes (encode_header m +:+ msg_tag m) = m.
Proof.
  intros (? & ? & ? & ? & ? & ? & ? & ? & ? & ? & ?).
  unfold encode_header, HilogMsg_of_bytes. rewrite <- !str_app_assoc.
  pose proof (pack_bits_range (msg_version m) (msg_type m) (msg_level m) (msg_tagLen m)
    ltac:(lia) ltac:(lia) ltac:(lia) ltac:(lia)).
  pose proof (unpack_bits (msg_version m) (msg_type m) (msg_level m) (msg_tagLen m)
    ltac:(lia) ltac:(lia) ltac:(lia) ltac:(lia)) as (B1 & B2 & B3 & B4).
  change 28%nat with (2 + (2 + (4 + (4 + (4 + (4 + (4 + 4)))))))%nat.
  change 24%nat with (2 + (2 + (4 + (4 + (4 + (4 + 4))))))%nat.
  change 20%nat with (2 + (2 + (4 + (4 + (4 + 4)))))%nat.
  change 16%nat with (2 + (2 + (4 + (4 + 4))))%nat.
  change 12%nat with (2 + (2 + (4 + 4)))%nat.
  change 8%nat with (2 + (2 + 4))%nat.
  change (str_drop 4) with (str_drop (2 + 2)).
  rewrite !str_drop_add, !str_drop_le_bytes, !le_val_bytes_app by (simpl; lia).
  rewrite B1, B2, B3, B4. by destruct m.
Qed.

Lemma slen_encode_header m : slen (encode_header m) = sizeof_HilogMsg.
Proof.
  unfold encode_header. rewrite !slen_app. unfold slen. rewrite !le_bytes_length. done.
Qed.

Lemma HilogMsg_of_bytes_wf data : msg_wf (HilogMsg_of_bytes data).
Proof.
  unfold msg_wf, HilogMsg_of_bytes; cbn -[le_val str_drop].
  pose proof (le_val_range 2 data).
  pose proof (fun k => le_val_range 4 (str_drop k data)) as H4. cbn -[le_val str_drop] in H4.
  repeat match goal with |- _ /\ _ => split end;
    try (apply Z.mod_pos_bound; lia); try apply (H4 _); lia.
Qed.

(** A header whose lengths are inconsistent has a huge content length: the
    unsigned subtraction wraps above every limit. *)
Lemma CONTENT_LEN_cases m :
  msg_wf m ->
  (sizeof_HilogMsg + msg_tagLen m <= msg_len m /\
   CONTENT_LEN m = msg_len m - sizeof_HilogMsg - msg_tagLen m) \/
  (msg_len m < sizeof_HilogMsg + msg_tagLen m /\ MAX_LOG_LEN < CONTENT_LEN m).
Proof.
  intros (? & ? & ? & ? & ? & _). unfold CONTENT_LEN, sizeof_HilogMsg, MAX_LOG_LEN in *.
  destruct (Z.le_gt_cases (28 + msg_tagLen m) (msg_len m)) as [Hle|Hgt]; [left|right].
  - split; [done|]. apply wrapu_small. lia.
  - split; [done|]. unfold wrapu.
    rewrite <- (Z.mod_unique_pos (msg_len m - 28 - msg_tagLen m) (2 ^ 64) (-1)
      (msg_len m - 28 - msg_tagLen m + 2 ^ 64)); lia.
Qed.
#[export] Hint Resolve HilogMsg_of_bytes_wf : hilog.
