(* ===== verification/TimeStamp.v ===== *)
(** * LogTimeStamp (log_timestamp.h)

    Seconds and nanoseconds in 32-bit unsigned fields, the comparison
    operators, the saturating [-=] and the carrying [+=], and their meaning as
    a number of nanoseconds. *)

From S2P Require Import Prelude.

Record LogTimeStamp := mkTS { tv_sec : Z; tv_nsec : Z }.

#[export] Instance LogTimeStamp_eq_dec : EqDecision LogTimeStamp.
Proof. solve_decision. Defined.

Definition NS_PER_SEC : Z := 1000000000.

Definition ts_eqb (a b : LogTimeStamp) : bool :=
  (tv_sec a =? tv_sec b) && (tv_nsec a =? tv_nsec b).
Definition ts_ltb (a b : LogTimeStamp) : bool :=
  (tv_sec a <? tv_sec b) || ((tv_sec a =? tv_sec b) && (tv_nsec a <? tv_nsec b)).
Definition ts_geb (a b : LogTimeStamp) : bool := negb (ts_ltb a b).
Definition ts_gtb (a b : LogTimeStamp) : bool :=
  (tv_sec b <? tv_sec a) || ((tv_sec a =? tv_sec b) && (tv_nsec b <? tv_nsec a)).
Definition ts_leb (a b : LogTimeStamp) : bool := negb (ts_gtb a b).

Declare Scope ts_scope.
Delimit Scope ts_scope with ts.
Infix "=?" := ts_eqb : ts_scope.
Infix "<?" := ts_ltb : ts_scope.
Infix "<=?" := ts_leb : ts_scope.
Infix ">?" := ts_gtb : ts_scope.
Infix ">=?" := ts_geb : ts_scope.

(** [operator -=]: the result of the assignment. *)
Definition ts_sub (a b : LogTimeStamp) : LogTimeStamp :=
  if ts_leb a b then mkTS 0 0
  else if tv_nsec a <? tv_nsec b then
    mkTS (u32 (u32 (tv_sec a - 1) - tv_sec b))
         (u32 (u64 (u64 (NS_PER_SEC + tv_nsec a) - tv_nsec b)))
  else mkTS (u32 (tv_sec a - tv_sec b)) (u32 (tv_nsec a - tv_nsec b)).

(** [operator +=]. *)
Definition ts_add (a b : LogTimeStamp) : LogTimeStamp :=
  let ns := u32 (tv_nsec a + tv_nsec b) in
  let '(s1, ns1) :=
    if NS_PER_SEC <=? ns then (u32 (tv_sec a + 1), u32 (ns - NS_PER_SEC)) else (tv_sec a, ns) in
  mkTS (u32 (s1 + tv_sec b)) ns1.

(** ** Meaning *)

Definition ts_ns (t : LogTimeStamp) : Z := tv_sec t * NS_PER_SEC + tv_nsec t.

(** In range and with a normalised nanosecond part, as [clock_gettime] gives it. *)
Definition ts_norm (t : LogTimeStamp) : Prop :=
  0 <= tv_sec t < 2 ^ 32 /\ 0 <= tv_nsec t < NS_PER_SEC.

Ltac ts_unfold :=
  unfold ts_ns, ts_norm, ts_leb, ts_geb, ts_gtb, ts_ltb, ts_eqb, NS_PER_SEC in *; simpl in *.

Lemma ts_ltb_ns a b : ts_norm a -> ts_norm b -> (a <? b)%ts = (ts_ns a <? ts_ns b).
Proof. destruct a, b; ts_unfold; lia. Qed.

Lemma ts_gtb_ns a b : ts_norm a -> ts_norm b -> (a >? b)%ts = (ts_ns b <? ts_ns a).
Proof. destruct a, b; ts_unfold; lia. Qed.

Lemma ts_leb_ns a b : ts_norm a -> ts_norm b -> (a <=? b)%ts = (ts_ns a <=? ts_ns b).
Proof. destruct a, b; ts_unfold; lia. Qed.

Lemma ts_ns_inj a b : ts_norm a -> ts_norm b -> ts_ns a = ts_ns b -> a = b.
Proof. destruct a, b; ts_unfold; intros; f_equal; lia. Qed.

Lemma ts_gtb_ltb a b : (a >? b)%ts = (b <? a)%ts.
Proof. destruct a, b; ts_unfold; lia. Qed.

Lemma ts_sub_spec a b :
  ts_norm a -> ts_norm b ->
  ts_norm (ts_sub a b) /\ ts_ns (ts_sub a b) = Z.max 0 (ts_ns a - ts_ns b).
Proof.
  intros Ha Hb. unfold ts_sub. rewrite ts_leb_ns by done.
  destruct a as [s1 n1], b as [s2 n2]. ts_unfold.
  destruct (Z.leb_spec (s1 * 1000000000 + n1) (s2 * 1000000000 + n2)); simpl; [lia|].
  destruct (Z.ltb_spec n1 n2); simpl; unwrap; lia.
Qed.

Lemma ts_add_spec a b :
  ts_norm a -> ts_norm b -> tv_sec a + tv_sec b + 1 < 2 ^ 32 ->
  ts_norm (ts_add a b) /\ ts_ns (ts_add a b) = ts_ns a + ts_ns b.
Proof.
  intros Ha Hb Hs. unfold ts_add. destruct a as [s1 n1], b as [s2 n2]. ts_unfold.
  rewrite (wrapu_small 32 (n1 + n2)) by lia.
  destruct (Z.leb_spec 1000000000 (n1 + n2)); simpl; unwrap; lia.
Qed.

(** ** Properties *)

(** The comparison operators of [LogTimeStamp] are those of the total order
    of time in nanoseconds, and its arithmetic is exact: [a -= b] is the
    difference cut off at zero and [a += b] the sum, both normalised. *)
Theorem timestamp_arithmetic a b :
  ts_norm a -> ts_norm b -> tv_sec a + tv_sec b + 1 < 2 ^ 32 ->
  (a <? b)%ts = (ts_ns a <? ts_ns b) /\ (a >? b)%ts = (b <? a)%ts /\
  (a <=? b)%ts = (ts_ns a <=? ts_ns b) /\ ((a =? b)%ts = true <-> a = b) /\
  ts_norm (ts_sub a b) /\ ts_ns (ts_sub a b) = Z.max 0 (ts_ns a - ts_ns b) /\
  ts_norm (ts_add a b) /\ ts_ns (ts_add a b) = ts_ns a + ts_ns b /\
  ts_sub (ts_add a b) b = a.
Proof.
  intros Ha Hb Hs.
  destruct (ts_sub_spec a b Ha Hb) as [Hsn Hsv], (ts_add_spec a b Ha Hb Hs) as [Han Hav].
  destruct (ts_sub_spec (ts_add a b) b Han Hb) as [Hrn Hrv].
  repeat split; auto using ts_ltb_ns, ts_gtb_ltb, ts_leb_ns;
    try apply Hsn; try apply Han.
  - destruct a, b; ts_unfold. intros; f_equal; lia.
  - intros ->. destruct b; ts_unfold. lia.
  - apply ts_ns_inj; [done..|]. rewrite Hrv, Hav.
    assert (0 <= ts_ns a) by (destruct a; ts_unfold; lia). lia.
Qed.

Lemma timestamp_arithmetic_witness :
  ts_sub (mkTS 7 100) (mkTS 5 200) = mkTS 1 999999900 /\
  ts_sub (ts_add (mkTS 7 100) (mkTS 5 999999999)) (mkTS 5 999999999) = mkTS 7 100.
Proof.
  split; [by vm_compute|].
  apply (timestamp_arithmetic (mkTS 7 100) (mkTS 5 999999999)); ts_unfold; lia.
Defined.
