(* ===== verification/Utils.v ===== *)
(** * Shared utilities (log_utils.h, log_utils.cpp)

    The key/value tables between numbers and their names, splitting of
    comma-separated arguments, bit counting, size strings, decimal and
    hexadecimal printing, and the checksum of the recovery files. *)

From S2P Require Import Prelude Common.
From Stdlib Require Import Ascii.

(** ** KVMap

    [str_map] lists the entries in the iteration order of the
    [unordered_map], which the standard leaves unspecified: what depends on
    that order takes the table as an argument. *)

Section KVMap.
Context {K V : Type} `{EqDecision K}.

Record KVMap := mkKVMap {
  str_map : list (K * V);
  def_key : K;
  def_value : V;
  compare : V -> V -> bool;
}.

Fixpoint kv_find (key : K) (l : list (K * V)) : option V :=
  match l with
  | [] => None
  | (k, v) :: l => if decide (key = k) then Some v else kv_find key l
  end.

Fixpoint kv_find_value (cmp : V -> V -> bool) (value : V) (l : list (K * V)) : option K :=
  match l with
  | [] => None
  | (k, v) :: l => if cmp value v then Some k else kv_find_value cmp value l
  end.

Definition GetValue (m : KVMap) (key : K) : V := default (def_value m) (kv_find key (str_map m)).
Definition GetKey (m : KVMap) (value : V) : K :=
  default (def_key m) (kv_find_value (compare m) value (str_map m)).
Definition GetAllKeys (m : KVMap) : list K := (str_map m).*1.
Definition IsValidKey (m : KVMap) (key : K) : bool :=
  match kv_find key (str_map m) with Some _ => true | None => false end.

Lemma kv_find_elem key v l : NoDup l.*1 -> (kv_find key l = Some v <-> (key, v) ∈ l).
Proof.
  induction l as [|[k w] l IH]; simpl; intros Hnd.
  - split; [done | by intros ?%elem_of_nil].
  - apply NoDup_cons in Hnd as [Hk Hnd]. rewrite elem_of_cons. case_decide; subst.
    + split; [by intros [= ->]; left|]. intros [[= <-]|Hin]; [done|].
      destruct Hk. apply list_elem_of_fmap. by exists (k, v).
    + rewrite IH by done. naive_solver.
Qed.

(** Looking up a key does not depend on the iteration order. *)
Lemma kv_find_perm key l1 l2 : l1 ≡ₚ l2 -> NoDup l1.*1 -> kv_find key l1 = kv_find key l2.
Proof.
  intros Hp Hnd. assert (NoDup l2.*1) by (by rewrite <- Hp).
  apply option_eq. intros v. rewrite !kv_find_elem by done. by rewrite Hp.
Qed.

(** Nor does looking up a value that only one entry matches. *)
Lemma kv_find_value_unique cmp value k v l :
  (k, v) ∈ l -> cmp value v = true ->
  (forall e, e ∈ l -> cmp value e.2 = true -> e.1 = k) ->
  kv_find_value cmp value l = Some k.
Proof.
  induction l as [|[k' v'] l IH]; intros Hin Hc Hu; [by apply elem_of_nil in Hin|].
  simpl. destruct (cmp value v') eqn:E.
  - f_equal. apply (Hu (k', v')); [left | done].
  - apply elem_of_cons in Hin as [[= <- <-]|Hin]; [congruence|].
    apply IH; [done..|]. intros e He. apply Hu. by right.
Qed.
End KVMap.
Arguments KVMap : clear implicits.

Definition str_eqb (a b : string) : bool := bool_decide (a = b).

(** [std::tolower] in the C locale. *)
Definition tolower (c : ascii) : ascii :=
  let v := byte_val c in if (65 <=? v) && (v <=? 90) then byte_chr (v + 32) else c.

Fixpoint str_eqb_nocase (a b : string) : bool :=
  match a, b with
  | EmptyString, EmptyString => true
  | String c a, String d b => bool_decide (tolower c = tolower d) && str_eqb_nocase a b
  | _, _ => false
  end.

(** ** Log types *)

Definition g_LogTypes : KVMap Z string :=
  mkKVMap [(LOG_INIT, "init"); (LOG_CORE, "core"); (LOG_APP, "app"); (LOG_KMSG, "kmsg");
           (LOG_ONLY_PRERELEASE, "only_prerelease")]
          LOG_TYPE_MAX "invalid" str_eqb.

Definition LogType2Str (logType : Z) : string := GetValue g_LogTypes logType.
Definition Str2LogType (str : string) : Z := GetKey g_LogTypes str.
Definition GetAllLogTypes : list Z := GetAllKeys g_LogTypes.

(** The loop over the types of [ComboLogType2Str] and [ComboLogLevel2Str]:
    [keys] is the iteration order of the table. *)
Fixpoint combo_str (name : Z -> string) (keys : list Z) (shift : Z) : string :=
  match keys with
  | [] => ""
  | t :: keys =>
      let '(shift', part) :=
        if negb (Z.land (Z.shiftl 1 t) shift =? 0)
        then let s' := Z.land shift (Z.lnot (Z.shiftl 1 t)) in
             (s', name t +:+ (if negb (s' =? 0) then "," else ""))
        else (shift, "") in
      if shift' =? 0 then part else part +:+ combo_str name keys shift'
  end.

Definition combo_mask (keys : list Z) : Z :=
  foldl (fun a t => Z.lor a (u16 (Z.shiftl 1 t))) 0 keys.

Definition ComboLogType2Str (types : list Z) (shiftType : Z) : string :=
  combo_str LogType2Str types (Z.land shiftType (combo_mask types)).

(** ** Splitting

    [Split] with a one-character separator: the first search is
    [find_first_of], the others [find]; for one character they agree. *)

Fixpoint split_at (sep : ascii) (s : string) : option (string * string) :=
  match s with
  | EmptyString => None
  | String c s =>
      if decide (c = sep) then Some (EmptyString, s)
      else match split_at sep s with
           | Some (a, b) => Some (String c a, b)
           | None => None
           end
  end.

Lemma split_at_length sep s a b : split_at sep s = Some (a, b) -> (String.length b < String.length s)%nat.
Proof.
  revert a b; induction s as [|c s IH]; intros a b H; simpl in H; [done|].
  case_decide; [by simplify_eq/=; lia|].
  destruct (split_at sep s) as [[a' b']|] eqn:E; simplify_eq/=.
  specialize (IH _ _ eq_refl). lia.
Qed.

Fixpoint split_loop (fuel : nat) (sep : ascii) (s : string) : list string :=
  match fuel with
  | O => []
  | S fuel =>
      match split_at sep s with
      | Some (a, b) => a :: split_loop fuel sep b
      | None => if decide (s = "") then [] else [s]
      end
  end.

Definition Split (src : string) (separator : ascii) : list string :=
  match split_at separator src with
  | None => [src]
  | Some _ => split_loop (S (String.length src)) separator src
  end.

Definition DEFAULT_SPLIT_DELIMIT : ascii := ",".

Fixpoint str2combo (parse : string -> option Z) (vec : list string) (acc : Z) : Z :=
  match vec with
  | [] => acc
  | it :: vec =>
      if decide (it = "") then str2combo parse vec acc
      else match parse it with
           | None => 0
           | Some t => str2combo parse vec (Z.lor acc (u16 (Z.shiftl 1 t)))
           end
  end.

Definition Str2ComboLogType (str : string) : Z :=
  if decide (str = "") then
    Z.lor (Z.lor (Z.shiftl 1 LOG_CORE) (Z.shiftl 1 LOG_APP)) (Z.shiftl 1 LOG_ONLY_PRERELEASE)
  else str2combo (fun it => let t := Str2LogType it in
                            if t =? LOG_TYPE_MAX then None else Some t)
                 (Split str DEFAULT_SPLIT_DELIMIT) 0.

(** ** Log levels *)

Definition g_LogLevels : KVMap Z string :=
  mkKVMap [(LOG_DEBUG, "DEBUG"); (LOG_INFO, "INFO"); (LOG_WARN, "WARN");
           (LOG_ERROR, "ERROR"); (LOG_FATAL, "FATAL"); (LOG_LEVEL_MAX, "X")]
          LOG_LEVEL_MIN "INVALID" str_eqb_nocase.

Definition short_level_eqb (l1 l2 : string) : bool :=
  match l1, l2 with
  | String c EmptyString, String d _ => bool_decide (tolower c = tolower d)
  | _, _ => false
  end.

Definition g_ShortLogLevels : KVMap Z string :=
  mkKVMap [(LOG_DEBUG, "D"); (LOG_INFO, "I"); (LOG_WARN, "W");
           (LOG_ERROR, "E"); (LOG_FATAL, "F"); (LOG_LEVEL_MAX, "X")]
          LOG_LEVEL_MIN "V" short_level_eqb.

Definition LogLevel2Str (l : Z) : string := GetValue g_LogLevels l.
Definition Str2LogLevel (s : string) : Z := GetKey g_LogLevels s.
Definition LogLevel2ShortStr (l : Z) : string := GetValue g_ShortLogLevels l.
Definition ShortStr2LogLevel (s : string) : Z := GetKey g_ShortLogLevels s.

Definition PrettyStr2LogLevel (s : string) : Z :=
  let level := ShortStr2LogLevel s in
  if level =? LOG_LEVEL_MIN then Str2LogLevel s else level.

Definition ComboLogLevel2Str (levels : list Z) (shiftLevel : Z) : string :=
  combo_str LogLevel2Str levels (Z.land shiftLevel (combo_mask levels)).

Definition Str2ComboLogLevel (str : string) : Z :=
  if decide (str = "") then 0xFFFF
  else str2combo (fun it => let t := PrettyStr2LogLevel it in
                            if (t =? LOG_LEVEL_MIN) || (LOG_LEVEL_MAX <=? t) then None else Some t)
                 (Split str DEFAULT_SPLIT_DELIMIT) 0.

(** ** Bit counting *)

(** One iteration of the loop per set bit; 64 iterations cover a [uint64_t]. *)
Fixpoint bits_loop (fuel : nat) (n count : Z) : Z :=
  match fuel with
  | O => count
  | S fuel => if n =? 0 then count else bits_loop fuel (Z.land n (u64 (n - 1))) (u32 (count + 1))
  end.

Definition GetBitsCount (n : Z) : Z := bits_loop 64 n 0.

(** [None]: the shift count reaches the width of [n], which the language
    leaves undefined. *)
Fixpoint bitpos_loop (fuel : nat) (n i : Z) : option Z :=
  match fuel with
  | O => None
  | S fuel => if Z.shiftr n i =? 0 then Some (i + 1) else bitpos_loop fuel n (i + 1)
  end.

Definition GetBitPos (n : Z) : option Z :=
  if negb (negb (n =? 0) && (Z.land n (u64 (n - 1)) =? 0)) then Some 0
  else match bitpos_loop 64 n 0 with
       | Some i => Some (u16 (u16 (i - 1) - 1))
       | None => None
       end.

(** ** Numbers as text *)

Definition digit_chr (d : Z) : ascii := byte_chr (if d <? 10 then 48 + d else 87 + d).

Fixpoint num_go (radix : Z) (fuel : nat) (n : Z) (acc : string) : string :=
  match fuel with
  | O => acc
  | S fuel =>
      let acc' := String (digit_chr (n mod radix)) acc in
      if n <? radix then acc' else num_go radix fuel (n / radix) acc'
  end.

(** A number has at most as many digits in any radix as bits. *)
Definition Num2Str (radix z : Z) : string := num_go radix (S (Z.to_nat (Z.log2 z))) z "".

Definition Uint2DecStr (i : Z) : string := Num2Str 10 i.
Definition Uint2HexStr (i : Z) : string := Num2Str 16 i.

(** [std::to_string] on a signed integer. *)
Definition to_string (z : Z) : string :=
  if z <? 0 then "-" +:+ Num2Str 10 (- z) else Num2Str 10 z.

Definition is_digit (c : ascii) : bool := (48 <=? byte_val c) && (byte_val c <=? 57).

Definition chr_digit (c : ascii) : Z :=
  let v := byte_val c in
  if is_digit c then v - 48
  else if (97 <=? v) && (v <=? 102) then v - 87
  else if (65 <=? v) && (v <=? 70) then v - 55 else 16.

(** The value of the longest prefix of digits. *)
Fixpoint read_digits (radix acc : Z) (s : string) : Z :=
  match s with
  | EmptyString => acc
  | String c s => if chr_digit c <? radix then read_digits radix (radix * acc + chr_digit c) s else acc
  end.

Definition is_space (c : ascii) : bool :=
  let v := byte_val c in (v =? 32) || ((9 <=? v) && (v <=? 13)).

Fixpoint skip_space (s : string) : string :=
  match s with String c s' => if is_space c then skip_space s' else s | EmptyString => s end.

Definition strip_0x (radix : Z) (s : string) : string :=
  match s with
  | String c (String d s') =>
      if (radix =? 16) && bool_decide (c = "0"%char) && bool_decide (tolower d = "x"%char) then s' else s
  | _ => s
  end.

Definition take_sign (s : string) : bool * string :=
  match s with
  | String c s' =>
      if decide (c = "-"%char) then (true, s')
      else if decide (c = "+"%char) then (false, s') else (false, s)
  | EmptyString => (false, s)
  end.

(** The digits [operator>>] extracts into a [uint32_t]: a minus sign negates
    modulo 2^32, a value out of range gives the largest one and a failure. *)
Definition read_number (radix : Z) (neg : bool) (s : string) : Z * bool :=
  match s with
  | String c _ =>
      if chr_digit c <? radix then
        let v := read_digits radix 0 s in
        if v <? 2 ^ 32 then (if neg then u32 (- v) else v, true) else (2 ^ 32 - 1, false)
      else (0, false)
  | EmptyString => (0, false)
  end.

Definition extract_uint32 (radix : Z) (s : string) : Z * bool :=
  let '(neg, s) := take_sign (skip_space s) in
  read_number radix neg (strip_0x radix s).

Definition DecStr2Uint (str : string) : Z * bool := extract_uint32 10 str.
Definition HexStr2Uint (str : string) : Z * bool := extract_uint32 16 str.

(** ** Sizes with a unit *)

Definition g_SizeMap : KVMap ascii Z :=
  mkKVMap [("B"%char, 1); ("K"%char, 2 ^ 10); ("M"%char, 2 ^ 20); ("G"%char, 2 ^ 30);
           ("T"%char, 2 ^ 40)] " "%char 0 Z.eqb.

(** [regex_match(str, "[0-9]+[BKMGT]?")]. *)
Fixpoint size_regex_tail (s : string) : bool :=
  match s with
  | EmptyString => true
  | String c EmptyString => is_digit c || IsValidKey g_SizeMap c
  | String c s => is_digit c && size_regex_tail s
  end.
Definition size_regex (s : string) : bool :=
  match s with
  | EmptyString => false
  | String c s => is_digit c && size_regex_tail s
  end.

Fixpoint str_last (d : ascii) (s : string) : ascii :=
  match s with EmptyString => d | String c s => str_last c s end.

(** [None]: [stoull] throws [out_of_range]. *)
Definition stoull (s : string) : option Z :=
  let v := read_digits 10 0 s in if v <? 2 ^ 64 then Some v else None.

Definition Str2Size (str : string) : option Z :=
  if negb (size_regex str) then Some 0
  else
    let index := (String.length str - 1)%nat in
    let unit := GetValue g_SizeMap (str_last NUL str) in
    match stoull (str_take (if negb (unit =? 0) then index else S index) str) with
    | None => None
    | Some value => Some (u64 (value * (if negb (unit =? 0) then unit else 1)))
    end.

(** ** The recovery checksum (FNV-1a over 64 bits)

    [char_signed] says whether the platform's [char] is signed: the byte is
    sign-extended before the exclusive or when it is. *)

Definition FNV_PRIME : Z := 0x100000001B3.
Definition FNV_BASIS : Z := 0xCBF29CE484222325.

Definition char_u64 (char_signed : bool) (c : ascii) : Z :=
  if char_signed && (128 <=? byte_val c) then u64 (byte_val c - 256) else byte_val c.

Fixpoint hash_loop (char_signed : bool) (ret : Z) (p : string) : Z :=
  match p with
  | EmptyString => ret
  | String c p => hash_loop char_signed (u64 (Z.lxor ret (char_u64 char_signed c) * FNV_PRIME)) p
  end.

Definition GenerateHash (char_signed : bool) (p : string) : Z := hash_loop char_signed FNV_BASIS p.

(** * Lemmas and properties *)

(** ** Splitting *)

Fixpoint join (sep : ascii) (l : list string) : string :=
  match l with
  | [] => ""
  | [s] => s
  | s :: l => s +:+ String sep (join sep l)
  end.

Lemma join_cons sep s l : l <> [] -> join sep (s :: l) = s +:+ String sep (join sep l).
Proof. by destruct l. Qed.

Lemma join_one sep s : join sep [s] = s.
Proof. done. Qed.
#[local] Arguments join : simpl never.

Lemma split_at_app sep a b : no_char sep a -> split_at sep (a +:+ String sep b) = Some (a, b).
Proof.
  induction a as [|c a IH]; intros Ha.
  - rewrite str_nil_app. simpl. by rewrite decide_True.
  - apply no_char_cons in Ha as [Hc Ha]. rewrite str_cons_app. simpl.
    rewrite decide_False by congruence. by rewrite IH.
Qed.

Lemma split_at_None sep a : no_char sep a -> split_at sep a = None.
Proof.
  induction a as [|c a IH]; intros Ha; [done|]. apply no_char_cons in Ha as [Hc Ha].
  simpl. rewrite decide_False by congruence. by rewrite IH.
Qed.

Lemma split_loop_join sep l fuel :
  l <> [] -> Forall (no_char sep) l -> last l <> Some "" ->
  (String.length (join sep l) < fuel)%nat -> split_loop fuel sep (join sep l) = l.
Proof.
  revert l; induction fuel as [|fuel IH]; intros l Hne Hall Hlast Hf; [lia|].
  destruct l as [|s l]; [done|]. apply Forall_cons in Hall as [Hs Hall].
  destruct l as [|s' l].
  - simpl. rewrite join_one, split_at_None by done. rewrite decide_False; [done|].
    intros ->. by destruct Hlast.
  - rewrite join_cons in * by done. simpl split_loop. rewrite split_at_app by done.
    f_equal. apply IH; [done | done | done |].
    assert (slen (s +:+ String sep (join sep (s' :: l))) < Z.of_nat (S fuel)) by (unfold slen; lia).
    rewrite slen_app, slen_cons in *. unfold slen in *. lia.
Qed.

(** A list of comma-free names printed with commas between them is
    recovered by [Split], unless its last name is empty and dropped: every
    list option of the tool and every combination name goes through it. *)
Lemma Split_join sep l :
  l <> [] -> Forall (no_char sep) l -> (last l <> Some "" \/ length l = 1%nat) ->
  Split (join sep l) sep = l.
Proof.
  intros Hne Hall Hl. unfold Split. destruct l as [|s [|s' l]]; [done| |].
  - apply Forall_cons in Hall as [Hs _]. rewrite join_one. by rewrite split_at_None.
  - assert (last (s :: s' :: l) <> Some "") as Hlast by (destruct Hl; [done | simpl in *; lia]).
    rewrite split_loop_join by (done || lia).
    apply Forall_cons in Hall as [Hs _]. rewrite join_cons by done. by rewrite split_at_app.
Qed.

(** ** Bit masks *)

Lemma testbit_bit t i : 0 <= t -> 0 <= i -> Z.testbit (Z.shiftl 1 t) i = (t =? i).
Proof.
  intros Ht Hi. rewrite Z.shiftl_spec by lia. destruct (Z.eqb_spec t i) as [->|Hne].
  - by rewrite Z.sub_diag.
  - destruct (Z.lt_ge_cases i t); [by apply Z.testbit_neg_r; lia|].
    rewrite <- (Z.pow_0_r 2), Z.pow2_bits_false; [done | lia].
Qed.

Lemma land_bit_eqb t s :
  0 <= t -> 0 <= s -> negb (Z.land (Z.shiftl 1 t) s =? 0) = Z.testbit s t.
Proof.
  intros Ht Hs. destruct (Z.testbit s t) eqn:E.
  - apply negb_true_iff, Z.eqb_neq. intros H0.
    assert (Z.testbit (Z.land (Z.shiftl 1 t) s) t = true) as Hb.
    { rewrite Z.land_spec, testbit_bit, Z.eqb_refl by lia. done. }
    by rewrite H0, Z.bits_0 in Hb.
  - apply negb_false_iff, Z.eqb_eq. apply Z.bits_inj'. intros i Hi.
    rewrite Z.land_spec, Z.bits_0, testbit_bit by lia.
    destruct (Z.eqb_spec t i) as [->|]; [by rewrite E | done].
Qed.

(** The union of the bits of a list of positions. *)
Definition bits_of (ks : list Z) : Z := foldr (fun t a => Z.lor (Z.shiftl 1 t) a) 0 ks.

Lemma bits_of_spec ks i :
  Forall (fun t => 0 <= t) ks -> 0 <= i -> Z.testbit (bits_of ks) i = bool_decide (i ∈ ks).
Proof.
  intros Hall Hi. induction Hall as [|t ks Ht Hall IH]; simpl.
  - by rewrite Z.bits_0.
  - rewrite Z.lor_spec, testbit_bit, IH by lia.
    apply eq_iff_eq_true. rewrite orb_true_iff, !bool_decide_eq_true, elem_of_cons, Z.eqb_eq.
    naive_solver.
Qed.

Lemma bits_of_nonneg ks : 0 <= bits_of ks.
Proof.
  induction ks as [|t ks IH]; simpl; [done|].
  apply Z.lor_nonneg. split; [by apply Z.shiftl_nonneg | done].
Qed.

Lemma u16_bit t : 0 <= t < 16 -> u16 (Z.shiftl 1 t) = Z.shiftl 1 t.
Proof.
  intros Ht. apply wrapu_small. rewrite Z.shiftl_1_l. split; [lia|].
  apply Z.pow_lt_mono_r; lia.
Qed.

Lemma combo_mask_bits ks : Forall (fun t => 0 <= t < 16) ks -> combo_mask ks = bits_of ks.
Proof.
  intros Hall. unfold combo_mask.
  assert (forall a, foldl (fun a t => Z.lor a (u16 (Z.shiftl 1 t))) a ks = Z.lor a (bits_of ks)) as H.
  { induction Hall as [|t ks Ht Hall IH]; intros a; simpl; [by rewrite Z.lor_0_r|].
    rewrite IH, u16_bit by done. by rewrite Z.lor_assoc. }
  by rewrite H.
Qed.

Lemma str2combo_bits parse name ks acc :
  Forall (fun t => 0 <= t < 16 /\ name t <> "" /\ parse (name t) = Some t) ks ->
  str2combo parse (name <$> ks) acc = Z.lor acc (bits_of ks).
Proof.
  intros Hall. revert acc. induction Hall as [|t ks (Ht & Hn & Hp) Hall IH]; intros acc; simpl.
  - by rewrite Z.lor_0_r.
  - rewrite decide_False, Hp, IH, u16_bit by done. by rewrite Z.lor_assoc.
Qed.

Lemma filter_testbit_0 keys : List.filter (Z.testbit 0) keys = [].
Proof. induction keys as [|t keys IH]; simpl; [done|]. by rewrite Z.bits_0. Qed.

(** The printed combination is the names of the set bits, in table order. *)
Lemma combo_str_join name keys shift :
  NoDup keys -> Forall (fun t => 0 <= t) keys -> 0 <= shift ->
  (forall i, 0 <= i -> Z.testbit shift i = true -> i ∈ keys) ->
  combo_str name keys shift = join "," (name <$> List.filter (Z.testbit shift) keys).
Proof.
  revert shift; induction keys as [|t keys IH]; intros shift Hnd Hall Hs Hcov; [done|].
  apply NoDup_cons in Hnd as [Htk Hnd]. apply Forall_cons in Hall as [Ht Hall].
  simpl combo_str. rewrite land_bit_eqb by done. simpl List.filter.
  destruct (Z.testbit shift t) eqn:E.
  - set (s' := Z.land shift (Z.lnot (Z.shiftl 1 t))).
    assert (forall i, 0 <= i -> Z.testbit s' i = Z.testbit shift i && negb (t =? i)) as Hbit.
    { intros i Hi. unfold s'. by rewrite Z.land_spec, Z.lnot_spec, testbit_bit by lia. }
    assert (List.filter (Z.testbit shift) keys = List.filter (Z.testbit s') keys) as ->.
    { apply List.filter_ext_in. intros i Hi%list_elem_of_In.
      assert (0 <= i) by (by eapply Forall_forall in Hall).
      rewrite Hbit by done. destruct (Z.eqb_spec t i) as [->|]; [done|]. by rewrite andb_true_r. }
    assert (0 <= s') as Hs' by (apply Z.land_nonneg; by left).
    simpl. destruct (Z.eqb_spec s' 0) as [->|Hne]; simpl.
    + rewrite str_app_nil_r. by rewrite filter_testbit_0.
    + rewrite IH; try done.
      * rewrite (join_cons _ (name t)); [by rewrite <- str_app_assoc|].
        intros Hnil%fmap_nil_inv. apply Hne, Z.bits_inj'. intros i Hi. rewrite Z.bits_0.
        destruct (Z.testbit s' i) eqn:Ei; [|done].
        assert (i ∈ List.filter (Z.testbit s') keys) as Hin; [|by rewrite Hnil in Hin; apply elem_of_nil in Hin].
        apply list_elem_of_In, List.filter_In. split; [|done]. apply list_elem_of_In.
        rewrite Hbit in Ei by done. apply andb_true_iff in Ei as [Ei Hti].
        apply Hcov, elem_of_cons in Ei as [->|]; [by rewrite Z.eqb_refl in Hti | done | done].
      * intros i Hi Hb. rewrite Hbit in Hb by done. apply andb_true_iff in Hb as [Hb Hti].
        apply Hcov, elem_of_cons in Hb as [->|]; [by rewrite Z.eqb_refl in Hti | done | done].
  - simpl. destruct (Z.eqb_spec shift 0) as [->|Hne].
    + by rewrite filter_testbit_0.
    + rewrite str_nil_app. apply IH; try done. intros i Hi Hb.
      pose proof (Hcov i Hi Hb) as [->|]%elem_of_cons; congruence.
Qed.

Lemma filter_testbit_elem s keys i : i ∈ List.filter (Z.testbit s) keys <-> i ∈ keys /\ Z.testbit s i = true.
Proof. by rewrite !list_elem_of_In, List.filter_In. Qed.

(** Printing a mask over the table's keys and splitting it at the commas
    gives the names of the bits the mask shares with the table. *)
Lemma combo_split name keys m :
  NoDup keys -> Forall (fun t => 0 <= t < 16) keys -> 0 <= m ->
  Forall (fun t => no_char "," (name t) /\ name t <> "") keys ->
  Z.land m (combo_mask keys) <> 0 ->
  exists ks, (forall i, i ∈ ks <-> i ∈ keys /\ Z.testbit m i = true) /\
    combo_str name keys (Z.land m (combo_mask keys)) <> "" /\
    Split (combo_str name keys (Z.land m (combo_mask keys))) "," = name <$> ks.
Proof.
  intros Hnd Hall Hm Hname Hne. set (s := Z.land m (combo_mask keys)) in *.
  assert (Forall (fun t => 0 <= t) keys) as Hpos by (eapply Forall_impl; [exact Hall | intros; simpl in *; lia]).
  assert (forall i, 0 <= i -> Z.testbit s i = Z.testbit m i && bool_decide (i ∈ keys)) as Hbit.
  { intros i Hi. unfold s. by rewrite Z.land_spec, combo_mask_bits, bits_of_spec. }
  exists (List.filter (Z.testbit s) keys).
  assert (forall i, i ∈ List.filter (Z.testbit s) keys <-> i ∈ keys /\ Z.testbit m i = true) as Hks.
  { intros i. rewrite filter_testbit_elem. destruct (Z.le_gt_cases 0 i).
    - rewrite Hbit, andb_true_iff, bool_decide_eq_true by done. tauto.
    - split; intros [Hi _]; (eapply Forall_forall in Hpos; [|exact Hi]); lia. }
  assert (List.filter (Z.testbit s) keys <> []) as Hnil.
  { intros Hnil. apply Hne, Z.bits_inj'. intros i Hi. rewrite Z.bits_0.
    destruct (Z.testbit s i) eqn:E; [|done]. rewrite Hbit, andb_true_iff, bool_decide_eq_true in E by done.
    assert (i ∈ List.filter (Z.testbit s) keys) as Hin by (apply Hks; tauto).
    rewrite Hnil in Hin. by apply elem_of_nil in Hin. }
  assert (Forall (fun t => no_char "," t /\ t <> "") (name <$> List.filter (Z.testbit s) keys)) as Hn.
  { apply Forall_fmap, Forall_forall. intros i [Hi _]%filter_testbit_elem. by eapply Forall_forall in Hname. }
  rewrite combo_str_join; [| done | done | apply Z.land_nonneg; by left |].
  2:{ intros i Hi. rewrite Hbit, andb_true_iff, bool_decide_eq_true by done. tauto. }
  split; [done|]. destruct (List.filter (Z.testbit s) keys) as [|k ks] eqn:Hf; [done|]. split.
  - apply Forall_cons in Hn as [[_ Hk] _]. destruct ks as [|k' ks]; [done|].
    rewrite fmap_cons, join_cons by done. by destruct (name k).
  - apply Split_join; [done | by eapply Forall_impl; [exact Hn | intros ? []] |]. left.
    intros Hl%last_Some_elem_of. eapply Forall_forall in Hn; [|done]. by destruct Hn.
Qed.

Lemma str2combo_fail parse ks acc :
  (exists k, k ∈ ks /\ k <> "" /\ parse k = None) -> str2combo parse ks acc = 0.
Proof.
  revert acc; induction ks as [|k ks IH]; intros acc (k' & Hin & Hne & Hp); simpl.
  - by apply elem_of_nil in Hin.
  - apply elem_of_cons in Hin as [->|Hin].
    + by rewrite decide_False, Hp.
    + case_decide; [naive_solver|]. destruct (parse k); [naive_solver | done].
Qed.

Lemma combo_mask_perm l1 l2 :
  Forall (fun t => 0 <= t < 16) l2 -> l1 ≡ₚ l2 -> combo_mask l1 = combo_mask l2.
Proof.
  intros Hall Hp. assert (Forall (fun t => 0 <= t < 16) l1) as Hall2 by (by rewrite Hp).
  rewrite !combo_mask_bits by done. apply Z.bits_inj'. intros i Hi.
  rewrite !bits_of_spec by (done || (eapply Forall_impl; [exact Hall || exact Hall2 | simpl; lia])).
  apply bool_decide_ext. by rewrite Hp.
Qed.

Section combo_roundtrip.
Context (name : Z -> string) (parse : string -> option Z) (keys : list Z) (m : Z).
Hypothesis Hnd : NoDup keys.
Hypothesis Hm : 0 <= m.
Hypothesis Hkeys : Forall (fun t => 0 <= t < 16 /\ no_char "," (name t) /\ name t <> "") keys.
Hypothesis Hs : Z.land m (combo_mask keys) <> 0.

Let printed := combo_str name keys (Z.land m (combo_mask keys)).

Lemma combo_parse :
  (forall t, t ∈ keys -> Z.testbit m t = true -> parse (name t) = Some t) ->
  printed <> "" /\ str2combo parse (Split printed ",") 0 = Z.land m (combo_mask keys).
Proof using All.
  intros Hparse.
  assert (Forall (fun t => 0 <= t < 16) keys) as Hr by (eapply Forall_impl; [exact Hkeys | simpl; tauto]).
  destruct (combo_split name keys m) as (ks & Hks & Hstr & Hsp); try done.
  { eapply Forall_impl; [exact Hkeys | simpl; tauto]. }
  split; [done|]. unfold printed. rewrite Hsp, str2combo_bits, Z.lor_0_l.
  - apply Z.bits_inj'. intros i Hi.
    rewrite Z.land_spec, combo_mask_bits, !bits_of_spec; try done.
    + apply eq_iff_eq_true. rewrite andb_true_iff, !bool_decide_eq_true, Hks. tauto.
    + eapply Forall_impl; [exact Hr | simpl; lia].
    + apply Forall_forall. intros t [Ht _]%Hks. eapply Forall_forall in Hr; [|exact Ht]. simpl in *; lia.
  - apply Forall_forall. intros t [Ht Hb]%Hks. pose proof Ht as Hk.
    eapply Forall_forall in Hkeys; [|exact Ht]. simpl in *. naive_solver.
Qed.

Lemma combo_parse_fail t :
  t ∈ keys -> Z.testbit m t = true -> parse (name t) = None ->
  printed <> "" /\ str2combo parse (Split printed ",") 0 = 0.
Proof using All.
  intros Ht Hb Hp. destruct (combo_split name keys m) as (ks & Hks & Hstr & Hsp); try done.
  { eapply Forall_impl; [exact Hkeys | simpl; tauto]. }
  { eapply Forall_impl; [exact Hkeys | simpl; tauto]. }
  split; [done|]. unfold printed. rewrite Hsp. apply str2combo_fail. exists (name t).
  eapply Forall_forall in Hkeys; [|exact Ht]. repeat split; try tauto.
  apply list_elem_of_fmap_2. by apply Hks.
Qed.
End combo_roundtrip.

Ltac table_ok := repeat constructor; try (simpl; lia); try done;
  unfold no_char; apply (bool_decide_unpack _); by vm_compute.

Definition parse_type (it : string) : option Z :=
  let t := Str2LogType it in if t =? LOG_TYPE_MAX then None else Some t.

Definition parse_level (it : string) : option Z :=
  let t := PrettyStr2LogLevel it in
  if (t =? LOG_LEVEL_MIN) || (LOG_LEVEL_MAX <=? t) then None else Some t.

Lemma log_types_ok :
  Forall (fun t => 0 <= t < 16 /\ no_char "," (LogType2Str t) /\ LogType2Str t <> "") GetAllLogTypes.
Proof. table_ok. Qed.

Lemma log_levels_ok :
  Forall (fun t => 0 <= t < 16 /\ no_char "," (LogLevel2Str t) /\ LogLevel2Str t <> "")
         (GetAllKeys g_ShortLogLevels).
Proof. table_ok. Qed.

Lemma log_types_parse t : t ∈ GetAllLogTypes -> parse_type (LogType2Str t) = Some t.
Proof.
  assert (Forall (fun t => parse_type (LogType2Str t) = Some t) GetAllLogTypes) as H by table_ok.
  intros Ht. by eapply Forall_forall in H.
Qed.

Lemma log_levels_parse t :
  t ∈ GetAllKeys g_ShortLogLevels -> t <> LOG_LEVEL_MAX -> parse_level (LogLevel2Str t) = Some t.
Proof.
  assert (Forall (fun t => t <> LOG_LEVEL_MAX -> parse_level (LogLevel2Str t) = Some t)
                 (GetAllKeys g_ShortLogLevels)) as H by table_ok.
  intros Ht. by eapply Forall_forall in H.
Qed.

Lemma land_level_mask m :
  0 <= m -> Z.testbit m LOG_LEVEL_MAX = false -> Z.land m 0x1F8 = Z.land m 0xF8.
Proof.
  intros Hm Hb. unfold LOG_LEVEL_MAX in Hb. apply Z.bits_inj'. intros i Hi. rewrite !Z.land_spec.
  destruct (Z.eq_dec i 8) as [->|Hne]; [by rewrite Hb|]. f_equal.
  change 0x1F8 with (Z.lor 0xF8 (Z.shiftl 1 8)).
  rewrite Z.lor_spec, testbit_bit by lia. destruct (Z.eqb_spec 8 i); [lia | by rewrite orb_false_r].
Qed.

(** Whatever order the tables are iterated in, printing a mask of log types
    as names and parsing the names gives back the mask cut to the defined
    types, and a mask without any defined type prints as the empty string; the
    five levels are recovered the same way, while a level mask with the OFF
    bit prints a name that the parser refuses. *)
Theorem combo_names_roundtrip types levels m :
  types ≡ₚ GetAllLogTypes -> levels ≡ₚ GetAllKeys g_ShortLogLevels -> 0 <= m < 2 ^ 16 ->
  (Z.land m 0x3B <> 0 -> Str2ComboLogType (ComboLogType2Str types m) = Z.land m 0x3B) /\
  (Z.land m 0x3B = 0 -> ComboLogType2Str types m = "") /\
  (Z.land m 0xF8 <> 0 -> Z.testbit m LOG_LEVEL_MAX = false ->
     Str2ComboLogLevel (ComboLogLevel2Str levels m) = Z.land m 0xF8) /\
  (Z.testbit m LOG_LEVEL_MAX = true -> Str2ComboLogLevel (ComboLogLevel2Str levels m) = 0).
Proof.
  intros Ht Hl Hm.
  assert (NoDup types) as Hnt by (rewrite Ht; apply (bool_decide_unpack _); by vm_compute).
  assert (NoDup levels) as Hnl by (rewrite Hl; apply (bool_decide_unpack _); by vm_compute).
  pose proof log_types_ok as Hto. rewrite <- Ht in Hto.
  pose proof log_levels_ok as Hlo. rewrite <- Hl in Hlo.
  assert (combo_mask types = 0x3B) as Emt.
  { rewrite (combo_mask_perm types GetAllLogTypes) by (done || table_ok). done. }
  assert (combo_mask levels = 0x1F8) as Eml.
  { rewrite (combo_mask_perm levels (GetAllKeys g_ShortLogLevels)) by (done || table_ok). done. }
  unfold Str2ComboLogType, Str2ComboLogLevel, ComboLogType2Str, ComboLogLevel2Str.
  rewrite <- Emt in *. rewrite Eml. repeat split.
  - intros Hne. destruct (combo_parse LogType2Str parse_type types m) as [Hs Hp]; try done; [lia | |].
    + intros t Hin _. rewrite Ht in Hin. by apply log_types_parse.
    + rewrite decide_False by done. exact Hp.
  - intros ->. rewrite combo_str_join; try done; [by rewrite filter_testbit_0 | |].
    + eapply Forall_impl; [exact Hto | simpl; lia].
    + intros i _. by rewrite Z.bits_0.
  - intros Hne Hb. rewrite <- (land_level_mask m) in Hne |- * by (lia || done).
    rewrite <- Eml in Hne |- *.
    destruct (combo_parse LogLevel2Str parse_level levels m) as [Hs Hp]; try done; [lia | |].
    + intros t Hin Hbt. rewrite Hl in Hin. apply log_levels_parse; [done|]. congruence.
    + rewrite decide_False by done. exact Hp.
  - intros Hb. rewrite <- Eml.
    destruct (combo_parse_fail LogLevel2Str parse_level levels m) with (t := LOG_LEVEL_MAX) as [Hs Hp]; try done.
    + lia.
    + rewrite Eml. intros H0. assert (Z.testbit (Z.land m 0x1F8) 8 = false) as H1 by (by rewrite H0).
      by rewrite Z.land_spec, (Hb : Z.testbit m 8 = true) in H1.
    + rewrite Hl. apply (bool_decide_unpack _). by vm_compute.
    + rewrite decide_False by done. exact Hp.
Qed.

Lemma combo_names_roundtrip_witness :
  Str2ComboLogType (ComboLogType2Str [LOG_KMSG; LOG_APP; LOG_ONLY_PRERELEASE; LOG_CORE; LOG_INIT] 0xFF09) = 0x09 /\
  Str2ComboLogLevel (ComboLogLevel2Str [3; 4; 5; 6; 7; 8] 0x100) = 0.
Proof.
  destruct (combo_names_roundtrip [LOG_KMSG; LOG_APP; LOG_ONLY_PRERELEASE; LOG_CORE; LOG_INIT]
    [3; 4; 5; 6; 7; 8] 0xFF09) as (H & _).
  - apply (bool_decide_unpack _). by vm_compute.
  - apply (bool_decide_unpack _). by vm_compute.
  - lia.
  - split; [by apply H | by vm_compute].
Defined.

(** ** Bit counting *)

(** The number of set bits among the low [w] bits. *)
Fixpoint popcount (w : nat) (n : Z) : Z :=
  match w with
  | O => 0
  | S w => Z.b2z (Z.odd n) + popcount w (Z.div2 n)
  end.

Lemma popcount_range w n : 0 <= popcount w n <= Z.of_nat w.
Proof.
  revert n; induction w as [|w IH]; intros n; [simpl; lia|].
  simpl popcount. specialize (IH (Z.div2 n)). destruct (Z.odd n); simpl Z.b2z; lia.
Qed.

Lemma popcount_0 w : popcount w 0 = 0.
Proof. induction w as [|w IH]; [done|]. simpl. by rewrite IH. Qed.

Lemma popcount_double w a b : popcount (S w) (2 * a + Z.b2z b) = Z.b2z b + popcount w a.
Proof.
  simpl popcount. replace (Z.odd (2 * a + Z.b2z b)) with b.
  - replace (Z.div2 (2 * a + Z.b2z b)) with a; [done|].
    rewrite Z.div2_div. destruct b; simpl Z.b2z; Z.div_mod_to_equations; lia.
  - rewrite Z.add_comm, Z.odd_add_mul_2. by destruct b.
Qed.

Lemma land_pred_odd a : Z.land (2 * a + 1) (2 * a) = 2 * a.
Proof.
  apply Z.bits_inj'. intros i Hi. rewrite Z.land_spec.
  destruct (Z.eq_dec i 0) as [->|]; [by rewrite Z.testbit_odd_0, Z.testbit_even_0|].
  replace i with (Z.succ (Z.pred i)) by lia.
  rewrite Z.testbit_odd_succ, Z.testbit_even_succ by lia. by destruct (Z.testbit a _).
Qed.

Lemma land_pred_even a b : Z.land (2 * a) (2 * b + 1) = 2 * Z.land a b.
Proof.
  apply Z.bits_inj'. intros i Hi. rewrite Z.land_spec.
  destruct (Z.eq_dec i 0) as [->|]; [by rewrite !Z.testbit_even_0|].
  replace i with (Z.succ (Z.pred i)) by lia.
  by rewrite Z.testbit_odd_succ, !Z.testbit_even_succ, Z.land_spec by lia.
Qed.

(** [n & (n - 1)] clears exactly one set bit. *)
Lemma popcount_clear w n :
  0 < n < 2 ^ Z.of_nat w -> popcount w (Z.land n (n - 1)) = popcount w n - 1.
Proof.
  revert n; induction w as [|w IH]; intros n Hn; [simpl in *; lia|].
  rewrite Nat2Z.inj_succ, Z.pow_succ_r in Hn by lia.
  destruct (Z.Even_or_Odd n) as [[a ->]|[a ->]].
  - replace (2 * a - 1) with (2 * (a - 1) + 1) by lia. rewrite land_pred_even.
    pose proof (popcount_double w a false) as E1. pose proof (popcount_double w (Z.land a (a - 1)) false) as E2.
    cbn [Z.b2z] in E1, E2. rewrite Z.add_0_r in E1, E2. rewrite E1, E2, IH; lia.
  - replace (2 * a + 1 - 1) with (2 * a) by lia. rewrite land_pred_odd.
    pose proof (popcount_double w a true) as E1. pose proof (popcount_double w a false) as E2.
    cbn [Z.b2z] in E1, E2. rewrite Z.add_0_r in E2. rewrite E1, E2. lia.
Qed.

Lemma land_range w a b : 0 <= w -> 0 <= a < 2 ^ w -> 0 <= b -> 0 <= Z.land a b < 2 ^ w.
Proof.
  intros Hw Ha Hb. assert (0 <= Z.land a b) by (apply Z.land_nonneg; lia).
  split; [done|]. destruct (Z.eq_dec (Z.land a b) 0); [lia|].
  apply Z.log2_lt_pow2; [lia|]. pose proof (Z.log2_land a b ltac:(lia) Hb).
  destruct (Z.eq_dec a 0) as [->|]; [by rewrite Z.land_0_l in *|].
  assert (Z.log2 a < w) by (apply Z.log2_lt_pow2; lia). lia.
Qed.

Lemma bits_loop_popcount fuel n count :
  0 <= n < 2 ^ 64 -> popcount 64 n <= Z.of_nat fuel -> 0 <= count -> count + popcount 64 n < 2 ^ 32 ->
  bits_loop fuel n count = count + popcount 64 n.
Proof.
  revert n count; induction fuel as [|fuel IH]; intros n count Hn Hf Hc Hb.
  - pose proof (popcount_range 64 n). simpl bits_loop. lia.
  - cbn [bits_loop]. destruct (Z.eqb_spec n 0) as [->|Hne]; [rewrite popcount_0; lia|].
    rewrite (wrapu_small 64 (n - 1)) by lia.
    pose proof (popcount_clear 64 n ltac:(lia)) as Hcl.
    pose proof (popcount_range 64 (Z.land n (n - 1))).
    pose proof (land_range 64 n (n - 1) ltac:(lia) ltac:(lia) ltac:(lia)).
    unwrap. rewrite IH; lia.
Qed.

Lemma popcount_pow2 w k : 0 <= k -> (Z.to_nat k < w)%nat -> popcount w (2 ^ k) = 1.
Proof.
  revert k; induction w as [|w IH]; intros k Hk Hw; [lia|].
  destruct (Z.eq_dec k 0) as [->|].
  - pose proof (popcount_double w 0 true) as E. cbn [Z.b2z] in E. rewrite popcount_0 in E. exact E.
  - replace (2 ^ k) with (2 * 2 ^ (k - 1) + Z.b2z false)
      by (rewrite <- Z.pow_succ_r by lia; simpl Z.b2z; f_equal; rewrite ?Z.add_0_r; f_equal; lia).
    rewrite popcount_double, IH by lia. done.
Qed.

Lemma bitpos_loop_pow2 k fuel i :
  0 <= i <= k + 1 -> 0 <= k -> k + 1 - i < Z.of_nat fuel -> bitpos_loop fuel (2 ^ k) i = Some (k + 2).
Proof.
  revert i; induction fuel as [|fuel IH]; intros i Hi Hk Hf; [lia|]. cbn [bitpos_loop].
  rewrite Z.shiftr_div_pow2 by lia. destruct (Z.eq_dec i (k + 1)) as [->|].
  - rewrite Z.div_small by (split; [lia | apply Z.pow_lt_mono_r; lia]). simpl. f_equal. lia.
  - assert (2 ^ k / 2 ^ i <> 0).
    { intros H0. apply Z.div_small_iff in H0; [|lia]. destruct H0 as [[_ H0]|]; [|lia].
      apply Z.pow_lt_mono_r_iff in H0; lia. }
    destruct (Z.eqb_spec (2 ^ k / 2 ^ i) 0); [done|]. apply IH; lia.
Qed.

Lemma land_pow2_pred k : 0 <= k -> Z.land (2 ^ k) (2 ^ k - 1) = 0.
Proof.
  intros Hk. rewrite Z.sub_1_r, <- Z.ones_equiv. apply Z.bits_inj'. intros i Hi.
  rewrite Z.land_spec, Z.bits_0, Z.pow2_bits_eqb, Z.testbit_ones_nonneg by lia. lia.
Qed.

(** [GetBitsCount] terminates and returns the number of set bits of any
    64-bit mask, and [GetBitPos] the position of the only set bit, except for
    the top bit, where its shift count leaves the width of the operand. *)
Theorem bit_counting n k :
  0 <= n < 2 ^ 64 -> 0 <= k < 64 ->
  GetBitsCount n = popcount 64 n /\ GetBitsCount (2 ^ k) = 1 /\
  GetBitPos (2 ^ k) = if k =? 63 then None else Some k.
Proof.
  intros Hn Hk.
  assert (forall x, 0 <= x < 2 ^ 64 -> GetBitsCount x = popcount 64 x) as Hcount.
  { intros x Hx. unfold GetBitsCount. pose proof (popcount_range 64 x).
    rewrite bits_loop_popcount; lia. }
  assert (0 < 2 ^ k < 2 ^ 64) as Hp by (split; [lia | apply Z.pow_lt_mono_r; lia]).
  split; [by apply Hcount|]. split; [rewrite Hcount, popcount_pow2; lia|].
  unfold GetBitPos. rewrite (wrapu_small 64 (2 ^ k - 1)), land_pow2_pred by lia.
  destruct (Z.eqb_spec (2 ^ k) 0); [lia|]. cbn [negb andb Z.eqb].
  destruct (Z.eqb_spec k 63) as [->|]; [by vm_compute|].
  rewrite bitpos_loop_pow2 by lia. f_equal. unwrap. lia.
Qed.

Lemma bit_counting_witness : GetBitsCount 0xF0F1 = 9 /\ GetBitPos (2 ^ 12) = Some 12.
Proof.
  destruct (bit_counting 0xF0F1 12 ltac:(lia) ltac:(lia)) as (H & _ & H').
  split; [by rewrite H | by rewrite H'].
Defined.

(** ** Numbers as text *)

Lemma byte_val_digit_chr d : 0 <= d < 16 -> byte_val (digit_chr d) = if d <? 10 then 48 + d else 87 + d.
Proof. intros Hd. unfold digit_chr. rewrite byte_val_chr. apply Z.mod_small. case_goal; lia. Qed.

Lemma chr_digit_chr d : 0 <= d < 16 -> chr_digit (digit_chr d) = d.
Proof.
  intros Hd. unfold chr_digit, is_digit. rewrite byte_val_digit_chr by done.
  destruct (Z.ltb_spec d 10); case_goal; lia.
Qed.

Section num_text.
Context (radix : Z).
Hypothesis Hradix : 2 <= radix <= 16.

Lemma num_go_read fuel n acc :
  0 <= n < 2 ^ Z.of_nat fuel -> read_digits radix 0 (num_go radix fuel n acc) = read_digits radix n acc.
Proof using Hradix.
  revert n acc; induction fuel as [|fuel IH]; intros n acc Hn.
  { simpl num_go. by replace n with 0 by (simpl in *; lia). }
  rewrite Nat2Z.inj_succ, Z.pow_succ_r in Hn by lia. cbn [num_go].
  pose proof (Z.mod_pos_bound n radix ltac:(lia)) as Hm.
  pose proof (Z.div_mod n radix ltac:(lia)) as Hdm.
  assert (forall k, read_digits radix k (String (digit_chr (n mod radix)) acc)
                    = read_digits radix (radix * k + n mod radix) acc) as Hd.
  { intros k. cbn [read_digits]. rewrite chr_digit_chr by lia.
    by destruct (Z.ltb_spec (n mod radix) radix); [|lia]. }
  destruct (Z.ltb_spec n radix).
  - rewrite Hd, Z.mod_small by lia. f_equal; lia.
  - rewrite IH, Hd by (split; [apply Z.div_pos | apply Z.div_lt_upper_bound]; nia).
    by rewrite <- Hdm.
Qed.

(** The first character is a digit, whatever follows the number. *)
Lemma num_go_head fuel n acc :
  0 <= n -> (fuel <> 0)%nat ->
  exists d s, 0 <= d < radix /\ num_go radix fuel n acc = String (digit_chr d) s.
Proof using Hradix.
  revert n acc; induction fuel as [|fuel IH]; intros n acc Hn Hf; [done|]. cbn [num_go].
  pose proof (Z.mod_pos_bound n radix ltac:(lia)). destruct (Z.ltb_spec n radix); [eauto|].
  destruct fuel as [|fuel]; [simpl; eauto|]. apply IH; [apply Z.div_pos; lia | done].
Qed.

Lemma num_go_app fuel n acc : num_go radix fuel n acc = num_go radix fuel n "" +:+ acc.
Proof.
  assert (forall a b, num_go radix fuel n (a +:+ b) = num_go radix fuel n a +:+ b) as H.
  { revert n; induction fuel as [|fuel IH]; intros n a b; cbn [num_go]; [done|].
    rewrite <- str_cons_app. destruct (n <? radix); [done | apply IH]. }
  apply (H "" acc).
Qed.

Lemma Num2Str_read z s :
  0 <= z -> read_digits radix 0 (Num2Str radix z +:+ s) = read_digits radix z s.
Proof using Hradix.
  intros Hz. unfold Num2Str. rewrite <- num_go_app. apply num_go_read.
  split; [done|]. rewrite Nat2Z.inj_succ, Z2Nat.id by apply Z.log2_nonneg.
  destruct (Z.eq_dec z 0) as [->|]; [done|]. apply Z.log2_spec. lia.
Qed.

Lemma Num2Str_head z : 0 <= z -> exists d s, 0 <= d < radix /\ Num2Str radix z = String (digit_chr d) s.
Proof using Hradix. intros Hz. by apply num_go_head. Qed.
End num_text.

(** A test that holds of every character. *)
Fixpoint str_forall (p : ascii -> bool) (s : string) : bool :=
  match s with EmptyString => true | String c s => p c && str_forall p s end.

Lemma num_go_forall p radix fuel n acc :
  0 < radix -> (forall d, 0 <= d < radix -> p (digit_chr d) = true) ->
  str_forall p acc = true -> str_forall p (num_go radix fuel n acc) = true.
Proof.
  intros Hr Hp. revert n acc; induction fuel as [|fuel IH]; intros n acc Ha; cbn [num_go]; [done|].
  assert (str_forall p (String (digit_chr (n mod radix)) acc) = true).
  { simpl. rewrite Hp, Ha; [done | by apply Z.mod_pos_bound]. }
  case_goal; [done | by apply IH].
Qed.

Lemma is_digit_chr d : 0 <= d < 10 -> is_digit (digit_chr d) = true.
Proof. intros Hd. unfold is_digit. rewrite byte_val_digit_chr by lia. case_goal; lia. Qed.

Lemma Num2Str_digits z : str_forall is_digit (Num2Str 10 z) = true.
Proof. apply num_go_forall; [lia | apply is_digit_chr | done]. Qed.

Lemma Num2Str_hex radix z :
  2 <= radix <= 16 -> str_forall (fun c => chr_digit c <? 16) (Num2Str radix z) = true.
Proof.
  intros Hr. apply num_go_forall; [lia | | done]. intros d Hd. rewrite chr_digit_chr; lia.
Qed.

Lemma tolower_x c : tolower c = "x"%char -> chr_digit c = 16.
Proof.
  intros H%(f_equal byte_val). unfold tolower in H. unfold chr_digit, is_digit.
  change (byte_val "x") with 120 in H. pose proof (byte_val_range c).
  destruct ((65 <=? byte_val c) && (byte_val c <=? 90)) eqn:E.
  - rewrite byte_val_chr, Z.mod_small in H by blia. case_goal; lia.
  - case_goal; lia.
Qed.

Lemma strip_0x_digits radix s :
  str_forall (fun c => chr_digit c <? 16) s = true -> strip_0x radix s = s.
Proof.
  intros Hs. destruct s as [|c [|d s]]; [done..|]. simpl in *.
  destruct (bool_decide_reflect (tolower d = "x"%char)) as [Hx|]; [|by rewrite andb_false_r].
  apply tolower_x in Hx. rewrite Hx in Hs. lia.
Qed.

Lemma read_number_digits radix z :
  2 <= radix <= 16 -> 0 <= z < 2 ^ 32 -> read_number radix false (Num2Str radix z) = (z, true).
Proof.
  intros Hr Hz. destruct (Num2Str_head radix Hr z) as (d & s & Hd & Es); [lia|].
  pose proof (Num2Str_read radix Hr z "" ltac:(lia)) as Hread. rewrite str_app_nil_r in Hread.
  rewrite Es in *. unfold read_number. rewrite chr_digit_chr, Hread by lia. cbn [read_digits].
  by destruct (Z.ltb_spec d radix), (Z.ltb_spec z (2 ^ 32)); try lia.
Qed.

Lemma extract_digits radix z :
  2 <= radix <= 16 -> 0 <= z < 2 ^ 32 -> extract_uint32 radix (Num2Str radix z) = (z, true).
Proof.
  intros Hr Hz. rewrite <- (read_number_digits radix z) by done.
  pose proof (Num2Str_hex radix z Hr) as Hhex.
  destruct (Num2Str_head radix Hr z) as (d & s & Hd & Es); [lia|]. rewrite Es in *.
  pose proof (byte_val_digit_chr d ltac:(lia)) as Hv. unfold extract_uint32. cbn [skip_space].
  assert (is_space (digit_chr d) = false) as ->.
  { unfold is_space. rewrite Hv. case_goal; lia. }
  assert (forall c, byte_val c < 48 -> digit_chr d <> c) as Hne.
  { intros c Hc <-. rewrite Hv in Hc. case_hyp Hc; lia. }
  cbn [take_sign]. rewrite !decide_False by (apply Hne; by vm_compute).
  by rewrite strip_0x_digits.
Qed.

(** Decimal and hexadecimal printing of a [uint32_t] and reading it back
    with the stream operators are inverse to each other, and the reader
    reports success; the [0x] prefix users type is accepted. *)
Theorem number_text_roundtrip i :
  0 <= i < 2 ^ 32 ->
  DecStr2Uint (Uint2DecStr i) = (i, true) /\ HexStr2Uint (Uint2HexStr i) = (i, true) /\
  HexStr2Uint ("0x" +:+ Uint2HexStr i) = (i, true).
Proof.
  intros Hi. split; [by apply extract_digits|]. split; [by apply extract_digits|].
  by apply (read_number_digits 16).
Qed.

Lemma number_text_roundtrip_witness :
  Uint2HexStr 0xD002D00 = "d002d00" /\ HexStr2Uint ("0x" +:+ Uint2HexStr 0xD002D00) = (0xD002D00, true).
Proof. split; [by vm_compute|]. apply (number_text_roundtrip 0xD002D00). lia. Defined.

(** ** Sizes with a unit *)

Lemma size_regex_tail_digits s c :
  str_forall is_digit s = true -> (is_digit c || IsValidKey g_SizeMap c) = true ->
  size_regex_tail (s +:+ String c "") = true.
Proof.
  intros Hs Hc. induction s as [|d s IH]; [done|]. simpl in Hs. apply andb_true_iff in Hs as [Hd Hs].
  rewrite str_cons_app. cbn [size_regex_tail].
  destruct (s +:+ String c "") eqn:E; [by rewrite Hd|]. by rewrite Hd, IH.
Qed.

Lemma str_last_app d s c : str_last d (s +:+ String c "") = c.
Proof. revert d; induction s as [|e s IH]; intros d; [done|]. rewrite str_cons_app. apply IH. Qed.

Lemma str_snoc s c : exists s' d, String c s = s' +:+ String d "" /\ (forall p, p c = true -> str_forall p s = true ->
  str_forall p s' = true /\ p d = true).
Proof.
  revert c; induction s as [|e s IH]; intros c; [by exists "", c|].
  destruct (IH e) as (s' & d & E & Hp). exists (String c s'), d. split; [by rewrite E|].
  intros p Hc He. simpl in He. apply andb_true_iff in He as [He Hs]. simpl. rewrite Hc. by apply Hp.
Qed.

Lemma digit_no_unit c : is_digit c = true -> GetValue g_SizeMap c = 0.
Proof.
  unfold is_digit, GetValue, g_SizeMap. simpl. intros Hc.
  repeat (case_decide; [subst; by vm_compute in Hc|]). done.
Qed.

Lemma Str2Size_digits s c :
  s <> "" -> str_forall is_digit s = true -> (is_digit c || IsValidKey g_SizeMap c) = true ->
  Str2Size (s +:+ String c "") =
    let unit := GetValue g_SizeMap c in
    match stoull (if unit =? 0 then s +:+ String c "" else s) with
    | None => None
    | Some v => Some (u64 (v * if unit =? 0 then 1 else unit))
    end.
Proof.
  intros Hne Hs Hc. unfold Str2Size. destruct s as [|d s]; [done|].
  rewrite str_last_app. simpl in Hs. apply andb_true_iff in Hs as [Hd Hs].
  assert (size_regex (String d s +:+ String c "") = true) as ->.
  { rewrite str_cons_app. simpl. by rewrite Hd, size_regex_tail_digits. }
  assert (String.length (String d s +:+ String c "") = S (String.length (String d s))) as Hlen.
  { assert (slen (String d s +:+ String c "") = slen (String d s) + 1) as Hl by (by rewrite slen_app).
    unfold slen in Hl. lia. }
  rewrite Hlen. cbn [negb]. replace (S (String.length (String d s)) - 1)%nat
    with (String.length (String d s)) by lia.
  destruct (GetValue g_SizeMap c =? 0); cbn [negb].
  - rewrite <- Hlen. rewrite <- (str_app_nil_r (String d s +:+ String c "")) at 2.
    by rewrite str_take_app_length.
  - by rewrite str_take_app_length.
Qed.

(** A size written as a decimal number with an optional unit letter is
    parsed to that number of units (modulo 2^64, the width of the result), and
    the conversion throws exactly when the number itself needs more than 64
    bits; anything else parses to 0. *)
Theorem Str2Size_spec n u :
  0 <= n ->
  (Str2Size (Uint2DecStr n) = if n <? 2 ^ 64 then Some n else None) /\
  (IsValidKey g_SizeMap u = true ->
   Str2Size (Uint2DecStr n +:+ String u "") =
     if n <? 2 ^ 64 then Some (u64 (n * GetValue g_SizeMap u)) else None) /\
  (forall s, size_regex s = false -> Str2Size s = Some 0).
Proof.
  intros Hn. pose proof (Num2Str_digits n) as Hd.
  destruct (Num2Str_head 10 ltac:(lia) n Hn) as (d & s & _ & Es).
  pose proof (Num2Str_read 10 ltac:(lia) n "" Hn) as Hr. rewrite str_app_nil_r in Hr. cbn [read_digits] in Hr.
  unfold Uint2DecStr. split; [|split].
  - destruct (str_snoc s (digit_chr d)) as (s' & c & E & Hp). rewrite <- Es in E.
    destruct (Hp is_digit) as [Hs' Hc]; [rewrite Es in Hd; simpl in Hd; apply andb_true_iff in Hd; tauto..|].
    assert (GetValue g_SizeMap c = 0) as Hu by (by apply digit_no_unit).
    destruct (decide (s' = "")) as [->|Hne].
    + rewrite str_nil_app in E. rewrite E in *. unfold Str2Size. simpl size_regex. rewrite Hc.
      cbn [negb str_last String.length Nat.sub]. rewrite Hu. cbn -[stoull u64].
      unfold stoull. rewrite Hr. case_goal; [|done]. f_equal. rewrite Z.mul_1_r. apply wrapu_small. lia.
    + rewrite E. rewrite Str2Size_digits; [|done..|by rewrite Hc]. rewrite Hu. cbn -[stoull u64].
      rewrite <- E. unfold stoull. rewrite Hr. case_goal; [|done]. f_equal. rewrite Z.mul_1_r. apply wrapu_small. lia.
  - intros Hu. rewrite Str2Size_digits; [|by rewrite Es|done|by rewrite Hu, orb_true_r].
    assert (GetValue g_SizeMap u <> 0) as Hnz.
    { unfold IsValidKey, GetValue, g_SizeMap in *. simpl in *. repeat (case_decide; [done|]). done. }
    apply Z.eqb_neq in Hnz. cbv zeta. rewrite Hnz. unfold stoull. rewrite Hr. by case_goal.
  - intros s' Hs'. unfold Str2Size. by rewrite Hs'.
Qed.

Lemma Str2Size_spec_witness : Str2Size "512M" = Some (512 * 2 ^ 20) /\ Str2Size "512 M" = Some 0.
Proof.
  destruct (Str2Size_spec 512 "M" ltac:(lia)) as (_ & H & H0).
  split; [by apply H | apply H0; by vm_compute].
Defined.

(** ** The recovery checksum *)

(** The multiplicative inverse of the FNV prime modulo 2^64. *)
Definition FNV_INV : Z := 0xCE965057AFF6957B.

Lemma fnv_step_inj a b :
  0 <= a < 2 ^ 64 -> 0 <= b < 2 ^ 64 -> u64 (a * FNV_PRIME) = u64 (b * FNV_PRIME) -> a = b.
Proof.
  intros Ha Hb H.
  assert (forall x, 0 <= x < 2 ^ 64 -> u64 (u64 (x * FNV_PRIME) * FNV_INV) = x) as Hinv.
  { intros x Hx. unfold wrapu. rewrite Z.mul_mod_idemp_l, <- Z.mul_assoc, <- Z.mul_mod_idemp_r by lia.
    change (FNV_PRIME * FNV_INV mod 2 ^ 64) with 1. rewrite Z.mul_1_r. by apply Z.mod_small. }
  rewrite <- (Hinv a), <- (Hinv b) by done. by rewrite H.
Qed.

Lemma char_u64_range cs c : 0 <= char_u64 cs c < 2 ^ 64.
Proof.
  unfold char_u64. pose proof (byte_val_range c). case_goal; [apply wrapu_range; lia | lia].
Qed.

Lemma char_u64_inj cs c d : char_u64 cs c = char_u64 cs d -> c = d.
Proof.
  unfold char_u64. pose proof (byte_val_range c). pose proof (byte_val_range d).
  assert (forall x, -256 <= x < 0 -> u64 x = x + 2 ^ 64) as Hn.
  { intros x Hx. unfold wrapu. rewrite <- (Z.mod_add x 1), Z.mod_small by lia. lia. }
  intros E. apply byte_val_inj. case_hyp E; rewrite ?Hn in * by blia; lia.
Qed.

Lemma lxor_range w a b : 0 <= w -> 0 <= a < 2 ^ w -> 0 <= b < 2 ^ w -> 0 <= Z.lxor a b < 2 ^ w.
Proof.
  intros Hw Ha Hb. assert (0 <= Z.lxor a b) by (apply Z.lxor_nonneg; lia).
  split; [done|]. destruct (Z.eq_dec (Z.lxor a b) 0); [lia|]. apply Z.log2_lt_pow2; [lia|].
  pose proof (Z.log2_lxor a b ltac:(lia) ltac:(lia)).
  assert (forall x, 0 <= x < 2 ^ w -> 0 < w -> Z.log2 x < w) as Hlog.
  { intros x Hx Hw'. destruct (Z.eq_dec x 0) as [->|]; [done|]. apply Z.log2_lt_pow2; lia. }
  destruct (Z.eq_dec w 0) as [->|].
  - assert (a = 0 /\ b = 0) as [-> ->] by lia. done.
  - pose proof (Hlog a Ha ltac:(lia)). pose proof (Hlog b Hb ltac:(lia)). lia.
Qed.

Lemma lxor_inj_r a b c : Z.lxor a b = Z.lxor a c -> b = c.
Proof.
  intros H. apply (f_equal (Z.lxor a)) in H.
  by rewrite <- !Z.lxor_assoc, !Z.lxor_nilpotent, !Z.lxor_0_l in H.
Qed.

Lemma hash_loop_inj cs p a b :
  0 <= a < 2 ^ 64 -> 0 <= b < 2 ^ 64 -> hash_loop cs a p = hash_loop cs b p -> a = b.
Proof.
  revert a b; induction p as [|c p IH]; intros a b Ha Hb H; [done|]. simpl in H.
  pose proof (char_u64_range cs c). apply IH in H; [|apply wrapu_range; lia..].
  apply fnv_step_inj in H; [|apply lxor_range; lia..].
  rewrite !(Z.lxor_comm _ (char_u64 cs c)) in H. by apply lxor_inj_r in H.
Qed.

Lemma hash_loop_app cs r p q : hash_loop cs r (p +:+ q) = hash_loop cs (hash_loop cs r p) q.
Proof. revert r; induction p as [|c p IH]; intros r; [done|]. rewrite str_cons_app. apply IH. Qed.

Lemma hash_loop_range cs r p : 0 <= r < 2 ^ 64 -> 0 <= hash_loop cs r p < 2 ^ 64.
Proof.
  revert r; induction p as [|c p IH]; intros r Hr; [done|]. simpl. apply IH, wrapu_range. lia.
Qed.

(** The checksum changes with every single byte, whatever the signedness of
    [char] on the platform. *)
Lemma hash_byte_change cs p c d q :
  c <> d -> GenerateHash cs (p +:+ String c q) <> GenerateHash cs (p +:+ String d q).
Proof.
  intros Hne H. apply Hne. unfold GenerateHash in H. rewrite !hash_loop_app in H.
  set (r := hash_loop cs FNV_BASIS p) in *. simpl in H.
  assert (0 <= r < 2 ^ 64) by (apply hash_loop_range; by vm_compute).
  pose proof (char_u64_range cs c). pose proof (char_u64_range cs d).
  apply hash_loop_inj in H; [|apply wrapu_range; lia..].
  apply fnv_step_inj in H; [|apply lxor_range; lia..].
  by apply lxor_inj_r, char_u64_inj in H.
Qed.
