(* ===== verification/LogData.v ===== *)
(** * Stored log lines and filters (log_data.h, log_filter.h, log_buffer.cpp)

    [HilogData] is a line as the buffer stores it: the header of the received
    message and heap copies of its tag and content.  [LogFilter] is what a
    reader asks for and [LogMatchFilter] the test every reader applies. *)

From S2P Require Import Prelude Common Utils.
From Stdlib Require Import Ascii.

(** ** HilogData

    [tag] and [content] are the C strings at the two pointers; the null
    pointers of a line whose [Init] refused its lengths read as empty. *)

Record HilogData := mkHilogData {
  d_len : Z;      (* uint16_t, tag and content with their NULs *)
  d_version : Z;
  d_type : Z;     (* 3 bits *)
  d_level : Z;    (* 4 bits *)
  d_tagLen : Z;   (* 6 bits *)
  d_tv_sec : Z;
  d_tv_nsec : Z;
  d_mono_sec : Z;
  d_pid : Z;
  d_tid : Z;
  d_domain : Z;
  d_tag : string;
  d_content : string;
}.

#[export] Instance HilogData_eq_dec : EqDecision HilogData.
Proof. solve_decision. Defined.

(** [Init]: the new [len], [tag] and [content], [None] when it leaves the line
    empty.  Both copies are shorter than their limits, so they never fail
    ([Init_ok] below). *)
Definition Init (mtag : string) (mtagLen : Z) (mfmt : string) (mfmtLen : Z) : option (Z * string * string) :=
  if (MAX_TAG_LEN <? mtagLen) || (mtagLen =? 0) || (MAX_LOG_LEN <? mfmtLen) || (mfmtLen <=? 0)
  then None
  else
    let len := u16 (mtagLen + mfmtLen) in
    match strncpy_s MAX_TAG_LEN mtag (mtagLen - 1) with
    | None => Some (len, "", "")
    | Some tag => Some (len, tag, default "" (strncpy_s MAX_LOG_LEN mfmt (mfmtLen - 1)))
    end.

(** The constructor from a received message. *)
Definition HilogData_of_msg (msg : HilogMsg) : HilogData :=
  let '(len, tag, content) :=
    default (0, "", "") (Init (msg_tag msg) (msg_tagLen msg) (CONTENT_PTR msg) (CONTENT_LEN msg)) in
  {| d_len := len;
     d_version := msg_version msg mod 8;
     d_type := msg_type msg mod 8;
     d_level := msg_level msg mod 16;
     d_tagLen := msg_tagLen msg mod 64;
     d_tv_sec := msg_tv_sec msg; d_tv_nsec := msg_tv_nsec msg; d_mono_sec := msg_mono_sec msg;
     d_pid := msg_pid msg; d_tid := msg_tid msg; d_domain := msg_domain msg;
     d_tag := tag; d_content := content |}.

(** The length the buffer accounts for: [it->len - it->tagLen]. *)
Definition cLen (d : HilogData) : Z := u64 (d_len d - d_tagLen d).

(** A line the buffer may hold. *)
Definition data_wf (d : HilogData) : Prop :=
  1 <= d_tagLen d <= MAX_TAG_LEN /\ d_tagLen d < d_len d <= d_tagLen d + MAX_LOG_LEN /\
  0 <= d_type d < LOG_TYPE_MAX /\ 0 <= d_level d < 16.

(** ** LogFilter *)

Record LogFilter := mkLogFilter {
  f_types : Z;
  f_levels : Z;
  f_blackDomain : bool;
  f_domainCount : Z;          (* uint8_t *)
  f_domains : list Z;
  f_blackTag : bool;
  f_tagCount : Z;             (* uint8_t *)
  f_tags : list string;
  f_blackPid : bool;
  f_pidCount : Z;             (* int *)
  f_pids : list Z;
  f_regex : string;
}.

(** The counts stay within the arrays. *)
Definition filter_wf (f : LogFilter) : Prop :=
  0 <= f_domainCount f <= Z.of_nat (length (f_domains f)) /\
  0 <= f_tagCount f <= Z.of_nat (length (f_tags f)) /\
  0 <= f_pidCount f <= Z.of_nat (length (f_pids f)).

(** ** WildcardToRegex *)

Definition REPLACEMENT_S : list (ascii * string) :=
  [("*"%char, ".*"); ("?"%char, "."); ("["%char, "\["); ("]"%char, "\]"); ("+"%char, "\+");
   ("."%char, "\."); ("^"%char, "\^"); ("&"%char, "\&")].

Definition wildcard_char (c : ascii) : string :=
  default (String c "") (kv_find c REPLACEMENT_S).

Fixpoint WildcardToRegex (wildcard : string) : string :=
  match wildcard with
  | EmptyString => EmptyString
  | String c s => wildcard_char c +:+ WildcardToRegex s
  end.

(** ** LogMatchFilter *)

Definition LOW_BYTE : Z := 0xFF.
Definition LOW_BYTE_REVERSE : Z := 0xFFFFFF00.

Definition domain_match (domain d : Z) : bool :=
  (domain =? d) ||
  ((u8 d =? LOW_BYTE) && (Z.land domain LOW_BYTE_REVERSE =? Z.land d LOW_BYTE_REVERSE)).

(** The first [count] entries of an array. *)
Definition entries {A} (count : Z) (l : list A) : list A := take (Z.to_nat count) l.

(** [count && match == black]: the test that refuses a line. *)
Definition refused (count : Z) (black : bool) (found : bool) : bool :=
  negb (count =? 0) && Bool.eqb found black.

Section filter.
(** [std::regex] is the library's: [regex_search re s] is [None] when
    compiling [re] throws [regex_error]. *)
Context (regex_search : string -> string -> option bool).

Definition LogMatchFilter (filter : LogFilter) (logData : HilogData) : option bool :=
  if Z.land (u16 (Z.shiftl 1 (d_type logData))) (f_types filter) =? 0 then Some false
  else if Z.land (u16 (Z.shiftl 1 (d_level logData))) (f_levels filter) =? 0 then Some false
  else if refused (f_domainCount filter) (f_blackDomain filter)
            (existsb (domain_match (d_domain logData)) (entries (f_domainCount filter) (f_domains filter)))
  then Some false
  else if refused (f_tagCount filter) (f_blackTag filter)
            (existsb (fun t => bool_decide (d_tag logData = cstr t)) (entries (f_tagCount filter) (f_tags filter)))
  then Some false
  else if refused (f_pidCount filter) (f_blackPid filter)
            (existsb (Z.eqb (d_pid logData)) (entries (f_pidCount filter) (f_pids filter)))
  then Some false
  else if bool_decide (cstr (f_regex filter) = "") then Some true
  else regex_search (WildcardToRegex (cstr (f_regex filter))) (d_content logData).
End filter.

(** * Lemmas and properties *)

Lemma Init_ok mtag mtagLen mfmt mfmtLen :
  1 <= mtagLen <= MAX_TAG_LEN -> 1 <= mfmtLen <= MAX_LOG_LEN ->
  Init mtag mtagLen mfmt mfmtLen =
    Some (mtagLen + mfmtLen, str_take (Z.to_nat (mtagLen - 1)) (cstr mtag),
          str_take (Z.to_nat (mfmtLen - 1)) (cstr mfmt)).
Proof.
  intros Ht Hf. unfold Init. destruct (_ || _) eqn:E; [lia|].
  rewrite !strncpy_s_short by lia. simpl. do 3 f_equal. unfold MAX_TAG_LEN, MAX_LOG_LEN in *. unwrap. done.
Qed.

(** The messages [Insert] lets through become well-formed lines. *)
Lemma HilogData_of_msg_wf msg :
  msg_wf msg -> 1 <= msg_tagLen msg <= MAX_TAG_LEN -> 1 <= CONTENT_LEN msg <= MAX_LOG_LEN ->
  msg_type msg < LOG_TYPE_MAX ->
  data_wf (HilogData_of_msg msg) /\ cLen (HilogData_of_msg msg) = CONTENT_LEN msg /\
  d_type (HilogData_of_msg msg) = msg_type msg.
Proof.
  intros Hwf Ht Hc Hty. unfold HilogData_of_msg, data_wf, cLen. rewrite Init_ok by done. simpl.
  destruct Hwf as (? & ? & ? & ? & ? & _).
  unfold MAX_TAG_LEN, MAX_LOG_LEN, LOG_TYPE_MAX in *.
  rewrite !(Z.mod_small (msg_tagLen msg)), (Z.mod_small (msg_type msg)), (Z.mod_small (msg_level msg)) by lia.
  repeat split; try lia. rewrite wrapu_small; lia.
Qed.

Lemma cLen_wf d : data_wf d -> cLen d = d_len d - d_tagLen d /\ 1 <= cLen d <= MAX_LOG_LEN.
Proof.
  intros (H1 & H2 & _). unfold cLen, MAX_TAG_LEN, MAX_LOG_LEN in *. rewrite wrapu_small; lia.
Qed.

(** ** The filter *)

Lemma land_bit_u16 t m : 0 <= t < 16 -> 0 <= m ->
  (Z.land (u16 (Z.shiftl 1 t)) m =? 0) = negb (Z.testbit m t).
Proof. intros Ht Hm. rewrite u16_bit, <- land_bit_eqb by lia. by rewrite negb_involutive. Qed.

Lemma refused_spec {A} count black (p : A -> bool) l :
  refused count black (existsb p l) = false <->
  (count <> 0 -> if black then Forall (fun x => p x = false) l else Exists (fun x => p x = true) l).
Proof.
  unfold refused. rewrite andb_false_iff, negb_false_iff, Z.eqb_eq.
  assert (Exists (fun x => p x = true) l <-> existsb p l = true) as Hex.
  { rewrite Exists_exists, existsb_exists. by setoid_rewrite list_elem_of_In. }
  assert (Forall (fun x => p x = false) l <-> existsb p l = false) as Hall.
  { rewrite <- not_true_iff_false, <- Hex, <- Forall_Exists_neg.
    by setoid_rewrite not_true_iff_false. }
  destruct black; rewrite ?Hex, ?Hall; clear Hex Hall;
    destruct (Z.eq_dec count 0), (existsb p l); simpl; intuition congruence.
Qed.

(** A domain entry whose low byte is 0xFF stands for its 256 subdomains. *)
Lemma domain_match_spec domain d :
  0 <= domain < 2 ^ 32 -> 0 <= d < 2 ^ 32 ->
  domain_match domain d = true <-> domain = d \/ (d mod 256 = 255 /\ domain / 256 = d / 256).
Proof.
  intros Hdom Hd. unfold domain_match, wrapu, LOW_BYTE.
  assert (forall x, 0 <= x < 2 ^ 32 -> Z.land x LOW_BYTE_REVERSE = x / 256 * 256) as Hland
    by (intros x Hx; by apply (land_mask_high 8)).
  rewrite !Hland, orb_true_iff, andb_true_iff, !Z.eqb_eq by done.
  change (2 ^ 8) with 256. split; intros [->|[Hm E]]; auto; right; split; auto; lia.
Qed.

(** What a filter asks of a line. *)
Record filter_accepts (f : LogFilter) (d : HilogData) : Prop := {
  acc_type : Z.testbit (f_types f) (d_type d) = true;
  acc_level : Z.testbit (f_levels f) (d_level d) = true;
  acc_domain : f_domainCount f <> 0 ->
    let p := fun x => d_domain d = x \/ (x mod 256 = 255 /\ d_domain d / 256 = x / 256) in
    if f_blackDomain f then Forall (fun x => ~ p x) (entries (f_domainCount f) (f_domains f))
    else Exists p (entries (f_domainCount f) (f_domains f));
  acc_tag : f_tagCount f <> 0 ->
    if f_blackTag f then Forall (fun t => d_tag d <> cstr t) (entries (f_tagCount f) (f_tags f))
    else Exists (fun t => d_tag d = cstr t) (entries (f_tagCount f) (f_tags f));
  acc_pid : f_pidCount f <> 0 ->
    if f_blackPid f then Forall (fun p => d_pid d <> p) (entries (f_pidCount f) (f_pids f))
    else Exists (fun p => d_pid d = p) (entries (f_pidCount f) (f_pids f));
}.

(** The numbers of a filter and of a line are in the ranges of their fields. *)
Definition filter_range (f : LogFilter) : Prop :=
  0 <= f_types f /\ 0 <= f_levels f /\ Forall (fun d => 0 <= d < 2 ^ 32) (f_domains f).

Lemma Exists_iff {A} (P Q : A -> Prop) l : Forall (fun x => P x <-> Q x) l -> Exists P l <-> Exists Q l.
Proof. induction 1; rewrite ?Exists_nil, ?Exists_cons; tauto. Qed.

Lemma Forall_iff' {A} (P Q : A -> Prop) l : Forall (fun x => P x <-> Q x) l -> Forall P l <-> Forall Q l.
Proof. induction 1; rewrite ?Forall_nil, ?Forall_cons; tauto. Qed.

Lemma refused_iff {A} count black (p : A -> bool) (P : A -> Prop) l :
  Forall (fun x => p x = true <-> P x) l ->
  refused count black (existsb p l) = false <->
  (count <> 0 -> if black then Forall (fun x => ~ P x) l else Exists P l).
Proof.
  intros Hp. rewrite refused_spec. destruct black.
  - rewrite (Forall_iff' (fun x => p x = false) (fun x => ~ P x)); [done|].
    eapply Forall_impl; [exact Hp|]. intros x Hx. simpl in *. rewrite <- Hx. by destruct (p x).
  - by rewrite (Exists_iff (fun x => p x = true) P).
Qed.

(** C32: a reader gets a line exactly when the line's type and level bits are in
    the filter's masks, its domain, tag and pid are in the white lists (or in
    none of the black lists) the filter gives, a domain entry ending in 0xFF
    standing for its 256 subdomains, and the regular expression, if there is
    one, is found in its content; the expression is only tried, and can only
    throw, on lines that pass the other tests. *)
Theorem LogMatchFilter_spec regex_search f d :
  filter_range f -> data_wf d -> 0 <= d_domain d < 2 ^ 32 ->
  (filter_accepts f d ->
   LogMatchFilter regex_search f d =
     if bool_decide (cstr (f_regex f) = "") then Some true
     else regex_search (WildcardToRegex (cstr (f_regex f))) (d_content d)) /\
  (~ filter_accepts f d -> LogMatchFilter regex_search f d = Some false).
Proof.
  intros (Hft & Hfl & Hfd) (_ & _ & Hdt & Hdl) Hdd. unfold LOG_TYPE_MAX in Hdt.
  unfold LogMatchFilter. rewrite !land_bit_u16 by lia.
  set (rd := refused (f_domainCount f) _ _). set (rt := refused (f_tagCount f) _ _).
  set (rp := refused (f_pidCount f) _ _).
  assert (filter_accepts f d <->
    Z.testbit (f_types f) (d_type d) = true /\ Z.testbit (f_levels f) (d_level d) = true /\
    rd = false /\ rt = false /\ rp = false) as Hiff.
  { unfold rd, rt, rp.
    rewrite (refused_iff (f_domainCount f) _ _
      (fun x => d_domain d = x \/ (x mod 256 = 255 /\ d_domain d / 256 = x / 256))).
    2:{ apply Forall_forall. intros x Hx%subseteq_take.
        eapply Forall_forall in Hfd; [|exact Hx]. by apply domain_match_spec. }
    rewrite (refused_iff (f_tagCount f) _ _ (fun t => d_tag d = cstr t)).
    2:{ apply Forall_forall. intros x _. apply bool_decide_eq_true. }
    rewrite (refused_iff (f_pidCount f) _ _ (fun p => d_pid d = p)).
    2:{ apply Forall_forall. intros x _. apply Z.eqb_eq. }
    split; [intros []; tauto | intros (? & ? & ? & ? & ?); by constructor]. }
  rewrite Hiff. clear Hiff. clearbody rd rt rp.
  destruct (Z.testbit (f_types f) (d_type d)), (Z.testbit (f_levels f) (d_level d)), rd, rt, rp;
    simpl; split; intros; intuition congruence.
Qed.

(** The filter of a reader that watches one application: app logs of level
    INFO and above from the domains 0x01FF (all subdomains of 0x01) except a
    tag. *)
Definition example_filter : LogFilter :=
  mkLogFilter 0x01 0xF0 false 1 [0x01FF; 0; 0; 0; 0] true 1 ["noisy"] false 0 [] "".
Definition example_data (tag : string) : HilogData :=
  mkHilogData 12 0 LOG_APP LOG_WARN 6 1 2 3 100 101 0x0122 tag "hello".

Lemma example_data_wf tag : data_wf (example_data tag).
Proof. by repeat split. Qed.

Lemma LogMatchFilter_spec_witness :
  LogMatchFilter (fun _ _ => None) example_filter (example_data "quiet") = Some true /\
  LogMatchFilter (fun _ _ => None) example_filter (example_data "noisy") = Some false.
Proof.
  assert (filter_range example_filter) as Hr by (repeat constructor; simpl; lia).
  split.
  - rewrite (proj1 (LogMatchFilter_spec (fun _ _ => None) example_filter (example_data "quiet") Hr
      (example_data_wf _) ltac:(simpl; lia))); [done|].
    constructor; simpl; try done.
    + intros _. left. right. done.
    + intros _. by repeat constructor.
  - apply (LogMatchFilter_spec (fun _ _ => None) example_filter (example_data "noisy") Hr
      (example_data_wf _)); [simpl; lia|].
    intros [_ _ _ Ht _]. specialize (Ht ltac:(done)). inversion Ht; subst. by simpl in *.
Defined.
