(* ===== verification/LogStats.v ===== *)
(** * Log statistics (log_stats.h, log_stats.cpp)

    Counters of lines and bytes per level, kept in total, per type and domain,
    per process and per tag, with the highest rates seen over one-second audit
    periods.  An access outside an array is a [None]. *)

From S2P Require Import Prelude Common TimeStamp Utils.
From Stdlib Require Import SpecFloat.

(** ** Single-precision arithmetic

    [float] is the IEEE binary32 format, rounded to nearest even. *)

Definition f32_of_Z (z : Z) : spec_float := binary_normalize 24 128 z 0 false.
Definition f32_add : spec_float -> spec_float -> spec_float := SFadd 24 128.
Definition f32_div : spec_float -> spec_float -> spec_float := SFdiv 24 128.
Definition f32_ltb : spec_float -> spec_float -> bool := SFltb.
Definition f32_zero : spec_float := S754_zero false.
Definition f32_one : spec_float := f32_of_Z 1.

Definition FloatSecs (t : LogTimeStamp) : spec_float :=
  f32_add (f32_of_Z (tv_sec t)) (f32_div (f32_of_Z (tv_nsec t)) (f32_of_Z NS_PER_SEC)).

(** ** Entries *)

Record StatsInfo := mkStatsInfo {
  i_level : Z; i_type : Z; i_len : Z; i_dropped : Z;   (* uint16_t *)
  i_domain : Z; i_pid : Z; i_tv_sec : Z; i_tv_nsec : Z; i_mono_sec : Z;
  i_tag : string;
}.

Record StatsEntry := mkStatsEntry {
  e_lines : list Z;                     (* uint32_t[LevelNum] *)
  e_len : list Z;                       (* uint64_t[LevelNum] *)
  e_dropped : Z;
  e_tmpLines : Z;
  e_freqMax : spec_float;
  e_realTimeFreqMax : LogTimeStamp;
  e_tmpLen : Z;
  e_throughputMax : spec_float;
  e_realTimeThroughputMax : LogTimeStamp;
  e_realTimeLast : LogTimeStamp;
  e_monoTimeLast : LogTimeStamp;
  e_monoTimeAuditStart : LogTimeStamp;
}.

Definition zeros : list Z := replicate 5 0.

Definition GetTotalLines (e : StatsEntry) : Z := foldl (fun a i => u32 (a + i)) 0 (e_lines e).
Definition GetTotalLen (e : StatsEntry) : Z := foldl (fun a i => u64 (a + i)) 0 (e_len e).

(** The value shown for a maximum that no finished audit period has set. *)
Definition current_rate (e : StatsEntry) (tmp : Z) : spec_float :=
  let secs := FloatSecs (ts_sub (e_monoTimeLast e) (e_monoTimeAuditStart e)) in
  if f32_ltb f32_one secs then f32_div (f32_of_Z tmp) secs else f32_of_Z tmp.

Definition GetFreqMax (e : StatsEntry) : spec_float :=
  if SFeqb (e_freqMax e) f32_zero then current_rate e (e_tmpLines e) else e_freqMax e.
Definition GetThroughputMax (e : StatsEntry) : spec_float :=
  if SFeqb (e_throughputMax e) f32_zero then current_rate e (e_tmpLen e) else e_throughputMax e.

Definition IdxLvl (lvl : Z) : Z := lvl - LevelBase.

(** Closing the audit period when more than a second has passed since the
    last line. *)
Definition audit (entry : StatsEntry) (info : StatsInfo) : StatsEntry :=
  let ts_mono := ts_sub (mkTS (i_mono_sec info) (i_tv_nsec info)) (e_monoTimeLast entry) in
  if ts_gtb ts_mono (mkTS 1 0) then
    let last := ts_sub (e_monoTimeLast entry) (e_monoTimeAuditStart entry) in
    let s0 := FloatSecs last in
    let secs := if f32_ltb s0 f32_one then f32_one else s0 in
    let freq := f32_div (f32_of_Z (e_tmpLines entry)) secs in
    let throughput := f32_div (f32_of_Z (e_tmpLen entry)) secs in
    let newf := f32_ltb (e_freqMax entry) freq in
    let newt := f32_ltb (e_throughputMax entry) throughput in
    {| e_lines := e_lines entry; e_len := e_len entry; e_dropped := e_dropped entry;
       e_tmpLines := 0;
       e_freqMax := if newf then freq else e_freqMax entry;
       e_realTimeFreqMax := if newf then e_realTimeLast entry else e_realTimeFreqMax entry;
       e_tmpLen := 0;
       e_throughputMax := if newt then throughput else e_throughputMax entry;
       e_realTimeThroughputMax :=
         if newt then e_realTimeLast entry else e_realTimeThroughputMax entry;
       e_realTimeLast := e_realTimeLast entry;
       e_monoTimeLast := last;
       e_monoTimeAuditStart := mkTS (i_mono_sec info) (i_tv_nsec info) |}
  else entry.

Definition UpdateStats (entry : StatsEntry) (info : StatsInfo) : option StatsEntry :=
  let entry := audit entry info in
  let lvl := IdxLvl (i_level info) in
  lines ← aset_chk (e_lines entry) lvl (u32 (aget (e_lines entry) lvl + 1));
  len ← aset_chk (e_len entry) lvl (u64 (aget (e_len entry) lvl + i_len info));
  Some {| e_lines := lines; e_len := len;
          e_dropped := u32 (e_dropped entry + i_dropped info);
          e_tmpLines := u32 (e_tmpLines entry + 1);
          e_freqMax := e_freqMax entry;
          e_realTimeFreqMax := e_realTimeFreqMax entry;
          e_tmpLen := u32 (e_tmpLen entry + i_len info);
          e_throughputMax := e_throughputMax entry;
          e_realTimeThroughputMax := e_realTimeThroughputMax entry;
          e_realTimeLast := mkTS (i_tv_sec info) (i_tv_nsec info);
          e_monoTimeLast := mkTS (i_mono_sec info) (i_tv_nsec info);
          e_monoTimeAuditStart := e_monoTimeAuditStart entry |}.

(** [realTimeLast] keeps the zero its constructor gave it. *)
Definition ResetStatsEntry : StatsEntry :=
  mkStatsEntry zeros zeros 0 0 f32_zero (mkTS 0 0) 0 f32_zero (mkTS 0 0) (mkTS 0 0) (mkTS 0 0) (mkTS 0 0).

Definition StatsInfo2NewStatsEntry (info : StatsInfo) : option StatsEntry :=
  let rt := mkTS (i_tv_sec info) (i_tv_nsec info) in
  let mt := mkTS (i_mono_sec info) (i_tv_nsec info) in
  let lvl := IdxLvl (i_level info) in
  lines ← aset_chk zeros lvl 1;
  len ← aset_chk zeros lvl (i_len info);
  Some (mkStatsEntry lines len (i_dropped info) 1 f32_zero rt (i_len info) f32_zero rt rt mt mt).

(** ** Tables *)

Abbreviation TagTable := (gmap string StatsEntry).

Record DomainStatsEntry := mkDomainStatsEntry { ds_stats : StatsEntry; ds_tagStats : TagTable }.

Record PidStatsEntry := mkPidStatsEntry {
  ps_statsAll : StatsEntry;
  ps_stats : list StatsEntry;      (* one per type *)
  ps_name : string;
  ps_tagStats : TagTable;
}.

Record LogStats := mkLogStats {
  domainStats : list (gmap Z DomainStatsEntry);   (* one table per type *)
  pidStats : gmap Z PidStatsEntry;
  tsBegin : LogTimeStamp;
  monoBegin : LogTimeStamp;
  totalLines : list Z;
  totalLens : list Z;
  enable : bool;
  tagEnable : bool;
}.

Definition UpdateTagTable (tagEnable : bool) (tt : TagTable) (info : StatsInfo) : option TagTable :=
  if negb tagEnable then Some tt
  else
    e ← match tt !! i_tag info with
        | Some e => UpdateStats e info
        | None => StatsInfo2NewStatsEntry info
        end;
    Some (<[i_tag info := e]> tt).

Definition UpdateDomainTable (s : LogStats) (info : StatsInfo) : option LogStats :=
  t ← aget_chk (domainStats s) (i_type info);
  e ← match t !! i_domain info with
      | Some e => st ← UpdateStats (ds_stats e) info; Some (mkDomainStatsEntry st (ds_tagStats e))
      | None => st ← StatsInfo2NewStatsEntry info; Some (mkDomainStatsEntry st ∅)
      end;
  tt ← UpdateTagTable (tagEnable s) (ds_tagStats e) info;
  ds ← aset_chk (domainStats s) (i_type info) (<[i_domain info := mkDomainStatsEntry (ds_stats e) tt]> t);
  Some (mkLogStats ds (pidStats s) (tsBegin s) (monoBegin s) (totalLines s) (totalLens s)
          (enable s) (tagEnable s)).

Section stats.
(** The name of a process, read from [/proc]. *)
Context (GetNameByPid : Z -> string).

Definition UpdatePidTable (s : LogStats) (info : StatsInfo) : option LogStats :=
  e ← match pidStats s !! i_pid info with
      | Some e =>
          all ← UpdateStats (ps_statsAll e) info;
          old ← aget_chk (ps_stats e) (i_type info);
          st ← UpdateStats old info;
          sts ← aset_chk (ps_stats e) (i_type info) st;
          Some (mkPidStatsEntry all sts (ps_name e) (ps_tagStats e))
      | None =>
          all ← StatsInfo2NewStatsEntry info;
          sts ← aset_chk (replicate 6 ResetStatsEntry) (i_type info) all;
          Some (mkPidStatsEntry all sts (GetNameByPid (i_pid info)) ∅)
      end;
  tt ← UpdateTagTable (tagEnable s) (ps_tagStats e) info;
  Some (mkLogStats (domainStats s)
          (<[i_pid info := mkPidStatsEntry (ps_statsAll e) (ps_stats e) (ps_name e) tt]> (pidStats s))
          (tsBegin s) (monoBegin s) (totalLines s) (totalLens s) (enable s) (tagEnable s)).

Definition Count (s : LogStats) (info : StatsInfo) : option LogStats :=
  if enable s then
    let index := IdxLvl (i_level info) in
    lines ← aset_chk (totalLines s) index (u32 (aget (totalLines s) index + 1));
    lens ← aset_chk (totalLens s) index (u64 (aget (totalLens s) index + i_len info));
    s1 ← UpdateDomainTable
           (mkLogStats (domainStats s) (pidStats s) (tsBegin s) (monoBegin s) lines lens
              (enable s) (tagEnable s)) info;
    UpdatePidTable s1 info
  else Some s.
End stats.

(** [Reset] at the two clock readings. *)
Definition Reset (real mono : LogTimeStamp) (s : LogStats) : LogStats :=
  mkLogStats (replicate 6 ∅) ∅ real mono zeros zeros (enable s) (tagEnable s).

(** * Lemmas and properties *)

(** ** Equality modulo the width of a counter *)

Definition eqm (w a b : Z) : Prop := wrapu w a = wrapu w b.

#[export] Instance eqm_equiv w : Equivalence (eqm w).
Proof. split; unfold eqm; [by intros ? | by intros ? ? | by intros ? ? ? -> ->]. Qed.

#[export] Instance eqm_add w : Proper (eqm w ==> eqm w ==> eqm w) Z.add.
Proof. intros a b H c d H'. unfold eqm, wrapu in *. rewrite Zplus_mod, H, H', <- Zplus_mod. done. Qed.

#[export] Instance eqm_sub w : Proper (eqm w ==> eqm w ==> eqm w) Z.sub.
Proof. intros a b H c d H'. unfold eqm, wrapu in *. rewrite Zminus_mod, H, H', <- Zminus_mod. done. Qed.

Lemma eqm_wrap w a : eqm w (wrapu w a) a.
Proof. apply wrapu_idem. Qed.

Lemma eqm_replace w s s' x x' d :
  s' = s + x' - x -> eqm w x' (x + d) -> eqm w s' (s + d).
Proof. intros -> H. rewrite H. apply reflexive_eq. lia. Qed.

(** ** Counters *)

(** The two counters every entry keeps for a level. *)
Inductive counter := cnt_lines | cnt_len.

Definition width (c : counter) : Z := match c with cnt_lines => 32 | cnt_len => 64 end.
Definition cval (c : counter) (i : Z) (e : StatsEntry) : Z :=
  match c with cnt_lines => aget (e_lines e) i | cnt_len => aget (e_len e) i end.
Definition ctotal (c : counter) (i : Z) (s : LogStats) : Z :=
  match c with cnt_lines => aget (totalLines s) i | cnt_len => aget (totalLens s) i end.

(** What one line adds to the counter of level index [i]. *)
Definition bump (c : counter) (i : Z) (info : StatsInfo) : Z :=
  if i =? IdxLvl (i_level info) then match c with cnt_lines => 1 | cnt_len => i_len info end else 0.

(** The values for which every index stays inside its array. *)
Definition info_valid (info : StatsInfo) : Prop :=
  LevelBase <= i_level info < LOG_LEVEL_MAX /\ 0 <= i_type info < LOG_TYPE_MAX.

Definition entry_wf (e : StatsEntry) : Prop := length (e_lines e) = 5%nat /\ length (e_len e) = 5%nat.

Definition in_level (i : Z) : Prop := 0 <= i < LevelNum.

(** [e'] is [old] with one more line counted. *)
Definition counted (old : option StatsEntry) (info : StatsInfo) (e' : StatsEntry) : Prop :=
  entry_wf e' /\
  forall c i, in_level i -> eqm (width c) (cval c i e') (from_option (cval c i) 0 old + bump c i info).

Lemma aset_chk_ok {A} (l : list A) i v :
  0 <= i < Z.of_nat (length l) -> aset_chk l i v = Some (aset l i v).
Proof. intros Hi. unfold aset_chk. by rewrite (proj2 (in_bounds_spec l i) Hi). Qed.

Lemma aget_bump w l lvl i d :
  0 <= lvl < Z.of_nat (length l) -> 0 <= i ->
  eqm w (aget (aset l lvl (wrapu w (aget l lvl + d))) i) (aget l i + if i =? lvl then d else 0).
Proof.
  intros Hl Hi. destruct (Z.eqb_spec i lvl) as [->|Hne].
  - rewrite aget_aset_eq by done. apply eqm_wrap.
  - rewrite aget_aset_ne by lia. apply reflexive_eq. lia.
Qed.

Lemma audit_counters e info : e_lines (audit e info) = e_lines e /\ e_len (audit e info) = e_len e.
Proof. unfold audit. by case_goal. Qed.

Lemma IdxLvl_range info : info_valid info -> 0 <= IdxLvl (i_level info) < 5.
Proof. unfold info_valid, IdxLvl, LevelBase, LOG_DEBUG, LOG_LEVEL_MAX. lia. Qed.

Lemma UpdateStats_counted e info :
  entry_wf e -> info_valid info -> exists e', UpdateStats e info = Some e' /\ counted (Some e) info e'.
Proof.
  intros [H1 H2] Hi%IdxLvl_range. unfold UpdateStats. destruct (audit_counters e info) as [-> ->].
  rewrite !aset_chk_ok by lia. simpl. eexists. split; [done|]. split.
  - split; simpl; by rewrite aset_length.
  - intros [] i [Hi' _]; simpl; unfold bump; apply aget_bump; lia.
Qed.

Lemma aget_zeros i : aget zeros i = 0.
Proof. unfold aget, zeros. rewrite nth_lookup. destruct (replicate _ _ !! _) eqn:E; [|done].
  by apply lookup_replicate in E as [-> _]. Qed.

Lemma New_counted info :
  info_valid info -> exists e', StatsInfo2NewStatsEntry info = Some e' /\ counted None info e'.
Proof.
  intros Hi%IdxLvl_range. unfold StatsInfo2NewStatsEntry. rewrite !aset_chk_ok by (simpl; lia).
  cbn [mbind option_bind]. eexists. split; [done|].
  split; [by split; cbn [e_lines e_len]; rewrite aset_length|].
  intros [] i [Hi' _]; unfold bump; cbn [cval from_option e_lines e_len]; (destruct (Z.eqb_spec i (IdxLvl (i_level info))) as [->|];
    [rewrite aget_aset_eq by (simpl; lia) | rewrite aget_aset_ne, aget_zeros by lia]); done.
Qed.
#[export] Hint Resolve UpdateStats_counted New_counted : hilog.

(** ** The tables agree *)

(** The sum of a counter over a tag table. *)
Definition tags_agree (on : bool) (all : StatsEntry) (tt : TagTable) : Prop :=
  map_Forall (fun _ e => entry_wf e) tt /\
  (on = true -> forall c i, in_level i -> eqm (width c) (cval c i all) (msum (cval c i) tt)).

Definition domain_wf (on : bool) (d : DomainStatsEntry) : Prop :=
  entry_wf (ds_stats d) /\ tags_agree on (ds_stats d) (ds_tagStats d).

Definition pid_wf (on : bool) (p : PidStatsEntry) : Prop :=
  entry_wf (ps_statsAll p) /\ tags_agree on (ps_statsAll p) (ps_tagStats p) /\
  length (ps_stats p) = 6%nat /\ Forall entry_wf (ps_stats p) /\
  (forall c i, in_level i -> eqm (width c) (cval c i (ps_statsAll p)) (sumZ (cval c i) (ps_stats p))).

(** The totals over the domain tables and over the processes. *)
Definition domain_total (c : counter) (i : Z) (s : LogStats) : Z :=
  sumZ (msum (fun d => cval c i (ds_stats d))) (domainStats s).
Definition pid_total (c : counter) (i : Z) (s : LogStats) : Z :=
  msum (fun p => cval c i (ps_statsAll p)) (pidStats s).

Record stats_wf (s : LogStats) : Prop := {
  swf_totals : length (totalLines s) = 5%nat /\ length (totalLens s) = 5%nat;
  swf_types : length (domainStats s) = 6%nat;
  swf_domains : Forall (map_Forall (fun _ => domain_wf (tagEnable s))) (domainStats s);
  swf_pids : map_Forall (fun _ => pid_wf (tagEnable s)) (pidStats s);
  swf_by_domain : forall c i, in_level i -> eqm (width c) (ctotal c i s) (domain_total c i s);
  swf_by_pid : forall c i, in_level i -> eqm (width c) (ctotal c i s) (pid_total c i s);
}.

Lemma UpdateTagTable_agree on tt info old all :
  info_valid info -> tags_agree on (default ResetStatsEntry old) tt -> counted old info all ->
  (old = None -> tt = ∅) ->
  exists tt', UpdateTagTable on tt info = Some tt' /\ tags_agree on all tt'.
Proof.
  intros Hi [Hwf Hag] [_ Hall] Hnew. unfold UpdateTagTable. destruct on; simpl.
  2:{ eexists. split; [done|]. by split. }
  assert (exists e, (match tt !! i_tag info with
                     | Some e => UpdateStats e info
                     | None => StatsInfo2NewStatsEntry info end) = Some e
            /\ counted (tt !! i_tag info) info e) as (e & -> & [Hewf He]).
  { destruct (tt !! i_tag info) as [e0|] eqn:E; [|by apply New_counted].
    apply UpdateStats_counted; [by eapply map_Forall_lookup_1 in Hwf | done]. }
  simpl. eexists. split; [done|]. split.
  - by apply map_Forall_insert_2.
  - intros _ c i Hin. rewrite (Hall c i Hin). symmetry.
    transitivity (msum (cval c i) tt + bump c i info).
    + eapply eqm_replace; [apply msum_insert | by apply He].
    + apply eqm_add; [|done]. rewrite <- (Hag eq_refl c i Hin). destruct old as [o|]; [done|].
      destruct c; simpl; rewrite aget_zeros; reflexivity.
Qed.

Lemma tags_agree_empty on : tags_agree on ResetStatsEntry ∅.
Proof.
  split; [apply map_Forall_empty|]. intros _ c i _. rewrite msum_empty.
  destruct c; simpl; rewrite aget_zeros; reflexivity.
Qed.

Lemma UpdateDomainTable_wf s info :
  info_valid info -> length (domainStats s) = 6%nat ->
  Forall (map_Forall (fun _ => domain_wf (tagEnable s))) (domainStats s) ->
  exists ds, UpdateDomainTable s info =
      Some (mkLogStats ds (pidStats s) (tsBegin s) (monoBegin s) (totalLines s) (totalLens s)
              (enable s) (tagEnable s)) /\
    length ds = 6%nat /\ Forall (map_Forall (fun _ => domain_wf (tagEnable s))) ds /\
    forall c i, in_level i ->
      eqm (width c) (sumZ (msum (fun d => cval c i (ds_stats d))) ds) (domain_total c i s + bump c i info).
Proof.
  intros Hi Hlen Hall. unfold UpdateDomainTable. pose proof Hi as [_ Ht]. unfold LOG_TYPE_MAX in Ht.
  destruct (aget_chk (domainStats s) (i_type info)) as [t|] eqn:Et.
  2:{ assert (is_Some (aget_chk (domainStats s) (i_type info))) as Hs by (apply aget_chk_Some; lia).
      rewrite Et in Hs. by destruct Hs. }
  simpl. unfold aget_chk in Et. destruct (Z.leb_spec 0 (i_type info)); [|lia].
  assert (map_Forall (fun _ => domain_wf (tagEnable s)) t) as Hwt by (by eapply Forall_lookup_1 in Hall).
  assert (exists e, (match t !! i_domain info with
      | Some e => st ← UpdateStats (ds_stats e) info; Some (mkDomainStatsEntry st (ds_tagStats e))
      | None => st ← StatsInfo2NewStatsEntry info; Some (mkDomainStatsEntry st ∅)
      end) = Some e /\ counted (ds_stats <$> t !! i_domain info) info (ds_stats e) /\
      exists tt', UpdateTagTable (tagEnable s) (ds_tagStats e) info = Some tt' /\
                  tags_agree (tagEnable s) (ds_stats e) tt') as (e & -> & He & tt & Htt & Hag).
  { destruct (t !! i_domain info) as [e0|] eqn:E.
    - destruct (map_Forall_lookup_1 _ _ _ _ Hwt E) as [Hw Ha].
      destruct (UpdateStats_counted (ds_stats e0) info Hw Hi) as (st & -> & Hst). simpl.
      eexists. split; [done|]. split; [done|]. by apply (UpdateTagTable_agree _ _ _ (Some (ds_stats e0))).
    - destruct (New_counted info Hi) as (st & -> & Hst). simpl.
      eexists. split; [done|]. split; [done|].
      by apply (UpdateTagTable_agree _ _ _ None); [|apply tags_agree_empty|..]. }
  simpl. rewrite Htt. simpl. rewrite aset_chk_ok by lia. simpl. eexists. split; [done|].
  split; [by rewrite aset_length|]. split.
  - apply Forall_insert; [done|]. apply map_Forall_insert_2; [|done]. by destruct He.
  - intros c i Hin. eapply eqm_replace; [by apply sumZ_insert|].
    eapply eqm_replace; [apply msum_insert|]. destruct He as [_ He]. rewrite (He c i Hin). simpl.
    by destruct (t !! i_domain info).
Qed.

(** Counting a line of a known process. *)
Lemma pid_entry_update on e0 info :
  info_valid info -> pid_wf on e0 ->
  exists e tt,
    (all ← UpdateStats (ps_statsAll e0) info;
     old ← aget_chk (ps_stats e0) (i_type info);
     st ← UpdateStats old info;
     sts ← aset_chk (ps_stats e0) (i_type info) st;
     Some (mkPidStatsEntry all sts (ps_name e0) (ps_tagStats e0))) = Some e /\
    counted (Some (ps_statsAll e0)) info (ps_statsAll e) /\
    UpdateTagTable on (ps_tagStats e) info = Some tt /\
    pid_wf on (mkPidStatsEntry (ps_statsAll e) (ps_stats e) (ps_name e) tt).
Proof.
  intros Hi (Hw & Ha & Hlen & Hst & Hsum). pose proof Hi as [_ Ht]. unfold LOG_TYPE_MAX in Ht.
  destruct (UpdateStats_counted (ps_statsAll e0) info Hw Hi) as (all & -> & Hc).
  destruct (lookup_lt_is_Some_2 (ps_stats e0) (Z.to_nat (i_type info))) as [old Hold]; [lia|].
  cbn [mbind option_bind]. unfold aget_chk. destruct (Z.leb_spec 0 (i_type info)); [|lia]. rewrite Hold.
  pose proof (Forall_lookup_1 _ _ _ _ Hst Hold) as Hwo.
  destruct (UpdateStats_counted old info Hwo Hi) as (st & E & Hcs). cbn [mbind option_bind]. rewrite E.
  cbn [mbind option_bind]. rewrite aset_chk_ok by lia.
  destruct (UpdateTagTable_agree on (ps_tagStats e0) info (Some (ps_statsAll e0)) all)
    as (tt & Htt & Hag); [done..|].
  eexists _, tt. split; [done|]. split; [done|]. split; [done|].
  split; [apply Hc|]. split; [done|]. simpl. rewrite aset_length. split; [done|]. split.
  - apply Forall_insert; [done | apply Hcs].
  - intros c i Hin. destruct Hc as [_ Hc]. rewrite (Hc c i Hin). symmetry.
    transitivity (sumZ (cval c i) (ps_stats e0) + bump c i info).
    + eapply eqm_replace; [by apply sumZ_insert | by apply Hcs].
    + apply eqm_add; [|done]. symmetry. by apply Hsum.
Qed.

(** Counting the first line of a process. *)
Lemma pid_entry_new on name info :
  info_valid info ->
  exists e tt,
    (all ← StatsInfo2NewStatsEntry info;
     sts ← aset_chk (replicate 6 ResetStatsEntry) (i_type info) all;
     Some (mkPidStatsEntry all sts name ∅)) = Some e /\
    counted None info (ps_statsAll e) /\
    UpdateTagTable on (ps_tagStats e) info = Some tt /\
    pid_wf on (mkPidStatsEntry (ps_statsAll e) (ps_stats e) (ps_name e) tt).
Proof.
  intros Hi. pose proof Hi as [_ Ht]. unfold LOG_TYPE_MAX in Ht.
  destruct (New_counted info Hi) as (all & -> & Hc). cbn [mbind option_bind].
  rewrite aset_chk_ok by (simpl; lia). cbn [mbind option_bind].
  destruct (UpdateTagTable_agree on ∅ info None all) as (tt & Htt & Hag);
    [done | apply tags_agree_empty | done | done |].
  eexists _, tt. split; [done|]. split; [done|]. split; [done|].
  split; [apply Hc|]. split; [done|]. cbn [ps_stats ps_statsAll]. rewrite aset_length. split; [done|]. split.
  - apply Forall_insert; [by repeat constructor | apply Hc].
  - intros c i Hin. unfold aset.
    rewrite (sumZ_insert _ _ _ ResetStatsEntry) by (apply lookup_replicate_2; lia).
    rewrite sumZ_replicate. replace (cval c i ResetStatsEntry) with 0
      by (destruct c; simpl; by rewrite aget_zeros). apply reflexive_eq. lia.
Qed.

Lemma UpdatePidTable_wf GetNameByPid s info :
  info_valid info -> map_Forall (fun _ => pid_wf (tagEnable s)) (pidStats s) ->
  exists ps, UpdatePidTable GetNameByPid s info =
      Some (mkLogStats (domainStats s) ps (tsBegin s) (monoBegin s) (totalLines s) (totalLens s)
              (enable s) (tagEnable s)) /\
    map_Forall (fun _ => pid_wf (tagEnable s)) ps /\
    forall c i, in_level i ->
      eqm (width c) (msum (fun p => cval c i (ps_statsAll p)) ps) (pid_total c i s + bump c i info).
Proof.
  intros Hi Hall. unfold UpdatePidTable.
  match goal with |- context [mbind _ ?o] => set (lk := o) end.
  assert (exists e tt, lk = Some e /\ counted (ps_statsAll <$> pidStats s !! i_pid info) info (ps_statsAll e) /\
      UpdateTagTable (tagEnable s) (ps_tagStats e) info = Some tt /\
      pid_wf (tagEnable s) (mkPidStatsEntry (ps_statsAll e) (ps_stats e) (ps_name e) tt))
    as (e & tt & -> & He & Htt & Hwf).
  { unfold lk. destruct (pidStats s !! i_pid info) as [e0|] eqn:E; simpl fmap.
    - apply pid_entry_update; [done|]. by eapply map_Forall_lookup_1 in Hall.
    - by apply pid_entry_new. }
  simpl. rewrite Htt. simpl. eexists. split; [done|]. split; [by apply map_Forall_insert_2|].
  intros c i Hin. eapply eqm_replace; [apply msum_insert|]. destruct He as [_ He]. rewrite (He c i Hin). simpl.
  by destruct (pidStats s !! i_pid info).
Qed.

Lemma Count_wf GetNameByPid s info :
  info_valid info -> stats_wf s -> exists s', Count GetNameByPid s info = Some s' /\ stats_wf s' /\
    enable s' = enable s /\
    (forall c i, in_level i -> enable s = true ->
       eqm (width c) (ctotal c i s') (ctotal c i s + bump c i info)).
Proof.
  intros Hi Hwf. pose proof Hwf as [[Hl1 Hl2] Hty Hd Hp Hbd Hbp]. unfold Count. pose proof (IdxLvl_range info Hi) as Hidx.
  destruct (enable s) eqn:En.
  2:{ exists s. split; [done|]. split; [done|]. split; [done|]. by intros ? ? ?. }
  rewrite !aset_chk_ok by lia. cbn [mbind option_bind].
  set (lines := aset (totalLines s) _ _). set (lens := aset (totalLens s) _ _).
  set (s0 := mkLogStats _ _ _ _ _ _ _ _).
  destruct (UpdateDomainTable_wf s0 info Hi Hty Hd) as (ds & -> & Hdl & Hdw & Hds). cbn [mbind option_bind].
  set (s1 := mkLogStats _ _ _ _ _ _ _ _).
  destruct (UpdatePidTable_wf GetNameByPid s1 info Hi Hp) as (ps & -> & Hpw & Hps).
  assert (forall c i, in_level i -> eqm (width c)
    (match c with cnt_lines => aget lines i | cnt_len => aget lens i end) (ctotal c i s + bump c i info)) as Htot.
  { intros [] i [Hin _]; unfold lines, lens, bump; simpl; apply aget_bump; lia. }
  eexists. split; [done|]. split; [|split; [done|]; intros c i Hin _; by apply Htot].
  split; try done.
  - unfold s1, s0, lines, lens. split; simpl; by rewrite aset_length.
  - intros c i Hin. etransitivity; [by apply Htot|]. rewrite (Hbd c i Hin). symmetry. by apply Hds.
  - intros c i Hin. etransitivity; [by apply Htot|]. rewrite (Hbp c i Hin). symmetry. by apply Hps.
Qed.

Lemma Reset_wf real mono s : stats_wf (Reset real mono s).
Proof.
  split; simpl; try done.
  - repeat (apply Forall_cons; split; [apply map_Forall_empty|]). done.
  - intros c i _. unfold domain_total. simpl. rewrite !msum_empty. destruct c; simpl; by rewrite aget_zeros.
  - intros c i _. unfold pid_total. simpl. rewrite msum_empty. destruct c; simpl; by rewrite aget_zeros.
Qed.

Fixpoint count_all (name : Z -> string) (s : LogStats) (infos : list StatsInfo) : option LogStats :=
  match infos with
  | [] => Some s
  | i :: infos => s' ← Count name s i; count_all name s' infos
  end.

(** C33: after a reset, any sequence of lines with a defined level and type is
    counted without leaving an array, and the statistics stay consistent: for
    every level, the lines and the bytes counted in total are (modulo the
    width of the counter) what was sent, what the domain tables of all types
    sum up to and what the processes sum up to; each process is the sum of its
    types, and with tag counting on each domain and process is the sum of its
    tags. *)
Theorem stats_consistent name real mono s infos :
  Forall info_valid infos -> enable s = true ->
  exists s', count_all name (Reset real mono s) infos = Some s' /\ stats_wf s' /\
    forall c i, in_level i ->
      eqm (width c) (ctotal c i s') (sumZ (bump c i) infos) /\
      eqm (width c) (domain_total c i s') (sumZ (bump c i) infos) /\
      eqm (width c) (pid_total c i s') (sumZ (bump c i) infos).
Proof.
  intros Hall Hen.
  assert (forall s, stats_wf s -> enable s = true -> exists s', count_all name s infos = Some s' /\ stats_wf s' /\
    forall c i, in_level i -> eqm (width c) (ctotal c i s') (ctotal c i s + sumZ (bump c i) infos)) as Hrun.
  { clear s Hen. induction Hall as [|info infos Hi Hall IH]; intros s Hwf Hen; simpl.
    - exists s. split; [done|]. split; [done|]. intros c i _. apply reflexive_eq. lia.
    - destruct (Count_wf name s info Hi Hwf) as (s1 & -> & Hwf1 & Hen1 & Ht1). simpl.
      destruct (IH s1 Hwf1) as (s' & -> & Hwf' & Ht'); [congruence|].
      exists s'. split; [done|]. split; [done|]. intros c i Hin.
      rewrite (Ht' c i Hin), (Ht1 c i Hin Hen). apply reflexive_eq. lia. }
  destruct (Hrun (Reset real mono s) (Reset_wf _ _ _) Hen) as (s' & Hc & Hwf & Ht).
  exists s'. split; [done|]. split; [done|]. intros c i Hin.
  assert (eqm (width c) (ctotal c i s') (sumZ (bump c i) infos)) as He.
  { rewrite (Ht c i Hin). destruct c; simpl; rewrite aget_zeros; reflexivity. }
  split; [done|]. destruct Hwf as [_ _ _ _ Hd Hp]. by rewrite <- (Hd c i Hin), <- (Hp c i Hin).
Qed.

Definition example_stats : LogStats :=
  mkLogStats (replicate 6 ∅) ∅ (mkTS 0 0) (mkTS 0 0) zeros zeros true true.
Definition example_info (type pid sec : Z) (tag : string) : StatsInfo :=
  mkStatsInfo LOG_INFO type 20 0 0xD002D00 pid sec 0 sec tag.

Lemma stats_consistent_witness :
  exists s', count_all (fun _ => "proc") (Reset (mkTS 1 0) (mkTS 1 0) example_stats)
    [example_info LOG_CORE 7 1 "A"; example_info LOG_INIT 7 2 "B"; example_info LOG_CORE 8 9 "A"] = Some s' /\
    stats_wf s' /\ totalLens s' = [0; 60; 0; 0; 0].
Proof.
  destruct (stats_consistent (fun _ => "proc") (mkTS 1 0) (mkTS 1 0) example_stats
    [example_info LOG_CORE 7 1 "A"; example_info LOG_INIT 7 2 "B"; example_info LOG_CORE 8 9 "A"])
    as (s' & Hc & Hwf & _).
  - repeat constructor; done.
  - done.
  - exists s'. split; [done|]. split; [done|].
    assert (totalLens <$> Some s' = Some [0; 60; 0; 0; 0]) as H by (rewrite <- Hc; by vm_compute).
    simpl in H. by injection H.
Defined.

Lemma Count_None_iff name s info :
  stats_wf s -> enable s = true -> 0 <= i_level info < 8 -> 0 <= i_type info ->
  (Count name s info = None <-> i_level info < LOG_DEBUG \/ LOG_TYPE_MAX <= i_type info).
Proof.
  intros [[Hl1 Hl2] Hty Hd Hp _ _] Hen Hl Ht. unfold LOG_DEBUG, LOG_TYPE_MAX.
  unfold Count. rewrite Hen. unfold aset_chk at 1 2. unfold IdxLvl, LevelBase, LOG_DEBUG.
  destruct (in_bounds (totalLines s) (i_level info - 3)) eqn:E1.
  - apply in_bounds_spec in E1. rewrite Hl1 in E1.
    rewrite (proj2 (in_bounds_spec (totalLens s) _)) by (rewrite Hl2; lia). cbn [mbind option_bind].
    destruct (Z.lt_ge_cases (i_type info) 6) as [Hlt|Hge].
    + assert (info_valid info) as Hv by (unfold info_valid, LevelBase, LOG_DEBUG, LOG_LEVEL_MAX, LOG_TYPE_MAX; lia).
      match goal with |- context [UpdateDomainTable ?s0 _] =>
        destruct (UpdateDomainTable_wf s0 info Hv Hty Hd) as (ds & -> & _) end.
      cbn [mbind option_bind].
      match goal with |- context [UpdatePidTable _ ?s1 _] =>
        destruct (UpdatePidTable_wf name s1 info Hv Hp) as (ps & -> & _) end.
      split; [done | lia].
    + split; [lia|]. intros _. unfold UpdateDomainTable.
      replace (aget_chk _ (i_type info)) with (@None (gmap Z DomainStatsEntry)); [done|].
      unfold aget_chk. destruct (Z.leb_spec 0 (i_type info)); [|done].
      symmetry. apply lookup_ge_None_2. simpl. lia.
  - split; [|done]. intros _. left. apply not_true_iff_false in E1. rewrite in_bounds_spec, Hl1 in E1. lia.
Qed.

(** Whatever is counted without leaving the arrays keeps the tables consistent. *)
Lemma Count_Some_wf name s info s' :
  0 <= i_level info < 8 -> 0 <= i_type info < 16 -> stats_wf s -> Count name s info = Some s' -> stats_wf s'.
Proof.
  intros Hl Ht Hwf H. destruct (enable s) eqn:En.
  - assert (info_valid info) as Hv.
    { destruct (Count_None_iff name s info Hwf En Hl ltac:(lia)) as [_ Hn].
      unfold info_valid, LevelBase, LOG_DEBUG, LOG_LEVEL_MAX, LOG_TYPE_MAX in *.
      destruct (Z.lt_ge_cases (i_level info) 3); [by rewrite Hn in H by lia|].
      destruct (Z.lt_ge_cases (i_type info) 6); [lia|by rewrite Hn in H by lia]. }
    destruct (Count_wf name s info Hv Hwf) as (s1 & E & ? & _). congruence.
  - unfold Count in H. rewrite En in H. by simplify_eq.
Qed.

(** A line whose level is below DEBUG, or whose type is not defined, makes
    [Count] leave its arrays whenever statistics are enabled: nothing in the
    function checks the two numbers, which come from the sender. *)
Theorem Count_out_of_bounds name s info :
  stats_wf s -> enable s = true -> 0 <= i_level info < 8 -> 0 <= i_type info ->
  (Count name s info = None <-> i_level info < LOG_DEBUG \/ LOG_TYPE_MAX <= i_type info).
Proof. apply Count_None_iff. Qed.

Lemma Count_out_of_bounds_witness :
  Count (fun _ => "proc") example_stats (mkStatsInfo 2 LOG_CORE 20 0 0xD002D00 7 1 0 1 "A") = None.
Proof.
  apply (Count_out_of_bounds (fun _ => "proc") example_stats
    (mkStatsInfo 2 LOG_CORE 20 0 0xD002D00 7 1 0 1 "A")); [| done | simpl; lia | done |].
  - apply (Reset_wf (mkTS 0 0) (mkTS 0 0) example_stats).
  - left. by vm_compute.
Defined.
