(* ===== verification/LogBuffer.v ===== *)
(** * The log buffer (log_buffer.h, log_buffer.cpp)

    [HilogBuffer] keeps the lines of all types in one [std::list], an
    occupancy counter per type, and readers that each hold an iterator into
    the list.  A list iterator is the identity of its node, so erasing a node
    keeps the other iterators valid; the past-the-end iterator and the
    iterator of a reader that never queried are values of their own.  Every
    operation below runs under the buffer's locks, so it is one atomic step.

    The limits [g_maxBufferSizeByType] are a static array shared by all
    buffers and are passed explicitly. *)

From S2P Require Import Prelude Common TimeStamp Utils LogData LogStats.
From Stdlib Require Import Ascii.

(** ** State *)

Inductive iterator := it_singular | it_node (id : nat) | it_end.

#[export] Instance iterator_eq_dec : EqDecision iterator.
Proof. solve_decision. Defined.

Abbreviation node := (nat * HilogData)%type.

Record BufferReader := mkBufferReader {
  r_pos : iterator;        (* m_pos *)
  r_msgList : bool;        (* m_msgList has been set to the buffer's list *)
  r_skipped : Z;           (* uint32_t *)
  r_callback : bool;       (* m_onNewDataCallback is callable *)
}.

Record HilogBuffer := mkHilogBuffer {
  sizeByType : list Z;                    (* size_t[LOG_TYPE_MAX] *)
  hilogDataList : list node;
  next_id : nat;                          (* identity of the next node *)
  m_logReaders : gmap Z BufferReader;
  stats : LogStats;
  m_isSupportSkipLog : bool;
}.

Inductive DeleteReason := BUFF_OVERFLOW | CMD_CLEAR.

Definition g_maxBufferSizeByType : list Z := [262144; 262144; 262144; 262144; 262144; 0].

Definition ConvertBufType (type : Z) : Z := if type =? LOG_ONLY_PRERELEASE then LOG_CORE else type.

(** ** List iterators *)

Definition begin (l : list node) : iterator :=
  match l with [] => it_end | n :: _ => it_node n.1 end.

(** The nodes from an iterator to the end of the list. *)
Fixpoint drop_until (id : nat) (l : list node) : list node :=
  match l with
  | [] => []
  | n :: l' => if decide (n.1 = id) then l else drop_until id l'
  end.

Definition from_pos (pos : iterator) (l : list node) : list node :=
  match pos with it_node id => drop_until id l | _ => [] end.

(** ** Reader bookkeeping *)

Definition IsItemUsed (skipSupported : bool) (readers : gmap Z BufferReader) (itemPos : iterator) : bool :=
  if skipSupported then false
  else existsb (fun kv => bool_decide (r_pos kv.2 = itemPos)) (map_to_list readers).

(** [next] is [std::next(itemPos)]. *)
Definition on_delete (itemPos next : iterator) (reason : DeleteReason) (r : BufferReader) : BufferReader :=
  if decide (r_pos r = itemPos) then
    mkBufferReader next (r_msgList r)
      (match reason with BUFF_OVERFLOW => u32 (r_skipped r + 1) | CMD_CLEAR => r_skipped r end)
      (r_callback r)
  else r.

Definition OnDeleteItem (itemPos next : iterator) (reason : DeleteReason)
    (readers : gmap Z BufferReader) : gmap Z BufferReader :=
  on_delete itemPos next reason <$> readers.

(** [last] is [std::prev(msgList.end())]. *)
Definition on_push (last : iterator) (r : BufferReader) : BufferReader :=
  if decide (r_pos r = it_end) then mkBufferReader last (r_msgList r) (r_skipped r) (r_callback r) else r.

Definition OnPushBackedItem (last : iterator) (readers : gmap Z BufferReader) : gmap Z BufferReader :=
  on_push last <$> readers.

(** The readers whose callback is called. *)
Definition OnNewItem (readers : gmap Z BufferReader) : gset Z :=
  dom (filter (fun kv => r_msgList kv.2 = true /\ r_callback kv.2 = true) readers).

(** ** Insert *)

(** Rounding of a non-negative integer to the 24-bit significand of a
    [float], to nearest, ties to even. *)
Definition round24 (n : Z) : Z :=
  if n <? 2 ^ 24 then n
  else
    let e := Z.log2 n - 23 in
    let q := n / 2 ^ e in
    let r := n mod 2 ^ e in
    let up := (2 ^ (e - 1) <? r) || ((r =? 2 ^ (e - 1)) && Z.odd q) in
    (if up then q + 1 else q) * 2 ^ e.

(** [1 - DROP_RATIO] in single precision is KEEP_RATIO / 2^24. *)
Definition KEEP_RATIO : Z := 15938355.

(** [size > max * (1 - DROP_RATIO)]: both sides are rounded to [float]; the
    product is compared scaled by 2^24. *)
Definition over_threshold (size max : Z) : bool :=
  round24 (round24 max * KEEP_RATIO) <? round24 size * 2 ^ 24.

(** The loop that drops old lines of one type; [true] when it meets a line in
    use and gives up. *)
Fixpoint drop_loop (skipSupported : bool) (max bufferType : Z) (sizes : list Z)
    (readers : gmap Z BufferReader) (l : list node)
    : bool * list Z * gmap Z BufferReader * list node :=
  match l with
  | [] => (false, sizes, readers, [])
  | (id, d) :: l' =>
      if negb (over_threshold (aget sizes bufferType) max) then (false, sizes, readers, l)
      else if negb (ConvertBufType (d_type d) =? bufferType) then
        let '(full, sizes', readers', kept) :=
          drop_loop skipSupported max bufferType sizes readers l' in
        (full, sizes', readers', (id, d) :: kept)
      else if IsItemUsed skipSupported readers (it_node id) then (true, sizes, readers, l)
      else
        let t := ConvertBufType (d_type d) in
        drop_loop skipSupported max bufferType
          (aset sizes t (u64 (aget sizes t - cLen d)))
          (OnDeleteItem (it_node id) (begin l') BUFF_OVERFLOW readers) l'
  end.

(** The messages [Insert] refuses. *)
Definition insert_invalid (msg : HilogMsg) : bool :=
  let elemSize := CONTENT_LEN msg in
  (MAX_TAG_LEN <? msg_tagLen msg) || (msg_tagLen msg =? 0) || (MAX_LOG_LEN <? elemSize) ||
  (elemSize =? 0) || (LOG_TYPE_MAX <=? msg_type msg).

(** The new buffer, [isFull], the result and the readers notified. *)
Definition Insert (maxsz : list Z) (b : HilogBuffer) (msg : HilogMsg) (isFull : bool)
    : HilogBuffer * bool * Z * gset Z :=
  let elemSize := CONTENT_LEN msg in
  if insert_invalid msg then (b, isFull, 0, ∅)
  else
    let bufferType := ConvertBufType (msg_type msg) in
    let '(full, sizes, readers, l) :=
      if aget maxsz bufferType <=? u64 (elemSize + aget (sizeByType b) bufferType)
      then drop_loop (m_isSupportSkipLog b) (aget maxsz bufferType) bufferType
             (sizeByType b) (m_logReaders b) (hilogDataList b)
      else (false, sizeByType b, m_logReaders b, hilogDataList b) in
    if full : bool then
      (mkHilogBuffer sizes l (next_id b) readers (stats b) (m_isSupportSkipLog b), true, 0, ∅)
    else
      let readers' := OnPushBackedItem (it_node (next_id b)) readers in
      (mkHilogBuffer
         (aset sizes bufferType (u64 (aget sizes bufferType + elemSize)))
         (l ++ [(next_id b, HilogData_of_msg msg)])
         (S (next_id b)) readers' (stats b) (m_isSupportSkipLog b),
       false, elemSize, OnNewItem readers').

(** ** Messages of the buffer itself *)

(** The two clock readings [GenerateHilogMsgInside] takes. *)
Record clocks := mkClocks { clk_real_sec : Z; clk_real_nsec : Z; clk_mono_sec : Z; clk_mono_nsec : Z }.

Definition GenerateHilogMsgInside (c : clocks) (msg : string) (logType : Z) : option HilogMsg :=
  let tag := "HiLog" in
  let contentLen := slen tag + 1 + slen msg + 1 in
  let len := u16 (sizeof_HilogMsg + contentLen) in
  let len := if MAX_LOG_LEN <? len then MAX_LOG_LEN else len in
  let contentLen := u64 (len - sizeof_HilogMsg) in
  let tagLen := slen tag + 1 in
  if negb (memcpy_s contentLen tagLen) then None
  else if negb (memcpy_s (u64 (contentLen - tagLen)) (slen msg + 1)) then None
  else Some {| msg_len := len; msg_version := 0; msg_type := logType mod 16; msg_level := LOG_INFO;
               msg_tagLen := tagLen;
               msg_tv_sec := u32 (clk_real_sec c); msg_tv_nsec := u32 (clk_real_nsec c);
               msg_mono_sec := u32 (clk_mono_nsec c);
               msg_pid := 0; msg_tid := 0; msg_domain := 0;
               msg_tag := tag +:+ String NUL (msg +:+ String NUL "") |}.

(** ** Readers *)

(** [id] is the address of the new reader object. *)
Definition CreateBufReader (b : HilogBuffer) (id : Z) (callback : bool) : HilogBuffer :=
  match m_logReaders b !! id with
  | Some _ => b
  | None =>
      mkHilogBuffer (sizeByType b) (hilogDataList b) (next_id b)
        (<[id := mkBufferReader it_singular false 0 callback]> (m_logReaders b))
        (stats b) (m_isSupportSkipLog b)
  end.

Definition RemoveBufReader (b : HilogBuffer) (id : Z) : HilogBuffer :=
  mkHilogBuffer (sizeByType b) (hilogDataList b) (next_id b) (delete id (m_logReaders b))
    (stats b) (m_isSupportSkipLog b).

Definition GetReader (b : HilogBuffer) (id : Z) : option BufferReader := m_logReaders b !! id.

(** ** Query *)

(** [QThrow]: the regular expression does not compile. *)
Inductive QueryResult := QLine (d : HilogData) | QNone | QThrow.

Section query.
Context (regex_search : string -> string -> option bool).

(** The loop that moves a new reader back from the last line: [n] is the node
    the reader is at, [before] the nodes in front of it, nearest first,
    [count] what is left of [tailCount]; [false] when the filter throws. *)
Fixpoint tail_walk (filter : LogFilter) (count : Z) (n : node) (before : list node) : node * bool :=
  match before with
  | [] => (n, true)
  | p :: before' =>
      if 0 <? count then
        match LogMatchFilter regex_search filter n.2 with
        | None => (n, false)
        | Some m => tail_walk filter (if m then count - 1 else count) p before'
        end
      else (n, true)
  end.

(** The first position of a reader. *)
Definition tail_pos (filter : LogFilter) (tailCount : Z) (l : list node) : iterator * bool :=
  if tailCount =? 0 then (begin l, true)
  else match rev l with
       | [] => (it_end, true)
       | n :: before => let '(n', ok) := tail_walk filter tailCount n before in (it_node n'.1, ok)
       end.

(** The loop that looks for the next line to return. *)
Fixpoint scan (filter : LogFilter) (l : list node) : iterator * QueryResult :=
  match l with
  | [] => (it_end, QNone)
  | (_, d) :: l' =>
      match LogMatchFilter regex_search filter d with
      | None => (begin l', QThrow)
      | Some true => (begin l', QLine d)
      | Some false => scan filter l'
      end
  end.

Definition set_reader (b : HilogBuffer) (id : Z) (r : BufferReader) : HilogBuffer :=
  mkHilogBuffer (sizeByType b) (hilogDataList b) (next_id b) (<[id := r]> (m_logReaders b))
    (stats b) (m_isSupportSkipLog b).

(** The notice about lines that were dropped in front of the reader. *)
Definition skip_notice (c : clocks) (skipped : Z) : option HilogData :=
  HilogData_of_msg <$>
    GenerateHilogMsgInside c ("========Slow reader missed log lines: " +:+ to_string skipped) LOG_CORE.

Definition Query (b : HilogBuffer) (c : clocks) (filter : LogFilter) (id : Z) (tailCount : Z)
    : HilogBuffer * QueryResult :=
  match GetReader b id with
  | None => (b, QNone)
  | Some reader =>
      let '(reader, ok) :=
        if r_msgList reader then (reader, true)
        else let '(pos, ok) := tail_pos filter tailCount (hilogDataList b) in
             (mkBufferReader pos true (r_skipped reader) (r_callback reader), ok) in
      if negb ok then (set_reader b id reader, QThrow)
      else
        let notice := if r_skipped reader =? 0 then None else skip_notice c (r_skipped reader) in
        match notice with
        | Some logData =>
            (set_reader b id (mkBufferReader (r_pos reader) (r_msgList reader) 0 (r_callback reader)),
             QLine logData)
        | None =>
            let '(pos, res) := scan filter (from_pos (r_pos reader) (hilogDataList b)) in
            (set_reader b id (mkBufferReader pos (r_msgList reader) (r_skipped reader) (r_callback reader)),
             res)
        end
  end.
End query.

(** ** Delete *)

Fixpoint delete_loop (logType : Z) (sizes : list Z) (readers : gmap Z BufferReader) (sum : Z)
    (l : list node) : list Z * gmap Z BufferReader * Z * list node :=
  match l with
  | [] => (sizes, readers, sum, [])
  | (id, d) :: l' =>
      if negb (d_type d =? logType) then
        let '(sizes', readers', sum', kept) := delete_loop logType sizes readers sum l' in
        (sizes', readers', sum', (id, d) :: kept)
      else
        delete_loop logType
          (aset sizes (d_type d) (u64 (aget sizes (d_type d) - cLen d)))
          (OnDeleteItem (it_node id) (begin l') CMD_CLEAR readers)
          (u64 (sum + cLen d)) l'
  end.

Definition Delete (b : HilogBuffer) (logType : Z) : HilogBuffer * Z :=
  if LOG_TYPE_MAX <=? logType then (b, ERR_LOG_TYPE_INVALID)
  else
    let '(sizes, readers, sum, l) :=
      delete_loop logType (sizeByType b) (m_logReaders b) 0 (hilogDataList b) in
    (mkHilogBuffer sizes l (next_id b) readers (stats b) (m_isSupportSkipLog b), i32 sum).

(** ** Buffer sizes *)

Definition GetBuffLen (maxsz : list Z) (logType : Z) : Z :=
  if LOG_TYPE_MAX <=? logType then ERR_LOG_TYPE_INVALID else aget maxsz logType.

Definition SetBuffLen (maxsz : list Z) (logType buffSize : Z) : list Z * Z :=
  if LOG_TYPE_MAX <=? logType then (maxsz, ERR_LOG_TYPE_INVALID)
  else if (buffSize <? MIN_BUFFER_SIZE) || (MAX_BUFFER_SIZE <? buffSize)
  then (maxsz, ERR_BUFF_SIZE_INVALID)
  else (aset maxsz logType buffSize, RET_SUCCESS).

(** ** Statistics of the buffer *)

Definition set_stats (b : HilogBuffer) (s : LogStats) : HilogBuffer :=
  mkHilogBuffer (sizeByType b) (hilogDataList b) (next_id b) (m_logReaders b) s (m_isSupportSkipLog b).

Definition CountLog (GetNameByPid : Z -> string) (b : HilogBuffer) (info : StatsInfo) : option HilogBuffer :=
  set_stats b <$> Count GetNameByPid (stats b) info.

Definition ResetStats (real mono : LogTimeStamp) (b : HilogBuffer) : HilogBuffer :=
  set_stats b (Reset real mono (stats b)).

(** ** Construction *)

(** [GetBufferSize] reads the size parameters of a type ([LOG_TYPE_MAX]: the
    global ones), persistent or not. *)
Definition InitBuffLen (GetBufferSize : Z -> bool -> Z) (maxsz : list Z) : list Z :=
  foldl (fun mx i =>
           let mx := (SetBuffLen mx i (GetBufferSize LOG_TYPE_MAX false)).1 in
           let mx := (SetBuffLen mx i (GetBufferSize LOG_TYPE_MAX true)).1 in
           let mx := (SetBuffLen mx i (GetBufferSize i false)).1 in
           (SetBuffLen mx i (GetBufferSize i true)).1)
        maxsz [0; 1; 2; 3; 4; 5].

(** [clk i] are the clock readings of the [i]-th message. *)
Definition InitBuffHead (clk : Z -> clocks) (maxsz : list Z) (b : HilogBuffer) : HilogBuffer :=
  foldl (fun b i =>
           let typeStr := LogType2Str i in
           if bool_decide (typeStr = "invalid") then b
           else match GenerateHilogMsgInside (clk i) ("========Zeroth log of type: " +:+ typeStr) i with
                | Some headMsg => let '(b', _, _, _) := Insert maxsz b headMsg false in b'
                | None => b
                end)
        b [0; 1; 2; 3; 4; 5].

Definition new_HilogBuffer (GetBufferSize : Z -> bool -> Z) (clk : Z -> clocks) (maxsz : list Z)
    (st : LogStats) (isSupportSkipLog : bool) : list Z * HilogBuffer :=
  let b := mkHilogBuffer (replicate 6 0) [] 0 ∅ st isSupportSkipLog in
  let maxsz := InitBuffLen GetBufferSize maxsz in
  (maxsz, InitBuffHead clk maxsz b).
