(* ===== verification/LogBufferSpec.v ===== *)
(** * What the log buffer guarantees

    The invariant of [HilogBuffer] and its preservation by every operation,
    what each operation does to the stored lines, the occupancy bound of
    [Insert], and the refinement of the readers' list iterators by queues of
    pending lines. *)

From S2P Require Import Prelude Common TimeStamp Utils LogData LogStats LogBuffer.

Abbreviation ids l := (fmap (M:=list) fst l).

(** ** List iterators *)

Lemma drop_until_suffix id l : exists pre, l = pre ++ drop_until id l.
Proof.
  induction l as [|n l [pre IH]]; simpl; [by exists []|].
  case_decide; [by exists []|]. exists (n :: pre). simpl. by f_equal.
Qed.

Lemma drop_until_sub id l : drop_until id l ⊆ l.
Proof.
  destruct (drop_until_suffix id l) as [pre E]. intros x Hx. rewrite E. apply elem_of_app. by right.
Qed.

Lemma drop_until_not_in id l : id ∉ ids l -> drop_until id l = [].
Proof.
  induction l as [|n l IH]; simpl; [done|]. intros [Hn Hl]%not_elem_of_cons.
  rewrite decide_False by congruence. by apply IH.
Qed.

Lemma drop_until_app_in id l1 l2 : id ∈ ids l1 -> drop_until id (l1 ++ l2) = drop_until id l1 ++ l2.
Proof.
  induction l1 as [|n l1 IH]; simpl; [by intros ?%elem_of_nil|]. intros Hin.
  case_decide as Hd; [done|]. apply IH. apply elem_of_cons in Hin as [->|]; done.
Qed.

Lemma drop_until_app_not_in id l1 l2 : id ∉ ids l1 -> drop_until id (l1 ++ l2) = drop_until id l2.
Proof.
  induction l1 as [|n l1 IH]; simpl; [done|]. intros [Hn Hl]%not_elem_of_cons.
  rewrite decide_False by congruence. by apply IH.
Qed.

Lemma from_begin l : from_pos (begin l) l = l.
Proof. destruct l as [|n l]; simpl; [done|]. by rewrite decide_True. Qed.

Lemma from_begin_suffix pre l :
  NoDup (ids (pre ++ l)) -> from_pos (begin l) (pre ++ l) = l.
Proof.
  intros Hnd. destruct l as [|n l]; simpl; [done|].
  rewrite fmap_app, fmap_cons in Hnd. apply NoDup_app in Hnd as (_ & Hdis & _).
  rewrite drop_until_app_not_in; [simpl; by rewrite decide_True|].
  intros Hin. apply (Hdis _ Hin). left.
Qed.

Lemma begin_in l : begin l = it_end \/ exists id, begin l = it_node id /\ id ∈ ids l.
Proof. destruct l as [|n l]; [by left|]. right. exists n.1. split; [done | left]. Qed.

(** ** Positions and the lines that are still to be read *)

Definition reader_ok (l : list node) (r : BufferReader) : Prop :=
  0 <= r_skipped r < 2 ^ 32 /\
  match r_pos r with
  | it_singular => r_msgList r = false
  | it_node id => r_msgList r = true /\ id ∈ ids l
  | it_end => r_msgList r = true
  end.

Definition pending_nodes (l : list node) (r : BufferReader) : list node := from_pos (r_pos r) l.

(** How a reader changes when the list [l] shrinks to [l']: it keeps what is
    left of its pending lines, and counts at most the lines it lost. *)
Record follows (l l' : list node) (r r' : BufferReader) : Prop := {
  fl_list : r_msgList r' = r_msgList r;
  fl_cb : r_callback r' = r_callback r;
  fl_ok : reader_ok l' r';
  fl_pending : pending_nodes l' r' = filter (.∈ l') (pending_nodes l r);
  fl_skipped : exists j, r_skipped r' = u32 (r_skipped r + j) /\
    0 <= j <= Z.of_nat (length (pending_nodes l r)) - Z.of_nat (length (pending_nodes l' r'));
}.

Lemma pending_sub l r : pending_nodes l r ⊆ l.
Proof.
  unfold pending_nodes, from_pos. destruct (r_pos r) as [|id|]; try (intros ? ?%elem_of_nil; done).
  apply drop_until_sub.
Qed.

Lemma follows_refl l r : reader_ok l r -> follows l l r r.
Proof.
  intros Hok. split; try done.
  - symmetry. apply list_filter_id, pending_sub.
  - exists 0. split; [|lia]. symmetry. rewrite Z.add_0_r. apply wrapu_small, Hok.
Qed.

Lemma follows_trans l1 l2 l3 r1 r2 r3 :
  l3 ⊆ l2 -> follows l1 l2 r1 r2 -> follows l2 l3 r2 r3 -> follows l1 l3 r1 r3.
Proof.
  intros Hsub [A1 A2 A3 A4 (j1 & A5 & A6)] [B1 B2 B3 B4 (j2 & B5 & B6)]. split; try congruence; try done.
  - rewrite B4, A4, list_filter_filter. apply list_filter_ext_in. intros x _. split; [tauto|]. auto.
  - exists (j1 + j2). rewrite B5, A5, wrapu_add_l. split; [f_equal; lia | lia].
Qed.

Lemma NoDup_ids_middle (pre : list node) n rest :
  NoDup (ids (pre ++ n :: rest)) -> n.1 ∉ ids pre /\ n.1 ∉ ids rest /\ NoDup (ids (pre ++ rest)).
Proof.
  rewrite <- Permutation_middle, fmap_cons. intros [Hn Hnd]%NoDup_cons.
  rewrite fmap_app, not_elem_of_app in Hn. tauto.
Qed.

Lemma ids_not_in_node (l : list node) n : n.1 ∉ ids l -> n ∉ l.
Proof. intros H Hin. apply H. by apply list_elem_of_fmap_2. Qed.

Lemma filter_drop_node (l l' : list node) n :
  n.1 ∉ ids l' -> l ⊆ n :: l' -> n.1 ∉ ids l -> filter (.∈ l') l = l.
Proof.
  intros Hn Hsub Hl. apply list_filter_id. intros x Hx.
  destruct (proj1 (elem_of_cons _ _ _) (Hsub x Hx)) as [->|]; [|done].
  destruct Hl. by apply list_elem_of_fmap_2.
Qed.

(** Erasing one node, with the position of the readers at it moved on. *)
Lemma on_delete_follows pre n rest reason r :
  NoDup (ids (pre ++ n :: rest)) -> reader_ok (pre ++ n :: rest) r ->
  follows (pre ++ n :: rest) (pre ++ rest) r (on_delete (it_node n.1) (begin rest) reason r).
Proof.
  intros Hnd [Hsk Hok]. destruct (NoDup_ids_middle _ _ _ Hnd) as (Hn1 & Hn2 & Hnd').
  assert (n ∉ pre ++ rest) as Hnin.
  { rewrite not_elem_of_app. split; by apply ids_not_in_node. }
  unfold on_delete. case_decide as Hpos.
  - assert (pending_nodes (pre ++ n :: rest) r = n :: rest) as Hp.
    { unfold pending_nodes. rewrite Hpos. simpl. rewrite drop_until_app_not_in by done.
      simpl. by rewrite decide_True. }
    assert (from_pos (begin rest) (pre ++ rest) = rest) as Hp' by (by apply from_begin_suffix).
    rewrite Hpos in Hok. split; simpl; try done.
    + split; simpl; [destruct reason; [apply wrapu_range; lia | done]|].
      destruct (begin_in rest) as [->|(id & -> & Hid)]; [tauto|].
      rewrite fmap_app, elem_of_app. tauto.
    + rewrite Hp. unfold pending_nodes. simpl. rewrite Hp', filter_cons_False by done.
      symmetry. apply list_filter_id. intros x Hx. apply elem_of_app. by right.
    + rewrite Hp. unfold pending_nodes. simpl. rewrite Hp'. simpl.
      exists (match reason with BUFF_OVERFLOW => 1 | CMD_CLEAR => 0 end).
      destruct reason; split; try lia. rewrite Z.add_0_r. symmetry. by apply wrapu_small.
  - assert (pending_nodes (pre ++ rest) r = filter (.∈ pre ++ rest) (pending_nodes (pre ++ n :: rest) r) /\
            reader_ok (pre ++ rest) r) as [Hp Hok'].
    { unfold pending_nodes, reader_ok. destruct (r_pos r) as [|id|]; simpl; try done.
      destruct Hok as [Hml Hid]. rewrite fmap_app, fmap_cons in Hid.
      assert (id ∈ ids pre \/ (id ∉ ids pre /\ id ∈ ids rest)) as [Hin|[Hnin' Hin]].
      { destruct (decide (id ∈ ids pre)); [by left|]. right. split; [done|].
        apply elem_of_app in Hid as [|Hid]; [done|]. apply elem_of_cons in Hid as [->|]; [congruence | done]. }
      - rewrite !drop_until_app_in by done. rewrite filter_app, filter_cons_False by done.
        split; [|rewrite fmap_app, elem_of_app; tauto].
        f_equal; symmetry; apply list_filter_id; intros x Hx; apply elem_of_app; [left|by right].
        by apply (drop_until_sub id).
      - rewrite !drop_until_app_not_in by done. simpl. rewrite decide_False by congruence.
        split; [|rewrite fmap_app, elem_of_app; tauto].
        symmetry; apply list_filter_id. intros x Hx. apply elem_of_app. right. by apply (drop_until_sub id). }
    split; try done. exists 0. rewrite Z.add_0_r, wrapu_small by done. split; [done|].
    rewrite Hp. split; [done|]. pose proof (length_filter (.∈ pre ++ rest) (pending_nodes (pre ++ n :: rest) r)). lia.
Qed.

(** All readers of a buffer, over a shrinking list. *)
Definition readers_ok (l : list node) (rs : gmap Z BufferReader) : Prop :=
  forall k r, rs !! k = Some r -> reader_ok l r.

Definition readers_follow (l l' : list node) (rs rs' : gmap Z BufferReader) : Prop :=
  forall k, option_Forall2 (follows l l') (rs !! k) (rs' !! k).

Lemma readers_follow_refl l rs : readers_ok l rs -> readers_follow l l rs rs.
Proof. intros Hok k. destruct (rs !! k) eqn:E; constructor. by eapply follows_refl, Hok. Qed.

Lemma readers_follow_trans l1 l2 l3 rs1 rs2 rs3 :
  l3 ⊆ l2 -> readers_follow l1 l2 rs1 rs2 -> readers_follow l2 l3 rs2 rs3 -> readers_follow l1 l3 rs1 rs3.
Proof.
  intros Hsub H1 H2 k. specialize (H1 k). specialize (H2 k).
  inversion H1 as [r1 r2 F1 E1 E2|E1 E2]; rewrite <- E2 in H2; inversion H2; subst; constructor.
  by eapply follows_trans.
Qed.

Lemma readers_follow_ok l l' rs rs' : readers_follow l l' rs rs' -> readers_ok l' rs'.
Proof.
  intros H k r' E. specialize (H k). rewrite E in H. inversion H as [r ? F|]; subst. apply F.
Qed.

Lemma OnDeleteItem_follow pre n rest reason rs :
  NoDup (ids (pre ++ n :: rest)) -> readers_ok (pre ++ n :: rest) rs ->
  readers_follow (pre ++ n :: rest) (pre ++ rest) rs (OnDeleteItem (it_node n.1) (begin rest) reason rs).
Proof.
  intros Hnd Hok k. unfold OnDeleteItem. rewrite lookup_fmap.
  destruct (rs !! k) eqn:E; constructor. apply on_delete_follows; [done|]. by eapply Hok.
Qed.

Lemma app_cons_shift {A} (pre : list A) n l : pre ++ n :: l = (pre ++ [n]) ++ l.
Proof. by rewrite <- app_assoc. Qed.

Lemma drop_loop_follow sk max bt rest :
  forall pre sizes rs full sizes' rs' rest',
  drop_loop sk max bt sizes rs rest = (full, sizes', rs', rest') ->
  NoDup (ids (pre ++ rest)) -> readers_ok (pre ++ rest) rs ->
  readers_follow (pre ++ rest) (pre ++ rest') rs rs' /\ rest' `sublist_of` rest.
Proof.
  induction rest as [|[id d] rest IH]; intros pre sizes rs full sizes' rs' rest' H Hnd Hok; simpl in H.
  { simplify_eq. split; [by apply readers_follow_refl | done]. }
  case_hyp H; try (split; [by apply readers_follow_refl | done]).
  - destruct (drop_loop sk max bt sizes rs rest) as [[[f s] r] kept] eqn:E. simplify_eq.
    rewrite (app_cons_shift pre _ rest) in *. rewrite (app_cons_shift pre _ kept).
    destruct (IH (pre ++ [(id, d)]) _ _ _ _ _ _ E) as [HF Hs]; try done.
    split; [done | by constructor].
  - pose proof (NoDup_ids_middle _ _ _ Hnd) as (_ & _ & Hnd').
    pose proof (OnDeleteItem_follow pre (id, d) rest BUFF_OVERFLOW rs Hnd Hok) as HF.
    apply (IH pre) in H as [HF' Hs]; [|done|by eapply readers_follow_ok].
    split; [|by constructor]. eapply readers_follow_trans; [|done|done].
    intros x. rewrite !elem_of_app. intros [|Hx]; [by left|]. right. by eapply elem_of_sublist.
Qed.

Lemma delete_loop_follow t rest :
  forall pre sizes rs sum sizes' rs' sum' rest',
  delete_loop t sizes rs sum rest = (sizes', rs', sum', rest') ->
  NoDup (ids (pre ++ rest)) -> readers_ok (pre ++ rest) rs ->
  readers_follow (pre ++ rest) (pre ++ rest') rs rs' /\ rest' = filter (fun n => d_type n.2 <> t) rest.
Proof.
  induction rest as [|[id d] rest IH]; intros pre sizes rs sum sizes' rs' sum' rest' H Hnd Hok; simpl in H.
  { simplify_eq. split; [by apply readers_follow_refl | done]. }
  case_hyp H.
  - destruct (delete_loop t sizes rs sum rest) as [[[s r] sm] kept] eqn:E. simplify_eq.
    rewrite (app_cons_shift pre _ rest) in *. rewrite (app_cons_shift pre _ kept).
    destruct (IH (pre ++ [(id, d)]) _ _ _ _ _ _ _ E) as [HF Hs]; try done.
    split; [done|]. rewrite filter_cons_True by (simpl; lia). by f_equal.
  - pose proof (NoDup_ids_middle _ _ _ Hnd) as (_ & _ & Hnd').
    pose proof (OnDeleteItem_follow pre (id, d) rest CMD_CLEAR rs Hnd Hok) as HF.
    apply (IH pre) in H as [HF' ->]; [|done|by eapply readers_follow_ok].
    rewrite filter_cons_False by (simpl; lia). split; [|done].
    eapply readers_follow_trans; [|done|done].
    intros x. rewrite !elem_of_app, list_elem_of_filter. tauto.
Qed.

(** ** Occupancy *)

Definition in_buf (t : Z) (n : node) : Prop := ConvertBufType (d_type n.2) = t.

#[export] Instance in_buf_dec t n : Decision (in_buf t n).
Proof. unfold in_buf. apply _. Defined.

(** The bytes the lines of one buffer type occupy. *)
Definition tsize (t : Z) (l : list node) : Z := sumZ (fun n => cLen n.2) (filter (in_buf t) l).

Definition lines_wf (l : list node) : Prop := Forall (fun n => data_wf n.2) l.

(** The list without its first [k] lines of type [t]. *)
Fixpoint evict (t : Z) (k : nat) (l : list node) : list node :=
  match k, l with
  | O, _ | _, [] => l
  | S k', n :: l' => if decide (in_buf t n) then evict t k' l' else n :: evict t k l'
  end.

Lemma tsize_cons t n l : tsize t (n :: l) = (if decide (in_buf t n) then cLen n.2 else 0) + tsize t l.
Proof. unfold tsize. rewrite filter_cons. by case_decide. Qed.

Lemma tsize_app t l1 l2 : tsize t (l1 ++ l2) = tsize t l1 + tsize t l2.
Proof. unfold tsize. by rewrite filter_app, sumZ_app. Qed.

Lemma tsize_nonneg t l : lines_wf l -> 0 <= tsize t l.
Proof.
  intros Hl. apply sumZ_nonneg. intros n [_ Hn]%list_elem_of_filter.
  eapply Forall_forall in Hl; [|done]. pose proof (cLen_wf _ Hl). lia.
Qed.

Lemma evict_0 t l : evict t 0 l = l.
Proof. by destruct l. Qed.

Lemma evict_sublist t k l : evict t k l `sublist_of` l.
Proof.
  revert k; induction l as [|n l IH]; intros [|k]; simpl; try done.
  case_decide; [apply sublist_cons | apply sublist_skip]; apply IH.
Qed.

(** Only lines of the type go. *)
Lemma evict_others t k l : filter (fun n => ~ in_buf t n) (evict t k l) = filter (fun n => ~ in_buf t n) l.
Proof.
  revert k; induction l as [|n l IH]; intros [|k]; simpl; try done. case_decide.
  - rewrite IH. by rewrite filter_cons_False by (intros Hn; by apply Hn).
  - rewrite !filter_cons_True by done. by rewrite IH.
Qed.

Lemma evict_tsize_other t t' k l : t' <> t -> tsize t' (evict t k l) = tsize t' l.
Proof.
  intros Hne. revert k; induction l as [|n l IH]; intros [|k]; simpl; try done.
  case_decide as Hn; rewrite ?tsize_cons, IH; [|done].
  rewrite decide_False; [lia|]. unfold in_buf in *. congruence.
Qed.

Section drop_loop_spec.
Context (sk : bool) (max bt : Z).

(** The loop removes the oldest lines of the type, each one only while the
    occupancy is above the threshold, until it is not or none is left. *)
Lemma drop_loop_evict rest :
  forall sizes rs full sizes' rs' rest',
  drop_loop sk max bt sizes rs rest = (full, sizes', rs', rest') ->
  0 <= bt < Z.of_nat (length sizes) -> aget sizes bt = tsize bt rest -> tsize bt rest < 2 ^ 64 -> lines_wf rest ->
  exists k, rest' = evict bt k rest /\
    length sizes' = length sizes /\ aget sizes' bt = tsize bt rest' /\
    (forall t, 0 <= t -> t <> bt -> aget sizes' t = aget sizes t) /\
    (forall j, (j < k)%nat -> over_threshold (tsize bt (evict bt j rest)) max = true) /\
    (if full then over_threshold (tsize bt rest') max = true
     else over_threshold (tsize bt rest') max = false \/ tsize bt rest' = 0).
Proof.
  induction rest as [|[id d] rest IH]; intros sizes rs full sizes' rs' rest' H Hbt Hsz Hb Hwf; simpl in H.
  { simplify_eq. exists 0%nat. repeat split; try done; [lia | by right]. }
  apply Forall_cons in Hwf as [Hd Hwf]. simpl in Hd. pose proof (tsize_nonneg bt rest Hwf) as Hpos.
  destruct (over_threshold (aget sizes bt) max) eqn:Eo; simpl in H.
  2:{ simplify_eq. exists 0%nat. repeat split; try done; [lia|]. rewrite <- Hsz. by left. }
  rewrite tsize_cons in Hsz, Hb. pose proof (cLen_wf _ Hd) as [_ Hc].
  destruct (Z.eqb_spec (ConvertBufType (d_type d)) bt) as [Ht|Ht]; simpl in H.
  - rewrite decide_True in Hsz, Hb by done. simpl in Hsz, Hb.
    destruct (IsItemUsed sk rs (it_node id)).
    { simplify_eq. exists 0%nat. rewrite tsize_cons, decide_True by done. simpl.
      rewrite Hsz in Eo. repeat split; try done. lia. }
    rewrite Ht in H. apply IH in H as (k & -> & Hlen & Hs' & Ho & Hmin & Hend).
    + exists (S k). simpl. rewrite decide_True by done.
      rewrite aset_length in Hlen. repeat split; try done.
      * intros t Ht0 Hne. rewrite Ho by done. apply aget_aset_ne; lia.
      * intros [|j] Hj; simpl.
        -- rewrite tsize_cons, decide_True by done. simpl. by rewrite <- Hsz.
        -- rewrite decide_True by done. apply Hmin. lia.
    + by rewrite aset_length.
    + rewrite aget_aset_eq by done. rewrite wrapu_small; lia.
    + lia.
    + done.
  - rewrite decide_False in Hsz, Hb by done.
    destruct (drop_loop sk max bt sizes rs rest) as [[[f s] r] kept] eqn:E. simplify_eq.
    apply IH in E as (k & -> & Hlen & Hs' & Ho & Hmin & Hend); [|done|lia|lia|done].
    assert (forall j, tsize bt (evict bt j ((id, d) :: rest)) = tsize bt (evict bt j rest)) as Hev.
    { intros [|j]; rewrite ?evict_0; simpl; [|rewrite decide_False by done];
        rewrite tsize_cons, decide_False by done; lia. }
    assert (evict bt k ((id, d) :: rest) = (id, d) :: evict bt k rest) as Hk.
    { destruct k; [by rewrite !evict_0|]. simpl. by rewrite decide_False. }
    exists k. rewrite Hk. rewrite tsize_cons, decide_False by done. rewrite Z.add_0_l.
    repeat split; try done. intros j Hj. rewrite Hev. by apply Hmin.
Qed.
End drop_loop_spec.

(** ** The drop threshold *)

Lemma round24_small n : n < 2 ^ 24 -> round24 n = n.
Proof. intros Hn. unfold round24. by destruct (Z.ltb_spec n (2 ^ 24)); [|lia]. Qed.

(** Rounding moves a number by at most half a unit in its last place. *)
Lemma round24_error n :
  2 ^ 24 <= n < 2 ^ 48 -> n - 2 ^ 23 <= round24 n <= n + 2 ^ 23 /\ 2 ^ 24 <= round24 n.
Proof.
  intros Hn. unfold round24. destruct (Z.ltb_spec n (2 ^ 24)); [lia|].
  assert (24 <= Z.log2 n < 48) as Hl.
  { split; [apply Z.log2_le_pow2; lia | apply Z.log2_lt_pow2; lia]. }
  set (e := Z.log2 n - 23).
  assert (2 ^ e = 2 * 2 ^ (e - 1)) as He by (rewrite <- Z.pow_succ_r by (unfold e; lia); f_equal; lia).
  assert (1 <= 2 ^ (e - 1) <= 2 ^ 23) as He'.
  { split; [lia | apply Z.pow_le_mono_r; unfold e; lia]. }
  pose proof (Z.div_mod n (2 ^ e) ltac:(lia)) as Hdm. pose proof (Z.mod_pos_bound n (2 ^ e) ltac:(lia)) as Hm.
  assert (2 ^ 23 <= n / 2 ^ e) as Hq.
  { apply Z.div_le_lower_bound; [lia|]. rewrite <- Z.pow_add_r by (unfold e; lia).
    replace (e + 23) with (Z.log2 n) by (unfold e; lia). apply Z.log2_spec. lia. }
  set (q := n / 2 ^ e) in *. set (r := n mod 2 ^ e) in *. clearbody q r.
  destruct ((2 ^ (e - 1) <? r) || ((r =? 2 ^ (e - 1)) && Z.odd q)) eqn:Eup.
  - assert (2 ^ (e - 1) <= r) by (apply orb_true_iff in Eup as [?|[? _]%andb_true_iff]; lia). nia.
  - apply orb_false_iff in Eup as [? _]. nia.
Qed.

Lemma round24_big n : 2 ^ 24 <= n -> 2 ^ 24 <= round24 n.
Proof.
  intros Hn. unfold round24. destruct (Z.ltb_spec n (2 ^ 24)); [lia|].
  assert (24 <= Z.log2 n) as Hl by (apply Z.log2_le_pow2; lia).
  set (e := Z.log2 n - 23).
  assert (2 ^ 1 <= 2 ^ e) as He by (apply Z.pow_le_mono_r; unfold e; lia).
  assert (2 ^ 23 <= n / 2 ^ e) as Hq.
  { apply Z.div_le_lower_bound; [lia|]. rewrite <- Z.pow_add_r by (unfold e; lia).
    replace (e + 23) with (Z.log2 n) by (unfold e; lia). apply Z.log2_spec. lia. }
  destruct (_ || _); nia.
Qed.

Lemma round24_max max : 0 <= max <= MAX_BUFFER_SIZE -> round24 max = max.
Proof.
  unfold MAX_BUFFER_SIZE. intros Hm. destruct (Z.eq_dec max (2 ^ 24)) as [->|]; [by vm_compute|].
  apply round24_small. lia.
Qed.

Lemma round24_product max :
  0 <= max <= MAX_BUFFER_SIZE ->
  max * KEEP_RATIO - 2 ^ 23 <= round24 (round24 max * KEEP_RATIO) <= max * KEEP_RATIO + 2 ^ 23.
Proof.
  intros Hm. rewrite (round24_max max) by done. unfold MAX_BUFFER_SIZE, KEEP_RATIO in *.
  destruct (Z.lt_ge_cases (max * 15938355) (2 ^ 24)).
  - rewrite round24_small; lia.
  - apply round24_error. lia.
Qed.

(** The threshold is 95% of the limit, up to one byte. *)
Lemma over_threshold_spec size max :
  0 <= size -> 0 <= max <= MAX_BUFFER_SIZE ->
  if over_threshold size max then 19 * max <= 20 * size + 20 else 20 * size <= 19 * max + 20.
Proof.
  intros Hs Hm. pose proof (round24_product max Hm) as Hp. unfold over_threshold.
  unfold KEEP_RATIO, MAX_BUFFER_SIZE in *.
  destruct (Z.lt_ge_cases size (2 ^ 24)) as [Hlt|Hge].
  - rewrite (round24_small size) by done. destruct (Z.ltb_spec (round24 (round24 max * 15938355)) (size * 2 ^ 24)); lia.
  - pose proof (round24_big size Hge).
    destruct (Z.ltb_spec (round24 (round24 max * 15938355)) (round24 size * 2 ^ 24)); lia.
Qed.

Lemma over_threshold_0 max : 0 <= max <= MAX_BUFFER_SIZE -> over_threshold 0 max = false.
Proof.
  intros Hm. unfold over_threshold. rewrite (round24_max max), (round24_small 0) by (done || lia).
  destruct (Z.lt_ge_cases (max * KEEP_RATIO) (2 ^ 24)) as [Hlt|Hge].
  - rewrite round24_small by done. unfold KEEP_RATIO in *. lia.
  - pose proof (round24_big _ Hge). lia.
Qed.

Lemma drop_loop_full max bt l : forall sizes rs, (drop_loop true max bt sizes rs l).1.1.1 = false.
Proof.
  induction l as [|[id d] l IH]; intros sizes rs; [done|]. cbn [drop_loop IsItemUsed].
  destruct (negb (over_threshold _ _)); [done|].
  destruct (negb _); [|apply IH].
  specialize (IH sizes rs). by destruct (drop_loop true max bt sizes rs l) as [[[? ?] ?] ?].
Qed.

(** ** The invariant of the buffer *)

(** The structure: node identities are unique and older than the next one, the
    lines are well formed, and no reader dangles. *)
Record buf_wf (b : HilogBuffer) : Prop := {
  bw_types : length (sizeByType b) = 6%nat;
  bw_nodup : NoDup (ids (hilogDataList b));
  bw_fresh : Forall (fun n => n.1 < next_id b)%nat (hilogDataList b);
  bw_lines : lines_wf (hilogDataList b);
  bw_readers : readers_ok (hilogDataList b) (m_logReaders b);
}.

(** The structure and the accounting. *)
Record buf_ok (b : HilogBuffer) : Prop := {
  bo_types : length (sizeByType b) = 6%nat;
  bo_nodup : NoDup (ids (hilogDataList b));
  bo_fresh : Forall (fun n => n.1 < next_id b)%nat (hilogDataList b);
  bo_lines : lines_wf (hilogDataList b);
  bo_readers : readers_ok (hilogDataList b) (m_logReaders b);
  bo_acc : forall t, 0 <= t < LOG_TYPE_MAX -> aget (sizeByType b) t = tsize t (hilogDataList b);
  bo_bound : forall t, 0 <= t < LOG_TYPE_MAX -> tsize t (hilogDataList b) <= MAX_BUFFER_SIZE + MAX_LOG_LEN;
}.

Lemma buf_ok_wf b : buf_ok b -> buf_wf b.
Proof. by intros [H1 H2 H3 H4 H5 _ _]; split. Qed.

(** The accounting only depends on the lines and the counters. *)
Lemma buf_ok_same b b' :
  buf_ok b -> buf_wf b' -> sizeByType b' = sizeByType b -> hilogDataList b' = hilogDataList b -> buf_ok b'.
Proof. intros [_ _ _ _ _ H6 H7] [K1 K2 K3 K4 K5] Hs Hl. split; try done; by rewrite ?Hs, Hl. Qed.

Definition limits_ok (maxsz : list Z) : Prop :=
  length maxsz = 6%nat /\ forall t, 0 <= t < LOG_TYPE_MAX -> 0 <= aget maxsz t <= MAX_BUFFER_SIZE.

Lemma ConvertBufType_range t : 0 <= t < LOG_TYPE_MAX -> 0 <= ConvertBufType t < LOG_TYPE_MAX.
Proof. unfold ConvertBufType, LOG_TYPE_MAX, LOG_ONLY_PRERELEASE, LOG_CORE. case_goal; lia. Qed.

Lemma insert_valid msg :
  msg_wf msg -> insert_invalid msg = false ->
  1 <= msg_tagLen msg <= MAX_TAG_LEN /\ 1 <= CONTENT_LEN msg <= MAX_LOG_LEN /\ 0 <= msg_type msg < LOG_TYPE_MAX.
Proof.
  intros (? & ? & ? & ? & ? & _) Hv. unfold insert_invalid in Hv.
  assert (0 <= CONTENT_LEN msg) by (apply wrapu_range; lia). lia.
Qed.

(** The outcome of the first half of [Insert]. *)
Lemma insert_make_room maxsz b bt sz :
  limits_ok maxsz -> buf_ok b -> 0 <= bt < LOG_TYPE_MAX -> 1 <= sz <= MAX_LOG_LEN ->
  exists full sizes rs k,
    let l := evict bt k (hilogDataList b) in
    (if aget maxsz bt <=? u64 (sz + aget (sizeByType b) bt)
     then drop_loop (m_isSupportSkipLog b) (aget maxsz bt) bt (sizeByType b) (m_logReaders b) (hilogDataList b)
     else (false, sizeByType b, m_logReaders b, hilogDataList b)) = (full, sizes, rs, l) /\
    length sizes = 6%nat /\ (forall t, 0 <= t < LOG_TYPE_MAX -> aget sizes t = tsize t l) /\
    readers_follow (hilogDataList b) l (m_logReaders b) rs /\
    (full = true -> m_isSupportSkipLog b = false) /\
    (forall j, (j < k)%nat -> over_threshold (tsize bt (evict bt j (hilogDataList b))) (aget maxsz bt) = true) /\
    (sz + tsize bt (hilogDataList b) < aget maxsz bt -> k = 0%nat /\ full = false) /\
    (full = false -> sz + tsize bt l < aget maxsz bt \/ over_threshold (tsize bt l) (aget maxsz bt) = false).
Proof.
  intros [Hml Hm] [Hlen Hnd Hfr Hln Hrd Hacc Hbd] Hbt Hsz.
  pose proof (Hbd bt Hbt) as Hb. pose proof (tsize_nonneg bt _ Hln) as Hn. pose proof (Hm bt Hbt) as Hmx.
  unfold MAX_BUFFER_SIZE, MAX_LOG_LEN, LOG_TYPE_MAX in *.
  rewrite (Hacc bt) by done. rewrite wrapu_small by lia.
  destruct (Z.leb_spec (aget maxsz bt) (sz + tsize bt (hilogDataList b))) as [Hfull|Hroom].
  - destruct (drop_loop _ _ _ _ _ _) as [[[full sizes] rs] l'] eqn:E.
    destruct (drop_loop_follow _ _ _ _ [] _ _ _ _ _ _ E Hnd Hrd) as [HF _].
    destruct (drop_loop_evict _ _ _ _ _ _ _ _ _ _ E) as (k & -> & Hl & Hs & Ho & Hmin & Hend); try done; [lia | by rewrite Hacc | lia |].
    exists full, sizes, rs, k. split; [done|]. split; [lia|]. split; [|split; [done|]; split; [|split; [done|]; split; [lia|]]].
    + intros t Ht. destruct (Z.eq_dec t bt) as [->|Hne]; [done|].
      rewrite Ho, Hacc, evict_tsize_other; done || lia.
    + intros ->. destruct (m_isSupportSkipLog b) eqn:Esk; [|done].
      pose proof (drop_loop_full (aget maxsz bt) bt (hilogDataList b) (sizeByType b) (m_logReaders b)) as Hf.
      by rewrite E in Hf.
    + intros ->. right. destruct Hend as [|H0]; [done|]. rewrite H0. by apply over_threshold_0.
  - exists false, (sizeByType b), (m_logReaders b), 0%nat. rewrite evict_0.
    split; [done|]. split; [done|]. split; [done|]. split; [by apply readers_follow_refl|].
    split; [done|]. split; [lia|]. split; [done|]. intros _. by left.
Qed.

(** Appending a node, with the readers at the end moved to it. *)
Record grows (l : list node) (n : node) (r r' : BufferReader) : Prop := {
  gr_list : r_msgList r' = r_msgList r;
  gr_cb : r_callback r' = r_callback r;
  gr_skipped : r_skipped r' = r_skipped r;
  gr_ok : reader_ok (l ++ [n]) r';
  gr_pending : pending_nodes (l ++ [n]) r' = if r_msgList r then pending_nodes l r ++ [n] else [];
}.

Lemma on_push_grows l n r :
  n.1 ∉ ids l -> reader_ok l r -> grows l n r (on_push (it_node n.1) r).
Proof.
  intros Hn [Hsk Hok]. unfold on_push, pending_nodes in *. case_decide as Hp.
  - rewrite Hp in Hok. split; simpl; try done.
    + split; [done|]. simpl. split; [done|]. rewrite fmap_app, elem_of_app. right. left.
    + unfold pending_nodes. simpl. rewrite drop_until_app_not_in by done. rewrite Hok, Hp. simpl.
      by rewrite decide_True.
  - destruct (r_pos r) as [|id|] eqn:E; [| |done]; (split; try done; unfold pending_nodes; rewrite ?E; simpl).
    + split; [done|]. by rewrite E.
    + by rewrite Hok.
    + split; [done|]. rewrite E, fmap_app, elem_of_app. tauto.
    + destruct Hok as [-> Hin]. by apply drop_until_app_in.
Qed.

(** The effect of a successful [Insert] on one reader. *)
Definition reader_inserted (l kept : list node) (n : node) (r r' : BufferReader) : Prop :=
  exists r1, follows l kept r r1 /\ grows kept n r1 r'.

Lemma fresh_not_in (l : list node) i : Forall (fun n => n.1 < i)%nat l -> i ∉ ids l.
Proof.
  intros Hf (n & -> & Hn)%list_elem_of_fmap. eapply Forall_forall in Hf; [|done]. simpl in Hf. lia.
Qed.

Lemma tsize_evict_le t k l : lines_wf l -> tsize t (evict t k l) <= tsize t l.
Proof.
  revert k; induction l as [|n l IH]; intros [|k] Hwf; simpl; try lia.
  apply Forall_cons in Hwf as [Hd Hwf]. pose proof (cLen_wf _ Hd) as [_ ?].
  specialize (IH k Hwf) as IH1. specialize (IH (S k) Hwf) as IH2. rewrite tsize_cons. case_decide; [lia|].
  rewrite tsize_cons, decide_False by done. lia.
Qed.

Lemma readers_push l kept n rs rs1 :
  readers_follow l kept rs rs1 -> n.1 ∉ ids kept ->
  (forall i, option_Forall2 (reader_inserted l kept n) (rs !! i) (OnPushBackedItem (it_node n.1) rs1 !! i)) /\
  readers_ok (kept ++ [n]) (OnPushBackedItem (it_node n.1) rs1).
Proof.
  intros HF Hn. pose proof (readers_follow_ok _ _ _ _ HF) as Hok. split.
  - intros i. unfold OnPushBackedItem. rewrite lookup_fmap. specialize (HF i).
    inversion HF as [r r1 F E1 E2|]; simpl; constructor. exists r1. split; [done|].
    apply on_push_grows; [done | apply F].
  - intros i r' Hi. unfold OnPushBackedItem in Hi. rewrite lookup_fmap in Hi.
    destruct (rs1 !! i) as [r1|] eqn:E; simplify_eq/=. apply on_push_grows; [done | by eapply Hok].
Qed.

(** Appending a line of [sz] bytes to a list of known occupancy. *)
Lemma push_ok sizes l i d rs st sk bt :
  length sizes = 6%nat -> NoDup (ids l) -> Forall (fun n => n.1 < i)%nat l -> lines_wf l -> data_wf d ->
  ConvertBufType (d_type d) = bt -> 0 <= bt < LOG_TYPE_MAX ->
  (forall t, 0 <= t < LOG_TYPE_MAX -> aget sizes t = tsize t l) ->
  (forall t, 0 <= t < LOG_TYPE_MAX -> tsize t (l ++ [(i, d)]) <= MAX_BUFFER_SIZE + MAX_LOG_LEN) ->
  readers_ok (l ++ [(i, d)]) rs ->
  buf_ok (mkHilogBuffer (aset sizes bt (u64 (aget sizes bt + cLen d))) (l ++ [(i, d)]) (S i) rs st sk).
Proof.
  intros Hlen Hnd Hfr Hln Hd Hc Hbt Hacc Hbd Hrd. pose proof (cLen_wf d Hd) as [_ Hcl].
  pose proof (tsize_nonneg bt l Hln). unfold LOG_TYPE_MAX, MAX_BUFFER_SIZE, MAX_LOG_LEN in *.
  assert (forall t, tsize t (l ++ [(i, d)]) = tsize t l + if decide (bt = t) then cLen d else 0) as Hts.
  { intros t. rewrite tsize_app, tsize_cons. change (tsize t []) with 0. subst bt.
    destruct (decide (in_buf t (i, d))), (decide (ConvertBufType (d_type d) = t)); simpl; done || lia. }
  split; simpl; try done.
  - by rewrite aset_length.
  - rewrite fmap_app. apply NoDup_app. split; [done|]. split; [|apply NoDup_singleton].
    intros x Hx ->%list_elem_of_singleton. by apply fresh_not_in in Hfr.
  - apply Forall_app. split; [|apply Forall_singleton; simpl; lia].
    eapply Forall_impl; [exact Hfr | simpl; lia].
  - apply Forall_app. split; [done | by apply Forall_singleton].
  - intros t Ht. unfold LOG_TYPE_MAX in Ht. specialize (Hbd t Ht). rewrite Hts in *. case_decide as Hd'.
    + subst t. rewrite aget_aset_eq, Hacc by lia. apply wrapu_small. lia.
    + rewrite aget_aset_ne, Hacc by lia. lia.
Qed.

(** [Insert] on a message it accepts, branch by branch. *)
Lemma Insert_cases maxsz b msg isFull b' full ret ntf :
  limits_ok maxsz -> buf_ok b -> msg_wf msg -> insert_invalid msg = false ->
  Insert maxsz b msg isFull = (b', full, ret, ntf) ->
  let bt := ConvertBufType (msg_type msg) in
  let l := hilogDataList b in
  let n := (next_id b, HilogData_of_msg msg) in
  exists k, buf_ok b' /\ m_isSupportSkipLog b' = m_isSupportSkipLog b /\ stats b' = stats b /\
    (forall j, (j < k)%nat -> over_threshold (tsize bt (evict bt j l)) (aget maxsz bt) = true) /\
    (CONTENT_LEN msg + tsize bt l < aget maxsz bt -> k = 0%nat /\ full = false) /\
    if full then
      ret = 0 /\ m_isSupportSkipLog b = false /\ hilogDataList b' = evict bt k l /\
      readers_follow l (evict bt k l) (m_logReaders b) (m_logReaders b') /\ ntf = ∅
    else
      ret = CONTENT_LEN msg /\ hilogDataList b' = evict bt k l ++ [n] /\
      (forall i, option_Forall2 (reader_inserted l (evict bt k l) n) (m_logReaders b !! i) (m_logReaders b' !! i)) /\
      ntf = OnNewItem (m_logReaders b') /\
      (tsize bt (hilogDataList b') < aget maxsz bt \/
       20 * tsize bt (evict bt k l) <= 19 * aget maxsz bt + 20).
Proof.
  intros Hlim Hok Hmsg Hv HI bt l n.
  destruct (insert_valid msg Hmsg Hv) as (Htag & Hsz & Hty).
  destruct (HilogData_of_msg_wf msg Hmsg Htag Hsz ltac:(lia)) as (Hdwf & Hcl & Hdt).
  assert (0 <= bt < LOG_TYPE_MAX) as Hbt by (by apply ConvertBufType_range).
  destruct (insert_make_room maxsz b bt (CONTENT_LEN msg) Hlim Hok Hbt Hsz)
    as (f & sizes & rs & k & E & Hlen & Hacc & HF & Hsk & Hmin & Hroom & Hend).
  unfold Insert in HI. rewrite Hv in HI. fold bt in HI. rewrite E in HI.
  destruct Hok as [_ Hnd Hfr Hln Hrd _ Hbd]. fold l in Hnd, Hfr, Hln, Hrd, Hbd, HF, Hmin, Hroom, Hend, Hacc |- *.
  pose proof (evict_sublist bt k l) as Hsub.
  assert (NoDup (ids (evict bt k l))) as Hnd' by (eapply sublist_NoDup; [exact Hnd | by apply fmap_sublist]).
  pose proof (sublist_Forall _ _ _ Hsub Hfr) as Hfr'. pose proof (sublist_Forall _ _ _ Hsub Hln) as Hln'.
  pose proof (tsize_nonneg bt _ Hln') as Hn0.
  assert (forall t, 0 <= t < LOG_TYPE_MAX -> tsize t (evict bt k l) <= MAX_BUFFER_SIZE + MAX_LOG_LEN) as Hbd'.
  { intros t Ht. destruct (Z.eq_dec t bt) as [->|]; [|by rewrite evict_tsize_other; auto].
    pose proof (tsize_evict_le bt k l Hln). specialize (Hbd bt Hbt). lia. }
  exists k. destruct f; simplify_eq/=.
  { split; [|split; [done|]; split; [done|]; split; [done|]; split; [done|]; auto].
    split; simpl; try done. by eapply readers_follow_ok. }
  assert (tsize bt (evict bt k l ++ [n]) = tsize bt (evict bt k l) + CONTENT_LEN msg) as Hts.
  { rewrite tsize_app, tsize_cons. change (tsize bt []) with 0. unfold n. simpl.
    rewrite Hcl, decide_True; [lia|]. unfold in_buf, bt. simpl. by rewrite Hdt. }
  assert (tsize bt (evict bt k l ++ [n]) < aget maxsz bt \/
          20 * tsize bt (evict bt k l) <= 19 * aget maxsz bt + 20) as Hbound.
  { destruct (Hend eq_refl) as [Hlt|Hth]; [left; lia | right].
    pose proof (over_threshold_spec (tsize bt (evict bt k l)) (aget maxsz bt)) as Hsp.
    rewrite Hth in Hsp. apply Hsp; [done|]. by apply Hlim. }
  destruct (readers_push l (evict bt k l) n (m_logReaders b) rs HF (fresh_not_in _ _ Hfr')) as [HG Hrk].
  split; [|by repeat split; auto; apply Hroom].
  rewrite <- Hcl. apply push_ok; try done.
  - unfold bt. by rewrite Hdt.
  - intros t Ht. destruct (Z.eq_dec t bt) as [->|Hne].
    + etransitivity; [apply Z.eq_le_incl, Hts|]. destruct Hlim as [_ Hlim]. specialize (Hlim bt Hbt).
      unfold MAX_BUFFER_SIZE, MAX_LOG_LEN in *. lia.
    + rewrite tsize_app, tsize_cons, decide_False; [change (tsize t []) with 0; rewrite !Z.add_0_r; by apply Hbd'|].
      unfold in_buf, bt in *. simpl. rewrite Hdt. congruence.
Qed.

(** ** Query *)

Lemma suffix_reader_ok pre l sk cb :
  0 <= sk < 2 ^ 32 -> reader_ok (pre ++ l) (mkBufferReader (begin l) true sk cb).
Proof.
  intros Hsk. split; [done|]. simpl. destruct (begin_in l) as [->|(id & -> & Hid)]; [done|].
  split; [done|]. rewrite fmap_app, elem_of_app. by right.
Qed.

Lemma set_reader_wf b id r : buf_wf b -> reader_ok (hilogDataList b) r -> buf_wf (set_reader b id r).
Proof.
  intros [H1 H2 H3 H4 H5] Hr. split; simpl; try done.
  intros k r' [[-> ->]|[_ Hk]]%lookup_insert_Some; [done | by eapply H5].
Qed.

Lemma set_reader_ok b id r : buf_ok b -> reader_ok (hilogDataList b) r -> buf_ok (set_reader b id r).
Proof. intros Hb Hr. apply (buf_ok_same b); [done | by apply set_reader_wf, Hr; apply buf_ok_wf | done..]. Qed.

Section query_spec.
Context (regex_search : string -> string -> option bool).
Abbreviation matches := (LogMatchFilter regex_search).

(** The loop returns the first line that matches and stops behind it. *)
Lemma scan_spec f l pos res :
  scan regex_search f l = (pos, res) ->
  exists seen rest, l = seen ++ rest /\
    match res with
    | QNone => rest = [] /\ pos = it_end /\ Forall (fun n => matches f n.2 = Some false) seen
    | QLine d => exists seen' id, seen = seen' ++ [(id, d)] /\ pos = begin rest /\ matches f d = Some true /\
                   Forall (fun n => matches f n.2 = Some false) seen'
    | QThrow => exists seen' n, seen = seen' ++ [n] /\ pos = begin rest /\ matches f n.2 = None /\
                   Forall (fun n => matches f n.2 = Some false) seen'
    end.
Proof.
  revert pos res; induction l as [|[id d] l IH]; intros pos res H; simpl in H.
  { simplify_eq. by exists [], []. }
  destruct (matches f d) as [[]|] eqn:E.
  - simplify_eq. exists [(id, d)], l. split; [done|]. by exists [], id.
  - destruct (IH _ _ H) as (seen & rest & -> & Hres). exists ((id, d) :: seen), rest. split; [done|].
    destruct res.
    + destruct Hres as (seen' & id' & -> & Hp & Hm & Hall). exists ((id, d) :: seen'), id'. by repeat split; [..|constructor].
    + destruct Hres as (-> & Hp & Hall). by repeat split; [..|constructor].
    + destruct Hres as (seen' & n & -> & Hp & Hm & Hall). exists ((id, d) :: seen'), n. by repeat split; [..|constructor].
  - simplify_eq. exists [(id, d)], l. split; [done|]. by exists [], (id, d).
Qed.

Lemma scan_suffix f l pos res : scan regex_search f l = (pos, res) -> exists seen rest, l = seen ++ rest /\ pos = begin rest.
Proof.
  intros (seen & rest & -> & Hres)%scan_spec. exists seen, rest. split; [done|].
  destruct res; [by destruct Hres as (? & ? & _ & ? & _) | by destruct Hres as (-> & -> & _) |
                 by destruct Hres as (? & ? & _ & ? & _)].
Qed.

Lemma from_pos_suffix pos l : exists pre, l = pre ++ from_pos pos l.
Proof.
  destruct pos as [|id|]; simpl; [by exists l; rewrite app_nil_r| |by exists l; rewrite app_nil_r].
  apply drop_until_suffix.
Qed.

Lemma tail_walk_in f count n before : (tail_walk regex_search f count n before).1 ∈ n :: before.
Proof.
  revert count n; induction before as [|p before IH]; intros count n; simpl; [left|].
  destruct (0 <? count); [|left]. destruct (matches f n.2) as [m|]; [|left]. right. apply IH.
Qed.

Lemma tail_pos_ok f tailCount l sk cb :
  0 <= sk < 2 ^ 32 -> reader_ok l (mkBufferReader (tail_pos regex_search f tailCount l).1 true sk cb).
Proof.
  intros Hsk. unfold tail_pos. destruct (tailCount =? 0); [by apply (suffix_reader_ok [])|].
  split; [done|]. destruct (rev l) as [|n before] eqn:E; [done|].
  pose proof (tail_walk_in f tailCount n before) as Hin.
  destruct (tail_walk regex_search f tailCount n before) as [n' ok]. simpl in *. split; [done|].
  apply list_elem_of_fmap_2. rewrite <- E, list_elem_of_In, <- in_rev in Hin. by apply list_elem_of_In.
Qed.

Lemma Query_wf b c f id tailCount : buf_wf b -> buf_wf (Query regex_search b c f id tailCount).1.
Proof.
  intros Hb. unfold Query, GetReader. destruct (m_logReaders b !! id) as [r|] eqn:Er; [|done].
  pose proof (bw_readers _ Hb id r Er) as Hr.
  match goal with |- context [if r_msgList r then ?a else ?e] => set (st := if r_msgList r then a else e) end.
  assert (reader_ok (hilogDataList b) st.1 /\ r_msgList st.1 = true) as [Hst Hml].
  { unfold st. destruct (r_msgList r) eqn:Eml; [done|]. destruct Hr as [Hsk _].
    pose proof (tail_pos_ok f tailCount (hilogDataList b) (r_skipped r) (r_callback r) Hsk) as Ht.
    by destruct (tail_pos regex_search f tailCount (hilogDataList b)). }
  destruct st as [r1 ok]. simpl in Hst, Hml. destruct ok; simpl; [|by apply set_reader_wf].
  destruct (if r_skipped r1 =? 0 then _ else _) as [notice|].
  - apply set_reader_wf; [done|]. destruct Hst as [_ Hst]. by split.
  - destruct (scan _ _ _) as [pos res] eqn:Es. apply scan_suffix in Es as (seen & rest & El & ->).
    destruct (from_pos_suffix (r_pos r1) (hilogDataList b)) as [pre Epre].
    apply set_reader_wf; [done|]. rewrite El in Epre. rewrite Epre, app_assoc, Hml.
    apply suffix_reader_ok, Hst.
Qed.

Lemma Query_lines b c f id tailCount :
  let b' := (Query regex_search b c f id tailCount).1 in
  sizeByType b' = sizeByType b /\ hilogDataList b' = hilogDataList b /\ next_id b' = next_id b /\
  m_isSupportSkipLog b' = m_isSupportSkipLog b.
Proof.
  unfold Query, GetReader. destruct (m_logReaders b !! id) as [r|]; [|done].
  destruct (if r_msgList r then _ else _) as [r1 []]; [|done]. cbn [negb].
  destruct (if r_skipped r1 =? 0 then _ else _); [done|]. by destruct (scan _ _ _).
Qed.

Lemma Query_ok b c f id tailCount : buf_ok b -> buf_ok (Query regex_search b c f id tailCount).1.
Proof.
  intros Hb. destruct (Query_lines b c f id tailCount) as (Hs & Hl & _).
  apply (buf_ok_same b); [done | by apply Query_wf, buf_ok_wf | done..].
Qed.
End query_spec.

(** ** Delete *)

(** The bytes of the lines of exactly one type. *)
Definition dsize (t : Z) (l : list node) : Z := sumZ (fun n => cLen n.2) (filter (fun n => d_type n.2 = t) l).

Lemma dsize_cons t n l : dsize t (n :: l) = (if decide (d_type n.2 = t) then cLen n.2 else 0) + dsize t l.
Proof. unfold dsize. rewrite filter_cons. by case_decide. Qed.

Lemma dsize_range t l : lines_wf l -> 0 <= dsize t l <= tsize (ConvertBufType t) l.
Proof.
  induction l as [|n l IH]; intros Hwf; [done|]. apply Forall_cons in Hwf as [Hd Hwf].
  specialize (IH Hwf). pose proof (cLen_wf _ Hd). rewrite dsize_cons, tsize_cons.
  destruct (decide (d_type n.2 = t)) as [<-|].
  - rewrite decide_True by done. lia.
  - case_decide; lia.
Qed.

Lemma delete_loop_sizes t l :
  forall sizes rs sum sizes' rs' sum' l',
  delete_loop t sizes rs sum l = (sizes', rs', sum', l') ->
  0 <= t < Z.of_nat (length sizes) -> 0 <= aget sizes t < 2 ^ 64 -> 0 <= sum < 2 ^ 64 ->
  length sizes' = length sizes /\ aget sizes' t = u64 (aget sizes t - dsize t l) /\
  (forall t', 0 <= t' -> t' <> t -> aget sizes' t' = aget sizes t') /\ sum' = u64 (sum + dsize t l).
Proof.
  induction l as [|[id d] l IH]; intros sizes rs sum sizes' rs' sum' l' H Ht Hs Hsum; simpl in H.
  { simplify_eq. unfold dsize. simpl. rewrite Z.sub_0_r, Z.add_0_r, !wrapu_small by lia. done. }
  rewrite dsize_cons. simpl. destruct (Z.eqb_spec (d_type d) t) as [->|Hne]; simpl in H.
  - rewrite decide_True by done.
    apply IH in H as (Hl & Ha & Ho & ->).
    + rewrite aset_length in Hl. rewrite aget_aset_eq in Ha by done. split; [done|].
      rewrite Ha, wrapu_sub_l, wrapu_add_l. split; [f_equal; lia|]. split; [|f_equal; lia].
      intros t' Ht' Hne. rewrite Ho by done. apply aget_aset_ne; lia.
    + by rewrite aset_length.
    + rewrite aget_aset_eq by done. apply wrapu_range. lia.
    + apply wrapu_range. lia.
  - rewrite decide_False by done. destruct (delete_loop t sizes rs sum l) as [[[s r] sm] kept] eqn:E.
    simplify_eq. apply IH in E as (Hl & Ha & Ho & ->); try done.
Qed.

Lemma tsize_without t t' l :
  tsize t' (filter (fun n => d_type n.2 <> t) l) =
  tsize t' l - (if decide (ConvertBufType t = t') then dsize t l else 0).
Proof.
  induction l as [|n l IH]; [by case_decide|]. rewrite filter_cons, (tsize_cons t' n l), dsize_cons.
  destruct (decide (d_type n.2 = t)) as [Ht|Ht].
  - rewrite decide_False by (intros Hn; by apply Hn). rewrite IH.
    assert (in_buf t' n <-> ConvertBufType t = t') as Hiff by (unfold in_buf; by rewrite Ht).
    destruct (decide (ConvertBufType t = t')), (decide (in_buf t' n)); try tauto; lia.
  - rewrite decide_True by done. rewrite tsize_cons, IH. repeat case_decide; lia.
Qed.

(** What [Delete] does, whatever the type. *)
Lemma Delete_cases b t b' ret :
  buf_ok b -> 0 <= t < LOG_TYPE_MAX -> Delete b t = (b', ret) ->
  let l := hilogDataList b in
  hilogDataList b' = filter (fun n => d_type n.2 <> t) l /\ ret = dsize t l /\
  readers_follow l (hilogDataList b') (m_logReaders b) (m_logReaders b') /\
  next_id b' = next_id b /\ stats b' = stats b /\ m_isSupportSkipLog b' = m_isSupportSkipLog b /\
  length (sizeByType b') = 6%nat /\
  (forall t', 0 <= t' < LOG_TYPE_MAX -> aget (sizeByType b') t' =
     if decide (t' = t) then u64 (aget (sizeByType b) t - dsize t l) else aget (sizeByType b) t').
Proof.
  intros [Hlen Hnd Hfr Hln Hrd Hacc Hbd] Ht H. unfold Delete in H.
  destruct (Z.leb_spec LOG_TYPE_MAX t); [lia|].
  destruct (delete_loop _ _ _ _ _) as [[[s r] sum] l'] eqn:E. simplify_eq/=.
  destruct (delete_loop_follow _ _ [] _ _ _ _ _ _ _ E Hnd Hrd) as [HF ->].
  pose proof (Hbd (ConvertBufType t) (ConvertBufType_range t Ht)) as Hb.
  pose proof (dsize_range t (hilogDataList b) Hln). pose proof (Hbd t Ht) as Hb'.
  pose proof (tsize_nonneg t _ Hln). unfold MAX_BUFFER_SIZE, MAX_LOG_LEN, LOG_TYPE_MAX in *.
  apply delete_loop_sizes in E as (Hl & Ha & Ho & ->); [|lia|rewrite Hacc; lia|lia].
  split; [done|]. split; [rewrite Z.add_0_l; unwrap; lia|]. split; [done|]. do 3 (split; [done|]).
  split; [lia|]. intros t' Ht'. case_decide; [by subst | by apply Ho; lia].
Qed.

Lemma Delete_ok b t : buf_ok b -> 0 <= t -> t <> LOG_ONLY_PRERELEASE -> buf_ok (Delete b t).1.
Proof.
  intros Hb H0 Hne. destruct (Z.le_gt_cases LOG_TYPE_MAX t).
  { unfold Delete. by destruct (Z.leb_spec LOG_TYPE_MAX t); [|lia]. }
  destruct (Delete b t) as [b' ret] eqn:E.
  destruct (Delete_cases b t b' ret Hb ltac:(lia) E) as (Hl & _ & HF & Hnx & _ & _ & Hlen & Hs).
  destruct Hb as [_ Hnd Hfr Hln Hrd Hacc Hbd].
  assert (hilogDataList b' `sublist_of` hilogDataList b) as Hsub by (rewrite Hl; apply sublist_filter).
  assert (ConvertBufType t = t) as Hconv by (unfold ConvertBufType; by destruct (Z.eqb_spec t LOG_ONLY_PRERELEASE)).
  pose proof (dsize_range t _ Hln) as Hds. rewrite Hconv in Hds.
  assert (forall t', tsize t' (hilogDataList b') =
    tsize t' (hilogDataList b) - if decide (t' = t) then dsize t (hilogDataList b) else 0) as Hts.
  { intros t'. rewrite Hl, tsize_without, Hconv. repeat case_decide; congruence || lia. }
  split; simpl; try done.
  - eapply sublist_NoDup; [exact Hnd | by apply fmap_sublist].
  - rewrite Hnx. by eapply sublist_Forall.
  - by eapply sublist_Forall.
  - by eapply readers_follow_ok.
  - intros t' Ht'. rewrite Hs, Hts by done. specialize (Hbd t' Ht'). case_decide; subst.
    + rewrite Hacc by done. unfold MAX_BUFFER_SIZE, MAX_LOG_LEN in *. apply wrapu_small. lia.
    + rewrite Hacc by done. lia.
  - intros t' Ht'. rewrite Hts. specialize (Hbd t' Ht'). case_decide; lia.
Qed.

(** ** What a reader receives *)

Lemma slen_num_go radix fuel n acc : slen (num_go radix fuel n acc) <= Z.of_nat fuel + slen acc.
Proof.
  revert n acc; induction fuel as [|fuel IH]; intros n acc; cbn [num_go]; [lia|].
  destruct (n <? radix); [rewrite slen_cons; lia|]. etransitivity; [apply IH|]. rewrite slen_cons. lia.
Qed.

Lemma slen_to_string z : 0 <= z < 2 ^ 64 -> slen (to_string z) <= 64.
Proof.
  intros Hz. unfold to_string. destruct (Z.ltb_spec z 0); [lia|]. unfold Num2Str.
  etransitivity; [apply slen_num_go|]. change (slen "") with 0.
  assert (Z.log2 z < 64); [|pose proof (Z.log2_nonneg z); lia].
  destruct (Z.eq_dec z 0) as [->|]; [done|]. apply Z.log2_lt_pow2; lia.
Qed.

Lemma GenerateHilogMsgInside_ok c msg t :
  slen msg <= 4000 -> 0 <= t < LOG_TYPE_MAX ->
  exists m, GenerateHilogMsgInside c msg t = Some m /\ msg_wf m /\ insert_invalid m = false /\ msg_type m = t.
Proof.
  intros Hm Ht. unfold GenerateHilogMsgInside. pose proof (slen_nonneg msg).
  unfold LOG_TYPE_MAX, sizeof_HilogMsg, MAX_LOG_LEN in *.
  change (slen "HiLog") with 5.
  rewrite (wrapu_small 16) by lia. destruct (Z.ltb_spec 4096 (28 + (5 + 1 + slen msg + 1))); [lia|].
  rewrite !(wrapu_small 64) by (rewrite ?wrapu_small; lia).
  unfold memcpy_s. destruct (_ && _) eqn:E1; [|lia]. destruct ((_ <? _) && (slen msg + 1 <=? _)) eqn:E2; [|lia].
  simpl. eexists. split; [done|]. rewrite (Z.mod_small t) by lia. split; [|split; [|done]].
  - unfold msg_wf. cbn -[wrapu Z.pow]. repeat match goal with |- _ /\ _ => split end;
      try apply wrapu_range; unfold LOG_INFO; lia.
  - unfold insert_invalid, CONTENT_LEN, MAX_TAG_LEN, MAX_LOG_LEN, LOG_TYPE_MAX, sizeof_HilogMsg.
    cbn -[wrapu]. rewrite wrapu_small; lia.
Qed.

Lemma skip_notice_Some c n : 0 <= n < 2 ^ 32 -> exists d, skip_notice c n = Some d.
Proof.
  intros Hn. unfold skip_notice.
  destruct (GenerateHilogMsgInside_ok c ("========Slow reader missed log lines: " +:+ to_string n) LOG_CORE)
    as (m & -> & _); [|done|by eexists].
  rewrite slen_app. pose proof (slen_to_string n ltac:(lia)).
  change (slen "========Slow reader missed log lines: ") with 38. lia.
Qed.

Section stream.
Context (regex_search : string -> string -> option bool) (f : LogFilter).

Definition wanted (d : HilogData) : Prop := LogMatchFilter regex_search f d = Some true.

#[export] Instance wanted_dec d : Decision (wanted d).
Proof. unfold wanted. apply _. Defined.

(** The lines a reader has not seen yet and asks for. *)
Definition outstanding (b : HilogBuffer) (r : BufferReader) : list HilogData :=
  filter wanted (pending_nodes (hilogDataList b) r).*2.

(** One query of an attached reader. *)
Lemma Query_step b c id tailCount r b' res :
  buf_ok b -> m_logReaders b !! id = Some r -> r_msgList r = true ->
  Query regex_search b c f id tailCount = (b', res) ->
  exists r', m_logReaders b' !! id = Some r' /\ r_msgList r' = true /\ hilogDataList b' = hilogDataList b /\
    r_skipped r' = 0 /\
    (r_skipped r <> 0 -> pending_nodes (hilogDataList b) r' = pending_nodes (hilogDataList b) r /\
       exists d, res = QLine d /\ skip_notice c (r_skipped r) = Some d) /\
    (r_skipped r = 0 ->
       match res with
       | QLine d => outstanding b r = d :: outstanding b' r'
       | QNone => outstanding b r = [] /\ pending_nodes (hilogDataList b) r' = []
       | QThrow => outstanding b r = outstanding b' r'
       end).
Proof.
  intros Hb Hr Hml HQ. unfold Query, GetReader in HQ. rewrite Hr, Hml in HQ. simpl in HQ.
  pose proof (bo_readers _ Hb id r Hr) as [Hsk _].
  destruct (Z.eqb_spec (r_skipped r) 0) as [H0|Hne].
  - destruct (scan _ _ _) as [pos res0] eqn:Es. simplify_eq. simpl.
    rewrite lookup_insert_eq. eexists. split; [done|]. simpl. do 3 (split; [done|]). split; [done|].
    intros _. destruct (from_pos_suffix (r_pos r) (hilogDataList b)) as [pre Epre].
    apply scan_spec in Es as (seen & rest & El & Hres). pose proof (bo_nodup _ Hb) as Hnd.
    rewrite El in Epre.
    assert (from_pos (begin rest) (hilogDataList b) = rest) as Hrest.
    { rewrite Epre, app_assoc in Hnd |- *. by apply from_begin_suffix. }
    unfold outstanding, pending_nodes. simpl. rewrite El, fmap_app, filter_app.
    assert (forall l : list node, Forall (fun n => LogMatchFilter regex_search f n.2 = Some false) l ->
      filter wanted l.*2 = []) as Hnone.
    { induction 1 as [|n l Hn _ IH]; [done|]. rewrite fmap_cons, filter_cons_False; [done|].
      unfold wanted. congruence. }
    destruct res as [d| |].
    + destruct Hres as (seen' & i & -> & -> & Hm & Hall). rewrite Hrest, fmap_app, filter_app, (Hnone _ Hall).
      simpl. by rewrite filter_cons_True.
    + destruct Hres as (-> & -> & Hall). by rewrite (Hnone _ Hall).
    + destruct Hres as (seen' & n & -> & -> & Hm & Hall). rewrite Hrest, fmap_app, filter_app, (Hnone _ Hall).
      simpl. rewrite filter_cons_False; [done|]. unfold wanted. congruence.
  - destruct (skip_notice_Some c (r_skipped r) Hsk) as [d Hd]. rewrite Hd in HQ. simplify_eq. simpl.
    rewrite lookup_insert_eq. eexists. split; [done|]. simpl. do 3 (split; [done|]). split; [|done].
    intros _. split; [done|]. by exists d.
Qed.
End stream.

(** ** The invariant holds in every reachable state *)

Lemma Insert_ok maxsz b msg isFull :
  limits_ok maxsz -> buf_ok b -> msg_wf msg -> buf_ok (Insert maxsz b msg isFull).1.1.1.
Proof.
  intros Hlim Hb Hmsg. destruct (insert_invalid msg) eqn:Ev.
  { unfold Insert. by rewrite Ev. }
  destruct (Insert maxsz b msg isFull) as [[[b' full] ret] ntf] eqn:E.
  by destruct (Insert_cases maxsz b msg isFull b' full ret ntf Hlim Hb Hmsg Ev E) as (k & Hb' & _).
Qed.

Lemma CreateBufReader_ok b id cb : buf_ok b -> buf_ok (CreateBufReader b id cb).
Proof.
  intros Hb. unfold CreateBufReader. destruct (m_logReaders b !! id); [done|].
  by apply (set_reader_ok b id (mkBufferReader it_singular false 0 cb)).
Qed.

Lemma RemoveBufReader_ok b id : buf_ok b -> buf_ok (RemoveBufReader b id).
Proof.
  intros [H1 H2 H3 H4 H5 H6 H7]. split; simpl; try done.
  intros k r [_ Hk]%lookup_delete_Some. by eapply H5.
Qed.

Lemma set_stats_ok b s : buf_ok b -> buf_ok (set_stats b s).
Proof. by intros [H1 H2 H3 H4 H5 H6 H7]; split. Qed.

Lemma SetBuffLen_ok maxsz t sz : limits_ok maxsz -> 0 <= t -> limits_ok (SetBuffLen maxsz t sz).1.
Proof.
  intros [Hl Hm] Ht. unfold SetBuffLen. case_goal; try done. split; simpl; [by rewrite aset_length|].
  intros t' Ht'. destruct (Z.eq_dec t t') as [->|].
  - rewrite aget_aset_eq by (unfold LOG_TYPE_MAX in *; lia). unfold MIN_BUFFER_SIZE in *. blia.
  - rewrite aget_aset_ne by lia. by apply Hm.
Qed.

Lemma empty_ok st sk : buf_ok (mkHilogBuffer (replicate 6 0) [] 0 ∅ st sk).
Proof.
  split; simpl; try done; [constructor|constructor|].
  intros t Ht. unfold LOG_TYPE_MAX in Ht.
  assert (t = 0 \/ t = 1 \/ t = 2 \/ t = 3 \/ t = 4 \/ t = 5) as Hc by lia.
  by destruct Hc as [->|[->|[->|[->|[->| ->]]]]].
Qed.

Lemma InitBuffLen_ok gbs maxsz : limits_ok maxsz -> limits_ok (InitBuffLen gbs maxsz).
Proof. intros Hl. unfold InitBuffLen. simpl. by repeat apply SetBuffLen_ok. Qed.

Lemma InitBuffHead_ok clk maxsz b : limits_ok maxsz -> buf_ok b -> buf_ok (InitBuffHead clk maxsz b).
Proof.
  intros Hlim. unfold InitBuffHead.
  assert (Forall (fun i => 0 <= i < LOG_TYPE_MAX) [0; 1; 2; 3; 4; 5]) as Hall by (by repeat constructor).
  revert b. induction Hall as [|i l Hi _ IH]; intros b Hb; [done|]. cbn [foldl]. apply IH.
  case_bool_decide as Hinv; [done|].
  destruct (GenerateHilogMsgInside_ok (clk i) ("========Zeroth log of type: " +:+ LogType2Str i) i)
    as (m & -> & Hm & _); [|done|].
  - assert (slen (LogType2Str i) <= 100); [|rewrite slen_app; change (slen "========Zeroth log of type: ") with 28; lia].
    unfold LOG_TYPE_MAX in Hi. assert (i = 0 \/ i = 1 \/ i = 2 \/ i = 3 \/ i = 4 \/ i = 5) as Hc by lia.
    by destruct Hc as [->|[->|[->|[->|[->| ->]]]]]; vm_compute.
  - pose proof (Insert_ok maxsz b m false Hlim Hb Hm) as Hok. by destruct (Insert maxsz b m false) as [[[? ?] ?] ?].
Qed.

(** ** Deleting prerelease lines

    [Insert] accounts them to the core type, [Delete] subtracts them from the
    counter of their own type.  With [lost] the bytes that were removed that
    way, the counters are off by [skew lost]. *)

Definition skew (lost t : Z) : Z :=
  if t =? LOG_CORE then lost else if t =? LOG_ONLY_PRERELEASE then - lost else 0.

(** A type whose counter has not come near its wrap-around. *)
Definition sane (lost t : Z) : Prop := t = LOG_CORE -> lost < 2 ^ 63.

Record accounted (lost : Z) (b : HilogBuffer) : Prop := {
  ac_lost : 0 <= lost;
  ac_acc : forall t, 0 <= t < LOG_TYPE_MAX -> aget (sizeByType b) t = u64 (tsize t (hilogDataList b) + skew lost t);
  ac_bound : forall t, 0 <= t < LOG_TYPE_MAX -> sane lost t -> tsize t (hilogDataList b) <= MAX_BUFFER_SIZE + MAX_LOG_LEN;
}.

Lemma skew_0 t : skew 0 t = 0.
Proof. unfold skew. by repeat case_match. Qed.

Lemma accounted_ok b : buf_wf b -> accounted 0 b <-> buf_ok b.
Proof.
  intros Hw. split.
  - intros [_ Ha Hb]. assert (forall t, 0 <= t < LOG_TYPE_MAX -> tsize t (hilogDataList b) <= MAX_BUFFER_SIZE + MAX_LOG_LEN) as Hb'
      by (intros t Ht; by apply Hb).
    destruct Hw as [H1 H2 H3 H4 H5]. split; try done. intros t Ht. rewrite Ha, skew_0, Z.add_0_r by done.
    pose proof (tsize_nonneg t _ H4). specialize (Hb' t Ht). unfold MAX_BUFFER_SIZE, MAX_LOG_LEN in *. apply wrapu_small. lia.
  - intros [_ _ _ Hl _ Ha Hb]. split; [done| |by auto]. intros t Ht. rewrite Ha, skew_0, Z.add_0_r by done.
    pose proof (tsize_nonneg t _ Hl). specialize (Hb t Ht). unfold MAX_BUFFER_SIZE, MAX_LOG_LEN in *. symmetry. apply wrapu_small. lia.
Qed.

(** The dropping loop, with a counter that is off by [off]. *)
Lemma drop_loop_room sk max bt off rest :
  forall sizes rs full sizes' rs' rest',
  drop_loop sk max bt sizes rs rest = (full, sizes', rs', rest') ->
  0 <= bt < Z.of_nat (length sizes) -> aget sizes bt = u64 (tsize bt rest + off) ->
  exists k, rest' = evict bt k rest /\ length sizes' = length sizes /\ aget sizes' bt = u64 (tsize bt rest' + off) /\
    (forall t, 0 <= t -> t <> bt -> aget sizes' t = aget sizes t) /\
    (full = false -> over_threshold (aget sizes' bt) max = false \/ tsize bt rest' = 0).
Proof.
  induction rest as [|[id d] rest IH]; intros sizes rs full sizes' rs' rest' H Hbt Hsz; simpl in H.
  { simplify_eq. exists 0%nat. repeat split; try done. by right. }
  destruct (over_threshold (aget sizes bt) max) eqn:Eo; simpl in H.
  2:{ simplify_eq. exists 0%nat. repeat split; try done. by left. }
  rewrite tsize_cons in Hsz.
  destruct (Z.eqb_spec (ConvertBufType (d_type d)) bt) as [Ht|Ht]; simpl in H.
  - rewrite decide_True in Hsz by done. simpl in Hsz.
    destruct (IsItemUsed sk rs (it_node id)).
    { simplify_eq. exists 0%nat. rewrite tsize_cons, decide_True by done. by repeat split. }
    rewrite Ht in H. apply IH in H as (k & -> & Hlen & Hs' & Ho & Hend).
    + exists (S k). simpl. rewrite decide_True by done. rewrite aset_length in Hlen. repeat split; try done.
      intros t Ht0 Hne. rewrite Ho by done. apply aget_aset_ne; lia.
    + by rewrite aset_length.
    + rewrite aget_aset_eq by done. rewrite Hsz, wrapu_sub_l. f_equal. lia.
  - rewrite decide_False in Hsz by done.
    destruct (drop_loop sk max bt sizes rs rest) as [[[f s] r] kept] eqn:E. simplify_eq.
    apply IH in E as (k & -> & Hlen & Hs' & Ho & Hend); [|done|by rewrite Z.add_0_l in Hsz].
    exists k. destruct k; simpl; rewrite ?decide_False by done; rewrite ?evict_0, tsize_cons, decide_False in * by done;
      by repeat split.
Qed.

Lemma ConvertBufType_core t : ConvertBufType t <> LOG_ONLY_PRERELEASE.
Proof. unfold ConvertBufType. by destruct (Z.eqb_spec t LOG_ONLY_PRERELEASE). Qed.

(** Making room for a line of [sz] bytes. *)
Lemma make_room maxsz lost b bt sz full sizes rs l :
  limits_ok maxsz -> buf_wf b -> accounted lost b -> 0 <= bt < LOG_TYPE_MAX -> bt <> LOG_ONLY_PRERELEASE ->
  1 <= sz <= MAX_LOG_LEN ->
  (if aget maxsz bt <=? u64 (sz + aget (sizeByType b) bt)
   then drop_loop (m_isSupportSkipLog b) (aget maxsz bt) bt (sizeByType b) (m_logReaders b) (hilogDataList b)
   else (false, sizeByType b, m_logReaders b, hilogDataList b)) = (full, sizes, rs, l) ->
  l `sublist_of` hilogDataList b /\ length sizes = 6%nat /\ readers_follow (hilogDataList b) l (m_logReaders b) rs /\
  (forall t, 0 <= t < LOG_TYPE_MAX -> aget sizes t = u64 (tsize t l + skew lost t)) /\
  (forall t, 0 <= t < LOG_TYPE_MAX -> sane lost t -> tsize t l <= MAX_BUFFER_SIZE + MAX_LOG_LEN) /\
  (full = false -> sane lost bt -> sz + tsize bt l <= MAX_BUFFER_SIZE + MAX_LOG_LEN).
Proof.
  intros [Hml Hm] Hw [Hlo Hacc Hbd] Hbt Hpre Hsz E. pose proof Hw as [Hlen Hnd _ Hln Hrd].
  pose proof (tsize_nonneg bt _ Hln) as Hn. pose proof (Hm bt Hbt) as Hmx. pose proof (Hbd bt Hbt) as Hb.
  assert (0 <= skew lost bt) as Hsk by (unfold skew; repeat case_match; lia).
  assert (sane lost bt -> skew lost bt < 2 ^ 63) as Hsane by (unfold sane, skew; repeat case_match; lia).
  unfold MAX_BUFFER_SIZE, MAX_LOG_LEN, LOG_TYPE_MAX in *.
  destruct (Z.leb_spec (aget maxsz bt) (u64 (sz + aget (sizeByType b) bt))) as [Hfull|Hroom].
  - destruct (drop_loop_follow _ _ _ _ [] _ _ _ _ _ _ E Hnd Hrd) as [HF _].
    destruct (drop_loop_room _ _ _ (skew lost bt) _ _ _ _ _ _ _ E) as (k & -> & Hl & Hs & Ho & Hend); [lia | by apply Hacc|].
    pose proof (tsize_evict_le bt k _ Hln). pose proof (sublist_Forall _ _ _ (evict_sublist bt k _) Hln) as Hln'.
    pose proof (tsize_nonneg bt _ Hln').
    split; [apply evict_sublist|]. split; [lia|]. split; [done|]. split; [|split].
    + intros t Ht. destruct (Z.eq_dec t bt) as [->|Hne]; [done|]. rewrite Ho, Hacc, evict_tsize_other; done || lia.
    + intros t Ht Hst. destruct (Z.eq_dec t bt) as [->|Hne]; [specialize (Hb Hst); lia|]. rewrite evict_tsize_other by done. by apply Hbd.
    + intros -> Hst. specialize (Hb Hst). specialize (Hsane Hst). destruct (Hend eq_refl) as [Hth|Hz]; [|lia].
      rewrite Hs, wrapu_small in Hth by lia.
      pose proof (over_threshold_spec (tsize bt (evict bt k (hilogDataList b)) + skew lost bt) (aget maxsz bt)) as Hsp.
      rewrite Hth in Hsp. unfold MAX_BUFFER_SIZE in Hsp. lia.
  - simplify_eq. split; [done|]. split; [done|]. split; [by apply readers_follow_refl|]. split; [done|]. split; [done|].
    intros _ Hst. specialize (Hb Hst). specialize (Hsane Hst). rewrite Hacc in Hroom by done.
    rewrite Z.add_comm, wrapu_add_l, wrapu_small in Hroom by lia. lia.
Qed.

Lemma fresh_push (l : list node) i d :
  NoDup (ids l) -> Forall (fun n => n.1 < i)%nat l -> lines_wf l -> data_wf d ->
  NoDup (ids (l ++ [(i, d)])) /\ Forall (fun n => n.1 < S i)%nat (l ++ [(i, d)]) /\ lines_wf (l ++ [(i, d)]).
Proof.
  intros Hnd Hfr Hln Hd. split_and!.
  - rewrite fmap_app. apply NoDup_app. split; [done|]. split; [|apply NoDup_singleton].
    intros x Hx ->%list_elem_of_singleton. by apply fresh_not_in in Hfr.
  - apply Forall_app. split; [|apply Forall_singleton; simpl; lia]. eapply Forall_impl; [exact Hfr | simpl; lia].
  - apply Forall_app. split; [done | by apply Forall_singleton].
Qed.

Lemma Insert_accounted maxsz lost b msg isFull :
  limits_ok maxsz -> buf_wf b -> accounted lost b -> msg_wf msg ->
  let b' := (Insert maxsz b msg isFull).1.1.1 in buf_wf b' /\ accounted lost b'.
Proof.
  intros Hlim Hw Hac Hmsg. unfold Insert. destruct (insert_invalid msg) eqn:Hv; [done|].
  destruct (insert_valid msg Hmsg Hv) as (Htag & Hsz & Hty).
  destruct (HilogData_of_msg_wf msg Hmsg Htag Hsz ltac:(lia)) as (Hdwf & Hcl & Hdt).
  set (bt := ConvertBufType (msg_type msg)). assert (0 <= bt < LOG_TYPE_MAX) as Hbt by (by apply ConvertBufType_range).
  destruct (if aget maxsz bt <=? _ then _ else _) as [[[full sizes] rs] l] eqn:E.
  destruct (make_room maxsz lost b bt _ full sizes rs l Hlim Hw Hac Hbt (ConvertBufType_core _) Hsz E)
    as (Hsub & Hlen & HF & Hacc & Hbd & Hroom).
  pose proof Hw as [_ Hnd Hfr Hln _].
  assert (NoDup (ids l)) as Hnd' by (eapply sublist_NoDup; [exact Hnd | by apply fmap_sublist]).
  pose proof (sublist_Forall _ _ _ Hsub Hfr) as Hfr'. pose proof (sublist_Forall _ _ _ Hsub Hln) as Hln'.
  destruct full; simpl.
  { split; [split; try done; by eapply readers_follow_ok | split; try done; apply Hac]. }
  destruct (fresh_push l (next_id b) (HilogData_of_msg msg) Hnd' Hfr' Hln' Hdwf) as (Hnd2 & Hfr2 & Hln2).
  destruct (readers_push _ l (next_id b, HilogData_of_msg msg) _ rs HF (fresh_not_in _ _ Hfr')) as [_ Hrk].
  assert (forall t, tsize t (l ++ [(next_id b, HilogData_of_msg msg)]) = tsize t l + if decide (bt = t) then CONTENT_LEN msg else 0) as Hts.
  { intros t. rewrite tsize_app, tsize_cons. change (tsize t []) with 0. cbn [snd]. rewrite Hcl.
    assert (in_buf t (next_id b, HilogData_of_msg msg) <-> bt = t) as Hiff by (unfold in_buf, bt; cbn [snd]; by rewrite Hdt).
    repeat case_decide; tauto || lia. }
  split; (split; simpl; try done; [by rewrite ?aset_length || apply Hac|..]).
  - intros t Ht. rewrite Hts. case_decide as Hd.
    + rewrite <- Hd, aget_aset_eq, Hacc by (unfold LOG_TYPE_MAX in *; lia). rewrite wrapu_add_l. f_equal. lia.
    + rewrite aget_aset_ne, Hacc by lia. f_equal. lia.
  - intros t Ht Hst. rewrite Hts. case_decide as Hd; [|specialize (Hbd t Ht Hst); lia].
    subst t. specialize (Hroom eq_refl Hst). lia.
Qed.

(** What [Delete] removes of a type, in the structure and in the counters. *)
Lemma Delete_lines b t b' ret :
  buf_wf b -> 0 <= t < LOG_TYPE_MAX -> Delete b t = (b', ret) ->
  let l := hilogDataList b in
  buf_wf b' /\ hilogDataList b' = filter (fun n => d_type n.2 <> t) l /\
  readers_follow l (hilogDataList b') (m_logReaders b) (m_logReaders b') /\ m_isSupportSkipLog b' = m_isSupportSkipLog b.
Proof.
  intros [Hlen Hnd Hfr Hln Hrd] Ht H. unfold Delete in H. destruct (Z.leb_spec LOG_TYPE_MAX t); [lia|].
  destruct (delete_loop _ _ _ _ _) as [[[s r] sum] l'] eqn:E. simplify_eq/=.
  destruct (delete_loop_follow _ _ [] _ _ _ _ _ _ _ E Hnd Hrd) as [HF ->]. split; [|done].
  assert (forall sizes rs sum l, length (delete_loop t sizes rs sum l).1.1.1 = length sizes) as Hkeep.
  { intros sizes rs sum' l. revert sizes rs sum'. induction l as [|[i d] l IH]; intros sizes rs sum'; [done|]. cbn [delete_loop].
    destruct (negb _); [|by rewrite IH, aset_length]. specialize (IH sizes rs sum'). by destruct (delete_loop _ _ _ _ l) as [[[? ?] ?] ?]. }
  assert (filter (fun n => d_type n.2 <> t) (hilogDataList b) `sublist_of` hilogDataList b) as Hsub by apply sublist_filter.
  split; simpl.
  - specialize (Hkeep (sizeByType b) (m_logReaders b) 0 (hilogDataList b)). by rewrite E, Hlen in Hkeep.
  - eapply sublist_NoDup; [exact Hnd | by apply fmap_sublist].
  - by eapply sublist_Forall.
  - by eapply sublist_Forall.
  - by eapply readers_follow_ok.
Qed.

Lemma u64_range z : 0 <= u64 z < 2 ^ 64.
Proof. apply wrapu_range. lia. Qed.

(** The bytes that are lost to the accounting. *)
Definition lost_bytes (b : HilogBuffer) (t : Z) : Z :=
  if t =? LOG_ONLY_PRERELEASE then dsize t (hilogDataList b) else 0.

Lemma Delete_accounted lost b t :
  buf_wf b -> accounted lost b -> 0 <= t ->
  buf_wf (Delete b t).1 /\ accounted (lost + lost_bytes b t) (Delete b t).1.
Proof.
  intros Hw Hac H0. destruct (Z.le_gt_cases LOG_TYPE_MAX t).
  { unfold Delete, lost_bytes. destruct (Z.leb_spec LOG_TYPE_MAX t); [|lia].
    destruct (Z.eqb_spec t LOG_ONLY_PRERELEASE); [subst; done|]. by rewrite Z.add_0_r. }
  destruct (Delete b t) as [b' ret] eqn:E. destruct (Delete_lines b t b' ret Hw ltac:(lia) E) as (Hw' & Hl & _).
  split; [done|]. destruct Hac as [Hlo Hacc Hbd]. pose proof Hw as [Hlen _ _ Hln _]. simpl.
  pose proof (dsize_range t _ Hln) as Hds.
  assert (0 <= lost_bytes b t) by (unfold lost_bytes; case_match; lia).
  unfold Delete in E. destruct (Z.leb_spec LOG_TYPE_MAX t); [lia|].
  destruct (delete_loop _ _ _ _ _) as [[[s r] sum] l'] eqn:Ed. simplify_eq/=.
  apply delete_loop_sizes in Ed as (Hls & Ha & Ho & _); [|unfold LOG_TYPE_MAX in *; lia|rewrite Hacc by lia; apply u64_range|lia].
  assert (forall t', tsize t' (filter (fun n => d_type n.2 <> t) (hilogDataList b)) + skew (lost + lost_bytes b t) t' =
     tsize t' (hilogDataList b) + skew lost t' - if decide (t' = t) then dsize t (hilogDataList b) else 0) as Heq.
  { intros t'. rewrite tsize_without. unfold skew, lost_bytes, ConvertBufType.
    destruct (Z.eqb_spec t LOG_ONLY_PRERELEASE) as [->|], (Z.eqb_spec t' LOG_CORE) as [->|];
      repeat case_decide; repeat case_match; simplify_eq; try done; lia. }
  split; simpl; [lia|..].
  - intros t' Ht'. rewrite Heq. case_decide as Hd.
    + subst t'. rewrite Ha, Hacc by lia. by rewrite wrapu_sub_l.
    + rewrite Ho, Hacc by lia. f_equal. lia.
  - intros t' Ht' Hst. rewrite tsize_without. assert (sane lost t') as Hs' by (unfold sane in *; lia).
    specialize (Hbd t' Ht' Hs'). case_decide; lia.
Qed.

(** The operations of a buffer and of the shared limits, with the bytes that
    deletions of prerelease lines have taken from the accounting. *)
Inductive buf_step (regex_search : string -> string -> option bool) (name : Z -> string)
    : list Z * HilogBuffer * Z -> list Z * HilogBuffer * Z -> Prop :=
| step_insert maxsz b lost msg isFull :
    msg_wf msg -> buf_step regex_search name (maxsz, b, lost) (maxsz, (Insert maxsz b msg isFull).1.1.1, lost)
| step_query maxsz b lost c f id tailCount :
    buf_step regex_search name (maxsz, b, lost) (maxsz, (Query regex_search b c f id tailCount).1, lost)
| step_delete maxsz b lost t :
    0 <= t -> buf_step regex_search name (maxsz, b, lost) (maxsz, (Delete b t).1, lost + lost_bytes b t)
| step_create maxsz b lost id cb : buf_step regex_search name (maxsz, b, lost) (maxsz, CreateBufReader b id cb, lost)
| step_remove maxsz b lost id : buf_step regex_search name (maxsz, b, lost) (maxsz, RemoveBufReader b id, lost)
| step_resize maxsz b lost t sz :
    0 <= t -> buf_step regex_search name (maxsz, b, lost) ((SetBuffLen maxsz t sz).1, b, lost)
| step_count maxsz b lost info b' :
    CountLog name b info = Some b' -> buf_step regex_search name (maxsz, b, lost) (maxsz, b', lost)
| step_reset maxsz b lost real mono : buf_step regex_search name (maxsz, b, lost) (maxsz, ResetStats real mono b, lost).

Definition state_ok (s : list Z * HilogBuffer * Z) : Prop :=
  limits_ok s.1.1 /\ buf_wf s.1.2 /\ accounted s.2 s.1.2.

Lemma accounted_same lost b b' :
  accounted lost b -> sizeByType b' = sizeByType b -> hilogDataList b' = hilogDataList b -> accounted lost b'.
Proof. intros [H1 H2 H3] Hs Hl. split; [done|..]; by rewrite ?Hs, Hl. Qed.

Lemma CreateBufReader_wf b id cb : buf_wf b -> buf_wf (CreateBufReader b id cb).
Proof.
  intros Hb. unfold CreateBufReader. destruct (m_logReaders b !! id); [done|].
  by apply (set_reader_wf b id (mkBufferReader it_singular false 0 cb)).
Qed.

Lemma RemoveBufReader_wf b id : buf_wf b -> buf_wf (RemoveBufReader b id).
Proof. intros [H1 H2 H3 H4 H5]. split; simpl; try done. intros k r [_ Hk]%lookup_delete_Some. by eapply H5. Qed.

Lemma set_stats_wf b s : buf_wf b -> buf_wf (set_stats b s).
Proof. by intros [H1 H2 H3 H4 H5]; split. Qed.

Lemma buf_step_ok rs name s s' : buf_step rs name s s' -> state_ok s -> state_ok s'.
Proof.
  intros Hs (Hl & Hb & Ha). destruct Hs as [maxsz b lost msg isFull Hm|maxsz b lost c f id tc|maxsz b lost t Ht| | | |maxsz b lost info b' Hc|];
    (split; [try done; by apply SetBuffLen_ok|]); cbn [fst snd] in *.
  - by apply Insert_accounted.
  - destruct (Query_lines rs b c f id tc) as (? & ? & _). split; [by apply Query_wf | by apply (accounted_same _ b)].
  - by apply Delete_accounted.
  - split; [by apply CreateBufReader_wf|]. unfold CreateBufReader. destruct (m_logReaders b !! id); [done|]. by apply (accounted_same _ b).
  - split; [by apply RemoveBufReader_wf | by apply (accounted_same _ b)].
  - done.
  - unfold CountLog in Hc. destruct (Count _ _ _); simplify_eq/=. split; [by apply set_stats_wf | by apply (accounted_same _ b)].
  - split; [by apply set_stats_wf | by apply (accounted_same _ b)].
Qed.

(** C6: in every state reached from a new buffer by its operations (insertions,
    queries, deletions of any type, new and removed readers, new limits,
    statistics) all limits are within their range, node identities are unique,
    every stored line is well formed, and every reader stands at a stored node,
    at the end, or has not queried yet, so that no iterator dangles.  The
    occupancy counter of a type is the number of bytes stored of it, modulo
    2^64 and off by the bytes of prerelease lines that deletions of that type
    have removed: the core counter is too large by them and the prerelease
    counter too small; no counter is off while no such line was deleted.  Every type
    holds at most the largest limit and one line, the core type as long as
    less than 2^63 bytes were lost that way. *)
Theorem buffer_invariant regex_search name gbs clk maxsz st sk s' :
  limits_ok maxsz ->
  rtc (buf_step regex_search name) (new_HilogBuffer gbs clk maxsz st sk, 0) s' ->
  state_ok s' /\ (s'.2 = 0 -> buf_ok s'.1.2).
Proof.
  intros Hl Hr.
  assert (state_ok (new_HilogBuffer gbs clk maxsz st sk, 0)) as H0.
  { assert (buf_ok (new_HilogBuffer gbs clk maxsz st sk).2) as Hok
      by (apply InitBuffHead_ok; [by apply InitBuffLen_ok | apply empty_ok]).
    split; [by apply InitBuffLen_ok|]. pose proof (buf_ok_wf _ Hok). split; [done | by apply accounted_ok]. }
  assert (state_ok s') as Hs by (clear Hl; induction Hr as [|s1 s2 s3 Hs _ IH]; [done|]; by apply IH, (buf_step_ok _ _ _ _ Hs)).
  split; [done|]. intros E. destruct Hs as (_ & Hw & Ha). rewrite E in Ha. by apply accounted_ok.
Qed.
