(* ===== verification/LogBufferProps.v ===== *)
(** * Properties of the log buffer

    The statements a user of [HilogBuffer] relies on: which lines [Insert]
    evicts and how full a buffer can get, what a buffer that may not skip
    lines guarantees, where a first query starts, and what [Delete] removes,
    with concrete buffers on which they are evaluated. *)

From S2P Require Import Prelude Common TimeStamp Utils LogData LogStats LogBuffer LogBufferSpec.
From Stdlib Require Import Ascii.

(** ** A small buffer *)

Definition ex_msg (type : Z) (content : string) : HilogMsg :=
  mkHilogMsg (28 + 2 + slen content + 1) 0 type LOG_INFO 2 10 20 10 100 100 0
    (String "T" (String NUL (content +:+ String NUL ""))).

Definition ex_limits : list Z := [100; 100; 100; 100; 100; 0].
Definition ex_clocks : clocks := mkClocks 10 20 10 20.
Definition ex_filter : LogFilter := mkLogFilter 0xFFFF 0xFFFF false 0 [] false 0 [] false 0 [] "".
Definition ex_regex : string -> string -> option bool := fun _ _ => Some true.

Definition ex_empty (sk : bool) : HilogBuffer :=
  mkHilogBuffer (replicate 6 0) [] 0 ∅ example_stats sk.

Definition ex_insert (b : HilogBuffer) (msg : HilogMsg) : HilogBuffer := (Insert ex_limits b msg false).1.1.1.

Definition ex_30 : string := "012345678901234567890123456789".
Definition ex_90 : string := ex_30 +:+ ex_30 +:+ ex_30.

(** A reader attached to an empty buffer, then two core lines and an app line. *)
Definition ex_attached (sk : bool) : HilogBuffer :=
  (Query ex_regex (CreateBufReader (ex_empty sk) 7 true) ex_clocks ex_filter 7 0).1.
Definition ex_buffer (sk : bool) : HilogBuffer :=
  foldl ex_insert (ex_attached sk)
    [ex_msg LOG_CORE "first"; ex_msg LOG_CORE ex_90;
     ex_msg LOG_APP "app"].

Lemma ex_limits_ok : limits_ok ex_limits.
Proof.
  split; [done|]. intros t Ht. unfold LOG_TYPE_MAX in Ht.
  assert (t = 0 \/ t = 1 \/ t = 2 \/ t = 3 \/ t = 4 \/ t = 5) as Hc by lia.
  by destruct Hc as [->|[->|[->|[->|[->| ->]]]]].
Qed.

Lemma ex_msg_wf type content : 0 <= type < 16 -> slen content < 1000 -> msg_wf (ex_msg type content).
Proof.
  intros Ht Hc. pose proof (slen_nonneg content). unfold msg_wf, ex_msg, LOG_INFO. simpl. lia.
Qed.

Lemma ex_buffer_ok sk : buf_ok (ex_buffer sk).
Proof.
  unfold ex_buffer, ex_insert. cbn [foldl].
  do 3 (apply Insert_ok; [apply ex_limits_ok | | apply ex_msg_wf; by vm_compute]).
  apply Query_ok, CreateBufReader_ok, empty_ok.
Qed.

(** A core line for which the buffer has to drop its oldest one. *)
Definition ex_new : HilogMsg := ex_msg LOG_CORE ex_30.

Lemma ex_new_wf : msg_wf ex_new.
Proof. apply ex_msg_wf; by vm_compute. Qed.

Lemma ex_new_valid : insert_invalid ex_new = false.
Proof. by vm_compute. Qed.

(** ** Insert *)

(** [Insert] refuses exactly the messages with an impossible tag length,
    content length or type, changing nothing.  Otherwise it appends the line
    behind all others after evicting the oldest lines of the same buffer type
    (core and prerelease lines share one), none when there is room, each only
    while the occupancy is above the threshold, and no line of another type;
    only a buffer that must not skip lines can answer that it is full, and
    then it does not store the line. *)
Theorem Insert_spec maxsz b msg isFull b' full ret ntf :
  limits_ok maxsz -> buf_ok b -> msg_wf msg -> Insert maxsz b msg isFull = (b', full, ret, ntf) ->
  if insert_invalid msg then b' = b /\ full = isFull /\ ret = 0
  else
    let bt := ConvertBufType (msg_type msg) in
    let l := hilogDataList b in
    exists k,
      (forall j, (j < k)%nat -> over_threshold (tsize bt (evict bt j l)) (aget maxsz bt) = true) /\
      (CONTENT_LEN msg + tsize bt l < aget maxsz bt -> k = 0%nat /\ full = false) /\
      filter (fun n => ~ in_buf bt n) (evict bt k l) = filter (fun n => ~ in_buf bt n) l /\
      if full then ret = 0 /\ m_isSupportSkipLog b = false /\ hilogDataList b' = evict bt k l
      else ret = CONTENT_LEN msg /\ hilogDataList b' = evict bt k l ++ [(next_id b, HilogData_of_msg msg)].
Proof.
  intros Hlim Hb Hmsg EI. destruct (insert_invalid msg) eqn:Ev.
  { unfold Insert in EI. rewrite Ev in EI. by simplify_eq. }
  destruct (Insert_cases maxsz b msg isFull b' full ret ntf Hlim Hb Hmsg Ev EI)
    as (k & _ & _ & _ & Hmin & Hroom & Hcase).
  exists k. split; [done|]. split; [done|]. split; [apply evict_others|].
  destruct full; [by destruct Hcase as (-> & Hsk & Hl & _) | by destruct Hcase as (-> & Hl & _)].
Qed.

Lemma Insert_spec_witness :
  exists k, hilogDataList (ex_insert (ex_buffer true) ex_new)
            = evict LOG_CORE k (hilogDataList (ex_buffer true)) ++
              [(3%nat, HilogData_of_msg ex_new)].
Proof.
  unfold ex_insert. destruct (Insert ex_limits (ex_buffer true) ex_new false) as [[[b' full] ret] ntf] eqn:E.
  pose proof (Insert_spec ex_limits (ex_buffer true) ex_new false b' full ret ntf ex_limits_ok (ex_buffer_ok true)
    ex_new_wf E) as H.
  rewrite ex_new_valid in H. destruct H as (k & _ & _ & _ & H).
  destruct full; [by destruct H as (_ & Hsk & _)|]. exists k. apply H.
Defined.

(** After a line has been stored, the occupancy counter of its buffer type
    is the number of bytes stored and stays below the limit, or at most at
    95% of it (up to a byte) plus the new line: a buffer never holds more
    than its limit and one line. *)
Theorem Insert_bound maxsz b msg isFull b' ret ntf :
  limits_ok maxsz -> buf_ok b -> msg_wf msg -> insert_invalid msg = false ->
  Insert maxsz b msg isFull = (b', false, ret, ntf) ->
  let bt := ConvertBufType (msg_type msg) in
  aget (sizeByType b') bt = tsize bt (hilogDataList b') /\
  tsize bt (hilogDataList b') <=
    Z.max (aget maxsz bt - 1) ((19 * aget maxsz bt + 20) / 20 + CONTENT_LEN msg).
Proof.
  intros Hlim Hb Hmsg Ev EI bt. destruct (insert_valid msg Hmsg Ev) as (Ht & Hs & Hty).
  destruct (Insert_cases maxsz b msg isFull b' false ret ntf Hlim Hb Hmsg Ev EI)
    as (k & Hb' & _ & _ & _ & _ & _ & Hl & _ & _ & Hbound). fold bt in Hl, Hbound.
  split; [by apply Hb', ConvertBufType_range|].
  destruct Hbound as [Hlt|H95]; [lia|].
  rewrite Hl, tsize_app, tsize_cons. change (tsize bt []) with 0. rewrite decide_True.
  - destruct (HilogData_of_msg_wf msg Hmsg Ht Hs ltac:(lia)) as (_ & Hc & _). simpl. rewrite Hc.
    Z.div_mod_to_equations. lia.
  - destruct (HilogData_of_msg_wf msg Hmsg Ht Hs ltac:(lia)) as (_ & _ & Hd). unfold in_buf, bt. simpl. by rewrite Hd.
Qed.

Lemma Insert_bound_witness :
  tsize LOG_CORE (hilogDataList (ex_insert (ex_buffer true) ex_new))
  <= Z.max (100 - 1) ((19 * 100 + 20) / 20 + 31).
Proof.
  assert (exists b' ret ntf, Insert ex_limits (ex_buffer true) ex_new false = (b', false, ret, ntf)) as (b' & ret & ntf & E).
  { eexists _, _, _. vm_compute. reflexivity. }
  unfold ex_insert. rewrite E. simpl fst.
  apply (Insert_bound ex_limits (ex_buffer true) ex_new false b' ret ntf ex_limits_ok (ex_buffer_ok true)
    ex_new_wf ex_new_valid E).
Defined.

(** ** Buffers that may not skip lines *)

Lemma IsItemUsed_reader rs id r pos :
  rs !! id = Some r -> r_pos r = pos -> IsItemUsed false rs pos = true.
Proof.
  intros Hr Hp. unfold IsItemUsed. apply existsb_exists. exists (id, r). split.
  - by apply list_elem_of_In, elem_of_map_to_list.
  - simpl. by apply bool_decide_eq_true.
Qed.

(** The drop loop never gets past a reader that waits at a line of the type. *)
Lemma drop_loop_noskip max bt p d id r l :
  forall sizes rs full sizes' rs' l',
  drop_loop false max bt sizes rs l = (full, sizes', rs', l') ->
  NoDup (ids l) -> (p, d) ∈ l -> in_buf bt (p, d) ->
  rs !! id = Some r -> r_pos r = it_node p ->
  drop_until p l' = drop_until p l.
Proof.
  induction l as [|[i e] l IH]; intros sizes rs full sizes' rs' l' H Hnd Hin Hbt Hr Hp; simpl in H.
  { by apply elem_of_nil in Hin. }
  apply NoDup_cons in Hnd as [Hi Hnd]. simpl in Hi.
  assert (i = p -> in_buf bt (i, e)) as Hsame.
  { intros ->. apply elem_of_cons in Hin as [[= <-]|Hin]; [done|].
    destruct Hi. apply (list_elem_of_fmap_2 fst) in Hin. exact Hin. }
  assert (i <> p -> (p, d) ∈ l) as Hrest.
  { intros Hne. apply elem_of_cons in Hin as [[= <- <-]|]; done. }
  destruct (over_threshold (aget sizes bt) max); simpl in H; [|by simplify_eq].
  destruct (Z.eqb_spec (ConvertBufType (d_type e)) bt) as [Ht|Ht]; simpl in H.
  - destruct (decide (i = p)) as [->|Hne].
    { unfold IsItemUsed in H. fold (IsItemUsed false rs (it_node p)) in H.
      rewrite (IsItemUsed_reader rs id r) in H by done. by simplify_eq. }
    destruct (existsb _ _); [by simplify_eq|].
    rewrite (IH _ _ _ _ _ _ H Hnd (Hrest Hne) Hbt); [simpl; by rewrite decide_False | | done].
    unfold OnDeleteItem. rewrite lookup_fmap, Hr. simpl. f_equal. unfold on_delete.
    rewrite decide_False; [done|]. rewrite Hp. congruence.
  - destruct (drop_loop false max bt sizes rs l) as [[[fl s] rs1] kept] eqn:E. simplify_eq.
    destruct (decide (i = p)) as [->|Hne]; [by destruct Ht; apply Hsame|].
    simpl. rewrite !decide_False by done. by eapply IH; eauto.
Qed.

Lemma Insert_noskip_pending maxsz b msg isFull b' full ret ntf id r p d :
  buf_ok b -> insert_invalid msg = false -> m_isSupportSkipLog b = false ->
  m_logReaders b !! id = Some r -> r_pos r = it_node p -> (p, d) ∈ hilogDataList b ->
  in_buf (ConvertBufType (msg_type msg)) (p, d) ->
  Insert maxsz b msg isFull = (b', full, ret, ntf) ->
  exists kept, drop_until p kept = drop_until p (hilogDataList b) /\
    hilogDataList b' = if full then kept else kept ++ [(next_id b, HilogData_of_msg msg)].
Proof.
  intros Hb Hv Hsk Hr Hp Hin Hbt EI. unfold Insert in EI. rewrite Hv in EI.
  match type of EI with context [if ?c then drop_loop _ _ _ _ _ _ else _] => destruct c end.
  - destruct (drop_loop _ _ _ _ _ _) as [[[fl sizes] rs] kept] eqn:E. rewrite Hsk in E.
    apply (drop_loop_noskip _ _ p d id r) in E; try done; [|apply Hb].
    exists kept. split; [done|]. destruct fl; by simplify_eq.
  - exists (hilogDataList b). split; [done|]. by simplify_eq.
Qed.

(** In a buffer that must not skip lines (the kernel log buffer), an
    insertion keeps every line that is pending for a reader waiting at a line
    of the inserted type: the reader's pending lines stay as they are, with
    the new line behind them unless the buffer reports that it is full, and
    no line is counted as missed. *)
Theorem noskip_reader_keeps_all maxsz b msg isFull b' full ret ntf id r p d :
  limits_ok maxsz -> buf_ok b -> msg_wf msg -> insert_invalid msg = false ->
  m_isSupportSkipLog b = false ->
  m_logReaders b !! id = Some r -> r_pos r = it_node p -> (p, d) ∈ hilogDataList b ->
  in_buf (ConvertBufType (msg_type msg)) (p, d) ->
  Insert maxsz b msg isFull = (b', full, ret, ntf) ->
  exists r', m_logReaders b' !! id = Some r' /\ r_skipped r' = r_skipped r /\
    pending_nodes (hilogDataList b') r' =
      pending_nodes (hilogDataList b) r ++ (if full then [] else [(next_id b, HilogData_of_msg msg)]).
Proof.
  intros Hlim Hb Hmsg Hv Hsk Hr Hp Hin Hbt EI.
  destruct (Insert_noskip_pending _ _ _ _ _ _ _ _ _ _ _ _ Hb Hv Hsk Hr Hp Hin Hbt EI) as (kept & Hk & Hl').
  destruct (Insert_cases maxsz b msg isFull b' full ret ntf Hlim Hb Hmsg Hv EI)
    as (k & _ & _ & _ & _ & _ & Hcase).
  pose proof (bo_readers _ Hb id r Hr) as [Hsr Hml]. rewrite Hp in Hml. destruct Hml as [Hml _].
  assert (filter (.∈ kept) (pending_nodes (hilogDataList b) r) = pending_nodes (hilogDataList b) r) as Hall.
  { apply list_filter_id. unfold pending_nodes. rewrite Hp. simpl. intros x Hx. rewrite <- Hk in Hx.
    by apply drop_until_sub in Hx. }
  assert (forall r1, follows (hilogDataList b) kept r r1 ->
    pending_nodes kept r1 = pending_nodes (hilogDataList b) r /\ r_skipped r1 = r_skipped r) as Hkeep.
  { intros r1 HF. pose proof (fl_pending _ _ _ _ HF) as Hpd. rewrite Hall in Hpd. split; [done|].
    destruct (fl_skipped _ _ _ _ HF) as (j & -> & Hj). rewrite Hpd in Hj.
    replace j with 0 by lia. rewrite Z.add_0_r. by apply wrapu_small. }
  destruct full.
  - destruct Hcase as (_ & _ & Hl & HF & _). rewrite <- Hl, Hl' in HF. specialize (HF id). rewrite Hr in HF.
    inversion HF as [? r' Hfo E1 E2|]; subst. exists r'. destruct (Hkeep r' Hfo) as [HP HS].
    by rewrite HP, app_nil_r.
  - destruct Hcase as (_ & Hl & HG & _). rewrite Hl' in Hl. apply app_inj_2 in Hl as [Hke _]; [|done]. rewrite <- Hke in HG.
    specialize (HG id). rewrite Hr in HG. inversion HG as [? r' Hri E1 E2|]; subst.
    destruct Hri as (r1 & HF & Hg). destruct (Hkeep r1 HF) as [HP HS]. exists r'. split; [done|]. split.
    + by rewrite (gr_skipped _ _ _ _ Hg).
    + by rewrite Hl', (gr_pending _ _ _ _ Hg), (fl_list _ _ _ _ HF), Hml, HP.
Qed.

Lemma noskip_reader_keeps_all_witness :
  let '(b', full, _, _) := Insert ex_limits (ex_buffer false) ex_new false in
  full = true /\ exists r', m_logReaders b' !! 7 = Some r' /\ length (pending_nodes (hilogDataList b') r') = 3%nat.
Proof.
  destruct (Insert ex_limits (ex_buffer false) ex_new false) as [[[b' full] ret] ntf] eqn:E.
  assert (full = true) as -> by (change full with (b', full, ret, ntf).1.1.2; rewrite <- E; by vm_compute).
  split; [done|].
  assert (m_logReaders (ex_buffer false) !! 7 = Some (mkBufferReader (it_node 0) true 0 true)) as Hr by (by vm_compute).
  assert ((0%nat, HilogData_of_msg (ex_msg LOG_CORE "first")) ∈ hilogDataList (ex_buffer false)) as Hin
    by (apply (bool_decide_unpack _); by vm_compute).
  destruct (noskip_reader_keeps_all ex_limits (ex_buffer false) ex_new false b' true ret ntf 7 _ _ _
    ex_limits_ok (ex_buffer_ok false) ex_new_wf ex_new_valid eq_refl Hr eq_refl Hin eq_refl E) as (r' & Hr' & _ & HP).
  exists r'. split; [done|]. rewrite HP, app_nil_r. by vm_compute.
Defined.

(** ** Reachable buffers *)

(** A buffer that gets a core and a prerelease line and loses the latter. *)
Lemma buffer_invariant_witness :
  let b0 := new_HilogBuffer (fun _ _ => 0) (fun _ => ex_clocks) ex_limits example_stats true in
  let b1 := (Insert ex_limits (Insert ex_limits b0.2 ex_new false).1.1.1 (ex_msg LOG_ONLY_PRERELEASE "beta") false).1.1.1 in
  state_ok (ex_limits, (Delete b1 LOG_ONLY_PRERELEASE).1, 0 + lost_bytes b1 LOG_ONLY_PRERELEASE) /\
  0 < lost_bytes b1 LOG_ONLY_PRERELEASE.
Proof.
  intros b0 b1. split; [|by vm_compute].
  assert (limits_ok ex_limits) as Hl by apply ex_limits_ok.
  apply (buffer_invariant ex_regex (fun _ => "") (fun _ _ => 0) (fun _ => ex_clocks) ex_limits example_stats true); [done|].
  eapply rtc_l; [apply (step_insert _ _ _ _ _ ex_new false), ex_new_wf|].
  eapply rtc_l; [apply (step_insert _ _ _ _ _ (ex_msg LOG_ONLY_PRERELEASE "beta") false); apply ex_msg_wf; by vm_compute|].
  apply rtc_once. by apply step_delete.
Defined.

(** ** The first query of a reader *)

Lemma tail_walk_all rs f l n count :
  Forall (fun m => LogMatchFilter rs f m.2 = Some true) (n :: l) -> 0 <= count ->
  exists i, i = Nat.min (Z.to_nat count) (length l) /\ tail_walk rs f count n l = (nth i (n :: l) n, true).
Proof.
  revert n count; induction l as [|p l IH]; intros n count Hall Hc; cbn [tail_walk].
  { exists 0%nat. split; [simpl; lia | done]. }
  apply Forall_cons in Hall as [Hn Hall]. eexists; split; [done|].
  destruct (Z.ltb_spec 0 count).
  - rewrite Hn. destruct (IH p (count - 1) Hall ltac:(lia)) as (i & -> & ->).
    replace (Z.to_nat count) with (S (Z.to_nat (count - 1))) by lia. simpl Nat.min. f_equal.
    change (nth (S ?i) (n :: p :: l) n) with (nth i (p :: l) n).
    apply nth_indep. simpl. lia.
  - replace count with 0 by lia. done.
Qed.

Lemma drop_until_lookup j (l : list node) n : NoDup (ids l) -> l !! j = Some n -> drop_until n.1 l = drop j l.
Proof.
  revert j; induction l as [|m l IH]; intros [|j] Hnd Hj; simplify_eq/=.
  - by rewrite decide_True.
  - apply NoDup_cons in Hnd as [Hm Hnd]. rewrite decide_False; [by apply IH|].
    intros Heq. apply Hm. rewrite Heq. apply list_elem_of_fmap_2. by eapply list_elem_of_lookup_2.
Qed.

(** The first query with a tail count [n] does not start [n] lines before
    the end of the buffer but [n + 1]: with a filter every stored line
    matches, it returns the line at distance [n + 1] from the end (the oldest
    line if there are fewer), so that the [n] lines a client then reads miss
    the newest one. *)
Theorem tail_starts_one_early rs b c f id r n d0 b' res :
  buf_ok b -> m_logReaders b !! id = Some r -> r_msgList r = false -> r_skipped r = 0 -> 0 < n ->
  hilogDataList b <> [] ->
  Forall (fun m => LogMatchFilter rs f m.2 = Some true) (hilogDataList b) ->
  Query rs b c f id n = (b', res) ->
  let l := hilogDataList b in
  res = QLine (nth (length l - Nat.min (S (Z.to_nat n)) (length l)) l.*2 d0).
Proof.
  intros Hb Hr Hml Hsk Hn Hne Hall HQ l.
  unfold Query, GetReader in HQ. rewrite Hr, Hml in HQ. unfold tail_pos in HQ. fold l in HQ, Hall, Hne.
  destruct (Z.eqb_spec n 0); [lia|].
  destruct (rev l) as [|m before] eqn:Erev.
  { destruct Hne. by rewrite <- (rev_involutive l), Erev. }
  assert (Forall (fun m => LogMatchFilter rs f m.2 = Some true) (m :: before)) as Hall'.
  { rewrite <- Erev. by apply Forall_rev. }
  destruct (tail_walk_all rs f before m n Hall' ltac:(lia)) as (i & Hi & Et). rewrite Et in HQ. simpl in HQ.
  assert (length l = S (length before)) as Hlen by (by rewrite <- length_rev, Erev).
  set (j := (length l - S i)%nat).
  assert (nth i (m :: before) m = nth j l m) as Hnth by (rewrite <- Erev; apply rev_nth; lia).
  assert (l !! j = Some (nth j l m)) as Hj by (destruct (nth_lookup_or_length l j m); [done | unfold j in *; lia]).
  change (match i with 0%nat => m | S k => nth k before m end) with (nth i (m :: before) m) in HQ.
  rewrite Hnth, Hsk in HQ. simpl in HQ. rewrite (drop_until_lookup j) in HQ by (done || apply Hb).
  rewrite (drop_S _ _ _ Hj) in HQ. simpl in HQ.
  destruct (nth j l m) as [x d] eqn:Ex. simpl in HQ.
  eapply Forall_forall in Hall; [|by eapply list_elem_of_lookup_2]. simpl in Hall. rewrite Hall in HQ.
  simplify_eq. f_equal. replace (length l - Nat.min (S (Z.to_nat n)) (length l))%nat with j by lia.
  symmetry. apply nth_lookup_Some. rewrite list_lookup_fmap, Hj. done.
Qed.

Lemma tail_starts_one_early_witness :
  (Query ex_regex (CreateBufReader (ex_buffer true) 8 true) ex_clocks ex_filter 8 1).2
  = QLine (HilogData_of_msg (ex_msg LOG_CORE ex_90)).
Proof.
  set (b := CreateBufReader (ex_buffer true) 8 true).
  destruct (Query ex_regex b ex_clocks ex_filter 8 1) as [b' res] eqn:E. simpl snd.
  assert (buf_ok b) as Hb by (apply CreateBufReader_ok, ex_buffer_ok).
  assert (m_logReaders b !! 8 = Some (mkBufferReader it_singular false 0 true)) as Hr by (by vm_compute).
  assert (hilogDataList b <> []) as Hne by (by vm_compute).
  assert (Forall (fun m => LogMatchFilter ex_regex ex_filter m.2 = Some true) (hilogDataList b)) as Hall
    by (apply (bool_decide_unpack _); by vm_compute).
  rewrite (tail_starts_one_early ex_regex b ex_clocks ex_filter 8 _ 1
    (HilogData_of_msg ex_new) b' res Hb Hr eq_refl eq_refl eq_refl Hne Hall E).
  by vm_compute.
Defined.

(** ** Delete *)

Lemma delete_loop_skipped t l id :
  forall sizes rs sum, r_skipped <$> (delete_loop t sizes rs sum l).1.1.2 !! id = r_skipped <$> rs !! id.
Proof.
  induction l as [|[i d] l IH]; intros sizes rs sum; cbn [delete_loop]; [done|].
  destruct (negb _).
  - specialize (IH sizes rs sum). by destruct (delete_loop t sizes rs sum l) as [[[? ?] ?] ?].
  - rewrite IH. unfold OnDeleteItem. rewrite lookup_fmap. destruct (rs !! id) as [r|]; [|done].
    simpl. unfold on_delete. by case_decide.
Qed.

Lemma Delete_skipped b t id :
  r_skipped <$> m_logReaders (Delete b t).1 !! id = r_skipped <$> m_logReaders b !! id.
Proof.
  unfold Delete. destruct (_ <=? _); [done|].
  pose proof (delete_loop_skipped t (hilogDataList b) id (sizeByType b) (m_logReaders b) 0) as H.
  by destruct (delete_loop _ _ _ _ _) as [[[? ?] ?] ?].
Qed.

(** [Delete] of a type removes exactly the lines of that type, in whatever
    positions they are, returns the number of bytes they occupied, and leaves
    every reader with what remains of its pending lines, counting none of
    them as missed; an undefined type is refused. *)
Theorem Delete_spec b t b' ret :
  buf_ok b -> 0 <= t -> Delete b t = (b', ret) ->
  if LOG_TYPE_MAX <=? t then b' = b /\ ret = ERR_LOG_TYPE_INVALID
  else
    let l := hilogDataList b in
    hilogDataList b' = filter (fun n => d_type n.2 <> t) l /\ ret = dsize t l /\
    (forall id, option_Forall2 (fun r r' => r_skipped r' = r_skipped r /\
       pending_nodes (hilogDataList b') r' = filter (fun n => d_type n.2 <> t) (pending_nodes l r))
       (m_logReaders b !! id) (m_logReaders b' !! id)).
Proof.
  intros Hb Ht H. destruct (Z.leb_spec LOG_TYPE_MAX t) as [Hge|Hlt].
  { unfold Delete in H. destruct (Z.leb_spec LOG_TYPE_MAX t); [|lia]. by simplify_eq. }
  destruct (Delete_cases b t b' ret Hb ltac:(lia) H) as (Hl & Hret & HF & _).
  split; [done|]. split; [done|]. intros id. specialize (HF id).
  pose proof (Delete_skipped b t id) as Hsk. rewrite H in Hsk. simpl in Hsk.
  inversion HF as [r r' Hfo E1 E2|E1 E2]; constructor. split.
  - rewrite <- E1, <- E2 in Hsk. by injection Hsk.
  - rewrite (fl_pending _ _ _ _ Hfo). apply list_filter_ext_in. intros x Hx.
    rewrite Hl, list_elem_of_filter. split; [tauto|]. intros. split; [done|]. by apply pending_sub in Hx.
Qed.

Lemma Delete_spec_witness :
  (Delete (ex_buffer true) LOG_CORE).2 = 97 /\ length (hilogDataList (Delete (ex_buffer true) LOG_CORE).1) = 1%nat.
Proof.
  destruct (Delete (ex_buffer true) LOG_CORE) as [b' ret] eqn:E.
  assert (0 <= LOG_CORE) as H0 by (by vm_compute).
  destruct (Delete_spec (ex_buffer true) LOG_CORE b' ret (ex_buffer_ok true) H0 E) as (Hl & -> & _).
  split; [by vm_compute | simpl fst; rewrite Hl; by vm_compute].
Defined.

(** No line is accounted to the prerelease type. *)
Lemma tsize_prerelease l : tsize LOG_ONLY_PRERELEASE l = 0.
Proof.
  induction l as [|n l IH]; [done|]. rewrite tsize_cons, IH, decide_False; [done|].
  unfold in_buf, ConvertBufType. by destruct (Z.eqb_spec (d_type n.2) LOG_ONLY_PRERELEASE).
Qed.

(** Removing the prerelease lines corrupts the occupancy counters.  Those
    lines are accounted to the core type, but [Delete] subtracts their bytes
    from the counter of the prerelease type, which is always zero: that
    counter wraps below zero, and the core counter keeps counting bytes that
    are no longer stored. *)
Theorem Delete_prerelease_miscounts b b' ret :
  buf_ok b -> 0 < dsize LOG_ONLY_PRERELEASE (hilogDataList b) ->
  Delete b LOG_ONLY_PRERELEASE = (b', ret) ->
  aget (sizeByType b') LOG_CORE =
    tsize LOG_CORE (hilogDataList b') + dsize LOG_ONLY_PRERELEASE (hilogDataList b) /\
  aget (sizeByType b') LOG_ONLY_PRERELEASE = 2 ^ 64 - dsize LOG_ONLY_PRERELEASE (hilogDataList b) /\
  ~ buf_ok b'.
Proof.
  intros Hb Hd H. pose proof (bo_lines _ Hb) as Hln.
  pose proof (dsize_range LOG_ONLY_PRERELEASE _ Hln) as Hr. change (ConvertBufType LOG_ONLY_PRERELEASE) with LOG_CORE in Hr.
  pose proof (bo_bound _ Hb LOG_CORE ltac:(done)) as Hbd.
  destruct (Delete_cases b LOG_ONLY_PRERELEASE b' ret Hb ltac:(done) H) as (Hl & _ & _ & _ & _ & _ & _ & Hs).
  set (D := dsize LOG_ONLY_PRERELEASE (hilogDataList b)) in *.
  assert (aget (sizeByType b') LOG_CORE = tsize LOG_CORE (hilogDataList b') + D) as Hcore.
  { rewrite Hs by done. rewrite decide_False by done. rewrite (bo_acc _ Hb) by done.
    rewrite Hl, tsize_without, decide_True by done. fold D. lia. }
  split; [done|]. split.
  - rewrite Hs, decide_True, (bo_acc _ Hb) by done.
    rewrite tsize_prerelease.
    unfold MAX_BUFFER_SIZE, MAX_LOG_LEN in Hbd. unfold wrapu.
    rewrite <- (Z.mod_unique_pos (0 - D) (2 ^ 64) (-1) (2 ^ 64 - D)); lia.
  - intros Hb'. pose proof (bo_acc _ Hb' LOG_CORE ltac:(done)) as Ha. lia.
Qed.

Definition ex_prerelease : HilogBuffer := ex_insert (ex_empty true) (ex_msg LOG_ONLY_PRERELEASE "beta").

Lemma Delete_prerelease_miscounts_witness :
  ~ buf_ok (Delete ex_prerelease LOG_ONLY_PRERELEASE).1 /\
  sizeByType (Delete ex_prerelease LOG_ONLY_PRERELEASE).1 = [0; 0; 0; 5; 0; 2 ^ 64 - 5].
Proof.
  assert (buf_ok ex_prerelease) as Hb.
  { apply Insert_ok; [apply ex_limits_ok | apply empty_ok | apply ex_msg_wf; by vm_compute]. }
  assert (0 < dsize LOG_ONLY_PRERELEASE (hilogDataList ex_prerelease)) as Hd by (by vm_compute).
  destruct (Delete ex_prerelease LOG_ONLY_PRERELEASE) as [b' ret] eqn:E.
  destruct (Delete_prerelease_miscounts ex_prerelease b' ret Hb Hd E) as (_ & _ & Hn).
  split; [done|]. change b' with (b', ret).1. rewrite <- E. by vm_compute.
Defined.

(** ** Buffer sizes *)

(** A size is accepted for a defined type exactly when it is within 64 KB
    and 16 MB, is then what [GetBuffLen] returns, and leaves the other types
    alone; a refused request changes nothing.  The size of the prerelease
    type is stored but has no effect: insertions behave as before whatever it
    is, because its lines are limited by the size of the core type. *)
Theorem buffer_sizes maxsz t sz :
  length maxsz = 6%nat -> 0 <= t -> 0 <= sz < 2 ^ 64 ->
  let '(maxsz', ret) := SetBuffLen maxsz t sz in
  (ret = RET_SUCCESS <-> t < LOG_TYPE_MAX /\ MIN_BUFFER_SIZE <= sz <= MAX_BUFFER_SIZE) /\
  (ret = RET_SUCCESS -> GetBuffLen maxsz' t = sz) /\
  (ret <> RET_SUCCESS -> maxsz' = maxsz) /\
  (forall t', 0 <= t' -> t' <> t -> GetBuffLen maxsz' t' = GetBuffLen maxsz t') /\
  (t = LOG_ONLY_PRERELEASE -> forall b msg isFull,
     0 <= msg_type msg -> Insert maxsz' b msg isFull = Insert maxsz b msg isFull).
Proof.
  intros Hlen Ht Hsz. unfold SetBuffLen, GetBuffLen.
  unfold LOG_TYPE_MAX, RET_SUCCESS, ERR_LOG_TYPE_INVALID, ERR_BUFF_SIZE_INVALID.
  destruct (Z.leb_spec 6 t) as [Hge|Hlt].
  { repeat split; try done; intros; lia. }
  destruct (_ || _) eqn:Er.
  { repeat split; try done; intros; lia. }
  split; [split; [intros _; lia | done]|]. split; [intros _; by apply aget_aset_eq; lia|]. split; [done|]. split.
  - intros t' Ht' Hne. by rewrite aget_aset_ne by lia.
  - intros -> b msg isFull Hm. unfold Insert. by rewrite !aget_aset_ne
      by (unfold ConvertBufType, LOG_ONLY_PRERELEASE, LOG_CORE; try case_goal; lia).
Qed.

Lemma buffer_sizes_witness :
  SetBuffLen g_maxBufferSizeByType LOG_APP 65536 = ([65536; 262144; 262144; 262144; 262144; 0], RET_SUCCESS) /\
  SetBuffLen g_maxBufferSizeByType LOG_APP 65535 = (g_maxBufferSizeByType, ERR_BUFF_SIZE_INVALID).
Proof.
  assert (0 <= 65535 < 2 ^ 64) as H by lia. assert (0 <= LOG_APP) as H0 by (by vm_compute).
  pose proof (buffer_sizes g_maxBufferSizeByType LOG_APP 65535 eq_refl H0 H) as H2.
  split; [by vm_compute|].
  destruct (SetBuffLen g_maxBufferSizeByType LOG_APP 65535) as [m r] eqn:E.
  destruct H2 as (_ & _ & Hsame & _).
  assert (r = ERR_BUFF_SIZE_INVALID) as -> by (change r with (m, r).2; rewrite <- E; by vm_compute).
  by rewrite Hsame.
Defined.
