(* ===== verification/LogBufferQueue.v ===== *)
(** * A reader of the log buffer is a queue

    [HilogBuffer] serves a reader through an iterator into the list that all
    readers and all types share.  Here the reader has a queue of its own, with
    no identities, no iterators and no other readers: the lines behind it, the
    lines in front of it and how many it is told it missed.  Whatever happens to
    the buffer, the answers of the two are the same. *)

From S2P Require Import Prelude Common TimeStamp Utils LogData LogStats LogBuffer LogBufferSpec LogBufferProps.
From Stdlib Require Import Ascii.

(** ** The queue *)

Record queue := mkQueue {
  q_sizes : list Z;              (* the occupancy counters *)
  q_attached : bool;             (* has queried *)
  q_callback : bool;
  q_seen : list HilogData;       (* stored lines behind the reader *)
  q_pending : list HilogData;    (* stored lines it has not seen *)
  q_missed : Z;                  (* uint32_t *)
}.

Abbreviation line_type d := (ConvertBufType (d_type d)).

(** How many of the oldest lines of type [bt] have to go until its counter is
    under the threshold, and the counter then. *)
Fixpoint room (max bt size : Z) (l : list HilogData) : nat * Z :=
  match l with
  | [] => (0%nat, size)
  | d :: l' =>
      if negb (over_threshold size max) then (0%nat, size)
      else if line_type d =? bt then let '(k, size') := room max bt (u64 (size - cLen d)) l' in (S k, size')
      else room max bt size l'
  end.

(** The lines without the first [k] of type [bt]. *)
Fixpoint forget (bt : Z) (k : nat) (l : list HilogData) : list HilogData :=
  match k, l with
  | O, _ | _, [] => l
  | S k', d :: l' => if line_type d =? bt then forget bt k' l' else d :: forget bt k l'
  end.

Definition type_count (bt : Z) (l : list HilogData) : nat := length (filter (fun d => line_type d = bt) l).

(** Of the first [k] lines of type [bt], those at the head of the queue. *)
Fixpoint head_run (bt : Z) (k : nat) (l : list HilogData) : nat :=
  match k, l with
  | S k', d :: l' => if line_type d =? bt then S (head_run bt k' l') else 0%nat
  | _, _ => 0%nat
  end.

(** The lines the buffer drops are the oldest ones; those at the head of the
    queue of an attached reader are counted.  The answer is the result of
    [Insert] and whether the reader is notified. *)
Definition q_insert (maxsz : list Z) (msg : HilogMsg) (q : queue) : queue * (Z * bool) :=
  if insert_invalid msg then (q, (0, false))
  else
    let bt := ConvertBufType (msg_type msg) in
    let size := aget (q_sizes q) bt in
    let '(k, size') :=
      if aget maxsz bt <=? u64 (CONTENT_LEN msg + size)
      then room (aget maxsz bt) bt size (q_seen q ++ q_pending q) else (0%nat, size) in
    let k' := (k - type_count bt (q_seen q))%nat in
    (mkQueue (aset (q_sizes q) bt (u64 (size' + CONTENT_LEN msg))) (q_attached q) (q_callback q)
       (forget bt k (q_seen q)) (forget bt k' (q_pending q) ++ [HilogData_of_msg msg])
       (if q_attached q then u32 (q_missed q + Z.of_nat (head_run bt k' (q_pending q))) else q_missed q),
     (CONTENT_LEN msg, q_attached q && q_callback q)).

(** The lines of one type go without being counted. *)
Definition q_delete (t : Z) (q : queue) : queue * Z :=
  if LOG_TYPE_MAX <=? t then (q, ERR_LOG_TYPE_INVALID)
  else
    let gone := filter (fun d => d_type d = t) (q_seen q ++ q_pending q) in
    (mkQueue (aset (q_sizes q) t (foldl (fun z d => u64 (z - cLen d)) (aget (q_sizes q) t) gone))
       (q_attached q) (q_callback q)
       (filter (fun d => d_type d <> t) (q_seen q)) (filter (fun d => d_type d <> t) (q_pending q)) (q_missed q),
     i32 (foldl (fun z d => u64 (z + cLen d)) 0 gone)).

Section queue.
Context (regex_search : string -> string -> option bool).

(** The first line the filter accepts; those in front of it are passed over. *)
Fixpoint take_line (f : LogFilter) (l : list HilogData) : list HilogData * QueryResult * list HilogData :=
  match l with
  | [] => ([], QNone, [])
  | d :: l' =>
      match LogMatchFilter regex_search f d with
      | None => ([d], QThrow, l')
      | Some true => ([d], QLine d, l')
      | Some false => let '(passed, res, rest) := take_line f l' in (d :: passed, res, rest)
      end
  end.

(** A reader that missed lines is told first. *)
Definition q_query (c : clocks) (f : LogFilter) (q : queue) : queue * QueryResult :=
  match (if q_missed q =? 0 then None else skip_notice c (q_missed q)) with
  | Some notice => (mkQueue (q_sizes q) true (q_callback q) (q_seen q) (q_pending q) 0, QLine notice)
  | None =>
      let '(passed, res, rest) := take_line f (q_pending q) in
      (mkQueue (q_sizes q) true (q_callback q) (q_seen q ++ passed) rest (q_missed q), res)
  end.

(** ** What happens to a buffer while one reader watches it *)

Inductive event :=
| EvInsert (msg : HilogMsg)
| EvQuery (c : clocks) (f : LogFilter)
| EvDelete (t : Z)
| EvResize (t sz : Z)
| EvOpen (id : Z) (cb : bool)                                      (* another reader *)
| EvClose (id : Z)
| EvRead (id : Z) (c : clocks) (f : LogFilter) (tailCount : Z).

Inductive answer := Stored (ret : Z) (notified : bool) | Got (res : QueryResult) | Removed (ret : Z) | Resized (ret : Z).

Definition event_ok (own : Z) (e : event) : Prop :=
  match e with
  | EvInsert msg => msg_wf msg
  | EvDelete t => 0 <= t
  | EvOpen id _ | EvClose id | EvRead id _ _ _ => id <> own
  | EvQuery _ _ | EvResize _ _ => True
  end.

Definition buffer_event (own : Z) (s : list Z * HilogBuffer) (e : event) : list Z * HilogBuffer * list answer :=
  let '(maxsz, b) := s in
  match e with
  | EvInsert msg =>
      let '(b', _, ret, ntf) := Insert maxsz b msg false in (maxsz, b', [Stored ret (bool_decide (own ∈ ntf))])
  | EvQuery c f => let '(b', res) := Query regex_search b c f own 0 in (maxsz, b', [Got res])
  | EvDelete t => let '(b', ret) := Delete b t in (maxsz, b', [Removed ret])
  | EvResize t sz => let '(maxsz', ret) := SetBuffLen maxsz t sz in (maxsz', b, [Resized ret])
  | EvOpen id cb => (maxsz, CreateBufReader b id cb, [])
  | EvClose id => (maxsz, RemoveBufReader b id, [])
  | EvRead id c f tailCount => (maxsz, (Query regex_search b c f id tailCount).1, [])
  end.

Definition queue_event (s : list Z * queue) (e : event) : list Z * queue * list answer :=
  let '(maxsz, q) := s in
  match e with
  | EvInsert msg => let '(q', (ret, ntf)) := q_insert maxsz msg q in (maxsz, q', [Stored ret ntf])
  | EvQuery c f => let '(q', res) := q_query c f q in (maxsz, q', [Got res])
  | EvDelete t => let '(q', ret) := q_delete t q in (maxsz, q', [Removed ret])
  | EvResize t sz => let '(maxsz', ret) := SetBuffLen maxsz t sz in (maxsz', q, [Resized ret])
  | EvOpen _ _ | EvClose _ | EvRead _ _ _ _ => (maxsz, q, [])
  end.

Fixpoint run {S} (step : S -> event -> S * list answer) (s : S) (evs : list event) : S * list answer :=
  match evs with
  | [] => (s, [])
  | e :: evs => let '(s, a) := step s e in let '(s, a') := run step s evs in (s, a ++ a')
  end.

(** The queue of a reader that has not queried yet: everything is in front of it. *)
Definition new_queue (b : HilogBuffer) (cb : bool) : queue := mkQueue (sizeByType b) false cb [] (hilogDataList b).*2 0.

(** The buffer [b] with the reader [own] looks to the reader like [q]. *)
Definition represents (own : Z) (b : HilogBuffer) (q : queue) : Prop :=
  exists r, m_logReaders b !! own = Some r /\ sizeByType b = q_sizes q /\ r_msgList r = q_attached q /\
    r_callback r = q_callback q /\ r_skipped r = q_missed q /\ (hilogDataList b).*2 = q_seen q ++ q_pending q /\
    if q_attached q then (pending_nodes (hilogDataList b) r).*2 = q_pending q else q_seen q = [].
End queue.

(** ** Dropped lines *)

Lemma aset_aget (l : list Z) i : 0 <= i < Z.of_nat (length l) -> aset l i (aget l i) = l.
Proof.
  intros Hi. unfold aset, aget. apply list_insert_id. destruct (nth_lookup_or_length l (Z.to_nat i) 0); [done | lia].
Qed.

Lemma aset_aset {A} (l : list A) i a b : aset (aset l i a) i b = aset l i b.
Proof. unfold aset. apply list_insert_insert_eq. Qed.

Lemma evict_forget bt k (l : list node) : (evict bt k l).*2 = forget bt k l.*2.
Proof.
  revert k; induction l as [|[i d] l IH]; intros [|k]; try done. cbn [evict forget fmap list_fmap]. unfold in_buf. simpl.
  case_decide as Hd; [rewrite (proj2 (Z.eqb_eq _ _) Hd) | rewrite (proj2 (Z.eqb_neq _ _) Hd); simpl; f_equal]; apply IH.
Qed.

Lemma evict_app bt k (s q : list node) :
  evict bt k (s ++ q) = evict bt k s ++ evict bt (k - type_count bt s.*2) q.
Proof.
  revert k; induction s as [|[i d] s IH]; intros k.
  { rewrite Nat.sub_0_r. by destruct k. }
  destruct k as [|k]; [by rewrite Nat.sub_0_l, !evict_0|]. unfold type_count. rewrite fmap_cons, filter_cons. cbn [snd].
  cbn [evict app]. unfold in_buf. cbn [snd]. repeat case_decide; try done. by rewrite (IH (S k)).
Qed.

Lemma filter_sublist {A} `{EqDecision A} (l s : list A) : NoDup l -> s `sublist_of` l -> filter (.∈ s) l = s.
Proof.
  intros Hnd Hs. revert Hnd. induction Hs as [|x s l Hs IH|x s l Hs IH]; intros Hnd; [done|..]; apply NoDup_cons in Hnd as [Hx Hnd].
  - rewrite filter_cons_True by left. f_equal. etransitivity; [|by apply IH]. apply list_filter_ext_in. intros y Hy.
    rewrite elem_of_cons. split; [intros [->|]; done | by right].
  - rewrite filter_cons_False; [by apply IH|]. intros H. apply Hx. by eapply elem_of_sublist.
Qed.

(** What is left of the lines in front of a reader. *)
Lemma filter_evict bt k (s q : list node) :
  NoDup (ids (s ++ q)) -> filter (.∈ evict bt k (s ++ q)) q = evict bt (k - type_count bt s.*2) q.
Proof.
  intros Hnd. rewrite evict_app. apply NoDup_fmap_1 in Hnd. apply NoDup_app in Hnd as (_ & Hdis & Hq).
  etransitivity; [|apply filter_sublist, evict_sublist; done].
  apply list_filter_ext_in. intros n Hn. rewrite elem_of_app. split; [intros [H|]; [|done] | by right].
  exfalso. apply (Hdis n); [|done]. by eapply elem_of_sublist; [|apply evict_sublist].
Qed.

(** The list and the counters after the loop of [Insert]. *)
Lemma drop_loop_lines max bt l :
  forall sizes rs, 0 <= bt < Z.of_nat (length sizes) ->
  let '(k, size) := room max bt (aget sizes bt) l.*2 in
  exists rs', drop_loop true max bt sizes rs l = (false, aset sizes bt size, rs', evict bt k l).
Proof.
  induction l as [|[i d] l IH]; intros sizes rs Hbt; cbn [room drop_loop fmap list_fmap].
  { rewrite aset_aget by done. by eexists. }
  cbn [snd]. destruct (over_threshold (aget sizes bt) max); cbn [negb]; [|rewrite aset_aget by done; by eexists].
  destruct (Z.eqb_spec (ConvertBufType (d_type d)) bt) as [E|E]; cbn [negb IsItemUsed].
  - rewrite E. specialize (IH (aset sizes bt (u64 (aget sizes bt - cLen d))) (OnDeleteItem (it_node i) (begin l) BUFF_OVERFLOW rs)).
    rewrite aset_length, aget_aset_eq in IH by done. specialize (IH Hbt). destruct (room _ _ _ _) as [k size].
    destruct IH as (rs' & ->). rewrite aset_aset. exists rs'. cbn [evict]. by rewrite decide_True by done.
  - specialize (IH sizes rs Hbt). destruct (room _ _ _ _) as [k size]. destruct IH as (rs' & ->). exists rs'.
    destruct k; [by rewrite !evict_0|]. cbn [evict]. by rewrite decide_False by done.
Qed.

(** Readers that are not at one of the lines of the loop stay as they are. *)
Lemma drop_loop_away max bt own r l :
  forall sizes rs, rs !! own = Some r -> (forall i, r_pos r = it_node i -> i ∉ ids l) ->
  (drop_loop true max bt sizes rs l).1.2 !! own = Some r.
Proof.
  induction l as [|[i d] l IH]; intros sizes rs Hr Hp; cbn [drop_loop]; [done|].
  assert (forall j, r_pos r = it_node j -> j <> i /\ j ∉ ids l) as Hp'.
  { intros j Hj. specialize (Hp j Hj). rewrite fmap_cons, not_elem_of_cons in Hp. done. }
  destruct (negb (over_threshold _ _)); [done|]. destruct (negb _); cbn [IsItemUsed].
  - specialize (IH sizes rs Hr ltac:(intros; by apply Hp')). by destruct (drop_loop _ _ _ _ _ _) as [[[? ?] ?] ?].
  - apply IH; [|intros; by apply Hp']. unfold OnDeleteItem. rewrite lookup_fmap, Hr. cbn. f_equal. unfold on_delete.
    rewrite decide_False; [done|]. intros E. by destruct (Hp' i E).
Qed.

(** A reader in front of the lines [q] counts those of them that are dropped
    before one stays. *)
Lemma drop_loop_missed_head max bt own q :
  forall sizes rs r, 0 <= bt < Z.of_nat (length sizes) -> NoDup (ids q) ->
  rs !! own = Some r -> r_pos r = begin q -> 0 <= r_skipped r < 2 ^ 32 ->
  r_skipped <$> (drop_loop true max bt sizes rs q).1.2 !! own =
  Some (u32 (r_skipped r + Z.of_nat (head_run bt (room max bt (aget sizes bt) q.*2).1 q.*2))).
Proof.
  induction q as [|[i d] q IHq]; intros sizes rs r Hbt Hnd Hr Hp Hsk.
  { rewrite drop_loop_away with (r := r) by (done || by rewrite Hp). cbn. by rewrite Z.add_0_r, wrapu_small. }
  rewrite fmap_cons in Hnd. apply NoDup_cons in Hnd as [Hi Hnd]. cbn [drop_loop fmap list_fmap room]. cbn [snd].
  destruct (over_threshold (aget sizes bt) max) eqn:Eo; cbn [negb]; [|cbn; by rewrite Hr, Z.add_0_r; cbn; rewrite wrapu_small].
  destruct (Z.eqb_spec (ConvertBufType (d_type d)) bt) as [E|E]; cbn [negb IsItemUsed].
  - rewrite E. set (sizes1 := aset _ _ _). set (rs1 := OnDeleteItem _ _ _ rs).
    assert (rs1 !! own = Some (mkBufferReader (begin q) (r_msgList r) (u32 (r_skipped r + 1)) (r_callback r))) as Hr1.
    { unfold rs1, OnDeleteItem. rewrite lookup_fmap, Hr. cbn. f_equal. unfold on_delete. by rewrite decide_True. }
    specialize (IHq sizes1 rs1 _ ltac:(by unfold sizes1; rewrite aset_length) Hnd Hr1 eq_refl ltac:(apply wrapu_range; lia)).
    rewrite IHq. unfold sizes1. rewrite aget_aset_eq by done.
    destruct (room max bt (u64 _) _) as [k size]. cbn [fst head_run]. rewrite E, Z.eqb_refl. f_equal.
    cbn [r_skipped]. rewrite wrapu_add_l. f_equal. lia.
  - pose proof (drop_loop_away max bt own r q sizes rs Hr) as Haw. rewrite Hp in Haw.
    specialize (Haw ltac:(by intros ? [= <-])). destruct (drop_loop true max bt sizes rs q) as [[[? ?] ?] ?].
    cbn [fst snd] in *. rewrite Haw. cbn. f_equal. replace (head_run _ _ _) with 0%nat; [by rewrite Z.add_0_r, wrapu_small|].
    destruct (room _ _ _ _) as [[|k] ?]; [done|]. cbn [fst head_run]. by rewrite (proj2 (Z.eqb_neq _ _) E).
Qed.

Lemma drop_loop_missed max bt own n q s :
  forall sizes rs r, 0 <= bt < Z.of_nat (length sizes) -> NoDup (ids (s ++ n :: q)) ->
  rs !! own = Some r -> r_pos r = it_node n.1 -> 0 <= r_skipped r < 2 ^ 32 ->
  let k := (room max bt (aget sizes bt) (s ++ n :: q).*2).1 in
  r_skipped <$> (drop_loop true max bt sizes rs (s ++ n :: q)).1.2 !! own =
  Some (u32 (r_skipped r + Z.of_nat (head_run bt (k - type_count bt s.*2) (n :: q).*2))).
Proof.
  induction s as [|[j e] s IH]; intros sizes rs r Hbt Hnd Hr Hp Hsk; cbn zeta.
  { rewrite Nat.sub_0_r. by apply drop_loop_missed_head. }
  cbn [app fmap list_fmap] in *. apply NoDup_cons in Hnd as [Hj Hnd]. cbn [drop_loop room snd fst] in *.
  destruct (over_threshold (aget sizes bt) max) eqn:Eo; cbn [negb]; [|cbn; by rewrite Hr, Z.add_0_r; cbn; rewrite wrapu_small].
  unfold type_count. rewrite filter_cons.
  destruct (Z.eqb_spec (ConvertBufType (d_type e)) bt) as [E|E]; cbn [negb IsItemUsed].
  - rewrite decide_True by done. rewrite E. set (sizes1 := aset _ _ _). set (rs1 := OnDeleteItem _ _ _ rs).
    assert (rs1 !! own = Some r) as Hr1.
    { unfold rs1, OnDeleteItem. rewrite lookup_fmap, Hr. cbn. f_equal. unfold on_delete. rewrite decide_False; [done|].
      rewrite Hp. intros [= Enj]. apply Hj. rewrite <- Enj, fmap_app, fmap_cons. apply elem_of_app. right. left. }
    specialize (IH sizes1 rs1 r ltac:(by unfold sizes1; rewrite aset_length) Hnd Hr1 Hp Hsk). cbn zeta in IH. rewrite IH.
    unfold sizes1. rewrite aget_aset_eq by done. by destruct (room max bt (u64 _) _) as [k size].
  - rewrite decide_False by done. specialize (IH sizes rs r Hbt Hnd Hr Hp Hsk). cbn zeta in IH.
    by destruct (drop_loop true max bt sizes rs _) as [[[? ?] ?] ?].
Qed.

(** ** The operations *)

Lemma pending_split b r : exists s, hilogDataList b = s ++ pending_nodes (hilogDataList b) r.
Proof. apply from_pos_suffix. Qed.

(** The node an attached reader is at. *)
Lemma attached_pos l r n q :
  reader_ok l r -> r_msgList r = true -> pending_nodes l r = n :: q -> r_pos r = it_node n.1.
Proof.
  intros [_ Hr] Hml Hp. unfold pending_nodes in Hp. destruct (r_pos r) as [|i|]; [done| |done]. f_equal.
  cbn in Hp. revert Hp. clear. induction l as [|m l IH]; cbn; [done|]. case_decide; [congruence | done].
Qed.

Lemma attached_end l r :
  reader_ok l r -> r_msgList r = true -> pending_nodes l r = [] -> r_pos r = it_end.
Proof.
  intros [_ Hr] Hml Hp. unfold pending_nodes in Hp. destruct (r_pos r) as [|i|]; [congruence| |done].
  destruct Hr as [_ Hin]. cbn in Hp. exfalso. revert Hin Hp. clear. induction l as [|m l IH]; cbn; [by intros ?%elem_of_nil|].
  intros Hin. case_decide; [done|]. apply IH. apply elem_of_cons in Hin as [->|]; done.
Qed.

(** What the dropping loop counts for a reader. *)
Lemma drop_loop_count max bt own s r sizes rs l :
  0 <= bt < Z.of_nat (length sizes) -> NoDup (ids l) -> rs !! own = Some r -> reader_ok l r ->
  l = s ++ pending_nodes l r ->
  let k := (room max bt (aget sizes bt) l.*2).1 in
  r_skipped <$> (drop_loop true max bt sizes rs l).1.2 !! own =
  Some (if r_msgList r then u32 (r_skipped r + Z.of_nat (head_run bt (k - type_count bt s.*2) (pending_nodes l r).*2))
        else r_skipped r).
Proof.
  intros Hbt Hnd Hr Hok Hl k. unfold k. destruct (r_msgList r) eqn:Hml.
  - destruct (pending_nodes l r) as [|n q] eqn:Hp.
    + pose proof (attached_end l r Hok Hml Hp) as Hpos.
      rewrite drop_loop_away with (r := r) by (done || by rewrite Hpos). destruct Hok as [Hsk _].
      replace (head_run _ _ _) with 0%nat by (by destruct (_ - _)%nat). cbn. by rewrite Z.add_0_r, wrapu_small.
    + pose proof (attached_pos l r n q Hok Hml Hp) as Hpos. rewrite Hl in Hnd |- *. apply drop_loop_missed; try done. apply Hok.
  - destruct Hok as [_ Hok]. rewrite drop_loop_away with (r := r); [done|done|]. intros i Hi. rewrite Hi in Hok.
    destruct Hok as [Hok _]. congruence.
Qed.

Section refine.
Context (regex_search : string -> string -> option bool).

(** The buffers of the theorem: well formed, and allowed to skip lines. *)
Definition served (own : Z) (b : HilogBuffer) (q : queue) : Prop :=
  buf_wf b /\ m_isSupportSkipLog b = true /\ represents own b q.

(** The first half of [Insert]. *)
Lemma insert_room own maxsz b bt sz r s :
  buf_wf b -> m_isSupportSkipLog b = true -> 0 <= bt < LOG_TYPE_MAX ->
  m_logReaders b !! own = Some r -> hilogDataList b = s ++ pending_nodes (hilogDataList b) r ->
  let l := hilogDataList b in
  let size := aget (sizeByType b) bt in
  let '(k, size') := if aget maxsz bt <=? u64 (sz + size) then room (aget maxsz bt) bt size l.*2 else (0%nat, size) in
  exists rs r1,
    (if aget maxsz bt <=? u64 (sz + size)
     then drop_loop (m_isSupportSkipLog b) (aget maxsz bt) bt (sizeByType b) (m_logReaders b) l
     else (false, sizeByType b, m_logReaders b, l)) = (false, aset (sizeByType b) bt size', rs, evict bt k l) /\
    readers_follow l (evict bt k l) (m_logReaders b) rs /\ rs !! own = Some r1 /\
    r_skipped r1 = if r_msgList r then u32 (r_skipped r + Z.of_nat (head_run bt (k - type_count bt s.*2) (pending_nodes l r).*2))
                   else r_skipped r.
Proof.
  intros Hw Hsk Hbt Hr Hl l size. pose proof Hw as [Hlen Hnd _ _ Hrd]. unfold LOG_TYPE_MAX in Hbt.
  pose proof (Hrd own r Hr) as Hok. destruct (_ <=? _).
  - rewrite Hsk. pose proof (drop_loop_lines (aget maxsz bt) bt l (sizeByType b) (m_logReaders b) ltac:(lia)) as H.
    pose proof (drop_loop_count (aget maxsz bt) bt own s r (sizeByType b) (m_logReaders b) l ltac:(lia) Hnd Hr Hok Hl) as Hc.
    fold size in H, Hc. destruct (room (aget maxsz bt) bt size l.*2) as [k size']. destruct H as (rs & E). rewrite E in Hc.
    cbn [fst snd] in Hc. destruct (rs !! own) as [r1|] eqn:Er1; [|done]. injection Hc as Hc.
    exists rs, r1. split_and!; try done. by destruct (drop_loop_follow _ _ _ _ [] _ _ _ _ _ _ E Hnd Hrd).
  - exists (m_logReaders b), r. rewrite aset_aget, evict_0 by lia. split_and!; try done; [by apply readers_follow_refl|].
    destruct (r_msgList r); [|done]. destruct Hok as [Hs _]. cbn. by rewrite Z.add_0_r, wrapu_small.
Qed.

Lemma OnNewItem_own (rs : gmap Z BufferReader) own r :
  rs !! own = Some r -> bool_decide (own ∈ OnNewItem rs) = r_msgList r && r_callback r.
Proof.
  intros Hr. apply Bool.eq_iff_eq_true. rewrite bool_decide_eq_true, andb_true_iff. unfold OnNewItem. rewrite elem_of_dom. split.
  - intros [r' [Hr' Hp]%map_lookup_filter_Some]. rewrite Hr in Hr'. by injection Hr' as <-.
  - intros Hp. exists r. apply map_lookup_filter_Some. done.
Qed.

(** The second half: the line is appended. *)
Lemma pushed_served own b q r r1 rs s bt k sizes d st :
  served own b q -> m_logReaders b !! own = Some r -> hilogDataList b = s ++ pending_nodes (hilogDataList b) r ->
  length sizes = 6%nat -> data_wf d ->
  readers_follow (hilogDataList b) (evict bt k (hilogDataList b)) (m_logReaders b) rs -> rs !! own = Some r1 ->
  r_skipped r1 = (if r_msgList r then u32 (r_skipped r + Z.of_nat (head_run bt (k - type_count bt s.*2) (pending_nodes (hilogDataList b) r).*2))
                  else r_skipped r) ->
  let k' := (k - type_count bt (q_seen q))%nat in
  served own
    (mkHilogBuffer sizes (evict bt k (hilogDataList b) ++ [(next_id b, d)]) (S (next_id b))
       (OnPushBackedItem (it_node (next_id b)) rs) st true)
    (mkQueue sizes (q_attached q) (q_callback q) (forget bt k (q_seen q)) (forget bt k' (q_pending q) ++ [d])
       (if q_attached q then u32 (q_missed q + Z.of_nat (head_run bt k' (q_pending q))) else q_missed q)).
Proof.
  intros (Hw & Hsk & Hrep) Hr Hs Hlen Hd HF Hr1 Hm1 k'. pose proof Hrep as (r0 & Hr0 & _ & Hml & Hcb & Hmi & Hl & Hp).
  rewrite Hr in Hr0. injection Hr0 as <-. pose proof Hw as [_ Hnd Hfr Hln _].
  pose proof (evict_sublist bt k (hilogDataList b)) as Hsub. pose proof (sublist_Forall _ _ _ Hsub Hfr) as Hfr'.
  destruct (fresh_push (evict bt k (hilogDataList b)) (next_id b) d) as (Hnd2 & Hfr2 & Hln2); [|done|by eapply sublist_Forall|done|].
  { eapply sublist_NoDup; [exact Hnd | by apply fmap_sublist]. }
  destruct (readers_push _ _ (next_id b, d) _ rs HF (fresh_not_in _ _ Hfr')) as [_ Hrk].
  pose proof (HF own) as HFo. rewrite Hr, Hr1 in HFo. inversion HFo as [? ? [Hf1 Hf2 Hf3 Hf4 _]|]; subst.
  pose proof (on_push_grows (evict bt k (hilogDataList b)) (next_id b, d) r1 (fresh_not_in _ _ Hfr') Hf3) as [Hg1 Hg2 Hg3 Hg4 Hg5].
  split; [by split|]. split; [done|]. exists (on_push (it_node (next_id b)) r1). cbn [m_logReaders sizeByType hilogDataList q_sizes
    q_attached q_callback q_seen q_pending q_missed fst] in *.
  split; [unfold OnPushBackedItem; by rewrite lookup_fmap, Hr1|]. split; [done|]. split; [congruence|]. split; [congruence|].
  rewrite Hg3, Hm1, Hml, Hg5, Hf1, Hml, Hf4. unfold k'. destruct (q_attached q).
  - assert (s.*2 = q_seen q) as Hsn by (rewrite Hs, fmap_app, Hp in Hl at 1; by apply app_inv_tail in Hl).
    rewrite <- Hsn, <- Hp, <- Hmi. split; [done|]. rewrite Hs at 1. rewrite evict_app, !fmap_app, !evict_forget.
    split; [by rewrite <- app_assoc|]. pose proof (filter_evict bt k s (pending_nodes (hilogDataList b) r)) as HFE.
    rewrite <- Hs in HFE. by rewrite HFE, evict_forget.
  - rewrite Hp in *. split; [done|]. unfold type_count. cbn. rewrite Nat.sub_0_r, fmap_app, evict_forget, Hl.
    split; by destruct k.
Qed.

Lemma insert_refines own maxsz b q msg b' full ret ntf :
  served own b q -> msg_wf msg -> Insert maxsz b msg false = (b', full, ret, ntf) ->
  served own b' (q_insert maxsz msg q).1 /\ (q_insert maxsz msg q).2 = (ret, bool_decide (own ∈ ntf)).
Proof.
  intros Hserved Hmsg EI. pose proof Hserved as (Hw & Hsk & r & Hr & Hsz & Hml & Hcb & Hmi & Hl & _).
  unfold Insert in EI. unfold q_insert. destruct (insert_invalid msg) eqn:Hv; [by simplify_eq|].
  destruct (insert_valid msg Hmsg Hv) as (Htag & Hlen & Hty).
  destruct (HilogData_of_msg_wf msg Hmsg Htag Hlen ltac:(lia)) as (Hdwf & _ & _).
  pose proof (ConvertBufType_range _ Hty) as Hbt. set (bt := ConvertBufType (msg_type msg)) in *.
  destruct (pending_split b r) as [s0 Hs0].
  pose proof (insert_room own maxsz b bt (CONTENT_LEN msg) r s0 Hw Hsk Hbt Hr Hs0) as HR. cbn zeta in HR.
  rewrite <- Hsz, <- Hl. destruct (if aget maxsz bt <=? _ then room _ _ _ _ else _) as [k size'].
  destruct HR as (rs & r1 & E & HF & Hr1 & Hsk1). rewrite E, aset_aset, Hsk in EI. cbn zeta in EI.
  pose proof Hw as [Hlen6 _ _ _ _]. rewrite aget_aset_eq in EI by (unfold LOG_TYPE_MAX in Hbt; lia). injection EI as <- <- <- <-.
  cbn [fst snd]. split; [by apply pushed_served with (r := r) (r1 := r1) (s := s0); rewrite ?aset_length|].
  assert (OnPushBackedItem (it_node (next_id b)) rs !! own = Some (on_push (it_node (next_id b)) r1)) as Ho
    by (unfold OnPushBackedItem; by rewrite lookup_fmap, Hr1).
  pose proof (HF own) as HFo. rewrite Hr, Hr1 in HFo. inversion HFo as [? ? [Hf1 Hf2 _ _ _]|]; subst.
  f_equal. rewrite (OnNewItem_own _ _ _ Ho). unfold on_push. by case_decide; cbn; rewrite Hf1, Hf2, Hml, Hcb.
Qed.

(** *** Delete *)

Lemma delete_loop_counters t l :
  forall sizes rs sum, 0 <= t < Z.of_nat (length sizes) ->
  let gone := filter (fun d => d_type d = t) l.*2 in
  (delete_loop t sizes rs sum l).1.1.1 = aset sizes t (foldl (fun z d => u64 (z - cLen d)) (aget sizes t) gone) /\
  (delete_loop t sizes rs sum l).1.2 = foldl (fun z d => u64 (z + cLen d)) sum gone.
Proof.
  induction l as [|[i d] l IH]; intros sizes rs sum Ht; cbn [delete_loop fmap list_fmap]; cbn zeta.
  { cbn. by rewrite aset_aget. }
  rewrite filter_cons. cbn [snd]. destruct (Z.eqb_spec (d_type d) t) as [->|Hne]; cbn [negb].
  - rewrite decide_True by done. cbn [foldl].
    destruct (IH (aset sizes t (u64 (aget sizes t - cLen d))) (OnDeleteItem (it_node i) (begin l) CMD_CLEAR rs) (u64 (sum + cLen d)))
      as [-> ->]; [by rewrite aset_length|]. by rewrite aset_aset, aget_aset_eq.
  - rewrite decide_False by done. specialize (IH sizes rs sum Ht). by destruct (delete_loop t sizes rs sum l) as [[[? ?] ?] ?].
Qed.

Lemma fmap_filter_type t (l : list node) :
  (filter (fun n : node => d_type n.2 <> t) l).*2 = filter (fun d => d_type d <> t) l.*2.
Proof. induction l as [|n l IH]; [done|]. rewrite fmap_cons, !filter_cons. repeat case_decide; try done. cbn. by rewrite IH. Qed.

Lemma delete_refines own b q t b' ret :
  served own b q -> 0 <= t -> Delete b t = (b', ret) -> served own b' (q_delete t q).1 /\ (q_delete t q).2 = ret.
Proof.
  intros (Hw & Hsk & r & Hr & Hsz & Hml & Hcb & Hmi & Hl & Hp) H0 E. unfold q_delete.
  destruct (Z.leb_spec LOG_TYPE_MAX t) as [Hge|Hlt].
  { unfold Delete in E. destruct (Z.leb_spec LOG_TYPE_MAX t); [|lia]. simplify_eq. split; [|done]. split; [done|]. split; [done|]. by exists r. }
  destruct (Delete_lines b t b' ret Hw ltac:(lia) E) as (Hw' & Hl' & HF & Hsk').
  pose proof (Delete_skipped b t own) as Hm. rewrite E, Hr in Hm. cbn [fst] in Hm.
  pose proof Hw as [Hlen _ _ _ _]. unfold LOG_TYPE_MAX in Hlt.
  destruct (delete_loop_counters t (hilogDataList b) (sizeByType b) (m_logReaders b) 0 ltac:(lia)) as [Hs Hsum].
  unfold Delete in E. destruct (Z.leb_spec LOG_TYPE_MAX t); [unfold LOG_TYPE_MAX in *; lia|].
  destruct (delete_loop _ _ _ _ _) as [[[sizes rs] sum] l'] eqn:Ed. cbn [fst snd] in Hs, Hsum. rewrite Hl, Hsz in Hs. rewrite Hl in Hsum. simplify_eq.
  cbn [hilogDataList m_logReaders sizeByType fst snd] in *. split; [|done]. split; [done|]. split; [congruence|].
  pose proof (HF own) as HFo. rewrite Hr in HFo. inversion HFo as [? r' [Hf1 Hf2 _ Hf4 _] E1 E2|]; subst.
  rewrite <- E2 in Hm. injection Hm as Hm. exists r'.
  cbn [fst m_logReaders sizeByType hilogDataList q_sizes q_attached q_callback q_seen q_pending q_missed]. split_and!; try done; try congruence.
  - by rewrite fmap_filter_type, Hl, filter_app.
  - rewrite Hf4. destruct (q_attached q); [|by rewrite Hp].
    rewrite <- Hp, <- fmap_filter_type. f_equal. apply list_filter_ext_in. intros n Hn.
    rewrite list_elem_of_filter. split; [tauto|]. split; [done|]. by apply pending_sub in Hn.
Qed.

(** *** Query *)

Lemma scan_take f l :
  let '(passed, res, rest) := take_line regex_search f l.*2 in
  exists s p, l = s ++ p /\ s.*2 = passed /\ p.*2 = rest /\ scan regex_search f l = (begin p, res).
Proof.
  induction l as [|[i d] l IH]; cbn [take_line scan fmap list_fmap]; [by exists [], []|]. cbn [snd].
  destruct (LogMatchFilter regex_search f d) as [[]|].
  - by exists [(i, d)], l.
  - destruct (take_line regex_search f l.*2) as [[passed res] rest]. destruct IH as (s & p & -> & <- & <- & E).
    by exists ((i, d) :: s), p.
  - by exists [(i, d)], l.
Qed.

Lemma query_refines own b q c f b' res :
  served own b q -> Query regex_search b c f own 0 = (b', res) ->
  served own b' (q_query regex_search c f q).1 /\ (q_query regex_search c f q).2 = res.
Proof.
  intros (Hw & Hsk & r & Hr & Hsz & Hml & Hcb & Hmi & Hl & Hp) E.
  pose proof (Query_wf regex_search b c f own 0 Hw) as Hw'. rewrite E in Hw'. cbn [fst] in Hw'.
  unfold Query, GetReader in E. rewrite Hr in E. unfold tail_pos in E. cbn [Z.eqb] in E.
  set (r1 := mkBufferReader (if r_msgList r then r_pos r else begin (hilogDataList b)) true (r_skipped r) (r_callback r)).
  assert ((if r_msgList r then (r, true) else (mkBufferReader (begin (hilogDataList b)) true (r_skipped r) (r_callback r), true)) = (r1, true)) as E1
    by (unfold r1; destruct r as [? [] ? ?]; done).
  rewrite E1 in E. cbn [negb] in E.
  assert (exists s, hilogDataList b = s ++ from_pos (r_pos r1) (hilogDataList b) /\ s.*2 = q_seen q /\
    (from_pos (r_pos r1) (hilogDataList b)).*2 = q_pending q) as (s & Hs & Hss & Hsp).
  { destruct (from_pos_suffix (r_pos r1) (hilogDataList b)) as [s Hs]. exists s. split; [done|]. unfold r1 in *. cbn [r_pos] in *.
    assert ((from_pos (if r_msgList r then r_pos r else begin (hilogDataList b)) (hilogDataList b)).*2 = q_pending q) as Hpe.
    { rewrite Hml. destruct (q_attached q); [done|]. by rewrite from_begin, Hl, Hp. }
    split; [|done]. rewrite Hs, fmap_app, Hpe in Hl. by apply app_inv_tail in Hl. }
  unfold q_query. rewrite <- Hmi. change (r_skipped r1) with (r_skipped r) in E.
  destruct (if r_skipped r =? 0 then None else skip_notice c (r_skipped r)) as [notice|].
  - injection E as <- <-. split; [|done]. split; [done|]. split; [done|]. eexists. cbn. rewrite lookup_insert_eq. by split_and!.
  - pose proof (scan_take f (from_pos (r_pos r1) (hilogDataList b))) as Hst. rewrite Hsp in Hst.
    destruct (take_line regex_search f (q_pending q)) as [[passed res0] rest]. destruct Hst as (s1 & p & Hsplit & Hs1 & Hp1 & Es).
    rewrite Es in E. injection E as <- <-. split; [|done]. split; [done|]. split; [done|]. eexists. cbn. rewrite lookup_insert_eq.
    split_and!; try done.
    + by rewrite Hl, <- Hsp, Hsplit, fmap_app, Hs1, Hp1, app_assoc.
    + unfold pending_nodes. cbn [r_pos]. rewrite Hs, Hsplit, app_assoc, from_begin_suffix; [done|].
      rewrite <- app_assoc, <- Hsplit, <- Hs. apply Hw.
Qed.

(** *** Other readers *)

Lemma query_other own id b c f tailCount :
  id <> own -> m_logReaders (Query regex_search b c f id tailCount).1 !! own = m_logReaders b !! own.
Proof.
  intros Hne. unfold Query, GetReader. destruct (m_logReaders b !! id) as [r|]; [|done].
  destruct (if r_msgList r then _ else _) as [r1 []]; cbn [negb]; [|cbn; by rewrite lookup_insert_ne].
  destruct (if r_skipped r1 =? 0 then _ else _); [cbn; by rewrite lookup_insert_ne|].
  destruct (scan _ _ _). cbn. by rewrite lookup_insert_ne.
Qed.

(** Nothing but the reader, the lines and the counters matters. *)
Lemma served_same own b b' q :
  served own b q -> buf_wf b' -> m_isSupportSkipLog b' = m_isSupportSkipLog b -> sizeByType b' = sizeByType b ->
  hilogDataList b' = hilogDataList b -> m_logReaders b' !! own = m_logReaders b !! own -> served own b' q.
Proof.
  intros (Hw & Hsk & r & Hr & H) Hw' Hs Hz Hl Hr'. split; [done|]. split; [congruence|]. exists r. by rewrite Hr', Hz, Hl.
Qed.

Lemma event_refines own maxsz b q e maxsz' b' a :
  served own b q -> event_ok own e -> buffer_event regex_search own (maxsz, b) e = (maxsz', b', a) ->
  exists q', queue_event regex_search (maxsz, q) e = (maxsz', q', a) /\ served own b' q'.
Proof.
  intros Hs He E. destruct e as [msg|c f|t|t sz|id cb|id|id c f tc]; cbn in E |- *.
  - destruct (Insert maxsz b msg false) as [[[b1 full] ret] ntf] eqn:EI. simplify_eq.
    destruct (insert_refines own maxsz' b q msg b' full ret ntf Hs He EI) as [H1 H2].
    destruct (q_insert maxsz' msg q) as [q' [r' n']]. simplify_eq/=. by exists q'.
  - destruct (Query regex_search b c f own 0) as [b1 res] eqn:EQ. simplify_eq.
    destruct (query_refines own b q c f b' res Hs EQ) as [H1 H2].
    destruct (q_query regex_search c f q) as [q' r']. simplify_eq/=. by exists q'.
  - destruct (Delete b t) as [b1 ret] eqn:ED. simplify_eq.
    destruct (delete_refines own b q t b' ret Hs He ED) as [H1 H2]. destruct (q_delete t q) as [q' r']. simplify_eq/=. by exists q'.
  - destruct (SetBuffLen maxsz t sz) as [m r]. simplify_eq. by exists q.
  - simplify_eq. exists q. split; [done|]. pose proof Hs as [Hw _]. pose proof (CreateBufReader_wf b id cb Hw) as Hw'.
    unfold CreateBufReader in *. destruct (m_logReaders b !! id); [done|]. apply (served_same own b); try done. cbn. by rewrite lookup_insert_ne.
  - simplify_eq. exists q. split; [done|]. pose proof Hs as [Hw _].
    apply (served_same own b); try done; [by apply RemoveBufReader_wf | cbn; by rewrite lookup_delete_ne].
  - simplify_eq. exists q. split; [done|]. pose proof Hs as [Hw _]. destruct (Query_lines regex_search b c f id tc) as (? & ? & _ & ?).
    apply (served_same own b); try done; [by apply Query_wf | by apply query_other].
Qed.

(** C1: a new reader of a buffer that may skip lines is a queue.  Whatever
    sequence of insertions, queries of this reader with any filters,
    deletions of any type, changes of the limits, and doings of other readers
    follows its creation, every answer of the buffer is that of a queue of
    the reader's own: an insertion is answered alike and notifies it alike, a
    query returns the first line in front of the reader that its filter accepts,
    or first the notice with the number of lines it missed, a deletion returns
    the same size.  At the end the reader's iterator stands in front of exactly the lines of
    the queue.  In the queue, lines the buffer had to drop are gone, and those of
    them that were next for the reader are counted as missed; deleted lines are
    gone without being counted. *)
Theorem reader_stream own maxsz b cb evs :
  buf_wf b -> m_isSupportSkipLog b = true -> m_logReaders b !! own = None -> Forall (event_ok own) evs ->
  let '((maxsz1, b'), answers) := run (buffer_event regex_search own) (maxsz, CreateBufReader b own cb) evs in
  let '((maxsz2, q'), answers') := run (queue_event regex_search) (maxsz, new_queue b cb) evs in
  answers = answers' /\ maxsz1 = maxsz2 /\ served own b' q'.
Proof.
  intros Hw Hsk Hnone Hev.
  assert (served own (CreateBufReader b own cb) (new_queue b cb)) as Hs.
  { split; [by apply CreateBufReader_wf|]. unfold CreateBufReader. rewrite Hnone. split; [done|]. eexists. cbn.
    rewrite lookup_insert_eq. by split_and!. }
  clear Hnone Hw Hsk. revert maxsz Hs. generalize (CreateBufReader b own cb), (new_queue b cb). clear b cb.
  induction Hev as [|e evs He _ IH]; intros b q maxsz Hs; [done|]. cbn [run].
  destruct (buffer_event regex_search own (maxsz, b) e) as [[m1 b1] a1] eqn:E.
  destruct (event_refines own maxsz b q e m1 b1 a1 Hs He E) as (q1 & -> & Hs1).
  specialize (IH b1 q1 m1 Hs1). destruct (run (buffer_event regex_search own) (m1, b1) evs) as [[m2 b2] a2].
  destruct (run (queue_event regex_search) (m1, q1) evs) as [[m3 q3] a3]. destruct IH as (-> & -> & IH). done.
Qed.
End refine.

(** ** The small buffer *)

(** The reader takes a line; for two new core lines the buffer drops the two
    oldest ones, of which the reader had not seen the second; it is told so, and
    reads on after a deletion. *)
Definition ex_query : event := EvQuery ex_clocks ex_filter.
Definition ex_queue_events : list event :=
  [ex_query; EvOpen 9 true; EvInsert ex_new; EvRead 9 ex_clocks ex_filter 0; EvInsert ex_new; ex_query;
   EvDelete LOG_APP; ex_query; EvResize LOG_CORE 65536; ex_query; ex_query].

Lemma ex_queue_ok : Forall (event_ok 8) ex_queue_events.
Proof.
  unfold ex_queue_events, ex_query. repeat (apply Forall_cons; split; [cbn [event_ok]; lazymatch goal with
    | |- msg_wf _ => exact ex_new_wf | |- _ => done end|]). by apply Forall_nil.
Qed.

Definition ex_answers (evs : list event) : list answer :=
  (run (buffer_event ex_regex 8) (ex_limits, CreateBufReader (ex_buffer true) 8 true) evs).2.

Lemma reader_stream_witness :
  ex_answers ex_queue_events = (run (queue_event ex_regex) (ex_limits, new_queue (ex_buffer true) true) ex_queue_events).2 /\
  ex_answers ex_queue_events =
    [Got (QLine (HilogData_of_msg (ex_msg LOG_CORE "first"))); Stored 31 true; Stored 31 true;
     Got (from_option QLine QNone (skip_notice ex_clocks 1)); Removed 4; Got (QLine (HilogData_of_msg ex_new));
     Resized RET_SUCCESS; Got (QLine (HilogData_of_msg ex_new)); Got QNone].
Proof.
  assert (m_logReaders (ex_buffer true) !! 8 = None) as Hn by (by vm_compute).
  pose proof (reader_stream ex_regex 8 ex_limits (ex_buffer true) true ex_queue_events
    (buf_ok_wf _ (ex_buffer_ok true)) eq_refl Hn ex_queue_ok) as H.
  split; [|vm_compute; reflexivity]. unfold ex_answers.
  destruct (run (buffer_event ex_regex 8) _ _) as [[m b'] answers].
  destruct (run (queue_event ex_regex) _ _) as [[m2 q'] answers']. apply H.
Defined.

(** The count of missed lines is too small when the dropped lines are behind an
    unread line of another type: five core lines are stored behind the line
    "app", four of them are read after it, and there is no notice. *)
Example evicted_unannounced :
  omap (fun a => match a with Got res => Some res | _ => None end)
    (ex_answers ([ex_query; ex_query] ++ replicate 5 (EvInsert ex_new) ++ replicate 6 ex_query)) =
  (QLine ∘ HilogData_of_msg <$>
    [ex_msg LOG_CORE "first"; ex_msg LOG_CORE ex_90; ex_msg LOG_APP "app"; ex_new; ex_new; ex_new; ex_new]) ++ [QNone].
Proof. vm_compute. reflexivity. Qed.
