(* ===== verification/FlowControl.v ===== *)
(** * Domains and flow control (log_domains.cpp, flow_control.cpp)

    Which domains may log, and the quota of bytes each of them has per
    second.  The table of quotas in use is a static map, passed explicitly. *)

From S2P Require Import Prelude Common TimeStamp Utils.

(** ** Domains *)

Definition g_DomainList : KVMap Z string :=
  mkKVMap
    [(0xD000100, "Bluetooth"); (0xD000300, "NFC"); (0xD000500, "Basic applications");
     (0xD000F00, "For test using"); (0xD001100, "AppExecFwk"); (0xD001200, "Notification");
     (0xD001300, "AAFwk"); (0xD001400, "Graphics"); (0xD001500, "Communication"); (0xD001600,
     "DistributedData"); (0xD001700, "Resource"); (0xD001800, "SAMgr"); (0xD001B00, "Account");
     (0xD001C00, "MiscService"); (0xD001D00, "Barrierfree"); (0xD001E00, "Global"); (0xD001F00,
     "Telephony"); (0xD002100, "AI"); (0xD002200, "MSDP"); (0xD002300, "Location"); (0xD002400,
     "UserIAM"); (0xD002500, "Drivers"); (0xD002600, "Kernel"); (0xD002700, "Sensors");
     (0xD002800, "MultiModelInput"); (0xD002900, "Power"); (0xD002A00, "USB"); (0xD002B00,
     "MultiMedia"); (0xD002C00, "StartUp"); (0xD002D00, "DFX"); (0xD002E00, "Update");
     (0xD002F00, "Security"); (0xD003100, "TestSystem"); (0xD003200, "TestSystem"); (0xD003300,
     "DevelopmentToolchain"); (0xD003900, "Ace"); (0xD003B00, "JSConsole"); (0xD003D00,
     "Utils"); (0xD003F00, "CompilerRuntime"); (0xD004100, "DistributedHardware"); (0xD004200,
     "Windows"); (0xD004300, "Storage"); (0xD004400, "DeviceProfile"); (0xD004500, "WebView");
     (0xD004600, "Interconnection"); (0xD004700, "Cloud"); (0xD004800, "Manufacture");
     (0xD004900, "HealthSport"); (0xD005000, "IOT"); (0xD005100, "PcService"); (0xD005200,
     "WpaSupplicant"); (0xD005300, "Push"); (0xD005400, "CarService"); (0xD005500,
     "DeviceCloudGateway"); (0xD005600, "AppSecurityPrivacy"); (0xD005700, "DSoftBus");
     (0xD005800, "FindNetwork"); (0xD005900, "VirtService"); (0xD005A00, "AccessControl");
     (0xD005B00, "Tee"); (0xD005C00, "Connectivity"); (0xD005D00, "XTS"); (0xD00AD00, "ASystem")]
    0xFFFFFFFF "Invalid" str_eqb.

Definition APP_DOMAIN_MASK : Z := 0xFFFF0000.
Definition OS_SUB_DOMAIN_MASK : Z := 0xFFFFFF00.

Definition IsValidDomain (type domain : Z) : bool :=
  if type =? LOG_APP then Z.land domain APP_DOMAIN_MASK =? 0
  else if (DOMAIN_OS_MIN <=? domain) && (domain <=? DOMAIN_OS_MAX)
  then IsValidKey g_DomainList (Z.land domain OS_SUB_DOMAIN_MASK)
  else false.

(** ** Flow control *)

Definition FLOW_CTL_NORAML : Z := 0.
Definition FLOW_CTL_DROPPED : Z := -1.

Record DomainInfo := mkDomainInfo {
  quota : Z;
  sumLen : Z;
  dropped : Z;
  startTime : LogTimeStamp;
}.

(** [quota length exclude the NULs of tag and log content]: a [size_t]. *)
Definition logLen (msg : HilogMsg) : Z := u64 (msg_len msg - sizeof_HilogMsg - 1 - 1).

Section flow.
(** The quota parameter of a domain, in bytes per second (an [int]). *)
Context (GetDomainQuota : Z -> Z).

(** The new table and the decision: 0 to store the line, -1 to drop it, and at
    the start of a period the number of lines dropped in the last one. *)
Definition FlowCtrlDomain (g_domainMap : gmap Z DomainInfo) (hilogMsg : HilogMsg) : gmap Z DomainInfo * Z :=
  if msg_type hilogMsg =? LOG_APP then (g_domainMap, FLOW_CTL_NORAML)
  else
    let domainId := msg_domain hilogMsg in
    let len := logLen hilogMsg in
    let tsNow := mkTS (msg_mono_sec hilogMsg) (msg_tv_nsec hilogMsg) in
    match g_domainMap !! domainId with
    | Some info =>
        let start := ts_add (startTime info) (mkTS 1 0) in
        if ts_gtb tsNow start then
          (<[domainId := mkDomainInfo (quota info) (u32 len) 0 tsNow]> g_domainMap, i32 (dropped info))
        else if sumLen info <=? quota info then
          (<[domainId := mkDomainInfo (quota info) (u32 (sumLen info + len)) (dropped info) (startTime info)]>
             g_domainMap, FLOW_CTL_NORAML)
        else
          (<[domainId := mkDomainInfo (quota info) (sumLen info) (u32 (dropped info + 1)) (startTime info)]>
             g_domainMap, FLOW_CTL_DROPPED)
    | None =>
        (<[domainId := mkDomainInfo (u32 (GetDomainQuota domainId)) (u32 len) 0 tsNow]> g_domainMap,
         FLOW_CTL_NORAML)
    end.
End flow.

(** * Lemmas and properties *)

(** An application may only log with the 16-bit domains, and every other
    type only with an OS domain (0xD000000 to 0xD0FFFFF) whose 24-bit prefix
    is a registered one: the last byte is a free subdomain. *)
Theorem IsValidDomain_spec type domain :
  0 <= domain < 2 ^ 32 ->
  IsValidDomain type domain =
    if type =? LOG_APP then domain <=? DOMAIN_APP_MAX
    else IsValidKey g_DomainList (domain / 256 * 256).
Proof.
  intros Hd. unfold IsValidDomain, DOMAIN_APP_MAX. destruct (type =? LOG_APP).
  - change APP_DOMAIN_MASK with (2 ^ 32 - 2 ^ 16). rewrite land_mask_high by lia.
    apply eq_iff_eq_true. rewrite Z.eqb_eq, Z.leb_le. Z.div_mod_to_equations. lia.
  - change OS_SUB_DOMAIN_MASK with (2 ^ 32 - 2 ^ 8). rewrite land_mask_high by lia.
    change (2 ^ 8) with 256. destruct (_ && _) eqn:E; [done|].
    destruct (IsValidKey g_DomainList (domain / 256 * 256)) eqn:Ek; [|done].
    assert (forall k, IsValidKey g_DomainList k = true -> DOMAIN_OS_MIN <= k <= DOMAIN_OS_MAX - 255) as Hrange.
    { intros k Hk. unfold IsValidKey in Hk. destruct (kv_find k (str_map g_DomainList)) as [v|] eqn:Ef; [|done].
      apply kv_find_elem in Ef; [|apply (bool_decide_unpack _); by vm_compute].
      assert (Forall (fun e => DOMAIN_OS_MIN <= e.1 <= DOMAIN_OS_MAX - 255) (str_map g_DomainList)) as Hall
        by (repeat constructor; done).
      exact (proj1 (Forall_forall _ _) Hall _ Ef). }
    apply Hrange in Ek. unfold DOMAIN_OS_MIN, DOMAIN_OS_MAX in *. Z.div_mod_to_equations. lia.
Qed.

Lemma IsValidDomain_spec_witness :
  IsValidDomain LOG_CORE 0xD002D07 = true /\ IsValidDomain LOG_CORE 0xD000207 = false /\
  IsValidDomain LOG_APP 0xD002D07 = false.
Proof.
  assert (0 <= 0xD002D07 < 2 ^ 32) as H by lia.
  split; [by rewrite (IsValidDomain_spec LOG_CORE 0xD002D07 H)|]. by vm_compute.
Defined.

(** ** Runs of messages *)

Section runs.
Context (GetDomainQuota : Z -> Z).

Fixpoint fc_run (m : gmap Z DomainInfo) (msgs : list HilogMsg) : gmap Z DomainInfo * list Z :=
  match msgs with
  | [] => (m, [])
  | msg :: msgs =>
      let '(m1, ret) := FlowCtrlDomain GetDomainQuota m msg in
      let '(m2, rets) := fc_run m1 msgs in
      (m2, ret :: rets)
  end.

(** The messages under flow control of one domain. *)
Definition of_domain (d : Z) (msg : HilogMsg) : bool := negb (msg_type msg =? LOG_APP) && (msg_domain msg =? d).

(** The number of lines of a domain that were dropped, the number reported at
    the starts of periods, and the bytes let through. *)
Definition drops (d : Z) (run : list (HilogMsg * Z)) : Z :=
  sumZ (fun p => if of_domain d p.1 && (p.2 =? -1) then 1 else 0) run.
Definition reported (d : Z) (run : list (HilogMsg * Z)) : Z :=
  sumZ (fun p => if of_domain d p.1 && (0 <? p.2) then p.2 else 0) run.
Definition passed (d : Z) (run : list (HilogMsg * Z)) : Z :=
  sumZ (fun p => if of_domain d p.1 && (0 <=? p.2) then logLen p.1 else 0) run.

Definition dropped_of (m : gmap Z DomainInfo) (d : Z) : Z := from_option dropped 0 (m !! d).

Lemma flow_other m msg d m' ret :
  of_domain d msg = false -> FlowCtrlDomain GetDomainQuota m msg = (m', ret) -> m' !! d = m !! d.
Proof.
  unfold of_domain, FlowCtrlDomain. intros Ho H. destruct (Z.eqb_spec (msg_type msg) LOG_APP); simplify_eq/=; [done|].
  assert (msg_domain msg <> d) by lia. case_hyp H; by rewrite lookup_insert_ne.
Qed.

(** The effect of a message on its own domain. *)
Lemma flow_own m msg d m' ret :
  of_domain d msg = true -> FlowCtrlDomain GetDomainQuota m msg = (m', ret) ->
  let now := mkTS (msg_mono_sec msg) (msg_tv_nsec msg) in
  match m !! d with
  | None => ret = 0 /\ m' !! d = Some (mkDomainInfo (u32 (GetDomainQuota d)) (u32 (logLen msg)) 0 now)
  | Some i =>
      if ts_gtb now (ts_add (startTime i) (mkTS 1 0)) then
        ret = i32 (dropped i) /\ m' !! d = Some (mkDomainInfo (quota i) (u32 (logLen msg)) 0 now)
      else if sumLen i <=? quota i then
        ret = 0 /\ m' !! d = Some (mkDomainInfo (quota i) (u32 (sumLen i + logLen msg)) (dropped i) (startTime i))
      else ret = -1 /\ m' !! d = Some (mkDomainInfo (quota i) (sumLen i) (u32 (dropped i + 1)) (startTime i))
  end.
Proof.
  unfold of_domain, FlowCtrlDomain. intros Ho H. destruct (Z.eqb_spec (msg_type msg) LOG_APP); simplify_eq/=.
  assert (msg_domain msg = d) as <- by lia. case_hyp H; by rewrite lookup_insert_eq.
Qed.

(** C35: no dropped line goes unreported: over any sequence of messages, the
    number of lines of a domain that were dropped is the number announced at
    the starts of its periods plus the number still to be announced. *)
Theorem drops_are_reported d msgs m m' rets :
  0 <= dropped_of m d -> dropped_of m d + Z.of_nat (length msgs) < 2 ^ 31 ->
  fc_run m msgs = (m', rets) ->
  reported d (zip msgs rets) + dropped_of m' d = dropped_of m d + drops d (zip msgs rets).
Proof.
  revert m m' rets; induction msgs as [|msg msgs IH]; intros m m' rets H0 Hb Hrun; simpl in Hrun.
  { simplify_eq. unfold reported, drops. simpl. lia. }
  destruct (FlowCtrlDomain GetDomainQuota m msg) as [m1 ret] eqn:E1.
  destruct (fc_run m1 msgs) as [m2 rets'] eqn:E2. simplify_eq. simpl length in Hb.
  unfold reported, drops in *. simpl. destruct (of_domain d msg) eqn:Ho.
  - pose proof (flow_own m msg d m1 ret Ho E1) as Hown. unfold dropped_of in *.
    assert (exists x, from_option dropped 0 (m1 !! d) = x /\ 0 <= x <= from_option dropped 0 (m !! d) + 1 /\
      (if 0 <? ret then ret else 0) + x = from_option dropped 0 (m !! d) + (if ret =? -1 then 1 else 0)) as (x & Hx & Hxb & He).
    { destruct (m !! d) as [i|]; simpl in *.
      - destruct (ts_gtb _ _); [|destruct (sumLen i <=? quota i)]; destruct Hown as [-> ->]; simpl; eexists; (split; [done|]).
        + rewrite wraps_small by lia. destruct (Z.ltb_spec 0 (dropped i)), (Z.eqb_spec (dropped i) (-1)); lia.
        + simpl. lia.
        + rewrite wrapu_small by lia. simpl. lia.
      - destruct Hown as [-> ->]. simpl. eexists; (split; [done|]). lia. }
    specialize (IH m1 m' rets'). rewrite Hx in IH. rewrite !andb_true_l.
    specialize (IH ltac:(lia) ltac:(lia) E2). lia.
  - pose proof (flow_other m msg d m1 ret Ho E1) as Hm. unfold dropped_of in *. rewrite <- Hm in *.
    specialize (IH m1 m' rets' H0 ltac:(lia) E2). simpl. lia.
Qed.

(** The time stamp of a message as the clocks give it, and not in the last
    second of the 32-bit range. *)
Definition stamped (msg : HilogMsg) : Prop :=
  ts_norm (mkTS (msg_mono_sec msg) (msg_tv_nsec msg)) /\ msg_mono_sec msg + 2 < 2 ^ 32.

Definition started (i : DomainInfo) : Prop := ts_norm (startTime i) /\ tv_sec (startTime i) + 2 < 2 ^ 32.

Lemma logLen_nonneg msg : 0 <= logLen msg.
Proof. apply wrapu_range. lia. Qed.

Lemma quota_run L d q msgs :
  0 <= q -> q + L < 2 ^ 32 -> Forall (fun msg => logLen msg <= L /\ stamped msg) msgs ->
  forall m m' rets i, m !! d = Some i -> quota i = q -> 0 <= sumLen i <= q + L -> started i ->
  fc_run m msgs = (m', rets) ->
  exists i', m' !! d = Some i' /\ quota i' = q /\ sumLen i' <= q + L /\
    ts_ns (startTime i) <= ts_ns (startTime i') /\
    (startTime i' = startTime i -> sumLen i' = sumLen i + passed d (zip msgs rets)).
Proof.
  intros Hq HL Hall. induction Hall as [|msg msgs [Hlen [Hst Hsec]] Hall IH];
    intros m m' rets i Hm Hqi Hsum [Hs1 Hs2] Hrun; simpl in Hrun.
  { simplify_eq. exists i. unfold passed. simpl. repeat split; try done; lia. }
  destruct (FlowCtrlDomain GetDomainQuota m msg) as [m1 ret] eqn:E1.
  destruct (fc_run m1 msgs) as [m2 rets'] eqn:E2. simplify_eq.
  pose proof (logLen_nonneg msg) as Hl0. unfold passed in *. simpl. destruct (of_domain d msg) eqn:Ho; simpl.
  2:{ assert (m1 !! d = Some i) as Hm1 by (by rewrite (flow_other m msg d m1 ret Ho E1)).
      destruct (IH m1 m' rets' i Hm1 eq_refl Hsum (conj Hs1 Hs2) E2) as (i' & ? & ? & ? & ? & Heq).
      exists i'. repeat split; try done. }
  pose proof (flow_own m msg d m1 ret Ho E1) as Hown. rewrite Hm in Hown. simpl in Hown.
  set (now := mkTS (msg_mono_sec msg) (msg_tv_nsec msg)) in *.
  assert (ts_norm (mkTS 1 0)) as H1 by (unfold ts_norm, NS_PER_SEC; simpl; lia).
  destruct (ts_add_spec (startTime i) (mkTS 1 0) Hs1 H1) as [Han Hav]; [simpl; lia|].
  rewrite ts_gtb_ns in Hown by done. rewrite Hav in Hown.
  destruct (Z.ltb_spec (ts_ns (startTime i) + ts_ns (mkTS 1 0)) (ts_ns now)) as [Hnew|Hold].
  - destruct Hown as [-> Hm1].
    destruct (IH m1 m' rets' _ Hm1 eq_refl) as (i' & ? & ? & ? & Hmono & _);
      [simpl; rewrite wrapu_small; lia | by split | done |].
    simpl in Hmono. exists i'. assert (ts_ns (startTime i) < ts_ns (startTime i')).
    { unfold ts_ns at 2, NS_PER_SEC in Hnew. simpl in Hnew. lia. }
    repeat split; try done; [lia|]. intros Heq. rewrite Heq in *. lia.
  - destruct (Z.leb_spec (sumLen i) (quota i)); destruct Hown as [-> Hm1].
    + destruct (IH m1 m' rets' _ Hm1 eq_refl) as (i' & ? & ? & ? & Hmono & Heq);
        [simpl; rewrite wrapu_small; lia | by split | done |].
      simpl in Hmono, Heq. exists i'. repeat split; try done. intros Hs. rewrite (Heq Hs), wrapu_small by lia. simpl. lia.
    + destruct (IH m1 m' rets' _ Hm1 eq_refl) as (i' & ? & ? & ? & Hmono & Heq); [done | by split | done |].
      simpl in Hmono, Heq. exists i'. by repeat split.
Qed.

(** Within one period of a domain, the bytes let through stay below its
    quota plus one message: whatever messages arrive while the period started
    at [startTime] lasts, the bytes already counted and those let through add
    up to at most the quota and the length of a single message. *)
Theorem quota_respected L d msgs m m' rets i i' :
  m !! d = Some i -> m' !! d = Some i' -> fc_run m msgs = (m', rets) -> startTime i' = startTime i ->
  0 <= quota i -> quota i + L < 2 ^ 32 -> 0 <= sumLen i <= quota i + L -> started i ->
  Forall (fun msg => logLen msg <= L /\ stamped msg) msgs ->
  sumLen i + passed d (zip msgs rets) <= quota i + L.
Proof.
  intros Hm Hm' Hrun Hst Hq HL Hsum Hs Hall.
  destruct (quota_run L d (quota i) msgs Hq HL Hall m m' rets i Hm eq_refl Hsum Hs Hrun)
    as (i'' & Hi & _ & Hb & _ & Heq). rewrite Hm' in Hi. injection Hi as <-. rewrite <- (Heq Hst). done.
Qed.
End runs.

(** A domain with a quota of 100 bytes that sends 40 bytes every tenth of a
    second. *)
Definition ex_fc_msg (k : Z) : HilogMsg :=
  mkHilogMsg 70 0 LOG_CORE LOG_INFO 4 5 (k * 100000000) 5 1 1 0xD002D00 "".
Definition ex_fc_msgs : list HilogMsg := ex_fc_msg <$> [1; 2; 3; 4; 5].
Definition ex_fc_map : gmap Z DomainInfo := {[ 0xD002D00 := mkDomainInfo 100 40 0 (mkTS 5 0) ]}.

Lemma drops_are_reported_witness :
  (fc_run (fun _ => 100) ex_fc_map ex_fc_msgs).2 = [0; 0; -1; -1; -1] /\
  dropped_of (fc_run (fun _ => 100) ex_fc_map ex_fc_msgs).1 0xD002D00 = 3.
Proof.
  destruct (fc_run (fun _ => 100) ex_fc_map ex_fc_msgs) as [m' rets] eqn:E.
  assert (rets = [0; 0; -1; -1; -1]) as Hr by (change rets with (m', rets).2; rewrite <- E; by vm_compute).
  split; [done|].
  assert (dropped_of ex_fc_map 0xD002D00 = 0) as H0 by (by vm_compute).
  assert (0 <= dropped_of ex_fc_map 0xD002D00) as H1 by (rewrite H0; lia).
  assert (dropped_of ex_fc_map 0xD002D00 + Z.of_nat (length ex_fc_msgs) < 2 ^ 31) as H2 by (by vm_compute).
  pose proof (drops_are_reported (fun _ => 100) 0xD002D00 ex_fc_msgs ex_fc_map m' rets H1 H2 E) as H.
  rewrite H0, Hr in H. exact H.
Defined.

Lemma quota_respected_witness :
  40 + passed 0xD002D00 (zip ex_fc_msgs (fc_run (fun _ => 100) ex_fc_map ex_fc_msgs).2) <= 100 + 40.
Proof.
  destruct (fc_run (fun _ => 100) ex_fc_map ex_fc_msgs) as [m' rets] eqn:E. simpl snd.
  assert (m' !! 0xD002D00 = Some (mkDomainInfo 100 120 3 (mkTS 5 0))) as Hm'
    by (change m' with (m', rets).1; rewrite <- E; by vm_compute).
  assert (Forall (fun msg => logLen msg <= 40 /\ stamped msg) ex_fc_msgs) as Hall by (repeat constructor; done).
  apply (quota_respected (fun _ => 100) 40 0xD002D00 ex_fc_msgs ex_fc_map m' rets
    (mkDomainInfo 100 40 0 (mkTS 5 0)) (mkDomainInfo 100 120 3 (mkTS 5 0)));
    [done | done | done | done | simpl; lia | simpl; lia | simpl; lia | by repeat split | done].
Defined.
