(* ===== verification/LogCollector.v ===== *)
(** * From a client's log call to the stored line

    The client side of the input socket (hilog_input_socket_client.cpp), the
    server's packet reader (dgram_socket_server.cpp) and the handler of a
    received packet (log_collector.cpp): domain check, flow control, storing
    the line and counting it. *)

From S2P Require Import Prelude Common TimeStamp Utils LogData LogStats LogBuffer LogBufferSpec FlowControl.
From Stdlib Require Import Ascii.

(** ** The client *)

(** [WriteLogMessage] sends one datagram: the header with its lengths filled
    in, [tagLen] bytes of the tag and [fmtLen] bytes of the content. *)
Definition WriteLogMessage (header : HilogMsg) (tag : string) (tagLen : Z) (fmt : string) (fmtLen : Z) : string :=
  encode_header
    (mkHilogMsg (u16 (sizeof_HilogMsg + tagLen + fmtLen)) (msg_version header) (msg_type header)
       (msg_level header) (tagLen mod 64) (msg_tv_sec header) (msg_tv_nsec header) (msg_mono_sec header)
       (msg_pid header) (msg_tid header) (msg_domain header) "")
  +:+ str_take (Z.to_nat tagLen) tag +:+ str_take (Z.to_nat fmtLen) fmt.

(** ** The server *)

Definition MAX_SOCKET_PACKET_LEN : Z := 5120.

(** [RecvPacket] on the next datagram: the receive buffer, which keeps what
    earlier packets left in it, and the number of bytes received.  The first
    two bytes, peeked at, say how much is read; the last byte read is
    overwritten with a NUL. *)
Definition RecvPacket (buffer datagram : string) : string * Z :=
  let packetLen := le_val 2 datagram in
  if MAX_SOCKET_PACKET_LEN <? packetLen then (buffer, 0)
  else
    let got := str_take (Z.to_nat packetLen) datagram in
    let ret := slen got in
    if ret <=? 0 then (buffer, ret)
    else
      (str_take (Z.to_nat (ret - 1)) got +:+ String NUL (str_drop (Z.to_nat ret) buffer), ret).

(** ** LogCollector *)

Record LogCollector := mkLogCollector {
  m_hilogBuffer : HilogBuffer;
  g_domainMap : gmap Z DomainInfo;
  countEnable : bool;
  flowControl : bool;
  debug : bool;
}.

Section collector.
Context (maxsz : list Z) (GetDomainQuota : Z -> Z) (GetNameByPid : Z -> string).

Definition set_buffer (c : LogCollector) (b : HilogBuffer) : LogCollector :=
  mkLogCollector b (g_domainMap c) (countEnable c) (flowControl c) (debug c).
Definition set_domains (c : LogCollector) (m : gmap Z DomainInfo) : LogCollector :=
  mkLogCollector (m_hilogBuffer c) m (countEnable c) (flowControl c) (debug c).

Definition InsertLogToBuffer (c : LogCollector) (msg : HilogMsg) : LogCollector * Z :=
  let '(b, _, ret, _) := Insert maxsz (m_hilogBuffer c) msg false in (set_buffer c b, ret).

(** The notice about dropped lines: [tagLen] does not count a NUL, so the
    last character of the tag is the one the copy into the buffer cuts. *)
Definition drop_msg (msg : HilogMsg) (droppedCount : Z) : HilogMsg :=
  let dropLog := to_string droppedCount +:+ " line(s) dropped!" in
  let tag := "LOGLIMITD" in
  mkHilogMsg (u16 (sizeof_HilogMsg + slen tag + slen dropLog + 1)) (msg_version msg) (msg_type msg)
    (msg_level msg) (slen tag) (msg_tv_sec msg) (msg_tv_nsec msg) (msg_mono_sec msg) (msg_pid msg)
    (msg_tid msg) (msg_domain msg) (tag +:+ dropLog +:+ String NUL "").

Definition InsertDropInfo (c : LogCollector) (msg : HilogMsg) (droppedCount : Z) : LogCollector :=
  (InsertLogToBuffer c (drop_msg msg droppedCount)).1.

Definition set_pid (msg : HilogMsg) (pid : Z) : HilogMsg :=
  mkHilogMsg (msg_len msg) (msg_version msg) (msg_type msg) (msg_level msg) (msg_tagLen msg)
    (msg_tv_sec msg) (msg_tv_nsec msg) (msg_mono_sec msg) pid (msg_tid msg) (msg_domain msg) (msg_tag msg).

(** What is counted of a message. *)
Definition stats_info (msg : HilogMsg) (dropped : bool) : StatsInfo :=
  mkStatsInfo (msg_level msg) (msg_type msg) (u16 (msg_len msg - sizeof_HilogMsg - 1 - 1))
    (if dropped then 1 else 0) (msg_domain msg) (msg_pid msg) (msg_tv_sec msg) (msg_tv_nsec msg)
    (msg_mono_sec msg) (cstr (msg_tag msg)).

(** The statistics at the end of [onDataRecv]; the byte at [tag + tagLen - 1]
    is the last one of the header when [tagLen] is 0. *)
Definition count_msg (c : LogCollector) (data : string) (msg : HilogMsg) (dropped : bool) : option LogCollector :=
  if countEnable c then
    match String.get (Z.to_nat (sizeof_HilogMsg + msg_tagLen msg - 1)) data with
    | Some ch =>
        if decide (ch = NUL)
        then set_buffer c <$> CountLog GetNameByPid (m_hilogBuffer c) (stats_info msg dropped)
        else Some c
    | None => None
    end
  else Some c.

(** [None]: an access outside an array.  [pid] is the sender's, taken from the
    socket credentials. *)
Definition onDataRecv (c : LogCollector) (pid : Z) (data : string) (dataLen : Z) : option LogCollector :=
  if dataLen <? sizeof_HilogMsg then Some c
  else
    let msg := HilogMsg_of_bytes data in
    if negb (dataLen =? msg_len msg) then Some c
    else if negb (IsValidDomain (msg_type msg) (msg_domain msg)) then Some c
    else
      let msg := set_pid msg (u32 pid) in
      let '(m, ret) :=
        if negb (msg_type msg =? LOG_APP) && flowControl c && negb (debug c)
        then FlowCtrlDomain GetDomainQuota (g_domainMap c) msg
        else (g_domainMap c, 0) in
      let c := set_domains c m in
      if ret <? 0 then count_msg c data msg true
      else
        let c := if 0 <? ret then InsertDropInfo c msg ret else c in
        let '(c, stored) := InsertLogToBuffer c msg in
        if stored =? 0 then Some c else count_msg c data msg false.

(** One datagram through the server loop: the receive buffer and the
    collector. *)
Definition serve (buffer : string) (c : LogCollector) (pid : Z) (datagram : string)
    : option (string * LogCollector) :=
  let '(buffer, ret) := RecvPacket buffer datagram in
  if 0 <? ret then c' ← onDataRecv c pid buffer ret; Some (buffer, c')
  else Some (buffer, c).
End collector.

Definition SetLogFlowControl (c : LogCollector) (on : bool) : LogCollector :=
  mkLogCollector (m_hilogBuffer c) (g_domainMap c) (countEnable c) on (debug c).
Definition SetDebuggable (c : LogCollector) (on : bool) : LogCollector :=
  mkLogCollector (m_hilogBuffer c) (g_domainMap c) (countEnable c) (flowControl c) on.

(** * Lemmas and properties *)

(** A message with the lengths [WriteLogMessage] fills in, and the bytes that
    follow the header. *)
Definition sent_msg (header : HilogMsg) (tagLen fmtLen : Z) (bytes : string) : HilogMsg :=
  mkHilogMsg (sizeof_HilogMsg + tagLen + fmtLen) (msg_version header) (msg_type header)
    (msg_level header) tagLen (msg_tv_sec header) (msg_tv_nsec header) (msg_mono_sec header)
    (msg_pid header) (msg_tid header) (msg_domain header) bytes.

(** A tag and a content as clients pass them: NUL-terminated and within the
    limits. *)
Record sendable (t c : string) : Prop := {
  snd_tag : no_char NUL t;
  snd_content : no_char NUL c;
  snd_tagLen : slen t + 1 <= MAX_TAG_LEN;
  snd_len : slen c + 1 <= MAX_LOG_LEN;
}.

Lemma sent_msg_wf h tl fl bytes :
  msg_wf h -> 1 <= tl <= MAX_TAG_LEN -> 1 <= fl <= MAX_LOG_LEN -> msg_wf (sent_msg h tl fl bytes).
Proof.
  unfold msg_wf, sent_msg, sizeof_HilogMsg, MAX_TAG_LEN, MAX_LOG_LEN. simpl. intuition lia.
Qed.

(** The datagram of a client fills the receive buffer with the message. *)
Lemma RecvPacket_sent h t c buffer :
  msg_wf h -> sendable t c ->
  let tl := slen t + 1 in
  let fl := slen c + 1 in
  let body := t +:+ String NUL (c +:+ String NUL "") in
  RecvPacket buffer (WriteLogMessage h (t +:+ String NUL "") tl (c +:+ String NUL "") fl) =
    (encode_header (sent_msg h tl fl "") +:+ body +:+ str_drop (Z.to_nat (sizeof_HilogMsg + tl + fl)) buffer,
     sizeof_HilogMsg + tl + fl).
Proof.
  intros Hh [Ht Hc Htl Hfl] tl fl body.
  pose proof (slen_nonneg t). pose proof (slen_nonneg c). unfold MAX_TAG_LEN, MAX_LOG_LEN in *.
  assert (slen (t +:+ String NUL "") = tl) as Et by (by rewrite slen_app).
  assert (slen (c +:+ String NUL "") = fl) as Ec by (by rewrite slen_app).
  assert (WriteLogMessage h (t +:+ String NUL "") tl (c +:+ String NUL "") fl
    = encode_header (sent_msg h tl fl "") +:+ body) as ->.
  { unfold WriteLogMessage, sent_msg. rewrite !str_take_all by lia. unfold sizeof_HilogMsg.
    rewrite wrapu_small, Z.mod_small by lia. f_equal. unfold body. rewrite <- str_app_assoc. done. }
  assert (slen (encode_header (sent_msg h tl fl "") +:+ body) = sizeof_HilogMsg + tl + fl) as Hlen.
  { rewrite slen_app, slen_encode_header. unfold body. rewrite slen_app, slen_cons, Ec. lia. }
  unfold RecvPacket. set (dg := encode_header _ +:+ body) in *.
  assert (le_val 2 dg = sizeof_HilogMsg + tl + fl) as ->.
  { unfold dg, encode_header. rewrite <- !str_app_assoc. apply le_val_bytes_app.
    unfold sent_msg, sizeof_HilogMsg. simpl. lia. }
  unfold MAX_SOCKET_PACKET_LEN, sizeof_HilogMsg in *.
  destruct (Z.ltb_spec 5120 (28 + tl + fl)); [lia|].
  rewrite str_take_all by lia. rewrite Hlen. destruct (Z.leb_spec (28 + tl + fl) 0); [lia|].
  f_equal. assert (dg = (encode_header (sent_msg h tl fl "") +:+ t +:+ String NUL c) +:+ String NUL "") as Edg.
  { unfold dg, body. rewrite <- !str_app_assoc. done. }
  rewrite Edg in Hlen |- *. rewrite slen_app in Hlen. change (slen (String NUL "")) with 1 in Hlen.
  replace (28 + tl + fl - 1) with (slen (encode_header (sent_msg h tl fl "") +:+ t +:+ String NUL c)) by lia.
  rewrite slen_Z_to_nat, str_take_app_length. unfold body.
  rewrite <- !str_app_assoc, !str_cons_app, <- !str_app_assoc. done.
Qed.

Lemma HilogMsg_of_sent h tl fl bytes :
  msg_wf h -> 1 <= tl <= MAX_TAG_LEN -> 1 <= fl <= MAX_LOG_LEN ->
  HilogMsg_of_bytes (encode_header (sent_msg h tl fl "") +:+ bytes) = sent_msg h tl fl bytes.
Proof. intros. by apply (decode_encode_header (sent_msg h tl fl bytes)), sent_msg_wf. Qed.

(** The stored line has the client's tag and content, whatever earlier packets
    left behind them in the receive buffer. *)
Lemma HilogData_of_sent h t c pid rest :
  msg_wf h -> sendable t c ->
  let m := set_pid (sent_msg h (slen t + 1) (slen c + 1) (t +:+ String NUL (c +:+ String NUL rest))) pid in
  insert_invalid m = (LOG_TYPE_MAX <=? msg_type h) /\ CONTENT_LEN m = slen c + 1 /\
  d_tag (HilogData_of_msg m) = t /\ d_content (HilogData_of_msg m) = c.
Proof.
  intros Hh [Ht Hc Htl Hfl] m. pose proof (slen_nonneg t). pose proof (slen_nonneg c).
  assert (CONTENT_LEN m = slen c + 1) as Hcl.
  { unfold CONTENT_LEN, m, sent_msg, set_pid, sizeof_HilogMsg, MAX_TAG_LEN, MAX_LOG_LEN in *.
    cbn [msg_len msg_tagLen]. rewrite wrapu_small; lia. }
  assert (CONTENT_PTR m = c +:+ String NUL rest) as Hcp.
  { unfold CONTENT_PTR, m. simpl. replace (Z.to_nat (slen t + 1)) with (String.length (t +:+ String NUL "")).
    - rewrite <- (str_drop_app_length (t +:+ String NUL "") (c +:+ String NUL rest)) at 2.
      by rewrite <- str_app_assoc.
    - rewrite <- slen_Z_to_nat, slen_app. done. }
  split; [|split; [done|]].
  - unfold insert_invalid. rewrite Hcl. unfold m, MAX_TAG_LEN, MAX_LOG_LEN in *. simpl. lia.
  - unfold HilogData_of_msg. rewrite Hcl, Hcp. rewrite Init_ok by (unfold m; simpl; lia). simpl.
    rewrite !cstr_app_nul by done. split; apply str_take_all; lia.
Qed.

Definition coll_ok (c : LogCollector) : Prop :=
  buf_ok (m_hilogBuffer c) /\ stats_wf (stats (m_hilogBuffer c)).

Lemma string_get_Some n s : (n < String.length s)%nat -> exists ch, String.get n s = Some ch.
Proof.
  revert n; induction s as [|c s IH]; intros [|n] Hn; simpl in *; try lia; [by eexists|]. apply IH. lia.
Qed.

Lemma set_pid_wf msg pid : msg_wf msg -> msg_wf (set_pid msg (u32 pid)).
Proof.
  unfold msg_wf. simpl. pose proof (wrapu_range 32 pid ltac:(lia)). tauto.
Qed.

Lemma drop_msg_wf msg n : msg_wf msg -> msg_wf (drop_msg msg n).
Proof.
  unfold msg_wf, drop_msg. cbn [msg_len msg_version msg_type msg_level msg_tagLen msg_tv_sec msg_tv_nsec
    msg_mono_sec msg_pid msg_tid msg_domain].
  match goal with |- context [u16 ?x] => pose proof (wrapu_range 16 x ltac:(lia)) end.
  change (slen "LOGLIMITD") with 9 in *. intuition lia.
Qed.

Section collector_props.
Context (maxsz : list Z) (GetDomainQuota : Z -> Z) (GetNameByPid : Z -> string).
Hypothesis Hlim : limits_ok maxsz.

(** What the insertion of a message into the collector's buffer preserves. *)
Lemma InsertLogToBuffer_ok c msg c' ret :
  coll_ok c -> msg_wf msg -> InsertLogToBuffer maxsz c msg = (c', ret) ->
  coll_ok c' /\ countEnable c' = countEnable c /\
  (ret <> 0 -> insert_invalid msg = false).
Proof using Hlim.
  intros [Hb Hs] Hm H. unfold InsertLogToBuffer in H.
  destruct (Insert maxsz (m_hilogBuffer c) msg false) as [[[b full] r] ntf] eqn:E. simplify_eq.
  destruct (insert_invalid msg) eqn:Ev.
  { unfold Insert in E. rewrite Ev in E. by simplify_eq. }
  destruct (Insert_cases maxsz _ msg false b full ret ntf Hlim Hb Hm Ev E) as (k & Hb' & _ & Hst & _).
  split; [|done]. split; simpl; [done|]. by rewrite Hst.
Qed.

Lemma count_msg_ok c data msg dropped :
  coll_ok c -> 0 <= msg_tagLen msg < 64 -> slen data = MAX_SOCKET_PACKET_LEN ->
  (countEnable c = false \/ info_valid (stats_info msg dropped)) ->
  exists c', count_msg GetNameByPid c data msg dropped = Some c' /\ coll_ok c' /\
    hilogDataList (m_hilogBuffer c') = hilogDataList (m_hilogBuffer c).
Proof.
  intros [Hb Hs] Ht Hd Hc. unfold count_msg. destruct (countEnable c); [|by exists c].
  destruct Hc as [?|Hv]; [done|].
  destruct (string_get_Some (Z.to_nat (sizeof_HilogMsg + msg_tagLen msg - 1)) data) as [ch ->].
  { unfold slen, MAX_SOCKET_PACKET_LEN, sizeof_HilogMsg in *. lia. }
  case_decide; [|by exists c]. unfold CountLog.
  destruct (Count_wf GetNameByPid (stats (m_hilogBuffer c)) _ Hv Hs) as (s' & -> & Hs' & _).
  eexists. split; [done|]. split; [|done]. split; simpl; [by apply set_stats_ok | done].
Qed.

Lemma count_msg_keeps c data msg dropped c' :
  coll_ok c -> 0 <= msg_tagLen msg < 64 -> slen data = MAX_SOCKET_PACKET_LEN -> msg_wf msg ->
  count_msg GetNameByPid c data msg dropped = Some c' -> coll_ok c' /\ countEnable c' = countEnable c.
Proof.
  intros [Hb Hs] Ht Hd Hw. unfold count_msg. destruct (countEnable c) eqn:En; [|by intros; simplify_eq].
  destruct (String.get _ data); [|done]. case_decide; [|by intros; simplify_eq]. unfold CountLog.
  destruct (Count GetNameByPid (stats (m_hilogBuffer c)) (stats_info msg dropped)) as [s'|] eqn:E; [|done].
  intros [= <-]. split; [|done]. split; [by apply set_stats_ok|]. by eapply Count_Some_wf in E; [|apply Hw|apply Hw|].
Qed.

Lemma count_msg_None c data msg dropped :
  coll_ok c -> 0 <= msg_tagLen msg < 64 -> slen data = MAX_SOCKET_PACKET_LEN -> msg_wf msg ->
  count_msg GetNameByPid c data msg dropped = None ->
  countEnable c = true /\ (msg_level msg < LOG_DEBUG \/ LOG_TYPE_MAX <= msg_type msg).
Proof.
  intros Hc Ht Hd Hw HN. destruct (countEnable c) eqn:En.
  - split; [done|]. destruct (Z.lt_ge_cases (msg_level msg) LOG_DEBUG); [by left|]. right.
    destruct (Z.le_gt_cases LOG_TYPE_MAX (msg_type msg)); [done|].
    destruct (count_msg_ok c data msg dropped Hc Ht Hd) as (c' & E & _); [right|congruence].
    destruct Hw as (_ & _ & Hty & Hlv & _).
    unfold info_valid, stats_info, LevelBase, LOG_LEVEL_MAX in *. simpl. lia.
  - destruct (count_msg_ok c data msg dropped Hc Ht Hd) as (c' & E & _); [by left|congruence].
Qed.

Lemma RecvPacket_len buffer datagram buffer' ret :
  slen buffer = MAX_SOCKET_PACKET_LEN -> RecvPacket buffer datagram = (buffer', ret) ->
  slen buffer' = MAX_SOCKET_PACKET_LEN /\ 0 <= ret <= MAX_SOCKET_PACKET_LEN.
Proof.
  intros Hb H. unfold RecvPacket in H. pose proof (slen_nonneg buffer).
  destruct (Z.ltb_spec MAX_SOCKET_PACKET_LEN (le_val 2 datagram)); [by simplify_eq|].
  set (got := str_take _ datagram) in *. pose proof (slen_nonneg got).
  assert (slen got <= MAX_SOCKET_PACKET_LEN).
  { unfold got. rewrite slen_take. pose proof (le_val_range 2 datagram). lia. }
  destruct (Z.leb_spec (slen got) 0); simplify_eq; [split; [done|lia]|].
  split; [|lia]. rewrite slen_app, slen_cons, slen_take, slen_drop. lia.
Qed.

(** The part of [onDataRecv] after the checks that drop a packet. *)
Lemma onDataRecv_ok c pid data dataLen :
  coll_ok c -> slen data = MAX_SOCKET_PACKET_LEN ->
  match onDataRecv maxsz GetDomainQuota GetNameByPid c pid data dataLen with
  | Some c' => coll_ok c' /\ countEnable c' = countEnable c
  | None => countEnable c = true /\
      (msg_level (HilogMsg_of_bytes data) < LOG_DEBUG \/ LOG_TYPE_MAX <= msg_type (HilogMsg_of_bytes data))
  end.
Proof using Hlim.
  intros Hc Hd. unfold onDataRecv. pose proof (HilogMsg_of_bytes_wf data) as Hw.
  set (m0 := HilogMsg_of_bytes data) in *. 
  destruct (dataLen <? sizeof_HilogMsg); [done|]. destruct (negb (dataLen =? msg_len m0)); [done|].
  destruct (negb (IsValidDomain (msg_type m0) (msg_domain m0))); [done|].
  set (msg := set_pid m0 (u32 pid)). assert (msg_wf msg) as Hm by by apply set_pid_wf.
  assert (0 <= msg_tagLen msg < 64) as Htl by apply Hm.
  assert (forall c1 dr, coll_ok c1 -> countEnable c1 = countEnable c ->
    match count_msg GetNameByPid c1 data msg dr with
    | Some c' => coll_ok c' /\ countEnable c' = countEnable c
    | None => countEnable c = true /\ (msg_level m0 < LOG_DEBUG \/ LOG_TYPE_MAX <= msg_type m0) end) as Hcount.
  { intros c1 dr Hc1 He. destruct (count_msg GetNameByPid c1 data msg dr) as [c'|] eqn:E.
    - rewrite <- He. eapply count_msg_keeps; eauto.
    - rewrite <- He. by apply (count_msg_None c1 data msg dr). }
  match goal with |- context [let '(_, _) := ?x in _] => destruct x as [dm ret] end.
  assert (coll_ok (set_domains c dm)) as Hc0 by done.
  destruct (ret <? 0); [by apply Hcount|].
  set (c1 := if 0 <? ret then _ else _).
  assert (coll_ok c1 /\ countEnable c1 = countEnable c) as [Hc1 He1].
  { unfold c1, InsertDropInfo. destruct (0 <? ret); [|done].
    destruct (InsertLogToBuffer maxsz _ (drop_msg msg ret)) as [c2 r] eqn:E.
    by destruct (InsertLogToBuffer_ok _ _ _ _ Hc0 (drop_msg_wf _ ret Hm) E) as (? & ? & _). }
  destruct (InsertLogToBuffer maxsz c1 msg) as [c2 r] eqn:E.
  destruct (InsertLogToBuffer_ok _ _ _ _ Hc1 Hm E) as (Hc2 & He2 & _).
  destruct (r =? 0); [split; [done|congruence]|]. apply Hcount; [done|congruence].
Qed.
End collector_props.

(** The datagrams the socket delivers, with their senders, one after the other. *)
Fixpoint serve_all (maxsz : list Z) (quota : Z -> Z) (name : Z -> string) (buffer : string) (c : LogCollector)
    (packets : list (Z * string)) : option (string * LogCollector) :=
  match packets with
  | [] => Some (buffer, c)
  | (pid, datagram) :: packets =>
      '(buffer, c) ← serve maxsz quota name buffer c pid datagram; serve_all maxsz quota name buffer c packets
  end.

Lemma bits_take n s r :
  (4 <= n)%nat -> 4 <= slen s -> le_val 2 (str_drop 2 (str_take n s +:+ r)) = le_val 2 (str_drop 2 s).
Proof.
  intros Hn Hs. destruct s as [|c1 [|c2 [|c3 [|c4 s]]]]; unfold slen in Hs; simpl in Hs; try lia.
  destruct n as [|[|[|[|n]]]]; try lia. cbn [str_take]. rewrite !str_cons_app. done.
Qed.

(** A header that passes the collector's checks although its level or type is
    not one the log service defines. *)
Definition bad_header (datagram : string) : Prop :=
  msg_level (HilogMsg_of_bytes datagram) < LOG_DEBUG \/ LOG_TYPE_MAX <= msg_type (HilogMsg_of_bytes datagram).

Lemma RecvPacket_bits buffer datagram buffer' ret :
  RecvPacket buffer datagram = (buffer', ret) -> 5 <= ret ->
  msg_level (HilogMsg_of_bytes buffer') = msg_level (HilogMsg_of_bytes datagram) /\
  msg_type (HilogMsg_of_bytes buffer') = msg_type (HilogMsg_of_bytes datagram).
Proof.
  unfold RecvPacket. intros H Hr.
  destruct (MAX_SOCKET_PACKET_LEN <? le_val 2 datagram); [simplify_eq; lia|].
  set (got := str_take (Z.to_nat (le_val 2 datagram)) datagram) in *.
  assert (slen got = Z.min (Z.of_nat (Z.to_nat (le_val 2 datagram))) (slen datagram)) as Hg by apply slen_take.
  destruct (Z.leb_spec (slen got) 0); simplify_eq; [lia|]. unfold HilogMsg_of_bytes. cbn [msg_level msg_type].
  rewrite bits_take by lia. rewrite <- (str_app_nil_r got). unfold got. by rewrite bits_take by lia.
Qed.

Lemma serve_ok maxsz quota name buffer c pid datagram :
  limits_ok maxsz -> slen buffer = MAX_SOCKET_PACKET_LEN -> coll_ok c ->
  match serve maxsz quota name buffer c pid datagram with
  | Some (buffer', c') =>
      slen buffer' = MAX_SOCKET_PACKET_LEN /\ coll_ok c' /\ countEnable c' = countEnable c
  | None => countEnable c = true /\ bad_header datagram
  end.
Proof.
  intros Hlim Hb Hc. unfold serve. destruct (RecvPacket buffer datagram) as [buffer' ret] eqn:E.
  destruct (RecvPacket_len _ _ _ _ Hb E) as [Hb' Hret]. destruct (Z.ltb_spec 0 ret); [|done].
  pose proof (onDataRecv_ok maxsz quota name Hlim c pid buffer' ret Hc Hb') as Hr.
  destruct (onDataRecv maxsz quota name c pid buffer' ret) as [c'|] eqn:Eo; simpl; [by destruct Hr|].
  destruct Hr as [He Hbad]. split; [done|]. unfold bad_header.
  destruct (Z.lt_ge_cases ret sizeof_HilogMsg) as [Hlt|Hge].
  { unfold onDataRecv in Eo. by rewrite (proj2 (Z.ltb_lt _ _) Hlt) in Eo. }
  destruct (RecvPacket_bits _ _ _ _ E) as [<- <-]; [unfold sizeof_HilogMsg in *; lia|done].
Qed.

(** C20: whatever datagrams clients send, of any bytes and any length, the
    collector keeps its buffer and its statistics consistent; it can leave an
    array only while statistics are enabled, and then only for a datagram
    whose header has a level below DEBUG or an undefined type. *)
Theorem collector_robust maxsz quota name buffer c packets :
  limits_ok maxsz -> slen buffer = MAX_SOCKET_PACKET_LEN -> coll_ok c ->
  match serve_all maxsz quota name buffer c packets with
  | Some (buffer', c') => slen buffer' = MAX_SOCKET_PACKET_LEN /\ coll_ok c'
  | None => countEnable c = true /\ exists p, p ∈ packets /\ bad_header p.2
  end.
Proof.
  intros Hlim. revert buffer c. induction packets as [|[pid dg] packets IH]; intros buffer c Hb Hc; [done|].
  simpl. pose proof (serve_ok maxsz quota name buffer c pid dg Hlim Hb Hc) as Hs.
  destruct (serve maxsz quota name buffer c pid dg) as [[b1 c1]|]; simpl.
  - destruct Hs as (Hb1 & Hc1 & He). specialize (IH b1 c1 Hb1 Hc1).
    destruct (serve_all maxsz quota name b1 c1 packets) as [[b2 c2]|]; [done|].
    rewrite He in IH. destruct IH as [? (p & ? & ?)]. split; [done|]. exists p. split; [by right|done].
  - destruct Hs as [? ?]. split; [done|]. exists (pid, dg). split; [left|done].
Qed.

(** ** Delivery *)

Lemma to_string_no_nul n : 0 <= n -> no_char NUL (to_string n).
Proof.
  intros Hn. unfold to_string. destruct (Z.ltb_spec n 0); [lia|]. unfold Num2Str.
  assert (forall fuel z acc, 0 <= z -> no_char NUL acc -> no_char NUL (num_go 10 fuel z acc)) as H0.
  { induction fuel as [|fuel IH]; intros z acc Hz Ha; cbn [num_go]; [done|].
    assert (no_char NUL (String (digit_chr (z mod 10)) acc)).
    { apply no_char_cons. split; [|done]. intros E%(f_equal byte_val).
      pose proof (Z.mod_pos_bound z 10 ltac:(lia)). unfold digit_chr in E. generalize dependent (z mod 10).
      intros d E Hd. destruct (Z.ltb_spec d 10); [|lia].
      rewrite byte_val_chr, Z.mod_small in E by lia. change (byte_val NUL) with 0 in E. lia. }
    destruct (z <? 10); [done|]. apply IH; [apply Z.div_pos; lia | done]. }
  apply H0; [done | apply not_elem_of_nil].
Qed.

(** The line stored for a notice about [n] dropped lines. *)
Lemma drop_msg_data msg n :
  msg_wf msg -> msg_type msg < LOG_TYPE_MAX -> 0 < n < 2 ^ 31 ->
  let m := drop_msg msg n in
  insert_invalid m = false /\ d_tag (HilogData_of_msg m) = "LOGLIMIT" /\
  d_content (HilogData_of_msg m) = to_string n +:+ " line(s) dropped!".
Proof.
  intros Hw Ht Hn m. pose proof (slen_to_string n ltac:(lia)) as Hts. pose proof (slen_nonneg (to_string n)).
  set (log := to_string n +:+ " line(s) dropped!") in *.
  assert (slen log = slen (to_string n) + 17) as Hlog by (unfold log; by rewrite slen_app).
  assert (CONTENT_LEN m = slen log + 1) as Hcl.
  { unfold m, drop_msg, CONTENT_LEN, sizeof_HilogMsg. fold log. cbn [msg_len msg_tagLen].
    change (slen "LOGLIMITD") with 9. rewrite (wrapu_small 16) by lia. rewrite wrapu_small; lia. }
  assert (no_char NUL log) as Hnl.
  { unfold log. apply no_char_app; [apply to_string_no_nul; lia|]. unfold no_char. apply (bool_decide_unpack _). by vm_compute. }
  assert (insert_invalid m = false) as Hv.
  { unfold insert_invalid. rewrite Hcl. unfold MAX_LOG_LEN, MAX_TAG_LEN in *. unfold m, drop_msg.
    cbn [msg_tagLen msg_type]. change (slen "LOGLIMITD") with 9. lia. }
  split; [done|]. unfold HilogData_of_msg. rewrite Hcl. rewrite Init_ok
    by (unfold m, drop_msg, MAX_LOG_LEN, MAX_TAG_LEN; cbn [msg_tagLen]; change (slen "LOGLIMITD") with 9; lia).
  cbn [d_tag d_content]. unfold m, drop_msg, CONTENT_PTR. fold log. cbn [msg_tag msg_tagLen].
  change (slen "LOGLIMITD") with 9. change (Z.to_nat 9) with (String.length "LOGLIMITD").
  rewrite str_drop_app_length. split.
  - rewrite str_app_assoc, cstr_app_nul; [done|]. apply no_char_app; [|done].
    unfold no_char. apply (bool_decide_unpack _). by vm_compute.
  - rewrite cstr_app_nul by done. apply str_take_all. lia.
Qed.

(** What flow control says about a message in the state of the collector. *)
Definition flow_verdict (quota : Z -> Z) (c : LogCollector) (msg : HilogMsg) : Z :=
  if negb (msg_type msg =? LOG_APP) && flowControl c && negb (debug c)
  then (FlowCtrlDomain quota (g_domainMap c) msg).2 else 0.

Lemma flow_verdict_range quota c msg : flow_verdict quota c msg < 2 ^ 31.
Proof.
  unfold flow_verdict, FlowCtrlDomain, FLOW_CTL_NORAML, FLOW_CTL_DROPPED. pose proof (wraps_range 32) as Hr.
  repeat case_match; simpl; try lia. by apply Hr.
Qed.

(** The insertion of a valid message when the buffer may evict old lines. *)
Lemma InsertLogToBuffer_appends maxsz c msg :
  limits_ok maxsz -> coll_ok c -> m_isSupportSkipLog (m_hilogBuffer c) = true -> msg_wf msg ->
  insert_invalid msg = false ->
  let bt := ConvertBufType (msg_type msg) in
  exists c' k, InsertLogToBuffer maxsz c msg = (c', CONTENT_LEN msg) /\ coll_ok c' /\
    m_isSupportSkipLog (m_hilogBuffer c') = true /\ countEnable c' = countEnable c /\
    hilogDataList (m_hilogBuffer c') =
      evict bt k (hilogDataList (m_hilogBuffer c)) ++ [(next_id (m_hilogBuffer c), HilogData_of_msg msg)].
Proof.
  intros Hlim [Hb Hs] Hsk Hw Hv bt. unfold InsertLogToBuffer.
  destruct (Insert maxsz (m_hilogBuffer c) msg false) as [[[b full] r] ntf] eqn:E.
  destruct (Insert_cases maxsz _ msg false b full r ntf Hlim Hb Hw Hv E) as (k & Hb' & Hsk' & Hst & _ & _ & Hc).
  destruct full; [destruct Hc as (_ & ? & _); congruence|]. destruct Hc as (-> & Hl & _).
  eexists _, k. split; [done|]. split; [split; simpl; [done | by rewrite Hst]|]. simpl. split; [congruence|done].
Qed.

Lemma CONTENT_LEN_valid msg : insert_invalid msg = false -> CONTENT_LEN msg <> 0.
Proof. unfold insert_invalid. lia. Qed.

(** The members of a stored line that are copied from the header. *)
Lemma HilogData_of_msg_fields m :
  msg_wf m -> msg_type m < LOG_TYPE_MAX ->
  let d := HilogData_of_msg m in
  d_level d = msg_level m /\ d_type d = msg_type m /\ d_domain d = msg_domain m /\ d_pid d = msg_pid m /\
  d_tid d = msg_tid m /\ d_tv_sec d = msg_tv_sec m /\ d_tv_nsec d = msg_tv_nsec m.
Proof.
  intros (_ & _ & Hty0 & Hlv & _) Hty. unfold HilogData_of_msg, LOG_TYPE_MAX in *.
  destruct (default _ _) as [[len tag] ct]. cbn [d_level d_type d_domain d_pid d_tid d_tv_sec d_tv_nsec].
  rewrite !Z.mod_small by lia. done.
Qed.

Section delivery.
Context (maxsz : list Z) (quota : Z -> Z) (name : Z -> string).

(** A packet that passes the checks of [onDataRecv], with the notice about
    dropped lines before it when flow control asks for one. *)
Lemma onDataRecv_delivers c pid data :
  let m := set_pid (HilogMsg_of_bytes data) (u32 pid) in
  let v := flow_verdict quota c m in
  let bt := ConvertBufType (msg_type m) in
  limits_ok maxsz -> coll_ok c -> m_isSupportSkipLog (m_hilogBuffer c) = true ->
  slen data = MAX_SOCKET_PACKET_LEN -> sizeof_HilogMsg <= msg_len m ->
  IsValidDomain (msg_type m) (msg_domain m) = true -> msg_type m < LOG_TYPE_MAX ->
  (countEnable c = false \/ LOG_DEBUG <= msg_level m) -> insert_invalid m = false ->
  exists c', onDataRecv maxsz quota name c pid data (msg_len m) = Some c' /\ coll_ok c' /\
    if v <? 0 then hilogDataList (m_hilogBuffer c') = hilogDataList (m_hilogBuffer c)
    else exists k1 k2 i notice,
      hilogDataList (m_hilogBuffer c') =
        evict bt k2 (if 0 <? v then evict bt k1 (hilogDataList (m_hilogBuffer c)) ++ [notice]
                     else hilogDataList (m_hilogBuffer c)) ++ [(i, HilogData_of_msg m)] /\
      (0 < v -> d_tag notice.2 = "LOGLIMIT" /\ d_content notice.2 = to_string v +:+ " line(s) dropped!").
Proof.
  intros m v bt Hlim Hc Hsk Hd Hlen Hdom Hty Hlv Hv.
  assert (msg_wf m) as Hw by apply set_pid_wf, HilogMsg_of_bytes_wf.
  assert (0 <= msg_tagLen m < 64) as Htl by apply Hw.
  assert (forall c1 dr, coll_ok c1 -> countEnable c1 = countEnable c ->
    exists c', count_msg name c1 data m dr = Some c' /\ coll_ok c' /\
      hilogDataList (m_hilogBuffer c') = hilogDataList (m_hilogBuffer c1)) as Hcount.
  { intros c1 dr Hc1 He. apply count_msg_ok; try done. rewrite He. destruct Hlv as [|Hlv]; [by left|right].
    destruct Hw as (_ & _ & Hty0 & Hlv0 & _). unfold info_valid, stats_info, LevelBase, LOG_LEVEL_MAX.
    cbn [i_level i_type]. lia. }
  unfold onDataRecv. destruct (Z.ltb_spec (msg_len m) sizeof_HilogMsg); [lia|].
  change (IsValidDomain (msg_type (HilogMsg_of_bytes data)) (msg_domain (HilogMsg_of_bytes data)) = true) in Hdom.
  change (msg_len m) with (msg_len (HilogMsg_of_bytes data)). rewrite Z.eqb_refl, Hdom. cbn [negb].
  fold m. unfold v, flow_verdict. pose proof (flow_verdict_range quota c m) as Hr. unfold flow_verdict in Hr.
  set (fl := if negb (msg_type m =? LOG_APP) && flowControl c && negb (debug c)
    then FlowCtrlDomain quota (g_domainMap c) m else (g_domainMap c, 0)).
  replace (if negb (msg_type m =? LOG_APP) && flowControl c && negb (debug c)
    then (FlowCtrlDomain quota (g_domainMap c) m).2 else 0) with fl.2 in Hr |- * by (unfold fl; by destruct (_ && _)).
  clearbody fl. destruct fl as [dm ret]. cbn [snd] in *.
  destruct (ret <? 0) eqn:En; [by apply (Hcount (set_domains c dm))|].
  destruct (Z.ltb_spec 0 ret) as [Hp|Hp].
  - destruct (drop_msg_data m ret Hw Hty ltac:(lia)) as (Hdv & Hdt & Hdc).
    destruct (InsertLogToBuffer_appends maxsz (set_domains c dm) (drop_msg m ret) Hlim Hc Hsk
      (drop_msg_wf _ _ Hw) Hdv) as (c1 & k1 & E1 & Hc1 & Hsk1 & He1 & Hl1).
    unfold InsertDropInfo. rewrite E1. cbn [fst].
    destruct (InsertLogToBuffer_appends maxsz c1 m Hlim Hc1 Hsk1 Hw Hv) as (c2 & k2 & -> & Hc2 & _ & He2 & Hl2).
    destruct (Z.eqb_spec (CONTENT_LEN m) 0); [by apply CONTENT_LEN_valid in Hv|].
    destruct (Hcount c2 false Hc2) as (c3 & -> & Hc3 & Hl3); [by rewrite He2, He1|].
    exists c3. split; [done|]. split; [done|]. rewrite Hl3, Hl2, Hl1.
    eexists k1, k2, _, (_, HilogData_of_msg (drop_msg m ret)). done.
  - destruct (InsertLogToBuffer_appends maxsz (set_domains c dm) m Hlim Hc Hsk Hw Hv)
      as (c2 & k2 & -> & Hc2 & _ & He2 & Hl2).
    destruct (Z.eqb_spec (CONTENT_LEN m) 0); [by apply CONTENT_LEN_valid in Hv|].
    destruct (Hcount c2 false Hc2) as (c3 & -> & Hc3 & Hl3); [done|].
    exists c3. split; [done|]. split; [done|]. rewrite Hl3, Hl2.
    exists 0%nat, k2, (next_id (m_hilogBuffer c)), (0%nat, HilogData_of_msg m). split; [done|lia].
Qed.

(** Serving a datagram of a client. *)
Lemma serve_sent c pid buffer h t ct :
  let sent := set_pid (sent_msg h (slen t + 1) (slen ct + 1) "") (u32 pid) in
  let v := flow_verdict quota c sent in
  let bt := ConvertBufType (msg_type h) in
  let l := hilogDataList (m_hilogBuffer c) in
  limits_ok maxsz -> coll_ok c -> m_isSupportSkipLog (m_hilogBuffer c) = true ->
  slen buffer = MAX_SOCKET_PACKET_LEN -> msg_wf h -> sendable t ct ->
  IsValidDomain (msg_type h) (msg_domain h) = true -> msg_type h < LOG_TYPE_MAX ->
  (countEnable c = false \/ LOG_DEBUG <= msg_level h) ->
  exists buffer' c',
    serve maxsz quota name buffer c pid
      (WriteLogMessage h (t +:+ String NUL "") (slen t + 1) (ct +:+ String NUL "") (slen ct + 1))
      = Some (buffer', c') /\ coll_ok c' /\
    if v <? 0 then hilogDataList (m_hilogBuffer c') = l
    else exists k1 k2 notice i d,
      hilogDataList (m_hilogBuffer c') =
        evict bt k2 (if 0 <? v then evict bt k1 l ++ [notice] else l) ++ [(i, d)] /\
      d_tag d = t /\ d_content d = ct /\ d_level d = msg_level h /\ d_type d = msg_type h /\
      d_domain d = msg_domain h /\ d_pid d = u32 pid /\ d_tid d = msg_tid h /\
      d_tv_sec d = msg_tv_sec h /\ d_tv_nsec d = msg_tv_nsec h /\
      (0 < v -> d_tag notice.2 = "LOGLIMIT" /\ d_content notice.2 = to_string v +:+ " line(s) dropped!").
Proof.
  intros sent v bt l Hlim Hc Hsk Hb Hh Hs Hdom Hty Hlv. pose proof Hs as [Ht Hct Htl Hfl].
  pose proof (slen_nonneg t). pose proof (slen_nonneg ct).
  unfold serve. rewrite (RecvPacket_sent h t ct buffer Hh Hs).
  set (data := encode_header _ +:+ _). unfold sizeof_HilogMsg, MAX_TAG_LEN, MAX_LOG_LEN in *.
  destruct (Z.ltb_spec 0 (28 + (slen t + 1) + (slen ct + 1))); [|lia].
  set (rest := str_drop (Z.to_nat (28 + (slen t + 1) + (slen ct + 1))) buffer) in *.
  assert (HilogMsg_of_bytes data = sent_msg h (slen t + 1) (slen ct + 1) (t +:+ String NUL (ct +:+ String NUL rest)))
    as Hm.
  { unfold data. rewrite HilogMsg_of_sent by (unfold MAX_TAG_LEN, MAX_LOG_LEN; try done; lia). f_equal.
    rewrite <- !str_app_assoc, str_cons_app, <- str_app_assoc. done. }
  assert (slen data = MAX_SOCKET_PACKET_LEN) as Hd.
  { unfold data. rewrite !slen_app, slen_encode_header, !slen_cons, slen_app. unfold rest.
    rewrite slen_drop, Hb, slen_cons. unfold MAX_SOCKET_PACKET_LEN, sizeof_HilogMsg. change (slen "") with 0. lia. }
  destruct (HilogData_of_sent h t ct (u32 pid) rest Hh Hs) as (Hv & _ & Htag & Hcon). rewrite <- Hm in Hv, Htag, Hcon.
  pose proof (onDataRecv_delivers c pid data) as Hdel. cbv zeta in Hdel. rewrite Hm in Hdel, Hv, Htag, Hcon.
  cbn [set_pid sent_msg msg_len msg_type msg_level msg_domain] in Hdel.
  unfold sizeof_HilogMsg in Hdel.
  destruct Hdel as (c' & -> & Hc' & Hl); try done; [lia | rewrite Hv; lia |].
  eexists _, c'. split; [done|]. split; [done|].
  change (flow_verdict quota c (set_pid (sent_msg h (slen t + 1) (slen ct + 1) _) (u32 pid))) with v in Hl.
  destruct (v <? 0); [done|]. destruct Hl as (k1 & k2 & i & notice & Hl & Hn).
  exists k1, k2, notice, i. eexists. split; [exact Hl|].
  assert (msg_wf (set_pid (sent_msg h (slen t + 1) (slen ct + 1) (t +:+ String NUL (ct +:+ String NUL rest))) (u32 pid)))
    as Hwf by (apply set_pid_wf, sent_msg_wf; unfold MAX_TAG_LEN, MAX_LOG_LEN; try done; lia).
  destruct (HilogData_of_msg_fields _ Hwf Hty) as (? & ? & ? & ? & ? & ? & ?). done.
Qed.

(** A line a client sends is the line the daemon stores: tag, content,
    level, type, domain and time are the client's, the pid is that of the
    sender's socket credentials, whatever earlier packets left in the receive
    buffer.  The line is left out exactly when flow control says so, and
    precedes it, when lines of the domain were dropped in the last period, a
    notice with their number, under the tag LOGLIMIT. *)
Theorem log_reaches_buffer c pid buffer h t ct :
  let sent := set_pid (sent_msg h (slen t + 1) (slen ct + 1) "") (u32 pid) in
  let v := flow_verdict quota c sent in
  let bt := ConvertBufType (msg_type h) in
  let l := hilogDataList (m_hilogBuffer c) in
  limits_ok maxsz -> coll_ok c -> m_isSupportSkipLog (m_hilogBuffer c) = true ->
  slen buffer = MAX_SOCKET_PACKET_LEN -> msg_wf h -> sendable t ct ->
  IsValidDomain (msg_type h) (msg_domain h) = true -> msg_type h < LOG_TYPE_MAX ->
  (countEnable c = false \/ LOG_DEBUG <= msg_level h) ->
  exists buffer' c',
    serve maxsz quota name buffer c pid
      (WriteLogMessage h (t +:+ String NUL "") (slen t + 1) (ct +:+ String NUL "") (slen ct + 1))
      = Some (buffer', c') /\ coll_ok c' /\
    if v <? 0 then hilogDataList (m_hilogBuffer c') = l
    else exists k1 k2 notice i d,
      hilogDataList (m_hilogBuffer c') =
        evict bt k2 (if 0 <? v then evict bt k1 l ++ [notice] else l) ++ [(i, d)] /\
      d_tag d = t /\ d_content d = ct /\ d_level d = msg_level h /\ d_type d = msg_type h /\
      d_domain d = msg_domain h /\ d_pid d = u32 pid /\ d_tid d = msg_tid h /\
      d_tv_sec d = msg_tv_sec h /\ d_tv_nsec d = msg_tv_nsec h /\
      (0 < v -> d_tag notice.2 = "LOGLIMIT" /\ d_content notice.2 = to_string v +:+ " line(s) dropped!").
Proof. apply serve_sent. Qed.
End delivery.

(** ** Examples *)

Definition ex_coll (counting controlled : bool) : LogCollector :=
  mkLogCollector (mkHilogBuffer (replicate 6 0) [] 0 ∅ (Reset (mkTS 0 0) (mkTS 0 0) example_stats) true)
    {[ 0xD002D00 := mkDomainInfo 100 101 3 (mkTS 5 0) ]} counting controlled false.

Lemma ex_coll_ok counting controlled : coll_ok (ex_coll counting controlled).
Proof. split; [apply empty_ok | apply Reset_wf]. Qed.

Definition ex_maxsz : list Z := replicate 6 65536.

Lemma ex_maxsz_ok : limits_ok ex_maxsz.
Proof.
  split; [done|]. intros t Ht. unfold LOG_TYPE_MAX in Ht.
  assert (t = 0 \/ t = 1 \/ t = 2 \/ t = 3 \/ t = 4 \/ t = 5) as Hc by lia.
  by destruct Hc as [->|[->|[->|[->|[->| ->]]]]].
Qed.

Definition ex_header (level : Z) : HilogMsg := mkHilogMsg 0 0 LOG_CORE level 0 10 20 10 1 2 0xD002D00 "".
Definition ex_recv : string := String.string_of_list_ascii (replicate (Z.to_nat MAX_SOCKET_PACKET_LEN) "x"%char).
Definition ex_send (level : Z) : string :=
  WriteLogMessage (ex_header level) ("tag" +:+ String NUL "") 4 ("hello" +:+ String NUL "") 6.

Lemma ex_header_wf level : 0 <= level < 8 -> msg_wf (ex_header level).
Proof. unfold msg_wf, ex_header, LOG_CORE. simpl. lia. Qed.

Lemma ex_sendable : sendable "tag" "hello".
Proof. split; try (by vm_compute); unfold no_char; apply (bool_decide_unpack _); by vm_compute. Qed.

Lemma collector_robust_witness :
  match serve_all ex_maxsz (fun _ => 100) (fun _ => "p") ex_recv (ex_coll true true) [(7, ex_send LOG_INFO); (7, "junk")] with
  | Some (buffer', c') => slen buffer' = MAX_SOCKET_PACKET_LEN /\ coll_ok c'
  | None => False
  end /\
  match serve_all ex_maxsz (fun _ => 100) (fun _ => "p") ex_recv (ex_coll true true) [(7, ex_send 2)] with
  | Some _ => False
  | None => exists p, p ∈ [(7, ex_send 2)] /\ bad_header p.2
  end.
Proof.
  assert (slen ex_recv = MAX_SOCKET_PACKET_LEN) as Hr by (by vm_compute).
  split.
  - pose proof (collector_robust ex_maxsz (fun _ => 100) (fun _ => "p") ex_recv (ex_coll true true)
      [(7, ex_send LOG_INFO); (7, "junk")] ex_maxsz_ok Hr (ex_coll_ok true true)) as H.
    destruct (serve_all _ _ _ _ _ _) as [[? ?]|] eqn:E; [exact H|]. clear H. by vm_compute in E.
  - pose proof (collector_robust ex_maxsz (fun _ => 100) (fun _ => "p") ex_recv (ex_coll true true)
      [(7, ex_send 2)] ex_maxsz_ok Hr (ex_coll_ok true true)) as H.
    destruct (serve_all _ _ _ _ _ _) as [[? ?]|] eqn:E; [|exact (proj2 H)]. clear H. by vm_compute in E.
Defined.

Lemma log_reaches_buffer_witness :
  let v := flow_verdict (fun _ => 100) (ex_coll true true) (set_pid (sent_msg (ex_header LOG_INFO) 4 6 "") (u32 7)) in
  v = 3 /\
  exists buffer' c',
    serve ex_maxsz (fun _ => 100) (fun _ => "p") ex_recv (ex_coll true true) 7 (ex_send LOG_INFO) = Some (buffer', c') /\
    (d_tag ∘ snd <$> hilogDataList (m_hilogBuffer c')) = ["LOGLIMIT"; "tag"].
Proof.
  split; [by vm_compute|].
  assert (slen ex_recv = MAX_SOCKET_PACKET_LEN) as Hr by (by vm_compute).
  assert (IsValidDomain LOG_CORE 0xD002D00 = true) as Hd by (by vm_compute).
  assert (0 <= LOG_INFO < 8) as Hl by done.
  destruct (log_reaches_buffer ex_maxsz (fun _ => 100) (fun _ => "p") (ex_coll true true) 7 ex_recv
    (ex_header LOG_INFO) "tag" "hello" ex_maxsz_ok (ex_coll_ok true true) eq_refl Hr (ex_header_wf _ Hl) ex_sendable
    Hd eq_refl (or_intror (Z.le_succ_diag_r LOG_DEBUG))) as (b' & c' & E & _ & _).
  exists b', c'. split; [exact E|].
  assert (match serve ex_maxsz (fun _ => 100) (fun _ => "p") ex_recv (ex_coll true true) 7 (ex_send LOG_INFO) with
    | Some (_, c') => (d_tag ∘ snd <$> hilogDataList (m_hilogBuffer c')) = ["LOGLIMIT"; "tag"]
    | None => False end) as Hx by (by vm_compute).
  change (serve ex_maxsz (fun _ => 100) (fun _ => "p") ex_recv (ex_coll true true) 7 (ex_send LOG_INFO) = Some (b', c')) in E.
  by rewrite E in Hx.
Defined.
