(* ===== verification/Kmsg.v ===== *)
(** * Kernel messages

    The parser of one kernel record (kmsg_parser.cpp) and the thread that
    moves records from the kernel into the kmsg buffer (log_kmsg.cpp).  What
    the system calls return and what other threads do to the buffer while the
    reader waits for room are arguments of the definitions. *)

From S2P Require Import Prelude Common TimeStamp Utils LogData LogStats LogBuffer LogBufferSpec.
From Stdlib Require Import Ascii.

(** ** KmsgParser *)

Definition KmsgLevelMap (prio : Z) : Z :=
  if (prio =? 0) || (prio =? 1) || (prio =? 2) then LOG_FATAL
  else if prio =? 3 then LOG_ERROR
  else if (prio =? 4) || (prio =? 5) then LOG_WARN
  else if prio =? 6 then LOG_INFO
  else LOG_DEBUG.

(** A vector of [n] NUL characters. *)
Fixpoint nuls (n : nat) : string := match n with O => "" | S n => String NUL (nuls n) end.

(** The tag is empty, so that the flexible array is its NUL and the content.
    The record's own priority is not looked at. *)
Definition ParseKmsg (kmsgBuffer : string) (real : LogTimeStamp) : option HilogMsg :=
  let kmsgStr := cstr kmsgBuffer in
  let tagStr := "" in
  let tagLen := slen tagStr in
  let len := slen kmsgStr + 1 in
  let msgLen := sizeof_HilogMsg + tagLen + len + 1 in
  tag ← strncpy_s (msgLen - sizeof_HilogMsg) tagStr tagLen;
  content ← strncpy_s (msgLen - sizeof_HilogMsg - tagLen) kmsgStr len;
  Some {| msg_len := u16 msgLen; msg_version := 0; msg_type := LOG_KMSG; msg_level := KmsgLevelMap LOG_INFO;
          msg_tagLen := (tagLen + 1) mod 64;
          msg_tv_sec := u32 (tv_sec real); msg_tv_nsec := u32 (tv_nsec real); msg_mono_sec := 0;
          msg_pid := 0; msg_tid := 0; msg_domain := 0;
          msg_tag := tag +:+ String NUL (content +:+ String NUL "") |}.

(** ** LogKmsg *)

(** What one [read] returns: the bytes, or -1 with [errno] EPIPE or another. *)
Inductive read_result := RdBytes (s : string) | RdError (epipe : bool).

Section kmsg.
Context (BUFSIZ : Z) (maxsz : list Z).

(** The loop around [read]; [None]: the calls given are not enough. *)
Fixpoint read_retry (reads : list read_result) : option read_result :=
  match reads with
  | [] => None
  | RdError true :: reads => read_retry reads
  | r :: _ => Some r
  end.

(** [Insert] again and again while the buffer is full; [others] is what other
    threads do to the buffer during each wait, [None] when it stays full. *)
Fixpoint insert_wait (b : HilogBuffer) (msg : HilogMsg) (isFull : bool)
    (others : list (HilogBuffer -> HilogBuffer)) : option HilogBuffer :=
  let '(b, isFull, _, _) := Insert maxsz b msg isFull in
  if isFull then
    match others with
    | [] => None
    | other :: others => insert_wait (other b) msg isFull others
    end
  else Some b.

(** What happens around one call of [LinuxReadOneKmsg]. *)
Record turn := mkTurn {
  t_stop : bool;        (* the thread status read before it is STOP *)
  t_reads : list read_result;
  t_real : LogTimeStamp;
  t_others : list (HilogBuffer -> HilogBuffer);
}.

Definition LinuxReadOneKmsg (b : HilogBuffer) (t : turn) : option (HilogBuffer * Z) :=
  match read_retry (t_reads t) with
  | None => None
  | Some (RdError _) => Some (b, -1)
  | Some (RdBytes s) =>
      let kmsgBuffer := s +:+ nuls (Z.to_nat (BUFSIZ - slen s)) in
      let size := slen s in
      if 0 <? size then
        match ParseKmsg kmsgBuffer (t_real t) with
        | Some msg => b' ← insert_wait b msg false (t_others t); Some (b', size)
        | None => Some (b, size)
        end
      else Some (b, size)
  end.

Definition maxFailTime : Z := 10.

(** The reading loop of [LinuxReadAllKmsg]; [None]: still running, or blocked
    in a call, when the turns end. *)
Fixpoint read_all (b : HilogBuffer) (rdFailTimes : Z) (turns : list turn) : option (HilogBuffer * Z) :=
  match turns with
  | [] => None
  | t :: turns =>
      if t_stop t then Some (b, 1)
      else
        '(b, sz) ← LinuxReadOneKmsg b t;
        if sz <? 0 then
          let rdFailTimes := rdFailTimes + 1 in
          if maxFailTime <? rdFailTimes then Some (b, -1) else read_all b rdFailTimes turns
        else read_all b 0 turns
  end.

(** With the opening of the kernel log: [access] of /proc/kmsg, the inherited
    descriptor of /dev/kmsg, or the bounded wait for opening /proc/kmsg. *)
Definition LinuxReadAllKmsg (accessible : bool) (control_file : Z) (opened : bool)
    (b : HilogBuffer) (turns : list turn) : option (HilogBuffer * Z) :=
  if negb accessible && (control_file <? 0) then Some (b, RET_FAIL)
  else if accessible && negb opened then Some (b, RET_FAIL)
  else read_all b 0 turns.
End kmsg.

(** ** The thread status *)

Inductive ThreadStatus := START | NONEXIST | STOP.

(** The new status and whether a thread is started. *)
Definition Start (st : ThreadStatus) : ThreadStatus * bool :=
  (START, match st with NONEXIST | STOP => true | START => false end).

(** The new status and whether the thread is joined. *)
Definition Stop (st : ThreadStatus) : ThreadStatus * bool :=
  match st with NONEXIST | STOP => (st, false) | START => (STOP, true) end.

(** * Lemmas and properties *)

Lemma slen_nuls n : slen (nuls n) = Z.of_nat n.
Proof. induction n as [|n IH]; [done|]. cbn [nuls]. rewrite slen_cons. lia. Qed.

Lemma cstr_app_nuls s n : (0 < n)%nat -> cstr (s +:+ nuls n) = cstr s.
Proof.
  intros Hn. induction s as [|c s IH].
  - destruct n; [lia|]. done.
  - rewrite str_cons_app. simpl. case_decide; [done|]. by rewrite IH.
Qed.

Lemma slen_cstr s : slen (cstr s) <= slen s.
Proof.
  induction s as [|c s IH]; [done|]. simpl. case_decide; rewrite ?slen_cons; [|lia].
  change (slen "") with 0. pose proof (slen_nonneg s). lia.
Qed.

(** A record becomes a WARN line without tag whose content is the record up to
    its first NUL; a record of 4096 bytes or more is one [Insert] refuses. *)
Lemma ParseKmsg_ok buffer real :
  slen (cstr buffer) < 2 ^ 15 ->
  exists msg, ParseKmsg buffer real = Some msg /\ msg_wf msg /\
    insert_invalid msg = (MAX_LOG_LEN <=? slen (cstr buffer)) /\
    CONTENT_LEN msg = slen (cstr buffer) + 1 /\ msg_type msg = LOG_KMSG /\
    (slen (cstr buffer) < MAX_LOG_LEN ->
     let d := HilogData_of_msg msg in
     d_tag d = "" /\ d_content d = cstr buffer /\ d_level d = LOG_WARN /\ d_type d = LOG_KMSG).
Proof.
  intros Hs. pose proof (slen_nonneg (cstr buffer)). unfold ParseKmsg, sizeof_HilogMsg.
  assert (cstr (cstr buffer) = cstr buffer) as Hid by apply cstr_id, cstr_no_nul.
  change (slen "") with 0. rewrite !strncpy_s_short, Hid by lia. rewrite str_take_all by lia.
  cbn [mbind option_bind]. change ((0 + 1) mod 64) with 1. rewrite (wrapu_small 16) by lia.
  eexists. split; [done|]. change (str_take (Z.to_nat 0) (cstr "")) with "". rewrite str_nil_app.
  set (m := mkHilogMsg _ _ _ _ _ _ _ _ _ _ _ _).
  assert (CONTENT_LEN m = slen (cstr buffer) + 1) as Hcl.
  { unfold CONTENT_LEN, m, sizeof_HilogMsg. cbn [msg_len msg_tagLen]. rewrite wrapu_small; lia. }
  split; [|split; [|split; [done|split; [done|]]]].
  - pose proof (wrapu_range 32 (tv_sec real) ltac:(lia)). pose proof (wrapu_range 32 (tv_nsec real) ltac:(lia)).
    unfold msg_wf, m. cbn [msg_len msg_version msg_type msg_level msg_tagLen msg_tv_sec msg_tv_nsec
      msg_mono_sec msg_pid msg_tid msg_domain]. change (KmsgLevelMap LOG_INFO) with 5. unfold LOG_KMSG. lia.
  - unfold insert_invalid. rewrite Hcl. unfold m, MAX_LOG_LEN, MAX_TAG_LEN, LOG_TYPE_MAX, LOG_KMSG.
    cbn [msg_tagLen msg_type]. lia.
  - unfold MAX_LOG_LEN. intros Hlt. unfold HilogData_of_msg. rewrite Hcl.
    rewrite Init_ok by (unfold m, MAX_LOG_LEN, MAX_TAG_LEN; cbn [msg_tagLen]; lia). cbn [default].
    split; [done|]. split; [|done]. cbn [d_content]. unfold CONTENT_PTR, m. cbn [msg_tag msg_tagLen].
    change (str_drop (Z.to_nat 1) (String NUL (cstr buffer +:+ String NUL ""))) with (cstr buffer +:+ String NUL "").
    rewrite cstr_app_nul by apply cstr_no_nul. apply str_take_all. lia.
Qed.

Section kmsg_props.
Context (BUFSIZ : Z) (maxsz : list Z).
Hypothesis Hlim : limits_ok maxsz.

Definition has_room (need : Z) (b : HilogBuffer) : Prop :=
  need + tsize LOG_KMSG (hilogDataList b) < aget maxsz LOG_KMSG.

(** A message that fits stays pending only until another thread has made room. *)
Lemma insert_wait_stores msg others o b isFull :
  buf_ok b -> msg_wf msg -> insert_invalid msg = false -> msg_type msg = LOG_KMSG ->
  Forall (fun o => forall b, buf_ok b -> buf_ok (o b)) (others ++ [o]) ->
  (forall b, buf_ok b -> has_room (CONTENT_LEN msg) (o b)) ->
  exists b' rest i, insert_wait maxsz b msg isFull (others ++ [o]) = Some b' /\ buf_ok b' /\
    hilogDataList b' = rest ++ [(i, HilogData_of_msg msg)].
Proof using Hlim.
  intros Hb Hw Hv Ht Hall Hroom.
  assert (forall b os isFull, buf_ok b -> (exists b' rest i,
      insert_wait maxsz b msg isFull os = Some b' /\ buf_ok b' /\ hilogDataList b' = rest ++ [(i, HilogData_of_msg msg)])
    \/ ~ has_room (CONTENT_LEN msg) b /\ exists b1, buf_ok b1 /\ insert_wait maxsz b msg isFull os =
         match os with [] => None | o :: os => insert_wait maxsz (o b1) msg true os end) as Hstep.
  { intros b0 os f Hb0. destruct os as [|o1 os]; cbn [insert_wait];
    destruct (Insert maxsz b0 msg f) as [[[b1 full] r] ntf] eqn:E;
    destruct (Insert_cases maxsz b0 msg f b1 full r ntf Hlim Hb0 Hw Hv E) as (k & Hb1 & _ & _ & _ & Hr & Hc);
    rewrite Ht in Hr, Hc; change (ConvertBufType LOG_KMSG) with LOG_KMSG in *;
    (destruct full; [right | left; destruct Hc as (_ & Hl & _); eauto 6]);
    (split; [intros HR; by destruct (Hr HR) | eauto]). }
  revert b isFull Hb Hall. induction others as [|o1 others IH]; intros b isFull Hb Hall; simpl app in *.
  - destruct (Hstep b [o] isFull Hb) as [?|[_ (b1 & Hb1 & ->)]]; [done|].
    apply Forall_cons in Hall as [Hall _]. destruct (Hstep (o b1) [] true (Hall _ Hb1)) as [?|[Hno _]]; [done|].
    destruct Hno. by apply Hroom.
  - destruct (Hstep b (o1 :: others ++ [o]) isFull Hb) as [?|[_ (b1 & Hb1 & ->)]]; [done|].
    apply Forall_cons in Hall as [Ho1 Hall]. apply IH; [by apply Ho1 | done].
Qed.

(** A record read from the kernel is stored as soon as other threads have
    made room for it, behind all other lines, as a WARN line of type kmsg
    without tag whose content is the record up to its first NUL; a record of
    4096 bytes or more is dropped without a trace. *)
Theorem kmsg_record_stored b t s others o :
  buf_ok b -> read_retry (t_reads t) = Some (RdBytes s) -> 0 < slen s < BUFSIZ -> BUFSIZ <= 2 ^ 15 ->
  t_others t = others ++ [o] -> Forall (fun o => forall b, buf_ok b -> buf_ok (o b)) (t_others t) ->
  (forall b, buf_ok b -> has_room (slen s + 1) (o b)) ->
  exists b', LinuxReadOneKmsg BUFSIZ maxsz b t = Some (b', slen s) /\ buf_ok b' /\
    if MAX_LOG_LEN <=? slen (cstr s) then b' = b
    else exists rest i d, hilogDataList b' = rest ++ [(i, d)] /\
      d_tag d = "" /\ d_content d = cstr s /\ d_level d = LOG_WARN /\ d_type d = LOG_KMSG.
Proof using Hlim.
  intros Hb Hr Hs HB Ho Hall Hroom. pose proof (slen_cstr s). unfold LinuxReadOneKmsg. rewrite Hr.
  destruct (Z.ltb_spec 0 (slen s)); [|lia].
  set (buf := s +:+ nuls (Z.to_nat (BUFSIZ - slen s))).
  assert (cstr buf = cstr s) as Hbuf by (apply cstr_app_nuls; lia).
  destruct (ParseKmsg_ok buf (t_real t)) as (msg & -> & Hw & Hv & Hcl & Ht & Hd); [rewrite Hbuf; lia|].
  rewrite Hbuf in Hv, Hcl, Hd. destruct (Z.leb_spec MAX_LOG_LEN (slen (cstr s))) as [Hge|Hlt].
  - exists b. split; [|done]. destruct (t_others t); cbn [insert_wait]; unfold Insert; by rewrite Hv.
  - rewrite Ho in Hall |- *.
    destruct (insert_wait_stores msg others o b false Hb Hw Hv Ht Hall) as (b' & rest & i & -> & Hb' & Hl).
    { intros b0 Hb0. specialize (Hroom b0 Hb0). unfold has_room in *. lia. }
    exists b'. split; [done|]. split; [done|]. exists rest, i, (HilogData_of_msg msg). split; [done|]. by apply Hd.
Qed.

(** A turn whose [read] fails, and one that neither stops nor blocks. *)
Definition failing (t : turn) : Prop := exists e, read_retry (t_reads t) = Some (RdError e).
Definition runs (t : turn) : Prop := t_stop t = false /\ forall b, LinuxReadOneKmsg BUFSIZ maxsz b t <> None.

Lemma read_one_fails t b :
  runs t -> (failing t /\ LinuxReadOneKmsg BUFSIZ maxsz b t = Some (b, -1)) \/
    (~ failing t /\ exists b' sz, LinuxReadOneKmsg BUFSIZ maxsz b t = Some (b', sz) /\ 0 <= sz).
Proof.
  intros [_ Hn]. specialize (Hn b). unfold failing, LinuxReadOneKmsg in *.
  destruct (read_retry (t_reads t)) as [[s|e]|] eqn:E; [| |done].
  - right. split; [by intros [? ?]|]. pose proof (slen_nonneg s). destruct (0 <? slen s); [|by eauto].
    destruct (ParseKmsg _ _) as [msg|]; [|by eauto]. destruct (insert_wait _ _ _ _ _); [simpl; eauto | done].
  - left. eauto.
Qed.

(** [n] failing turns in a row, [m] of them enough at the beginning. *)
Definition failing_row (m n : nat) (turns : list turn) : Prop :=
  exists pre win post, turns = pre ++ win ++ post /\ Forall failing win /\
    (length win = n \/ pre = [] /\ length win = m).

Lemma failing_row_fail t m n turns :
  failing t -> (m < n)%nat -> failing_row (S m) n (t :: turns) <-> failing_row m n turns.
Proof.
  intros Ht Hmn. split.
  - intros ([|t' pre] & win & post & E & Hw & Hl); simpl in E.
    + destruct win as [|t' win]; [simpl in Hl; lia|]. injection E as -> ->. apply Forall_cons in Hw as [_ Hw].
      exists [], (take m win), (drop m win ++ post). simpl app. rewrite app_assoc, take_drop.
      split; [done|]. split; [by apply Forall_take|]. right. split; [done|]. rewrite length_take. simpl in Hl. lia.
    + injection E as -> ->. exists pre, win, post. split; [done|]. split; [done|]. left. by destruct Hl as [|[? _]].
  - intros (pre & win & post & -> & Hw & [Hl|[-> Hl]]).
    + exists (t :: pre), win, post. auto.
    + exists [], (t :: win), post. split; [done|]. split; [by constructor|]. right. simpl. by rewrite Hl.
Qed.

Lemma failing_row_ok t m n turns :
  ~ failing t -> (0 < m)%nat -> (0 < n)%nat -> failing_row m n (t :: turns) <-> failing_row n n turns.
Proof.
  intros Ht Hm Hn. split.
  - intros ([|t' pre] & win & post & E & Hw & Hl); simpl in E.
    + destruct win as [|t' win]; [simpl in Hl; lia|]. injection E as -> ->. by apply Forall_cons in Hw as [? _].
    + injection E as -> ->. exists pre, win, post. split; [done|]. split; [done|]. left. by destruct Hl as [|[? _]].
  - intros (pre & win & post & -> & Hw & Hl). exists (t :: pre), win, post. split; [done|]. split; [done|].
    left. tauto.
Qed.

Lemma read_all_gives_up turns b k :
  Forall runs turns -> 0 <= k <= maxFailTime ->
  (exists b', read_all BUFSIZ maxsz b k turns = Some (b', -1)) /\ failing_row (Z.to_nat (11 - k)) 11 turns \/
  read_all BUFSIZ maxsz b k turns = None /\ ~ failing_row (Z.to_nat (11 - k)) 11 turns.
Proof.
  unfold maxFailTime. revert b k. induction turns as [|t turns IH]; intros b k Hall Hk.
  { right. split; [done|]. intros (pre & win & post & E & _ & Hl). symmetry in E.
    apply app_nil in E as [_ [-> _]%app_nil]. simpl in Hl. lia. }
  apply Forall_cons in Hall as [Ht Hall]. cbn [read_all]. rewrite (proj1 Ht).
  destruct (read_one_fails t b Ht) as [[Hf ->]|[Hf (b' & sz & -> & Hsz)]]; cbn [mbind option_bind].
  - destruct (Z.ltb_spec (-1) 0); [|lia]. unfold maxFailTime. destruct (Z.ltb_spec 10 (k + 1)) as [Hgt|Hle].
    + left. split; [eauto|]. exists [], [t], turns. split; [done|]. split; [by repeat constructor|].
      right. split; [done|]. replace k with 10 by lia. done.
    + specialize (IH b (k + 1) Hall ltac:(lia)).
      replace (Z.to_nat (11 - k)) with (S (Z.to_nat (11 - (k + 1)))) by lia.
      rewrite failing_row_fail by (done || lia). done.
  - destruct (Z.ltb_spec sz 0); [lia|]. rewrite failing_row_ok by (done || lia). apply (IH b' 0 Hall). lia.
Qed.

(** C40: the kernel reader gives up exactly when [read] has failed eleven times
    in a row (interrupted reads, reported by EPIPE, do not count), however
    many single failures there are before; otherwise it keeps running. *)
Theorem kmsg_reader_gives_up b turns :
  Forall runs turns ->
  ((exists b', read_all BUFSIZ maxsz b 0 turns = Some (b', -1)) <->
   exists pre win post, turns = pre ++ win ++ post /\ length win = 11%nat /\ Forall failing win) /\
  ((exists b', read_all BUFSIZ maxsz b 0 turns = Some (b', -1)) \/ read_all BUFSIZ maxsz b 0 turns = None).
Proof.
  intros Hall.
  assert ((exists pre win post, turns = pre ++ win ++ post /\ length win = 11%nat /\ Forall failing win) <->
    failing_row (Z.to_nat (11 - 0)) 11 turns) as ->.
  { change (Z.to_nat (11 - 0)) with 11%nat. unfold failing_row.
    split; intros (pre & win & post & ? & ? & ?); exists pre, win, post; intuition. }
  destruct (read_all_gives_up turns b 0 Hall) as [[(b' & E) ?]|[-> ?]]; [done| |].
  - split; [|by eauto]. split; [done | by eauto].
  - split; [|by right]. split; [by intros [? ?] | done].
Qed.
End kmsg_props.

(** ** Examples *)

Definition ex_kbuf : HilogBuffer :=
  mkHilogBuffer (replicate 6 0) [] 0 ∅ example_stats false.
Definition ex_kmax : list Z := replicate 6 65536.

Lemma ex_kmax_ok : limits_ok ex_kmax.
Proof.
  split; [done|]. intros t Ht. unfold LOG_TYPE_MAX in Ht.
  assert (t = 0 \/ t = 1 \/ t = 2 \/ t = 3 \/ t = 4 \/ t = 5) as Hc by lia.
  by destruct Hc as [->|[->|[->|[->|[->| ->]]]]].
Qed.

(** Another thread that clears the kernel lines. *)
Definition ex_clear (b : HilogBuffer) : HilogBuffer := (Delete b LOG_KMSG).1.

Definition ex_turn (reads : list read_result) : turn := mkTurn false reads (mkTS 10 20) [ex_clear].

Lemma tsize_no_kmsg l : tsize LOG_KMSG (filter (fun n => d_type n.2 <> LOG_KMSG) l) = 0.
Proof.
  induction l as [|n l IH]; [done|]. rewrite filter_cons. case_decide as Hn; [|done].
  rewrite tsize_cons, IH, decide_False; [done|]. unfold in_buf, ConvertBufType, LOG_ONLY_PRERELEASE, LOG_CORE, LOG_KMSG in *.
  case_goal; lia.
Qed.

Lemma kmsg_record_stored_witness :
  exists b', LinuxReadOneKmsg 1024 ex_kmax ex_kbuf (ex_turn [RdError true; RdBytes "<6>usb 1-1: new"]) = Some (b', 15) /\
    map (fun n => (d_content n.2, d_level n.2)) (hilogDataList b') = [("<6>usb 1-1: new", LOG_WARN)].
Proof.
  assert (Forall (fun o => forall b, buf_ok b -> buf_ok (o b)) [ex_clear]) as Hall.
  { constructor; [|constructor]. intros b Hb. unfold ex_clear. by apply Delete_ok. }
  assert (forall b, buf_ok b -> has_room ex_kmax (15 + 1) (ex_clear b)) as Hroom.
  { intros b Hb. unfold has_room, ex_clear. destruct (Delete b LOG_KMSG) as [b' ret] eqn:E.
    destruct (Delete_cases b LOG_KMSG b' ret Hb ltac:(done) E) as (Hl & _). simpl. rewrite Hl, tsize_no_kmsg. done. }
  destruct (kmsg_record_stored 1024 ex_kmax ex_kmax_ok ex_kbuf
    (ex_turn [RdError true; RdBytes "<6>usb 1-1: new"]) "<6>usb 1-1: new" [] ex_clear
    (empty_ok _ _) eq_refl ltac:(done) ltac:(done) eq_refl Hall Hroom) as (b' & E & _).
  exists b'. split; [exact E|].
  assert (match LinuxReadOneKmsg 1024 ex_kmax ex_kbuf (ex_turn [RdError true; RdBytes "<6>usb 1-1: new"]) with
    | Some (b', _) => map (fun n => (d_content n.2, d_level n.2)) (hilogDataList b') = [("<6>usb 1-1: new", LOG_WARN)]
    | None => False end) as Hx by (by vm_compute).
  rewrite E in Hx. exact Hx.
Defined.

Lemma kmsg_reader_gives_up_witness :
  exists b', read_all 1024 ex_kmax ex_kbuf 0
    ([ex_turn [RdError false]; ex_turn [RdBytes ""]] ++ replicate 11 (ex_turn [RdError true; RdError false])) = Some (b', -1).
Proof.
  assert (Forall (runs 1024 ex_kmax)
    ([ex_turn [RdError false]; ex_turn [RdBytes ""]] ++ replicate 11 (ex_turn [RdError true; RdError false]))) as Hall.
  { repeat constructor; by vm_compute. }
  apply (kmsg_reader_gives_up 1024 ex_kmax ex_kbuf _ Hall).
  exists [ex_turn [RdError false]; ex_turn [RdBytes ""]], (replicate 11 (ex_turn [RdError true; RdError false])), [].
  split; [done|]. split; [done|]. apply Forall_replicate. by exists false.
Defined.
