(* ===== verification/LogPrint.v ===== *)
(** * Printing of log lines

    The text of a stored line (log_print.cpp): colour, prefix with time,
    process, level, type, domain and tag, and the splitting of a content with
    line feeds.  [localtime_r] is a parameter. *)

From S2P Require Import Prelude Common TimeStamp Utils.
From Stdlib Require Import Ascii.

Definition COLOR_BLUE : Z := 75.
Definition COLOR_DEFAULT : Z := 231.
Definition COLOR_GREEN : Z := 40.
Definition COLOR_ORANGE : Z := 166.
Definition COLOR_RED : Z := 196.
Definition COLOR_YELLOW : Z := 226.
Definition TM_YEAR_BASE : Z := 1900.
Definition DT_WIDTH : Z := 2.
Definition NS2US : Z := 1000.
Definition NS2MS : Z := 1000000.
Definition MONO_WIDTH : Z := 8.
Definition EPOCH_WIDTH : Z := 10.
Definition MSEC_WIDTH : Z := 3.
Definition USEC_WIDTH : Z := 6.
Definition NSEC_WIDTH : Z := 9.
Definition PID_WIDTH : Z := 5.
Definition DOMAIN_WIDTH : Z := 5.
Definition DOMAIN_SHORT_MASK : Z := 0xFFFFF.
Definition PREFIX_LEN : Z := 42.

Inductive FormatTime := FT_INVALID | FT_TIME | FT_EPOCH | FT_MONOTONIC.
Inductive FormatTimeAccu := FA_INVALID | FA_MSEC | FA_USEC | FA_NSEC.

#[export] Instance FormatTime_eq_dec : EqDecision FormatTime.
Proof. solve_decision. Defined.
#[export] Instance FormatTimeAccu_eq_dec : EqDecision FormatTimeAccu.
Proof. solve_decision. Defined.

Record LogContent := mkLogContent {
  lc_level : Z; lc_type : Z; lc_pid : Z; lc_tid : Z; lc_domain : Z;
  lc_tv_sec : Z; lc_tv_nsec : Z; lc_mono_sec : Z;
  lc_tag : string; lc_log : string;
}.

Record LogFormat := mkLogFormat {
  colorful : bool; timeFormat : FormatTime; timeAccuFormat : FormatTimeAccu;
  f_year : bool; f_zone : bool; f_wrap : bool;
}.

(** The broken-down time of [localtime_r]. *)
Record tm := mkTm {
  tm_sec : Z; tm_min : Z; tm_hour : Z; tm_mday : Z; tm_mon : Z; tm_year : Z; tm_zone : string;
}.

Definition LF : ascii := "010"%char.
Definition ESC : ascii := "027"%char.
Definition endl : string := String LF "".

Definition GetColor (level : Z) : Z :=
  if level =? LOG_DEBUG then COLOR_BLUE
  else if level =? LOG_INFO then COLOR_GREEN
  else if level =? LOG_WARN then COLOR_ORANGE
  else if level =? LOG_ERROR then COLOR_RED
  else if level =? LOG_FATAL then COLOR_YELLOW
  else COLOR_DEFAULT.

Definition GetLogTypePrefix (type : Z) : string :=
  if type =? LOG_APP then "A"
  else if type =? LOG_INIT then "I"
  else if type =? LOG_CORE then "C"
  else if type =? LOG_KMSG then "K"
  else if type =? LOG_ONLY_PRERELEASE then "P"
  else " ".

Definition ShortDomain (d : Z) : Z := Z.land d DOMAIN_SHORT_MASK.

(** [setfill(c) << setw(w) << s]. *)
Definition setw (c : ascii) (w : Z) (s : string) : string := fill (Z.to_nat (w - slen s)) c +:+ s.

(** [StringToWstring(s).length()]: the number of code points of a UTF-8
    string; [None] is the exception thrown for a malformed one. *)
Definition in_byte (lo hi : Z) (c : ascii) : bool := (lo <=? byte_val c) && (byte_val c <=? hi).
Definition cont (c : ascii) : bool := in_byte 0x80 0xBF c.

Definition second_ok (lead second : ascii) : bool :=
  let b := byte_val lead in
  if b =? 0xE0 then in_byte 0xA0 0xBF second
  else if b =? 0xED then in_byte 0x80 0x9F second
  else if b =? 0xF0 then in_byte 0x90 0xBF second
  else if b =? 0xF4 then in_byte 0x80 0x8F second
  else cont second.

Fixpoint wide_length (s : string) : option Z :=
  match s with
  | EmptyString => Some 0
  | String a s1 =>
      if in_byte 0 0x7F a then Z.succ <$> wide_length s1
      else
        match s1 with
        | EmptyString => None
        | String b s2 =>
            if in_byte 0xC2 0xDF a then (if cont b then Z.succ <$> wide_length s2 else None)
            else
              match s2 with
              | EmptyString => None
              | String c s3 =>
                  if in_byte 0xE0 0xEF a then
                    if second_ok a b && cont c then Z.succ <$> wide_length s3 else None
                  else
                    match s3 with
                    | EmptyString => None
                    | String d s4 =>
                        if in_byte 0xF0 0xF4 a then
                          if second_ok a b && cont c && cont d then Z.succ <$> wide_length s4 else None
                        else None
                    end
              end
        end
  end.

Section print.
Context (localtime_r : Z -> option tm).

(** The time, and whether the rest of the prefix follows. *)
Definition print_time (content : LogContent) (format : LogFormat) : string * bool :=
  match timeFormat format with
  | FT_TIME =>
      match localtime_r (lc_tv_sec content) with
      | None => ("", false)
      | Some tl =>
          ((if f_zone format then tm_zone tl +:+ " " else "") +:+
           (if f_year format then to_string (tm_year tl + TM_YEAR_BASE) +:+ "-" else "") +:+
           setw "0" DT_WIDTH (to_string (tm_mon tl + 1)) +:+ "-" +:+
           setw "0" DT_WIDTH (to_string (tm_mday tl)) +:+ " " +:+
           setw "0" DT_WIDTH (to_string (tm_hour tl)) +:+ ":" +:+
           setw "0" DT_WIDTH (to_string (tm_min tl)) +:+ ":" +:+
           setw "0" DT_WIDTH (to_string (tm_sec tl)), true)
      end
  | FT_MONOTONIC => (setw " " MONO_WIDTH (to_string (lc_mono_sec content)), true)
  | FT_EPOCH => (setw " " EPOCH_WIDTH (to_string (lc_tv_sec content)), true)
  | FT_INVALID => ("Invalid time format" +:+ endl, false)
  end.

Definition print_accuracy (content : LogContent) (format : LogFormat) : string * bool :=
  match timeAccuFormat format with
  | FA_MSEC => (setw "0" MSEC_WIDTH (to_string (lc_tv_nsec content / NS2MS)), true)
  | FA_USEC => (setw "0" USEC_WIDTH (to_string (lc_tv_nsec content / NS2US)), true)
  | FA_NSEC => (setw "0" NSEC_WIDTH (to_string (lc_tv_nsec content)), true)
  | FA_INVALID => ("Invalid time accuracy format" +:+ endl, false)
  end.

Definition PrintLogPrefix (content : LogContent) (format : LogFormat) : string :=
  let '(t, go) := print_time content format in
  if negb go then t
  else
    let '(a, go) := print_accuracy content format in
    if negb go then t +:+ "." +:+ a
    else if negb (lc_type content =? LOG_KMSG) then
      t +:+ "." +:+ a +:+
      " " +:+ setw " " PID_WIDTH (to_string (lc_pid content)) +:+
      " " +:+ setw " " PID_WIDTH (to_string (lc_tid content)) +:+
      " " +:+ LogLevel2ShortStr (lc_level content) +:+ " " +:+
      GetLogTypePrefix (lc_type content) +:+
      setw "0" DOMAIN_WIDTH (Uint2HexStr (ShortDomain (lc_domain content))) +:+
      "/" +:+ lc_tag content +:+ ": "
    else t +:+ "." +:+ a +:+ " " +:+ lc_tag content +:+ " ".

(** The prefix of a continuation line. *)
Definition AdaptWrap (content : LogContent) (format : LogFormat) : option string :=
  if f_wrap format then
    n ← wide_length (lc_tag content); Some (setw " " (PREFIX_LEN + n) " ")
  else Some (PrintLogPrefix content format).

(** [p[0] != '\0' && p[0] != '\n']. *)
Definition starts_line (p : string) : bool :=
  match p with EmptyString => false | String c _ => negb (bool_decide (c = LF)) end.

(** The scan over the content: [pHead] is where the current line begins and
    [len] the distance to [pScan]. *)
Fixpoint print_scan (content : LogContent) (format : LogFormat) (pScan pHead : string) (len : Z)
    (out : string) : option (string * string) :=
  match pScan with
  | EmptyString => Some (out, pHead)
  | String c next =>
      if bool_decide (c = LF) then
        if negb (memcpy_s MAX_LOG_LEN len) then Some (out, pHead)
        else
          let tmp := str_take (Z.to_nat (if len <? MAX_LOG_LEN - 1 then len else MAX_LOG_LEN - 1)) pHead in
          let out := if bool_decide (tmp = "") then out else out +:+ tmp +:+ endl in
          if starts_line next then
            prefix ← AdaptWrap content format;
            print_scan content format next next 0 (out +:+ prefix)
          else print_scan content format next next 0 out
      else print_scan content format next pHead (len + 1) out
  end.

Definition color_on (content : LogContent) (format : LogFormat) : string :=
  if colorful format then String ESC "[38;5;" +:+ to_string (GetColor (lc_level content)) +:+ "m" else "".
Definition color_off (format : LogFormat) : string := if colorful format then String ESC "[0m" else "".

Definition LogPrintWithFormat (content : LogContent) (format : LogFormat) : option string :=
  let log := cstr (lc_log content) in
  let out := color_on content format in
  let out := if starts_line log then out +:+ PrintLogPrefix content format else out in
  '(out, pHead) ← print_scan content format log log 0 out;
  let out := if bool_decide (pHead = "") then out else out +:+ pHead in
  let out := out +:+ color_off format in
  Some (if bool_decide (pHead = "") then out else out +:+ endl).
End print.

(** * Lemmas and properties *)

(** The lines of a text: the first one and the others. *)
Fixpoint lines_of (s : string) : string * list string :=
  match s with
  | EmptyString => ("", [])
  | String c s =>
      let '(l, ls) := lines_of s in
      if decide (c = LF) then ("", l :: ls) else (String c l, ls)
  end.

(** What is printed of a line [l] whose prefix is out, and of those after it:
    every line that is not empty on a line of its own, after the prefix [a];
    [off] comes before the last line feed. *)
Fixpoint render (a off : string) (l : string) (ls : list string) : string :=
  match ls with
  | [] => l +:+ off +:+ (if decide (l = "") then "" else endl)
  | l' :: ls =>
      (if decide (l = "") then "" else l +:+ endl) +:+ (if decide (l' = "") then "" else a) +:+ render a off l' ls
  end.

Lemma starts_line_spec s : starts_line s = negb (bool_decide ((lines_of s).1 = "")).
Proof.
  destruct s as [|c s]; [done|]. simpl. destruct (lines_of s) as [l ls].
  case_decide as Hc; [by rewrite Hc|]. by rewrite bool_decide_false.
Qed.

Definition finish (off out h : string) : string :=
  if decide (h = "") then out +:+ off else out +:+ h +:+ off +:+ endl.

Lemma str_app_eq_nil a b : a +:+ b = "" -> a = "" /\ b = "".
Proof. destruct a; [done|]. by rewrite str_cons_app. Qed.

Section print_props.
Context (localtime_r : Z -> option tm) (content : LogContent) (format : LogFormat) (a : string).
Hypothesis Ha : AdaptWrap localtime_r content format = Some a.

Lemma print_scan_render off pScan line out :
  slen (line +:+ pScan) < MAX_LOG_LEN ->
  exists out' h, print_scan localtime_r content format pScan (line +:+ pScan) (slen line) out = Some (out', h) /\
    finish off out' h = out +:+ render a off (line +:+ (lines_of pScan).1) (lines_of pScan).2.
Proof using Ha.
  unfold MAX_LOG_LEN. revert line out. induction pScan as [|c next IH]; intros line out Hlen.
  { exists out, line. simpl. rewrite str_app_nil_r. split; [done|]. unfold finish.
    destruct (decide (line = "")) as [->|]; [by rewrite str_nil_app, str_app_nil_r | done]. }
  rewrite slen_app, slen_cons in Hlen. pose proof (slen_nonneg line). pose proof (slen_nonneg next).
  cbn [print_scan lines_of]. destruct (lines_of next) as [l ls] eqn:El. destruct (decide (c = LF)) as [->|Hc].
  - rewrite bool_decide_true by done. unfold memcpy_s, MAX_LOG_LEN. cbn [fst snd]. rewrite str_app_nil_r.
    destruct (_ && _) eqn:E; [|lia]. cbn [negb]. destruct (Z.ltb_spec (slen line) (4096 - 1)); [|lia].
    rewrite slen_Z_to_nat, str_take_app_length.
    set (out1 := if bool_decide (line = "") then out else _).
    assert (out1 = out +:+ (if decide (line = "") then "" else line +:+ endl)) as Ho1.
    { unfold out1. destruct (decide (line = "")).
      - rewrite bool_decide_true by done. by rewrite str_app_nil_r.
      - by rewrite bool_decide_false. }
    rewrite starts_line_spec, El, Ha. cbn [fst mbind option_bind render].
    destruct (IH "" (out1 +:+ (if decide (l = "") then "" else a))) as (out' & h & E' & Hf);
      [rewrite str_nil_app; lia|].
    exists out', h. rewrite str_nil_app in E', Hf. change (slen "") with 0 in E'. split.
    + destruct (decide (l = "")) as [->|].
      * rewrite bool_decide_true by done. cbn [negb]. by rewrite str_app_nil_r in E'.
      * by rewrite bool_decide_false.
    + rewrite Hf, Ho1. cbn [fst snd]. by rewrite <- !str_app_assoc.
  - rewrite bool_decide_false by done. cbn [fst snd].
    destruct (IH (line +:+ String c "") out) as (out' & h & E' & Hf).
    { rewrite slen_app, slen_app. change (slen (String c "")) with 1. lia. }
    exists out', h. cbn [fst snd] in Hf.
    rewrite slen_app in E'. change (slen (String c "")) with 1 in E'.
    rewrite <- str_app_assoc, str_cons_app, str_nil_app in E', Hf. done.
Qed.

(** A line is printed as its content's lines, each non-empty one on a line
    of its own behind a prefix: the first behind the full prefix, the others
    behind the continuation prefix; empty lines are left out, nothing is cut,
    and the colour, if any, is switched on before the first character and off
    before the last line feed. *)
Theorem LogPrintWithFormat_lines :
  let log := cstr (lc_log content) in
  slen log < MAX_LOG_LEN ->
  LogPrintWithFormat localtime_r content format =
    Some (color_on content format +:+
          (if decide ((lines_of log).1 = "") then "" else PrintLogPrefix localtime_r content format) +:+
          render a (color_off format) (lines_of log).1 (lines_of log).2).
Proof using Ha.
  intros log Hlen. unfold LogPrintWithFormat. fold log. rewrite starts_line_spec.
  set (out := if negb _ then _ else _).
  destruct (print_scan_render (color_off format) log "" out) as (out' & h & E & Hf); [by rewrite str_nil_app|].
  rewrite str_nil_app in E, Hf. change (slen "") with 0 in E. rewrite E. cbn [mbind option_bind]. f_equal.
  transitivity (finish (color_off format) out' h).
  - unfold finish. destruct (decide (h = "")); [by rewrite bool_decide_true|].
    rewrite !bool_decide_false by done. by rewrite <- !str_app_assoc.
  - rewrite Hf. unfold out. destruct (decide ((lines_of log).1 = "")) as [->|].
    + rewrite bool_decide_true by done. done.
    + rewrite bool_decide_false by done. cbn [negb]. by rewrite <- str_app_assoc.
Qed.
End print_props.

(** ** Examples *)

Definition ex_localtime (_ : Z) : option tm := Some (mkTm 4 51 16 6 7 125 "CST").
Definition ex_content (tag log : string) : LogContent :=
  mkLogContent LOG_INFO LOG_CORE 1201 42 0xD002D00 0 945000000 0 tag log.
Definition ex_format (wrap : bool) : LogFormat := mkLogFormat false FT_TIME FA_MSEC false false wrap.

Lemma LogPrintWithFormat_lines_witness :
  LogPrintWithFormat ex_localtime (ex_content "Tag" ("one" +:+ endl +:+ endl +:+ "two")) (ex_format true) =
    Some ("08-06 16:51:04.945  1201    42 I C02d00/Tag: one" +:+ endl +:+
          "                                             two" +:+ endl).
Proof.
  assert (AdaptWrap ex_localtime (ex_content "Tag" ("one" +:+ endl +:+ endl +:+ "two")) (ex_format true)
    = Some "                                             ") as Ha by (by vm_compute).
  assert (slen (cstr (lc_log (ex_content "Tag" ("one" +:+ endl +:+ endl +:+ "two")))) < MAX_LOG_LEN) as Hl by (by vm_compute).
  rewrite (LogPrintWithFormat_lines ex_localtime _ (ex_format true) _ Ha Hl). by vm_compute.
Defined.

Lemma print_scan_throws localtime_r content format pScan pHead len out :
  AdaptWrap localtime_r content format = None -> 0 <= len -> len + slen pScan < MAX_LOG_LEN ->
  (print_scan localtime_r content format pScan pHead len out = None <->
   Exists (fun l => l <> "") (lines_of pScan).2).
Proof.
  intros Ha. revert pHead len out. induction pScan as [|c next IH]; intros pHead len out Hl Hlen.
  { simpl. split; [done|]. by intros ?%Exists_nil. }
  rewrite slen_cons in Hlen. pose proof (slen_nonneg next). unfold MAX_LOG_LEN in *.
  cbn [print_scan lines_of]. pose proof (starts_line_spec next) as Hs.
  destruct (lines_of next) as [l ls]. destruct (decide (c = LF)) as [->|Hc].
  - rewrite bool_decide_true by done. unfold memcpy_s, MAX_LOG_LEN. destruct (_ && _) eqn:E; [|lia]. cbn [negb].
    rewrite Hs, Ha. cbn [fst snd]. rewrite Exists_cons. destruct (decide (l = "")) as [->|Hne].
    + rewrite bool_decide_true by done. cbn [negb]. rewrite IH by lia. cbn [snd]. tauto.
    + rewrite bool_decide_false by done. cbn [negb mbind option_bind]. tauto.
  - rewrite bool_decide_false by done. apply IH; lia.
Qed.

(** Printing a line fails (by an exception) exactly when wrapping is asked
    for, the tag is not valid UTF-8, such as a tag cut inside a character,
    and the content has a non-empty line after the first. *)
Theorem LogPrintWithFormat_throws localtime_r content format :
  let log := cstr (lc_log content) in
  slen log < MAX_LOG_LEN ->
  (LogPrintWithFormat localtime_r content format = None <->
   f_wrap format = true /\ wide_length (lc_tag content) = None /\ Exists (fun l => l <> "") (lines_of log).2).
Proof.
  intros log Hlen. unfold LogPrintWithFormat. fold log. set (out := if starts_line log then _ else _).
  destruct (AdaptWrap localtime_r content format) as [a|] eqn:Ha.
  - destruct (print_scan_render localtime_r content format a Ha (color_off format) log "" out)
      as (out' & h & E & _); [by rewrite str_nil_app|].
    rewrite str_nil_app in E. change (slen "") with 0 in E. rewrite E. split; [done|]. intros (Hw & Hu & _).
    unfold AdaptWrap in Ha. by rewrite Hw, Hu in Ha.
  - unfold AdaptWrap in Ha. destruct (f_wrap format) eqn:Hw; [|done].
    assert (wide_length (lc_tag content) = None) as Hu by (by destruct (wide_length (lc_tag content))).
    rewrite <- (print_scan_throws localtime_r content format log log 0 out); [|unfold AdaptWrap; by rewrite Hw, Hu|lia|lia].
    destruct (print_scan localtime_r content format log log 0 out) as [[? ?]|]; [|done].
    split; [done|]. by intros (_ & _ & ?).
Qed.

Lemma LogPrintWithFormat_throws_witness :
  LogPrintWithFormat ex_localtime (ex_content (String "228" "") ("one" +:+ endl +:+ "two")) (ex_format true) = None.
Proof.
  assert (slen (cstr (lc_log (ex_content (String "228" "") ("one" +:+ endl +:+ "two")))) < MAX_LOG_LEN) as Hl
    by (by vm_compute).
  apply (LogPrintWithFormat_throws ex_localtime _ (ex_format true) Hl).
  split; [done|]. split; [by vm_compute|]. by constructor.
Defined.
