(* ===== verification/Compress.v ===== *)
(** * Compression of persisted logs

    The compressors of log_compress.cpp behind one interface: what a
    compressor appends to the compressed buffer decodes to the plain buffer.
    zlib is a parameter, given by its streaming functions and the documented
    laws the code relies on. *)

From S2P Require Import Prelude Common Utils.
From Stdlib Require Import Ascii.

Record LogPersisterBuffer := mkLPB {
  content : string;   (* MAX_PERSISTER_BUFFER_SIZE bytes *)
  offset : Z;         (* uint32_t *)
}.

Definition COMPRESS_TYPE_NONE : Z := 0.
Definition COMPRESS_TYPE_ZSTD : Z := 1.
Definition COMPRESS_TYPE_ZLIB : Z := 2.

Definition g_CompressTypes : KVMap Z string :=
  mkKVMap [(COMPRESS_TYPE_NONE, "none"); (COMPRESS_TYPE_ZLIB, "zlib"); (COMPRESS_TYPE_ZSTD, "zstd")]
          COMPRESS_TYPE_ZLIB "unknown" str_eqb.

Definition CompressType2Str (compressType : Z) : string := GetValue g_CompressTypes compressType.
Definition Str2CompressType (str : string) : Z := GetKey g_CompressTypes str.

(** The bytes in use. *)
Definition plain (b : LogPersisterBuffer) : string := str_take (Z.to_nat (offset b)) (content b).

(** Bytes [pos, pos + n) of an array; [None] when they are not inside it. *)
Definition sub_chk (s : string) (pos n : Z) : option string :=
  if (0 <=? pos) && (0 <=? n) && (pos + n <=? slen s) then Some (str_take (Z.to_nat n) (str_drop (Z.to_nat pos) s))
  else None.

(** The array with [data] copied to [pos]. *)
Definition overwrite (s : string) (pos : Z) (data : string) : string :=
  str_take (Z.to_nat pos) s +:+ data +:+ str_drop (Z.to_nat (pos + slen data)) s.

(** [memcpy_s] of [data] to the end of the bytes in use: the new buffer and
    the result of [Compress]. *)
Definition append_to (b : LogPersisterBuffer) (data : string) : LogPersisterBuffer * Z :=
  if memcpy_s (MAX_PERSISTER_BUFFER_SIZE - offset b) (slen data)
  then (mkLPB (overwrite (content b) (offset b) data) (u32 (offset b + slen data)), 0)
  else (b, -1).

(** A [Compress] method: the compressed buffer and the return value, [None]
    for an access outside of an array. *)
Definition compressor := LogPersisterBuffer -> LogPersisterBuffer -> option (LogPersisterBuffer * Z).

Definition NoneCompress : compressor := fun inBuffer compressedBuffer =>
  if memcpy_s (MAX_PERSISTER_BUFFER_SIZE - offset compressedBuffer) (offset inBuffer)
  then data ← sub_chk (content inBuffer) 0 (offset inBuffer); Some (append_to compressedBuffer data)
  else Some (compressedBuffer, -1).

(** Built without USING_ZSTD_COMPRESS, which no build file defines. *)
Definition ZstdCompress : compressor := fun inBuffer compressedBuffer => Some (compressedBuffer, 0).

(** ** zlib *)

Definition CHUNK : Z := 16384.

(** [deflate s input avail_out finish] is the new stream, the input left and
    the output, [None] for Z_STREAM_ERROR. *)
Class Zlib := {
  zstate : Type;
  deflateInit2 : option zstate;
  deflateBound : zstate -> Z -> Z;
  deflate : zstate -> string -> Z -> bool -> option (zstate * string * string);
}.

Section zlib.
Context `{ZL : Zlib}.

(** The loop around [deflate]: [Some None] is an error return, [None] too
    little fuel; [zdata] is what has been produced. *)
Fixpoint drain (fuel : nat) (zdlen : Z) (s : zstate) (input : string) (finish : bool) (zdata : string)
    : option (option (zstate * string)) :=
  match fuel with
  | O => None
  | S fuel =>
      match deflate s input CHUNK finish with
      | None => Some None
      | Some (s', rest, out) =>
          if negb (memcpy_s (zdlen - slen zdata) (slen out)) then Some None
          else
            let zdata := zdata +:+ out in
            if zdlen <? slen zdata then Some None
            else if slen out =? CHUNK then drain fuel zdlen s' rest finish zdata
            else Some (Some (s', zdata))
      end
  end.

(** The loop over the input in chunks. *)
Fixpoint zlib_chunks (fuel : nat) (zdlen : Z) (inBuffer : LogPersisterBuffer) (s : zstate) (src_pos : Z)
    (zdata : string) : option (option string) :=
  match fuel with
  | O => None
  | S fuel =>
      let flag := offset inBuffer - src_pos <? CHUNK in
      let n := if flag then offset inBuffer - src_pos else CHUNK in
      input ← sub_chk (content inBuffer) src_pos n;
      match drain (S (Z.to_nat (zdlen / CHUNK + 1))) zdlen s input flag zdata with
      | None => None
      | Some None => Some None
      | Some (Some (s', zdata')) =>
          if flag then Some (Some zdata') else zlib_chunks fuel zdlen inBuffer s' (src_pos + n) zdata'
      end
  end.

Definition ZlibCompress : compressor := fun inBuffer compressedBuffer =>
  match deflateInit2 with
  | None => Some (compressedBuffer, -1)
  | Some s =>
      let zdlen := u32 (deflateBound s (offset inBuffer)) in
      match zlib_chunks (S (Z.to_nat (offset inBuffer / CHUNK))) zdlen inBuffer s 0 "" with
      | None => None
      | Some None => Some (compressedBuffer, -1)
      | Some (Some zdata) => Some (append_to compressedBuffer zdata)
      end
  end.

(** The streams reached from [deflateInit2] as zlib allows them to be used,
    with what they consumed and produced: after a finishing call that filled
    its space, only a finishing call with the input left may follow. *)
Inductive zrun : zstate -> string -> string -> option string -> Prop :=
| zrun_init s : deflateInit2 = Some s -> zrun s "" "" None
| zrun_step s x o used rest avail s' out :
    zrun s x o None -> deflate s (used +:+ rest) avail false = Some (s', rest, out) ->
    zrun s' (x +:+ used) (o +:+ out) None
| zrun_finish s x o used rest avail s' out pend :
    zrun s x o pend -> pend = None \/ pend = Some (used +:+ rest) ->
    deflate s (used +:+ rest) avail true = Some (s', rest, out) -> slen out = avail ->
    zrun s' (x +:+ used) (o +:+ out) (Some rest).

(** The calls allowed on such a stream. *)
Definition zcan (s : zstate) (x o i : string) (finish : bool) : Prop :=
  zrun s x o None \/ finish = true /\ zrun s x o (Some i).
End zlib.

(** What zlib documents of [deflate]: it fits its output into the space given,
    takes a prefix of the input, all of it when it leaves space; and what has
    been produced when a finishing call leaves space decodes to the input. *)
Class ZlibLaws `(ZL : Zlib) (inflate : string -> option string) := {
  z_out s x o i a f s' r out : 0 <= a -> zcan s x o i f -> deflate s i a f = Some (s', r, out) -> slen out <= a;
  z_used s x o i a f s' r out : zcan s x o i f -> deflate s i a f = Some (s', r, out) -> exists used, i = used +:+ r;
  z_drained s x o i a f s' r out : zcan s x o i f -> deflate s i a f = Some (s', r, out) -> slen out < a -> r = "";
  z_done s x o i a s' r out : zcan s x o i true -> deflate s i a true = Some (s', r, out) -> slen out < a ->
    inflate (o +:+ out) = Some (x +:+ i);
}.

(** * Properties *)

Definition lpb_ok (b : LogPersisterBuffer) : Prop :=
  slen (content b) = MAX_PERSISTER_BUFFER_SIZE /\ 0 <= offset b <= MAX_PERSISTER_BUFFER_SIZE.

(** The contract of a compressor: on buffers in use as the persister uses them
    it returns; on success it has appended one unit that decodes to the plain
    bytes, otherwise it has changed nothing. *)
Class Compressor (decode : string -> option string) (c : compressor) : Prop := {
  compress_spec inb outb : lpb_ok inb -> lpb_ok outb ->
    exists outb' ret, c inb outb = Some (outb', ret) /\ lpb_ok outb' /\
      (ret = 0 /\ (exists unit, plain outb' = plain outb +:+ unit /\ decode unit = Some (plain inb)) \/
       ret = -1 /\ outb' = outb);
}.

Lemma str_take_add a b s : str_take (a + b) s = str_take a s +:+ str_take b (str_drop a s).
Proof.
  revert s; induction a as [|a IH]; intros [|c s]; simpl; try done.
  - by destruct b.
  - by rewrite str_cons_app, IH.
Qed.

Lemma slen_plain b : lpb_ok b -> slen (plain b) = offset b.
Proof. intros [Hc Ho]. unfold plain. rewrite slen_take. lia. Qed.

Lemma append_to_ok b data :
  lpb_ok b ->
  let '(b', ret) := append_to b data in
  lpb_ok b' /\ (ret = 0 /\ plain b' = plain b +:+ data \/ ret = -1 /\ b' = b).
Proof.
  intros Hb. pose proof (slen_plain b Hb) as Hp. pose proof (slen_nonneg data). pose proof Hb as [Hc Ho].
  unfold append_to, memcpy_s.
  destruct (_ && _) eqn:E; [|by auto]. unfold MAX_PERSISTER_BUFFER_SIZE in *.
  assert (slen (str_take (Z.to_nat (offset b)) (content b)) = offset b) as Ht by exact Hp.
  split; [split|left; split; [done|]]; cbn [content offset].
  - unfold overwrite. rewrite !slen_app, slen_drop, Ht. unfold MAX_PERSISTER_BUFFER_SIZE. lia.
  - rewrite wrapu_small by lia. unfold MAX_PERSISTER_BUFFER_SIZE. lia.
  - unfold plain. cbn [content offset]. rewrite wrapu_small by lia. unfold overwrite. rewrite str_app_assoc.
    replace (Z.to_nat (offset b + slen data)) with (String.length (str_take (Z.to_nat (offset b)) (content b) +:+ data)).
    + by rewrite str_take_app_length.
    + rewrite <- slen_Z_to_nat, slen_app, Ht. done.
Qed.

Lemma sub_chk_plain b : lpb_ok b -> sub_chk (content b) 0 (offset b) = Some (plain b).
Proof. intros [Hc Ho]. unfold sub_chk. destruct (_ && _ && _) eqn:E; [done|lia]. Qed.

#[export] Instance NoneCompress_ok : Compressor Some NoneCompress.
Proof.
  split. intros inb outb Hi Ho. unfold NoneCompress. destruct (memcpy_s _ _) eqn:E; [|by eauto 7].
  rewrite sub_chk_plain by done. cbn [mbind option_bind]. pose proof (append_to_ok outb (plain inb) Ho) as Ha.
  destruct (append_to outb (plain inb)) as [outb' ret]. destruct Ha as [Hok Hr].
  exists outb', ret. split; [done|]. split; [done|]. destruct Hr as [[-> Hr]|[-> ->]]; [left; eauto | by right].
Qed.

Section zlib_props.
Context {ZL : Zlib} {inflate : string -> option string} `{!ZlibLaws ZL inflate}.

(** The loop around [deflate] returns: every further turn has filled a chunk,
    and the output is bounded by the buffer allocated for it. *)
Lemma drain_ok fuel zdlen s x o input finish :
  zcan s x o input finish -> 0 <= zdlen -> slen o <= zdlen -> (zdlen - slen o) / CHUNK + 1 < Z.of_nat fuel ->
  exists r, drain fuel zdlen s input finish o = Some r /\
    match r with
    | None => True
    | Some (s', o') => slen o' <= zdlen /\
        if finish then inflate o' = Some (x +:+ input) else zrun s' (x +:+ input) o' None
    end.
Proof.
  revert s x o input. induction fuel as [|fuel IH]; intros s x o input Hr Hz Ho Hfuel.
  { pose proof (Z.div_pos (zdlen - slen o) CHUNK ltac:(lia) ltac:(done)). lia. }
  cbn [drain]. destruct (deflate s input CHUNK finish) as [[[s' rest] out]|] eqn:E; [|by exists None].
  destruct (z_used _ _ _ _ _ _ _ _ _ Hr E) as (used & ->).
  assert (slen out <= CHUNK) as Hle by (by eapply z_out; [|exact Hr|exact E]). pose proof (slen_nonneg out).
  destruct (memcpy_s _ _) eqn:Em; cbn [negb]; [|by exists None]. unfold memcpy_s in Em.
  destruct (Z.ltb_spec zdlen (slen (o +:+ out))); [by exists None|]. rewrite slen_app in *.
  destruct (Z.eqb_spec (slen out) CHUNK) as [Hc|Hc].
  - assert (zcan s' (x +:+ used) (o +:+ out) rest finish) as Hr'.
    { destruct finish.
      - right. split; [done|]. destruct Hr as [Hr|[_ Hr]]; eapply zrun_finish; eauto.
      - left. destruct Hr as [Hr|[? _]]; [|done]. by eapply zrun_step. }
    destruct (IH s' (x +:+ used) (o +:+ out) rest Hr' Hz) as (r & Er & Hres); rewrite ?slen_app; [lia| |].
    + replace (zdlen - slen o) with ((zdlen - (slen o + slen out)) + 1 * CHUNK) in Hfuel by (rewrite Hc; lia).
      rewrite Z.div_add in Hfuel by done. lia.
    + exists r. split; [done|]. destruct r as [[s2 o2]|]; [|done]. by rewrite <- str_app_assoc in Hres.
  - assert (slen out < CHUNK) as Hlt by lia. pose proof (z_drained _ _ _ _ _ _ _ _ _ Hr E Hlt) as ->.
    rewrite str_app_nil_r in *. eexists. split; [done|]. split; [rewrite slen_app; lia|]. destruct finish.
    + by eapply z_done.
    + destruct Hr as [Hr|[? _]]; [|done]. eapply zrun_step; [exact Hr|]. rewrite str_app_nil_r. exact E.
Qed.

Lemma zlib_chunks_ok fuel zdlen inb s x o :
  lpb_ok inb -> 0 <= zdlen -> zrun s x o None -> slen o <= zdlen ->
  x = str_take (Z.to_nat (slen x)) (content inb) -> slen x <= offset inb ->
  (offset inb - slen x) / CHUNK < Z.of_nat fuel ->
  exists r, zlib_chunks fuel zdlen inb s (slen x) o = Some r /\
    match r with None => True | Some z => inflate z = Some (plain inb) end.
Proof.
  intros Hin Hz. pose proof Hin as [Hc Hoff]. revert s x o.
  induction fuel as [|fuel IH]; intros s x o Hr Ho Hx Hle Hfuel.
  { pose proof (Z.div_pos (offset inb - slen x) CHUNK ltac:(lia) ltac:(done)). lia. }
  pose proof (slen_nonneg x) as Hx0. cbn [zlib_chunks]. set (flag := offset inb - slen x <? CHUNK).
  set (n := if flag then offset inb - slen x else CHUNK).
  assert (0 <= n <= offset inb - slen x) as Hn.
  { unfold n, flag. destruct (Z.ltb_spec (offset inb - slen x) CHUNK); unfold CHUNK in *; lia. }
  unfold sub_chk. destruct (_ && _ && _) eqn:Ec; [|unfold MAX_PERSISTER_BUFFER_SIZE in *; lia]. cbn [mbind option_bind].
  set (inp := str_take (Z.to_nat n) (str_drop (Z.to_nat (slen x)) (content inb))).
  assert (slen inp = n) as Hinp.
  { unfold inp. rewrite slen_take, slen_drop. unfold MAX_PERSISTER_BUFFER_SIZE in *. lia. }
  assert (x +:+ inp = str_take (Z.to_nat (slen x + n)) (content inb)) as Hxi.
  { rewrite Hx at 1. unfold inp. rewrite Z2Nat.inj_add by lia. symmetry. apply str_take_add. }
  destruct (drain_ok (S (Z.to_nat (zdlen / CHUNK + 1))) zdlen s x o inp flag (or_introl Hr) Hz Ho) as (r & -> & Hres).
  { pose proof (slen_nonneg o). assert ((zdlen - slen o) / CHUNK <= zdlen / CHUNK) by (apply Z.div_le_mono; [done|lia]).
    pose proof (Z.div_pos zdlen CHUNK ltac:(lia) ltac:(done)). lia. }
  destruct r as [[s' o']|]; [|by exists None]. destruct Hres as (Ho' & Hdone).
  destruct flag eqn:Ef.
  - exists (Some o'). split; [done|]. simpl. rewrite Hdone, Hxi. unfold n, plain. by rewrite Zplus_minus.
  - replace (slen x + n) with (slen (x +:+ inp)) by (rewrite slen_app; lia).
    apply IH; [done | done | | |]; rewrite slen_app, Hinp.
    + exact Hxi.
    + lia.
    + unfold n in *. replace (offset inb - slen x) with ((offset inb - (slen x + CHUNK)) + 1 * CHUNK) in Hfuel by lia.
      rewrite Z.div_add in Hfuel by done. lia.
Qed.

#[export] Instance ZlibCompress_ok : Compressor inflate ZlibCompress.
Proof.
  split. intros inb outb Hi Ho. unfold ZlibCompress. destruct deflateInit2 as [s|] eqn:Ei; [|by eauto 7].
  set (zdlen := u32 _). pose proof Hi as [_ Hoff].
  destruct (zlib_chunks_ok (S (Z.to_nat (offset inb / CHUNK))) zdlen inb s "" "" Hi) as (r & Er & Hr).
  - apply wrapu_range. lia.
  - by apply zrun_init.
  - apply wrapu_range. lia.
  - done.
  - change (slen "") with 0. lia.
  - change (slen "") with 0. rewrite Z.sub_0_r. pose proof (Z.div_pos (offset inb) CHUNK ltac:(lia) ltac:(done)). lia.
  - change (slen "") with 0 in Er. rewrite Er. destruct r as [z|]; [|by eauto 7].
    pose proof (append_to_ok outb z Ho) as Ha.
    destruct (append_to outb z) as [outb' ret]. destruct Ha as [Hok Ha].
    exists outb', ret. split; [done|]. split; [done|]. destruct Ha as [[-> Ha]|[-> ->]]; [left; eauto | by right].
Qed.
End zlib_props.

(** For every zlib that behaves as documented, [ZlibCompress] on buffers in
    use returns (its loops end, no access is outside of an array); when it
    reports success it has appended one unit that inflates to exactly the plain
    bytes, otherwise the compressed buffer is unchanged. *)
Theorem zlib_compress_decodes `(ZL : Zlib) inflate (_ : ZlibLaws ZL inflate) inb outb :
  lpb_ok inb -> lpb_ok outb ->
  exists outb' ret, ZlibCompress inb outb = Some (outb', ret) /\ lpb_ok outb' /\
    (ret = 0 /\ (exists unit, plain outb' = plain outb +:+ unit /\ inflate unit = Some (plain inb)) \/
     ret = -1 /\ outb' = outb).
Proof. apply compress_spec. Qed.

(** ** A zlib

    Output is a header byte and the input as it is. *)
Definition stored_deflate (pending input : string) (avail : Z) (finish : bool) : option (string * string * string) :=
  if avail <? 0 then None
  else
    let all := pending +:+ input in
    Some (str_drop (Z.to_nat avail) all, "", str_take (Z.to_nat avail) all).

Definition stored_inflate (s : string) : option string :=
  match s with
  | String "H"%char s => Some s
  | _ => None
  end.

#[export] Instance stored_zlib : Zlib := {|
  deflateInit2 := Some "H"; deflateBound := fun _ n => n + 1; deflate := stored_deflate |}.

Lemma stored_run s x o pend : zrun s x o pend -> o +:+ s = "H" +:+ x /\ (pend = None \/ pend = Some "").
Proof.
  induction 1 as [s E|s x o used rest a s' out _ [IH _] E|s x o used rest a s' out pend _ [IH IHp] Hp E Ha];
    [injection E as <-; auto|..];
    cbn [deflate stored_zlib] in E; unfold stored_deflate in E; destruct (a <? 0); try done;
    injection E as <- <- <-; rewrite str_app_nil_r, <- !str_app_assoc, str_take_drop, !str_app_assoc, IH; auto.
Qed.

#[export] Instance stored_laws : ZlibLaws stored_zlib stored_inflate.
Proof.
  split; cbn [deflate stored_zlib]; unfold stored_deflate; intros s x o i a f.
  - intros s' r out Ha _. destruct (a <? 0); [done|]. intros [= <- <- <-]. rewrite slen_take. lia.
  - intros s' r out _. destruct (a <? 0); [done|]. intros [= <- <- <-]. exists i. by rewrite str_app_nil_r.
  - intros s' r out _. destruct (a <? 0); [done|]. by intros [= <- <- <-] _.
  - intros r out Hc. destruct (Z.ltb_spec a 0); [done|]. intros [= <- <- <-] Hlt. rewrite slen_take in Hlt.
    assert (zrun s x o None \/ exists p, zrun s x o (Some p)) as Hr by (destruct Hc as [?|[_ ?]]; eauto).
    assert (o +:+ s = "H" +:+ x) as Hos by (by destruct Hr as [Hr|[p Hr]]; apply stored_run in Hr as [Hr _]).
    rewrite str_take_all by lia. by rewrite str_app_assoc, Hos.
Qed.

Definition ex_lpb (text : string) : LogPersisterBuffer :=
  mkLPB (overwrite (fill (Z.to_nat MAX_PERSISTER_BUFFER_SIZE) NUL) 0 text) (slen text).

Lemma zlib_compress_decodes_witness :
  exists outb' ret, ZlibCompress (ex_lpb "two lines of text") (ex_lpb "unit") = Some (outb', ret) /\ lpb_ok outb' /\
    (ret = 0 /\ (exists unit, plain outb' = "unit" +:+ unit /\ stored_inflate unit = Some "two lines of text") \/
     ret = -1 /\ outb' = ex_lpb "unit").
Proof.
  apply (zlib_compress_decodes stored_zlib stored_inflate stored_laws (ex_lpb "two lines of text") (ex_lpb "unit"));
    (split; [vm_compute; reflexivity | split; vm_compute; discriminate]).
Defined.
