(* ===== verification/Rotator.v ===== *)
(** * Log files and their rotation

    LogPersisterRotator (log_persister_rotator.cpp): the current log file, the
    files before it, and the recovery file with the job's description and a
    checksum.  The file system is a map from paths to contents; the time in a
    file name, the order in which a directory is listed and whether a file can
    be opened are arguments. *)

From S2P Require Import Prelude Common Utils LogData LogPrint.
From Stdlib Require Import Ascii Sorted.

Abbreviation filesystem := (gmap string string).

Definition FILE_PATH_MAX_LEN : Z := 100.
Definition AUXILLARY_PERSISTER_PREFIX : string := "persisterInfo_".
Definition MAX_LOG_INDEX_LEN : Z := 4.

Record LogPersistStartMsg := mkStartMsg {
  sm_compressAlg : Z;   (* uint16_t *)
  sm_filePath : string; (* char[FILE_PATH_MAX_LEN] *)
  sm_fileSize : Z; sm_fileNum : Z; sm_jobId : Z;
  sm_filter : LogFilter;
}.

Record PersistRecoveryInfo := mkRecoveryInfo { ri_index : Z; ri_msg : LogPersistStartMsg }.

(** ** The packed structures as bytes *)

(** A character array of [n] bytes that holds a C string. *)
Definition char_array (n : Z) (s : string) : string := s +:+ fill (Z.to_nat (n - slen s)) NUL.

Definition bool_byte (b : bool) : string := le_bytes 1 (if b then 1 else 0).

Definition sconcat (l : list string) : string := foldr String.append "" l.

Definition filter_bytes (f : LogFilter) : string :=
  le_bytes 2 (f_types f) +:+ le_bytes 2 (f_levels f) +:+ bool_byte (f_blackDomain f) +:+
  le_bytes 1 (f_domainCount f) +:+ sconcat (le_bytes 4 <$> f_domains f) +:+
  bool_byte (f_blackTag f) +:+ le_bytes 1 (f_tagCount f) +:+ sconcat (char_array MAX_TAG_LEN <$> f_tags f) +:+
  bool_byte (f_blackPid f) +:+ le_bytes 4 (u32 (f_pidCount f)) +:+ sconcat (le_bytes 4 <$> f_pids f) +:+
  char_array MAX_REGEX_STR_LEN (f_regex f).

Definition msg_bytes (m : LogPersistStartMsg) : string :=
  le_bytes 2 (sm_compressAlg m) +:+ char_array FILE_PATH_MAX_LEN (sm_filePath m) +:+
  le_bytes 4 (sm_fileSize m) +:+ le_bytes 4 (sm_fileNum m) +:+ le_bytes 4 (sm_jobId m) +:+
  filter_bytes (sm_filter m).

Definition info_bytes (i : PersistRecoveryInfo) : string := le_bytes 4 (ri_index i) +:+ msg_bytes (ri_msg i).

(** ** The rotator *)

Record LogPersisterRotator := mkRotator {
  m_maxLogFileNum : Z;
  m_logsPath : string;
  m_fileNameSuffix : string;
  m_currentLogFileName : string;
  m_currentLogFileIdx : Z;       (* uint32_t *)
  m_currentLogOutput : bool;     (* the current file is open *)
  m_id : Z;
  m_infoFile : bool;             (* the recovery file is open *)
  m_infoFilePath : string;
  m_info : PersistRecoveryInfo;
  m_needRotate : bool;
}.

Definition no_filter : LogFilter :=
  mkLogFilter 0 0 false 0 (replicate 5 0) false 0 (replicate 10 "") false 0 (replicate 5 0) "".
Definition no_info : PersistRecoveryInfo := mkRecoveryInfo 0 (mkStartMsg 0 "" 0 0 0 no_filter).

Definition new_rotator (logsPath : string) (id maxFiles : Z) (fileNameSuffix : string) : LogPersisterRotator :=
  mkRotator maxFiles logsPath fileNameSuffix "" 0 false id false "" no_info false.

Definition set_file (r : LogPersisterRotator) (name : string) (idx : Z) (is_open needRotate : bool) : LogPersisterRotator :=
  mkRotator (m_maxLogFileNum r) (m_logsPath r) (m_fileNameSuffix r) name idx is_open (m_id r)
    (m_infoFile r) (m_infoFilePath r) (m_info r) needRotate.

Definition set_info (r : LogPersisterRotator) (is_open : bool) (path : string) (info : PersistRecoveryInfo)
    : LogPersisterRotator :=
  mkRotator (m_maxLogFileNum r) (m_logsPath r) (m_fileNameSuffix r) (m_currentLogFileName r)
    (m_currentLogFileIdx r) (m_currentLogOutput r) (m_id r) is_open path info (m_needRotate r).

(** [snprintf_s] with "%03d" into four characters. *)
Definition GetFileNameIndex (index : Z) : string :=
  let v := Z.rem index MAX_LOG_FILE_NUM in
  let s := if v <? 0 then "-" +:+ setw "0" 2 (to_string (- v)) else setw "0" 3 (to_string v) in
  if MAX_LOG_INDEX_LEN - 1 <? slen s then "" else s.

Fixpoint is_prefix (p s : string) : bool :=
  match p, s with
  | EmptyString, _ => true
  | String a p, String b s => bool_decide (a = b) && is_prefix p s
  | _, _ => false
  end.

(** [s.find(p) != npos]. *)
Fixpoint contains (p s : string) : bool :=
  is_prefix p s || match s with EmptyString => false | String _ s => contains p s end.

Definition base_name (r : LogPersisterRotator) : string := str_drop (String.length HILOG_FILE_DIR) (m_logsPath r).

Definition IsOldFile (r : LogPersisterRotator) (logName : string) (index : Z) : bool :=
  contains (base_name r +:+ "." +:+ GetFileNameIndex (i32 (u32 (index + 1 - m_maxLogFileNum r)))) logName.

(** [entries] is the listing of the directory; the first match is removed. *)
Fixpoint RemoveOldFile (r : LogPersisterRotator) (entries : list string) (fs : filesystem) : filesystem :=
  match entries with
  | [] => fs
  | name :: entries =>
      if IsOldFile r name (i32 (m_currentLogFileIdx r)) then delete (HILOG_FILE_DIR +:+ name) fs
      else RemoveOldFile r entries fs
  end.

Definition log_file_name (r : LogPersisterRotator) (time : string) : string :=
  m_logsPath r +:+ "." +:+ GetFileNameIndex (i32 (m_currentLogFileIdx r)) +:+ "." +:+ time +:+ m_fileNameSuffix r.

Definition CreateLogFile (r : LogPersisterRotator) (time : string) (openable : bool) (fs : filesystem)
    : LogPersisterRotator * filesystem :=
  let newFile := log_file_name r time in
  (set_file r newFile (m_currentLogFileIdx r) openable (m_needRotate r),
   if openable then <[newFile := ""]> fs else fs).

(** What the system contributes to one call of [Input]. *)
Record file_env := mkFileEnv { fe_entries : list string; fe_time : string; fe_openable : bool }.

(** Plain [char] is signed on some targets and unsigned on others. *)
Section rotator.
Context (char_signed : bool).

Definition WriteRecoveryInfo (r : LogPersisterRotator) (fs : filesystem) : filesystem :=
  if m_infoFile r then
    let bytes := info_bytes (m_info r) in
    <[m_infoFilePath r := bytes +:+ le_bytes 8 (GenerateHash char_signed bytes)]> fs
  else fs.

Definition UpdateRotateNumber (r : LogPersisterRotator) (fs : filesystem) : LogPersisterRotator * filesystem :=
  let r := set_info r (m_infoFile r) (m_infoFilePath r)
             (mkRecoveryInfo (m_currentLogFileIdx r) (ri_msg (m_info r))) in
  (r, WriteRecoveryInfo r fs).

Definition Rotate (e : file_env) (r : LogPersisterRotator) (fs : filesystem) : LogPersisterRotator * filesystem :=
  let fs := if m_maxLogFileNum r <=? u32 (m_currentLogFileIdx r + 1)
            then RemoveOldFile r (fe_entries e) fs else fs in
  let r := set_file r (m_currentLogFileName r) (u32 (m_currentLogFileIdx r + 1)) (m_currentLogOutput r) (m_needRotate r) in
  let '(r, fs) := CreateLogFile r (fe_time e) (fe_openable e) fs in
  UpdateRotateNumber r fs.

(** Writing to the current file. *)
Definition write_log (r : LogPersisterRotator) (buf : string) (fs : filesystem) : filesystem :=
  if m_currentLogOutput r then alter (fun c => c +:+ buf) (m_currentLogFileName r) fs else fs.

Definition Input (e : file_env) (r : LogPersisterRotator) (buf : string) (fs : filesystem)
    : LogPersisterRotator * filesystem * Z :=
  if slen buf <=? 0 then (r, fs, ERR_LOG_PERSIST_COMPRESS_BUFFER_EXP)
  else
    let '(r, fs) :=
      if m_needRotate r then
        let '(r, fs) := Rotate e r fs in
        (set_file r (m_currentLogFileName r) (m_currentLogFileIdx r) (m_currentLogOutput r) false, fs)
      else if bool_decide (fs !! m_currentLogFileName r = None) || negb (m_currentLogOutput r)
      then CreateLogFile r (fe_time e) (fe_openable e) fs
      else (r, fs) in
    (r, write_log r buf fs, 0).

Definition FinishInput (r : LogPersisterRotator) : LogPersisterRotator :=
  set_file r (m_currentLogFileName r) (m_currentLogFileIdx r) false true.

Definition SetFileIndex (r : LogPersisterRotator) (index : Z) (forceRotate : bool) : LogPersisterRotator :=
  set_file r (m_currentLogFileName r) index false (if forceRotate then true else m_needRotate r).

(** The part of a path before the last slash, the whole path without one. *)
Fixpoint parent_dir (s : string) : option string :=
  match s with
  | EmptyString => None
  | String c s' =>
      match parent_dir s' with
      | Some p => Some (String c p)
      | None => if bool_decide (c = "/"%char) then Some "" else None
      end
  end.

Definition OpenInfoFile (openable : bool) (r : LogPersisterRotator) (fs : filesystem)
    : LogPersisterRotator * filesystem * Z :=
  let parentDirPath := default (m_logsPath r) (parent_dir (m_logsPath r)) in
  let infoFileName := "." +:+ AUXILLARY_PERSISTER_PREFIX +:+ Uint2DecStr (m_id r) +:+ ".info" in
  let path := parentDirPath +:+ "/" +:+ infoFileName in
  (set_info r openable path (m_info r), if openable then <[path := ""]> fs else fs,
   if openable then RET_SUCCESS else RET_FAIL).

(** [LogPersisterRotator::Init]. *)
Definition InitRotator (openable : bool) (r : LogPersisterRotator) (info : PersistRecoveryInfo) (restore : bool)
    (fs : filesystem) : LogPersisterRotator * filesystem * Z :=
  let '(r, fs, result) := if m_infoFile r then (r, fs, RET_SUCCESS) else OpenInfoFile openable r fs in
  if negb (result =? RET_SUCCESS) then (r, fs, result)
  else
    let r := set_info r (m_infoFile r) (m_infoFilePath r) info in
    let r := SetFileIndex r (ri_index (m_info r)) restore in
    let '(r, fs) := UpdateRotateNumber r fs in
    (r, fs, RET_SUCCESS).

End rotator.

(** The destructor. *)
Definition delete_rotator (r : LogPersisterRotator) (fs : filesystem) : filesystem := delete (m_infoFilePath r) fs.

(** * Lemmas and properties *)

(** ** Names *)

Definition all_indices : list Z := Z.of_nat <$> seq 0 1000.

Lemma GetFileNameIndex_mod i : 0 <= i -> GetFileNameIndex i = GetFileNameIndex (i mod 1000).
Proof.
  intros Hi. unfold GetFileNameIndex, MAX_LOG_FILE_NUM. rewrite !Z.rem_mod_nonneg by (try apply Z.mod_pos_bound; lia).
  by rewrite Z.mod_mod by lia.
Qed.

Lemma index_small i : 0 <= i < 1000 -> i ∈ all_indices.
Proof.
  intros Hi. unfold all_indices. apply list_elem_of_fmap. exists (Z.to_nat i). split; [lia|].
  apply elem_of_seq. lia.
Qed.

Definition digit_string (s : string) : bool := forallb (fun c => in_byte 48 57 c) (String.list_ascii_of_string s).

Lemma index_table :
  forallb (fun i => (slen (GetFileNameIndex i) =? 3) && digit_string (GetFileNameIndex i)) all_indices = true /\
  NoDup (GetFileNameIndex <$> all_indices).
Proof. split; [by vm_compute|]. apply (bool_decide_unpack _). by vm_compute. Qed.

Lemma GetFileNameIndex_digits i :
  0 <= i -> slen (GetFileNameIndex i) = 3 /\ digit_string (GetFileNameIndex i) = true.
Proof.
  intros Hi. rewrite GetFileNameIndex_mod by done. destruct index_table as [Ht _].
  rewrite forallb_forall in Ht. specialize (Ht (i mod 1000)).
  rewrite <- list_elem_of_In in Ht. specialize (Ht (index_small _ ltac:(apply Z.mod_pos_bound; lia))).
  cbv beta in Ht. apply andb_true_iff in Ht as [Ht%Z.eqb_eq ?]. done.
Qed.

Lemma GetFileNameIndex_inj i j :
  0 <= i -> 0 <= j -> GetFileNameIndex i = GetFileNameIndex j -> i mod 1000 = j mod 1000.
Proof.
  intros Hi Hj E. rewrite (GetFileNameIndex_mod i), (GetFileNameIndex_mod j) in E by done.
  pose proof (index_small (i mod 1000) ltac:(apply Z.mod_pos_bound; lia)) as Hi'.
  pose proof (index_small (j mod 1000) ltac:(apply Z.mod_pos_bound; lia)) as Hj'.
  apply list_elem_of_lookup in Hi' as [a Ha]. apply list_elem_of_lookup in Hj' as [b Hb].
  destruct index_table as [_ Hnd]. assert (a = b) as ->; [|congruence].
  eapply NoDup_lookup; [exact Hnd | |]; rewrite list_lookup_fmap; [by rewrite Ha | rewrite Hb; simpl; congruence].
Qed.

Lemma is_prefix_app p s t : is_prefix (p +:+ s) (p +:+ t) = is_prefix s t.
Proof. induction p as [|c p IH]; [done|]. rewrite !str_cons_app. simpl. by rewrite bool_decide_true. Qed.

Lemma is_prefix_same_len p q s : slen p = slen q -> is_prefix p (q +:+ s) = bool_decide (p = q).
Proof.
  revert q. induction p as [|c p IH]; intros [|d q] E; rewrite ?slen_cons in E; try done.
  - change (slen "") with 0 in E. pose proof (slen_nonneg q). lia.
  - change (slen "") with 0 in E. pose proof (slen_nonneg p). lia.
  - rewrite str_cons_app. simpl. rewrite IH by lia. case_bool_decide as Hc; case_bool_decide as Hp; simpl.
    + subst. by rewrite bool_decide_true.
    + rewrite bool_decide_false; [done|congruence].
    + rewrite bool_decide_false; [done|congruence].
    + rewrite bool_decide_false; [done|congruence].
Qed.

Lemma contains_no_first c p s : no_char c s -> contains (String c p) s = false.
Proof.
  induction s as [|d s IH]; [done|]. intros [Hd Hs]%no_char_cons. simpl. rewrite bool_decide_false by done.
  simpl. by apply IH.
Qed.

Lemma digits_no_char c s : digit_string s = true -> in_byte 48 57 c = false -> no_char c s.
Proof.
  unfold digit_string. induction s as [|d s IH]; [intros _ _; apply not_elem_of_nil|]. simpl.
  intros [Hd Hs]%andb_true_iff Hc. apply no_char_cons. split; [congruence | by apply IH].
Qed.

(** ** The files of a job

    A job writes files [<dir><base>.<index>.<time><suffix>].  Its name begins
    with a character that occurs nowhere else in such a file name, as that of
    the default names "hilog" and "hilog_kmsg". *)

Section window.
Context (char_signed : bool) (c : ascii) (b0 suffix : string) (max : Z).
Hypothesis Hdigit : in_byte 48 57 c = false.
Hypothesis Hdot : c <> "."%char.
Hypothesis Hb0 : no_char c b0.
Hypothesis Hsuffix : no_char c suffix.
Hypothesis Hmax : 1 <= max <= MAX_LOG_FILE_NUM.

Definition time_ok (t : string) : Prop := no_char c t.

Definition short (i : Z) (t : string) : string :=
  String c b0 +:+ "." +:+ GetFileNameIndex i +:+ "." +:+ t +:+ suffix.
Definition path (i : Z) (t : string) : string := HILOG_FILE_DIR +:+ short i t.

(** A file of the job: index, time and content. *)
Abbreviation file := (Z * string * string)%type.
Definition f_idx (f : file) : Z := f.1.1.
Definition f_time (f : file) : string := f.1.2.
Definition f_data (f : file) : string := f.2.
Definition f_path (f : file) : string := path (f_idx f) (f_time f).

(** The directory holds exactly the files [w] of the job. *)
Record dir_ok (fs : filesystem) (w : list file) : Prop := {
  do_here : Forall (fun f => fs !! f_path f = Some (f_data f)) w;
  do_only : forall i t d, 0 <= i -> time_ok t -> fs !! path i t = Some d -> exists f, f ∈ w /\ f_path f = path i t;
}.

(** The files are in the order of their indices, which lie in the window of [max] indices up to the current
    one. *)
Record win_ok (r : LogPersisterRotator) (fs : filesystem) (w : list file) : Prop := {
  wo_path : m_logsPath r = HILOG_FILE_DIR +:+ String c b0;
  wo_suffix : m_fileNameSuffix r = suffix;
  wo_max : m_maxLogFileNum r = max;
  wo_info : exists x, m_infoFilePath r = HILOG_FILE_DIR +:+ String "." x;
  wo_idx : 0 <= m_currentLogFileIdx r < 2 ^ 31;
  wo_sorted : StronglySorted Z.lt (f_idx <$> w);
  wo_window : Forall (fun f => 0 <= f_idx f /\ m_currentLogFileIdx r - max < f_idx f <= m_currentLogFileIdx r /\
                               time_ok (f_time f)) w;
  wo_dir : dir_ok fs w;
  wo_current : m_needRotate r = false ->
    (m_currentLogOutput r = false /\ Forall (fun f => f_idx f < m_currentLogFileIdx r) w) \/
    (m_currentLogOutput r = true /\ exists w0 t d, w = w0 ++ [(m_currentLogFileIdx r, t, d)] /\
       m_currentLogFileName r = path (m_currentLogFileIdx r) t);
}.

(** The listing of the directory is complete, and no file of another job looks
    like one of this one. *)
Definition env_ok (e : file_env) (fs : filesystem) : Prop :=
  fe_openable e = true /\ time_ok (fe_time e) /\
  (forall n, n ∈ fe_entries e <-> fs !! (HILOG_FILE_DIR +:+ n) <> None) /\
  (forall n i, n ∈ fe_entries e -> 0 <= i -> contains (String c b0 +:+ "." +:+ GetFileNameIndex i) n = true ->
     exists j t, 0 <= j /\ time_ok t /\ n = short j t).

(** What one [Input] does to the files. *)
Definition window_input (r : LogPersisterRotator) (w : list file) (t buf : string) : list file :=
  let idx := m_currentLogFileIdx r in
  if m_needRotate r then filter (fun f => f_idx f <> idx + 1 - max) w ++ [(idx + 1, t, buf)]
  else if m_currentLogOutput r then
    match last w with
    | Some f => take (length w - 1) w ++ [(f_idx f, f_time f, f_data f +:+ buf)]
    | None => w
    end
  else w ++ [(idx, t, buf)].

Lemma short_no_char i t : 0 <= i -> time_ok t -> no_char c (b0 +:+ "." +:+ GetFileNameIndex i +:+ "." +:+ t +:+ suffix).
Proof using Hdigit Hdot Hb0 Hsuffix.
  intros Hi Ht. assert (no_char c ".") as Hd by (apply no_char_cons; split; [done | apply not_elem_of_nil]).
  destruct (GetFileNameIndex_digits i Hi) as [_ Hg]. rewrite !no_char_app_iff.
  repeat split; try done. by apply digits_no_char.
Qed.

Lemma contains_short i j t :
  0 <= i -> 0 <= j -> time_ok t ->
  contains (String c b0 +:+ "." +:+ GetFileNameIndex i) (short j t) = true <-> i mod 1000 = j mod 1000.
Proof using Hdigit Hdot Hb0 Hsuffix.
  intros Hi Hj Ht. unfold short. rewrite !(str_cons_app c b0). cbn [contains is_prefix]. rewrite bool_decide_true by done.
  rewrite contains_no_first by (by apply short_no_char). rewrite orb_false_r. simpl.
  rewrite !is_prefix_app. rewrite is_prefix_same_len.
  - rewrite bool_decide_eq_true. split; [by apply GetFileNameIndex_inj|]. intros E.
    rewrite (GetFileNameIndex_mod i), (GetFileNameIndex_mod j) by done. congruence.
  - by rewrite (proj1 (GetFileNameIndex_digits i Hi)), (proj1 (GetFileNameIndex_digits j Hj)).
Qed.

Lemma dir_inj a b : HILOG_FILE_DIR +:+ a = HILOG_FILE_DIR +:+ b -> a = b.
Proof. unfold HILOG_FILE_DIR. rewrite !str_cons_app, !str_nil_app. by injection 1. Qed.

Lemma path_residue i j t t' : 0 <= i -> 0 <= j -> time_ok t -> path i t = path j t' -> i mod 1000 = j mod 1000.
Proof using Hdigit Hdot Hb0 Hsuffix.
  intros Hi Hj Ht E%dir_inj. apply (contains_short j i t) in Hi as Hc; [|done|done].
  symmetry. apply Hc. rewrite E. unfold short. rewrite !(str_cons_app c b0). cbn [contains is_prefix]. rewrite bool_decide_true by done.
  simpl. rewrite !is_prefix_app. rewrite is_prefix_same_len by done. by rewrite bool_decide_true.
Qed.

(** Indices of the window with the same residue are equal. *)
Lemma window_residue idx i j :
  idx - max < i <= idx -> idx - max < j <= idx -> i mod 1000 = j mod 1000 -> i = j.
Proof using Hmax. unfold MAX_LOG_FILE_NUM in Hmax. intros. Z.div_mod_to_equations. lia. Qed.

Definition in_window (idx : Z) (f : file) : Prop :=
  0 <= f_idx f /\ idx - max < f_idx f <= idx /\ time_ok (f_time f).

Lemma f_path_inj idx f g :
  in_window idx f -> in_window idx g -> f_path f = f_path g -> f_idx f = f_idx g.
Proof using Hdigit Hdot Hb0 Hsuffix Hmax.
  intros (Hf0 & Hf & Htf) (Hg0 & Hg & _) E. apply (window_residue idx); [done|done|].
  exact (path_residue _ _ _ _ Hf0 Hg0 Htf E).
Qed.

Lemma same_idx w f g : NoDup (f_idx <$> w) -> f ∈ w -> g ∈ w -> f_idx f = f_idx g -> f = g.
Proof.
  intros Hnd [a Ha]%list_elem_of_lookup [b Hb]%list_elem_of_lookup E.
  assert (a = b) as ->; [|congruence].
  eapply NoDup_lookup; [exact Hnd | |]; rewrite list_lookup_fmap; [by rewrite Ha | rewrite Hb; simpl; congruence].
Qed.

Lemma dir_remove fs w idx f0 :
  dir_ok fs w -> Forall (in_window idx) w -> NoDup (f_idx <$> w) -> f0 ∈ w ->
  dir_ok (delete (f_path f0) fs) (filter (fun f => f_idx f <> f_idx f0) w).
Proof using Hdigit Hdot Hb0 Hsuffix Hmax.
  intros [Hh Ho] Hw Hnd Hf0. rewrite Forall_forall in Hw, Hh. split.
  - apply Forall_forall. intros f [Hne Hf]%list_elem_of_filter. rewrite lookup_delete_ne; [by apply Hh|].
    intros E. apply Hne. symmetry. exact (f_path_inj idx _ _ (Hw _ Hf0) (Hw _ Hf) E).
  - intros i t d Hi0 Ht Hl. apply lookup_delete_Some in Hl as [Hne Hl].
    destruct (Ho i t d Hi0 Ht Hl) as (f & Hf & Ef). exists f. split; [|exact Ef].
    apply list_elem_of_filter. split; [|exact Hf]. intros E1.
    apply Hne. rewrite <- Ef. f_equal. symmetry. exact (same_idx w _ _ Hnd Hf Hf0 E1).
Qed.

(** A path with a new index, or none of the job, does not disturb the files. *)
Lemma dir_insert_other fs w p d :
  dir_ok fs w -> Forall (fun f => f_path f <> p) w -> (forall i t, p <> path i t) -> dir_ok (<[p := d]> fs) w.
Proof.
  intros [Hh Ho] Hp Hn. rewrite Forall_forall in Hh, Hp. split.
  - apply Forall_forall. intros f Hf. rewrite lookup_insert_ne; [by apply Hh|]. apply not_eq_sym, Hp, Hf.
  - intros i t d' Hi Ht Hl. rewrite lookup_insert_ne in Hl by apply Hn. exact (Ho i t d' Hi Ht Hl).
Qed.

Lemma dir_create fs w i t :
  dir_ok fs w -> 0 <= i -> time_ok t -> Forall (fun f => 0 <= f_idx f /\ time_ok (f_time f) /\ f_idx f mod 1000 <> i mod 1000) w ->
  dir_ok (<[path i t := ""]> fs) (w ++ [(i, t, "")]).
Proof using Hdigit Hdot Hb0 Hsuffix.
  intros [Hh Ho] Hi Ht Hw. rewrite Forall_forall in Hh, Hw. split.
  - apply Forall_app. split; [|apply Forall_singleton; apply lookup_insert_eq].
    apply Forall_forall. intros f Hf. rewrite lookup_insert_ne; [by apply Hh|]. intros E.
    destruct (Hw f Hf) as (Hf0 & Htf & Hne). apply Hne. symmetry. exact (path_residue _ _ _ _ Hi Hf0 Ht E).
  - intros j t' d Hj Ht' Hl. destruct (decide (path i t = path j t')) as [E|Hne].
    + exists (i, t, ""). split; [apply elem_of_app; right; by left | exact E].
    + rewrite lookup_insert_ne in Hl by exact Hne. destruct (Ho j t' d Hj Ht' Hl) as (f & Hf & Ef).
      exists f. split; [apply elem_of_app; by left | exact Ef].
Qed.

Lemma dir_append fs w i t d buf :
  dir_ok fs (w ++ [(i, t, d)]) -> Forall (fun f => f_path f <> path i t) w ->
  dir_ok (alter (fun x => x +:+ buf) (path i t) fs) (w ++ [(i, t, d +:+ buf)]).
Proof.
  intros [Hh Ho] Hw. apply Forall_app in Hh as [Hh [Hl _]%Forall_cons]. rewrite Forall_forall in Hh, Hw. split.
  - apply Forall_app. split.
    + apply Forall_forall. intros f Hf. rewrite lookup_alter_ne; [by apply Hh|]. apply not_eq_sym, Hw, Hf.
    + apply Forall_singleton. change (f_path (i, t, d +:+ buf)) with (path i t). rewrite lookup_alter_eq.
      change (f_path (i, t, d)) with (path i t) in Hl. by rewrite Hl.
  - intros j t' d' Hj Ht' Hl'. destruct (decide (path i t = path j t')) as [E|Hne].
    + exists (i, t, d +:+ buf). split; [apply elem_of_app; right; by left | exact E].
    + rewrite lookup_alter_ne in Hl' by exact Hne. destruct (Ho j t' d' Hj Ht' Hl') as (f & Hf & Ef).
      apply elem_of_app in Hf as [Hf| ->%list_elem_of_singleton]; [|by destruct Hne].
      exists f. split; [apply elem_of_app; by left | exact Ef].
Qed.

Lemma base_name_ok r : m_logsPath r = HILOG_FILE_DIR +:+ String c b0 -> base_name r = String c b0.
Proof. intros E. unfold base_name. rewrite E. apply str_drop_app_length. Qed.

Lemma IsOldFile_ok r n :
  m_logsPath r = HILOG_FILE_DIR +:+ String c b0 -> m_maxLogFileNum r = max ->
  0 <= m_currentLogFileIdx r < 2 ^ 31 -> max <= m_currentLogFileIdx r + 1 ->
  IsOldFile r n (i32 (m_currentLogFileIdx r)) =
    contains (String c b0 +:+ "." +:+ GetFileNameIndex (m_currentLogFileIdx r + 1 - max)) n.
Proof using Hmax.
  intros Hp Hm Hi Hle. unfold IsOldFile, MAX_LOG_FILE_NUM in *. rewrite base_name_ok, Hm by exact Hp.
  rewrite (wraps_small 32 (m_currentLogFileIdx r)) by lia. rewrite wrapu_small, wraps_small by lia. done.
Qed.

(** [RemoveOldFile] removes the file that leaves the window. *)
Lemma RemoveOldFile_ok r fs w e :
  m_logsPath r = HILOG_FILE_DIR +:+ String c b0 -> m_maxLogFileNum r = max ->
  0 <= m_currentLogFileIdx r < 2 ^ 31 -> max <= m_currentLogFileIdx r + 1 ->
  dir_ok fs w -> Forall (in_window (m_currentLogFileIdx r)) w -> NoDup (f_idx <$> w) -> env_ok e fs ->
  dir_ok (RemoveOldFile r (fe_entries e) fs) (filter (fun f => f_idx f <> m_currentLogFileIdx r + 1 - max) w).
Proof using Hdigit Hdot Hb0 Hsuffix Hmax.
  intros Hp Hm Hi Hle Hd Hw Hnd (_ & _ & Hlist & Hours). set (i0 := m_currentLogFileIdx r + 1 - max).
  pose proof (proj1 (Forall_forall _ _) Hw) as Hw'.
  assert (forall es, (forall n, n ∈ es -> n ∈ fe_entries e) ->
    (forall f, f ∈ w -> f_idx f = i0 -> short (f_idx f) (f_time f) ∈ es) ->
    dir_ok (RemoveOldFile r es fs) (filter (fun f => f_idx f <> i0) w)) as Hes.
  { induction es as [|n es IH]; intros Hin Hold.
    { rewrite list_filter_id; [exact Hd|]. intros f Hf E. exact (not_elem_of_nil _ (Hold f Hf E)). }
    cbn [RemoveOldFile]. rewrite IsOldFile_ok by done. fold i0.
    destruct (contains _ n) eqn:Ec.
    - destruct (Hours n i0 (Hin n (list_elem_of_here _ _)) ltac:(lia) Ec) as (j & t & Hj & Ht & ->).
      apply (contains_short i0 j t) in Ec; [|lia|done|exact Ht].
      destruct (fs !! (HILOG_FILE_DIR +:+ short j t)) as [d|] eqn:El.
      2:{ by apply Hlist in El; [|apply Hin, list_elem_of_here]. }
      destruct (do_only _ _ Hd j t d Hj Ht El) as (f0 & Hf0 & Ef0).
      destruct (Hw' f0 Hf0) as (Hf00 & Hf0w & Htf0).
      assert (f_idx f0 = i0) as Ei.
      { apply (window_residue (m_currentLogFileIdx r)); [done|lia|]. rewrite Ec.
        exact (path_residue _ _ _ _ Hf00 Hj Htf0 Ef0). }
      fold (path j t). rewrite <- Ef0, <- Ei. exact (dir_remove fs w _ f0 Hd Hw Hnd Hf0).
    - apply IH; [intros m Hm'; apply Hin; by right|]. intros f Hf E.
      destruct (Hw' f Hf) as (Hf0 & _ & Htf). specialize (Hold f Hf E).
      apply elem_of_cons in Hold as [<-|Hold]; [|exact Hold].
      rewrite (proj2 (contains_short i0 (f_idx f) (f_time f) ltac:(lia) Hf0 Htf)) in Ec by congruence. done. }
  apply Hes; [done|]. intros f Hf _. apply Hlist. fold (path (f_idx f) (f_time f)).
  pose proof (do_here _ _ Hd) as Hh. rewrite Forall_forall in Hh.
  change (path (f_idx f) (f_time f)) with (f_path f). by rewrite (Hh f Hf).
Qed.

Lemma sorted_snoc l x : StronglySorted Z.lt l -> Forall (fun y => y < x) l -> StronglySorted Z.lt (l ++ [x]).
Proof.
  induction l as [|y l IH]; intros Hs Hx; simpl; [by repeat constructor|].
  apply StronglySorted_inv in Hs as [Hs Hy]. apply Forall_cons in Hx as [Hyx Hx]. constructor; [by apply IH|].
  apply Forall_app. split; [exact Hy | by repeat constructor].
Qed.

Lemma sorted_filter (P : file -> Prop) `{!forall f, Decision (P f)} w :
  StronglySorted Z.lt (f_idx <$> w) -> StronglySorted Z.lt (f_idx <$> filter P w).
Proof.
  induction w as [|f w IH]; [done|]. rewrite fmap_cons. intros Hs. apply StronglySorted_inv in Hs as [Hs Hf].
  rewrite filter_cons. case_decide; [|by apply IH]. rewrite fmap_cons. constructor; [by apply IH|].
  rewrite Forall_fmap in Hf |- *. eapply sublist_Forall; [apply sublist_filter | exact Hf].
Qed.

Lemma sorted_NoDup l : StronglySorted Z.lt l -> NoDup l.
Proof.
  induction 1 as [|x l Hs IH Hx]; constructor; [|done]. intros Hin. rewrite Forall_forall in Hx.
  specialize (Hx x Hin). lia.
Qed.

Lemma NoDup_incl_length_le {A} (l k : list A) : NoDup l -> l ⊆ k -> (length l <= length k)%nat.
Proof. intros Hnd Hsub. by apply submseteq_length, NoDup_submseteq. Qed.

Lemma sorted_app l1 l2 : StronglySorted Z.lt (l1 ++ l2) ->
  StronglySorted Z.lt l1 /\ forall x y, x ∈ l1 -> y ∈ l2 -> x < y.
Proof.
  induction l1 as [|z l1 IH]; simpl; [intros _; split; [constructor | by intros ? ? ?%not_elem_of_nil]|].
  intros [Hs Hz]%StronglySorted_inv. destruct (IH Hs) as [Hs1 Hlt]. apply Forall_app in Hz as [Hz1 Hz2].
  split; [by constructor|]. intros x y [->|Hx]%elem_of_cons Hy; [|by apply Hlt].
  rewrite Forall_forall in Hz2. by apply Hz2.
Qed.

Lemma sorted_init l x : StronglySorted Z.lt (l ++ [x]) -> StronglySorted Z.lt l.
Proof. by intros [? _]%sorted_app. Qed.

Lemma sorted_before l x : StronglySorted Z.lt (l ++ [x]) -> forall y, y ∈ l -> y < x.
Proof. intros [_ H]%sorted_app y Hy. apply H; [done | by left]. Qed.

Lemma info_not_path p : (exists x, p = HILOG_FILE_DIR +:+ String "." x) -> forall i t, p <> path i t.
Proof using Hdot. intros [x ->] i t E%dir_inj. unfold short in E. rewrite str_cons_app in E. by injection E as E _. Qed.

(** A new file with its first bytes, the recovery file being written between. *)
Lemma dir_new_file fs w i t buf (info : option (string * string)) :
  dir_ok fs w -> 0 <= i -> time_ok t ->
  Forall (fun f => 0 <= f_idx f /\ time_ok (f_time f) /\ f_idx f mod 1000 <> i mod 1000) w ->
  (forall p d, info = Some (p, d) -> exists x, p = HILOG_FILE_DIR +:+ String "." x) ->
  dir_ok (alter (fun x => x +:+ buf) (path i t)
            (let fs := <[path i t := ""]> fs in match info with Some (p, d) => <[p := d]> fs | None => fs end))
    (w ++ [(i, t, buf)]).
Proof using Hdigit Hdot Hb0 Hsuffix.
  intros Hd Hi Ht Hw Hinfo. pose proof (dir_create fs w i t Hd Hi Ht Hw) as Hc.
  change buf with ("" +:+ buf) at 2. apply dir_append.
  - destruct info as [[p d]|]; [|exact Hc]. pose proof (info_not_path p (Hinfo p d eq_refl)) as Hp.
    apply dir_insert_other; [exact Hc | | exact Hp].
    apply Forall_forall. intros f _ E. exact (Hp _ _ (eq_sym E)).
  - eapply Forall_impl; [exact Hw|]. intros f (Hf0 & Htf & Hne) E.
    exact (Hne (path_residue _ _ _ _ Hf0 Hi Htf E)).
Qed.

(** The part of [win_ok] that does not change. *)
Record fixed_ok (r : LogPersisterRotator) : Prop := {
  fx_path : m_logsPath r = HILOG_FILE_DIR +:+ String c b0;
  fx_suffix : m_fileNameSuffix r = suffix;
  fx_max : m_maxLogFileNum r = max;
  fx_info : exists x, m_infoFilePath r = HILOG_FILE_DIR +:+ String "." x;
}.

Lemma log_file_name_ok r t :
  fixed_ok r -> 0 <= m_currentLogFileIdx r < 2 ^ 31 -> log_file_name r t = path (m_currentLogFileIdx r) t.
Proof.
  intros [Hp Hs _ _] Hi. unfold log_file_name, path, short. rewrite Hp, Hs, wraps_small by lia.
  by rewrite <- str_app_assoc.
Qed.

Lemma win_ok_new r fs w i t buf :
  fixed_ok r -> 0 <= i < 2 ^ 31 -> m_currentLogFileIdx r = i -> m_needRotate r = false -> m_currentLogOutput r = true ->
  m_currentLogFileName r = path i t -> time_ok t ->
  StronglySorted Z.lt (f_idx <$> w) -> Forall (fun f => in_window i f /\ f_idx f < i) w ->
  dir_ok fs (w ++ [(i, t, buf)]) -> win_ok r fs (w ++ [(i, t, buf)]).
Proof using Hmax.
  intros [Hp Hsf Hmx Hin] Hi Ei Hn Ho Hname Ht Hs Hw Hd. split; try done.
  - by rewrite Ei.
  - rewrite fmap_app. apply sorted_snoc; [done|]. apply Forall_fmap. eapply Forall_impl; [exact Hw|]. by intros f [_ ?].
  - apply Forall_app. rewrite Ei. split; [eapply Forall_impl; [exact Hw|]; by intros f [? _]|].
    apply Forall_cons. split; [|constructor]. unfold f_idx, f_time. simpl. split; [lia|]. split; [lia | exact Ht].
  - intros _. right. split; [done|]. exists w, t, buf. by rewrite Ei.
Qed.

Lemma win_fixed r fs w : win_ok r fs w -> fixed_ok r.
Proof. intros []. by split. Qed.

(** The files left after the oldest has made room for a new one. *)
Lemma rotate_room r fs w e :
  win_ok r fs w -> env_ok e fs -> m_currentLogFileIdx r + 1 < 2 ^ 31 ->
  let idx := m_currentLogFileIdx r in
  let w1 := filter (fun f => f_idx f <> idx + 1 - max) w in
  dir_ok (if m_maxLogFileNum r <=? u32 (idx + 1) then RemoveOldFile r (fe_entries e) fs else fs) w1 /\
  Forall (fun f => in_window (idx + 1) f /\ f_idx f < idx + 1) w1.
Proof using Hdigit Hdot Hb0 Hsuffix Hmax.
  intros Hw He Hidx idx w1. pose proof (wo_idx _ _ _ Hw) as Hi. fold idx in Hi.
  pose proof (wo_window _ _ _ Hw) as HW. fold idx in HW. split.
  - rewrite (wo_max _ _ _ Hw), wrapu_small by lia. destruct (Z.leb_spec max (idx + 1)) as [Hle|Hgt].
    + apply RemoveOldFile_ok; try done; try apply Hw. apply sorted_NoDup, Hw.
    + unfold w1. rewrite list_filter_id; [apply Hw|]. intros f Hf. rewrite Forall_forall in HW.
      destruct (HW f Hf) as (? & ? & ?). lia.
  - apply Forall_forall. intros f [Hne Hf]%list_elem_of_filter. rewrite Forall_forall in HW.
    destruct (HW f Hf) as (? & ? & ?). unfold in_window. split; [|lia]. split; [lia|]. split; [lia|done].
Qed.

Lemma window_fresh idx w :
  Forall (fun f => in_window idx f /\ f_idx f < idx) w ->
  Forall (fun f => 0 <= f_idx f /\ time_ok (f_time f) /\ f_idx f mod 1000 <> idx mod 1000) w.
Proof using Hmax.
  intros Hw. eapply Forall_impl; [exact Hw|]. intros f ((Hf0 & Hf & Ht) & Hlt). split; [done|]. split; [done|].
  intros E. pose proof (window_residue idx (f_idx f) idx Hf ltac:(lia) E). lia.
Qed.

Lemma Input_rotates r fs w e buf :
  win_ok r fs w -> env_ok e fs -> 0 < slen buf -> m_currentLogFileIdx r + 1 < 2 ^ 31 -> m_needRotate r = true ->
  exists r' fs', Input char_signed e r buf fs = (r', fs', 0) /\ m_currentLogFileIdx r' = m_currentLogFileIdx r + 1 /\
    win_ok r' fs' (window_input r w (fe_time e) buf) /\ m_needRotate r' = false /\ m_currentLogOutput r' = true.
Proof using Hdigit Hdot Hb0 Hsuffix Hmax.
  intros Hw He Hbuf Hidx Hn. pose proof (win_fixed _ _ _ Hw) as Hfx. pose proof (wo_idx _ _ _ Hw) as Hi.
  destruct (rotate_room r fs w e Hw He Hidx) as [Hd1 Hw1]. destruct He as (Hop & Ht & _).
  unfold Input, window_input. destruct (Z.leb_spec (slen buf) 0); [lia|]. rewrite Hn. unfold Rotate. rewrite Hop.
  set (fs1 := if _ <=? _ then _ else fs) in *. set (w1 := filter _ w) in *.
  set (r1 := set_file r _ _ _ _).
  assert (m_currentLogFileIdx r1 = m_currentLogFileIdx r + 1) as Hi1 by (apply wrapu_small; lia).
  assert (fixed_ok r1) as Hf1 by (destruct Hfx; by split).
  unfold CreateLogFile. rewrite (log_file_name_ok r1 _ Hf1) by (rewrite Hi1; lia).
  rewrite Hi1. unfold UpdateRotateNumber. eexists _, _. split; [reflexivity|]. split; [reflexivity|]. split; [|by split].
  apply win_ok_new; [destruct Hfx; by split | lia | reflexivity.. | exact Ht | | exact Hw1 |].
  - apply sorted_filter, Hw.
  - unfold write_log, WriteRecoveryInfo.
    cbn [set_info set_file m_currentLogOutput m_currentLogFileName m_infoFile m_infoFilePath m_info].
    change (m_infoFile r1) with (m_infoFile r). change (m_infoFilePath r1) with (m_infoFilePath r).
    destruct (m_infoFile r).
    + eapply (dir_new_file fs1 w1 _ _ buf (Some (_, _))); try done; [lia | by apply window_fresh |].
      intros p d [= <- _]. apply Hfx.
    + eapply (dir_new_file fs1 w1 _ _ buf None); try done; [lia | by apply window_fresh].
Qed.

Lemma Input_continues r fs w e buf :
  win_ok r fs w -> env_ok e fs -> 0 < slen buf -> m_needRotate r = false ->
  exists r' fs', Input char_signed e r buf fs = (r', fs', 0) /\ m_currentLogFileIdx r' = m_currentLogFileIdx r /\
    win_ok r' fs' (window_input r w (fe_time e) buf) /\ m_needRotate r' = false /\ m_currentLogOutput r' = true.
Proof using Hdigit Hdot Hb0 Hsuffix Hmax.
  intros Hw He Hbuf Hn. pose proof (win_fixed _ _ _ Hw) as Hfx. pose proof (wo_idx _ _ _ Hw) as Hi.
  pose proof (wo_window _ _ _ Hw) as HW. pose proof (wo_sorted _ _ _ Hw) as Hs. pose proof (wo_dir _ _ _ Hw) as Hd.
  destruct He as (Hop & Ht & _). unfold Input, window_input. destruct (Z.leb_spec (slen buf) 0); [lia|]. rewrite Hn.
  destruct (wo_current _ _ _ Hw Hn) as [[Ho Hlt]|[Ho (w0 & t & d & -> & Hname)]]; rewrite Ho.
  - rewrite orb_true_r. unfold CreateLogFile. rewrite Hop, (log_file_name_ok r _ Hfx Hi).
    eexists _, _. split; [reflexivity|]. split; [reflexivity|]. split; [|by split].
    assert (Forall (fun f => in_window (m_currentLogFileIdx r) f /\ f_idx f < m_currentLogFileIdx r) w) as Hwi.
    { apply Forall_and. by split. }
    apply win_ok_new; [destruct Hfx; by split | lia | reflexivity | exact Hn | reflexivity.. | exact Ht | exact Hs | exact Hwi |].
    apply (dir_new_file fs w _ _ buf None); try done; [lia | by apply window_fresh].
  - pose proof (do_here _ _ Hd) as Hh. apply Forall_app in Hh as [_ [Hl _]%Forall_cons].
    change (f_path (m_currentLogFileIdx r, t, d)) with (path (m_currentLogFileIdx r) t) in Hl.
    rewrite Hname, Hl, bool_decide_false by done. simpl orb. cbn [fst snd].
    apply Forall_app in HW as [HW0 [HWl _]%Forall_cons]. destruct HWl as (_ & _ & Htt).
    change (f_time (m_currentLogFileIdx r, t, d)) with t in Htt.
    assert (Forall (fun f => in_window (m_currentLogFileIdx r) f /\ f_idx f < m_currentLogFileIdx r) w0) as Hwi.
    { apply Forall_and. split; [exact HW0|]. rewrite fmap_app in Hs. apply Forall_forall. intros f Hf.
      apply (sorted_before _ _ Hs). by apply list_elem_of_fmap_2. }
    eexists _, _. split; [reflexivity|]. split; [reflexivity|]. split; [|by split].
    rewrite last_snoc, length_app, Nat.add_sub, take_app_length.
    apply win_ok_new; [exact Hfx | exact Hi | reflexivity | exact Hn | exact Ho | exact Hname | exact Htt | | exact Hwi |].
    + rewrite fmap_app in Hs. exact (sorted_init _ _ Hs).
    + unfold write_log. rewrite Ho, Hname. apply dir_append; [exact Hd|].
      eapply Forall_impl; [exact (window_fresh _ _ Hwi)|]. intros f (Hf0 & Htf & Hne) E.
      exact (Hne (path_residue _ _ _ _ Hf0 (proj1 Hi) Htf E)).
Qed.

Lemma FinishInput_ok r fs w : win_ok r fs w -> win_ok (FinishInput r) fs w.
Proof. intros []. split; try done. Qed.

(** ** Runs *)

Inductive rot_event := RInput (e : file_env) (buf : string) | RFinish.

Definition rot_step (s : LogPersisterRotator * filesystem) (ev : rot_event) : LogPersisterRotator * filesystem :=
  match ev with
  | RInput e buf => let '(r, fs, _) := Input char_signed e s.1 buf s.2 in (r, fs)
  | RFinish => (FinishInput s.1, s.2)
  end.

(** Every listing is right at its time, and something is written each time. *)
Fixpoint rot_envs (s : LogPersisterRotator * filesystem) (evs : list rot_event) : Prop :=
  match evs with
  | [] => True
  | ev :: evs =>
      match ev with RInput e buf => 0 < slen buf /\ env_ok e s.2 | RFinish => True end /\ rot_envs (rot_step s ev) evs
  end.

Definition rot_input (ev : rot_event) : string := match ev with RInput _ buf => buf | RFinish => "" end.
Definition rot_stream (evs : list rot_event) : string := sconcat (rot_input <$> evs).
Definition win_data (w : list file) : string := sconcat (f_data <$> w).

Lemma sconcat_app l1 l2 : sconcat (l1 ++ l2) = sconcat l1 +:+ sconcat l2.
Proof.
  induction l1 as [|x l1 IH]; [done|]. change (sconcat ((x :: l1) ++ l2)) with (x +:+ sconcat (l1 ++ l2)).
  rewrite IH. apply str_app_assoc.
Qed.

Lemma sconcat_cons x l : sconcat (x :: l) = x +:+ sconcat l.
Proof. done. Qed.

Lemma win_data_app w1 w2 : win_data (w1 ++ w2) = win_data w1 +:+ win_data w2.
Proof. unfold win_data. by rewrite fmap_app, sconcat_app. Qed.

Lemma win_data_snoc w i t d : win_data (w ++ [(i, t, d)]) = win_data w +:+ d.
Proof. rewrite win_data_app. change (win_data [(i, t, d)]) with (d +:+ ""). by rewrite str_app_nil_r. Qed.

(** The oldest file is the only one that can be dropped. *)
Lemma filter_oldest w a :
  StronglySorted Z.lt (f_idx <$> w) -> Forall (fun f => a <= f_idx f) w ->
  exists lost, win_data w = lost +:+ win_data (filter (fun f => f_idx f <> a) w) /\
    (Forall (fun f => a < f_idx f) w -> lost = "").
Proof.
  intros Hs Ha. destruct w as [|f w]; [by exists ""|]. rewrite filter_cons.
  rewrite fmap_cons in Hs. apply StronglySorted_inv in Hs as [_ Hf]. rewrite Forall_fmap in Hf.
  apply Forall_cons in Ha as [Ha _].
  rewrite (list_filter_id _ w).
  - case_decide as Hd; [by exists ""|]. exists (f_data f). split; [done|]. intros [Hlt _]%Forall_cons. lia.
  - intros g Hg. rewrite Forall_forall in Hf. specialize (Hf g Hg). simpl in Hf. lia.
Qed.

(** The contents of all files that are begun, were none ever removed: [fresh]
    tells that the next text begins one. *)
Definition fresh (r : LogPersisterRotator) : bool := m_needRotate r || negb (m_currentLogOutput r).

Definition append_to_last (all : list string) (buf : string) : list string :=
  match last all with Some d => take (length all - 1) all ++ [d +:+ buf] | None => [buf] end.

Fixpoint begun (new : bool) (all : list string) (evs : list rot_event) : list string :=
  match evs with
  | [] => all
  | RInput _ buf :: evs => begun false (if new then all ++ [buf] else append_to_last all buf) evs
  | RFinish :: evs => begun true all evs
  end.

Definition latest (all : list string) : list string := drop (length all - Z.to_nat max) all.

(** The files have the indices up to the current one without a gap; a job that
    has not begun a file has none. *)
Definition tight (r : LogPersisterRotator) (w : list file) : Prop :=
  (m_needRotate r || m_currentLogOutput r = false -> w = []) /\
  f_idx <$> w = seqZ (m_currentLogFileIdx r + 1 - Z.of_nat (length w)) (Z.of_nat (length w)).

(** The window shows the latest of the files begun. *)
Definition shows (r : LogPersisterRotator) (w : list file) (all : list string) : Prop := tight r w /\ f_data <$> w = latest all.

Lemma latest_snoc all x : latest (all ++ [x]) = drop (length (latest all) + 1 - Z.to_nat max) (latest all) ++ [x].
Proof using Hmax.
  unfold latest. rewrite length_app, length_drop, drop_drop. cbn [length].
  rewrite drop_app_le by lia. do 2 f_equal. lia.
Qed.

Lemma drop_seqZ a n k : 0 <= k <= n -> drop (Z.to_nat k) (seqZ a n) = seqZ (a + k) (n - k).
Proof using.
  intros Hk. replace n with (k + (n - k)) at 1 by lia. rewrite seqZ_app by lia. rewrite drop_app_length'; [done|]. by rewrite length_seqZ.
Qed.

(** The oldest file goes when a file is begun and there are [max]. *)
Lemma shows_rotate r r' w all t buf :
  Z.of_nat (length w) <= max -> shows r w all -> m_needRotate r = true ->
  m_currentLogFileIdx r' = m_currentLogFileIdx r + 1 -> m_needRotate r' = false -> m_currentLogOutput r' = true ->
  shows r' (window_input r w t buf) (all ++ [buf]).
Proof using Hmax.
  intros Hlen [[_ Ht] Ed] Hn Hi Hn' Ho'. unfold shows, tight, window_input in *. rewrite Hn, Hn', Ho', Hi in *. cbn [orb] in *.
  rewrite latest_snoc, <- Ed, length_fmap. set (idx := m_currentLogFileIdx r) in *.
  assert (filter (fun f => f_idx f <> idx + 1 - max) w = drop (length w + 1 - Z.to_nat max) w) as ->.
  { destruct (Z.eq_dec (Z.of_nat (length w)) max) as [E|Hne].
    - destruct w as [|f w]; [cbn in *; lia|]. rewrite fmap_cons in Ht. cbn [length] in *.
      rewrite seqZ_cons in Ht by lia. injection Ht as Hf Hw. replace (S (length w) + 1 - Z.to_nat max)%nat with 1%nat by lia. cbn [drop].
      rewrite filter_cons, decide_False by lia. rewrite drop_0. apply list_filter_id. intros g Hg E'.
      assert (f_idx g ∈ f_idx <$> w) as Hin by by apply list_elem_of_fmap_2. rewrite Hw in Hin. apply elem_of_seqZ in Hin. lia.
    - replace (length w + 1 - Z.to_nat max)%nat with 0%nat by lia. rewrite drop_0. apply list_filter_id. intros g Hg E'.
      assert (f_idx g ∈ f_idx <$> w) as Hin by by apply list_elem_of_fmap_2. rewrite Ht in Hin. apply elem_of_seqZ in Hin. lia. }
  split; [split; [done|]|].
  - rewrite fmap_app, fmap_drop, Ht. cbn [fmap list_fmap]. rewrite length_app, length_drop. cbn [length].
    set (k := Z.max 0 (Z.of_nat (length w) + 1 - max)). replace (length w + 1 - Z.to_nat max)%nat with (Z.to_nat k) by lia.
    rewrite drop_seqZ by lia. rewrite Nat2Z.inj_add, Nat2Z.inj_sub by lia. rewrite Z2Nat.id by lia.
    rewrite seqZ_app by lia. f_equal; [f_equal; lia|]. rewrite seqZ_cons by lia. change (f_idx (idx + 1, t, buf)) with (idx + 1). rewrite seqZ_nil by lia. f_equal. lia.
  - by rewrite fmap_app, fmap_drop.
Qed.

(** The first file of a job is begun without a rotation. *)
Lemma shows_first r r' w all t buf :
  shows r w all -> m_needRotate r = false -> m_currentLogOutput r = false ->
  m_currentLogFileIdx r' = m_currentLogFileIdx r -> m_currentLogOutput r' = true ->
  shows r' (window_input r w t buf) (all ++ [buf]).
Proof using Hmax.
  intros [[Hw _] Ed] Hn Ho Hi Ho'. rewrite Hn, Ho in Hw. rewrite Hw in * by done. clear Hw. unfold window_input. rewrite Hn, Ho.
  assert (all = []) as ->.
  { pose proof (f_equal length Ed) as El. unfold latest in El. rewrite length_drop in El. destruct all as [|x l]; [done|]. cbn [fmap list_fmap length] in El. lia. }
  split; [split; [by rewrite Ho', orb_true_r|]|].
  - cbn [app fmap list_fmap length]. change (Z.of_nat 1) with 1. rewrite seqZ_cons by lia. rewrite seqZ_nil by lia. f_equal.
    change (f_idx (m_currentLogFileIdx r, t, buf)) with (m_currentLogFileIdx r). lia.
  - unfold latest. cbn [app length]. by replace (1 - Z.to_nat max)%nat with 0%nat by lia.
Qed.

Lemma shows_append r r' w0 i t d t' all buf :
  shows r (w0 ++ [(i, t, d)]) all -> m_needRotate r = false -> m_currentLogOutput r = true ->
  m_currentLogFileIdx r' = m_currentLogFileIdx r -> m_currentLogOutput r' = true ->
  shows r' (window_input r (w0 ++ [(i, t, d)]) t' buf) (append_to_last all buf).
Proof using Hmax.
  intros [[_ Ht] Ed] Hn Ho Hi Ho'. unfold shows, tight, window_input in *. rewrite Hn, Ho, Hi, Ho', !orb_true_r in *.
  rewrite last_snoc, length_app, Nat.add_sub, take_app_length. cbn [orb] in *. rewrite !length_app in *. cbn [length] in *.
  split; [split; [done | by rewrite !fmap_app in *]|]. rewrite fmap_app in *. cbn [fmap list_fmap] in *.
  destruct all as [|x all _] using rev_ind; [by destruct w0|]. rewrite latest_snoc in Ed. apply app_inj_tail in Ed as [Ed <-].
  unfold append_to_last. rewrite last_snoc, length_app, Nat.add_sub, take_app_length, latest_snoc. by rewrite Ed.
Qed.

Lemma sorted_length l a n :
  StronglySorted Z.lt l -> Forall (fun x => a < x <= a + n) l -> 0 <= n -> Z.of_nat (length l) <= n.
Proof.
  revert a n. induction l as [|x l IH]; intros a n Hs Hl Hn; [simpl; lia|].
  apply StronglySorted_inv in Hs as [Hs Hx]. apply Forall_cons in Hl as [Hax Hl].
  specialize (IH x (a + n - x) Hs). simpl length. rewrite Nat2Z.inj_succ.
  enough (Z.of_nat (length l) <= a + n - x) by lia. apply IH; [|lia].
  apply Forall_forall. intros y Hy. rewrite Forall_forall in Hx, Hl. specialize (Hx y Hy). specialize (Hl y Hy). lia.
Qed.

Lemma win_length r fs w : win_ok r fs w -> Z.of_nat (length w) <= max.
Proof using Hmax.
  intros Hw. rewrite <- (length_fmap f_idx). apply (sorted_length _ (m_currentLogFileIdx r - max)); [apply Hw | | lia].
  apply Forall_fmap. eapply Forall_impl; [apply (wo_window _ _ _ Hw)|]. intros f (? & ? & ?). simpl. lia.
Qed.

Lemma rot_step_ok r fs w ev :
  win_ok r fs w -> rot_envs (r, fs) [ev] -> m_currentLogFileIdx r + 1 < 2 ^ 31 ->
  exists r' fs' w' lost, rot_step (r, fs) ev = (r', fs') /\ win_ok r' fs' w' /\
    m_currentLogFileIdx r <= m_currentLogFileIdx r' <= m_currentLogFileIdx r + 1 /\
    win_data w +:+ rot_input ev = lost +:+ win_data w' /\ (m_currentLogFileIdx r' < max -> lost = "") /\
    (forall all, shows r w all -> shows r' w' (begun (fresh r) all [ev]) /\ fresh r' = match ev with RFinish => true | _ => false end).
Proof using Hdigit Hdot Hb0 Hsuffix Hmax.
  intros Hw [Hev _] Hidx. pose proof (wo_window _ _ _ Hw) as HW. destruct ev as [e buf|].
  2:{ exists (FinishInput r), fs, w, "". split; [done|]. split; [by apply FinishInput_ok|]. split; [simpl; lia|].
      split; [simpl; by rewrite str_app_nil_r|]. split; [done|]. intros all [[_ Ht] Ed]. by split. }
  pose proof (win_length _ _ _ Hw) as Hlen. destruct Hev as [Hbuf He]. cbn [rot_step fst snd rot_input]. destruct (m_needRotate r) eqn:Hn.
  - destruct (Input_rotates r fs w e buf Hw He Hbuf Hidx Hn) as (r' & fs' & -> & Hi & Hw' & Hn' & Ho').
    destruct (filter_oldest w (m_currentLogFileIdx r + 1 - max)) as (lost & Hl & Hno); [apply Hw | |].
    { eapply Forall_impl; [exact HW|]. intros f (? & ? & ?). lia. }
    exists r', fs', (window_input r w (fe_time e) buf), lost. split; [done|]. split; [exact Hw'|]. split; [lia|]. split; [|split].
    + unfold window_input. rewrite Hn, win_data_snoc, Hl. symmetry. apply str_app_assoc.
    + intros Hlt. apply Hno. eapply Forall_impl; [exact HW|]. intros f (? & ? & ?). lia.
    + intros all Hs. unfold fresh at 2. rewrite Hn', Ho'. split; [|done]. unfold fresh. rewrite Hn. cbn [begun orb]. by apply (shows_rotate r r').
  - destruct (Input_continues r fs w e buf Hw He Hbuf Hn) as (r' & fs' & -> & Hi & Hw' & Hn' & Ho').
    exists r', fs', (window_input r w (fe_time e) buf), "". split; [done|]. split; [exact Hw'|]. split; [lia|]. split; [|split; [done|]].
    2:{ intros all Hs. unfold fresh at 2. rewrite Hn', Ho'. split; [|done]. unfold fresh. rewrite Hn. cbn [begun orb].
        destruct (wo_current _ _ _ Hw Hn) as [[Ho _]|[Ho (w0 & t & d & -> & _)]]; rewrite Ho; cbn [negb]; [by apply (shows_first r r') | by apply (shows_append r r')]. }
    unfold window_input. rewrite Hn, str_nil_app.
    destruct (wo_current _ _ _ Hw Hn) as [[-> _]|[-> (w0 & t & d & -> & _)]].
    + by rewrite win_data_snoc.
    + rewrite last_snoc, length_app, Nat.add_sub, take_app_length, !win_data_snoc. symmetry. apply str_app_assoc.
Qed.

Lemma rot_run_ok evs r fs w :
  win_ok r fs w -> rot_envs (r, fs) evs -> m_currentLogFileIdx r + Z.of_nat (length evs) < 2 ^ 31 ->
  exists r' fs' w' lost, foldl rot_step (r, fs) evs = (r', fs') /\ win_ok r' fs' w' /\
    m_currentLogFileIdx r <= m_currentLogFileIdx r' /\
    win_data w +:+ rot_stream evs = lost +:+ win_data w' /\ (m_currentLogFileIdx r' < max -> lost = "") /\
    (forall all, shows r w all -> shows r' w' (begun (fresh r) all evs)).
Proof using Hdigit Hdot Hb0 Hsuffix Hmax.
  revert r fs w. induction evs as [|ev evs IH]; intros r fs w Hw He Hidx.
  { exists r, fs, w, "". split; [done|]. split; [done|]. split; [lia|]. split; [|done].
    change (rot_stream []) with "". by rewrite str_app_nil_r. }
  destruct He as [Hev He]. simpl length in Hidx.
  destruct (rot_step_ok r fs w ev Hw (conj Hev I) ltac:(lia)) as (r1 & fs1 & w1 & lost1 & E1 & Hw1 & Hi1 & Hd1 & Hl1 & Hs1).
  rewrite E1 in He. destruct (IH r1 fs1 w1 Hw1 He ltac:(lia)) as (r' & fs' & w' & lost & E & Hw' & Hi & Hd & Hl & Hs).
  exists r', fs', w', (lost1 +:+ lost). split; [simpl foldl; by rewrite E1|]. split; [exact Hw'|]. split; [lia|]. split; [|split].
  - change (rot_stream (ev :: evs)) with (rot_input ev +:+ rot_stream evs).
    rewrite str_app_assoc, Hd1, <- str_app_assoc, Hd. by rewrite str_app_assoc.
  - intros Hlt. rewrite Hl1, Hl by lia. done.
  - intros all [H1 H2]%Hs1. apply Hs in H1. rewrite H2 in H1. by destruct ev.
Qed.

(** C37: over any sequence of writes and finished files, a job has at most its
    number of files, and their contents in the order of the indices are the
    end of everything written, byte for byte; nothing at all is missing while
    no more files have been begun than are kept.  When the files at the start
    have no gap, as those of a new job, the files at the end are exactly the
    latest of those that were begun: as many as are kept, or all of them.
    Files of other jobs may be in the directory, but none that looks like one
    of this job; the first character of the name is not found again in it. *)
Theorem rotation_keeps_latest r fs w evs :
  win_ok r fs w -> rot_envs (r, fs) evs -> m_currentLogFileIdx r + Z.of_nat (length evs) < 2 ^ 31 ->
  exists r' fs' w', foldl rot_step (r, fs) evs = (r', fs') /\ win_ok r' fs' w' /\
    Z.of_nat (length w') <= max /\
    (exists lost, win_data w +:+ rot_stream evs = lost +:+ win_data w' /\
       (m_currentLogFileIdx r' < max -> lost = "")) /\
    (tight r w -> tight r' w' /\ f_data <$> w' = latest (begun (fresh r) (f_data <$> w) evs)) /\
    (forall l, NoDup l -> Forall (fun p => fs' !! p <> None /\ exists i t, 0 <= i /\ time_ok t /\ p = path i t) l ->
       Z.of_nat (length l) <= max).
Proof using Hdigit Hdot Hb0 Hsuffix Hmax.
  intros Hw He Hidx. destruct (rot_run_ok evs r fs w Hw He Hidx) as (r' & fs' & w' & lost & E & Hw' & _ & Hd & Hl & Hs).
  pose proof (win_length _ _ _ Hw') as Hlen.
  exists r', fs', w'. split; [done|]. split; [done|]. split; [done|]. split; [by exists lost|]. split.
  { intros Ht. apply Hs. split; [done|]. pose proof (win_length _ _ _ Hw). unfold latest. rewrite length_fmap.
    by replace (length w - Z.to_nat max)%nat with 0%nat by lia. }
  intros l Hnd Hall. assert (l ⊆ f_path <$> w') as Hsub.
  { intros p Hp. rewrite Forall_forall in Hall. destruct (Hall p Hp) as [Hin (i & t & Hi & Ht & ->)].
    destruct (fs' !! path i t) as [d|] eqn:El; [|done].
    destruct (do_only _ _ (wo_dir _ _ _ Hw') i t d Hi Ht El) as (f & Hf & Ef). rewrite <- Ef. by apply list_elem_of_fmap_2. }
  pose proof (NoDup_incl_length_le l (f_path <$> w') Hnd Hsub) as Hle. rewrite length_fmap in Hle. lia.
Qed.
End window.

(** ** Example: the third file of a job that keeps two *)

Definition ex_c : ascii := "h".
Definition ex_b0 : string := "ilog".
Definition ex_file0 : string := short ex_c ex_b0 ".gz" 0 "20250806-165104".
Definition ex_file1 : string := short ex_c ex_b0 ".gz" 1 "20250806-165304".
Definition ex_rfs : filesystem :=
  <[HILOG_FILE_DIR +:+ ex_file0 := "a"]> (<[HILOG_FILE_DIR +:+ ex_file1 := "b"]> (<[HILOG_FILE_DIR +:+ "foo.txt" := "?"]> ∅)).
Definition ex_rot : LogPersisterRotator :=
  mkRotator 2 (HILOG_FILE_DIR +:+ String ex_c ex_b0) ".gz" (HILOG_FILE_DIR +:+ ex_file1) 1 false 1 true
    (HILOG_FILE_DIR +:+ ".persisterInfo_1.info") no_info true.
Definition ex_w : list (Z * string * string) := [(0, "20250806-165104", "a"); (1, "20250806-165304", "b")].
Definition ex_fenv : file_env := mkFileEnv ["foo.txt"; ex_file1; ex_file0] "20250806-165504" true.

Lemma ex_no_h s : bool_decide (no_char ex_c s) = true -> no_char ex_c s.
Proof. apply bool_decide_eq_true. Qed.

Lemma ex_rfs_lookup n : ex_rfs !! (HILOG_FILE_DIR +:+ n) <> None <-> n ∈ ["foo.txt"; ex_file1; ex_file0].
Proof.
  split.
  - unfold ex_rfs. rewrite !lookup_insert_None, lookup_empty, !elem_of_cons. intros H.
    destruct (decide (n = "foo.txt")); [by left|]. destruct (decide (n = ex_file1)); [by right; left|].
    destruct (decide (n = ex_file0)); [by right; right; left|]. destruct H.
    repeat split; try done; intros E%dir_inj; by subst.
  - intros [->|[->|[->|H]%elem_of_cons]%elem_of_cons]%elem_of_cons; [by vm_compute.. | by apply not_elem_of_nil in H].
Qed.

Lemma ex_win : win_ok ex_c ex_b0 ".gz" 2 ex_rot ex_rfs ex_w.
Proof.
  split; try done.
  - by exists "persisterInfo_1.info".
  - repeat constructor.
  - repeat (apply Forall_cons; split; [split; [done|]; split; [done|]; by apply ex_no_h|]). constructor.
  - split.
    + apply Forall_cons. split; [apply lookup_insert_eq|]. apply Forall_cons. split; [|constructor].
      unfold ex_rfs. rewrite lookup_insert_ne; [apply lookup_insert_eq|]. by intros E%dir_inj.
    + intros i t d Hi Ht Hl. assert (ex_rfs !! (HILOG_FILE_DIR +:+ short ex_c ex_b0 ".gz" i t) <> None) as Hn.
      { change (HILOG_FILE_DIR +:+ short ex_c ex_b0 ".gz" i t) with (path ex_c ex_b0 ".gz" i t). by rewrite Hl. }
      apply ex_rfs_lookup in Hn. unfold path. apply elem_of_cons in Hn as [E|Hn]; [by unfold short in E; rewrite !str_cons_app in E|].
      apply elem_of_cons in Hn as [->|Hn]; [exists (1, "20250806-165304", "b"); split; [by right; left | done]|].
      apply elem_of_cons in Hn as [->|Hn]; [|by apply not_elem_of_nil in Hn].
      exists (0, "20250806-165104", "a"). split; [by left | done].
Qed.

Lemma ex_env : env_ok ex_c ex_b0 ".gz" ex_fenv ex_rfs.
Proof.
  split; [done|]. split; [by apply ex_no_h|]. split.
  - intros n. symmetry. apply ex_rfs_lookup.
  - intros n i Hn Hi Hc. apply elem_of_cons in Hn as [->|Hn].
    { unfold ex_b0, ex_c in Hc. rewrite !str_cons_app in Hc. rewrite contains_no_first in Hc; [done|]. by apply ex_no_h. }
    apply elem_of_cons in Hn as [->|Hn].
    { exists 1, "20250806-165304". split; [done|]. split; [by apply ex_no_h | done]. }
    apply elem_of_cons in Hn as [->|Hn]; [|by apply not_elem_of_nil in Hn].
    exists 0, "20250806-165104". split; [done|]. split; [by apply ex_no_h | done].
Qed.

Lemma rotation_keeps_latest_witness :
  exists r' fs' w', foldl (rot_step true) (ex_rot, ex_rfs) [RInput ex_fenv "c"] = (r', fs') /\
    f_data <$> w' = ["b"; "c"] /\ exists lost, "ab" +:+ "c" = lost +:+ win_data w'.
Proof.
  assert (rot_envs true ex_c ex_b0 ".gz" (ex_rot, ex_rfs) [RInput ex_fenv "c"]) as He.
  { split; [|done]. split; [done | exact ex_env]. }
  assert (1 <= 2 <= MAX_LOG_FILE_NUM) as Hm by done.
  assert (m_currentLogFileIdx ex_rot + Z.of_nat (length [RInput ex_fenv "c"]) < 2 ^ 31) as Hi by done.
  destruct (rotation_keeps_latest true ex_c ex_b0 ".gz" 2 eq_refl ltac:(done) (ex_no_h ex_b0 eq_refl)
    (ex_no_h ".gz" eq_refl) Hm ex_rot ex_rfs ex_w [RInput ex_fenv "c"] ex_win He Hi)
    as (r' & fs' & w' & E & _ & _ & (lost & Hl & _) & Ht & _).
  exists r', fs', w'. split; [exact E|]. split; [apply Ht; by split | exists lost; exact Hl].
Defined.
