(* ===== verification/Recovery.v ===== *)
(** * Recovery of persist jobs

    Every job keeps its description, with the index of its current file and a
    checksum, in a file of its own (LogPersisterRotator::WriteRecoveryInfo);
    after a restart of the daemon the files are read back (RestorePersistJobs
    of service_controller.cpp). *)

From S2P Require Import Prelude Common Utils LogData LogPrint Rotator.
From Stdlib Require Import Ascii.

(** ** Reading the packed structures *)

Definition read_u (n : nat) (s : string) : Z * string := (le_val n s, str_drop n s).
Definition read_bool (s : string) : bool * string := (negb (le_val 1 s =? 0), str_drop 1 s).

(** A character array is used as a C string. *)
Definition read_chars (n : Z) (s : string) : string * string :=
  (cstr (str_take (Z.to_nat n) s), str_drop (Z.to_nat n) s).

Fixpoint read_list {A} (rd : string -> A * string) (k : nat) (s : string) : list A * string :=
  match k with
  | O => ([], s)
  | S k => let '(a, s) := rd s in let '(l, s) := read_list rd k s in (a :: l, s)
  end.

Definition filter_of_bytes (s : string) : LogFilter :=
  let '(types, s) := read_u 2 s in
  let '(levels, s) := read_u 2 s in
  let '(blackDomain, s) := read_bool s in
  let '(domainCount, s) := read_u 1 s in
  let '(domains, s) := read_list (read_u 4) (Z.to_nat MAX_DOMAINS) s in
  let '(blackTag, s) := read_bool s in
  let '(tagCount, s) := read_u 1 s in
  let '(tags, s) := read_list (read_chars MAX_TAG_LEN) (Z.to_nat MAX_TAGS) s in
  let '(blackPid, s) := read_bool s in
  let '(pidCount, s) := read_u 4 s in
  let '(pids, s) := read_list (read_u 4) (Z.to_nat MAX_PIDS) s in
  let '(regex, _) := read_chars MAX_REGEX_STR_LEN s in
  mkLogFilter types levels blackDomain domainCount domains blackTag tagCount tags blackPid (i32 pidCount) pids regex.

Definition info_of_bytes (s : string) : PersistRecoveryInfo :=
  let '(index, s) := read_u 4 s in
  let '(compressAlg, s) := read_u 2 s in
  let '(filePath, s) := read_chars FILE_PATH_MAX_LEN s in
  let '(fileSize, s) := read_u 4 s in
  let '(fileNum, s) := read_u 4 s in
  let '(jobId, s) := read_u 4 s in
  mkRecoveryInfo index (mkStartMsg compressAlg filePath fileSize fileNum jobId (filter_of_bytes s)).

(** ** Restoring *)

Definition sizeof_PersistRecoveryInfo : Z := 619.
Definition INFO_SUFFIX : Z := 5.

(** The name of a recovery file. *)
Definition is_info_file (pPath : string) : bool :=
  (INFO_SUFFIX <=? slen pPath) && bool_decide (str_drop (Z.to_nat (slen pPath - INFO_SUFFIX)) pPath = ".info") &&
  negb (bool_decide (pPath = "hilog.info")).

(** The description in a recovery file: [fread] into a zeroed structure, the
    checksum behind it. *)
Definition read_info (char_signed : bool) (file : string) : option PersistRecoveryInfo :=
  let n := Z.to_nat sizeof_PersistRecoveryInfo in
  let bytes := char_array sizeof_PersistRecoveryInfo (str_take n file) in
  let hashSum := le_val 8 (str_drop n file) in
  if GenerateHash char_signed bytes =? hashSum then Some (info_of_bytes bytes) else None.

(** The jobs that [RestorePersistJobs] starts, in the order of the directory
    listing, and whether each belongs to the kernel buffer. *)
Definition restored_jobs (char_signed : bool) (entries : list string) (fs : filesystem)
    : list (PersistRecoveryInfo * bool) :=
  omap (fun name =>
    if is_info_file name then
      file ← fs !! (HILOG_FILE_DIR +:+ name);
      info ← read_info char_signed file;
      Some (info, f_types (sm_filter (ri_msg info)) =? Z.shiftl 1 LOG_KMSG)
    else None) entries.

(** * Lemmas and properties *)

(** A C string that fits into an array of [n] characters. *)
Definition str_wf (n : Z) (s : string) : Prop := no_char NUL s /\ slen s < n.

Record info_wf (i : PersistRecoveryInfo) : Prop := {
  iw_index : 0 <= ri_index i < 2 ^ 32;
  iw_alg : 0 <= sm_compressAlg (ri_msg i) < 2 ^ 16;
  iw_path : str_wf FILE_PATH_MAX_LEN (sm_filePath (ri_msg i));
  iw_size : 0 <= sm_fileSize (ri_msg i) < 2 ^ 32;
  iw_num : 0 <= sm_fileNum (ri_msg i) < 2 ^ 32;
  iw_job : 0 <= sm_jobId (ri_msg i) < 2 ^ 32;
  iw_filter : let f := sm_filter (ri_msg i) in
    0 <= f_types f < 2 ^ 16 /\ 0 <= f_levels f < 2 ^ 16 /\ 0 <= f_domainCount f < 2 ^ 8 /\
    0 <= f_tagCount f < 2 ^ 8 /\ - 2 ^ 31 <= f_pidCount f < 2 ^ 31 /\
    length (f_domains f) = 5%nat /\ Forall (fun x => 0 <= x < 2 ^ 32) (f_domains f) /\
    length (f_tags f) = 10%nat /\ Forall (str_wf MAX_TAG_LEN) (f_tags f) /\
    length (f_pids f) = 5%nat /\ Forall (fun x => 0 <= x < 2 ^ 32) (f_pids f) /\
    str_wf MAX_REGEX_STR_LEN (f_regex f);
}.

Lemma read_u_app n z s : 0 <= z < 256 ^ Z.of_nat n -> read_u n (le_bytes n z +:+ s) = (z, s).
Proof. intros Hz. unfold read_u. by rewrite le_val_bytes_app, str_drop_le_bytes. Qed.

Lemma read_bool_app b s : read_bool (bool_byte b +:+ s) = (b, s).
Proof.
  unfold read_bool, bool_byte. rewrite str_drop_le_bytes, le_val_bytes_app by (destruct b; simpl; lia). by destruct b.
Qed.


Lemma cstr_fill s n : no_char NUL s -> cstr (s +:+ fill n NUL) = s.
Proof.
  intros Hs. destruct n as [|n]; [|by apply cstr_app_nul]. simpl. rewrite str_app_nil_r. by apply cstr_id.
Qed.

Lemma slen_char_array n s : slen s <= n -> slen (char_array n s) = n.
Proof. intros Hs. unfold char_array. rewrite slen_app, slen_fill. pose proof (slen_nonneg s). lia. Qed.

Lemma read_chars_app n x s : str_wf n x -> read_chars n (char_array n x +:+ s) = (x, s).
Proof.
  intros [Hx Hn]. pose proof (slen_char_array n x ltac:(lia)) as Hl. unfold read_chars.
  replace (Z.to_nat n) with (String.length (char_array n x)) by (rewrite <- slen_Z_to_nat, Hl; done).
  rewrite str_take_app_length, str_drop_app_length. unfold char_array. by rewrite cstr_fill.
Qed.

Lemma read_list_app {A} (rd : string -> A * string) (enc : A -> string) (P : A -> Prop) l s :
  (forall a s, P a -> rd (enc a +:+ s) = (a, s)) -> Forall P l ->
  read_list rd (length l) (sconcat (enc <$> l) +:+ s) = (l, s).
Proof.
  intros Hrd Hl. induction Hl as [|a l Ha _ IH]; [done|]. cbn [length read_list]. rewrite fmap_cons.
  change (sconcat (enc a :: (enc <$> l))) with (enc a +:+ sconcat (enc <$> l)).
  rewrite <- str_app_assoc, Hrd by done. by rewrite IH.
Qed.

Lemma i32_u32 z : - 2 ^ 31 <= z < 2 ^ 31 -> i32 (u32 z) = z.
Proof.
  intros Hz. unfold wraps, wrapu. rewrite Z.add_mod_idemp_l by lia. fold (wraps 32 z). apply wraps_small; lia.
Qed.

Lemma filter_roundtrip f s :
  0 <= f_types f < 2 ^ 16 /\ 0 <= f_levels f < 2 ^ 16 /\ 0 <= f_domainCount f < 2 ^ 8 /\
  0 <= f_tagCount f < 2 ^ 8 /\ - 2 ^ 31 <= f_pidCount f < 2 ^ 31 /\
  length (f_domains f) = 5%nat /\ Forall (fun x => 0 <= x < 2 ^ 32) (f_domains f) /\
  length (f_tags f) = 10%nat /\ Forall (str_wf MAX_TAG_LEN) (f_tags f) /\
  length (f_pids f) = 5%nat /\ Forall (fun x => 0 <= x < 2 ^ 32) (f_pids f) /\
  str_wf MAX_REGEX_STR_LEN (f_regex f) ->
  filter_of_bytes (filter_bytes f +:+ s) = f.
Proof.
  intros (H1 & H2 & H3 & H4 & H5 & L1 & F1 & L2 & F2 & L3 & F3 & H6). pose proof (wrapu_range 32 (f_pidCount f) ltac:(lia)).
  unfold filter_of_bytes, filter_bytes. rewrite <- !str_app_assoc.
  rewrite !read_u_app by (simpl; lia). rewrite read_bool_app, read_u_app by (simpl; lia).
  change (Z.to_nat MAX_DOMAINS) with 5%nat. rewrite <- L1.
  rewrite (read_list_app (read_u 4) (le_bytes 4) _ _ _ (fun a s => read_u_app 4 a s) F1).
  rewrite read_bool_app, read_u_app by (simpl; lia).
  change (Z.to_nat MAX_TAGS) with 10%nat. rewrite <- L2.
  rewrite (read_list_app (read_chars MAX_TAG_LEN) (char_array MAX_TAG_LEN) _ _ _ (read_chars_app MAX_TAG_LEN) F2).
  rewrite read_bool_app, read_u_app by (simpl; lia).
  change (Z.to_nat MAX_PIDS) with 5%nat. rewrite <- L3.
  rewrite (read_list_app (read_u 4) (le_bytes 4) _ _ _ (fun a s => read_u_app 4 a s) F3).
  rewrite read_chars_app by done. rewrite i32_u32 by done. by destruct f.
Qed.

Lemma info_roundtrip i s : info_wf i -> info_of_bytes (info_bytes i +:+ s) = i.
Proof.
  intros []. unfold info_of_bytes, info_bytes, msg_bytes. rewrite <- !str_app_assoc.
  rewrite !read_u_app by (simpl; lia). rewrite read_chars_app by done. rewrite !read_u_app by (simpl; lia).
  rewrite filter_roundtrip by done. by destruct i as [? []].
Qed.

Lemma slen_sconcat {A} (enc : A -> string) (P : A -> Prop) n l :
  (forall a, P a -> slen (enc a) = n) -> Forall P l -> slen (sconcat (enc <$> l)) = n * Z.of_nat (length l).
Proof.
  intros Hn Hl. induction Hl as [|a l Ha _ IH]; [change (0 = n * 0); lia|].
  rewrite fmap_cons. change (sconcat (enc a :: (enc <$> l))) with (enc a +:+ sconcat (enc <$> l)).
  rewrite slen_app, IH, (Hn a Ha). simpl length. lia.
Qed.

Lemma slen_info_bytes i : info_wf i -> slen (info_bytes i) = sizeof_PersistRecoveryInfo.
Proof.
  intros [_ _ [_ Hp] _ _ _ (_ & _ & _ & _ & _ & L1 & F1 & L2 & F2 & L3 & F3 & [_ Hr])].
  unfold info_bytes, msg_bytes, filter_bytes, bool_byte. rewrite !slen_app, !slen_le_bytes.
  rewrite !slen_char_array by lia.
  rewrite (slen_sconcat (le_bytes 4) _ 4 _ (fun a _ => slen_le_bytes 4 a) F1).
  rewrite (slen_sconcat (le_bytes 4) _ 4 _ (fun a _ => slen_le_bytes 4 a) F3).
  rewrite (slen_sconcat (char_array MAX_TAG_LEN) _ MAX_TAG_LEN _ (fun a H => slen_char_array _ a (Z.lt_le_incl _ _ (proj2 H))) F2).
  rewrite L1, L2, L3. done.
Qed.

Lemma read_info_bytes cs bytes sum :
  slen bytes = sizeof_PersistRecoveryInfo ->
  read_info cs (bytes +:+ sum) = if GenerateHash cs bytes =? le_val 8 sum then Some (info_of_bytes bytes) else None.
Proof.
  intros Hb. unfold read_info. replace (Z.to_nat sizeof_PersistRecoveryInfo) with (String.length bytes)
    by (rewrite <- slen_Z_to_nat, Hb; done).
  rewrite str_take_app_length, str_drop_app_length.
  assert (char_array sizeof_PersistRecoveryInfo bytes = bytes) as ->; [|done].
  unfold char_array. rewrite Hb, Z.sub_diag. apply str_app_nil_r.
Qed.

Lemma read_info_app cs bytes h :
  slen bytes = sizeof_PersistRecoveryInfo -> 0 <= h < 2 ^ 64 ->
  read_info cs (bytes +:+ le_bytes 8 h) = if GenerateHash cs bytes =? h then Some (info_of_bytes bytes) else None.
Proof.
  intros Hb Hh. rewrite read_info_bytes by done. by rewrite <- (str_app_nil_r (le_bytes 8 h)), le_val_bytes_app by (simpl; lia).
Qed.

(** A changed byte changes the number. *)
Lemma le_val_change n p c d q : slen (p +:+ String c q) = Z.of_nat n -> c <> d -> le_val n (p +:+ String c q) <> le_val n (p +:+ String d q).
Proof.
  intros Hn Hne. revert n Hn. induction p as [|b p IH]; intros n Hn; rewrite ?str_nil_app, ?str_cons_app in *; rewrite slen_cons in Hn;
    (destruct n as [|n]; [match type of Hn with _ + slen ?t = _ => pose proof (slen_nonneg t) | slen ?t + _ = _ => pose proof (slen_nonneg t) end; lia|]);
    cbn [le_val]; intros E.
  - pose proof (byte_val_range c). pose proof (byte_val_range d). apply Hne, byte_val_inj. lia.
  - apply (IH n); lia.
Qed.

(** The byte is in one of the two parts. *)
Lemma str_app_split a b p c q :
  (a +:+ b)%string = p +:+ String c q ->
  (exists q1, a = p +:+ String c q1 /\ q = q1 +:+ b) \/ (exists p1, p = a +:+ p1 /\ b = p1 +:+ String c q).
Proof.
  revert p. induction a as [|x a IH]; intros p E; [right; exists p; by rewrite !str_nil_app in *|].
  destruct p as [|y p]; rewrite ?str_nil_app, ?str_cons_app in E; injection E as -> E.
  - left. exists a. by rewrite str_nil_app.
  - apply IH in E as [(q1 & -> & ->)|(p1 & -> & ->)]; [left; exists q1 | right; exists p1]; by rewrite ?str_cons_app.
Qed.

(** C38: what a job writes to its recovery file, whenever its index changes, is
    the description that is read back after a restart; a recovery file in
    which any one byte was changed, of the description or of the checksum, is
    not used. *)
Theorem recovery_roundtrip cs r fs :
  let i := mkRecoveryInfo (m_currentLogFileIdx r) (ri_msg (m_info r)) in
  m_infoFile r = true -> info_wf i ->
  exists file, (UpdateRotateNumber cs r fs).2 !! m_infoFilePath r = Some file /\ read_info cs file = Some i /\
    (forall p c d q, file = p +:+ String c q -> c <> d -> read_info cs (p +:+ String d q) = None).
Proof.
  intros i Hopen Hi. pose proof (slen_info_bytes i Hi) as Hl.
  assert (0 <= GenerateHash cs (info_bytes i) < 2 ^ 64) as Hh by (apply hash_loop_range; by vm_compute).
  exists (info_bytes i +:+ le_bytes 8 (GenerateHash cs (info_bytes i))). split_and!.
  - unfold UpdateRotateNumber, WriteRecoveryInfo. cbn [snd set_info m_infoFile m_infoFilePath m_info]. rewrite Hopen. apply lookup_insert_eq.
  - rewrite read_info_app, Z.eqb_refl by done. rewrite <- (str_app_nil_r (info_bytes i)). f_equal. by apply info_roundtrip.
  - intros p c d q E Hne. apply str_app_split in E as [(q1 & E & ->)|(p1 & -> & E)].
    + assert (p +:+ String d (q1 +:+ le_bytes 8 (GenerateHash cs (info_bytes i))) = (p +:+ String d q1) +:+ le_bytes 8 (GenerateHash cs (info_bytes i)))%string as ->
        by (by rewrite <- str_app_assoc, str_cons_app).
      rewrite read_info_app; [|by rewrite E, !slen_app, !slen_cons in *|done].
      destruct (Z.eqb_spec (GenerateHash cs (p +:+ String d q1)) (GenerateHash cs (info_bytes i))) as [Eh|]; [|done].
      rewrite E in Eh. by apply hash_byte_change in Eh.
    + rewrite <- str_app_assoc. rewrite read_info_bytes by done. destruct (Z.eqb_spec (GenerateHash cs (info_bytes i)) (le_val 8 (p1 +:+ String d q))) as [Eh|]; [|done].
      exfalso. apply (le_val_change 8 p1 c d q); [by rewrite <- E, slen_le_bytes | done|]. rewrite <- Eh, <- E.
      rewrite <- (str_app_nil_r (le_bytes 8 _)), le_val_bytes_app by done. done.
Qed.

Definition ex_info : PersistRecoveryInfo :=
  mkRecoveryInfo 3 (mkStartMsg 2 "/data/log/hilog/hilog" (4 * 1024 * 1024) 10 1
    (mkLogFilter 43 65535 false 1 [0xD002D00; 0; 0; 0; 0] true 1 ("noisy" :: replicate 9 "") false 0 (replicate 5 0) "")).

Lemma ex_info_wf : info_wf ex_info.
Proof.
  assert (forall n s, bool_decide (no_char NUL s) && (slen s <? n) = true -> str_wf n s) as Hs.
  { intros n s [H1%bool_decide_eq_true H2%Z.ltb_lt]%andb_true_iff. by split. }
  split; simpl; try lia; [apply Hs; by vm_compute|].
  repeat match goal with |- _ /\ _ => split end; try lia; try done; try (apply Hs; by vm_compute);
    repeat (apply Forall_cons; split; [first [lia | apply Hs; by vm_compute]|]); constructor.
Qed.

Definition ex_writer : LogPersisterRotator :=
  mkRotator 10 "/data/log/hilog/hilog" ".gz" "/data/log/hilog/hilog.003.20250806-165304.gz" 3 true 1 true
    "/data/log/hilog/.persisterInfo_1.info" ex_info false.

Lemma recovery_roundtrip_witness :
  exists file, (UpdateRotateNumber true ex_writer ∅).2 !! "/data/log/hilog/.persisterInfo_1.info" = Some file /\ read_info true file = Some ex_info.
Proof.
  destruct (recovery_roundtrip true ex_writer ∅ eq_refl ex_info_wf) as (file & Hf & Hr & _). exists file. split; [exact Hf | exact Hr].
Defined.
