(* ===== verification/Persister.v ===== *)
(** * Persist jobs

    LogPersister (log_persister.cpp): a job reads the lines its filter accepts
    from the log buffer, gathers their text in a memory-mapped buffer,
    compresses it when it is full and hands the result to the rotator; the
    registry of running jobs. *)

From S2P Require Import Prelude Common TimeStamp Utils LogData LogStats LogBuffer LogPrint Compress Rotator.
From Stdlib Require Import Ascii.

Record LogPersister := mkPersister {
  p_startMsg : LogPersistStartMsg;
  p_mapped : LogPersisterBuffer;           (* *m_mappedPlainLogFile *)
  p_plainLogFilePath : string;
  p_plainLogSize : Z;                      (* uint32_t *)
  p_compressBuffer : LogPersisterBuffer;
  p_rotator : LogPersisterRotator;
  p_bufReader : Z;
  p_kmsg : bool;                           (* m_hilogBuffer is the kernel buffer *)
  p_thread : bool;                         (* m_persisterThread runs *)
  p_inited : bool;
}.

Definition set_mapped (p : LogPersister) (b : LogPersisterBuffer) : LogPersister :=
  mkPersister (p_startMsg p) b (p_plainLogFilePath p) (p_plainLogSize p) (p_compressBuffer p) (p_rotator p)
    (p_bufReader p) (p_kmsg p) (p_thread p) (p_inited p).
Definition set_compressed (p : LogPersister) (b : LogPersisterBuffer) : LogPersister :=
  mkPersister (p_startMsg p) (p_mapped p) (p_plainLogFilePath p) (p_plainLogSize p) b (p_rotator p)
    (p_bufReader p) (p_kmsg p) (p_thread p) (p_inited p).
Definition set_output (p : LogPersister) (size : Z) (r : LogPersisterRotator) : LogPersister :=
  mkPersister (p_startMsg p) (p_mapped p) (p_plainLogFilePath p) size (p_compressBuffer p) r
    (p_bufReader p) (p_kmsg p) (p_thread p) (p_inited p).

(** ** Writing *)

(** Whether the line is dealt with.  A line the copy fails for is lost (the
    bytes behind the offset, which the failing copy clears, are not in use). *)
Definition WriteUncompressedLogs (p : LogPersister) (logLine : string) : LogPersister * bool :=
  let size := u16 (slen logLine) in
  let remainingSpace := u32 (MAX_PERSISTER_BUFFER_SIZE - offset (p_mapped p)) in
  if remainingSpace <? size then (p, false)
  else if negb (memcpy_s remainingSpace (slen logLine)) then (p, true)
  else
    (set_mapped p (mkLPB (overwrite (content (p_mapped p)) (offset (p_mapped p)) logLine)
                         (u32 (offset (p_mapped p) + slen logLine))), true).

Section persister.
Context (localtime_r : Z -> option tm) (char_signed : bool) (comp : compressor).

Definition WriteCompressedLogs (e : file_env) (p : LogPersister) (fs : filesystem) : LogPersister * filesystem :=
  if offset (p_mapped p) =? 0 then (p, fs)
  else
    let '(rot, fs, _) := Input char_signed e (p_rotator p) (plain (p_compressBuffer p)) fs in
    let plainLogSize := u32 (p_plainLogSize p + offset (p_mapped p)) in
    let '(plainLogSize, rot) :=
      if sm_fileSize (p_startMsg p) <=? plainLogSize then (0, FinishInput rot) else (plainLogSize, rot) in
    let p := set_output p plainLogSize rot in
    let p := set_compressed p (mkLPB (content (p_compressBuffer p)) 0) in
    (set_mapped p (mkLPB (content (p_mapped p)) 0), fs).

Definition content_of (d : HilogData) : LogContent :=
  mkLogContent (d_level d) (d_type d) (d_pid d) (d_tid d) (d_domain d) (d_tv_sec d) (d_tv_nsec d) (d_mono_sec d)
    (d_tag d) (d_content d).
Definition persist_format : LogFormat := mkLogFormat false FT_TIME FA_MSEC false false false.

Definition WriteLogData (e : file_env) (p : LogPersister) (fs : filesystem) (logData : HilogData)
    : option (LogPersister * filesystem * Z) :=
  formatedLogStr ← LogPrintWithFormat localtime_r (content_of logData) persist_format;
  let '(p, done) := WriteUncompressedLogs p formatedLogStr in
  if done then Some (p, fs, 0)
  else
    '(compressBuffer, compressionResult) ← comp (p_mapped p) (p_compressBuffer p);
    let p := set_compressed p compressBuffer in
    if negb (compressionResult =? 0) then Some (p, fs, RET_FAIL)
    else
      let '(p, fs) := WriteCompressedLogs e p fs in
      let '(p, done) := WriteUncompressedLogs p formatedLogStr in
      Some (p, fs, if done then 0 else RET_FAIL).

(** The compression whose result is ignored: after five seconds without a
    line, and when the thread ends. *)
Definition compress_and_write (e : file_env) (p : LogPersister) (fs : filesystem) : option (LogPersister * filesystem) :=
  '(compressBuffer, _) ← comp (p_mapped p) (p_compressBuffer p);
  Some (WriteCompressedLogs e (set_compressed p compressBuffer) fs).

Section receive.
Context (regex_search : string -> string -> option bool).

(** One turn of [ReceiveLogLoop] and [Refresh]: [timeout] tells how the wait
    ends when there is no line.  [None]: an exception or an access outside of
    an array. *)
Definition receive_turn (e : file_env) (c : clocks) (timeout : bool) (p : LogPersister) (b : HilogBuffer)
    (fs : filesystem) : option (LogPersister * HilogBuffer * filesystem) :=
  let '(b, res) := Query regex_search b c (sm_filter (p_startMsg p)) (p_bufReader p) 0 in
  match res with
  | QThrow => None
  | QLine data => '(p, fs, _) ← WriteLogData e p fs data; Some (p, b, fs)
  | QNone =>
      if timeout then '(p, fs) ← compress_and_write e p fs; Some (p, b, fs)
      else Some (p, b, fs)
  end.

(** The end of [ReceiveLogLoop]. *)
Definition receive_end (e : file_env) (p : LogPersister) (fs : filesystem) : option (LogPersister * filesystem) :=
  '(p, fs) ← compress_and_write e p fs;
  Some (set_output p (p_plainLogSize p) (FinishInput (p_rotator p)), fs).
End receive.
End persister.

(** ** Starting and ending a job *)

Section jobs.
Context (localtime_r : Z -> option tm) (char_signed : bool).
Context {ZL : Zlib}.

Definition InitCompression (compressAlg : Z) : option compressor :=
  if compressAlg =? COMPRESS_TYPE_NONE then Some NoneCompress
  else if compressAlg =? COMPRESS_TYPE_ZLIB then Some ZlibCompress
  else if compressAlg =? COMPRESS_TYPE_ZSTD then Some ZstdCompress
  else None.

Definition file_suffix (compressAlg : Z) : string :=
  if compressAlg =? COMPRESS_TYPE_ZSTD then ".zst"
  else if compressAlg =? COMPRESS_TYPE_ZLIB then ".gz"
  else "".

(** The registry of running jobs. *)
Definition CheckRegistered (jobs : list LogPersister) (id : Z) (logPath : string) : bool :=
  existsb (fun p => (sm_jobId (p_startMsg p) =? id) || bool_decide (sm_filePath (p_startMsg p) = logPath)) jobs.

Definition GetLogPersisterById (jobs : list LogPersister) (id : Z) : option LogPersister :=
  List.find (fun p => sm_jobId (p_startMsg p) =? id) jobs.

Definition RegisterLogPersister (jobs : list LogPersister) (p : LogPersister) : list LogPersister := jobs ++ [p].

Fixpoint DeregisterLogPersister (jobs : list LogPersister) (p : LogPersister) : list LogPersister :=
  match jobs with
  | [] => []
  | q :: jobs =>
      if sm_jobId (p_startMsg q) =? sm_jobId (p_startMsg p) then jobs else q :: DeregisterLogPersister jobs p
  end.

(** What the system contributes to [Init]. *)
Record init_env := mkInitEnv {
  ie_parent : bool;                        (* the directory exists *)
  ie_info_open : bool;                     (* the recovery file can be created *)
  ie_plain : option LogPersisterBuffer;    (* the auxiliary file when opened, [None] when it cannot be *)
  ie_mmap : bool;
  ie_file : file_env;
}.

Definition zero_lpb : LogPersisterBuffer := mkLPB (fill (Z.to_nat MAX_PERSISTER_BUFFER_SIZE) NUL) 0.

(** [PrepareUncompressedFile]; a new file is filled with zeros. *)
Definition PrepareUncompressedFile (ie : init_env) (comp : compressor) (parentPath : string) (restore : bool)
    (p : LogPersister) (fs : filesystem) : option (LogPersister * filesystem * Z) :=
  let path := parentPath +:+ "/" +:+ "." +:+ AUXILLARY_PERSISTER_PREFIX +:+ Uint2DecStr (sm_jobId (p_startMsg p)) in
  let p := mkPersister (p_startMsg p) (p_mapped p) path (p_plainLogSize p) (p_compressBuffer p) (p_rotator p)
             (p_bufReader p) (p_kmsg p) (p_thread p) (p_inited p) in
  match ie_plain ie with
  | None => Some (p, fs, ERR_LOG_PERSIST_FILE_OPEN_FAIL)
  | Some file =>
      if negb (ie_mmap ie) then Some (p, fs, RET_FAIL)
      else
        let p := set_mapped p (if restore then file else zero_lpb) in
        if restore then
          '(compressBuffer, compressionResult) ← comp (p_mapped p) (p_compressBuffer p);
          let p := set_compressed p compressBuffer in
          if negb (compressionResult =? 0) then Some (p, fs, RET_FAIL)
          else let '(p, fs) := WriteCompressedLogs char_signed (ie_file ie) p fs in Some (p, fs, 0)
        else Some (set_mapped p (mkLPB (content (p_mapped p)) 0), fs, 0)
  end.

(** [CreateLogPersister] and [Init]: the registry, the file system and the
    result; the job when it is registered. *)
Definition InitPersister (ie : init_env) (bufReader : Z) (kmsg : bool) (info : PersistRecoveryInfo) (restore : bool)
    (jobs : list LogPersister) (fs : filesystem) : option (list LogPersister * filesystem * Z) :=
  let msg := ri_msg info in
  let path := sm_filePath msg in
  match parent_dir path with
  | None => Some (jobs, fs, ERR_LOG_PERSIST_FILE_PATH_INVALID)
  | Some parentPath =>
      if negb (ie_parent ie) then Some (jobs, fs, ERR_LOG_PERSIST_FILE_PATH_INVALID)
      else if CheckRegistered jobs (sm_jobId msg) path then Some (jobs, fs, ERR_LOG_PERSIST_TASK_EXISTED)
      else
        match InitCompression (sm_compressAlg msg) with
        | None => Some (jobs, fs, ERR_LOG_PERSIST_COMPRESS_INIT_FAIL)
        | Some comp =>
            let rot := new_rotator path (sm_jobId msg) (sm_fileNum msg) (file_suffix (sm_compressAlg msg)) in
            let '(rot, fs, ret) := InitRotator char_signed (ie_info_open ie) rot info restore fs in
            if negb (ret =? RET_SUCCESS) then Some (jobs, delete_rotator rot fs, ret)
            else
              let p := mkPersister msg zero_lpb "" 0 zero_lpb rot bufReader kmsg false false in
              '(p, fs, result) ← PrepareUncompressedFile ie comp parentPath restore p fs;
              if negb (result =? 0) then Some (jobs, delete_rotator (p_rotator p) fs, result)
              else
                let p := mkPersister (p_startMsg p) (p_mapped p) (p_plainLogFilePath p) (p_plainLogSize p)
                           (p_compressBuffer p) (p_rotator p) (p_bufReader p) (p_kmsg p) (p_thread p) true in
                Some (RegisterLogPersister jobs p, fs, 0)
        end
  end.

(** [Start] of the job just registered. *)
Definition set_thread (p : LogPersister) (thread inited : bool) : LogPersister :=
  mkPersister (p_startMsg p) (p_mapped p) (p_plainLogFilePath p) (p_plainLogSize p) (p_compressBuffer p)
    (p_rotator p) (p_bufReader p) (p_kmsg p) thread inited.

Definition update_job (id : Z) (f : LogPersister -> LogPersister) (jobs : list LogPersister) : list LogPersister :=
  (fun p => if sm_jobId (p_startMsg p) =? id then f p else p) <$> jobs.

Definition StartPersister (jobs : list LogPersister) (id : Z) : list LogPersister :=
  update_job id (fun p => if p_inited p then set_thread p true (p_inited p) else p) jobs.

(** [StartPersistStoreJob]. *)
Definition StartPersistStoreJob (ie : init_env) (bufReader : Z) (kmsg : bool) (info : PersistRecoveryInfo)
    (restore : bool) (jobs : list LogPersister) (fs : filesystem) : option (list LogPersister * filesystem * Z) :=
  '(jobs, fs, ret) ← InitPersister ie bufReader kmsg info restore jobs fs;
  if negb (ret =? RET_SUCCESS) then Some (jobs, fs, ret)
  else Some (StartPersister jobs (sm_jobId (ri_msg info)), fs, RET_SUCCESS).

(** [Stop] joins the thread, which writes what is left. *)
Definition StopPersister (e : file_env) (p : LogPersister) (fs : filesystem) : option (LogPersister * filesystem) :=
  if p_thread p then
    comp ← InitCompression (sm_compressAlg (p_startMsg p));
    '(p, fs) ← receive_end char_signed comp e p fs;
    Some (set_thread p false (p_inited p), fs)
  else Some (p, fs).

(** [Deinit], and the destruction of the job once it is not registered. *)
Definition Deinit (e : file_env) (p : LogPersister) (jobs : list LogPersister) (fs : filesystem)
    : option (list LogPersister * filesystem) :=
  if p_inited p then
    '(p, fs) ← StopPersister e p fs;
    Some (DeregisterLogPersister jobs p, delete_rotator (p_rotator p) (delete (p_plainLogFilePath p) fs))
  else Some (jobs, fs).

Definition Kill (e : file_env) (jobs : list LogPersister) (b : HilogBuffer) (fs : filesystem) (id : Z)
    : option (list LogPersister * HilogBuffer * filesystem * Z) :=
  match GetLogPersisterById jobs id with
  | Some p => '(jobs, fs) ← Deinit e p jobs fs; Some (jobs, RemoveBufReader b (p_bufReader p), fs, 0)
  | None => Some (jobs, b, fs, ERR_LOG_PERSIST_JOBID_FAIL)
  end.

Definition Refresh (regex_search : string -> string -> option bool) (e : file_env) (c : clocks) (timeout : bool)
    (jobs : list LogPersister) (b : HilogBuffer) (fs : filesystem) (id : Z)
    : option (list LogPersister * HilogBuffer * filesystem * Z) :=
  match GetLogPersisterById jobs id with
  | Some p =>
      comp ← InitCompression (sm_compressAlg (p_startMsg p));
      '(p, b, fs) ← receive_turn localtime_r char_signed comp regex_search e c timeout p b fs;
      Some (update_job id (fun _ => p) jobs, b, fs, 0)
  | None => Some (jobs, b, fs, ERR_LOG_PERSIST_JOBID_FAIL)
  end.

(** "^hilog.*gz$": the pattern of [Clear]. *)
Definition clear_pattern (name : string) : bool :=
  let rest := str_drop 5 name in
  let n := slen rest in
  is_prefix "hilog" name && (2 <=? n) && bool_decide (str_drop (Z.to_nat (n - 2)) rest = "gz") &&
  negb (str_mem LF rest) && negb (str_mem "013"%char rest).

Definition Clear (entries : list string) (fs : filesystem) : filesystem :=
  foldl (fun fs name => if clear_pattern name then delete (HILOG_FILE_DIR +:+ name) fs else fs) fs entries.

(** What a request about the jobs gets for one of them. *)
Record LogPersistQueryResult := mkQueryResult {
  q_jobId : Z; q_logType : Z; q_compressAlg : Z; q_filePath : string; q_fileSize : Z; q_fileNum : Z;
}.

Definition FillInfo (p : LogPersister) : LogPersistQueryResult :=
  let m := p_startMsg p in
  mkQueryResult (sm_jobId m) (f_types (sm_filter m)) (sm_compressAlg m) (sm_filePath m) (sm_fileSize m) (sm_fileNum m).

Definition QueryJobs (jobs : list LogPersister) : list LogPersistQueryResult := FillInfo <$> jobs.
End jobs.

(** * Lemmas and properties *)

(** ** The way of a line into the files *)

Definition pst_ok (p : LogPersister) : Prop := lpb_ok (p_mapped p) /\ lpb_ok (p_compressBuffer p).

Lemma lpb_reset b : lpb_ok b -> lpb_ok (mkLPB (content b) 0).
Proof. intros [Hc _]. split; [done|]. unfold MAX_PERSISTER_BUFFER_SIZE. simpl. lia. Qed.

Lemma plain_reset b : plain (mkLPB (content b) 0) = "".
Proof. unfold plain. simpl. by destruct (content b). Qed.

(** Appending to the buffer in use. *)
Lemma overwrite_plain b data :
  lpb_ok b -> offset b + slen data <= MAX_PERSISTER_BUFFER_SIZE ->
  let b' := mkLPB (overwrite (content b) (offset b) data) (u32 (offset b + slen data)) in
  lpb_ok b' /\ plain b' = plain b +:+ data.
Proof.
  intros Hb Hle b'. pose proof (append_to_ok b data Hb) as Ha. unfold append_to in Ha. pose proof Hb as [Hc Ho].
  destruct (memcpy_s _ _) eqn:E.
  - fold b' in Ha. destruct Ha as [Hok [[_ Hp]|[? _]]]; [done|lia].
  - unfold memcpy_s in E. pose proof (slen_nonneg data).
    assert (data = "" /\ offset b = MAX_PERSISTER_BUFFER_SIZE) as [-> Hm].
    { split; [apply slen_zero|]; lia. }
    assert (b' = b) as ->; [|split; [done | by rewrite str_app_nil_r]].
    unfold b'. rewrite Hm. unfold overwrite. change (slen "") with 0. rewrite Z.add_0_r, str_nil_app, str_take_drop.
    destruct b as [cb ob]. cbn [offset content] in *. by rewrite Hm.
Qed.

Lemma WriteUncompressedLogs_ok p line :
  lpb_ok (p_mapped p) -> slen line < 2 ^ 16 ->
  exists p' ok, WriteUncompressedLogs p line = (p', ok) /\
    if ok then
      exists b', p' = set_mapped p b' /\ lpb_ok b' /\ plain b' = plain (p_mapped p) +:+ line
    else p' = p /\ MAX_PERSISTER_BUFFER_SIZE - offset (p_mapped p) < slen line.
Proof.
  intros Hb Hl. unfold WriteUncompressedLogs. pose proof Hb as [Hc Ho]. pose proof (slen_nonneg line).
  unfold MAX_PERSISTER_BUFFER_SIZE in *. rewrite !(wrapu_small 16), (wrapu_small 32 (64 * 1024 - _)) by lia.
  destruct (Z.ltb_spec (64 * 1024 - offset (p_mapped p)) (slen line)); [by exists p, false|].
  destruct (memcpy_s _ _) eqn:E; cbn [negb].
  - match goal with |- exists p' ok, (set_mapped p ?b, true) = _ /\ _ => exists (set_mapped p b), true; split; [done|]; exists b end.
    split; [done|]. apply overwrite_plain; [done|].
    unfold MAX_PERSISTER_BUFFER_SIZE. lia.
  - unfold memcpy_s in E. assert (line = "") as -> by (apply slen_zero; lia).
    exists p, true. split; [done|]. exists (p_mapped p). split; [by destruct p|]. split; [done|]. by rewrite str_app_nil_r.
Qed.

Section stream.
Context (localtime_r : Z -> option tm) (char_signed : bool) (comp : compressor) (decode : string -> option string).
Context `{!Compressor decode comp}.

(** What [WriteCompressedLogs] asks of the rotator. *)
Definition compressed_trace (e : file_env) (p : LogPersister) : list rot_event :=
  if offset (p_mapped p) =? 0 then []
  else RInput e (plain (p_compressBuffer p)) ::
       (if sm_fileSize (p_startMsg p) <=? u32 (p_plainLogSize p + offset (p_mapped p)) then [RFinish] else []).

Lemma WriteCompressedLogs_ok e p fs :
  pst_ok p ->
  let '(p', fs') := WriteCompressedLogs char_signed e p fs in
  (p_rotator p', fs') = foldl (rot_step char_signed) (p_rotator p, fs) (compressed_trace e p) /\
  pst_ok p' /\ p_startMsg p' = p_startMsg p /\ plain (p_mapped p') = "" /\
  rot_stream (compressed_trace e p) +:+ plain (p_compressBuffer p') = plain (p_compressBuffer p).
Proof.
  intros [Hm Hc]. unfold WriteCompressedLogs, compressed_trace.
  destruct (Z.eqb_spec (offset (p_mapped p)) 0) as [E0|E0].
  - split; [done|]. split; [done|]. split; [done|]. split; [|done]. unfold plain. rewrite E0. by destruct (content _).
  - cbn [foldl rot_step fst snd].
    destruct (Input char_signed e (p_rotator p) (plain (p_compressBuffer p)) fs) as [[rot fs1] r].
    set (fin := sm_fileSize _ <=? _).
    assert (rot_stream (RInput e (plain (p_compressBuffer p)) :: (if fin then [RFinish] else [])) =
      plain (p_compressBuffer p)) as Hs.
    { destruct fin; unfold rot_stream; simpl; unfold sconcat; simpl; by rewrite ?str_app_nil_r. }
    destruct fin; cbn [foldl rot_step fst snd]; (split; [done|]); (split; [split; by apply lpb_reset|]);
      (split; [done|]); (split; [apply plain_reset|]); rewrite Hs;
      cbn [set_mapped set_compressed p_compressBuffer]; by rewrite plain_reset, str_app_nil_r.
Qed.



Inductive pst_event := PLine (e : file_env) (d : HilogData) | PIdle (e : file_env).

(** One step of the persister's thread, with what it asks of the rotator and
    whether the compression, if there is one, succeeds. *)
Definition pst_step (p : LogPersister) (fs : filesystem) (ev : pst_event)
    : option (LogPersister * filesystem * list rot_event * bool) :=
  match ev with
  | PLine e d =>
      '(p', fs', _) ← WriteLogData localtime_r char_signed comp e p fs d;
      l ← LogPrintWithFormat localtime_r (content_of d) persist_format;
      if (WriteUncompressedLogs p l).2 then Some (p', fs', [], true)
      else
        '(cb, ret) ← comp (p_mapped p) (p_compressBuffer p);
        Some (p', fs', if ret =? 0 then compressed_trace e (set_compressed p cb) else [], ret =? 0)
  | PIdle e =>
      '(p', fs') ← compress_and_write char_signed comp e p fs;
      '(cb, ret) ← comp (p_mapped p) (p_compressBuffer p);
      Some (p', fs', compressed_trace e (set_compressed p cb), ret =? 0)
  end.

Definition pst_text (ev : pst_event) : string :=
  match ev with
  | PLine _ d => default "" (LogPrintWithFormat localtime_r (content_of d) persist_format)
  | PIdle _ => ""
  end.

(** The printed line fits into the buffer. *)
Definition pst_fits (ev : pst_event) : Prop :=
  match ev with
  | PLine _ d => LogPrintWithFormat localtime_r (content_of d) persist_format <> None /\ slen (pst_text ev) < 2 ^ 16
  | PIdle _ => True
  end.



Fixpoint pst_run (p : LogPersister) (fs : filesystem) (evs : list pst_event)
    : option (LogPersister * filesystem * list rot_event * bool) :=
  match evs with
  | [] => Some (p, fs, [], true)
  | ev :: evs =>
      '(p, fs, tr, ok) ← pst_step p fs ev;
      '(p, fs, tr', ok') ← pst_run p fs evs;
      Some (p, fs, tr ++ tr', ok && ok')
  end.



End stream.

(** ** Idle periods *)

Section idle.
Context (char_signed : bool) (comp : compressor) (decode : string -> option string).
Context `{!Compressor decode comp}.

Fixpoint idle (n : nat) (e : file_env) (p : LogPersister) (fs : filesystem) : option (LogPersister * filesystem) :=
  match n with
  | O => Some (p, fs)
  | S n => '(p, fs) ← compress_and_write char_signed comp e p fs; idle n e p fs
  end.

Lemma idle_step e p fs :
  pst_ok p -> offset (p_mapped p) = 0 ->
  exists cb ret, comp (p_mapped p) (p_compressBuffer p) = Some (cb, ret) /\ lpb_ok cb /\
    compress_and_write char_signed comp e p fs = Some (set_compressed p cb, fs) /\
    (decode "" = None -> ret = 0 -> offset (p_compressBuffer p) < offset cb).
Proof using Compressor0.
  intros [Hm Hc] H0. destruct (compress_spec (p_mapped p) (p_compressBuffer p) Hm Hc) as (cb & ret & E & Hcb & Hcase).
  exists cb, ret. split; [done|]. split; [done|]. split.
  - unfold compress_and_write, WriteCompressedLogs. rewrite E. cbn [mbind option_bind set_compressed p_mapped].
    by rewrite H0.
  - intros Hdec ->. destruct Hcase as [[_ (u & Hp & Hd)]|[? _]]; [|lia].
    apply (f_equal slen) in Hp. rewrite slen_app, !slen_plain in Hp by done.
    assert (u <> "") as Hu by (intros ->; congruence).
    pose proof (slen_nonneg u). assert (slen u <> 0) by (intros Hz%slen_zero; done). lia.
Qed.

(** An idle job whose compressor encodes nothing by something (as gzip
    does) adds a unit to its compression buffer in every idle period without
    ever writing it, so that within 65537 periods the buffer is full and
    compression fails; and an idle period in which compression fails while
    text is waiting drops that text: the rotator gets the units of the
    earlier periods and both buffers are emptied. *)
Theorem idle_periods_lose_text e p fs :
  pst_ok p -> decode "" = None ->
  (offset (p_mapped p) = 0 ->
   exists n p1 cb, (Z.of_nat n <= MAX_PERSISTER_BUFFER_SIZE) /\ idle n e p fs = Some (p1, fs) /\
     comp (p_mapped p1) (p_compressBuffer p1) = Some (cb, -1)) /\
  (forall cb, offset (p_mapped p) <> 0 -> comp (p_mapped p) (p_compressBuffer p) = Some (cb, -1) ->
   exists p' fs', compress_and_write char_signed comp e p fs = Some (p', fs') /\
     plain (p_mapped p') = "" /\ plain (p_compressBuffer p') = "" /\
     exists fin, (p_rotator p', fs') =
       foldl (rot_step char_signed) (p_rotator p, fs) (RInput e (plain (p_compressBuffer p)) :: fin) /\
       (fin = [] \/ fin = [RFinish])).
Proof using Compressor0.
  intros Hok Hdec. split.
  - assert (forall k p, pst_ok p -> offset (p_mapped p) = 0 ->
      MAX_PERSISTER_BUFFER_SIZE - offset (p_compressBuffer p) <= Z.of_nat k ->
      exists n p1 cb, (n <= k)%nat /\ idle n e p fs = Some (p1, fs) /\
        comp (p_mapped p1) (p_compressBuffer p1) = Some (cb, -1)) as H.
    { induction k as [|k IH]; intros q Hq H0 Hk; destruct (idle_step e q fs Hq H0) as (cb & ret & E & Hcb & Ew & Hlt);
        destruct (compress_spec _ _ (proj1 Hq) (proj2 Hq)) as (cb' & ret' & E' & _ & Hcase); rewrite E in E';
        injection E' as <- <-; (destruct Hcase as [[-> _]|[-> _]]; [|exists 0%nat, q, cb; split; [lia|by split]]);
        specialize (Hlt Hdec eq_refl); destruct Hcb as [Hc1 Hc2].
      - lia.
      - destruct (IH (set_compressed q cb)) as (n & p1 & cb1 & Hn & Ei & Ec); [split; [apply Hq | by split] | done | simpl; lia|].
        exists (S n), p1, cb1. split; [lia|]. split; [cbn [idle]; rewrite Ew; exact Ei | done]. }
    intros H0. destruct Hok as [Hm Hc] eqn:Eok. destruct (H (Z.to_nat MAX_PERSISTER_BUFFER_SIZE) p Hok H0)
      as (n & p1 & cb & Hn & Hi & Hcp); [destruct Hc; unfold MAX_PERSISTER_BUFFER_SIZE in *; lia|].
    exists n, p1, cb. split; [unfold MAX_PERSISTER_BUFFER_SIZE in *; lia|done].
  - intros cb H0 E. unfold compress_and_write. rewrite E. cbn [mbind option_bind].
    assert (cb = p_compressBuffer p) as ->.
    { destruct (compress_spec _ _ (proj1 Hok) (proj2 Hok)) as (cb' & ret & E' & _ & Hcase). rewrite E in E'.
      injection E' as <- <-. by destruct Hcase as [[? _]|[_ ?]]. }
    replace (set_compressed p (p_compressBuffer p)) with p by (by destruct p).
    pose proof (WriteCompressedLogs_ok char_signed e p fs Hok) as Hw.
    unfold WriteCompressedLogs, compressed_trace in *. destruct (Z.eqb_spec (offset (p_mapped p)) 0); [done|].
    destruct (Input char_signed e (p_rotator p) (plain (p_compressBuffer p)) fs) as [[rot fs1] r].
    set (fin := sm_fileSize _ <=? _) in *. destruct fin; destruct Hw as (Hr & _);
      eexists _, _; (split; [done|]); (split; [apply plain_reset|]); (split; [apply plain_reset|]);
      [exists [RFinish] | exists []]; auto.
Qed.
End idle.

(** ** zstd *)

Lemma Input_nothing cs e r fs : Input cs e r "" fs = (r, fs, ERR_LOG_PERSIST_COMPRESS_BUFFER_EXP).
Proof. done. Qed.

Lemma zstd_flush cs e p fs :
  pst_ok p -> plain (p_compressBuffer p) = "" ->
  exists p', WriteCompressedLogs cs e p fs = (p', fs) /\ pst_ok p' /\ plain (p_compressBuffer p') = "" /\
    plain (p_mapped p') = "".
Proof.
  intros Hok Hc. pose proof (WriteCompressedLogs_ok cs e p fs Hok) as Hw.
  destruct (WriteCompressedLogs cs e p fs) as [p' fs']. destruct Hw as (Hr & Hok' & _ & Hm & Hs).
  rewrite Hc in Hs. apply str_app_eq_nil in Hs as [_ Hs]. exists p'. split; [|done]. f_equal.
  unfold compressed_trace in Hr. rewrite Hc in Hr. destruct (_ =? 0); [by injection Hr|].
  cbn [foldl] in Hr. unfold rot_step at 2 in Hr. cbn [fst snd] in Hr. rewrite Input_nothing in Hr.
  by destruct (_ <=? _); injection Hr.
Qed.

Lemma zstd_step localtime_r cs p fs ev :
  pst_ok p -> plain (p_compressBuffer p) = "" -> pst_fits localtime_r ev ->
  exists p' tr, pst_step localtime_r cs ZstdCompress p fs ev = Some (p', fs, tr, true) /\ pst_ok p' /\
    plain (p_compressBuffer p') = "".
Proof.
  intros Hok Hc Hfit. assert (set_compressed p (p_compressBuffer p) = p) as Hid by (by destruct p).
  destruct ev as [e d|e]; cbn [pst_step pst_text pst_fits] in *.
  - destruct (LogPrintWithFormat _ _ _) as [l|] eqn:El; [|by destruct Hfit]. destruct Hfit as [_ Hl].
    cbn [default from_option id] in *. unfold WriteLogData. rewrite El. cbn [mbind option_bind].
    destruct (WriteUncompressedLogs_ok p l (proj1 Hok) Hl) as (p1 & ok & E1 & H1). rewrite E1. destruct ok.
    + destruct H1 as (b' & -> & Hb' & _). eexists _, _. split; [done|]. split; [split; [done | apply Hok] | done].
    + destruct H1 as [-> _]. unfold ZstdCompress. cbn [mbind option_bind]. rewrite Hid. cbn [Z.eqb negb].
      destruct (zstd_flush cs e p fs Hok Hc) as (p2 & -> & Hok2 & Hc2 & Hm2).
      destruct (WriteUncompressedLogs_ok p2 l (proj1 Hok2) Hl) as (p3 & ok & E3 & H3). rewrite E3.
      cbn [mbind option_bind]. eexists _, _. split; [done|]. destruct ok.
      * destruct H3 as (b' & -> & Hb' & _). split; [split; [done | apply Hok2] | done].
      * by destruct H3 as [-> _].
  - unfold compress_and_write, ZstdCompress. cbn [mbind option_bind]. rewrite Hid.
    destruct (zstd_flush cs e p fs Hok Hc) as (p2 & -> & Hok2 & Hc2 & _). eexists _, _. by split.
Qed.

(** A job with zstd compression, as built, never writes anything to its
    files, although every compression and every line is reported as done. *)
Theorem zstd_writes_nothing localtime_r cs p fs evs :
  pst_ok p -> plain (p_compressBuffer p) = "" -> Forall (pst_fits localtime_r) evs ->
  exists p' tr, pst_run localtime_r cs ZstdCompress p fs evs = Some (p', fs, tr, true).
Proof.
  revert p. induction evs as [|ev evs IH]; intros p Hok Hc Hall; [by exists p, []|].
  apply Forall_cons in Hall as [Hev Hall]. cbn [pst_run].
  destruct (zstd_step localtime_r cs p fs ev Hok Hc Hev) as (p1 & tr1 & -> & Hok1 & Hc1). cbn [mbind option_bind].
  destruct (IH p1 Hok1 Hc1 Hall) as (p2 & tr2 & ->). eexists _, _. done.
Qed.

(** ** The registry *)

Definition job_id (p : LogPersister) : Z := sm_jobId (p_startMsg p).
Definition job_path (p : LogPersister) : string := sm_filePath (p_startMsg p).

(** No two jobs have the same id or write to the same files. *)
Definition jobs_ok (jobs : list LogPersister) : Prop :=
  NoDup (job_id <$> jobs) /\ NoDup (job_path <$> jobs) /\ Forall (fun p => p_inited p = true) jobs.

Lemma CheckRegistered_spec jobs id path :
  CheckRegistered jobs id path = false <-> id ∉ (job_id <$> jobs) /\ path ∉ (job_path <$> jobs).
Proof.
  unfold CheckRegistered. induction jobs as [|p jobs IH]; simpl; [split; [intros _; split; apply not_elem_of_nil | done]|].
  rewrite orb_false_iff, IH, orb_false_iff, bool_decide_eq_false, Z.eqb_neq, !not_elem_of_cons.
  unfold job_id, job_path. naive_solver.
Qed.

Lemma update_job_ids {A} (g : LogPersister -> A) id f jobs :
  (forall p, p_startMsg (f p) = p_startMsg p) -> (forall p q, p_startMsg p = p_startMsg q -> g p = g q) ->
  g <$> update_job id f jobs = g <$> jobs.
Proof.
  intros Hf Hg. unfold update_job. rewrite <- list_fmap_compose. apply list_fmap_ext. intros i p _. simpl.
  destruct (_ =? id); [by apply Hg | done].
Qed.

Lemma GetById_Some jobs id p : GetLogPersisterById jobs id = Some p -> p ∈ jobs /\ job_id p = id.
Proof. intros [Hin Hid%Z.eqb_eq]%find_some. split; [by apply list_elem_of_In | done]. Qed.

Lemma Deregister_ids jobs p :
  NoDup (job_id <$> jobs) -> DeregisterLogPersister jobs p = filter (fun q => job_id q <> job_id p) jobs.
Proof.
  induction jobs as [|q jobs IH]; [done|]. rewrite fmap_cons. intros [Hq Hnd]%NoDup_cons. simpl. rewrite filter_cons.
  destruct (Z.eqb_spec (sm_jobId (p_startMsg q)) (sm_jobId (p_startMsg p))) as [E|E].
  - rewrite decide_False by (intros Hn; by apply Hn). symmetry. apply list_filter_id. intros x Hx Ex.
    apply Hq. replace (job_id q) with (job_id x) by (rewrite Ex; symmetry; exact E). by apply list_elem_of_fmap_2.
  - rewrite decide_True by exact E. by rewrite IH.
Qed.

Lemma update_job_fresh id f jobs p :
  id ∉ (job_id <$> jobs) -> job_id p = id -> update_job id f (jobs ++ [p]) = jobs ++ [f p].
Proof.
  intros Hid Hp. unfold update_job. rewrite fmap_app, fmap_cons. f_equal.
  - rewrite <- (list_fmap_id jobs) at 2. apply list_fmap_ext. intros i q Hq. simpl. unfold job_id in Hid.
    destruct (Z.eqb_spec (sm_jobId (p_startMsg q)) id) as [E|]; [|done]. destruct Hid. rewrite <- E.
    apply (list_elem_of_fmap_2 job_id). by eapply list_elem_of_lookup_2.
  - unfold job_id in Hp. by rewrite Hp, Z.eqb_refl.
Qed.

Lemma filter_jobs_ok jobs id : jobs_ok jobs -> jobs_ok (filter (fun q => job_id q <> id) jobs).
Proof.
  intros (Hi & Hp & Hall). split; [|split].
  - eapply sublist_NoDup; [exact Hi|]. apply fmap_sublist, sublist_filter.
  - eapply sublist_NoDup; [exact Hp|]. apply fmap_sublist, sublist_filter.
  - eapply sublist_Forall; [apply sublist_filter | exact Hall].
Qed.

Lemma WriteCompressedLogs_msg cs e p fs : p_startMsg (WriteCompressedLogs cs e p fs).1 = p_startMsg p.
Proof.
  unfold WriteCompressedLogs. destruct (_ =? 0); [done|]. destruct (Input _ _ _ _ _) as [[rot fs1] r]. by destruct (_ <=? _).
Qed.

#[local] Opaque zero_lpb.

Section registry.
Context (localtime_r : Z -> option tm) (char_signed : bool) {ZL : Zlib}.

Lemma PrepareUncompressedFile_msg ie comp parent restore p fs p' fs' ret :
  PrepareUncompressedFile char_signed ie comp parent restore p fs = Some (p', fs', ret) -> p_startMsg p' = p_startMsg p.
Proof.
  unfold PrepareUncompressedFile. destruct (ie_plain ie) as [file|]; [|by intros [= <- _ _]].
  destruct (negb _); [by intros [= <- _ _]|]. destruct restore; [|by intros [= <- _ _]].
  cbn [set_mapped p_mapped p_compressBuffer]. destruct (comp _ _) as [[cb r]|]; [|done]. cbn [mbind option_bind].
  destruct (negb _); [by intros [= <- _ _]|]. set (q := set_compressed _ _).
  pose proof (WriteCompressedLogs_msg char_signed (ie_file ie) q fs) as Hm.
  destruct (WriteCompressedLogs char_signed (ie_file ie) q fs) as [p2 fs2]. by intros [= <- _ _].
Qed.

Lemma InitPersister_ok ie rd k info restore jobs fs jobs' fs' ret :
  InitPersister char_signed ie rd k info restore jobs fs = Some (jobs', fs', ret) ->
  if ret =? RET_SUCCESS then
    sm_jobId (ri_msg info) ∉ (job_id <$> jobs) /\ sm_filePath (ri_msg info) ∉ (job_path <$> jobs) /\
    exists p, jobs' = jobs ++ [p] /\ p_startMsg p = ri_msg info /\ p_inited p = true
  else jobs' = jobs.
Proof.
  unfold InitPersister. destruct (parent_dir _) as [parent|]; [|by intros [= <- _ <-]].
  destruct (negb (ie_parent ie)); [by intros [= <- _ <-]|].
  destruct (CheckRegistered _ _ _) eqn:Ec; [by intros [= <- _ <-]|]. apply CheckRegistered_spec in Ec as [Hi Hp].
  destruct (InitCompression _) as [comp|]; [|by intros [= <- _ <-]].
  destruct (InitRotator _ _ _ _ _ _) as [[rot fs1] r]. destruct (Z.eqb_spec r RET_SUCCESS) as [->|Hr]; cbn [negb].
  2:{ intros [= <- _ <-]. destruct (Z.eqb_spec r RET_SUCCESS); done. }
  destruct (PrepareUncompressedFile _ _ _ _ _ _ _) as [[[p fs2] r]|] eqn:Ep; [|done]. cbn [mbind option_bind].
  apply PrepareUncompressedFile_msg in Ep. cbn [p_startMsg] in Ep.
  destruct (Z.eqb_spec r 0) as [->|Hr]; cbn [negb]; intros [= <- _ <-].
  - split; [done|]. split; [done|]. unfold RegisterLogPersister. eexists. split; [done|]. by split.
  - destruct (Z.eqb_spec r RET_SUCCESS); done.
Qed.

Lemma StopPersister_msg e p fs p' fs' :
  StopPersister char_signed e p fs = Some (p', fs') -> p_startMsg p' = p_startMsg p.
Proof.
  unfold StopPersister. destruct (p_thread p); [|by intros [= <- _]].
  destruct (InitCompression _) as [comp|]; [|done]. cbn [mbind option_bind]. unfold receive_end, compress_and_write.
  destruct (comp _ _) as [[cb r]|]; [|done]. cbn [mbind option_bind].
  pose proof (WriteCompressedLogs_msg char_signed e (set_compressed p cb) fs) as Hm.
  destruct (WriteCompressedLogs _ _ _ _) as [p2 fs2]. by intros [= <- _].
Qed.

Lemma StartPersistStoreJob_ok jobs ie rd k info restore fs jobs' fs' ret :
  jobs_ok jobs -> StartPersistStoreJob char_signed ie rd k info restore jobs fs = Some (jobs', fs', ret) ->
  jobs_ok jobs' /\
  if ret =? RET_SUCCESS then
    sm_jobId (ri_msg info) ∉ (job_id <$> jobs) /\ sm_filePath (ri_msg info) ∉ (job_path <$> jobs) /\
    exists p, jobs' = jobs ++ [p] /\ p_startMsg p = ri_msg info /\ p_thread p = true
  else jobs' = jobs.
Proof.
  intros Hok. unfold StartPersistStoreJob.
  destruct (InitPersister _ _ _ _ _ _ _ _) as [[[jobs1 fs1] r]|] eqn:E; [|done]. cbn [mbind option_bind].
  apply InitPersister_ok in E. destruct (r =? RET_SUCCESS) eqn:Hr; cbn [negb]; intros [= <- _ <-].
  + destruct E as (Hi & Hp & p & -> & Hmsg & Hin). unfold StartPersister.
    rewrite update_job_fresh by (done || (unfold job_id; by rewrite Hmsg)). rewrite Hin.
    destruct Hok as (Hni & Hnp & Hall). split.
    * split; [|split]; rewrite ?fmap_app, ?Forall_app.
      -- apply NoDup_app. split; [done|]. split; [|apply NoDup_singleton]. intros x Hx ->%list_elem_of_singleton.
         unfold job_id in Hx at 1. simpl in Hx. by rewrite Hmsg in Hx.
      -- apply NoDup_app. split; [done|]. split; [|apply NoDup_singleton]. intros x Hx ->%list_elem_of_singleton.
         unfold job_path in Hx at 1. simpl in Hx. by rewrite Hmsg in Hx.
      -- split; [done|]. by constructor.
    * split; [done|]. split; [done|]. by eexists.
  + by rewrite Hr, E.
Qed.

(** C39: the registry of persist jobs: no two jobs ever share an id or a path.
    Starting a job succeeds only for a fresh id and path, and then exactly
    adds the job with its thread running; any error leaves the registry as it
    was.  Killing removes exactly the job of that id and its reader on the
    buffer, and reports an unknown id without any change. *)
Theorem job_registry jobs :
  jobs_ok jobs ->
  (forall ie rd k info restore fs jobs' fs' ret,
     StartPersistStoreJob char_signed ie rd k info restore jobs fs = Some (jobs', fs', ret) ->
     jobs_ok jobs' /\
     if ret =? RET_SUCCESS then
       sm_jobId (ri_msg info) ∉ (job_id <$> jobs) /\ sm_filePath (ri_msg info) ∉ (job_path <$> jobs) /\
       exists p, jobs' = jobs ++ [p] /\ p_startMsg p = ri_msg info /\ p_thread p = true
     else jobs' = jobs) /\
  (forall e b fs id jobs' b' fs' ret,
     Kill char_signed e jobs b fs id = Some (jobs', b', fs', ret) ->
     jobs_ok jobs' /\ jobs' = filter (fun q => job_id q <> id) jobs /\
     if ret =? RET_SUCCESS then exists p, p ∈ jobs /\ job_id p = id /\ b' = RemoveBufReader b (p_bufReader p)
     else id ∉ (job_id <$> jobs) /\ b' = b /\ fs' = fs).
Proof.
  intros Hok. split.
  - intros ie rd k info restore fs jobs' fs' ret. by apply StartPersistStoreJob_ok.
  - intros e b fs id jobs' b' fs' ret. unfold Kill. destruct (GetLogPersisterById jobs id) as [p|] eqn:Eg.
    + pose proof (GetById_Some _ _ _ Eg) as [Hp Hid]. unfold Deinit. pose proof Hok as (Hni & _ & Hall).
      rewrite Forall_forall in Hall. rewrite (Hall p Hp).
      destruct (StopPersister char_signed e p fs) as [[p1 fs1]|] eqn:Es; [|done]. cbn [mbind option_bind].
      intros [= <- <- _ <-]. rewrite Deregister_ids by done.
      assert (job_id p1 = id) as -> by (unfold job_id; rewrite (StopPersister_msg _ _ _ _ _ Es); exact Hid).
      split; [by apply filter_jobs_ok|]. split; [done|]. by exists p.
    + intros [= <- <- <- <-]. split; [done|].
      assert (id ∉ (job_id <$> jobs)) as Hn.
      { intros (q & -> & Hq)%list_elem_of_fmap. eapply find_none in Eg; [|by apply list_elem_of_In].
        unfold job_id in Eg. by rewrite Z.eqb_refl in Eg. }
      split; [|done]. symmetry. apply list_filter_id. intros q Hq <-. apply Hn. by apply list_elem_of_fmap_2.
Qed.
End registry.

#[local] Transparent zero_lpb.

(** ** Examples *)

Definition ex_pfs : filesystem := ∅.
Definition ex_prot : LogPersisterRotator :=
  mkRotator 2 (HILOG_FILE_DIR +:+ String ex_c ex_b0) ".gz" "" 0 false 1 false
    (HILOG_FILE_DIR +:+ ".persisterInfo_1.info") no_info false.
Definition ex_msg : LogPersistStartMsg :=
  mkStartMsg COMPRESS_TYPE_ZLIB (HILOG_FILE_DIR +:+ "hilog") (4 * 1024 * 1024) 2 1 no_filter.
Definition ex_job : LogPersister := mkPersister ex_msg zero_lpb "" 0 zero_lpb ex_prot 7 false true true.
Definition ex_penv : file_env := mkFileEnv [] "20250806-165504" true.
Definition ex_data : HilogData := mkHilogData 10 0 LOG_CORE LOG_INFO 4 1754470264 945000000 100 1201 42 0xD002D00 "Tag" "hello".
Definition ex_events : list pst_event := [PLine ex_penv ex_data; PIdle ex_penv].

Lemma ex_job_ok : pst_ok ex_job.
Proof. split; (split; [vm_compute; reflexivity | split; vm_compute; discriminate]). Qed.

Lemma ex_events_fit : Forall (pst_fits ex_localtime) ex_events.
Proof. repeat constructor; vm_compute; discriminate. Qed.





Lemma idle_periods_lose_text_witness :
  exists n p1 cb, (Z.of_nat n <= MAX_PERSISTER_BUFFER_SIZE) /\ idle true ZlibCompress n ex_penv ex_job ex_pfs = Some (p1, ex_pfs) /\
    ZlibCompress (p_mapped p1) (p_compressBuffer p1) = Some (cb, -1).
Proof.
  assert (offset (p_mapped ex_job) = 0) as H0 by reflexivity.
  exact (proj1 (idle_periods_lose_text true ZlibCompress stored_inflate ex_penv ex_job ex_pfs ex_job_ok eq_refl) H0).
Defined.

Lemma zstd_writes_nothing_witness :
  exists p' tr, pst_run ex_localtime true ZstdCompress ex_job ex_pfs ex_events = Some (p', ex_pfs, tr, true).
Proof.
  assert (plain (p_compressBuffer ex_job) = "") as Hc by (vm_compute; reflexivity).
  exact (zstd_writes_nothing ex_localtime true ex_job ex_pfs ex_events ex_job_ok Hc ex_events_fit).
Defined.

Definition ex_jbuffer : HilogBuffer := mkHilogBuffer (replicate 6 0) [] 0 ∅ example_stats true.

Lemma job_registry_witness :
  match Kill true ex_penv [ex_job] ex_jbuffer ex_pfs 1 with
  | Some (jobs', _, _, ret) => jobs' = [] /\ ret = RET_SUCCESS
  | None => False
  end.
Proof.
  assert (jobs_ok [ex_job]) as Hok.
  { split; [apply NoDup_singleton|]. split; [apply NoDup_singleton|]. by constructor. }
  destruct (Kill true ex_penv [ex_job] ex_jbuffer ex_pfs 1) as [[[[jobs' b'] fs'] ret]|] eqn:E.
  2:{ vm_compute in E. discriminate. }
  destruct (proj2 (job_registry true [ex_job] Hok) _ _ _ _ _ _ _ _ E) as (_ & -> & H). split; [done|].
  destruct (Z.eqb_spec ret RET_SUCCESS); [done|]. destruct H as [H _]. destruct H. by left.
Defined.
