(* ===== verification/Cmd.v ===== *)
(** * Command messages

    The packed structures of hilog_cmd.h that client and daemon exchange over
    the control and output sockets.  A structure is described once, by a
    dictionary with its size, its encoder and its decoder; the dictionaries are
    put together from those of the fields, and so are their laws. *)

From S2P Require Import Prelude Common.
From Stdlib Require Import Ascii.

(** ** Dictionaries *)

Record packed (A : Type) := mkPacked {
  psize : nat;                 (* sizeof *)
  enc : A -> string;
  dec : string -> A;           (* of the first [psize] bytes *)
  pwf : A -> Prop;             (* the values of the C++ type *)
}.
Arguments mkPacked {A}.
Arguments psize {A}.
Arguments enc {A}.
Arguments dec {A}.
Arguments pwf {A}.

(** Encoding fills the size, decoding inverts it whatever follows, and any
    bytes that are long enough decode to a value of the type. *)
Class PackedOk {A} (p : packed A) : Prop := {
  enc_size a : pwf p a -> String.length (enc p a) = psize p;
  dec_enc a s : pwf p a -> dec p (enc p a +:+ s) = a;
  dec_pwf s : (psize p <= String.length s)%nat -> pwf p (dec p s);
}.

Definition p_uint (n : nat) : packed Z :=
  mkPacked n (le_bytes n) (le_val n) (fun z => 0 <= z < 256 ^ Z.of_nat n).
Definition p_int (n : nat) : packed Z :=
  mkPacked n (fun z => le_bytes n (wrapu (8 * Z.of_nat n) z)) (fun s => wraps (8 * Z.of_nat n) (le_val n s))
    (fun z => - 2 ^ (8 * Z.of_nat n - 1) <= z < 2 ^ (8 * Z.of_nat n - 1)).
Definition p_bool : packed bool :=
  mkPacked 1 (fun b : bool => le_bytes 1 (if b then 1 else 0)) (fun s => negb (le_val 1 s =? 0)) (fun _ => True).

(** [char[n]]: all of its bytes. *)
Definition p_chars (n : nat) : packed string :=
  mkPacked n id (str_take n) (fun s => String.length s = n).

Definition p_pair {A B} (p : packed A) (q : packed B) : packed (A * B) :=
  mkPacked (psize p + psize q) (fun x => enc p x.1 +:+ enc q x.2)
    (fun s => (dec p s, dec q (str_drop (psize p) s))) (fun x => pwf p x.1 /\ pwf q x.2).

Fixpoint enc_list {A} (p : packed A) (l : list A) : string :=
  match l with
  | [] => ""
  | a :: l => enc p a +:+ enc_list p l
  end.
Fixpoint dec_list {A} (p : packed A) (n : nat) (s : string) : list A :=
  match n with
  | O => []
  | S n => dec p s :: dec_list p n (str_drop (psize p) s)
  end.
Definition p_array {A} (n : nat) (p : packed A) : packed (list A) :=
  mkPacked (n * psize p) (enc_list p) (dec_list p n) (fun l => length l = n /\ Forall (pwf p) l).

(** A structure whose fields are those of a tuple. *)
Definition p_iso {A B} (p : packed A) (f : A -> B) (g : B -> A) : packed B :=
  mkPacked (psize p) (fun b => enc p (g b)) (fun s => f (dec p s)) (fun b => pwf p (g b)).
Class Iso {A B} (f : A -> B) (g : B -> A) : Prop := { iso_fg b : f (g b) = b; iso_gf a : g (f a) = a }.

Declare Scope packed_scope.
Delimit Scope packed_scope with packed.
Bind Scope packed_scope with packed.
Infix "*" := p_pair : packed_scope.

Abbreviation p_u8 := (p_uint 1).
Abbreviation p_u16 := (p_uint 2).
Abbreviation p_u32 := (p_uint 4).
Abbreviation p_u64 := (p_uint 8).
Abbreviation p_i16 := (p_int 2).
Abbreviation p_i32 := (p_int 4).

(** ** Laws of the dictionaries *)

Lemma pow_256 n : 256 ^ Z.of_nat n = 2 ^ (8 * Z.of_nat n).
Proof. change 256 with (2 ^ 8). by rewrite <- Z.pow_mul_r by lia. Qed.

Lemma wraps_wrapu w z : 0 < w -> - 2 ^ (w - 1) <= z < 2 ^ (w - 1) -> wraps w (wrapu w z) = z.
Proof.
  intros Hw Hz. rewrite <- (wraps_small w z) at 2 by done. unfold wraps, wrapu.
  by rewrite Zplus_mod_idemp_l.
Qed.

Lemma str_drop_app_eq n a b : String.length a = n -> str_drop n (a +:+ b) = b.
Proof. intros <-. apply str_drop_app_length. Qed.

Lemma str_length_app a b : String.length (a +:+ b) = (String.length a + String.length b)%nat.
Proof. apply Nat2Z.inj. rewrite Nat2Z.inj_add. apply slen_app. Qed.

Lemma str_length_drop n s : String.length (str_drop n s) = (String.length s - n)%nat.
Proof. pose proof (slen_drop n s) as H. unfold slen in H. lia. Qed.

#[export] Instance p_uint_ok n : PackedOk (p_uint n).
Proof.
  split.
  - intros z _. apply le_bytes_length.
  - intros z s Hz. by apply le_val_bytes_app.
  - intros s _. apply le_val_range.
Qed.

#[export] Instance p_int_ok n : PackedOk (p_int (S n)).
Proof.
  split.
  - intros z _. apply le_bytes_length.
  - intros z s Hz. cbn [dec enc p_int]. rewrite le_val_bytes_app.
    + by apply wraps_wrapu; [lia|].
    + rewrite pow_256. apply wrapu_range. lia.
  - intros s _. apply wraps_range. lia.
Qed.

#[export] Instance p_bool_ok : PackedOk p_bool.
Proof.
  split; [done| |done]. intros b s _. cbn [dec enc p_bool]. rewrite le_val_bytes_app by (by destruct b). by destruct b.
Qed.

#[export] Instance p_chars_ok n : PackedOk (p_chars n).
Proof.
  split; [done| |].
  - intros a s <-. apply str_take_app_length.
  - intros s Hs. simpl in *. pose proof (slen_take n s) as H. unfold slen in H. lia.
Qed.

#[export] Instance p_pair_ok {A B} (p : packed A) (q : packed B) : PackedOk p -> PackedOk q -> PackedOk (p_pair p q).
Proof.
  intros Hp Hq. split.
  - intros [a b] [Ha Hb]. simpl in *. by rewrite str_length_app, !enc_size.
  - intros [a b] s [Ha Hb]. simpl in *. rewrite <- str_app_assoc, dec_enc by done.
    by rewrite str_drop_app_eq, dec_enc by (done || by apply enc_size).
  - intros s Hs. simpl in *. split; apply dec_pwf; [lia | rewrite str_length_drop; lia].
Qed.

#[export] Instance p_array_ok {A} n (p : packed A) : PackedOk p -> PackedOk (p_array n p).
Proof.
  intros Hp. split; simpl.
  - induction n as [|n IH]; intros [|a l] [Hn Hl]; try done. apply Forall_cons in Hl as [Ha Hl]. injection Hn as Hn.
    simpl. by rewrite str_length_app, enc_size, IH.
  - induction n as [|n IH]; intros [|a l] s [Hn Hl]; try done. apply Forall_cons in Hl as [Ha Hl]. injection Hn as Hn.
    simpl. rewrite <- str_app_assoc, dec_enc by done. by rewrite str_drop_app_eq, IH by (done || by apply enc_size).
  - induction n as [|n IH]; intros s Hs; simpl in *; [by split|].
    destruct (IH (str_drop (psize p) s)) as [Hl Hf]; [rewrite str_length_drop; lia|].
    split; [by f_equal|]. constructor; [apply dec_pwf; lia | done].
Qed.

#[export] Instance p_iso_ok {A B} (p : packed A) (f : A -> B) g : PackedOk p -> Iso f g -> PackedOk (p_iso p f g).
Proof.
  intros Hp Hi. split; simpl.
  - intros b Hb. by apply enc_size.
  - intros b s Hb. by rewrite dec_enc, iso_fg.
  - intros s Hs. rewrite iso_gf. by apply dec_pwf.
Qed.

(** Decoding exactly what was encoded. *)
Lemma dec_enc_all {A} (p : packed A) `{!PackedOk p} a : pwf p a -> dec p (enc p a) = a.
Proof. intros Ha. rewrite <- (str_app_nil_r (enc p a)). by apply dec_enc. Qed.

Ltac solve_iso :=
  split; [by intros [] | intros a; repeat match goal with x : (_ * _)%type |- _ => destruct x end; done].

(** ** The commands *)

Definition MAX_PROC_NAME_LEN : Z := 32.

(** The numbers of the commands ([static_cast] of a byte). *)
Definition OUTPUT_RQST : Z := 1.
Definition OUTPUT_RSP : Z := 2.
Definition PERSIST_START_RQST : Z := 3.
Definition PERSIST_START_RSP : Z := 4.
Definition PERSIST_STOP_RQST : Z := 5.
Definition PERSIST_STOP_RSP : Z := 6.
Definition PERSIST_QUERY_RQST : Z := 7.
Definition PERSIST_QUERY_RSP : Z := 8.
Definition PERSIST_REFRESH_RQST : Z := 9.
Definition PERSIST_REFRESH_RSP : Z := 10.
Definition PERSIST_CLEAR_RQST : Z := 11.
Definition PERSIST_CLEAR_RSP : Z := 12.
Definition BUFFERSIZE_GET_RQST : Z := 13.
Definition BUFFERSIZE_GET_RSP : Z := 14.
Definition BUFFERSIZE_SET_RQST : Z := 15.
Definition BUFFERSIZE_SET_RSP : Z := 16.
Definition STATS_QUERY_RQST : Z := 17.
Definition STATS_QUERY_RSP : Z := 18.
Definition STATS_CLEAR_RQST : Z := 19.
Definition STATS_CLEAR_RSP : Z := 20.
Definition DOMAIN_FLOWCTRL_RQST : Z := 21.
Definition DOMAIN_FLOWCTRL_RSP : Z := 22.
Definition LOG_REMOVE_RQST : Z := 23.
Definition LOG_REMOVE_RSP : Z := 24.
Definition KMSG_ENABLE_RQST : Z := 25.
Definition KMSG_ENABLE_RSP : Z := 26.
Definition RSP_ERROR : Z := 27.

Record MsgHeader := mkMsgHeader { hdr_ver : Z; hdr_cmd : Z; hdr_err : Z; hdr_len : Z }.
Definition p_MsgHeader : packed MsgHeader :=
  p_iso (p_u8 * (p_u8 * (p_i16 * p_u16)))
    (fun '(ver, (cmd, (err, len))) => mkMsgHeader ver cmd err len)
    (fun h => (hdr_ver h, (hdr_cmd h, (hdr_err h, hdr_len h)))).

(** ** Output *)

Record OutputRqst := mkOutputRqst {
  or_headLines : Z; or_types : Z; or_levels : Z;
  or_blackDomain : bool; or_domainCount : Z; or_domains : list Z;
  or_blackTag : bool; or_tagCount : Z; or_tags : list string;
  or_blackPid : bool; or_pidCount : Z; or_pids : list Z;
  or_regex : string; or_noBlock : bool; or_tailLines : Z;
}.
Definition p_OutputRqst : packed OutputRqst :=
  p_iso (p_u16 * (p_u16 * (p_u16 *
         (p_bool * (p_u8 * (p_array (Z.to_nat MAX_DOMAINS) p_u32 *
         (p_bool * (p_u8 * (p_array (Z.to_nat MAX_TAGS) (p_chars (Z.to_nat MAX_TAG_LEN)) *
         (p_bool * (p_i32 * (p_array (Z.to_nat MAX_PIDS) p_u32 *
         (p_chars (Z.to_nat MAX_REGEX_STR_LEN) * (p_bool * p_u16))))))))))))))
    (fun '(hl, (ty, (lv, (bd, (dc, (ds, (bt, (tc, (ts, (bp, (pc, (ps, (re, (nb, tl)))))))))))))) =>
       mkOutputRqst hl ty lv bd dc ds bt tc ts bp pc ps re nb tl)
    (fun r => (or_headLines r, (or_types r, (or_levels r, (or_blackDomain r, (or_domainCount r, (or_domains r,
       (or_blackTag r, (or_tagCount r, (or_tags r, (or_blackPid r, (or_pidCount r, (or_pids r,
       (or_regex r, (or_noBlock r, or_tailLines r))))))))))))))).

(** The header of a line in an output response; the bytes of the line follow. *)
Record OutputRsp := mkOutputRsp {
  os_len : Z; os_level : Z; os_type : Z; os_pid : Z; os_tid : Z; os_domain : Z;
  os_tv_sec : Z; os_tv_nsec : Z; os_mono_sec : Z; os_tagLen : Z; os_end : bool;
}.
Definition p_OutputRsp : packed OutputRsp :=
  p_iso (p_u16 * (p_u8 * (p_u8 * (p_u32 * (p_u32 * (p_u32 * (p_u32 * (p_u32 * (p_u32 * (p_u8 * p_bool))))))))))
    (fun '(len, (lv, (ty, (pid, (tid, (d, (s, (ns, (ms, (tl, e)))))))))) => mkOutputRsp len lv ty pid tid d s ns ms tl e)
    (fun r => (os_len r, (os_level r, (os_type r, (os_pid r, (os_tid r, (os_domain r, (os_tv_sec r, (os_tv_nsec r,
       (os_mono_sec r, (os_tagLen r, os_end r))))))))))).

(** ** Persist jobs *)

Record PersistStartRqst := mkPersistStartRqst {
  ps_outputFilter : OutputRqst; ps_jobId : Z; ps_fileSize : Z; ps_fileNum : Z; ps_fileName : string; ps_stream : string;
}.
Definition p_PersistStartRqst : packed PersistStartRqst :=
  p_iso (p_OutputRqst * (p_u32 * (p_u32 * (p_u16 *
         (p_chars (Z.to_nat MAX_FILE_NAME_LEN) * p_chars (Z.to_nat MAX_STREAM_NAME_LEN))))))
    (fun '(f, (id, (sz, (num, (name, st))))) => mkPersistStartRqst f id sz num name st)
    (fun r => (ps_outputFilter r, (ps_jobId r, (ps_fileSize r, (ps_fileNum r, (ps_fileName r, ps_stream r)))))).

Record PersistStopRsp := mkPersistStopRsp { sp_jobNum : Z; sp_jobId : list Z }.
Definition p_PersistStopRsp : packed PersistStopRsp :=
  p_iso (p_u8 * p_array (Z.to_nat MAX_JOBS) p_u32) (fun '(n, ids) => mkPersistStopRsp n ids)
    (fun r => (sp_jobNum r, sp_jobId r)).

Record PersistQueryRsp := mkPersistQueryRsp { pq_jobNum : Z; pq_taskInfo : list PersistStartRqst }.
Definition p_PersistQueryRsp : packed PersistQueryRsp :=
  p_iso (p_u8 * p_array (Z.to_nat MAX_JOBS) p_PersistStartRqst) (fun '(n, l) => mkPersistQueryRsp n l)
    (fun r => (pq_jobNum r, pq_taskInfo r)).

(** ** The others *)

Record BufferSizeSetRqst := mkBufferSizeSetRqst { bs_types : Z; bs_size : Z }.
Definition p_BufferSizeSetRqst : packed BufferSizeSetRqst :=
  p_iso (p_u16 * p_i32) (fun '(t, s) => mkBufferSizeSetRqst t s) (fun r => (bs_types r, bs_size r)).
Definition p_BufferSizeSetRsp : packed (list Z) := p_array (Z.to_nat LOG_TYPE_MAX) p_i32.
Definition p_BufferSizeGetRsp : packed (list Z) := p_array (Z.to_nat LOG_TYPE_MAX) p_u32.

Record StatsQueryRqst := mkStatsQueryRqst { sq_types : Z; sq_domainCount : Z; sq_domains : list Z }.
Definition p_StatsQueryRqst : packed StatsQueryRqst :=
  p_iso (p_u16 * (p_u8 * p_array (Z.to_nat MAX_DOMAINS) p_u32)) (fun '(t, (n, l)) => mkStatsQueryRqst t n l)
    (fun r => (sq_types r, (sq_domainCount r, sq_domains r))).

(** The structures of one field: PersistStartRsp, PersistStopRqst and
    PersistRefreshRqst (a job id), BufferSizeGetRqst, LogRemoveRqst and
    LogRemoveRsp (types), DomainFlowCtrlRqst and KmsgEnableRqst (a switch),
    and those with a placeholder only. *)
Definition p_jobId : packed Z := p_u32.
Definition p_types : packed Z := p_u16.
Definition p_on : packed bool := p_bool.
Definition p_placeholder : packed string := p_chars 1.

(** ** Every structure obeys the laws *)

Ltac solve_struct := apply p_iso_ok; [apply _ | solve_iso].

#[export] Instance p_MsgHeader_ok : PackedOk p_MsgHeader.
Proof. solve_struct. Qed.
#[export] Instance p_OutputRqst_ok : PackedOk p_OutputRqst.
Proof. solve_struct. Qed.
#[export] Instance p_OutputRsp_ok : PackedOk p_OutputRsp.
Proof. solve_struct. Qed.
#[export] Instance p_PersistStartRqst_ok : PackedOk p_PersistStartRqst.
Proof. solve_struct. Qed.
#[export] Instance p_PersistStopRsp_ok : PackedOk p_PersistStopRsp.
Proof. solve_struct. Qed.
#[export] Instance p_PersistQueryRsp_ok : PackedOk p_PersistQueryRsp.
Proof. solve_struct. Qed.
#[export] Instance p_BufferSizeSetRqst_ok : PackedOk p_BufferSizeSetRqst.
Proof. solve_struct. Qed.
#[export] Instance p_StatsQueryRqst_ok : PackedOk p_StatsQueryRqst.
Proof. solve_struct. Qed.
#[export] Instance p_BufferSizeSetRsp_ok : PackedOk p_BufferSizeSetRsp.
Proof. apply _. Qed.
#[export] Instance p_BufferSizeGetRsp_ok : PackedOk p_BufferSizeGetRsp.
Proof. apply _. Qed.
#[export] Instance p_jobId_ok : PackedOk p_jobId.
Proof. apply _. Qed.
#[export] Instance p_types_ok : PackedOk p_types.
Proof. apply _. Qed.
#[export] Instance p_on_ok : PackedOk p_on.
Proof. apply _. Qed.
#[export] Instance p_placeholder_ok : PackedOk p_placeholder.
Proof. apply _. Qed.
