(* ===== verification/Properties.v ===== *)
(** * System parameters

    properties.cpp: names of the parameters hilog reads and sets, the cache in
    front of the parameter service, and what the switches and levels mean.
    The service itself (parameter.h) is an interface: its calls, and the laws
    the cache relies on. *)

From S2P Require Import Prelude Common Utils.
From Stdlib Require Import Ascii.

(** ** The parameter service *)

Class ParamService := {
  sys : Type;
  FindParameter : sys -> string -> Z;                       (* a handle, -1 when there is none *)
  GetParameterValue : sys -> Z -> Z -> option string;       (* into [len] bytes; [None]: an error *)
  GetParameterCommitId : sys -> Z -> Z;
  GetSystemCommitId : sys -> Z;
  SetParameter : sys -> string -> string -> sys * bool;     (* whether it is accepted *)
}.

(** ** Names *)

Inductive PropType :=
  | PROP_PRIVATE | PROP_ONCE_DEBUG | PROP_PERSIST_DEBUG | PROP_GLOBAL_LOG_LEVEL | PROP_PERSIST_GLOBAL_LOG_LEVEL
  | PROP_DOMAIN_LOG_LEVEL | PROP_PERSIST_DOMAIN_LOG_LEVEL | PROP_TAG_LOG_LEVEL | PROP_PERSIST_TAG_LOG_LEVEL
  | PROP_DOMAIN_FLOWCTRL | PROP_PROCESS_FLOWCTRL
  | PROP_KMSG | PROP_BUFFER_SIZE | PROP_PROC_QUOTA | PROP_STATS_ENABLE | PROP_STATS_TAG_ENABLE | PROP_DOMAIN_QUOTA.

#[export] Instance PropType_eq_dec : EqDecision PropType.
Proof. solve_decision. Defined.

Definition GetPropertyName (t : PropType) : string :=
  match t with
  | PROP_PRIVATE => "hilog.private.on"
  | PROP_ONCE_DEBUG => "hilog.debug.on"
  | PROP_PERSIST_DEBUG => "persist.sys.hilog.debug.on"
  | PROP_GLOBAL_LOG_LEVEL => "hilog.loggable.global"
  | PROP_PERSIST_GLOBAL_LOG_LEVEL => "persist.sys.hilog.loggable.global"
  | PROP_DOMAIN_LOG_LEVEL => "hilog.loggable.domain."
  | PROP_PERSIST_DOMAIN_LOG_LEVEL => "persist.sys.hilog.loggable.domain."
  | PROP_TAG_LOG_LEVEL => "hilog.loggable.tag."
  | PROP_PERSIST_TAG_LOG_LEVEL => "persist.sys.hilog.loggable.tag."
  | PROP_DOMAIN_FLOWCTRL => "hilog.flowctrl.domain.on"
  | PROP_PROCESS_FLOWCTRL => "hilog.flowctrl.proc.on"
  | PROP_KMSG => "persist.sys.hilog.kmsg.on"
  | PROP_BUFFER_SIZE => "hilog.buffersize."
  | PROP_PROC_QUOTA => "hilog.quota.proc."
  | PROP_STATS_ENABLE => "persist.sys.hilog.stats"
  | PROP_STATS_TAG_ENABLE => "persist.sys.hilog.stats.tag"
  | PROP_DOMAIN_QUOTA => "hilog.quota.domain."
  end.

(** The types with a lock. *)
Definition has_lock (t : PropType) : bool :=
  match t with
  | PROP_KMSG | PROP_BUFFER_SIZE | PROP_PROC_QUOTA | PROP_STATS_ENABLE | PROP_STATS_TAG_ENABLE | PROP_DOMAIN_QUOTA => false
  | _ => true
  end.

(** [LockByProp]: zero when the lock is taken; [free] tells whether no other
    thread holds it. *)
Definition LockByProp (free : bool) (t : PropType) : Z := if has_lock t then (if free then 0 else 16) else -1.
Definition isLocked (free : bool) (t : PropType) : bool := LockByProp free t =? 0.

Definition HILOG_PROP_VALUE_MAX : Z := 92.
Definition DEFAULT_QUOTA : Z := 51200.
Definition HAP_DEBUGGABLE : string := "HAP_DEBUGGABLE".

(** ** Conversion of values *)

Definition TextToBool (data : string) (defaultVal : bool) : bool :=
  if bool_decide (cstr data = "true") then true
  else if bool_decide (cstr data = "false") then false
  else defaultVal.

Definition TextToLogLevel (data : string) (defaultVal : Z) : Z :=
  let level := PrettyStr2LogLevel (cstr data) in
  if level =? LOG_LEVEL_MIN then defaultVal else level.

(** [std::stoi]: [None] when it throws. *)
Definition stoi (s : string) : option Z :=
  let '(neg, s) := take_sign (skip_space s) in
  match s with
  | String c _ =>
      if is_digit c then
        let v := read_digits 10 0 s in
        let v := if neg : bool then - v else v in
        if (- 2 ^ 31 <=? v) && (v <? 2 ^ 31) then Some v else None
      else None
  | EmptyString => None
  end.

Section props.
Context {PS : ParamService}.

Definition PropertyGet (s : sys) (key : string) (len : Z) : option string :=
  let handle := FindParameter s key in
  if handle =? -1 then None else GetParameterValue s handle len.

Definition PropertySet (s : sys) (key value : string) : sys * Z :=
  let '(s, ok) := SetParameter s key value in (s, if ok then RET_SUCCESS else RET_FAIL).

(** ** The cache *)

Section cache.
Context {T : Type} (m_converter : string -> T -> T) (m_defaultValue : T) (m_propType : PropType) (m_key : string).

Record CacheData := mkCacheData { m_handle : Z; m_commit : Z; m_sysCommit : Z; m_value : T }.

Definition new_cache : CacheData := mkCacheData (-1) (-1) (-1) m_defaultValue.

Definition getRawValue (s : sys) (handle : Z) : option string := GetParameterValue s handle HILOG_PROP_VALUE_MAX.

Definition getDirectValue (s : sys) (d : CacheData) : CacheData * T :=
  match getRawValue s (m_handle d) with
  | None => (d, m_defaultValue)
  | Some tempData =>
      let v := m_converter tempData m_defaultValue in
      (mkCacheData (m_handle d) (m_commit d) (m_sysCommit d) v, v)
  end.

Definition updateValue (s : sys) (d : CacheData) : CacheData :=
  mkCacheData (m_handle d) (m_commit d) (m_sysCommit d)
    (match getRawValue s (m_handle d) with
     | None => m_defaultValue
     | Some rawData => m_converter rawData m_defaultValue
     end).

(** [free]: the lock of the type can be taken. *)
Definition getValue (free : bool) (s : sys) (d : CacheData) : CacheData * T :=
  let sysCommitId := GetSystemCommitId s in
  if sysCommitId =? m_sysCommit d then (d, m_value d)
  else
    let d := mkCacheData (m_handle d) (m_commit d) sysCommitId (m_value d) in
    let handle := if m_handle d =? -1 then FindParameter s m_key else m_handle d in
    if handle =? -1 then (d, m_defaultValue)
    else
      let d := mkCacheData handle (m_commit d) (m_sysCommit d) (m_value d) in
      let currentCommit := i32 (GetParameterCommitId s handle) in
      if isLocked free m_propType then
        let d := if negb (currentCommit =? m_commit d) then
                   let d := updateValue s d in mkCacheData (m_handle d) currentCommit (m_sysCommit d) (m_value d)
                 else d in
        (d, m_value d)
      else getDirectValue s d.
End cache.
Arguments CacheData : clear implicits.

(** ** The caches of a process

    A static variable per switch and level, a map per kind of named level. *)

Record PropCaches := mkPropCaches {
  c_private : CacheData bool; c_onceDebug : CacheData bool; c_persistDebug : CacheData bool;
  c_process : CacheData bool; c_domainSwitch : CacheData bool;
  c_global : CacheData Z; c_persistGlobal : CacheData Z;
  c_domainMap : gmap Z (CacheData Z); c_persistDomainMap : gmap Z (CacheData Z);
  c_tagMap : gmap string (CacheData Z); c_persistTagMap : gmap string (CacheData Z);
  c_hap : option bool;                    (* IsDebuggableHap: [ret] once [isInit] *)
}.

Definition new_caches : PropCaches :=
  mkPropCaches (new_cache true) (new_cache false) (new_cache false) (new_cache false) (new_cache false)
    (new_cache LOG_LEVEL_MIN) (new_cache LOG_LEVEL_MIN) ∅ ∅ ∅ ∅ None.

(** What a call sees: the service, which locks can be taken, and the
    environment variable. *)
Record penv := mkPenv { pe_sys : sys; pe_free : PropType -> bool; pe_getenv : string -> option string }.

Definition switch_value (e : penv) (t : PropType) (defaultVal : bool) (d : CacheData bool) : CacheData bool * bool :=
  getValue TextToBool defaultVal t (GetPropertyName t) (pe_free e t) (pe_sys e) d.
Definition level_value (e : penv) (t : PropType) (suffix : string) (d : CacheData Z) : CacheData Z * Z :=
  getValue TextToLogLevel LOG_LEVEL_MIN t (GetPropertyName t +:+ suffix) (pe_free e t) (pe_sys e) d.

(** The two versions of [GetLevel]. *)
Definition GetLevel `{Countable K} (e : penv) (t : PropType) (suffix : K -> string) (map : gmap K (CacheData Z)) (key : K)
    : gmap K (CacheData Z) * Z :=
  let d := default (new_cache LOG_LEVEL_MIN) (map !! key) in
  let '(d, v) := level_value e t (suffix key) d in
  (<[key := d]> map, v).

(** Computations on the caches. *)
Definition propsM (A : Type) : Type := penv -> PropCaches -> PropCaches * A.
Definition pret {A} (a : A) : propsM A := fun _ c => (c, a).
Definition pbind {A B} (m : propsM A) (f : A -> propsM B) : propsM B := fun e c => let '(c, a) := m e c in f a e c.

Definition IsPrivateSwitchOn : propsM bool := fun e c =>
  let '(d, v) := switch_value e PROP_PRIVATE true (c_private c) in
  (mkPropCaches d (c_onceDebug c) (c_persistDebug c) (c_process c) (c_domainSwitch c) (c_global c) (c_persistGlobal c)
     (c_domainMap c) (c_persistDomainMap c) (c_tagMap c) (c_persistTagMap c) (c_hap c), v).
Definition IsOnceDebugOn : propsM bool := fun e c =>
  let '(d, v) := switch_value e PROP_ONCE_DEBUG false (c_onceDebug c) in
  (mkPropCaches (c_private c) d (c_persistDebug c) (c_process c) (c_domainSwitch c) (c_global c) (c_persistGlobal c)
     (c_domainMap c) (c_persistDomainMap c) (c_tagMap c) (c_persistTagMap c) (c_hap c), v).
Definition IsPersistDebugOn : propsM bool := fun e c =>
  let '(d, v) := switch_value e PROP_PERSIST_DEBUG false (c_persistDebug c) in
  (mkPropCaches (c_private c) (c_onceDebug c) d (c_process c) (c_domainSwitch c) (c_global c) (c_persistGlobal c)
     (c_domainMap c) (c_persistDomainMap c) (c_tagMap c) (c_persistTagMap c) (c_hap c), v).
Definition IsProcessSwitchOn : propsM bool := fun e c =>
  let '(d, v) := switch_value e PROP_PROCESS_FLOWCTRL false (c_process c) in
  (mkPropCaches (c_private c) (c_onceDebug c) (c_persistDebug c) d (c_domainSwitch c) (c_global c) (c_persistGlobal c)
     (c_domainMap c) (c_persistDomainMap c) (c_tagMap c) (c_persistTagMap c) (c_hap c), v).
Definition IsDomainSwitchOn : propsM bool := fun e c =>
  let '(d, v) := switch_value e PROP_DOMAIN_FLOWCTRL false (c_domainSwitch c) in
  (mkPropCaches (c_private c) (c_onceDebug c) (c_persistDebug c) (c_process c) d (c_global c) (c_persistGlobal c)
     (c_domainMap c) (c_persistDomainMap c) (c_tagMap c) (c_persistTagMap c) (c_hap c), v).

Definition IsDebugOn : propsM bool := pbind IsOnceDebugOn (fun b => if b : bool then pret true else IsPersistDebugOn).

Definition IsDebuggableHap : propsM bool := fun e c =>
  match c_hap c with
  | Some ret => (c, ret)
  | None =>
      match pe_getenv e HAP_DEBUGGABLE with
      | None => (c, false)
      | Some res =>
          let ret := bool_decide (res = "true") in
          (mkPropCaches (c_private c) (c_onceDebug c) (c_persistDebug c) (c_process c) (c_domainSwitch c) (c_global c)
             (c_persistGlobal c) (c_domainMap c) (c_persistDomainMap c) (c_tagMap c) (c_persistTagMap c) (Some ret), ret)
      end
  end.

Definition IsPrivateModeEnable : propsM bool :=
  pbind IsDebugOn (fun b => if b : bool then pret false
    else pbind IsDebuggableHap (fun b => if b : bool then pret false else IsPrivateSwitchOn)).

Definition GetGlobalLevel : propsM Z := fun e c =>
  let '(d, v) := level_value e PROP_GLOBAL_LOG_LEVEL "" (c_global c) in
  (mkPropCaches (c_private c) (c_onceDebug c) (c_persistDebug c) (c_process c) (c_domainSwitch c) d (c_persistGlobal c)
     (c_domainMap c) (c_persistDomainMap c) (c_tagMap c) (c_persistTagMap c) (c_hap c), v).
Definition GetPersistGlobalLevel : propsM Z := fun e c =>
  let '(d, v) := level_value e PROP_PERSIST_GLOBAL_LOG_LEVEL "" (c_persistGlobal c) in
  (mkPropCaches (c_private c) (c_onceDebug c) (c_persistDebug c) (c_process c) (c_domainSwitch c) (c_global c) d
     (c_domainMap c) (c_persistDomainMap c) (c_tagMap c) (c_persistTagMap c) (c_hap c), v).
Definition GetGlobalLogLevel : propsM Z :=
  pbind GetGlobalLevel (fun l => if l =? LOG_LEVEL_MIN then GetPersistGlobalLevel else pret l).

Definition GetDomainLevel (domain : Z) : propsM Z := fun e c =>
  let '(m, v) := GetLevel e PROP_DOMAIN_LOG_LEVEL Uint2HexStr (c_domainMap c) domain in
  (mkPropCaches (c_private c) (c_onceDebug c) (c_persistDebug c) (c_process c) (c_domainSwitch c) (c_global c)
     (c_persistGlobal c) m (c_persistDomainMap c) (c_tagMap c) (c_persistTagMap c) (c_hap c), v).
Definition GetPersistDomainLevel (domain : Z) : propsM Z := fun e c =>
  let '(m, v) := GetLevel e PROP_PERSIST_DOMAIN_LOG_LEVEL Uint2HexStr (c_persistDomainMap c) domain in
  (mkPropCaches (c_private c) (c_onceDebug c) (c_persistDebug c) (c_process c) (c_domainSwitch c) (c_global c)
     (c_persistGlobal c) (c_domainMap c) m (c_tagMap c) (c_persistTagMap c) (c_hap c), v).
Definition GetTagLevel (tag : string) : propsM Z := fun e c =>
  let '(m, v) := GetLevel e PROP_TAG_LOG_LEVEL id (c_tagMap c) tag in
  (mkPropCaches (c_private c) (c_onceDebug c) (c_persistDebug c) (c_process c) (c_domainSwitch c) (c_global c)
     (c_persistGlobal c) (c_domainMap c) (c_persistDomainMap c) m (c_persistTagMap c) (c_hap c), v).
Definition GetPersistTagLevel (tag : string) : propsM Z := fun e c =>
  let '(m, v) := GetLevel e PROP_PERSIST_TAG_LOG_LEVEL id (c_persistTagMap c) tag in
  (mkPropCaches (c_private c) (c_onceDebug c) (c_persistDebug c) (c_process c) (c_domainSwitch c) (c_global c)
     (c_persistGlobal c) (c_domainMap c) (c_persistDomainMap c) (c_tagMap c) m (c_hap c), v).

(** ** Values that are not cached *)

Definition plain_switch (s : sys) (t : PropType) : bool :=
  match PropertyGet s (GetPropertyName t) HILOG_PROP_VALUE_MAX with
  | None => false
  | Some rawData => TextToBool rawData false
  end.
Definition IsKmsgSwitchOn (s : sys) : bool := plain_switch s PROP_KMSG.
Definition IsStatsEnable (s : sys) : bool := plain_switch s PROP_STATS_ENABLE.
Definition IsTagStatsEnable (s : sys) : bool := plain_switch s PROP_STATS_TAG_ENABLE.

Definition GetBufferSizePropName (type : Z) (persist : bool) : string :=
  (if persist then "persist.sys." else "") +:+ GetPropertyName PROP_BUFFER_SIZE +:+
  (if LOG_TYPE_MAX <=? type then "global" else LogType2Str type).

(** A number, [dflt] without a value; [None] when [stoi] throws. *)
Definition number_value (s : sys) (key : string) (dflt : Z) : option Z :=
  match PropertyGet s key HILOG_PROP_VALUE_MAX with
  | None => Some dflt
  | Some value => if bool_decide (cstr value = "") then Some dflt else stoi (cstr value)
  end.

(** [size_t]. *)
Definition GetBufferSize (s : sys) (type : Z) (persist : bool) : option Z :=
  if (LOG_TYPE_MAX <? type) || (type <? LOG_TYPE_MIN) then Some 0
  else u64 <$> number_value s (GetBufferSizePropName type persist) 0.

Definition GetProcessQuota (s : sys) (proc : string) : option Z :=
  number_value s (GetPropertyName PROP_PROC_QUOTA +:+ proc) DEFAULT_QUOTA.
Definition GetDomainQuota (s : sys) (domain : Z) : option Z :=
  number_value s (GetPropertyName PROP_DOMAIN_QUOTA +:+ Uint2HexStr domain) DEFAULT_QUOTA.

(** ** Setting *)

Definition SetBoolValue (s : sys) (t : PropType) (val : bool) : sys * Z :=
  let key := GetPropertyName t in
  if bool_decide (key = "") then (s, RET_FAIL) else PropertySet s key (if val then "true" else "false").
Definition SetLevel (s : sys) (t : PropType) (suffix : string) (lvl : Z) : sys * Z :=
  let key := GetPropertyName t +:+ suffix in
  if bool_decide (key = "") then (s, RET_FAIL) else PropertySet s key (LogLevel2ShortStr lvl).

Definition SetPrivateSwitchOn (s : sys) (on : bool) := SetBoolValue s PROP_PRIVATE on.
Definition SetOnceDebugOn (s : sys) (on : bool) := SetBoolValue s PROP_ONCE_DEBUG on.
Definition SetPersistDebugOn (s : sys) (on : bool) := SetBoolValue s PROP_PERSIST_DEBUG on.
Definition SetGlobalLevel (s : sys) (lvl : Z) := SetLevel s PROP_GLOBAL_LOG_LEVEL "" lvl.
Definition SetPersistGlobalLevel (s : sys) (lvl : Z) := SetLevel s PROP_PERSIST_GLOBAL_LOG_LEVEL "" lvl.
Definition SetTagLevel (s : sys) (tag : string) (lvl : Z) := SetLevel s PROP_TAG_LOG_LEVEL tag lvl.
Definition SetPersistTagLevel (s : sys) (tag : string) (lvl : Z) := SetLevel s PROP_PERSIST_TAG_LOG_LEVEL tag lvl.
Definition SetDomainLevel (s : sys) (domain lvl : Z) := SetLevel s PROP_DOMAIN_LOG_LEVEL (Uint2HexStr domain) lvl.
Definition SetPersistDomainLevel (s : sys) (domain lvl : Z) :=
  SetLevel s PROP_PERSIST_DOMAIN_LOG_LEVEL (Uint2HexStr domain) lvl.
Definition SetProcessSwitchOn (s : sys) (on : bool) := SetBoolValue s PROP_PROCESS_FLOWCTRL on.
Definition SetDomainSwitchOn (s : sys) (on : bool) := SetBoolValue s PROP_DOMAIN_FLOWCTRL on.
Definition SetKmsgSwitchOn (s : sys) (on : bool) := SetBoolValue s PROP_KMSG on.
Definition SetBufferSize (s : sys) (type : Z) (persist : bool) (size : Z) : sys * Z :=
  if (LOG_TYPE_MAX <? type) || (type <? LOG_TYPE_MIN) then (s, RET_FAIL)
  else PropertySet s (GetBufferSizePropName type persist) (to_string size).
End props.
Arguments CacheData : clear implicits.

(** * Lemmas and properties *)

(** What the parameter service promises: [later] is the passage of time. *)
Class ParamLaws (PS : ParamService) := {
  value_of : sys -> string -> option string;
  later : sys -> sys -> Prop;
  later_refl s : later s s;
  later_trans s1 s2 s3 : later s1 s2 -> later s2 s3 -> later s1 s3;
  find_none s k : FindParameter s k = -1 <-> value_of s k = None;
  find_stable s s' k : later s s' -> FindParameter s k <> -1 -> FindParameter s' k = FindParameter s k;
  get_value s k v len : value_of s k = Some v ->
    GetParameterValue s (FindParameter s k) len = if slen v <? len then Some v else None;
  sys_commit s s' : later s s' -> 0 <= GetSystemCommitId s <= GetSystemCommitId s' /\
    (GetSystemCommitId s = GetSystemCommitId s' -> forall k, value_of s k = value_of s' k);
  par_commit s s' k : later s s' -> FindParameter s k <> -1 ->
    let h := FindParameter s k in
    0 <= GetParameterCommitId s h <= GetParameterCommitId s' h /\ GetParameterCommitId s' h < 2 ^ 31 /\
    (GetParameterCommitId s h = GetParameterCommitId s' h -> value_of s k = value_of s' k);
  set_param s k v s' ok : SetParameter s k v = (s', ok) -> later s s' /\
    forall k', value_of s' k' = if ok && bool_decide (k' = cstr k) then Some (cstr v) else value_of s k';
}.

(** ** The cache is transparent *)

Section cache_props.
Context {PS : ParamService} {PL : ParamLaws PS} {T : Type} (conv : string -> T -> T) (dflt : T) (t : PropType) (key : string).
Hypothesis Hlock : has_lock t = true.

(** What reading the service directly gives. *)
Definition fresh (s : sys) : T :=
  match value_of s key with
  | Some v => if slen v <? HILOG_PROP_VALUE_MAX then conv v dflt else dflt
  | None => dflt
  end.

Definition fits (s : sys) : Prop := match value_of s key with Some v => slen v < HILOG_PROP_VALUE_MAX | None => True end.

Record cache_inv (d : CacheData T) (s : sys) : Prop := {
  ci_handle : m_handle d = -1 /\ m_commit d = -1 /\ m_value d = dflt \/
              FindParameter s key <> -1 /\ m_handle d = FindParameter s key;
  ci_sys : m_sysCommit d = -1 \/
           exists s0, later s0 s /\ m_sysCommit d = GetSystemCommitId s0 /\ m_value d = fresh s0;
  ci_commit : m_commit d = -1 \/
              exists s1 s2, later s1 s2 /\ later s2 s /\ FindParameter s1 key <> -1 /\
                m_commit d = GetParameterCommitId s1 (FindParameter s1 key) /\ m_value d = fresh s2;
}.

Lemma fresh_eq s s' : value_of s key = value_of s' key -> fresh s = fresh s'.
Proof. unfold fresh. by intros ->. Qed.

Lemma cache_inv_later d s s' : cache_inv d s -> later s s' -> cache_inv d s'.
Proof.
  intros [Hh Hs Hc] Hl. split.
  - destruct Hh as [?|[Hf Hh]]; [by left|]. right. by rewrite (find_stable s s' key Hl Hf).
  - destruct Hs as [?|(s0 & H0 & ?)]; [by left|]. right. exists s0. split; [by eapply later_trans | done].
  - destruct Hc as [?|(s1 & s2 & H1 & H2 & ?)]; [by left|]. right. exists s1, s2. split; [done|].
    split; [by eapply later_trans | done].
Qed.

Lemma raw_fresh s : FindParameter s key <> -1 ->
  match getRawValue s (FindParameter s key) with Some raw => conv raw dflt | None => dflt end = fresh s.
Proof.
  intros Hf. unfold getRawValue, fresh. destruct (value_of s key) as [v|] eqn:E; [|by apply find_none in E].
  rewrite (get_value s key v) by done. by destruct (_ <? _).
Qed.

Lemma isLocked_free free : isLocked free t = free.
Proof. unfold isLocked, LockByProp. rewrite Hlock. by destruct free. Qed.

Lemma commit_i32 s : FindParameter s key <> -1 ->
  i32 (GetParameterCommitId s (FindParameter s key)) = GetParameterCommitId s (FindParameter s key) /\
  0 <= GetParameterCommitId s (FindParameter s key).
Proof.
  intros Hf. destruct (par_commit s s key (later_refl s) Hf) as ([H0 _] & H1 & _).
  split; [|done]. apply wraps_small; [lia|]. split; [lia|]. exact H1.
Qed.

Lemma getValue_fresh free s d :
  cache_inv d s -> free = true \/ fits s ->
  let '(d', v) := getValue conv dflt t key free s d in v = fresh s /\ cache_inv d' s.
Proof.
  intros [Hh Hs Hc] Hfit. unfold getValue. destruct (sys_commit s s (later_refl s)) as ([Hs0 _] & _).
  destruct (Z.eqb_spec (GetSystemCommitId s) (m_sysCommit d)) as [E|E].
  { split; [|by split]. destruct Hs as [Hs|(s0 & H0 & Hs & ->)]; [lia|].
    apply fresh_eq. destruct (sys_commit s0 s H0) as [_ H]. apply H. lia. }
  cbn [m_handle m_commit m_sysCommit m_value].
  set (handle := if m_handle d =? -1 then _ else _).
  assert (handle = FindParameter s key) as Hhandle.
  { unfold handle. destruct Hh as [(-> & _)|[Hf ->]]; [done|]. by destruct (Z.eqb_spec (FindParameter s key) (-1)). }
  rewrite Hhandle. clear handle Hhandle.
  destruct (Z.eqb_spec (FindParameter s key) (-1)) as [Ef|Ef].
  { assert (fresh s = dflt) as Hd by (apply find_none in Ef; unfold fresh; by rewrite Ef).
    destruct Hh as [(H1 & H2 & H3)|[? _]]; [|done]. split; [done|]. split; cbn [m_handle m_commit m_sysCommit m_value].
    - by left.
    - right. exists s. split; [apply later_refl|]. split; [done|]. by rewrite Hd.
    - by left. }
  destruct (commit_i32 s Ef) as [Hi Hci]. rewrite isLocked_free, Hi. destruct free.
  - destruct (Z.eqb_spec (GetParameterCommitId s (FindParameter s key)) (m_commit d)) as [Ec|Ec];
      cbn [negb updateValue m_handle m_commit m_sysCommit m_value].
    + assert (m_value d = fresh s) as Hv.
      { destruct Hc as [?|(s1 & s2 & H1 & H2 & Hf1 & Hc1 & ->)]; [lia|]. apply fresh_eq.
        pose proof (find_stable s1 s2 key H1 Hf1) as Hs2. pose proof (find_stable s2 s key H2) as Hs3.
        rewrite Hs2 in Hs3. specialize (Hs3 Hf1). rewrite Hs3 in Ec.
        destruct (par_commit s1 s2 key H1 Hf1) as ([_ Hle1] & _ & _).
        destruct (par_commit s2 s key H2) as ([_ Hle2] & _ & Heq); [by rewrite Hs2|]. rewrite Hs2 in Hle2, Heq.
        apply Heq. lia. }
      split; [done|]. split; cbn [m_handle m_commit m_sysCommit m_value].
      * by right.
      * right. exists s. split; [apply later_refl | done].
      * right. exists s, s. repeat (split; [apply later_refl || done|]). done.
    + rewrite raw_fresh by done. split; [done|]. split; cbn [m_handle m_commit m_sysCommit m_value].
      * by right.
      * right. exists s. split; [apply later_refl | done].
      * right. exists s, s. repeat (split; [apply later_refl || done|]). done.
  - unfold getDirectValue. cbn [m_handle]. destruct Hfit as [?|Hfit]; [done|].
    pose proof (raw_fresh s Ef) as Hr. unfold fits in Hfit. unfold getRawValue in *.
    destruct (value_of s key) as [v|] eqn:Ev; [|by apply find_none in Ev].
    rewrite (get_value s key v) in * by done. destruct (Z.ltb_spec (slen v) HILOG_PROP_VALUE_MAX) as [_|?]; [|lia].
    rewrite Hr. split; [done|]. split; cbn [m_handle m_commit m_sysCommit m_value].
    + by right.
    + right. exists s. split; [apply later_refl | done].
    + destruct Hc as [?|(s1 & s2 & H1 & H2 & Hf1 & Hc1 & _)]; [by left|]. right. exists s1, s.
      split; [by eapply later_trans|]. split; [apply later_refl | done].
Qed.

Lemma new_cache_inv s : cache_inv (new_cache dflt) s.
Proof. split; by left. Qed.

(** The results of a sequence of calls; the service changes between them. *)
Fixpoint calls (d : CacheData T) (l : list (sys * bool)) : list T :=
  match l with
  | [] => []
  | (s, free) :: l => let '(d, v) := getValue conv dflt t key free s d in v :: calls d l
  end.

Fixpoint chain (s : sys) (l : list (sys * bool)) : Prop :=
  match l with
  | [] => True
  | (s', free) :: l => later s s' /\ (free = true \/ fits s') /\ chain s' l
  end.

Lemma calls_fresh s d l : cache_inv d s -> chain s l -> calls d l = (fun c => fresh c.1) <$> l.
Proof using Hlock PL.
  revert s d. induction l as [|[s' free] l IH]; intros s d Hinv Hl; [done|]. destruct Hl as (Hlat & Hfit & Hl).
  pose proof (getValue_fresh free s' d (cache_inv_later d s s' Hinv Hlat) Hfit) as Hg.
  simpl. destruct (getValue conv dflt t key free s' d) as [d' v]. destruct Hg as [-> Hinv'].
  by rewrite (IH s' d' Hinv' Hl).
Qed.

(** C16: the cache of system parameters is transparent to calls that come one
    after the other: whatever happens to the parameters between the calls and
    whether or not the lock can be taken (when it cannot, the value has to fit
    in the buffer of the reader), each call returns what reading and converting
    the current value gives.  Calls that overlap are another matter, see
    [cache_race_loses_update]. *)
Theorem cache_transparent s l : chain s l -> calls (new_cache dflt) l = (fun c => fresh c.1) <$> l.
Proof using Hlock PL. apply calls_fresh, new_cache_inv. Qed.
End cache_props.

(** ** A parameter service

    The history of accepted sets, newest first; a handle is the position of
    the first set of its key. *)

Definition history : Type := list (string * string).
Definition short_history (h : history) : bool := Z.of_nat (length h) <? 2 ^ 31.

Fixpoint hist_value (h : history) (k : string) : option string :=
  match h with
  | [] => None
  | (k', v) :: h => if decide (k = k') then Some v else hist_value h k
  end.
Fixpoint hist_find (h : history) (k : string) : Z :=
  match h with
  | [] => -1
  | (k', _) :: h' =>
      let r := hist_find h' k in
      if r =? -1 then (if decide (k = k') then Z.of_nat (length h') else -1) else r
  end.
Fixpoint hist_count (h : history) (k : string) : Z :=
  match h with
  | [] => 0
  | (k', _) :: h => (if decide (k = k') then 1 else 0) + hist_count h k
  end.
Definition hist_key (h : history) (handle : Z) : option string := fst <$> (reverse h !! Z.to_nat handle).

Definition hist_state : Type := { h : history | short_history h = true }.
Definition hist_set (s : hist_state) (k v : string) : hist_state * bool :=
  let h' := (cstr k, cstr v) :: proj1_sig s in
  match decide (short_history h' = true) with
  | left H => (exist _ h' H, true)
  | right _ => (s, false)
  end.

#[export] Instance hist_service : ParamService := {|
  sys := hist_state;
  FindParameter s k := hist_find (proj1_sig s) k;
  GetParameterValue s handle len :=
    k ← hist_key (proj1_sig s) handle; v ← hist_value (proj1_sig s) k; if slen v <? len then Some v else None;
  GetParameterCommitId s handle := default 0 (hist_count (proj1_sig s) <$> hist_key (proj1_sig s) handle);
  GetSystemCommitId s := Z.of_nat (length (proj1_sig s));
  SetParameter := hist_set;
|}.

Lemma hist_find_range h k : hist_find h k = -1 \/ 0 <= hist_find h k < Z.of_nat (length h).
Proof.
  induction h as [|[k' v] h IH]; [by left|]. cbn [hist_find length]. destruct (Z.eqb_spec (hist_find h k) (-1)).
  - destruct (decide _); [right; lia | by left].
  - right. lia.
Qed.

Lemma hist_find_none h k : hist_find h k = -1 <-> hist_value h k = None.
Proof.
  induction h as [|[k' v] h IH]; [done|]. cbn [hist_find hist_value].
  destruct (Z.eqb_spec (hist_find h k) (-1)) as [E|E]; destruct (decide (k = k')); rewrite <- ?IH; intuition (lia || done).
Qed.

Lemma hist_find_key h k : hist_find h k <> -1 -> hist_key h (hist_find h k) = Some k.
Proof.
  unfold hist_key. induction h as [|[k' v] h IH]; [done|]. cbn [hist_find]. rewrite reverse_cons.
  destruct (Z.eqb_spec (hist_find h k) (-1)) as [E|E].
  - destruct (decide (k = k')) as [->|]; [|done]. intros _. rewrite Nat2Z.id, lookup_app_r; rewrite length_reverse; [|lia].
    by rewrite Nat.sub_diag.
  - intros _. specialize (IH E). rewrite lookup_app_l; [done|]. rewrite length_reverse.
    destruct (hist_find_range h k); lia.
Qed.

Lemma hist_find_app l h k : hist_find h k <> -1 -> hist_find (l ++ h) k = hist_find h k.
Proof.
  intros Hf. induction l as [|[k' v] l IH]; [done|]. simpl. rewrite IH. by destruct (Z.eqb_spec (hist_find h k) (-1)).
Qed.

Lemma hist_count_range h k : 0 <= hist_count h k <= Z.of_nat (length h).
Proof. induction h as [|[k' v] h IH]; [done|]. cbn [hist_count length]. destruct (decide _); lia. Qed.

Lemma hist_count_app l h k :
  hist_count h k <= hist_count (l ++ h) k /\ (hist_count h k = hist_count (l ++ h) k -> hist_value h k = hist_value (l ++ h) k).
Proof.
  induction l as [|[k' v] l [IH1 IH2]]; [done|]. simpl. destruct (decide (k = k')); [lia|].
  split; [lia|]. intros E. apply IH2. lia.
Qed.

#[export] Instance hist_laws : ParamLaws hist_service.
Proof.
  refine (Build_ParamLaws hist_service (fun s k => hist_value (proj1_sig s) k)
            (fun s s' => exists l, proj1_sig s' = l ++ proj1_sig s) _ _ _ _ _ _ _ _); cbn.
  - intros s. by exists [].
  - intros s1 s2 s3 [l1 E1] [l2 E2]. exists (l2 ++ l1). by rewrite E2, E1, app_assoc.
  - intros s k. apply hist_find_none.
  - intros s s' k [l ->]. apply hist_find_app.
  - intros s k v len Hv. rewrite hist_find_key; [cbn; by rewrite Hv|]. by rewrite hist_find_none, Hv.
  - intros s s' [l ->]. rewrite length_app. split; [lia|]. intros E k.
    assert (l = []) as -> by (apply length_zero_iff_nil; lia). done.
  - intros s s' k [l E] Hf. pose proof (proj2_sig s') as Hs'. apply Z.ltb_lt in Hs'.
    assert (hist_count (proj1_sig s') k < 2 ^ 31) as Hlt by (pose proof (hist_count_range (proj1_sig s') k); lia).
    rewrite E in *.
    assert (hist_key (l ++ proj1_sig s) (hist_find (proj1_sig s) k) = Some k) as Hk.
    { rewrite <- (hist_find_app l (proj1_sig s) k Hf). apply hist_find_key. by rewrite hist_find_app. }
    rewrite Hk, (hist_find_key _ _ Hf). cbn. pose proof (hist_count_range (proj1_sig s) k).
    destruct (hist_count_app l (proj1_sig s) k). split; [lia|]. by split.
  - intros s k v s' ok. unfold hist_set. destruct (decide _) as [H|H]; intros [= <- <-]; cbn.
    + split; [by exists [(cstr k, cstr v)]|]. intros k'. by destruct (decide (k' = cstr k)) as [->|];
        [rewrite bool_decide_true | rewrite bool_decide_false].
    + split; [by exists []|done].
Defined.

(** ** The caches of a process *)

Section process.
Context {PS : ParamService} {PL : ParamLaws PS}.

Definition switch_ok (t : PropType) (dflt : bool) (s : sys) (d : CacheData bool) : Prop :=
  cache_inv TextToBool dflt (GetPropertyName t) d s.
Definition level_ok (t : PropType) (suffix : string) (s : sys) (d : CacheData Z) : Prop :=
  cache_inv TextToLogLevel LOG_LEVEL_MIN (GetPropertyName t +:+ suffix) d s.

Record caches_ok (c : PropCaches) (s : sys) : Prop := {
  co_private : switch_ok PROP_PRIVATE true s (c_private c);
  co_onceDebug : switch_ok PROP_ONCE_DEBUG false s (c_onceDebug c);
  co_persistDebug : switch_ok PROP_PERSIST_DEBUG false s (c_persistDebug c);
  co_process : switch_ok PROP_PROCESS_FLOWCTRL false s (c_process c);
  co_domainSwitch : switch_ok PROP_DOMAIN_FLOWCTRL false s (c_domainSwitch c);
  co_global : level_ok PROP_GLOBAL_LOG_LEVEL "" s (c_global c);
  co_persistGlobal : level_ok PROP_PERSIST_GLOBAL_LOG_LEVEL "" s (c_persistGlobal c);
  co_domainMap : map_Forall (fun k => level_ok PROP_DOMAIN_LOG_LEVEL (Uint2HexStr k) s) (c_domainMap c);
  co_persistDomainMap : map_Forall (fun k => level_ok PROP_PERSIST_DOMAIN_LOG_LEVEL (Uint2HexStr k) s) (c_persistDomainMap c);
  co_tagMap : map_Forall (fun k => level_ok PROP_TAG_LOG_LEVEL k s) (c_tagMap c);
  co_persistTagMap : map_Forall (fun k => level_ok PROP_PERSIST_TAG_LOG_LEVEL k s) (c_persistTagMap c);
}.

(** The values fit into the buffer of the reader. *)
Definition short_values (s : sys) : Prop := forall k v, value_of s k = Some v -> slen v < HILOG_PROP_VALUE_MAX.

Definition the_switch (t : PropType) (dflt : bool) (s : sys) : bool := fresh TextToBool dflt (GetPropertyName t) s.
Definition the_level (t : PropType) (suffix : string) (s : sys) : Z :=
  fresh TextToLogLevel LOG_LEVEL_MIN (GetPropertyName t +:+ suffix) s.

(** A getter returns what is in force and keeps the caches in order. *)
Definition getter_ok {A} (m : propsM A) (f : penv -> PropCaches -> A) : Prop := forall e c,
  short_values (pe_sys e) -> caches_ok c (pe_sys e) ->
  let '(c', v) := m e c in v = f e c /\ caches_ok c' (pe_sys e) /\ c_hap c' = c_hap c.

Lemma fits_short s key : short_values s -> fits key s.
Proof. intros Hs. unfold fits. destruct (value_of s key) eqn:E; [by eapply Hs | done]. Qed.

Lemma switch_value_ok e t dflt d :
  has_lock t = true -> short_values (pe_sys e) -> switch_ok t dflt (pe_sys e) d ->
  let '(d', v) := switch_value e t dflt d in v = the_switch t dflt (pe_sys e) /\ switch_ok t dflt (pe_sys e) d'.
Proof. intros Ht Hs Hd. apply getValue_fresh; [done | done | right; by apply fits_short]. Qed.

Lemma level_value_ok e t suffix d :
  has_lock t = true -> short_values (pe_sys e) -> level_ok t suffix (pe_sys e) d ->
  let '(d', v) := level_value e t suffix d in v = the_level t suffix (pe_sys e) /\ level_ok t suffix (pe_sys e) d'.
Proof. intros Ht Hs Hd. apply getValue_fresh; [done | done | right; by apply fits_short]. Qed.

Lemma GetLevel_ok `{Countable K} e t (suffix : K -> string) m k :
  has_lock t = true -> short_values (pe_sys e) -> map_Forall (fun k => level_ok t (suffix k) (pe_sys e)) m ->
  let '(m', v) := GetLevel e t suffix m k in
  v = the_level t (suffix k) (pe_sys e) /\ map_Forall (fun k => level_ok t (suffix k) (pe_sys e)) m'.
Proof.
  intros Ht Hs Hm. unfold GetLevel. set (d := default _ _).
  assert (level_ok t (suffix k) (pe_sys e) d) as Hd.
  { unfold d. destruct (m !! k) as [d'|] eqn:E; [by apply Hm | apply new_cache_inv]. }
  pose proof (level_value_ok e t (suffix k) d Ht Hs Hd) as Hv. destruct (level_value e t (suffix k) d) as [d' v].
  destruct Hv as [-> Hd']. split; [done|]. by apply map_Forall_insert_2.
Qed.

Tactic Notation "getter" reference(m) :=
  intros e c Hs []; unfold m;
  match goal with
  | |- context [switch_value e ?t ?dflt ?d] =>
      pose proof (switch_value_ok e t dflt d eq_refl Hs ltac:(assumption)); destruct (switch_value e t dflt d)
  | |- context [level_value e ?t ?x ?d] =>
      pose proof (level_value_ok e t x d eq_refl Hs ltac:(assumption)); destruct (level_value e t x d)
  | |- context [GetLevel e ?t ?x ?m ?k] =>
      pose proof (GetLevel_ok e t x m k eq_refl Hs ltac:(assumption)); destruct (GetLevel e t x m k)
  end; destruct_and!; split; [done|]; split; [by split | done].

Lemma IsPrivateSwitchOn_ok : getter_ok IsPrivateSwitchOn (fun e _ => the_switch PROP_PRIVATE true (pe_sys e)).
Proof. getter IsPrivateSwitchOn. Qed.
Lemma IsOnceDebugOn_ok : getter_ok IsOnceDebugOn (fun e _ => the_switch PROP_ONCE_DEBUG false (pe_sys e)).
Proof. getter IsOnceDebugOn. Qed.
Lemma IsPersistDebugOn_ok : getter_ok IsPersistDebugOn (fun e _ => the_switch PROP_PERSIST_DEBUG false (pe_sys e)).
Proof. getter IsPersistDebugOn. Qed.
Lemma IsProcessSwitchOn_ok : getter_ok IsProcessSwitchOn (fun e _ => the_switch PROP_PROCESS_FLOWCTRL false (pe_sys e)).
Proof. getter IsProcessSwitchOn. Qed.
Lemma IsDomainSwitchOn_ok : getter_ok IsDomainSwitchOn (fun e _ => the_switch PROP_DOMAIN_FLOWCTRL false (pe_sys e)).
Proof. getter IsDomainSwitchOn. Qed.
Lemma GetGlobalLevel_ok : getter_ok GetGlobalLevel (fun e _ => the_level PROP_GLOBAL_LOG_LEVEL "" (pe_sys e)).
Proof. getter GetGlobalLevel. Qed.
Lemma GetPersistGlobalLevel_ok :
  getter_ok GetPersistGlobalLevel (fun e _ => the_level PROP_PERSIST_GLOBAL_LOG_LEVEL "" (pe_sys e)).
Proof. getter GetPersistGlobalLevel. Qed.
Lemma GetDomainLevel_ok d :
  getter_ok (GetDomainLevel d) (fun e _ => the_level PROP_DOMAIN_LOG_LEVEL (Uint2HexStr d) (pe_sys e)).
Proof. getter GetDomainLevel. Qed.
Lemma GetPersistDomainLevel_ok d :
  getter_ok (GetPersistDomainLevel d) (fun e _ => the_level PROP_PERSIST_DOMAIN_LOG_LEVEL (Uint2HexStr d) (pe_sys e)).
Proof. getter GetPersistDomainLevel. Qed.
Lemma GetTagLevel_ok tag : getter_ok (GetTagLevel tag) (fun e _ => the_level PROP_TAG_LOG_LEVEL tag (pe_sys e)).
Proof. getter GetTagLevel. Qed.
Lemma GetPersistTagLevel_ok tag :
  getter_ok (GetPersistTagLevel tag) (fun e _ => the_level PROP_PERSIST_TAG_LOG_LEVEL tag (pe_sys e)).
Proof. getter GetPersistTagLevel. Qed.

Definition hap_debuggable (e : penv) (c : PropCaches) : bool :=
  match c_hap c with
  | Some ret => ret
  | None => bool_decide (pe_getenv e HAP_DEBUGGABLE = Some "true")
  end.

Lemma IsDebugOn_ok :
  getter_ok IsDebugOn (fun e _ => the_switch PROP_ONCE_DEBUG false (pe_sys e) || the_switch PROP_PERSIST_DEBUG false (pe_sys e)).
Proof.
  intros e c Hs Hc. unfold IsDebugOn, pbind. pose proof (IsOnceDebugOn_ok e c Hs Hc) as H.
  destruct (IsOnceDebugOn e c) as [c1 b]. destruct H as (-> & Hc1 & Hh). destruct (the_switch PROP_ONCE_DEBUG _ _); [done|].
  pose proof (IsPersistDebugOn_ok e c1 Hs Hc1) as H. destruct (IsPersistDebugOn e c1) as [c2 b2].
  destruct H as (-> & Hc2 & Hh2). split; [done|]. split; [done | congruence].
Qed.

Lemma IsDebuggableHap_ok e c :
  caches_ok c (pe_sys e) -> let '(c', v) := IsDebuggableHap e c in v = hap_debuggable e c /\ caches_ok c' (pe_sys e).
Proof.
  intros Hc. unfold IsDebuggableHap, hap_debuggable. destruct (c_hap c) as [r|]; [done|].
  destruct (pe_getenv e HAP_DEBUGGABLE) as [v|]; [|by rewrite (bool_decide_false (None = _)) by done].
  split; [by apply bool_decide_ext; split; congruence|]. by destruct Hc; split.
Qed.

(** Private arguments are hidden unless the device is in debug mode, the
    application is debuggable, or the switch is off. *)
Lemma IsPrivateModeEnable_ok e c :
  short_values (pe_sys e) -> caches_ok c (pe_sys e) ->
  let '(c', v) := IsPrivateModeEnable e c in
  v = negb (the_switch PROP_ONCE_DEBUG false (pe_sys e)) && negb (the_switch PROP_PERSIST_DEBUG false (pe_sys e)) &&
      negb (hap_debuggable e c) && the_switch PROP_PRIVATE true (pe_sys e) /\ caches_ok c' (pe_sys e).
Proof.
  intros Hs Hc. unfold IsPrivateModeEnable, pbind. pose proof (IsDebugOn_ok e c Hs Hc) as H.
  destruct (IsDebugOn e c) as [c1 b]. destruct H as (-> & Hc1 & Hh). rewrite <- negb_orb.
  destruct (the_switch PROP_ONCE_DEBUG _ _ || the_switch PROP_PERSIST_DEBUG _ _); [done|].
  pose proof (IsDebuggableHap_ok e c1 Hc1) as H. destruct (IsDebuggableHap e c1) as [c2 b2]. destruct H as (-> & Hc2).
  assert (hap_debuggable e c1 = hap_debuggable e c) as -> by (unfold hap_debuggable; by rewrite Hh).
  destruct (hap_debuggable e c); [done|].
  pose proof (IsPrivateSwitchOn_ok e c2 Hs Hc2) as H. destruct (IsPrivateSwitchOn e c2) as [c3 b3].
  destruct H as (-> & Hc3 & _). done.
Qed.

Lemma caches_ok_later c s s' : caches_ok c s -> later s s' -> caches_ok c s'.
Proof.
  intros [] Hl. split; try (eapply cache_inv_later; eassumption);
    (eapply map_Forall_impl; [eassumption|]; intros k d Hd; unfold level_ok in *; eapply cache_inv_later; eassumption).
Qed.

Lemma new_caches_ok s : caches_ok new_caches s.
Proof. split; try apply new_cache_inv; apply map_Forall_empty. Qed.

(** *** Setting *)

Lemma PropertySet_ok s k v s' :
  PropertySet s k v = (s', RET_SUCCESS) -> later s s' /\
    forall k', value_of s' k' = if bool_decide (k' = cstr k) then Some (cstr v) else value_of s k'.
Proof.
  unfold PropertySet. destruct (SetParameter s k v) as [s1 ok] eqn:E. destruct (set_param s k v s1 ok E) as [Hl Hv].
  destruct ok; [|done]. intros [= <-]. by split.
Qed.

Lemma str_forall_no_char (p : ascii -> bool) c s : str_forall p s = true -> p c = false -> no_char c s.
Proof.
  intros Hs Hc. induction s as [|d s IH]; [apply not_elem_of_nil|]. simpl in Hs. apply andb_true_iff in Hs as [Hd Hs].
  apply no_char_cons. split; [intros ->; congruence | by apply IH].
Qed.

Lemma hex_no_nul d : no_char NUL (Uint2HexStr d).
Proof. eapply str_forall_no_char; [by apply Num2Str_hex | done]. Qed.

Lemma hex_inj a b : 0 <= a -> 0 <= b -> Uint2HexStr a = Uint2HexStr b -> a = b.
Proof.
  intros Ha Hb E. pose proof (Num2Str_read 16 ltac:(lia) a "" Ha) as Hra. unfold Uint2HexStr in E.
  rewrite E, (Num2Str_read 16 ltac:(lia) b "" Hb) in Hra. by simpl in Hra.
Qed.

Lemma name_no_nul t : no_char NUL (GetPropertyName t).
Proof. destruct t; apply (bool_decide_unpack _); by vm_compute. Qed.

Lemma level_text lvl : lvl ∈ GetAllKeys g_ShortLogLevels ->
  cstr (LogLevel2ShortStr lvl) = LogLevel2ShortStr lvl /\ slen (LogLevel2ShortStr lvl) = 1 /\
  TextToLogLevel (LogLevel2ShortStr lvl) LOG_LEVEL_MIN = lvl.
Proof.
  intros Hl. assert (Forall (fun lvl => cstr (LogLevel2ShortStr lvl) = LogLevel2ShortStr lvl /\
    slen (LogLevel2ShortStr lvl) = 1 /\ TextToLogLevel (LogLevel2ShortStr lvl) LOG_LEVEL_MIN = lvl)
    (GetAllKeys g_ShortLogLevels)) as H by (repeat constructor).
  eapply Forall_forall in H; [exact H | done].
Qed.

Lemma SetLevel_get s t suffix lvl s' :
  no_char NUL suffix -> lvl ∈ GetAllKeys g_ShortLogLevels -> SetLevel s t suffix lvl = (s', RET_SUCCESS) ->
  later s s' /\ the_level t suffix s' = lvl /\
  (forall t' suffix', GetPropertyName t' +:+ suffix' <> GetPropertyName t +:+ suffix ->
     the_level t' suffix' s' = the_level t' suffix' s).
Proof.
  intros Hn Hl. unfold SetLevel. destruct (bool_decide _); [done|]. intros [Hlat Hv]%PropertySet_ok.
  rewrite cstr_id in Hv by (apply no_char_app; [apply name_no_nul | done]).
  destruct (level_text lvl Hl) as (Hc & Hlen & Ht). split; [done|]. split.
  - unfold the_level, fresh. rewrite Hv, bool_decide_true, Hc by done. by rewrite Hlen.
  - intros t' suffix' Hne. unfold the_level. apply fresh_eq. by rewrite Hv, bool_decide_false.
Qed.

Lemma SetBool_get s t on s' dflt :
  SetBoolValue s t on = (s', RET_SUCCESS) -> later s s' /\ the_switch t dflt s' = on.
Proof.
  unfold SetBoolValue. destruct (bool_decide _); [done|]. intros [Hlat Hv]%PropertySet_ok. split; [done|].
  rewrite cstr_id in Hv by apply name_no_nul. unfold the_switch, fresh. rewrite Hv, bool_decide_true by done. by destruct on.
Qed.

Lemma stoi_number z : 0 <= z < 2 ^ 31 -> stoi (to_string z) = Some z.
Proof.
  intros Hz. unfold to_string. destruct (Z.ltb_spec z 0); [lia|].
  destruct (Num2Str_head 10 ltac:(lia) z) as (d & s & Hd & Es); [lia|].
  pose proof (Num2Str_read 10 ltac:(lia) z "" ltac:(lia)) as Hread. rewrite str_app_nil_r in Hread. cbn [read_digits] in Hread.
  pose proof (Num2Str_digits z) as Hdig. rewrite Es in *. cbn [str_forall] in Hdig. apply andb_true_iff in Hdig as [Hdig _].
  unfold stoi. cbn [skip_space].
  assert (is_space (digit_chr d) = false) as -> by (unfold is_space, is_digit in *; lia).
  assert (forall c, is_digit c = false -> digit_chr d <> c) as Hne by (intros c Hc <-; congruence).
  cbn [take_sign]. rewrite !decide_False by (by apply Hne). rewrite Hdig, Hread. simpl.
  destruct (_ && _) eqn:E; [done|lia].
Qed.

(** What is set is in force from then on: after a successful set of the
    private switch, of the level of a domain or a tag, or of a buffer size, the
    getters, cached values included, return exactly what was set, and the
    levels of all other domains stay as they were. *)
Theorem settings_take_effect c s s' e :
  caches_ok c s -> pe_sys e = s' -> short_values s' ->
  (forall on, SetPrivateSwitchOn s on = (s', RET_SUCCESS) -> (IsPrivateSwitchOn e c).2 = on) /\
  (forall d lvl, 0 <= d -> lvl ∈ GetAllKeys g_ShortLogLevels -> SetDomainLevel s d lvl = (s', RET_SUCCESS) ->
     (GetDomainLevel d e c).2 = lvl /\
     forall d', 0 <= d' -> d' <> d -> (GetDomainLevel d' e c).2 = the_level PROP_DOMAIN_LOG_LEVEL (Uint2HexStr d') s) /\
  (forall tag lvl, no_char NUL tag -> lvl ∈ GetAllKeys g_ShortLogLevels -> SetTagLevel s tag lvl = (s', RET_SUCCESS) ->
     (GetTagLevel tag e c).2 = lvl) /\
  (forall type persist size, LOG_TYPE_MIN <= type <= LOG_TYPE_MAX -> 0 <= size < 2 ^ 31 ->
     SetBufferSize s type persist size = (s', RET_SUCCESS) -> GetBufferSize s' type persist = Some size).
Proof.
  intros Hc <- Hs. repeat split_and; [| | |].
  - intros on [Hl Hg]%(SetBool_get _ _ _ _ true). pose proof (IsPrivateSwitchOn_ok e c Hs (caches_ok_later _ _ _ Hc Hl)) as H.
    destruct (IsPrivateSwitchOn e c). by destruct H as (-> & _).
  - intros d lvl Hd Hlvl H. destruct (SetLevel_get _ _ _ _ _ (hex_no_nul d) Hlvl H) as (Hl & Hg & Ho).
    pose proof (fun d' => GetDomainLevel_ok d' e c Hs (caches_ok_later _ _ _ Hc Hl)) as Hget. split.
    + specialize (Hget d). destruct (GetDomainLevel d e c). by destruct Hget as (-> & _).
    + intros d' Hd' Hne. specialize (Hget d'). destruct (GetDomainLevel d' e c). destruct Hget as (-> & _).
      apply Ho. intros E%(inj (String.app _)). by apply hex_inj in E.
  - intros tag lvl Hn Hlvl H. destruct (SetLevel_get _ _ _ _ _ Hn Hlvl H) as (Hl & Hg & _).
    pose proof (GetTagLevel_ok tag e c Hs (caches_ok_later _ _ _ Hc Hl)) as Hget.
    destruct (GetTagLevel tag e c). by destruct Hget as (-> & _).
  - intros type persist size Ht Hsz. unfold SetBufferSize, GetBufferSize. destruct (_ || _); [done|].
    set (k := GetBufferSizePropName type persist). intros [Hl Hv]%PropertySet_ok.
    assert (no_char NUL k) as Hk.
    { unfold k, GetBufferSizePropName. repeat apply no_char_app; [|apply name_no_nul|].
      - destruct persist; apply (bool_decide_unpack _); by vm_compute.
      - destruct (_ <=? _); [apply (bool_decide_unpack _); by vm_compute|].
        unfold LogType2Str, GetValue. simpl. repeat destruct (decide _); apply (bool_decide_unpack _); by vm_compute. }
    rewrite (cstr_id k Hk) in Hv.
    assert (cstr (to_string size) = to_string size) as Hcs.
    { apply cstr_id. unfold to_string. destruct (Z.ltb_spec size 0); [lia|].
      eapply str_forall_no_char; [apply Num2Str_digits | done]. }
    assert (value_of (pe_sys e) k = Some (to_string size)) as Hval by (by rewrite Hv, bool_decide_true, Hcs).
    pose proof (Hs _ _ Hval) as Hlen. unfold number_value, PropertyGet.
    destruct (Z.eqb_spec (FindParameter (pe_sys e) k) (-1)) as [Ef|_]; [apply find_none in Ef; congruence|].
    rewrite (get_value _ k _ _ Hval). destruct (Z.ltb_spec (slen (to_string size)) HILOG_PROP_VALUE_MAX); [|lia].
    rewrite Hcs, stoi_number by done. rewrite bool_decide_false.
    + simpl. by rewrite wrapu_small by lia.
    + intros E. pose proof (stoi_number size Hsz) as Hst. by rewrite E in Hst.
Qed.
End process.

(** ** Concurrent readers

    [getValue] of two threads on one cache, step by step: the lock only covers
    the update of the value. *)

Section race.
Context {PS : ParamService} {T : Type} (conv : string -> T -> T) (dflt : T) (t : PropType) (key : string).

Inductive reader_pc :=
  | R_sys                          (* read the commit id of the system *)
  | R_sysCommit (id : Z)           (* store it *)
  | R_handle                       (* look the parameter up *)
  | R_commit                       (* read its commit id *)
  | R_lock (cur : Z)               (* try the lock *)
  | R_read (cur : Z)               (* holding the lock: read the value *)
  | R_value (cur : Z) (v : T)      (* store it *)
  | R_done (cur : Z)               (* store the commit id *)
  | R_unlock                       (* read the value, unlock *)
  | R_direct                       (* without the lock: read the value *)
  | R_direct_value (v : T)         (* store it *)
  | R_ret (v : T).

Record shared := mkShared { sh_sys : sys; sh_cache : CacheData T; sh_locked : bool }.

Definition with_cache (sh : shared) (d : CacheData T) : shared := mkShared (sh_sys sh) d (sh_locked sh).
Definition with_lock (sh : shared) (l : bool) : shared := mkShared (sh_sys sh) (sh_cache sh) l.

Definition reader_step (sh : shared) (pc : reader_pc) : shared * reader_pc :=
  let s := sh_sys sh in
  let d := sh_cache sh in
  match pc with
  | R_sys => let id := GetSystemCommitId s in if id =? m_sysCommit d then (sh, R_ret (m_value d)) else (sh, R_sysCommit id)
  | R_sysCommit id => (with_cache sh (mkCacheData (m_handle d) (m_commit d) id (m_value d)), R_handle)
  | R_handle =>
      if m_handle d =? -1 then
        let handle := FindParameter s key in
        if handle =? -1 then (sh, R_ret dflt)
        else (with_cache sh (mkCacheData handle (m_commit d) (m_sysCommit d) (m_value d)), R_commit)
      else (sh, R_commit)
  | R_commit => (sh, R_lock (i32 (GetParameterCommitId s (m_handle d))))
  | R_lock cur =>
      if isLocked (negb (sh_locked sh)) t then
        (with_lock sh true, if negb (cur =? m_commit d) then R_read cur else R_unlock)
      else (sh, R_direct)
  | R_read cur =>
      (sh, R_value cur (match getRawValue s (m_handle d) with None => dflt | Some raw => conv raw dflt end))
  | R_value cur v => (with_cache sh (mkCacheData (m_handle d) (m_commit d) (m_sysCommit d) v), R_done cur)
  | R_done cur => (with_cache sh (mkCacheData (m_handle d) cur (m_sysCommit d) (m_value d)), R_unlock)
  | R_unlock => (with_lock sh false, R_ret (m_value d))
  | R_direct => (sh, match getRawValue s (m_handle d) with None => R_ret dflt | Some raw => R_direct_value (conv raw dflt) end)
  | R_direct_value v => (with_cache sh (mkCacheData (m_handle d) (m_commit d) (m_sysCommit d) v), R_ret v)
  | R_ret v => (sh, R_ret v)
  end.

Definition reader_solo (n : nat) (sh : shared) : shared * reader_pc :=
  Nat.iter n (fun x => reader_step x.1 x.2) (sh, R_sys).

Lemma reader_ret n sh v : Nat.iter n (fun x => reader_step x.1 x.2) (sh, R_ret v) = (sh, R_ret v).
Proof. induction n as [|n IH]; [done|]. by rewrite Nat.iter_succ_r. Qed.

Ltac rstep :=
  rewrite Nat.iter_succ_r;
  cbn [fst snd reader_step sh_sys sh_cache sh_locked with_cache with_lock m_handle m_commit m_sysCommit m_value].

(** Without interference the steps are [getValue]. *)
Lemma reader_solo_getValue s d locked :
  reader_solo 9 (mkShared s d locked) =
    let '(d', v) := getValue conv dflt t key (negb locked) s d in (mkShared s d' locked, R_ret v).
Proof.
  unfold reader_solo, getValue. rstep. destruct (_ =? _); [by rewrite reader_ret|]. rstep. rstep.
  set (h := if m_handle d =? -1 then FindParameter s key else m_handle d).
  assert (forall n, Nat.iter n (fun x => reader_step x.1 x.2)
    (if m_handle d =? -1
     then if FindParameter s key =? -1 then (mkShared s (mkCacheData (m_handle d) (m_commit d) (GetSystemCommitId s) (m_value d)) locked, R_ret dflt)
          else (mkShared s (mkCacheData (FindParameter s key) (m_commit d) (GetSystemCommitId s) (m_value d)) locked, R_commit)
     else (mkShared s (mkCacheData (m_handle d) (m_commit d) (GetSystemCommitId s) (m_value d)) locked, R_commit)) =
    if h =? -1 then (mkShared s (mkCacheData (m_handle d) (m_commit d) (GetSystemCommitId s) (m_value d)) locked, R_ret dflt)
    else Nat.iter n (fun x => reader_step x.1 x.2)
      (mkShared s (mkCacheData h (m_commit d) (GetSystemCommitId s) (m_value d)) locked, R_commit)) as Hh.
  { intros n. unfold h. destruct (m_handle d =? -1) eqn:E.
    - destruct (FindParameter s key =? -1); [apply reader_ret | done].
    - by rewrite E. }
  rewrite Hh. destruct (h =? -1); [done|]. rstep. rstep. unfold isLocked, LockByProp, getDirectValue, updateValue.
  destruct (has_lock t), locked; cbn [negb Z.eqb m_handle m_commit m_sysCommit m_value].
  2:{ destruct (_ =? m_commit d); cbn [negb]; rstep; [by rewrite reader_ret|]. do 3 rstep. done. }
  all: rstep; destruct (getRawValue s h); [rstep|]; by rewrite reader_ret.
Qed.
End race.

(** Two readers and writers of parameters, as a schedule. *)
Inductive race_event := EvA | EvB | EvSet (k v : string).

Definition race_step (key : string) (st : shared (T := bool) * reader_pc (T := bool) * reader_pc (T := bool)) (ev : race_event) :=
  let '(sh, a, b) := st in
  match ev with
  | EvA => let '(sh, a) := reader_step TextToBool true PROP_PRIVATE key sh a in (sh, a, b)
  | EvB => let '(sh, b) := reader_step TextToBool true PROP_PRIVATE key sh b in (sh, a, b)
  | EvSet k v => (mkShared (SetParameter (sh_sys sh) k v).1 (sh_cache sh) (sh_locked sh), a, b)
  end.

Definition hist_start (h : history) : hist_state :=
  match decide (short_history h = true) with
  | left H => exist _ h H
  | right _ => exist _ [] eq_refl
  end.

(** Reader A stops after reading the old value under the lock; the switch is
    set; reader B, which cannot take the lock, stores the new value; then A
    stores the old one over it. *)
Definition race_schedule : list race_event :=
  replicate 6 EvA ++ [EvSet "hilog.private.on" "true"] ++ replicate 7 EvB ++ replicate 3 EvA.

(** Two threads that read a cached switch while it is set can leave the old
    value in the cache marked as current: both calls have returned, the switch
    is on, and every further call, with or without the lock, returns that it
    is off until some other parameter of the system changes. *)
Theorem cache_race_loses_update :
  let key := GetPropertyName PROP_PRIVATE in
  let start := mkShared (hist_start [(key, "false")]) (new_cache true) false in
  let '(sh, a, b) := foldl (race_step key) (start, R_sys, R_sys) race_schedule in
  a = R_ret false /\ b = R_ret true /\ sh_locked sh = false /\
  fresh TextToBool true key (sh_sys sh) = true /\
  forall free, getValue TextToBool true PROP_PRIVATE key free (sh_sys sh) (sh_cache sh) = (sh_cache sh, false).
Proof. vm_compute. repeat split. Qed.

Lemma cache_transparent_witness :
  let key := GetPropertyName PROP_PRIVATE in
  calls TextToBool true PROP_PRIVATE key (new_cache true)
    [(hist_start [], true); (hist_start [(key, "false")], true); (hist_start [("x", "y"); (key, "false")], false)] =
  [true; false; false].
Proof.
  intros key.
  assert (chain key (hist_start []) [(hist_start [], true); (hist_start [(key, "false")], true);
    (hist_start [("x", "y"); (key, "false")], false)]) as Hc.
  { split; [apply later_refl|]. split; [by left|]. split; [by exists [(key, "false")]|]. split; [by left|].
    split; [by exists [("x", "y")]|]. split; [right; by vm_compute | done]. }
  rewrite (cache_transparent TextToBool true PROP_PRIVATE key eq_refl _ _ Hc). by vm_compute.
Defined.

Lemma settings_take_effect_witness :
  let s' := (SetDomainLevel (hist_start []) 0xD002D00 LOG_ERROR).1 in
  (GetDomainLevel 0xD002D00 (mkPenv s' (fun _ => true) (fun _ => None)) new_caches).2 = LOG_ERROR.
Proof.
  intros s'.
  assert (short_values s') as Hs.
  { intros k v. change (value_of s' k) with (hist_value (proj1_sig s') k).
    assert (proj1_sig s' = [("hilog.loggable.domain.d002d00", "E")]) as -> by (by vm_compute).
    cbn [hist_value]. destruct (decide _); [by intros [= <-] | done]. }
  assert (LOG_ERROR ∈ GetAllKeys g_ShortLogLevels) as Hl by (apply (bool_decide_unpack _); by vm_compute).
  destruct (@settings_take_effect hist_service hist_laws new_caches (hist_start []) s' (mkPenv s' (fun _ => true) (fun _ => None))
    (new_caches_ok _) eq_refl Hs) as (_ & H & _).
  exact (proj1 (H 0xD002D00 LOG_ERROR ltac:(done) Hl eq_refl)).
Defined.
