(* ===== verification/Proc.v ===== *)
(** * Process lookups

    GetNameByPid and GetPPidByPid of log_utils.cpp: the name and the parent of
    a process from the files under /proc, which are given as a function from
    paths to contents. *)

From S2P Require Import Prelude Common Utils.
From Stdlib Require Import Ascii.

Definition CMDLINE_PATH_LEN : Z := 32.
Definition CMDLINE_LEN : Z := 128.
Definition STATUS_PATH_LEN : Z := 32.
Definition STATUS_LEN : Z := 1024.
Definition SH_NAMES : list string := ["sh"; "/bin/sh"; "/system/bin/sh"; "/xbin/sh"; "/system/xbin/sh"].

Definition isgraph (c : ascii) : bool := (33 <=? byte_val c) && (byte_val c <=? 126).

(** The visible characters at the start, at most [n]. *)
Fixpoint graph_prefix (n : nat) (s : string) : string :=
  match n, s with
  | S n, String c s => if isgraph c then String c (graph_prefix n s) else ""
  | _, _ => ""
  end.

(** [strstr]: the text from the first occurrence on. *)
Fixpoint strstr (needle s : string) : option string :=
  if String.prefix needle s then Some s
  else match s with
       | EmptyString => None
       | String _ s => strstr needle s
       end.

(** ["%d"] of [sscanf_s] into a [uint32_t] that holds [old]. *)
Definition scan_d (s : string) (old : Z) : Z :=
  let '(neg, s) := take_sign (skip_space s) in
  match s with
  | String c _ =>
      if is_digit c then let v := read_digits 10 0 s in u32 (if neg : bool then - v else v) else old
  | EmptyString => old
  end.

Section proc.
Context (proc : string -> option string).

Definition GetNameByPid (pid : Z) : string :=
  match proc ("/proc/" +:+ to_string (i32 pid) +:+ "/cmdline") with
  | None => ""
  | Some file => graph_prefix (Z.to_nat (CMDLINE_LEN - 1)) file
  end.

(** [None]: more than [fuel] shells above the process. *)
Fixpoint GetPPidByPid (fuel : nat) (pid : Z) : option Z :=
  match proc ("/proc/" +:+ to_string pid +:+ "/status") with
  | None => Some 0
  | Some file =>
      let buf := str_take (Z.to_nat (STATUS_LEN - 1)) file in
      if bool_decide (buf = "") then Some 0
      else
        match strstr "PPid:" (cstr buf) with
        | None => Some 0
        | Some ppidLoc =>
            let ppid := scan_d (str_drop 5 ppidLoc) 0 in
            if bool_decide (GetNameByPid ppid ∈ SH_NAMES) then
              match fuel with
              | O => None
              | S fuel => GetPPidByPid fuel ppid
              end
            else Some ppid
        end
  end.
End proc.
