(* ===== verification/StatsWire.v ===== *)
(** * Statistics over the socket

    The daemon answers a statistics query with a series of packets
    (ServiceController::Send* of service_controller.cpp); the client rebuilds
    the tables from them (LogIoctl::Receive* of log_ioctl.cpp).  The shape of
    every packet but the first is announced by an earlier one. *)

From S2P Require Import Prelude Common TimeStamp Utils LogStats Cmd.
From Stdlib Require Import Ascii SpecFloat.

(** The bits of a [float]. *)
Definition f32_bits (f : spec_float) : Z :=
  let sign (s : bool) : Z := if s then 2 ^ 31 else 0 in
  u32 match f with
      | S754_zero s => sign s
      | S754_infinity s => sign s + 255 * 2 ^ 23
      | S754_nan => 0x7FC00000
      | S754_finite s m e =>
          if Z.pos m <? 2 ^ 23 then sign s + Z.pos m
          else sign s + (e + 150) * 2 ^ 23 + (Z.pos m - 2 ^ 23)
      end.

Section wire.
(** The size of a pointer; the structures contain some that mean nothing to
    the other side. *)
Context (ptr_size : nat).
Definition p_ptr : packed Z := p_uint ptr_size.

Record StatsRsp := mkStatsRsp {
  sr_lines : list Z; sr_len : list Z; sr_dropped : Z;
  sr_freqMax : Z; sr_freqMaxSec : Z; sr_freqMaxNsec : Z;
  sr_throughputMax : Z; sr_tpMaxSec : Z; sr_tpMaxNsec : Z;
}.
Definition p_StatsRsp : packed StatsRsp :=
  p_iso (p_array (Z.to_nat LevelNum) p_u32 * (p_array (Z.to_nat LevelNum) p_u64 * (p_u32 *
         (p_u32 * (p_u32 * (p_u32 * (p_u32 * (p_u32 * p_u32))))))))
    (fun '(l, (n, (d, (f, (fs, (fn, (t, (ts, tn)))))))) => mkStatsRsp l n d f fs fn t ts tn)
    (fun r => (sr_lines r, (sr_len r, (sr_dropped r, (sr_freqMax r, (sr_freqMaxSec r, (sr_freqMaxNsec r,
       (sr_throughputMax r, (sr_tpMaxSec r, sr_tpMaxNsec r))))))))).

Record TagStatsRsp := mkTagStatsRsp { tr_tag : string; tr_stats : StatsRsp }.
Definition p_TagStatsRsp : packed TagStatsRsp :=
  p_iso (p_chars (Z.to_nat MAX_TAG_LEN) * p_StatsRsp) (fun '(t, s) => mkTagStatsRsp t s) (fun r => (tr_tag r, tr_stats r)).

Record DomainStatsRsp := mkDomainStatsRsp { dr_domain : Z; dr_stats : StatsRsp; dr_tagNum : Z; dr_tStats : Z }.
Definition p_DomainStatsRsp : packed DomainStatsRsp :=
  p_iso (p_u32 * (p_StatsRsp * (p_u16 * p_ptr))) (fun '(d, (s, (n, p))) => mkDomainStatsRsp d s n p)
    (fun r => (dr_domain r, (dr_stats r, (dr_tagNum r, dr_tStats r)))).

Record LogTypeDomainStatsRsp := mkLogTypeDomainStatsRsp { lr_type : Z; lr_domainNum : Z; lr_dStats : Z }.
Definition p_LogTypeDomainStatsRsp : packed LogTypeDomainStatsRsp :=
  p_iso (p_u16 * (p_u16 * p_ptr)) (fun '(t, (n, p)) => mkLogTypeDomainStatsRsp t n p)
    (fun r => (lr_type r, (lr_domainNum r, lr_dStats r))).

Record LogTypeStatsRsp := mkLogTypeStatsRsp { ltr_type : Z; ltr_stats : StatsRsp }.
Definition p_LogTypeStatsRsp : packed LogTypeStatsRsp :=
  p_iso (p_u16 * p_StatsRsp) (fun '(t, s) => mkLogTypeStatsRsp t s) (fun r => (ltr_type r, ltr_stats r)).

Record ProcStatsRsp := mkProcStatsRsp {
  pr_pid : Z; pr_name : string; pr_stats : StatsRsp; pr_typeNum : Z; pr_tagNum : Z; pr_lStats : Z; pr_tStats : Z }.
Definition p_ProcStatsRsp : packed ProcStatsRsp :=
  p_iso (p_u32 * (p_chars (Z.to_nat MAX_PROC_NAME_LEN) * (p_StatsRsp * (p_u16 * (p_u16 * (p_ptr * p_ptr))))))
    (fun '(pid, (n, (s, (t, (g, (l, p)))))) => mkProcStatsRsp pid n s t g l p)
    (fun r => (pr_pid r, (pr_name r, (pr_stats r, (pr_typeNum r, (pr_tagNum r, (pr_lStats r, pr_tStats r))))))).

Record StatsQueryRsp := mkStatsQueryRsp {
  qr_tsBeginSec : Z; qr_tsBeginNsec : Z; qr_durationSec : Z; qr_durationNsec : Z;
  qr_totalLines : list Z; qr_totalLens : list Z; qr_typeNum : Z; qr_procNum : Z; qr_ldStats : Z; qr_pStats : Z;
}.
Definition p_StatsQueryRsp : packed StatsQueryRsp :=
  p_iso (p_u32 * (p_u32 * (p_u32 * (p_u32 * (p_array (Z.to_nat LevelNum) p_u32 * (p_array (Z.to_nat LevelNum) p_u64 *
         (p_u16 * (p_u16 * (p_ptr * p_ptr)))))))))
    (fun '(a, (b, (c, (d, (l, (n, (t, (p, (x, y))))))))) => mkStatsQueryRsp a b c d l n t p x y)
    (fun r => (qr_tsBeginSec r, (qr_tsBeginNsec r, (qr_durationSec r, (qr_durationNsec r, (qr_totalLines r, (qr_totalLens r,
       (qr_typeNum r, (qr_procNum r, (qr_ldStats r, qr_pStats r)))))))))).

#[export] Instance p_StatsRsp_ok : PackedOk p_StatsRsp.
Proof. solve_struct. Qed.
#[export] Instance p_TagStatsRsp_ok : PackedOk p_TagStatsRsp.
Proof. solve_struct. Qed.
#[export] Instance p_DomainStatsRsp_ok : PackedOk p_DomainStatsRsp.
Proof. solve_struct. Qed.
#[export] Instance p_LogTypeDomainStatsRsp_ok : PackedOk p_LogTypeDomainStatsRsp.
Proof. solve_struct. Qed.
#[export] Instance p_LogTypeStatsRsp_ok : PackedOk p_LogTypeStatsRsp.
Proof. solve_struct. Qed.
#[export] Instance p_ProcStatsRsp_ok : PackedOk p_ProcStatsRsp.
Proof. solve_struct. Qed.
#[export] Instance p_StatsQueryRsp_ok : PackedOk p_StatsQueryRsp.
Proof. solve_struct. Qed.

(** ** The daemon *)

Definition StatsEntry2StatsRsp (e : StatsEntry) : StatsRsp :=
  mkStatsRsp (e_lines e) (e_len e) (e_dropped e) (f32_bits (GetFreqMax e))
    (tv_sec (e_realTimeFreqMax e)) (tv_nsec (e_realTimeFreqMax e)) (f32_bits (GetThroughputMax e))
    (tv_sec (e_realTimeThroughputMax e)) (tv_nsec (e_realTimeThroughputMax e)).

(** The array in a zeroed message: a C string. *)
Definition name_array (n : Z) (s : string) : string := s +:+ fill (Z.to_nat (n - slen s)) NUL.

(** An array of structures is not sent when it is empty. *)
Definition send_array {A} (p : packed A) (l : list A) : list string :=
  if bool_decide (l = []) then [] else [enc_list p l].

Definition nonempty_tables (s : LogStats) : list (gmap Z DomainStatsEntry) := filter (fun dt => dt <> ∅) (domainStats s).

Definition SendOverallStats (monoNow : LogTimeStamp) (s : LogStats) : list string :=
  let duration := ts_sub monoNow (monoBegin s) in
  [enc p_StatsQueryRsp
     (mkStatsQueryRsp (tv_sec (tsBegin s)) (tv_nsec (tsBegin s)) (tv_sec duration) (tv_nsec duration)
        (totalLines s) (totalLens s) (u16 (Z.of_nat (length (nonempty_tables s)))) (u16 (Z.of_nat (size (pidStats s)))) 0 0)].

(** The types of the tables that are not empty, with their sizes. *)
Definition type_entries (s : LogStats) : list LogTypeDomainStatsRsp :=
  omap (fun '(j, dt) => if bool_decide (dt = ∅) then None
                        else Some (mkLogTypeDomainStatsRsp (u16 (Z.of_nat j)) (u16 (Z.of_nat (size dt))) 0))
    (imap pair (domainStats s)).
Definition SendLogTypeDomainStats (s : LogStats) : list string := send_array p_LogTypeDomainStatsRsp (type_entries s).

Definition domain_entry (s : LogStats) (kv : Z * DomainStatsEntry) : DomainStatsRsp :=
  mkDomainStatsRsp kv.1 (StatsEntry2StatsRsp (ds_stats kv.2))
    (if tagEnable s then u16 (Z.of_nat (size (ds_tagStats kv.2))) else 0) 0.
Definition SendDomainStats (s : LogStats) : list string :=
  dt ← nonempty_tables s; send_array p_DomainStatsRsp (domain_entry s <$> map_to_list dt).

(** [strncpy_s] of at most [MAX_TAG_LEN - 1] characters never fails. *)
Definition tag_entry (kv : string * StatsEntry) : TagStatsRsp :=
  mkTagStatsRsp (name_array MAX_TAG_LEN (default "" (strncpy_s MAX_TAG_LEN kv.1 (MAX_TAG_LEN - 1)))) (StatsEntry2StatsRsp kv.2).
Definition SendTagStats (tt : TagTable) : list string := send_array p_TagStatsRsp (tag_entry <$> map_to_list tt).

Definition SendDomainTagStats (s : LogStats) : list string :=
  dt ← nonempty_tables s; kv ← map_to_list dt; SendTagStats (ds_tagStats kv.2).

(** The types a process has lines of. *)
Definition used_types (p : PidStatsEntry) : list (nat * StatsEntry) :=
  filter (fun je => GetTotalLines je.2 <> 0) (imap pair (ps_stats p)).

Definition proc_entry (s : LogStats) (kv : Z * PidStatsEntry) : ProcStatsRsp :=
  match strncpy_s MAX_PROC_NAME_LEN (ps_name kv.2) (MAX_PROC_NAME_LEN - 1) with
  | None => mkProcStatsRsp kv.1 (fill (Z.to_nat MAX_PROC_NAME_LEN) NUL)
              (mkStatsRsp zeros zeros 0 0 0 0 0 0 0) 0 0 0 0
  | Some name =>
      mkProcStatsRsp kv.1 (name_array MAX_PROC_NAME_LEN name) (StatsEntry2StatsRsp (ps_statsAll kv.2))
        (u16 (Z.of_nat (length (used_types kv.2))))
        (if tagEnable s then u16 (Z.of_nat (size (ps_tagStats kv.2))) else 0) 0 0
  end.
Definition SendProcStats (s : LogStats) : list string := send_array p_ProcStatsRsp (proc_entry s <$> map_to_list (pidStats s)).

Definition type_entry (je : nat * StatsEntry) : LogTypeStatsRsp :=
  mkLogTypeStatsRsp (u16 (Z.of_nat je.1)) (StatsEntry2StatsRsp je.2).

(** A process without lines ends the loop over the processes. *)
Fixpoint send_proc_types (l : list (Z * PidStatsEntry)) : list string :=
  match l with
  | [] => []
  | kv :: l =>
      if bool_decide (used_types kv.2 = []) then []
      else enc_list p_LogTypeStatsRsp (type_entry <$> used_types kv.2) :: send_proc_types l
  end.
Definition SendProcLogTypeStats (s : LogStats) : list string := send_proc_types (map_to_list (pidStats s)).

Definition SendProcTagStats (s : LogStats) : list string := kv ← map_to_list (pidStats s); SendTagStats (ps_tagStats kv.2).

(** What [HandleStatsQueryRqst] writes behind the header. *)
Definition send_stats (monoNow : LogTimeStamp) (s : LogStats) : list string :=
  SendOverallStats monoNow s ++ SendLogTypeDomainStats s ++ SendDomainStats s ++
  (if tagEnable s then SendDomainTagStats s else []) ++
  SendProcStats s ++ SendProcLogTypeStats s ++ (if tagEnable s then SendProcTagStats s else []).

(** ** The client *)

(** [GetRsp] into a zeroed buffer of [n] bytes; [None]: the connection is
    closed. *)
Definition GetRsp (n : nat) (inp : list string) : option (string * list string) :=
  match inp with
  | [] => None
  | p :: inp =>
      if bool_decide (p = "") then None
      else Some (str_take n p +:+ fill (n - String.length p) NUL, inp)
  end.

(** An array of [num] structures; nothing is read when it has none. *)
Definition recv_array {A} (p : packed A) (num : Z) (inp : list string) : option (list A * list string) :=
  let n := Z.to_nat num in
  if bool_decide ((n * psize p)%nat = 0%nat) then Some ([], inp)
  else '(data, inp) ← GetRsp (n * psize p) inp; Some (dec_list p n data, inp).

(** The loops over an array: one receive for each element. *)
Fixpoint recv_each {A B} (recv : A -> list string -> option (B * list string)) (l : list A) (inp : list string)
    : option (list B * list string) :=
  match l with
  | [] => Some ([], inp)
  | a :: l => '(b, inp) ← recv a inp; '(bs, inp) ← recv_each recv l inp; Some (b :: bs, inp)
  end.

(** What the handler of the client is given: the structures, with the arrays
    their pointers lead to. *)
Record DomainTree := mkDomainTree { dt_rsp : DomainStatsRsp; dt_tags : list TagStatsRsp }.
Record TypeTree := mkTypeTree { tt_rsp : LogTypeDomainStatsRsp; tt_domains : list DomainTree }.
Record ProcTree := mkProcTree { pt_rsp : ProcStatsRsp; pt_types : list LogTypeStatsRsp; pt_tags : list TagStatsRsp }.
Record StatsTree := mkStatsTree { st_rsp : StatsQueryRsp; st_types : list TypeTree; st_procs : list ProcTree }.

Definition ReceiveLogTypeDomainStats (rsp : StatsQueryRsp) (inp : list string) : option (list LogTypeDomainStatsRsp * list string) :=
  if qr_typeNum rsp =? 0 then None else recv_array p_LogTypeDomainStatsRsp (qr_typeNum rsp) inp.
Definition ReceiveDomainStats (types : list LogTypeDomainStatsRsp) (inp : list string)
    : option (list (list DomainStatsRsp) * list string) :=
  recv_each (fun r => recv_array p_DomainStatsRsp (lr_domainNum r)) types inp.
Definition ReceiveDomainTagStats (domains : list (list DomainStatsRsp)) (inp : list string)
    : option (list (list (list TagStatsRsp)) * list string) :=
  recv_each (recv_each (fun r => recv_array p_TagStatsRsp (dr_tagNum r))) domains inp.
Definition ReceiveProcStats (rsp : StatsQueryRsp) (inp : list string) : option (list ProcStatsRsp * list string) :=
  if qr_procNum rsp =? 0 then None else recv_array p_ProcStatsRsp (qr_procNum rsp) inp.
Definition ReceiveProcLogTypeStats (procs : list ProcStatsRsp) (inp : list string)
    : option (list (list LogTypeStatsRsp) * list string) :=
  recv_each (fun r => recv_array p_LogTypeStatsRsp (pr_typeNum r)) procs inp.
Definition ReceiveProcTagStats (procs : list ProcStatsRsp) (inp : list string)
    : option (list (list TagStatsRsp) * list string) :=
  recv_each (fun r => recv_array p_TagStatsRsp (pr_tagNum r)) procs inp.

(** [ReceiveAndProcessStatsQueryRsp]: what is handed to the handler, [None]
    when a step fails. *)
Definition ReceiveAndProcessStatsQueryRsp (inp : list string) : option (StatsTree * list string) :=
  '(data, inp) ← GetRsp (psize p_StatsQueryRsp) inp;
  let rsp := dec p_StatsQueryRsp data in
  '(types, inp) ← ReceiveLogTypeDomainStats rsp inp;
  '(domains, inp) ← ReceiveDomainStats types inp;
  '(dtags, inp) ← ReceiveDomainTagStats domains inp;
  '(procs, inp) ← ReceiveProcStats rsp inp;
  '(ptypes, inp) ← ReceiveProcLogTypeStats procs inp;
  '(ptags, inp) ← ReceiveProcTagStats procs inp;
  Some (mkStatsTree rsp (zip_with (fun t ds => mkTypeTree t ds) types (zip_with (zip_with mkDomainTree) domains dtags))
          (zip_with (fun p x => mkProcTree p x.1 x.2) procs (zip ptypes ptags)), inp).

(** * Lemmas and properties *)

Lemma enc_list_length {A} (p : packed A) `{!PackedOk p} l :
  Forall (pwf p) l -> String.length (enc_list p l) = (length l * psize p)%nat.
Proof. intros Hl. exact (enc_size (p := p_array (length l) p) l (conj eq_refl Hl)). Qed.

(** What one side sends the other receives, whatever follows. *)
Lemma recv_send {A} (p : packed A) `{!PackedOk p} l inp :
  (0 < psize p)%nat -> Forall (pwf p) l -> recv_array p (Z.of_nat (length l)) (send_array p l ++ inp) = Some (l, inp).
Proof.
  intros Hp Hl. unfold recv_array, send_array. rewrite Nat2Z.id. destruct l as [|a l]; [done|].
  rewrite !bool_decide_false by (done || (simpl; lia)). cbn [app].
  pose proof (enc_list_length p (a :: l) Hl) as Hlen. unfold GetRsp.
  rewrite bool_decide_false by (intros E; rewrite E in Hlen; simpl in Hlen; lia). cbn [mbind option_bind].
  rewrite Hlen, Nat.sub_diag, str_take_all by (unfold slen; rewrite Hlen; lia). cbn [fill].
  do 2 f_equal. exact (dec_enc (p := p_array (length (a :: l)) p) (a :: l) "" (conj eq_refl Hl)).
Qed.

Lemma recv_each_send {A B C} (recv : B -> list string -> option (C * list string)) (g : A -> B) (f : A -> C)
    (send : A -> list string) l inp :
  (forall a inp, a ∈ l -> recv (g a) (send a ++ inp) = Some (f a, inp)) ->
  recv_each recv (g <$> l) ((l ≫= send) ++ inp) = Some (f <$> l, inp).
Proof.
  revert inp. induction l as [|a l IH]; intros inp H; [done|].
  change ((a :: l) ≫= send) with (send a ++ (l ≫= send)). rewrite <- app_assoc, fmap_cons. cbn [recv_each].
  rewrite H by left. cbn [mbind option_bind]. rewrite IH; [done|]. intros b inp' Hb. apply H. by right.
Qed.

Lemma bind_nil {A B} (l : list A) : (l ≫= fun _ => []) = ([] : list B).
Proof. by induction l. Qed.

(** The tables that are not empty, with their types. *)
Definition typed_tables (s : LogStats) : list (nat * gmap Z DomainStatsEntry) :=
  filter (fun jd => jd.2 <> ∅) (imap pair (domainStats s)).

Definition type_entry_of (jd : nat * gmap Z DomainStatsEntry) : LogTypeDomainStatsRsp :=
  mkLogTypeDomainStatsRsp (u16 (Z.of_nat jd.1)) (u16 (Z.of_nat (size jd.2))) 0.

Lemma type_entries_eq s : type_entries s = type_entry_of <$> typed_tables s.
Proof.
  unfold type_entries, typed_tables. induction (imap pair (domainStats s)) as [|[j dt] l IH]; [done|].
  cbn [omap list_omap]. rewrite filter_cons. cbn [snd]. destruct (decide (dt = ∅)) as [->|Hne].
  - rewrite bool_decide_true by done. by rewrite decide_False by (intros H; by apply H).
  - rewrite bool_decide_false by done. rewrite decide_True by done. rewrite fmap_cons. by f_equal.
Qed.

Lemma imap_pair_snd {A} (l : list A) : snd <$> imap pair l = l.
Proof. rewrite fmap_imap. change (imap (const id) l = l). by rewrite imap_const, list_fmap_id. Qed.

Lemma nonempty_tables_eq s : nonempty_tables s = snd <$> typed_tables s.
Proof.
  unfold nonempty_tables, typed_tables. rewrite <- (imap_pair_snd (domainStats s)) at 1.
  induction (imap pair (domainStats s)) as [|[j dt] l IH]; [done|].
  rewrite fmap_cons, !filter_cons. cbn [snd]. destruct (decide (dt <> ∅)); [|done]. rewrite fmap_cons. by f_equal.
Qed.

Definition domain_tags (s : LogStats) (kv : Z * DomainStatsEntry) : list TagStatsRsp :=
  if tagEnable s then tag_entry <$> map_to_list (ds_tagStats kv.2) else [].
Definition proc_tags (s : LogStats) (kv : Z * PidStatsEntry) : list TagStatsRsp :=
  if tagEnable s then tag_entry <$> map_to_list (ps_tagStats kv.2) else [].

(** The statistics as the client should see them. *)
Definition overall_rsp (monoNow : LogTimeStamp) (s : LogStats) : StatsQueryRsp :=
  let duration := ts_sub monoNow (monoBegin s) in
  mkStatsQueryRsp (tv_sec (tsBegin s)) (tv_nsec (tsBegin s)) (tv_sec duration) (tv_nsec duration)
    (totalLines s) (totalLens s) (Z.of_nat (length (typed_tables s))) (Z.of_nat (size (pidStats s))) 0 0.

Definition stats_tree (monoNow : LogTimeStamp) (s : LogStats) : StatsTree :=
  mkStatsTree (overall_rsp monoNow s)
    ((fun jd => mkTypeTree (type_entry_of jd)
                  ((fun kv => mkDomainTree (domain_entry s kv) (domain_tags s kv)) <$> map_to_list jd.2)) <$> typed_tables s)
    ((fun kv => mkProcTree (proc_entry s kv) (type_entry <$> used_types kv.2) (proc_tags s kv)) <$> map_to_list (pidStats s)).

Definition entry_fits (e : StatsEntry) : Prop := pwf p_StatsRsp (StatsEntry2StatsRsp e).

Definition tags_fit (tt : TagTable) : Prop := Z.of_nat (size tt) < 2 ^ 16 /\ map_Forall (fun _ => entry_fits) tt.

(** Every value is in the range of its C++ type, every table has less than
    2^16 entries, and every process has lines of some type. *)
Record sendable (s : LogStats) : Prop := {
  sd_begin : 0 <= tv_sec (tsBegin s) < 2 ^ 32 /\ 0 <= tv_nsec (tsBegin s) < 2 ^ 32;
  sd_totals : length (totalLines s) = 5%nat /\ Forall (fun x => 0 <= x < 2 ^ 32) (totalLines s) /\
              length (totalLens s) = 5%nat /\ Forall (fun x => 0 <= x < 2 ^ 64) (totalLens s);
  sd_types : length (domainStats s) = 6%nat;
  sd_domains : Forall (fun dt : gmap Z DomainStatsEntry => Z.of_nat (size dt) < 2 ^ 16 /\
    map_Forall (fun k d => 0 <= k < 2 ^ 32 /\ entry_fits (ds_stats d) /\ tags_fit (ds_tagStats d)) dt) (domainStats s);
  sd_procs : Z.of_nat (size (pidStats s)) < 2 ^ 16 /\
    map_Forall (fun k p => 0 <= k < 2 ^ 32 /\ entry_fits (ps_statsAll p) /\ tags_fit (ps_tagStats p) /\
      length (ps_stats p) = 6%nat /\ Forall entry_fits (ps_stats p) /\ used_types p <> []) (pidStats s);
}.

Lemma pwf_uint n z : 0 <= z < 2 ^ (8 * Z.of_nat n) -> pwf (p_uint n) z.
Proof. intros Hz. simpl. by rewrite pow_256. Qed.

Lemma pwf_zero n : pwf (p_uint n) 0.
Proof. apply pwf_uint. split; [done|]. apply Z.pow_pos_nonneg; lia. Qed.

Lemma name_array_length n s : slen s <= n -> String.length (name_array n s) = Z.to_nat n.
Proof.
  intros Hs. pose proof (slen_nonneg s). unfold name_array. pose proof (slen_app s (fill (Z.to_nat (n - slen s)) NUL)) as H0.
  rewrite slen_fill in H0. unfold slen in *. lia.
Qed.

Lemma short_name n s : 0 < n -> exists t, strncpy_s n s (n - 1) = Some t /\ slen t < n.
Proof.
  intros Hn. rewrite strncpy_s_short by lia. eexists. split; [done|]. rewrite slen_take. lia.
Qed.

Lemma tag_entry_wf kv : entry_fits kv.2 -> pwf p_TagStatsRsp (tag_entry kv).
Proof.
  intros He. split; [|exact He]. change (String.length (tr_tag (tag_entry kv)) = Z.to_nat MAX_TAG_LEN).
  unfold tag_entry. cbn [tr_tag]. destruct (short_name MAX_TAG_LEN kv.1) as (t & -> & Ht); [done|].
  apply name_array_length. simpl. lia.
Qed.

Lemma tags_wf tt : tags_fit tt -> Forall (pwf p_TagStatsRsp) (tag_entry <$> map_to_list tt).
Proof.
  intros [_ Htt]. apply Forall_fmap, Forall_forall. intros [k e] Hk. apply tag_entry_wf. simpl.
  apply elem_of_map_to_list in Hk. by apply (Htt k).
Qed.

Lemma tags_count tt : tags_fit tt -> u16 (Z.of_nat (size tt)) = Z.of_nat (length (tag_entry <$> map_to_list tt)).
Proof. intros [Hs _]. rewrite length_fmap, length_map_to_list. apply wrapu_small. lia. Qed.

Lemma recv_tags tt inp : tags_fit tt ->
  recv_array p_TagStatsRsp (u16 (Z.of_nat (size tt))) (SendTagStats tt ++ inp) = Some (tag_entry <$> map_to_list tt, inp).
Proof. intros Htt. rewrite tags_count by done. apply (recv_send p_TagStatsRsp); [apply Nat.lt_0_succ | by apply tags_wf]. Qed.

Lemma domain_entry_wf s kv :
  0 <= kv.1 < 2 ^ 32 -> entry_fits (ds_stats kv.2) -> pwf p_DomainStatsRsp (domain_entry s kv).
Proof.
  intros Hk He. split; [by apply pwf_uint|]. split; [exact He|]. split; [|apply pwf_zero]. apply pwf_uint.
  cbn [fst snd dr_tagNum domain_entry]. destruct (tagEnable s); [|done]. by apply wrapu_range.
Qed.

Lemma proc_entry_wf s kv : 0 <= kv.1 < 2 ^ 32 -> entry_fits (ps_statsAll kv.2) -> pwf p_ProcStatsRsp (proc_entry s kv).
Proof.
  intros Hk He. unfold proc_entry. destruct (short_name MAX_PROC_NAME_LEN (ps_name kv.2)) as (t & -> & Ht); [done|].
  split; [by apply pwf_uint|]. split; [apply name_array_length; lia|]. split; [exact He|].
  split; [apply pwf_uint; by apply wrapu_range|]. split; [|split; apply pwf_zero]. apply pwf_uint.
  cbn [fst snd pr_tagNum]. destruct (tagEnable s); [|done]. by apply wrapu_range.
Qed.

Lemma type_entry_wf je : entry_fits je.2 -> pwf p_LogTypeStatsRsp (type_entry je).
Proof. intros He. split; [apply pwf_uint; by apply wrapu_range | exact He]. Qed.

Lemma type_entry_of_wf jd : pwf p_LogTypeDomainStatsRsp (type_entry_of jd).
Proof. split; [apply pwf_uint; by apply wrapu_range|]. split; [apply pwf_uint; by apply wrapu_range | apply pwf_zero]. Qed.

Lemma recv_types s inp : sendable s ->
  recv_array p_LogTypeDomainStatsRsp (Z.of_nat (length (typed_tables s))) (SendLogTypeDomainStats s ++ inp) =
    Some (type_entry_of <$> typed_tables s, inp).
Proof.
  intros Hs. unfold SendLogTypeDomainStats. rewrite type_entries_eq, <- (length_fmap type_entry_of).
  apply (recv_send p_LogTypeDomainStatsRsp); [apply Nat.lt_0_succ|].
  apply Forall_fmap, Forall_forall. intros jd _. apply type_entry_of_wf.
Qed.

Lemma typed_table_in s jd : jd ∈ typed_tables s -> jd.2 ∈ domainStats s.
Proof.
  unfold typed_tables. intros [_ Hin]%list_elem_of_filter. rewrite <- (imap_pair_snd (domainStats s)).
  by apply list_elem_of_fmap_2.
Qed.

Lemma recv_domains s inp : sendable s ->
  ReceiveDomainStats (type_entry_of <$> typed_tables s) (SendDomainStats s ++ inp) =
    Some ((fun jd => domain_entry s <$> map_to_list jd.2) <$> typed_tables s, inp).
Proof.
  intros Hs. unfold ReceiveDomainStats, SendDomainStats. rewrite nonempty_tables_eq, list_fmap_bind.
  apply recv_each_send. intros jd inp' Hjd%typed_table_in. pose proof (sd_domains s Hs) as Hd.
  rewrite Forall_forall in Hd. destruct (Hd _ Hjd) as [Hsz Hall].
  replace (lr_domainNum (type_entry_of jd)) with (Z.of_nat (length (domain_entry s <$> map_to_list jd.2))).
  2:{ rewrite length_fmap, length_map_to_list. simpl. by rewrite wrapu_small by lia. }
  apply (recv_send p_DomainStatsRsp); [apply Nat.lt_0_succ|].
  apply Forall_fmap, Forall_forall. intros [k d] Hk%elem_of_map_to_list. destruct (Hall k d Hk) as (? & ? & ?).
  by apply domain_entry_wf.
Qed.

Lemma recv_domain_tags s inp : sendable s ->
  ReceiveDomainTagStats ((fun jd => domain_entry s <$> map_to_list jd.2) <$> typed_tables s)
    ((if tagEnable s then SendDomainTagStats s else []) ++ inp) =
    Some ((fun jd => domain_tags s <$> map_to_list jd.2) <$> typed_tables s, inp).
Proof.
  intros Hs. unfold ReceiveDomainTagStats.
  replace (if tagEnable s then SendDomainTagStats s else []) with
    (typed_tables s ≫= fun jd => map_to_list jd.2 ≫= fun kv => if tagEnable s then SendTagStats (ds_tagStats kv.2) else []).
  2:{ unfold SendDomainTagStats. rewrite nonempty_tables_eq, list_fmap_bind. destruct (tagEnable s); [done|].
      transitivity (typed_tables s ≫= fun _ => [] : list string); [|apply bind_nil].
      apply list_bind_ext; [|done]. intros jd. apply bind_nil. }
  apply recv_each_send. intros jd inp' Hjd%typed_table_in. apply recv_each_send. intros [k d] inp2 Hk%elem_of_map_to_list.
  pose proof (sd_domains s Hs) as Hd. rewrite Forall_forall in Hd. destruct (Hd _ Hjd) as [_ Hall].
  destruct (Hall k d Hk) as (_ & _ & Ht). unfold domain_tags. cbn [domain_entry dr_tagNum snd].
  destruct (tagEnable s); [by apply recv_tags | done].
Qed.

Lemma recv_procs s inp : sendable s ->
  recv_array p_ProcStatsRsp (Z.of_nat (size (pidStats s))) (SendProcStats s ++ inp) =
    Some (proc_entry s <$> map_to_list (pidStats s), inp).
Proof.
  intros Hs. unfold SendProcStats. rewrite <- length_map_to_list, <- (length_fmap (proc_entry s)).
  apply (recv_send p_ProcStatsRsp); [apply Nat.lt_0_succ|].
  apply Forall_fmap, Forall_forall. intros [k d] Hk%elem_of_map_to_list.
  destruct (proj2 (sd_procs s Hs) k d Hk) as (? & ? & _). by apply proc_entry_wf.
Qed.

Lemma proc_entry_nums s kv :
  pr_typeNum (proc_entry s kv) = u16 (Z.of_nat (length (used_types kv.2))) /\
  pr_tagNum (proc_entry s kv) = if tagEnable s then u16 (Z.of_nat (size (ps_tagStats kv.2))) else 0.
Proof. unfold proc_entry. by destruct (short_name MAX_PROC_NAME_LEN (ps_name kv.2)) as (t & -> & _). Qed.

(** Without a process that has no lines the loop runs to its end. *)
Lemma send_proc_types_all l :
  Forall (fun kv => used_types kv.2 <> []) l ->
  send_proc_types l = (l ≫= fun kv => send_array p_LogTypeStatsRsp (type_entry <$> used_types kv.2)).
Proof.
  induction 1 as [|kv l Hkv _ IH]; [done|]. cbn [send_proc_types]. rewrite bool_decide_false by done.
  change ((kv :: l) ≫= ?f) with (f kv ++ (l ≫= f)). rewrite IH. unfold send_array at 2.
  rewrite bool_decide_false by (intros E%fmap_nil_inv; done). done.
Qed.

Lemma recv_proc_types s inp : sendable s ->
  ReceiveProcLogTypeStats (proc_entry s <$> map_to_list (pidStats s)) (SendProcLogTypeStats s ++ inp) =
    Some ((fun kv => type_entry <$> used_types kv.2) <$> map_to_list (pidStats s), inp).
Proof.
  intros Hs. pose proof (proj2 (sd_procs s Hs)) as Hp. unfold ReceiveProcLogTypeStats, SendProcLogTypeStats.
  rewrite send_proc_types_all.
  2:{ apply Forall_forall. intros [k d] Hk%elem_of_map_to_list. by destruct (Hp k d Hk) as (_ & _ & _ & _ & _ & ?). }
  apply recv_each_send. intros [k d] inp' Hk%elem_of_map_to_list. destruct (Hp k d Hk) as (_ & _ & _ & Hlen & Hall & _).
  rewrite (proj1 (proc_entry_nums s (k, d))). cbn [snd].
  assert ((length (used_types d) <= 6)%nat) as Hle.
  { rewrite <- Hlen, <- (length_imap pair (ps_stats d)). apply length_filter. }
  rewrite wrapu_small by lia. rewrite <- (length_fmap type_entry).
  apply (recv_send p_LogTypeStatsRsp); [apply Nat.lt_0_succ|].
  apply Forall_fmap, Forall_forall. intros [j e] [_ Hj]%list_elem_of_filter. apply type_entry_wf. cbn [snd].
  rewrite Forall_forall in Hall. apply Hall. rewrite <- (imap_pair_snd (ps_stats d)).
  exact (list_elem_of_fmap_2 snd _ _ Hj).
Qed.

Lemma recv_proc_tags s inp : sendable s ->
  ReceiveProcTagStats (proc_entry s <$> map_to_list (pidStats s)) ((if tagEnable s then SendProcTagStats s else []) ++ inp) =
    Some (proc_tags s <$> map_to_list (pidStats s), inp).
Proof.
  intros Hs. unfold ReceiveProcTagStats.
  replace (if tagEnable s then SendProcTagStats s else []) with
    (map_to_list (pidStats s) ≫= fun kv => if tagEnable s then SendTagStats (ps_tagStats kv.2) else []).
  2:{ unfold SendProcTagStats. destruct (tagEnable s); [done | apply bind_nil]. }
  apply recv_each_send. intros [k d] inp' Hk%elem_of_map_to_list.
  destruct (proj2 (sd_procs s Hs) k d Hk) as (_ & _ & Ht & _).
  rewrite (proj2 (proc_entry_nums s (k, d))). unfold proc_tags. cbn [snd].
  destruct (tagEnable s); [by apply recv_tags | done].
Qed.

Lemma ts_sub_range a b : 0 <= tv_sec (ts_sub a b) < 2 ^ 32 /\ 0 <= tv_nsec (ts_sub a b) < 2 ^ 32.
Proof.
  unfold ts_sub. destruct (ts_leb a b); [done|]. destruct (_ <? _); split; apply wrapu_range; lia.
Qed.

Lemma typed_tables_length s : (length (typed_tables s) <= length (domainStats s))%nat.
Proof. unfold typed_tables. rewrite <- (length_imap pair (domainStats s)). apply length_filter. Qed.

Lemma recv_overall monoNow s inp : sendable s ->
  exists data, GetRsp (psize p_StatsQueryRsp) (SendOverallStats monoNow s ++ inp) = Some (data, inp) /\
    dec p_StatsQueryRsp data = overall_rsp monoNow s.
Proof.
  intros Hs. pose proof (typed_tables_length s) as Hn. pose proof (sd_types s Hs) as H6.
  destruct (sd_procs s Hs) as [Hp _]. unfold SendOverallStats.
  rewrite nonempty_tables_eq, length_fmap, !(wrapu_small 16) by lia.
  change (mkStatsQueryRsp _ _ _ _ _ _ _ _ _ _) with (overall_rsp monoNow s).
  assert (pwf p_StatsQueryRsp (overall_rsp monoNow s)) as Hwf.
  { destruct (sd_begin s Hs). destruct (sd_totals s Hs) as (? & Hl & ? & Hlen). destruct (ts_sub_range monoNow (monoBegin s)).
    split; [by apply pwf_uint|]. split; [by apply pwf_uint|]. split; [by apply pwf_uint|]. split; [by apply pwf_uint|].
    split; [split; [done|]; eapply Forall_impl; [exact Hl|]; intros x Hx; by apply pwf_uint|].
    split; [split; [done|]; eapply Forall_impl; [exact Hlen|]; intros x Hx; by apply pwf_uint|].
    split; [apply pwf_uint; simpl; lia|]. split; [apply pwf_uint; simpl; lia|]. split; apply pwf_zero. }
  pose proof (enc_size (p := p_StatsQueryRsp) _ Hwf) as Hlen.
  unfold GetRsp. cbn [app]. rewrite bool_decide_false by (intros E; rewrite E in Hlen; by apply (Nat.neq_0_succ _) in Hlen).
  eexists. split; [done|]. rewrite <- Hlen, Nat.sub_diag, str_take_all by (unfold slen; lia). cbn [fill].
  by apply dec_enc.
Qed.

Lemma zip_with_fmap {A B C D} (f : B -> C -> D) (g : A -> B) (h : A -> C) l :
  zip_with f (g <$> l) (h <$> l) = (fun a => f (g a) (h a)) <$> l.
Proof. induction l as [|a l IH]; [done|]. rewrite !fmap_cons. cbn. by rewrite IH. Qed.

(** There is something to report: a table of some type and a process. *)
Definition nothing_counted (s : LogStats) : bool := bool_decide (typed_tables s = []) || bool_decide (pidStats s = ∅).

Lemma stats_received monoNow s inp :
  sendable s ->
  ReceiveAndProcessStatsQueryRsp (send_stats monoNow s ++ inp) =
    if nothing_counted s then None else Some (stats_tree monoNow s, inp).
Proof.
  intros Hs. unfold ReceiveAndProcessStatsQueryRsp, send_stats, nothing_counted. rewrite <- !app_assoc.
  destruct (recv_overall monoNow s (SendLogTypeDomainStats s ++ SendDomainStats s ++
    (if tagEnable s then SendDomainTagStats s else []) ++ SendProcStats s ++ SendProcLogTypeStats s ++
    (if tagEnable s then SendProcTagStats s else []) ++ inp) Hs) as (data & -> & Hdec).
  cbn [mbind option_bind]. rewrite Hdec. unfold ReceiveLogTypeDomainStats, ReceiveProcStats. cbn [overall_rsp qr_typeNum qr_procNum].
  case_bool_decide as Ht; [by rewrite Ht|]. cbn [orb].
  rewrite (proj2 (Z.eqb_neq (Z.of_nat (length _)) 0)) by (intros E; apply Ht, length_zero_iff_nil; lia).
  rewrite recv_types by done. cbn [mbind option_bind]. rewrite recv_domains by done. cbn [mbind option_bind].
  rewrite recv_domain_tags by done. cbn [mbind option_bind]. case_bool_decide as Hp; [by rewrite Hp|].
  rewrite (proj2 (Z.eqb_neq (Z.of_nat (size _)) 0)) by (intros E; apply Hp, map_size_empty_iff; lia).
  rewrite recv_procs by done. cbn [mbind option_bind].
  rewrite recv_proc_types by done. cbn [mbind option_bind]. rewrite recv_proc_tags by done. cbn [mbind option_bind].
  unfold stats_tree. rewrite !zip_with_fmap. do 3 f_equal.
  apply list_fmap_ext. intros i jd _. by rewrite zip_with_fmap.
Qed.

(** C14: client and daemon agree on the statistics protocol: from the packets
    the daemon writes for a query, the client rebuilds exactly the overall
    numbers, the tables per type and domain and per process, their tags
    included, and consumes every packet, whether or not tags are counted.  When
    no line was counted, so that there is no table of a type or no process, the client
    reports a failure instead.  The values have to be in the range of their
    types, the tables to have fewer than 2^16 entries, and each process lines
    of some type. *)
Theorem stats_transfer monoNow s inp :
  sendable s ->
  ReceiveAndProcessStatsQueryRsp (send_stats monoNow s ++ inp) =
    if nothing_counted s then None else Some (stats_tree monoNow s, inp).
Proof. apply stats_received. Qed.
End wire.

(** ** Example *)

Definition ex_entry : StatsEntry :=
  mkStatsEntry [0; 1; 0; 0; 0] [0; 10; 0; 0; 0] 0 1 f32_zero (mkTS 5 6) 10 f32_zero (mkTS 5 6) (mkTS 5 6) (mkTS 1 6) (mkTS 1 6).
Definition ex_tags : gmap string StatsEntry := {["Tag" := ex_entry]}.
Definition ex_wire_stats : LogStats :=
  mkLogStats [∅; ∅; ∅; {[0xD002D00 := mkDomainStatsEntry ex_entry ex_tags]}; ∅; ∅]
    {[1201 := mkPidStatsEntry ex_entry [ResetStatsEntry; ResetStatsEntry; ResetStatsEntry; ex_entry; ResetStatsEntry; ResetStatsEntry]
                "foundation" ex_tags]}
    (mkTS 1 0) (mkTS 1 0) [0; 1; 0; 0; 0] [0; 10; 0; 0; 0] true true.

Ltac solve_range := by apply pwf_uint.
Ltac solve_ranges := split; [done|]; repeat (apply Forall_cons; split; [solve_range|]); by apply Forall_nil.

Lemma ex_entry_fits : entry_fits ex_entry.
Proof. split; [solve_ranges|]. split; [solve_ranges|]. repeat (split; [solve_range|]). solve_range. Qed.
Lemma reset_entry_fits : entry_fits ResetStatsEntry.
Proof. split; [solve_ranges|]. split; [solve_ranges|]. repeat (split; [solve_range|]). solve_range. Qed.

Lemma ex_wire_sendable : sendable ex_wire_stats.
Proof.
  pose proof ex_entry_fits. pose proof reset_entry_fits.
  assert (tags_fit ex_tags) by (split; [done | by apply map_Forall_singleton]).
  split.
  - done.
  - split; [done|]. split; [repeat (apply Forall_cons; split; [done|]); by apply Forall_nil|].
    split; [done|]. repeat (apply Forall_cons; split; [done|]). by apply Forall_nil.
  - reflexivity.
  - repeat (apply Forall_cons; split); try (split; [done|apply map_Forall_empty]); [|constructor].
    split; [done|]. by apply map_Forall_singleton.
  - split; [done|]. apply map_Forall_singleton. split; [done|]. split; [done|]. split; [done|]. split; [done|].
    split; [repeat (apply Forall_cons; split; [assumption|]); apply Forall_nil; exact I|]. vm_compute. discriminate.
Qed.

Lemma stats_transfer_witness :
  ReceiveAndProcessStatsQueryRsp 8 (send_stats 8 (mkTS 100 0) ex_wire_stats) = Some (stats_tree (mkTS 100 0) ex_wire_stats, []) /\
  (fun t => (lr_type (tt_rsp t), (fun d => tr_tag <$> dt_tags d) <$> tt_domains t)) <$> st_types (stats_tree (mkTS 100 0) ex_wire_stats) =
    [(LOG_CORE, [["Tag" +:+ fill 29 NUL]])].
Proof.
  split; [|by vm_compute]. rewrite <- (app_nil_r (send_stats 8 (mkTS 100 0) ex_wire_stats)).
  exact (stats_transfer 8 (mkTS 100 0) ex_wire_stats [] ex_wire_sendable).
Defined.
