(* ===== verification/Controller.v ===== *)
(** * The service controller

    ServiceController (service_controller.cpp): one per client connection.  It
    reads a request from the socket, checks it, runs it on the daemon's state
    and writes the response.  The socket keeps message boundaries: what a
    client sends and what it gets are lists of packets. *)

From S2P Require Import Prelude Common TimeStamp Utils LogData LogStats LogBuffer FlowControl LogCollector Kmsg.
From S2P Require Import LogPrint Compress Rotator Recovery Persister Cmd Properties Proc StatsWire.
From Stdlib Require Import Ascii.

Definition DEFAULT_LOG_TYPES : Z :=
  Z.lor (Z.lor (Z.shiftl 1 LOG_APP) (Z.shiftl 1 LOG_CORE)) (Z.lor (Z.shiftl 1 LOG_INIT) (Z.shiftl 1 LOG_ONLY_PRERELEASE)).
Definition DEFAULT_REMOVE_LOG_TYPES : Z :=
  Z.lor (Z.lor (Z.shiftl 1 LOG_APP) (Z.shiftl 1 LOG_CORE)) (Z.shiftl 1 LOG_ONLY_PRERELEASE).
Definition DEFAULT_PERSIST_FILE_NUM : Z := 10.
Definition DEFAULT_PERSIST_FILE_SIZE : Z := 4 * 1024 * 1024.
Definition DEFAULT_PERSIST_NORMAL_JOB_ID : Z := 1.
Definition DEFAULT_PERSIST_KMSG_JOB_ID : Z := 2.
Definition SHELL_UID : Z := 2000.
Definition ROOT_UID : Z := 0.
Definition LOGD_UID : Z := 1036.
Definition HIVIEW_UID : Z := 1201.
Definition PROFILER_UID : Z := 3063.
Definition MSG_VER : Z := 0.

Definition IsKmsg (types : Z) : bool := types =? Z.shiftl 1 LOG_KMSG.

(** No character of the class of slash, colon, star, question mark, quote,
    angle brackets and bar; its backslash only escapes the slash. *)
Definition forbidden_char (c : ascii) : bool :=
  bool_decide (c ∈ ["/"; ":"; "*"; "?"; "034"; "<"; ">"; "|"]%char).
Definition IsValidFileName (name : string) : bool := str_forall (fun c => negb (forbidden_char c)) name.

(** ** Socket *)

(** [Read] of at most [n] bytes: one packet, cut to the buffer; nothing when
    the connection is closed. *)
Definition sock_read (n : nat) (inp : list string) : string * list string :=
  match inp with
  | [] => ("", [])
  | p :: inp => (str_take n p, inp)
  end.

Definition GetMsgHeader (inp : list string) : option (MsgHeader * list string) :=
  let '(data, inp) := sock_read (psize p_MsgHeader) inp in
  if slen data <? Z.of_nat (psize p_MsgHeader) then None else Some (dec p_MsgHeader data, inp).

(** The request in a zeroed buffer of the announced size. *)
Definition GetRqst (hdr : MsgHeader) (inp : list string) (expectedLen : Z) : option (string * list string) :=
  if negb (hdr_len hdr =? expectedLen) then None
  else
    let '(data, inp) := sock_read (Z.to_nat (hdr_len hdr)) inp in
    if bool_decide (data = "") then None
    else Some (data +:+ fill (Z.to_nat (hdr_len hdr - slen data)) NUL, inp).

Definition WriteRspHeader (cmd len : Z) : string := enc p_MsgHeader (mkMsgHeader MSG_VER cmd 0 (u16 len)).
Definition WriteErrorRsp (code : Z) : string := enc p_MsgHeader (mkMsgHeader MSG_VER RSP_ERROR (i16 code) 0).

(** The header and the body of a response of type [T]. *)
Definition respond {T} (cmd : Z) (p : packed T) (rsp : T) : list string :=
  [WriteRspHeader cmd (Z.of_nat (psize p)); enc p rsp].

(** A C string at the start of [n] bytes; behind its NUL are the bytes that
    were there before. *)
Definition in_array (n : Z) (old s : string) : string :=
  s +:+ String NUL (str_take (Z.to_nat (n - slen s - 1)) (old +:+ fill (Z.to_nat n) NUL)).

(** The bytes of a line: its tag and its content, in memory that was not
    initialised. *)
Definition line_bytes (old : string * string) (d : HilogData) : string :=
  in_array (d_tagLen d) old.1 (d_tag d) +:+ in_array (d_len d - d_tagLen d) old.2 (d_content d).

(** What uninitialised memory holds. *)
Record junk := mkJunk { j_rsp : OutputRsp; j_heap : string * string }.

(** [None] is the last message; only [end] of it is set. *)
Definition WriteQueryResponse (j : junk) (pData : option HilogData) : string :=
  match pData with
  | None =>
      let r := j_rsp j in
      enc p_OutputRsp (mkOutputRsp (os_len r) (os_level r) (os_type r) (os_pid r) (os_tid r) (os_domain r)
        (os_tv_sec r) (os_tv_nsec r) (os_mono_sec r) (os_tagLen r) true)
  | Some d =>
      enc p_OutputRsp (mkOutputRsp (d_len d) (d_level d) (d_type d) (d_pid d) (d_tid d) (d_domain d)
        (d_tv_sec d) (d_tv_nsec d) (d_mono_sec d) (d_tagLen d) false) +:+ line_bytes (j_heap j) d
  end.

(** ** Requests *)

Definition CheckOutputRqst (uid : Z) (rqst : OutputRqst) : Z :=
  if negb (Z.land (or_types rqst) (Z.shiftl 1 LOG_KMSG) =? 0) && (1 <? GetBitsCount (or_types rqst)) then ERR_QUERY_TYPE_INVALID
  else if MAX_DOMAINS <? or_domainCount rqst then ERR_TOO_MANY_DOMAINS
  else if MAX_TAGS <? or_tagCount rqst then ERR_TOO_MANY_TAGS
  else if MAX_PIDS <? or_pidCount rqst then ERR_TOO_MANY_PIDS
  else if negb (uid =? ROOT_UID) && negb (uid =? SHELL_UID) && (0 <? or_pidCount rqst) && negb (uid =? HIVIEW_UID) &&
          negb (uid =? PROFILER_UID) then ERR_NO_PID_PERMISSION
  else RET_SUCCESS.

(** The first [n] elements copied from one array to another. *)
Definition copy_first {A} (n : Z) (src dst : list A) : list A := take (Z.to_nat n) src ++ drop (Z.to_nat n) dst.

(** The loop over the tags; [false] when a copy fails. *)
Fixpoint copy_tags (n : nat) (src dst : list string) : list string * bool :=
  match n, src, dst with
  | S n, s :: src, d :: dst =>
      match strncpy_s MAX_TAG_LEN s (MAX_TAG_LEN - 1) with
      | None => (d :: dst, false)
      | Some s => let '(l, ok) := copy_tags n src dst in (s :: l, ok)
      end
  | _, _, _ => (dst, true)
  end.

(** The users who see the lines of every process. *)
Definition may_read_all (uid : Z) : bool :=
  (uid =? ROOT_UID) || (uid =? SHELL_UID) || (uid =? LOGD_UID) || (uid =? HIVIEW_UID) || (uid =? PROFILER_UID).

(** [GetPPidByPid] gives the parent of a process, 0 for none. *)
Definition LogFilterFromOutputRqst (GetPPidByPid : Z -> Z) (uid pid : Z) (rqst : OutputRqst) (f : LogFilter) : LogFilter :=
  let types := if or_types rqst =? 0 then DEFAULT_LOG_TYPES else or_types rqst in
  let levels := if or_levels rqst =? 0 then u16 (Z.lnot (or_levels rqst)) else or_levels rqst in
  let domains := copy_first (or_domainCount rqst) (or_domains rqst) (f_domains f) in
  let '(tags, ok) := copy_tags (Z.to_nat (or_tagCount rqst)) (or_tags rqst) (f_tags f) in
  if negb ok then
    mkLogFilter types levels (or_blackDomain rqst) (or_domainCount rqst) domains (or_blackTag rqst) (or_tagCount rqst) tags
      (f_blackPid f) (f_pidCount f) (f_pids f) (f_regex f)
  else
    let pids := copy_first (or_pidCount rqst) (or_pids rqst) (f_pids f) in
    match strncpy_s MAX_REGEX_STR_LEN (or_regex rqst) (MAX_REGEX_STR_LEN - 1) with
    | None =>
        mkLogFilter types levels (or_blackDomain rqst) (or_domainCount rqst) domains (or_blackTag rqst) (or_tagCount rqst)
          tags (or_blackPid rqst) (or_pidCount rqst) pids (f_regex f)
    | Some regex =>
        if may_read_all uid then
          mkLogFilter types levels (or_blackDomain rqst) (or_domainCount rqst) domains (or_blackTag rqst) (or_tagCount rqst)
            tags (or_blackPid rqst) (or_pidCount rqst) pids regex
        else
          let ppid := GetPPidByPid (u32 pid) in
          let pids := aset pids 0 (u32 pid) in
          let '(pidCount, pids) := if 0 <? ppid then (2, aset pids 1 ppid) else (1, pids) in
          mkLogFilter types levels (or_blackDomain rqst) (or_domainCount rqst) domains (or_blackTag rqst) (or_tagCount rqst)
            tags false pidCount pids regex
    end.

(** ** Output *)

Section output.
Context (regex_search : string -> string -> option bool).

(** What happens before and after one [Query]: the clocks, the lines that
    other threads insert while it waits, and whether the client still reads. *)
Record out_turn := mkOutTurn { ot_clocks : clocks; ot_wait : list HilogMsg; ot_writable : bool; ot_junk : junk }.

Inductive out_end :=
  | OutWaiting        (* no turn left: the thread is in the loop *)
  | OutDone           (* the handler has returned *)
  | OutThrow.         (* an exception nobody catches *)

Definition insert_all (maxsz : list Z) (b : HilogBuffer) (msgs : list HilogMsg) : HilogBuffer :=
  foldl (fun b msg => (Insert maxsz b msg false).1.1.1) b msgs.

(** The loop of [HandleOutputRqst]: the buffer, the packets written and how
    it ends. *)
Fixpoint output_loop (maxsz : list Z) (filter : LogFilter) (readId tailCount : Z) (noBlock : bool) (lines linesCountDown : Z)
    (turns : list out_turn) (b : HilogBuffer) : HilogBuffer * list string * out_end :=
  match turns with
  | [] => (b, [], OutWaiting)
  | t :: turns =>
      let '(b, res) := Query regex_search b (ot_clocks t) filter readId tailCount in
      match res with
      | QThrow => (b, [], OutThrow)
      | QNone =>
          if noBlock then (b, [WriteQueryResponse (ot_junk t) None], OutDone)
          else output_loop maxsz filter readId tailCount noBlock lines linesCountDown turns (insert_all maxsz b (ot_wait t))
      | QLine d =>
          if negb (ot_writable t) then (b, [], OutDone)
          else
            let p := WriteQueryResponse (ot_junk t) (Some d) in
            let linesCountDown := if lines =? 0 then linesCountDown else linesCountDown - 1 in
            if negb (lines =? 0) && (linesCountDown <=? 0) then (b, [p; WriteQueryResponse (ot_junk t) None], OutDone)
            else
              let '(b, out, e) :=
                output_loop maxsz filter readId tailCount noBlock lines linesCountDown turns (insert_all maxsz b (ot_wait t)) in
              (b, p :: out, e)
      end
  end.
End output.

(** ** The daemon *)

Section controller.
Context {PS : ParamService} {ZL : Zlib}.
Context (localtime_r : Z -> option tm) (char_signed : bool) (regex_search : string -> string -> option bool).
(** The iteration order of the table of types, the size of a pointer. *)
Context (allTypes : list Z) (ptr_size : nat).

Record Daemon := mkDaemon {
  dm_collector : LogCollector;        (* with the log buffer *)
  dm_kmsgBuffer : HilogBuffer;
  dm_maxsz : list Z;                  (* g_maxBufferSizeByType *)
  dm_jobs : list LogPersister;
  dm_fs : filesystem;
  dm_kmsgStatus : ThreadStatus;
  dm_sys : sys;
}.

Definition with_buffer (d : Daemon) (kmsg : bool) (b : HilogBuffer) : Daemon :=
  mkDaemon (if kmsg then dm_collector d else set_buffer (dm_collector d) b) (if kmsg then b else dm_kmsgBuffer d)
    (dm_maxsz d) (dm_jobs d) (dm_fs d) (dm_kmsgStatus d) (dm_sys d).
Definition buffer_of (d : Daemon) (kmsg : bool) : HilogBuffer :=
  if kmsg then dm_kmsgBuffer d else m_hilogBuffer (dm_collector d).
Definition with_jobs (d : Daemon) (jobs : list LogPersister) (fs : filesystem) : Daemon :=
  mkDaemon (dm_collector d) (dm_kmsgBuffer d) (dm_maxsz d) jobs fs (dm_kmsgStatus d) (dm_sys d).
Definition with_sys (d : Daemon) (s : sys) : Daemon :=
  mkDaemon (dm_collector d) (dm_kmsgBuffer d) (dm_maxsz d) (dm_jobs d) (dm_fs d) (dm_kmsgStatus d) s.

(** What the system contributes to one connection. *)
Record conn := mkConn {
  cn_uid : Z; cn_pid : Z;                 (* credentials of the socket *)
  cn_ppid : Z -> Z;                       (* GetPPidByPid *)
  cn_reader : Z; cn_kreader : Z;          (* ids of the readers of this controller *)
  cn_jobReader : Z;                       (* id of the reader of a job it starts *)
  cn_turns : list out_turn;
  cn_dir : list (bool * bool);            (* attempts to find the directory: found, time is up *)
  cn_init : init_env;
  cn_file : file_env;
  cn_clocks : clocks;
  cn_idle : bool;
  cn_entries : list string;               (* of the log directory *)
  cn_now : LogTimeStamp * LogTimeStamp;
}.

(** The state, what is written, and whether the handler ran to its end;
    [None] is an uncaught exception or an access outside of an array. *)
Definition handled : Type := option (Daemon * list string * bool).

Definition HandleOutputRqst (cn : conn) (d : Daemon) (rqst : OutputRqst) : handled :=
  let ret := CheckOutputRqst (cn_uid cn) rqst in
  if negb (ret =? RET_SUCCESS) then Some (d, [WriteErrorRsp ret], true)
  else
    let filter := LogFilterFromOutputRqst (cn_ppid cn) (cn_uid cn) (cn_pid cn) rqst no_filter in
    let lines := if or_headLines rqst =? 0 then or_tailLines rqst else or_headLines rqst in
    let isKmsg := IsKmsg (f_types filter) in
    let '(b, out, e) :=
      output_loop regex_search (dm_maxsz d) filter (if isKmsg then cn_kreader cn else cn_reader cn) (or_tailLines rqst)
        (or_noBlock rqst) lines lines (cn_turns cn) (buffer_of d isKmsg) in
    let d := with_buffer d isKmsg b in
    let out := WriteRspHeader OUTPUT_RSP (Z.of_nat (psize p_OutputRsp)) :: out in
    match e with
    | OutThrow => None
    | OutDone => Some (d, out, true)
    | OutWaiting => Some (d, out, false)
    end.

(** *** Persist jobs *)

(** A C string in a request: it ends at the first NUL of the bytes from its
    start to the end of the request; [None]: there is none. *)
Definition c_string (bytes : string) : option string :=
  if str_mem NUL bytes then Some (cstr bytes) else None.

Definition rqst_fileName (rqst : PersistStartRqst) : option string := c_string (ps_fileName rqst +:+ ps_stream rqst).

Definition CheckPersistStartRqst (uid : Z) (rqst : PersistStartRqst) : option Z :=
  let ret := CheckOutputRqst uid (ps_outputFilter rqst) in
  if negb (ret =? RET_SUCCESS) then Some ret
  else if negb (ps_jobId rqst =? 0) && ((ps_jobId rqst <? JOB_ID_MIN) || (ps_jobId rqst =? JOB_ID_MAX))
  then Some ERR_LOG_PERSIST_JOBID_INVALID
  else if negb (ps_fileSize rqst =? 0) && ((ps_fileSize rqst <? MIN_LOG_FILE_SIZE) || (MAX_LOG_FILE_SIZE <? ps_fileSize rqst))
  then Some ERR_LOG_PERSIST_FILE_SIZE_INVALID
  else
    fileName ← rqst_fileName rqst;
    if negb (bool_decide (fileName = "")) && negb (IsValidFileName fileName) then Some ERR_LOG_PERSIST_FILE_NAME_INVALID
    else if negb (ps_fileNum rqst =? 0) && ((MAX_LOG_FILE_NUM <? ps_fileNum rqst) || (ps_fileNum rqst <? MIN_LOG_FILE_NUM))
    then Some ERR_LOG_FILE_NUM_INVALID
    else Some RET_SUCCESS.

Definition PersistStartRqst2Msg (cn : conn) (rqst : PersistStartRqst) (msg : LogPersistStartMsg) : option LogPersistStartMsg :=
  let filter := LogFilterFromOutputRqst (cn_ppid cn) (cn_uid cn) (cn_pid cn) (ps_outputFilter rqst) (sm_filter msg) in
  let isKmsgType := or_types (ps_outputFilter rqst) =? Z.shiftl 1 LOG_KMSG in
  stream ← c_string (ps_stream rqst);
  let compressAlg := Str2CompressType stream in
  let fileSize := if ps_fileSize rqst =? 0 then DEFAULT_PERSIST_FILE_SIZE else ps_fileSize rqst in
  let fileNum := if ps_fileNum rqst =? 0 then DEFAULT_PERSIST_FILE_NUM else ps_fileNum rqst in
  let jobId := if ps_jobId rqst =? 0 then (if isKmsgType then DEFAULT_PERSIST_KMSG_JOB_ID else DEFAULT_PERSIST_NORMAL_JOB_ID)
               else ps_jobId rqst in
  fileName ← rqst_fileName rqst;
  let fileName := if bool_decide (fileName = "") then (if isKmsgType then "hilog_kmsg" else "hilog") else fileName in
  let filePath := HILOG_FILE_DIR +:+ fileName in
  let filePath := default (sm_filePath msg) (strncpy_s FILE_PATH_MAX_LEN filePath (slen filePath)) in
  Some (mkStartMsg compressAlg filePath fileSize fileNum jobId filter).

(** [WaitingToDo]: the attempts, each with whether it succeeds and whether
    the time is up afterwards; [None] when it still waits. *)
Fixpoint WaitingToDo (attempts : list (bool * bool)) : option Z :=
  match attempts with
  | [] => None
  | (true, _) :: _ => Some RET_SUCCESS
  | (false, true) :: _ => Some RET_FAIL
  | (false, false) :: attempts => WaitingToDo attempts
  end.

Definition no_msg : LogPersistStartMsg := ri_msg no_info.

(** The first half of [HandlePersistStartRqst], up to the message for the job:
    what the client is told instead, or the message. *)
Definition AdmitPersistStart (cn : conn) (d : Daemon) (rqst : PersistStartRqst) : option (list string * bool + LogPersistStartMsg) :=
  match WaitingToDo (cn_dir cn) with
  | None => Some (inl ([], false))
  | Some ret =>
      if negb (ret =? RET_SUCCESS) then Some (inl ([WriteErrorRsp ERR_LOG_PERSIST_FILE_PATH_INVALID], true))
      else
        ret ← CheckPersistStartRqst (cn_uid cn) rqst;
        if negb (ret =? RET_SUCCESS) then Some (inl ([WriteErrorRsp ret], true))
        else if MAX_JOBS <=? Z.of_nat (length (QueryJobs (dm_jobs d))) then Some (inl ([WriteErrorRsp ERR_TOO_MANY_JOBS], true))
        else msg ← PersistStartRqst2Msg cn rqst no_msg; Some (inr msg)
  end.

(** The second half.  No lock is held between the two, so that requests of
    other clients can come between them. *)
Definition BeginPersistJob (cn : conn) (d : Daemon) (rqst : PersistStartRqst) (msg : LogPersistStartMsg) : handled :=
  let isKmsg := IsKmsg (or_types (ps_outputFilter rqst)) in
  let b := CreateBufReader (buffer_of d isKmsg) (cn_jobReader cn) true in
  '(jobs, fs, ret) ← StartPersistStoreJob char_signed (cn_init cn) (cn_jobReader cn) isKmsg (mkRecoveryInfo 0 msg) false
                       (dm_jobs d) (dm_fs d);
  let b := if ret =? RET_SUCCESS then b else RemoveBufReader b (cn_jobReader cn) in
  let d := with_buffer (with_jobs d jobs fs) isKmsg b in
  if negb (ret =? RET_SUCCESS) then Some (d, [WriteErrorRsp ret], true)
  else Some (d, respond PERSIST_START_RSP p_jobId (sm_jobId msg), true).

(** The handler, when no other request comes between. *)
Definition HandlePersistStartRqst (cn : conn) (d : Daemon) (rqst : PersistStartRqst) : handled :=
  admitted ← AdmitPersistStart cn d rqst;
  match admitted with
  | inl (out, fin) => Some (d, out, fin)
  | inr msg => BeginPersistJob cn d rqst msg
  end.

(** The loops of [HandlePersistStopRqst] and [HandlePersistRefreshRqst]: [op]
    runs on the jobs selected, whose ids are returned. *)
Fixpoint over_jobs (op : Daemon -> Z -> option Daemon) (rqstId : Z) (resultList : list LogPersistQueryResult) (ids : list Z)
    (d : Daemon) : option (Daemon * list Z) :=
  match resultList with
  | [] => Some (d, ids)
  | it :: rest =>
      if Z.of_nat (length ids) <? MAX_JOBS then
        if (rqstId =? 0) || (rqstId =? q_jobId it) then
          d ← op d (q_jobId it); over_jobs op rqstId rest (ids ++ [q_jobId it]) d
        else over_jobs op rqstId rest ids d
      else Some (d, ids)
  end.

Definition ids_rsp (ids : list Z) : PersistStopRsp :=
  mkPersistStopRsp (Z.of_nat (length ids)) (ids ++ replicate (Z.to_nat MAX_JOBS - length ids) 0).

Definition HandleJobs (op : Daemon -> Z -> option Daemon) (rspCmd : Z) (d : Daemon) (rqstId : Z) : handled :=
  let resultList := QueryJobs (dm_jobs d) in
  if (rqstId =? 0) && bool_decide (resultList = []) then Some (d, [WriteErrorRsp ERR_PERSIST_TASK_EMPTY], true)
  else
    '(d, ids) ← over_jobs op rqstId resultList [] d;
    if bool_decide (ids = []) then Some (d, [WriteErrorRsp ERR_JOBID_NOT_EXSIST], true)
    else Some (d, respond rspCmd p_PersistStopRsp (ids_rsp ids), true).

(** The buffer a job reads from. *)
Definition job_kmsg (jobs : list LogPersister) (id : Z) : bool :=
  match GetLogPersisterById jobs id with Some p => p_kmsg p | None => false end.

Definition kill_op (cn : conn) (d : Daemon) (id : Z) : option Daemon :=
  let k := job_kmsg (dm_jobs d) id in
  '(jobs, b, fs, _) ← Kill char_signed (cn_file cn) (dm_jobs d) (buffer_of d k) (dm_fs d) id;
  Some (with_buffer (with_jobs d jobs fs) k b).

Definition refresh_op (cn : conn) (d : Daemon) (id : Z) : option Daemon :=
  let k := job_kmsg (dm_jobs d) id in
  '(jobs, b, fs, _) ← Refresh localtime_r char_signed regex_search (cn_file cn) (cn_clocks cn) (cn_idle cn) (dm_jobs d)
                        (buffer_of d k) (dm_fs d) id;
  Some (with_buffer (with_jobs d jobs fs) k b).

Definition HandlePersistStopRqst (cn : conn) (d : Daemon) (jobId : Z) : handled :=
  HandleJobs (kill_op cn) PERSIST_STOP_RSP d jobId.
Definition HandlePersistRefreshRqst (cn : conn) (d : Daemon) (jobId : Z) : handled :=
  HandleJobs (refresh_op cn) PERSIST_REFRESH_RSP d jobId.

Definition zero_rqst : OutputRqst :=
  mkOutputRqst 0 0 0 false 0 (replicate (Z.to_nat MAX_DOMAINS) 0) false 0
    (replicate (Z.to_nat MAX_TAGS) (fill (Z.to_nat MAX_TAG_LEN) NUL)) false 0 (replicate (Z.to_nat MAX_PIDS) 0)
    (fill (Z.to_nat MAX_REGEX_STR_LEN) NUL) false 0.
Definition zero_task : PersistStartRqst :=
  mkPersistStartRqst zero_rqst 0 0 0 (fill (Z.to_nat MAX_FILE_NAME_LEN) NUL) (fill (Z.to_nat MAX_STREAM_NAME_LEN) NUL).

(** One entry of the answer; [None] when a name cannot be copied. *)
Definition task_info (it : LogPersistQueryResult) : option PersistStartRqst :=
  fileName ← strncpy_s MAX_FILE_NAME_LEN (q_filePath it) (MAX_FILE_NAME_LEN - 1);
  stream ← strncpy_s MAX_STREAM_NAME_LEN (CompressType2Str (q_compressAlg it)) (MAX_STREAM_NAME_LEN - 1);
  Some (mkPersistStartRqst
    (mkOutputRqst 0 (u16 (q_logType it)) 0 false 0 (or_domains zero_rqst) false 0 (or_tags zero_rqst) false 0
       (or_pids zero_rqst) (or_regex zero_rqst) false 0)
    (q_jobId it) (q_fileSize it) (u16 (q_fileNum it)) (char_array MAX_FILE_NAME_LEN fileName) (char_array MAX_STREAM_NAME_LEN stream)).

Definition HandlePersistQueryRqst (d : Daemon) : handled :=
  let resultList := QueryJobs (dm_jobs d) in
  if bool_decide (resultList = []) then Some (d, [WriteErrorRsp ERR_NO_RUNNING_TASK], true)
  else
    match mapM task_info (take (Z.to_nat MAX_JOBS) resultList) with
    | None => Some (d, [], true)
    | Some tasks =>
        Some (d, respond PERSIST_QUERY_RSP p_PersistQueryRsp
                   (mkPersistQueryRsp (Z.of_nat (length tasks)) (tasks ++ replicate (Z.to_nat MAX_JOBS - length tasks) zero_task)),
              true)
    end.

Definition placeholder : string := String NUL "".

Definition HandlePersistClearRqst (cn : conn) (d : Daemon) : handled :=
  Some (with_jobs d (dm_jobs d) (Clear (cn_entries cn) (dm_fs d)), respond PERSIST_CLEAR_RSP p_placeholder placeholder, true).

(** *** Buffers, statistics and switches *)

Definition selected (types : Z) : list Z := filter (fun t => Z.land (Z.shiftl 1 t) types <> 0) allTypes.

Definition HandleBufferSizeGetRqst (d : Daemon) (rqstTypes : Z) : handled :=
  let types := if rqstTypes =? 0 then DEFAULT_LOG_TYPES else rqstTypes in
  let sizes := foldl (fun l t => aset l t (u32 (GetBuffLen (dm_maxsz d) t))) (replicate (Z.to_nat LOG_TYPE_MAX) 0) (selected types) in
  if bool_decide (selected types = []) then Some (d, [WriteErrorRsp ERR_LOG_TYPE_INVALID], true)
  else Some (d, respond BUFFERSIZE_GET_RSP p_BufferSizeGetRsp sizes, true).

(** One type of [HandleBufferSizeSetRqst]; the size is converted to
    [uint64_t]. *)
Definition set_size (size : Z) (st : Daemon * list Z) (t : Z) : Daemon * list Z :=
  let '(d, sizes) := st in
  let '(maxsz, ret) := SetBuffLen (dm_maxsz d) t (u64 size) in
  let s := if ret =? RET_SUCCESS then (SetBufferSize (dm_sys d) t true (u64 size)).1 else dm_sys d in
  (mkDaemon (dm_collector d) (dm_kmsgBuffer d) maxsz (dm_jobs d) (dm_fs d) (dm_kmsgStatus d) s,
   aset sizes t (if ret =? RET_SUCCESS then size else ret)).

Definition HandleBufferSizeSetRqst (d : Daemon) (rqst : BufferSizeSetRqst) : handled :=
  let types := if bs_types rqst =? 0 then DEFAULT_LOG_TYPES else bs_types rqst in
  let '(d, sizes) := foldl (set_size (bs_size rqst)) (d, replicate (Z.to_nat LOG_TYPE_MAX) 0) (selected types) in
  if bool_decide (selected types = []) then Some (d, [WriteErrorRsp ERR_LOG_TYPE_INVALID], true)
  else Some (d, respond BUFFERSIZE_SET_RSP p_BufferSizeSetRsp sizes, true).

Definition HandleStatsQueryRqst (cn : conn) (d : Daemon) : handled :=
  let st := stats (buffer_of d false) in
  if negb (enable st) then Some (d, [WriteErrorRsp ERR_STATS_NOT_ENABLE], true)
  else Some (d, WriteRspHeader STATS_QUERY_RSP (Z.of_nat (psize (p_StatsQueryRsp ptr_size))) ::
                  send_stats ptr_size (cn_now cn).2 st, true).

Definition HandleStatsClearRqst (cn : conn) (d : Daemon) : handled :=
  Some (with_buffer d false (ResetStats (cn_now cn).1 (cn_now cn).2 (buffer_of d false)),
        respond STATS_CLEAR_RSP p_placeholder placeholder, true).

Definition HandleDomainFlowCtrlRqst (d : Daemon) (on : bool) : handled :=
  let d := with_sys d (SetDomainSwitchOn (dm_sys d) on).1 in
  Some (mkDaemon (SetLogFlowControl (dm_collector d) on) (dm_kmsgBuffer d) (dm_maxsz d) (dm_jobs d) (dm_fs d)
          (dm_kmsgStatus d) (dm_sys d),
        respond DOMAIN_FLOWCTRL_RSP p_placeholder placeholder, true).

Definition remove_type (d : Daemon) (t : Z) : Daemon :=
  with_buffer d (t =? LOG_KMSG) (Delete (buffer_of d (t =? LOG_KMSG)) t).1.

Definition HandleLogRemoveRqst (d : Daemon) (rqstTypes : Z) : handled :=
  let types := if rqstTypes =? 0 then DEFAULT_REMOVE_LOG_TYPES else rqstTypes in
  let d := foldl remove_type d (selected types) in
  if bool_decide (selected types = []) then Some (d, [WriteErrorRsp ERR_LOG_TYPE_INVALID], true)
  else Some (d, respond LOG_REMOVE_RSP p_types types, true).

Definition HandleLogKmsgEnableRqst (d : Daemon) (on : bool) : handled :=
  let s := (SetKmsgSwitchOn (dm_sys d) on).1 in
  let st := if on then (Start (dm_kmsgStatus d)).1 else (Stop (dm_kmsgStatus d)).1 in
  Some (mkDaemon (dm_collector d) (dm_kmsgBuffer d) (dm_maxsz d) (dm_jobs d) (dm_fs d) st s,
        respond KMSG_ENABLE_RSP p_placeholder placeholder, true).

(** ** Dispatch *)

Definition IsValidCmd (list : list Z) (cmd : Z) : bool := bool_decide (cmd ∈ list).

(** [RequestHandler]. *)
Definition RequestHandler {T} (p : packed T) (hdr : MsgHeader) (inp : list string) (d : Daemon) (handle : T -> handled) : handled :=
  match GetRqst hdr inp (Z.of_nat (psize p)) with
  | None => Some (d, [], true)
  | Some (data, _) => handle (dec p data)
  end.

(** The packets of the client in, those of the daemon out. *)
Definition CommunicationLoop (cmds : list Z) (cn : conn) (inp : list string) (d : Daemon) : handled :=
  match GetMsgHeader inp with
  | None => Some (d, [], true)
  | Some (hdr, inp) =>
      let cmd := hdr_cmd hdr in
      if negb (IsValidCmd cmds cmd) then Some (d, [WriteErrorRsp ERR_INVALID_RQST_CMD], true)
      else if cmd =? OUTPUT_RQST then RequestHandler p_OutputRqst hdr inp d (HandleOutputRqst cn d)
      else if cmd =? PERSIST_START_RQST then RequestHandler p_PersistStartRqst hdr inp d (HandlePersistStartRqst cn d)
      else if cmd =? PERSIST_STOP_RQST then RequestHandler p_jobId hdr inp d (HandlePersistStopRqst cn d)
      else if cmd =? PERSIST_QUERY_RQST then RequestHandler p_placeholder hdr inp d (fun _ => HandlePersistQueryRqst d)
      else if cmd =? BUFFERSIZE_GET_RQST then RequestHandler p_types hdr inp d (HandleBufferSizeGetRqst d)
      else if cmd =? BUFFERSIZE_SET_RQST then RequestHandler p_BufferSizeSetRqst hdr inp d (HandleBufferSizeSetRqst d)
      else if cmd =? STATS_QUERY_RQST then RequestHandler p_StatsQueryRqst hdr inp d (fun _ => HandleStatsQueryRqst cn d)
      else if cmd =? PERSIST_REFRESH_RQST then RequestHandler p_jobId hdr inp d (HandlePersistRefreshRqst cn d)
      else if cmd =? PERSIST_CLEAR_RQST then RequestHandler p_placeholder hdr inp d (fun _ => HandlePersistClearRqst cn d)
      else if cmd =? STATS_CLEAR_RQST then RequestHandler p_placeholder hdr inp d (fun _ => HandleStatsClearRqst cn d)
      else if cmd =? DOMAIN_FLOWCTRL_RQST then RequestHandler p_on hdr inp d (HandleDomainFlowCtrlRqst d)
      else if cmd =? LOG_REMOVE_RQST then RequestHandler p_types hdr inp d (HandleLogRemoveRqst d)
      else if cmd =? KMSG_ENABLE_RQST then RequestHandler p_on hdr inp d (HandleLogKmsgEnableRqst d)
      else Some (d, [], true)
  end.

(** The controller: its readers exist as long as the connection. *)
Definition serve_client (cmds : list Z) (cn : conn) (inp : list string) (d : Daemon) : handled :=
  let d := with_buffer d false (CreateBufReader (buffer_of d false) (cn_reader cn) true) in
  let d := with_buffer d true (CreateBufReader (buffer_of d true) (cn_kreader cn) true) in
  '(d, out, fin) ← CommunicationLoop cmds cn inp d;
  if fin : bool then
    let d := with_buffer d false (RemoveBufReader (buffer_of d false) (cn_reader cn)) in
    let d := with_buffer d true (RemoveBufReader (buffer_of d true) (cn_kreader cn)) in
    Some (d, out, fin)
  else Some (d, out, fin).
End controller.
