(* ===== verification/ControllerProps.v ===== *)
(** * Properties of the service controller

    Access control of queries, what a query delivers, the paths of persist
    jobs, and the framing of requests. *)

From S2P Require Import Prelude Common TimeStamp Utils LogData LogStats LogBuffer LogBufferSpec LogBufferProps.
From S2P Require Import FlowControl LogCollector Kmsg LogPrint Compress Rotator Recovery Persister Cmd.
From S2P Require Import Properties Proc StatsWire Controller.
From Stdlib Require Import Ascii.

(** ** Filters made from requests *)

Lemma copy_tags_ok n src dst : (copy_tags n src dst).2 = true.
Proof.
  revert src dst. induction n as [|n IH]; intros [|s src] [|d dst]; try done. cbn [copy_tags].
  rewrite strncpy_s_short by done. specialize (IH src dst). by destruct (copy_tags n src dst).
Qed.

(** The copies never fail, so the function never returns before the check of
    the user. *)
Lemma LogFilterFromOutputRqst_eq ppid uid pid rqst f :
  LogFilterFromOutputRqst ppid uid pid rqst f =
  let p := ppid (u32 pid) in
  let pids := copy_first (or_pidCount rqst) (or_pids rqst) (f_pids f) in
  mkLogFilter
    (if or_types rqst =? 0 then DEFAULT_LOG_TYPES else or_types rqst)
    (if or_levels rqst =? 0 then 0xFFFF else or_levels rqst)
    (or_blackDomain rqst) (or_domainCount rqst) (copy_first (or_domainCount rqst) (or_domains rqst) (f_domains f))
    (or_blackTag rqst) (or_tagCount rqst) (copy_tags (Z.to_nat (or_tagCount rqst)) (or_tags rqst) (f_tags f)).1
    (if may_read_all uid then or_blackPid rqst else false)
    (if may_read_all uid then or_pidCount rqst else if 0 <? p then 2 else 1)
    (if may_read_all uid then pids
     else if 0 <? p then aset (aset pids 0 (u32 pid)) 1 p else aset pids 0 (u32 pid))
    (str_take (Z.to_nat (MAX_REGEX_STR_LEN - 1)) (cstr (or_regex rqst))).
Proof.
  unfold LogFilterFromOutputRqst. pose proof (copy_tags_ok (Z.to_nat (or_tagCount rqst)) (or_tags rqst) (f_tags f)) as Hok.
  destruct (copy_tags _ _ _) as [tags ok]. cbn [snd] in Hok. rewrite Hok. cbn [negb fst].
  rewrite strncpy_s_short by done.
  assert ((if or_levels rqst =? 0 then u16 (Z.lnot (or_levels rqst)) else or_levels rqst) =
          (if or_levels rqst =? 0 then 0xFFFF else or_levels rqst)) as ->.
  { destruct (Z.eqb_spec (or_levels rqst) 0) as [->|]; done. }
  destruct (may_read_all uid); [done|]. by destruct (0 <? ppid (u32 pid)).
Qed.

Lemma copy_first_length {A} n (src dst : list A) :
  length src = length dst -> length (copy_first n src dst) = length dst.
Proof. intros H. unfold copy_first. rewrite length_app, length_take, length_drop. lia. Qed.

(** The processes whose lines a client may see. *)
Definition own_pids (ppid : Z -> Z) (pid : Z) : list Z :=
  u32 pid :: (if 0 <? ppid (u32 pid) then [ppid (u32 pid)] else []).

Lemma refused_false count black found : refused count black found = false -> count <> 0 -> found = negb black.
Proof. unfold refused. destruct (Z.eqb_spec count 0); [done|]. by destruct found, black. Qed.

Lemma match_pid rs f d :
  LogMatchFilter rs f d = Some true -> f_pidCount f <> 0 -> f_blackPid f = false ->
  d_pid d ∈ entries (f_pidCount f) (f_pids f).
Proof.
  unfold LogMatchFilter. intros H Hc Hb. destruct (_ =? 0); [done|]. destruct (_ =? 0); [done|].
  destruct (refused (f_domainCount f) _ _); [done|]. destruct (refused (f_tagCount f) _ _); [done|].
  destruct (refused (f_pidCount f) _ _) eqn:E; [done|]. apply refused_false in E; [|done]. rewrite Hb in E. cbn [negb] in E.
  apply existsb_exists in E as (x & Hx & ->%Z.eqb_eq). by apply list_elem_of_In.
Qed.

Lemma confined_filter rs ppid uid pid rqst f d :
  may_read_all uid = false -> pwf p_OutputRqst rqst -> length (f_pids f) = Z.to_nat MAX_PIDS ->
  LogMatchFilter rs (LogFilterFromOutputRqst ppid uid pid rqst f) d = Some true -> d_pid d ∈ own_pids ppid pid.
Proof.
  intros Hu Hwf Hf Hm. assert (length (or_pids rqst) = Z.to_nat MAX_PIDS) as Hp.
  { destruct Hwf as (_ & _ & _ & _ & _ & _ & _ & _ & _ & _ & _ & [Hp _] & _). exact Hp. }
  rewrite LogFilterFromOutputRqst_eq, Hu in Hm. cbv zeta in Hm.
  set (pids := copy_first (or_pidCount rqst) (or_pids rqst) (f_pids f)) in Hm.
  assert (length pids = Z.to_nat MAX_PIDS) as Hl by (unfold pids; by rewrite copy_first_length, Hf by congruence).
  unfold own_pids. apply match_pid in Hm; cbn [f_pidCount f_blackPid f_pids] in *.
  - destruct (0 <? ppid (u32 pid)); destruct pids as [|a [|b pids]]; try done.
  - by destruct (0 <? _).
  - done.
Qed.

(** ** What a query returns *)

Lemma scan_line rs f l pos d : scan rs f l = (pos, QLine d) -> LogMatchFilter rs f d = Some true.
Proof.
  induction l as [|[i x] l IH]; [done|]. cbn [scan]. destruct (LogMatchFilter rs f x) as [[]|] eqn:E; [|done..].
  by intros [= _ <-].
Qed.

Lemma Query_line rs b c f id tail b' d :
  Query rs b c f id tail = (b', QLine d) -> (exists k, skip_notice c k = Some d) \/ LogMatchFilter rs f d = Some true.
Proof.
  unfold Query. destruct (GetReader b id) as [r|]; [|done].
  destruct (if r_msgList r then _ else _) as [r' ok]. destruct (negb ok); [done|].
  destruct (if r_skipped r' =? 0 then None else skip_notice c (r_skipped r')) as [n|] eqn:E.
  - intros [= _ <-]. left. destruct (_ =? 0); [done|]. eauto.
  - destruct (scan rs f _) as [pos res] eqn:Es. intros [= _ ->]. right. by eapply scan_line.
Qed.

(** A packet of an output response: the end, the notice about missed lines,
    or a line of one of the given processes. *)
Definition line_packet (pids : list Z) (p : string) : Prop :=
  exists j, p = WriteQueryResponse j None \/
    exists d, p = WriteQueryResponse j (Some d) /\ ((exists c k, skip_notice c k = Some d) \/ d_pid d ∈ pids).

Lemma output_loop_packets rs maxsz f id tail nb lines cd turns b pids :
  (forall d, LogMatchFilter rs f d = Some true -> d_pid d ∈ pids) ->
  Forall (line_packet pids) (output_loop rs maxsz f id tail nb lines cd turns b).1.2.
Proof.
  intros Hf. revert cd b. induction turns as [|t turns IH]; intros cd b; [constructor|]. cbn [output_loop].
  destruct (Query rs b (ot_clocks t) f id tail) as [b1 res] eqn:EQ. destruct res as [d| |]; cbn [fst snd].
  - apply Query_line in EQ.
    assert (line_packet pids (WriteQueryResponse (ot_junk t) (Some d))) as Hp.
    { exists (ot_junk t). right. exists d. split; [done|]. destruct EQ as [[k Hk]|Hm]; [left; eauto | right; by apply Hf]. }
    destruct (negb _); [constructor|]. destruct (negb _ && _).
    + repeat constructor; [done|]. exists (ot_junk t). by left.
    + set (cd' := if lines =? 0 then cd else cd - 1). specialize (IH cd' (insert_all maxsz b1 (ot_wait t))).
      destruct (output_loop _ _ _ _ _ _ _ _ _ _) as [[b2 out] e]. cbn [fst snd] in *. by constructor.
  - destruct nb; [|apply IH]. repeat constructor. exists (ot_junk t). by left.
  - constructor.
Qed.

(** ** Access control *)

Section access.
Context (regex_search : string -> string -> option bool).

(** C8: a client whose user is none of root, shell, logd, hiview and the
    profiler gets, whatever its output request says, no packet but the
    response header or an error, the end of the listing, the notice about
    missed lines, and lines of its own process or of the parent the daemon
    looks up for it. *)
Theorem output_confined (cn : conn) (d d' : Daemon) (rqst : OutputRqst) (out : list string) (fin : bool)
    (uid_ok : may_read_all (cn_uid cn) = false) (rqst_wf : pwf p_OutputRqst rqst)
    (handled : HandleOutputRqst regex_search cn d rqst = Some (d', out, fin)) :
  exists h rest, out = h :: rest /\ (h = WriteRspHeader OUTPUT_RSP (Z.of_nat (psize p_OutputRsp)) \/ exists e, h = WriteErrorRsp e) /\
    Forall (line_packet (own_pids (cn_ppid cn) (cn_pid cn))) rest.
Proof.
  revert handled. unfold HandleOutputRqst. destruct (negb _).
  { intros [= _ <- _]. eexists _, []. eauto. }
  set (f := LogFilterFromOutputRqst _ _ _ _ _). set (nl := if or_headLines rqst =? 0 then _ else _).
  set (rid := if IsKmsg (f_types f) then _ else _). set (b := buffer_of d _).
  pose proof (output_loop_packets regex_search (dm_maxsz d) f rid (or_tailLines rqst) (or_noBlock rqst) nl nl (cn_turns cn) b
                (own_pids (cn_ppid cn) (cn_pid cn))) as Hp.
  destruct (output_loop _ _ _ _ _ _ _ _ _ _) as [[b' rest] e]. cbn [fst snd] in Hp.
  intros H. exists (WriteRspHeader OUTPUT_RSP (Z.of_nat (psize p_OutputRsp))), rest. split; [by destruct e; inversion H|].
  split; [by left|]. apply Hp. intros x. by apply confined_filter.
Qed.
End access.

(** ** Listing the buffer *)

Section listing.
Context (regex_search : string -> string -> option bool) (f : LogFilter).
Abbreviation loop := (output_loop regex_search).

(** The expression of the filter compiles, as far as the lines of the buffer
    can tell. *)
Definition no_throw (b : HilogBuffer) : Prop :=
  Forall (fun n => LogMatchFilter regex_search f n.2 <> None) (hilogDataList b).

(** Nothing is inserted and the client keeps reading. *)
Definition quiet (t : out_turn) : Prop := ot_wait t = [] /\ ot_writable t = true.

Lemma Query_no_throw b c id tail b' :
  no_throw b -> (tail = 0 \/ exists r, m_logReaders b !! id = Some r /\ r_msgList r = true) ->
  Query regex_search b c f id tail <> (b', QThrow).
Proof.
  intros Hb Ht. unfold Query, GetReader. destruct (m_logReaders b !! id) as [r|] eqn:Er; [|done].
  assert (exists r', (if r_msgList r then (r, true) else
            let '(pos, ok) := tail_pos regex_search f tail (hilogDataList b) in
            (mkBufferReader pos true (r_skipped r) (r_callback r), ok)) = (r', true)) as [r' ->].
  { destruct Ht as [->|(r0 & [= <-] & ->)]; [|eauto]. destruct (r_msgList r); eauto. }
  cbn [negb]. destruct (if r_skipped r' =? 0 then None else skip_notice c (r_skipped r')); [done|].
  destruct (scan regex_search f _) as [pos res] eqn:Es. intros [= _ ->]. apply scan_spec in Es as (seen & rest & E & Hres).
  destruct Hres as (seen' & n & -> & _ & Hm & _). destruct (from_pos_suffix (r_pos r') (hilogDataList b)) as [pre Hpre].
  unfold no_throw in Hb. rewrite Hpre, E in Hb. apply Forall_app in Hb as [_ Hb]. apply Forall_app in Hb as [Hb _].
  apply Forall_app in Hb as [_ Hb]. apply Forall_cons in Hb as [Hb _]. contradiction.
Qed.

Lemma no_throw_list b b' : hilogDataList b' = hilogDataList b -> no_throw b -> no_throw b'.
Proof. unfold no_throw. by intros ->. Qed.

(** The packets of [lines], written in the turns. *)
Definition line_packets (turns : list out_turn) (lines : list HilogData) : list string :=
  zip_with (fun t d => WriteQueryResponse (ot_junk t) (Some d)) turns lines.

(** A query that does not wait lists the lines the reader has ahead, at most
    [cd] of them when [lines] is set. *)
Lemma output_loop_listing maxsz id tail lines cd turns b r :
  buf_ok b -> m_logReaders b !! id = Some r -> r_msgList r = true -> r_skipped r = 0 -> no_throw b ->
  Forall quiet turns -> (length (outstanding regex_search f b r) < length turns)%nat -> (lines <> 0 -> 0 < cd) ->
  let wants := outstanding regex_search f b r in
  exists b' t, t ∈ turns /\ loop maxsz f id tail true lines cd turns b =
    (b', line_packets turns (if lines =? 0 then wants else take (Z.to_nat cd) wants) ++ [WriteQueryResponse (ot_junk t) None],
     OutDone) /\
    hilogDataList b' = hilogDataList b.
Proof.
  revert cd b r. induction turns as [|t turns IH]; intros cd b r Hb Hr Hml Hsk Hnt Hq Hlen Hcd; [simpl in Hlen; lia|].
  apply Forall_cons in Hq as [[Hw Hwr] Hq]. cbn [output_loop].
  destruct (Query regex_search b (ot_clocks t) f id tail) as [b1 res] eqn:EQ. cbv zeta.
  pose proof (Query_ok regex_search b (ot_clocks t) f id tail Hb) as Hb1. rewrite EQ in Hb1. cbn [fst] in Hb1.
  destruct (Query_step regex_search f b _ id tail r b1 res Hb Hr Hml EQ) as (r1 & Hr1 & Hml1 & Hl & Hsk1 & _ & Hres).
  specialize (Hres Hsk). destruct res as [x| |].
  - rewrite Hres in Hlen |- *. rewrite Hwr, Hw. cbn [negb insert_all foldl]. cbn [length] in Hlen.
    assert (no_throw b1) as Hnt1 by by eapply no_throw_list.
    destruct (Z.eqb_spec lines 0) as [->|Hne]; cbn [negb andb].
    + destruct (IH cd b1 r1 Hb1 Hr1 Hml1 Hsk1 Hnt1 Hq ltac:(lia) Hcd) as (b' & t' & Ht & E & Hl').
      exists b', t'. rewrite E. split; [by right|]. split; [done|]. by rewrite Hl', Hl.
    + specialize (Hcd Hne). destruct (Z.leb_spec (cd - 1) 0) as [Hle|Hgt].
      * exists b1, t. split; [left|]. replace (Z.to_nat cd) with 1%nat by lia. cbn [take line_packets zip_with].
        unfold line_packets. cbn [zip_with]. by rewrite take_0, zip_with_nil_r.
      * destruct (IH (cd - 1) b1 r1 Hb1 Hr1 Hml1 Hsk1 Hnt1 Hq ltac:(lia) ltac:(lia)) as (b' & t' & Ht & E & Hl').
        exists b', t'. split; [by right|]. rewrite E. replace (Z.to_nat cd) with (S (Z.to_nat (cd - 1))) by lia.
        split; [done|]. by rewrite Hl', Hl.
  - destruct Hres as [Hres _]. rewrite Hres. exists b1, t. split; [left|]. split; [|done]. by destruct (lines =? 0); rewrite ?take_nil.
  - exfalso. eapply (Query_no_throw b _ id tail b1 Hnt); [|exact EQ]. right. eauto.
Qed.

(** A new reader starts at the first line. *)
Lemma Query_fresh b c id r :
  m_logReaders b !! id = Some r -> r_msgList r = false ->
  Query regex_search b c f id 0 =
  Query regex_search (set_reader b id (mkBufferReader (begin (hilogDataList b)) true (r_skipped r) (r_callback r))) c f id 0.
Proof.
  intros Hr Hml. unfold Query, GetReader. rewrite Hr, Hml. cbn [m_logReaders set_reader]. rewrite lookup_insert_eq.
  change (tail_pos regex_search f 0 (hilogDataList b)) with (begin (hilogDataList b), true).
  cbn [r_msgList r_skipped r_pos r_callback negb hilogDataList].
  destruct (if r_skipped r =? 0 then _ else _); [|destruct (scan _ _ _)]; unfold set_reader;
    cbn [sizeByType hilogDataList next_id m_logReaders stats m_isSupportSkipLog]; by rewrite insert_insert_eq.
Qed.

(** The lines of a listing that starts with a new reader. *)
Definition listed (rqst : OutputRqst) (b : HilogBuffer) : list HilogData :=
  let wants := filter (wanted regex_search f) (hilogDataList b).*2 in
  if or_headLines rqst =? 0 then wants else take (Z.to_nat (or_headLines rqst)) wants.

Lemma fresh_listing maxsz id turns b r rqst :
  buf_ok b -> m_logReaders b !! id = Some r -> r_msgList r = false -> r_skipped r = 0 -> no_throw b -> Forall quiet turns ->
  (length (filter (wanted regex_search f) (hilogDataList b).*2) < length turns)%nat -> 0 <= or_headLines rqst ->
  exists b' t, t ∈ turns /\
    loop maxsz f id 0 true (or_headLines rqst) (or_headLines rqst) turns b =
      (b', line_packets turns (listed rqst b) ++ [WriteQueryResponse (ot_junk t) None], OutDone) /\
    hilogDataList b' = hilogDataList b.
Proof.
  intros Hb Hr Hml Hsk Hnt Hq Hlen Hh. set (r1 := mkBufferReader (begin (hilogDataList b)) true (r_skipped r) (r_callback r)).
  assert (pending_nodes (hilogDataList b) r1 = hilogDataList b) as Hp.
  { unfold pending_nodes. cbn [r1 r_pos]. apply (from_begin_suffix [] (hilogDataList b)). apply (bo_nodup _ Hb). }
  assert (buf_ok (set_reader b id r1)) as Hb1.
  { apply set_reader_ok; [done|]. apply (suffix_reader_ok []); [done..|]. cbn. rewrite Hsk. done. }
  assert (loop maxsz f id 0 true (or_headLines rqst) (or_headLines rqst) turns b =
          loop maxsz f id 0 true (or_headLines rqst) (or_headLines rqst) turns (set_reader b id r1)) as ->.
  { destruct turns as [|t turns]; [simpl in Hlen; lia|]. cbn [output_loop]. by rewrite (Query_fresh b _ id r Hr Hml). }
  assert (outstanding regex_search f (set_reader b id r1) r1 = filter (wanted regex_search f) (hilogDataList b).*2) as Ho
    by (unfold outstanding; cbn [set_reader hilogDataList]; by rewrite Hp).
  unfold listed. rewrite <- Ho in Hlen |- *.
  apply (output_loop_listing maxsz id 0 (or_headLines rqst) (or_headLines rqst) turns (set_reader b id r1) r1); try done; [|lia].
  cbn [set_reader m_logReaders]. by rewrite lookup_insert_eq.
Qed.
End listing.

(** ** The parent of a client *)

Lemma str_take_app_ge n a b : slen a <= Z.of_nat n -> str_take n (a +:+ b) = a +:+ str_take (n - String.length a) b.
Proof.
  revert n. induction a as [|c a IH]; intros n Hn; [by rewrite !str_nil_app, Nat.sub_0_r|]. rewrite slen_cons in Hn.
  pose proof (slen_nonneg a). destruct n as [|n]; [lia|]. rewrite !str_cons_app. cbn [str_take String.length Nat.sub].
  by rewrite IH by lia.
Qed.

Lemma cstr_app a b : no_char NUL a -> cstr (a +:+ b) = a +:+ cstr b.
Proof.
  induction a as [|c a IH]; intros Ha; [by rewrite !str_nil_app|]. apply no_char_cons in Ha as [Hc Ha].
  rewrite !str_cons_app. cbn [cstr]. rewrite decide_False by congruence. by rewrite IH.
Qed.

Definition TAB : ascii := "009".

(** The first line of /proc/<pid>/status of a process that has named itself
    as a parent line. *)
Definition spoof_head : string := "Name:" +:+ String TAB "PPid:".
Definition spoofed_status (t : Z) (rest : string) : string := spoof_head +:+ to_string t +:+ String LF rest.

Lemma scan_d_number t rest : 0 <= t < 2 ^ 32 -> scan_d (to_string t +:+ String LF rest) 0 = t.
Proof.
  intros Ht. unfold to_string. destruct (Z.ltb_spec t 0); [lia|].
  destruct (Num2Str_head 10 ltac:(lia) t) as (d & s & Hd & Es); [lia|].
  pose proof (Num2Str_read 10 ltac:(lia) t (String LF rest) ltac:(lia)) as Hr. rewrite Es, str_cons_app in *.
  assert (d = 0 \/ d = 1 \/ d = 2 \/ d = 3 \/ d = 4 \/ d = 5 \/ d = 6 \/ d = 7 \/ d = 8 \/ d = 9) as Hc by lia.
  unfold scan_d.
  assert (take_sign (skip_space (String (digit_chr d) (s +:+ String LF rest))) = (false, String (digit_chr d) (s +:+ String LF rest))) as ->
    by (by repeat (destruct Hc as [->|Hc]; [reflexivity|]); subst).
  assert (is_digit (digit_chr d) = true) as -> by (by repeat (destruct Hc as [->|Hc]; [reflexivity|]); subst).
  rewrite Hr. cbn [read_digits]. change (chr_digit LF <? 10) with false. cbn iota. apply wrapu_small. lia.
Qed.

Lemma spoofed_buffer t rest :
  0 <= t < 2 ^ 32 -> exists rest', cstr (str_take 1023 (spoofed_status t rest)) = spoofed_status t rest'.
Proof.
  intros Ht. set (a := spoof_head +:+ to_string t +:+ String LF "").
  assert (forall r, spoofed_status t r = a +:+ r) as E.
  { intros r. unfold a, spoofed_status. by rewrite <- !str_app_assoc, str_cons_app, str_nil_app. }
  exists (cstr (str_take (1023 - String.length a) rest)). pose proof (slen_to_string t ltac:(lia)).
  rewrite !E, str_take_app_ge, cstr_app; [done| |].
  - apply no_char_app; [apply (bool_decide_unpack _); by vm_compute|].
    apply no_char_app; [apply to_string_no_nul; lia | apply (bool_decide_unpack _); by vm_compute].
  - unfold a. rewrite !slen_app. change (slen spoof_head) with 11. change (slen (String LF "")) with 1. lia.
Qed.

Lemma spoofed_GetPPidByPid proc fuel pid t rest :
  0 <= t < 2 ^ 32 -> proc ("/proc/" +:+ to_string pid +:+ "/status") = Some (spoofed_status t rest) ->
  GetNameByPid proc t ∉ SH_NAMES -> GetPPidByPid proc fuel pid = Some t.
Proof.
  intros Ht Hp Hn. destruct (spoofed_buffer t rest Ht) as [rest' Hs].
  assert (str_take 1023 (spoofed_status t rest) <> "") as Hne by done.
  assert (forall x, strstr "PPid:" (spoof_head +:+ x) = Some ("PPid:" +:+ x)) as Hf by (by intros []).
  destruct fuel; cbn [GetPPidByPid]; rewrite Hp; change (Z.to_nat (STATUS_LEN - 1)) with 1023%nat;
    rewrite (bool_decide_false _ Hne), Hs; unfold spoofed_status; rewrite Hf; cbv beta iota zeta;
    change (str_drop 5 ("PPid:" +:+ to_string t +:+ String LF rest')) with (to_string t +:+ String LF rest');
    rewrite scan_d_number by lia; by rewrite bool_decide_false.
Qed.

(** A client that renamed itself reads the lines of the process it chose. *)
Definition listed_types : list Z := [LOG_APP; LOG_INIT; LOG_CORE; LOG_ONLY_PRERELEASE].

Lemma listed_type_bit t : t ∈ listed_types -> Z.land (u16 (Z.shiftl 1 t)) DEFAULT_LOG_TYPES =? 0 = false.
Proof. unfold listed_types. rewrite !elem_of_cons, elem_of_nil. by intros [->|[->|[->|[->|[]]]]]. Qed.

Lemma level_bit l : 0 <= l < 16 -> Z.land (u16 (Z.shiftl 1 l)) 65535 =? 0 = false.
Proof.
  intros Hl. assert (l ∈ seqZ 0 16) as Hs by (apply elem_of_seqZ; lia). clear Hl. revert l Hs. apply Forall_forall. by repeat constructor.
Qed.

(** The lookup of a client's parent trusts the client.  A process of any
    user that calls itself PPid: followed by a number has that number as its
    parent in the eyes of the daemon, which takes the first occurrence in the
    status file, the name included; a plain query of it is then given the
    lines of the process with that number. *)
Theorem spoofed_parent regex_search (proc : string -> option string) (fuel : nat) (uid pid t : Z) (rest : string) (x : HilogData)
    (other_user : may_read_all uid = false) (t_range : 0 < t < 2 ^ 32)
    (name : proc ("/proc/" +:+ to_string (u32 pid) +:+ "/status") = Some (spoofed_status t rest))
    (no_shell : GetNameByPid proc t ∉ SH_NAMES)
    (line : data_wf x /\ d_type x ∈ listed_types) (victim : d_pid x = t) :
  GetPPidByPid proc fuel (u32 pid) = Some t /\
  LogMatchFilter regex_search
    (LogFilterFromOutputRqst (fun p => default 0 (GetPPidByPid proc fuel p)) uid pid zero_rqst no_filter) x = Some true.
Proof.
  assert (GetPPidByPid proc fuel (u32 pid) = Some t) as Hp by (apply (spoofed_GetPPidByPid proc fuel (u32 pid) t rest); [lia | done..]).
  split; [done|]. rewrite LogFilterFromOutputRqst_eq, other_user, Hp. cbn [from_option id].
  destruct line as [(_ & _ & _ & Hl) Ht]. unfold LogMatchFilter. cbn [f_types f_levels zero_rqst or_types or_levels Z.eqb].
  rewrite listed_type_bit, level_bit by done.
  rewrite (proj2 (Z.ltb_lt 0 t)) by lia. rewrite victim. unfold refused.
  cbn [f_domainCount f_tagCount f_pidCount f_blackPid f_pids f_regex zero_rqst or_domainCount or_tagCount or_regex Z.eqb negb andb].
  match goal with |- context [entries 2 ?l] => change (entries 2 l) with [u32 pid; t] end. cbn [existsb].
  rewrite Z.eqb_refl, orb_true_r. by vm_compute.
Qed.

(** ** Persist jobs *)

Lemma c_string_no_nul bytes s : c_string bytes = Some s -> s = cstr bytes.
Proof. unfold c_string. destruct (str_mem NUL bytes); [by intros [= <-] | done]. Qed.

Lemma valid_name_no_slash s : IsValidFileName s = true -> no_char "/" s.
Proof.
  unfold IsValidFileName. induction s as [|c s IH]; [intros _; apply not_elem_of_nil|]. cbn [str_forall].
  rewrite andb_true_iff. intros [Hc Hs]. apply no_char_cons. split; [|by apply IH]. intros <-. by vm_compute in Hc.
Qed.

Lemma cstr_mem_lt s : str_mem NUL s = true -> slen (cstr s) < slen s.
Proof.
  induction s as [|c s IH]; [done|]. cbn [str_mem cstr]. rewrite orb_true_iff, slen_cons. case_decide as Hc.
  - intros _. pose proof (slen_nonneg s). change (slen "") with 0. lia.
  - rewrite slen_cons. intros [H|H]; [by apply bool_decide_eq_true in H; congruence | apply IH in H; lia].
Qed.

Lemma strncpy_s_full n s : no_char NUL s -> slen s < n -> strncpy_s n s (slen s) = Some s.
Proof.
  intros Hs Hn. pose proof (slen_nonneg s). rewrite strncpy_s_short by lia. rewrite cstr_id by done. by rewrite str_take_all by lia.
Qed.

(** What a job may be. *)
Record job_confined (msg : LogPersistStartMsg) : Prop := {
  jc_path : exists name, sm_filePath msg = HILOG_FILE_DIR +:+ name /\ name <> "" /\ no_char "/" name;
  jc_size : MIN_LOG_FILE_SIZE <= sm_fileSize msg <= MAX_LOG_FILE_SIZE;
  jc_num : MIN_LOG_FILE_NUM <= sm_fileNum msg <= MAX_LOG_FILE_NUM;
}.

Lemma accepted_job cn rqst msg :
  pwf p_PersistStartRqst rqst -> CheckPersistStartRqst (cn_uid cn) rqst = Some RET_SUCCESS ->
  PersistStartRqst2Msg cn rqst no_msg = Some msg -> job_confined msg.
Proof.
  intros (_ & _ & _ & _ & Hfn & Hst). unfold CheckPersistStartRqst, PersistStartRqst2Msg.
  destruct (Z.eqb_spec (CheckOutputRqst (cn_uid cn) (ps_outputFilter rqst)) RET_SUCCESS) as [_|Hne]; cbn [negb]; [|by intros [= ?]].
  destruct (negb (ps_jobId rqst =? 0) && _); [done|].
  destruct (negb (ps_fileSize rqst =? 0) && _) eqn:Esz; [done|].
  destruct (rqst_fileName rqst) as [fn|] eqn:Efn; [|done]. cbn [mbind option_bind].
  destruct (negb (bool_decide (fn = "")) && negb (IsValidFileName fn)) eqn:En; [done|].
  destruct (negb (ps_fileNum rqst =? 0) && _) eqn:Enum; [done|]. intros _.
  destruct (c_string (ps_stream rqst)) as [st|]; [|done]. cbn [mbind option_bind]. intros <-%(inj Some).
  set (name := if bool_decide (fn = "") then _ else fn).
  assert (name <> "" /\ no_char "/" name /\ no_char NUL name /\ slen name < 80) as (Hne & Hsl & Hnul & Hlen).
  { unfold name. destruct (bool_decide_reflect (fn = "")) as [|Hfe].
    - destruct (or_types (ps_outputFilter rqst) =? Z.shiftl 1 LOG_KMSG); (split; [discriminate|]);
        repeat (split; [apply (bool_decide_unpack _); by vm_compute|]); done.
    - cbn [negb andb] in En. split; [done|]. split; [apply valid_name_no_slash; by destruct (IsValidFileName fn)|].
      unfold rqst_fileName in Efn. pose proof Efn as Hm. apply c_string_no_nul in Efn. subst fn. split; [apply cstr_no_nul|].
      unfold c_string in Hm. destruct (str_mem NUL _) eqn:Em; [|done]. apply cstr_mem_lt in Em. rewrite slen_app in Em.
      change (String.length (ps_fileName rqst) = 64%nat) in Hfn. change (String.length (ps_stream rqst) = 16%nat) in Hst.
      unfold slen in *. lia. }
  split; cbn [sm_filePath sm_fileSize sm_fileNum].
  - exists name. split; [|done]. rewrite strncpy_s_full; [done| |].
    + apply no_char_app; [apply (bool_decide_unpack _); by vm_compute | done].
    + rewrite slen_app. change (slen HILOG_FILE_DIR) with 16. unfold FILE_PATH_MAX_LEN. lia.
  - unfold MIN_LOG_FILE_SIZE, MAX_LOG_FILE_SIZE, DEFAULT_PERSIST_FILE_SIZE, MAX_PERSISTER_BUFFER_SIZE in *.
    destruct (Z.eqb_spec (ps_fileSize rqst) 0); cbn [negb andb] in Esz; lia.
  - unfold MIN_LOG_FILE_NUM, MAX_LOG_FILE_NUM, DEFAULT_PERSIST_FILE_NUM in *.
    destruct (Z.eqb_spec (ps_fileNum rqst) 0); cbn [negb andb] in Enum; lia.
Qed.

Section persist.
Context {PS : ParamService} {ZL : Zlib} (char_signed : bool) (regex_search : string -> string -> option bool).

(** A job that is started, if any, is the one of the message. *)
Lemma StartPersistStoreJob_jobs ie rd k info fs jobs jobs' fs' ret :
  StartPersistStoreJob char_signed ie rd k info false jobs fs = Some (jobs', fs', ret) ->
  jobs' = jobs \/ exists p, jobs' = jobs ++ [p] /\ p_startMsg p = ri_msg info.
Proof.
  unfold StartPersistStoreJob. destruct (InitPersister _ _ _ _ _ _ _ _) as [[[jobs1 fs1] r]|] eqn:E; [|done].
  cbn [mbind option_bind]. apply InitPersister_ok in E. destruct (r =? RET_SUCCESS); cbn [negb]; intros [= <- _ _]; [|by left].
  destruct E as (Hi & _ & p & -> & Hm & Hin). right. unfold StartPersister.
  rewrite update_job_fresh by (done || (unfold job_id; by rewrite Hm)). rewrite Hin. by eexists.
Qed.

(** Requests in flight: each client has a thread of its own, and nothing is
    locked between the check of the number of jobs and the start of the job,
    so that a request admitted may wait while others are served. *)
Record in_flight : Type := mkInFlight { if_conn : conn; if_rqst : PersistStartRqst; if_msg : LogPersistStartMsg }.

(** Nothing is started. *)
Definition no_new_jobs (d d' : Daemon) : Prop :=
  (length (dm_jobs d') <= length (dm_jobs d))%nat /\ p_startMsg <$> dm_jobs d' ⊆ p_startMsg <$> dm_jobs d.

(** The daemon with at most [k] such requests at a time: one more is
    admitted; one of them goes on, in any order; anything else, which starts
    nothing (for the other requests see [other_requests]). *)
Inductive start_step (k : nat) : Daemon * list in_flight -> Daemon * list in_flight -> Prop :=
  | start_admit d fl cn rqst msg :
      (length fl < k)%nat -> pwf p_PersistStartRqst rqst -> AdmitPersistStart cn d rqst = Some (inr msg) ->
      start_step k (d, fl) (d, fl ++ [mkInFlight cn rqst msg])
  | start_begin d fl1 r fl2 d' out fin :
      BeginPersistJob char_signed (if_conn r) d (if_rqst r) (if_msg r) = Some (d', out, fin) ->
      start_step k (d, fl1 ++ r :: fl2) (d', fl1 ++ fl2)
  | start_other d d' fl :
      no_new_jobs d d' -> start_step k (d, fl) (d', fl).

(** What may be stored for a client. *)
Definition job_of (cn : conn) (msg : LogPersistStartMsg) : Prop :=
  job_confined msg /\
  (may_read_all (cn_uid cn) = false ->
   forall x, LogMatchFilter regex_search (sm_filter msg) x = Some true -> d_pid x ∈ own_pids (cn_ppid cn) (cn_pid cn)).

Lemma AdmitPersistStart_ok cn d rqst msg :
  pwf p_PersistStartRqst rqst -> AdmitPersistStart cn d rqst = Some (inr msg) ->
  Z.of_nat (length (dm_jobs d)) < MAX_JOBS /\ job_of cn msg.
Proof using.
  intros Hwf. unfold AdmitPersistStart. destruct (WaitingToDo _) as [w|]; [|done]. destruct (negb (w =? RET_SUCCESS)); [done|].
  destruct (CheckPersistStartRqst (cn_uid cn) rqst) as [r|] eqn:Ec; [|done]. cbn [mbind option_bind].
  destruct (Z.eqb_spec r RET_SUCCESS) as [->|]; cbn [negb]; [|done].
  destruct (Z.leb_spec MAX_JOBS (Z.of_nat (length (QueryJobs (dm_jobs d))))) as [|Hlt]; [done|].
  unfold QueryJobs in Hlt. rewrite length_fmap in Hlt.
  destruct (PersistStartRqst2Msg cn rqst no_msg) as [msg'|] eqn:Em; [|done]. cbn [mbind option_bind]. intros [= ->].
  split; [done|]. split; [by eapply accepted_job|]. intros Hu x. revert Em. unfold PersistStartRqst2Msg.
  destruct (c_string _); [|done]. destruct (rqst_fileName rqst); [|done].
  cbn [mbind option_bind]. intros <-%(inj Some). apply confined_filter; [done | by destruct Hwf | done].
Qed.

Lemma BeginPersistJob_jobs cn d rqst msg d' out fin :
  BeginPersistJob char_signed cn d rqst msg = Some (d', out, fin) ->
  dm_jobs d' = dm_jobs d \/ exists p, dm_jobs d' = dm_jobs d ++ [p] /\ p_startMsg p = msg.
Proof using.
  unfold BeginPersistJob. destruct (StartPersistStoreJob _ _ _ _ _ _ _ _) as [[[jobs' fs'] ret]|] eqn:Es; [|done].
  cbn [mbind option_bind]. intros H. assert (dm_jobs d' = jobs') as ->.
  { destruct (negb (ret =? RET_SUCCESS)); injection H as <- _ _; by destruct (IsKmsg _). }
  by apply StartPersistStoreJob_jobs in Es.
Qed.

(** What holds of the daemon and of the requests in flight. *)
Record start_ok (k : nat) (s : Daemon * list in_flight) : Prop := {
  so_count : Z.of_nat (length (dm_jobs s.1) + length s.2) <= MAX_JOBS - 1 + Z.of_nat k;
  so_jobs : Forall (fun p => job_confined (p_startMsg p)) (dm_jobs s.1);
  so_flight : Forall (fun r => job_of (if_conn r) (if_msg r)) s.2;
}.

Lemma start_step_ok k s s' : start_step k s s' -> start_ok k s -> start_ok k s'.
Proof using.
  intros [d fl cn rqst msg Hk Hwf Ha|d fl1 r fl2 d' out fin Hb|d d' fl [Hl Hs]] [Hc Hj Hf]; cbn [fst snd] in *.
  - apply AdmitPersistStart_ok in Ha as [Hl Hm]; [|done]. split; cbn [fst snd]; [|done|].
    + rewrite length_app. cbn [length]. lia.
    + apply Forall_app. by rewrite Forall_singleton.
  - apply Forall_app in Hf as [Hf1 [Hr Hf2]%Forall_cons]. rewrite length_app in Hc. cbn [length] in Hc.
    apply BeginPersistJob_jobs in Hb as [E|(p & E & Hp)]; split; cbn [fst snd]; rewrite ?E, ?length_app; cbn [length];
      rewrite ?Forall_app; try (done || lia). split; [done|]. apply Forall_singleton. rewrite Hp. apply Hr.
  - split; cbn [fst snd]; [| |done].
    + lia.
    + apply (Forall_fmap p_startMsg), Forall_forall. intros m Hm%Hs. revert m Hm. by apply Forall_forall, Forall_fmap.
Qed.

(** C12: whatever clients ask for, however their requests to start a job
    interleave with each other and with everything else, the daemon runs at
    most nine jobs more than the start requests it serves at a time, so ten
    when they come one by one.  Every job writes to a file directly in the
    log directory, with a size and a number of files in the documented
    ranges.  The job started for an ordinary user stores no line but those of
    the client's process and of the parent the daemon looks up for it. *)
Theorem persist_jobs_confined (k : nat) (d d' : Daemon) (fl : list in_flight)
    (few : Z.of_nat (length (dm_jobs d)) <= MAX_JOBS - 1 + Z.of_nat k)
    (confined : Forall (fun p => job_confined (p_startMsg p)) (dm_jobs d)) (run : rtc (start_step k) (d, []) (d', fl)) :
  Z.of_nat (length (dm_jobs d')) <= MAX_JOBS - 1 + Z.of_nat k /\
  Forall (fun p => job_confined (p_startMsg p)) (dm_jobs d') /\
  (forall r d'' out fin, r ∈ fl -> BeginPersistJob char_signed (if_conn r) d' (if_rqst r) (if_msg r) = Some (d'', out, fin) ->
     dm_jobs d'' = dm_jobs d' \/ exists p, dm_jobs d'' = dm_jobs d' ++ [p] /\ job_of (if_conn r) (p_startMsg p)).
Proof using.
  assert (start_ok k (d', fl)) as [Hc Hj Hf].
  { remember (d', fl) as s' eqn:Es. clear Es. assert (start_ok k (d, [])) as Hs.
    { split; cbn [fst snd length]; [lia | done | by apply Forall_nil_2]. }
    revert Hs. induction run as [s|s1 s2 s3 Hstep _ IH]; [done|]. intros Hs. by apply IH, (start_step_ok _ s1). }
  cbn [fst snd] in *. split; [lia|]. split; [done|]. intros r d'' out fin Hr Hb.
  rewrite Forall_forall in Hf. specialize (Hf r Hr). apply BeginPersistJob_jobs in Hb as [->|(p & -> & Hp)]; [by left|].
  right. exists p. by rewrite Hp.
Qed.

(** One request at a time is the handler as it is written. *)
Lemma HandlePersistStartRqst_steps cn d rqst d' out fin :
  pwf p_PersistStartRqst rqst -> HandlePersistStartRqst char_signed cn d rqst = Some (d', out, fin) ->
  rtc (start_step 1) (d, []) (d', []).
Proof using.
  intros Hwf. unfold HandlePersistStartRqst. destruct (AdmitPersistStart cn d rqst) as [[[o f]|msg]|] eqn:Ea; cbn [mbind option_bind];
    [by intros [= <- _ _]| |done].
  intros Hb. eapply rtc_l; [eapply (start_admit 1 d []); [cbn; lia | done | exact Ea]|]. apply rtc_once.
  exact (start_begin 1 d [] (mkInFlight cn rqst msg) [] d' out fin Hb).
Qed.

(** The requests that end or refresh jobs. *)
#[local] Instance no_new_jobs_po : PreOrder no_new_jobs.
Proof using. split; [by intros d; split | intros d1 d2 d3 [H1 H2] [H3 H4]; split; [lia | by etrans]]. Qed.

Lemma update_job_none d id f fs p :
  GetLogPersisterById (dm_jobs d) id = Some p -> (forall q, p_startMsg (f q) = p_startMsg p) ->
  no_new_jobs d (with_jobs d (update_job id f (dm_jobs d)) fs).
Proof using.
  intros [Hp _]%GetById_Some Hf. split; cbn [with_jobs dm_jobs]; unfold update_job; [by rewrite length_fmap|].
  intros m (q' & -> & (q & -> & Hq)%list_elem_of_fmap)%list_elem_of_fmap. destruct (_ =? id); [rewrite Hf|];
    by apply list_elem_of_fmap_2.
Qed.

Lemma WriteLogData_msg localtime_r comp e p fs x p' fs' r :
  WriteLogData localtime_r char_signed comp e p fs x = Some (p', fs', r) -> p_startMsg p' = p_startMsg p.
Proof using.
  unfold WriteLogData. destruct (LogPrintWithFormat _ _ _) as [line|]; [|done]. cbn [mbind option_bind].
  assert (forall q, p_startMsg (WriteUncompressedLogs q line).1 = p_startMsg q) as Hu.
  { intros q. unfold WriteUncompressedLogs. destruct (_ <? _); [done|]. by destruct (negb _). }
  pose proof (Hu p) as H1. destruct (WriteUncompressedLogs p line) as [p1 [|]]; cbn [fst] in H1; [by intros [= <- _ _]|].
  destruct (comp _ _) as [[cb cr]|]; [|done]. cbn [mbind option_bind]. destruct (negb _); [by intros [= <- _ _]|].
  pose proof (WriteCompressedLogs_msg char_signed e (set_compressed p1 cb) fs) as H2.
  destruct (WriteCompressedLogs _ _ _ _) as [p2 fs2]. cbn [fst] in H2. specialize (Hu p2).
  destruct (WriteUncompressedLogs p2 line) as [p3 dn]. cbn [fst] in Hu. intros [= <- _ _]. by rewrite Hu, H2.
Qed.

Lemma receive_turn_msg localtime_r comp e c timeout p b fs p' b' fs' :
  receive_turn localtime_r char_signed comp regex_search e c timeout p b fs = Some (p', b', fs') -> p_startMsg p' = p_startMsg p.
Proof using.
  unfold receive_turn. destruct (Query _ _ _ _ _ _) as [b1 [x| |]]; [| |done]; swap 1 2.
  - destruct timeout; [|by intros [= <- _ _]]. unfold compress_and_write. destruct (comp _ _) as [[cb cr]|]; [|done]. cbn [mbind option_bind].
    pose proof (WriteCompressedLogs_msg char_signed e (set_compressed p cb) fs) as H2.
    destruct (WriteCompressedLogs _ _ _ _) as [p2 fs2]. by intros [= <- _ _].
  - destruct (WriteLogData _ _ _ _ _ _ _) as [[[p2 fs2] r]|] eqn:E; [|done]. apply WriteLogData_msg in E. by intros [= <- _ _].
Qed.

Lemma kill_op_none cn d id d' : kill_op char_signed cn d id = Some d' -> no_new_jobs d d'.
Proof using.
  unfold kill_op, Kill, Deinit. destruct (GetLogPersisterById _ _) as [p|]; cbn [mbind option_bind]; [|by intros [= <-]].
  destruct (p_inited p); cbn [mbind option_bind]; [|by intros [= <-]].
  destruct (StopPersister _ _ _ _) as [[p2 fs2]|]; [|done]. cbn [mbind option_bind]. intros [= <-].
  assert (DeregisterLogPersister (dm_jobs d) p2 `sublist_of` dm_jobs d) as Hs.
  { induction (dm_jobs d) as [|q l IH]; cbn [DeregisterLogPersister]; [done|]. destruct (_ =? _); by constructor. }
  split; [by apply sublist_length | by apply sublist_subseteq, fmap_sublist].
Qed.

Lemma refresh_op_none localtime_r cn d id d' : refresh_op localtime_r char_signed regex_search cn d id = Some d' -> no_new_jobs d d'.
Proof using.
  unfold refresh_op, Refresh. destruct (GetLogPersisterById _ _) as [p|] eqn:Ep; cbn [mbind option_bind]; [|by intros [= <-]].
  destruct (InitCompression _) as [comp|]; [|done]. cbn [mbind option_bind].
  destruct (receive_turn _ _ _ _ _ _ _ _ _ _) as [[[p2 b2] fs2]|] eqn:E; [|done]. cbn [mbind option_bind]. intros [= <-].
  apply receive_turn_msg in E. exact (update_job_none d id (fun _ => p2) fs2 p Ep (fun _ => E)).
Qed.

Lemma HandleJobs_none op rspCmd d id d' out fin :
  (forall d1 i d2, op d1 i = Some d2 -> no_new_jobs d1 d2) -> HandleJobs op rspCmd d id = Some (d', out, fin) -> no_new_jobs d d'.
Proof using.
  intros Hop. unfold HandleJobs. destruct (_ && _); [by intros [= <- _ _]|].
  destruct (over_jobs op id (QueryJobs (dm_jobs d)) [] d) as [[d2 ids']|] eqn:E; [|done]. cbn [mbind option_bind].
  intros H. assert (d2 = d') as -> by (destruct (bool_decide _); by injection H). clear H.
  revert E. generalize (QueryJobs (dm_jobs d)), (@nil Z). intros l ids. revert d ids. induction l as [|it l IH]; intros d ids; cbn [over_jobs]; [by intros [= -> _]|].
  destruct (_ <? _); [|by intros [= -> _]]. destruct (_ || _); [|apply IH].
  destruct (op d (q_jobId it)) as [d1|] eqn:E1; [|done]. cbn [mbind option_bind]. intros E.
  etrans; [by eapply Hop | by eapply IH].
Qed.
End persist.

(** ** Expressions that do not compile *)

Definition plain_rqst (regex : string) : OutputRqst :=
  mkOutputRqst 0 0 0 false 0 (or_domains zero_rqst) false 0 (or_tags zero_rqst) false 0 (or_pids zero_rqst)
    (char_array MAX_REGEX_STR_LEN regex) true 0.

(** A line of the client's own reaches the expression. *)
Lemma own_line_regex regex_search ppid uid pid regex x :
  no_char NUL regex -> slen regex < MAX_REGEX_STR_LEN -> regex <> "" ->
  0 <= d_level x < 16 -> d_type x ∈ listed_types -> d_pid x = u32 pid ->
  LogMatchFilter regex_search (LogFilterFromOutputRqst ppid uid pid (plain_rqst regex) no_filter) x =
    regex_search (WildcardToRegex regex) (d_content x).
Proof.
  intros Hr Hlen Hne Hl Ht Hp. rewrite LogFilterFromOutputRqst_eq. unfold LogMatchFilter.
  cbn [f_types f_levels plain_rqst or_types or_levels Z.eqb]. rewrite listed_type_bit, level_bit by done.
  unfold refused. cbn [f_domainCount f_tagCount f_pidCount f_blackPid f_pids f_regex plain_rqst or_domainCount or_tagCount or_pidCount
    or_blackPid or_regex or_pids Z.eqb negb andb].
  assert (str_take (Z.to_nat (MAX_REGEX_STR_LEN - 1)) (cstr (char_array MAX_REGEX_STR_LEN regex)) = regex) as ->.
  { unfold char_array. rewrite cstr_fill by done. apply str_take_all. unfold MAX_REGEX_STR_LEN in *. lia. }
  rewrite cstr_id by done. rewrite (bool_decide_false (regex = "")) by done.
  destruct (may_read_all uid); [done|]. rewrite Hp.
  destruct (0 <? ppid (u32 pid));
    match goal with |- context [entries ?n ?l] =>
      first [change (entries n l) with [u32 pid; ppid (u32 pid)] | change (entries n l) with [u32 pid]] end;
    cbn [existsb]; by rewrite Z.eqb_refl.
Qed.

(** One malformed expression stops the daemon.  A client of any user that
    has logged a line and then asks for the lines that match an expression
    std::regex does not accept makes the handler throw, and nothing catches
    it. *)
Theorem malformed_regex_fatal regex_search (cn : conn) (d : Daemon) (regex : string) (i : nat) (x : HilogData) (l : list node)
    (r : BufferReader) (t : out_turn) (turns : list out_turn)
    (turn : cn_turns cn = t :: turns)
    (text : no_char NUL regex /\ slen regex < MAX_REGEX_STR_LEN /\ regex <> "")
    (stored : hilogDataList (buffer_of d false) = (i, x) :: l) (reader : m_logReaders (buffer_of d false) !! cn_reader cn = Some r)
    (fresh : r_msgList r = false /\ r_skipped r = 0)
    (own : d_pid x = u32 (cn_pid cn) /\ d_type x ∈ listed_types /\ 0 <= d_level x < 16)
    (malformed : regex_search (WildcardToRegex regex) (d_content x) = None) :
  HandleOutputRqst regex_search cn d (plain_rqst regex) = None.
Proof.
  destruct text as (Ht1 & Ht2 & Ht3), own as (Hp & Hty & Hlv), fresh as [Hml Hsk].
  unfold HandleOutputRqst. assert (CheckOutputRqst (cn_uid cn) (plain_rqst regex) = RET_SUCCESS) as ->.
  { unfold CheckOutputRqst. cbn. by rewrite !andb_false_r. }
  set (f := LogFilterFromOutputRqst _ _ _ _ _). cbn [Z.eqb RET_SUCCESS negb].
  assert (IsKmsg (f_types f) = false) as -> by (unfold f; by rewrite LogFilterFromOutputRqst_eq).
  rewrite turn. cbn [plain_rqst or_headLines or_tailLines or_noBlock Z.eqb output_loop].
  assert (exists b', Query regex_search (buffer_of d false) (ot_clocks t) f (cn_reader cn) 0 = (b', QThrow)) as [b' ->]; [|done].
  rewrite (Query_fresh regex_search f _ _ _ r reader Hml). unfold Query, GetReader. cbn [set_reader m_logReaders hilogDataList].
  rewrite lookup_insert_eq. cbn [r_msgList r_skipped r_pos negb]. rewrite Hsk. cbn [Z.eqb]. rewrite stored. cbn [begin from_pos].
  assert (drop_until i ((i, x) :: l) = (i, x) :: l) as Ed by (cbn; by rewrite decide_True).
  cbn [fst]. rewrite Ed. cbn [scan]. unfold f. rewrite own_line_regex, malformed by done. by eexists.
Qed.

(** ** Examples *)

Definition ex_sys : hist_state := exist _ [] eq_refl.
Definition ex_daemon : Daemon :=
  mkDaemon (mkLogCollector (LogBufferProps.ex_buffer true) ∅ false false false) (LogBufferProps.ex_empty true)
    (replicate 6 65536) [] ∅ NONEXIST ex_sys.
Definition ex_junk : junk := mkJunk (mkOutputRsp 7 7 7 7 7 7 7 7 7 7 false) ("old", "older").
Definition ex_out_turn : out_turn := mkOutTurn LogBufferProps.ex_clocks [] true ex_junk.
Definition ex_conn (uid : Z) : conn :=
  mkConn uid 100 (fun _ => 1) 20 21 22 (replicate 8 ex_out_turn) [(true, false)]
    (mkInitEnv true true (Some zero_lpb) true ex_penv) ex_penv LogBufferProps.ex_clocks true [] (mkTS 1 0, mkTS 1 0).
(** The daemon while it serves the connection. *)
Definition ex_ready : Daemon := with_buffer ex_daemon false (CreateBufReader (buffer_of ex_daemon false) 20 true).
Definition APP_UID : Z := 20010031.

Lemma plain_rqst_wf : pwf p_OutputRqst (plain_rqst "[").
Proof.
  assert (plain_rqst "[" = dec p_OutputRqst (enc p_OutputRqst (plain_rqst "["))) as -> by (vm_compute; reflexivity).
  apply dec_pwf, Nat.leb_le. vm_compute; reflexivity.
Qed.
Lemma zero_task_wf : pwf p_PersistStartRqst zero_task.
Proof.
  assert (zero_task = dec p_PersistStartRqst (enc p_PersistStartRqst zero_task)) as -> by (vm_compute; reflexivity).
  apply dec_pwf, Nat.leb_le. vm_compute; reflexivity.
Qed.

Lemma output_confined_witness :
  exists h rest, (fun x => x.1.2) <$> HandleOutputRqst LogBufferProps.ex_regex (ex_conn APP_UID) ex_ready (plain_rqst "[") = Some (h :: rest) /\
    length rest = 4%nat /\ Forall (line_packet [100; 1]) rest.
Proof.
  assert ((fun x => length x.1.2) <$> HandleOutputRqst LogBufferProps.ex_regex (ex_conn APP_UID) ex_ready (plain_rqst "[") = Some 5%nat) as Hl
    by (vm_compute; reflexivity).
  destruct (HandleOutputRqst _ _ _ _) as [[[d' out] fin]|] eqn:E; [|discriminate].
  destruct (output_confined LogBufferProps.ex_regex (ex_conn APP_UID) ex_ready d' (plain_rqst "[") out fin eq_refl plain_rqst_wf E)
    as (h & rest & -> & _ & HF).
  exists h, rest. split; [reflexivity|]. split; [by injection Hl as -> | exact HF].
Defined.

Definition ex_proc (path : string) : option string :=
  if bool_decide (path = "/proc/100/status") then Some (spoofed_status 1201 ("Umask:" +:+ String TAB "0000")) else None.

Lemma spoofed_parent_witness :
  LogMatchFilter LogBufferProps.ex_regex
    (LogFilterFromOutputRqst (fun p => default 0 (GetPPidByPid ex_proc 3 p)) APP_UID 100 zero_rqst no_filter) ex_data = Some true.
Proof.
  refine (proj2 (spoofed_parent LogBufferProps.ex_regex ex_proc 3 APP_UID 100 1201 ("Umask:" +:+ String TAB "0000") ex_data _ _ _ _ _ _)).
  - reflexivity.
  - by vm_compute.
  - reflexivity.
  - apply (bool_decide_unpack _). by vm_compute.
  - split; [by vm_compute | apply (bool_decide_unpack _); by vm_compute].
  - reflexivity.
Defined.

Lemma persist_jobs_confined_witness :
  exists d' out fin p, HandlePersistStartRqst false (ex_conn APP_UID) ex_daemon zero_task = Some (d', out, fin) /\
    dm_jobs d' = [p] /\ Forall (fun q => job_confined (p_startMsg q)) [p].
Proof.
  assert ((fun x => length (dm_jobs x.1.1)) <$> HandlePersistStartRqst false (ex_conn APP_UID) ex_daemon zero_task = Some 1%nat) as Hl
    by (vm_compute; reflexivity).
  destruct (HandlePersistStartRqst _ _ _ _) as [[[d' out] fin]|] eqn:E; [|discriminate].
  destruct (persist_jobs_confined false LogBufferProps.ex_regex 1 ex_daemon d' [] ltac:(by vm_compute) (Forall_nil_2 _)
              (HandlePersistStartRqst_steps false _ _ _ _ _ _ zero_task_wf E)) as (_ & Hc & _).
  rewrite fmap_Some in Hl. destruct Hl as (x & [= <-] & Hl). cbn [fst] in Hl.
  destruct (dm_jobs d') as [|p [|]] eqn:Ej; try discriminate.
  exists d', out, fin, p. split; [reflexivity|]. split; [exact Ej | exact Hc].
Defined.

(** A request for a job of its own id and file. *)
Definition ex_task (id : Z) : PersistStartRqst :=
  mkPersistStartRqst zero_rqst id 0 0 (char_array MAX_FILE_NAME_LEN ("f" +:+ Uint2DecStr id)) (ps_stream zero_task).
Definition ex_starts (ids : list Z) (d : Daemon) : option Daemon :=
  foldl (fun o id => d ← o; fst ∘ fst <$> HandlePersistStartRqst false (ex_conn APP_UID) d (ex_task id)) (Some d) ids.

(** Two requests that overlap can both take the tenth place. *)
Example overlapping_starts :
  (d ← ex_starts (seqZ 11 9) ex_daemon;
   a1 ← AdmitPersistStart (ex_conn APP_UID) d (ex_task 30); a2 ← AdmitPersistStart (ex_conn APP_UID) d (ex_task 31);
   match a1, a2 with
   | inr m1, inr m2 =>
       d1 ← BeginPersistJob false (ex_conn APP_UID) d (ex_task 30) m1;
       d2 ← BeginPersistJob false (ex_conn APP_UID) d1.1.1 (ex_task 31) m2;
       Some (length (dm_jobs d), length (dm_jobs d2.1.1))
   | _, _ => None
   end) = Some (9%nat, 11%nat).
Proof. vm_compute. reflexivity. Qed.

Definition ex_strict_regex (re text : string) : option bool := if bool_decide (re = WildcardToRegex "[") then None else Some true.

Lemma malformed_regex_fatal_witness : HandleOutputRqst ex_strict_regex (ex_conn APP_UID) ex_ready (plain_rqst "[") = None.
Proof.
  assert (Forall (fun n => d_pid n.2 = 100 /\ d_type n.2 ∈ listed_types /\ 0 <= d_level n.2 < 16) (hilogDataList (buffer_of ex_ready false))) as HF.
  { repeat (apply Forall_cons; split; [split; [reflexivity|]; split; [apply (bool_decide_unpack _)|]; by vm_compute|]).
    by apply Forall_nil_2. }
  destruct (hilogDataList (buffer_of ex_ready false)) as [|[i x] l] eqn:E; [vm_compute in E; discriminate|].
  apply Forall_cons in HF as [Hx _].
  refine (malformed_regex_fatal ex_strict_regex (ex_conn APP_UID) ex_ready "[" i x l (mkBufferReader it_singular false 0 true) ex_out_turn
            (replicate 7 ex_out_turn) eq_refl _ E _ _ Hx eq_refl).
  - split; [apply (bool_decide_unpack _); by vm_compute | by split].
  - vm_compute; reflexivity.
  - by split.
Defined.
