(* ===== verification/Ioctl.v ===== *)
(** * The client of the daemon

    LogIoctl (log_ioctl.cpp, log_ioctl.h) and Socket::WriteAll (socket.cpp):
    how a request is sent and a response read.  The daemon at the other end is
    a function from the packets sent to the packets received; it is
    instantiated with the model of the daemon. *)

From S2P Require Import Prelude Common TimeStamp Utils LogData LogStats LogBuffer LogBufferSpec LogBufferProps.
From S2P Require Import FlowControl LogCollector Kmsg LogPrint Compress Rotator Recovery Persister Cmd.
From S2P Require Import Properties Proc StatsWire Controller ControllerProps.
From Stdlib Require Import Ascii.

(** ** Sending *)

(** [writes] are the results of the calls of [write], as far as they are not
    the whole rest; the packets sent and the result. *)
Fixpoint write_loop (writes : list Z) (data : string) : list string * Z :=
  if bool_decide (data = "") then ([], 0)
  else
    match writes with
    | [] => ([data], 0)
    | midRes :: writes =>
        if midRes <? 0 then ([], midRes)
        else let '(sent, ret) := write_loop writes (str_drop (Z.to_nat midRes) data) in
             (str_take (Z.to_nat midRes) data :: sent, ret)
    end.

Definition WriteAll (writes : list Z) (data : string) : list string * Z :=
  let '(sent, midRes) := write_loop writes data in
  (sent, if midRes <? 0 then midRes else slen data).

(** A connection: whether [Init] created and connected the socket, the
    results of [write], and the daemon. *)
Record link := mkLink { lk_init : bool; lk_header : list Z; lk_body : list Z; lk_peer : list string -> list string }.

Definition SendMsgHeader (lk : link) (cmd len : Z) : list string * Z :=
  let header := mkMsgHeader MSG_VER (u8 cmd) 0 (u16 len) in
  if negb (lk_init lk) then ([], ERR_SOCKET_CLIENT_INIT_FAIL)
  else let '(sent, ret) := WriteAll (lk_header lk) (enc p_MsgHeader header) in
       (sent, if ret <? 0 then ERR_SOCKET_WRITE_MSG_HEADER_FAIL else RET_SUCCESS).

(** ** Requests *)

(** A receive takes one packet; [ReceiveMsgHeaer] reads into a zeroed
    header. *)
Definition ReceiveMsgHeaer (inp : list string) : option (MsgHeader * list string) :=
  '(data, inp) ← GetRsp (psize p_MsgHeader) inp; Some (dec p_MsgHeader data, inp).

(** The result, and the packets that are left to receive. *)
Definition RequestMsgHead {A B} (p1 : packed A) (p2 : packed B) (lk : link) (rqstCmd rspCmd : Z) (rqst : A) : Z * list string :=
  let '(sent, ret) := SendMsgHeader lk rqstCmd (Z.of_nat (psize p1)) in
  if negb (ret =? RET_SUCCESS) then (ret, [])
  else
    let '(sent', ret) := WriteAll (lk_body lk) (enc p1 rqst) in
    if ret <? 0 then (ERR_SOCKET_WRITE_CMD_FAIL, [])
    else
      match ReceiveMsgHeaer (lk_peer lk (sent ++ sent')) with
      | None => (ERR_SOCKET_RECEIVE_RSP, [])
      | Some (hdr, inp) =>
          if hdr_cmd hdr =? RSP_ERROR then (hdr_err hdr, inp)
          else if negb (hdr_cmd hdr =? u8 rspCmd) then (RET_FAIL, inp)
          else if negb (hdr_len hdr =? Z.of_nat (psize p2)) then (ERR_MSG_LEN_INVALID, inp)
          else (RET_SUCCESS, inp)
      end.

(** What a handler prints and returns. *)
Definition Request {A B} (p1 : packed A) (p2 : packed B) (lk : link) (rqstCmd rspCmd : Z) (rqst : A)
    (handle : B -> string * Z) : string * Z :=
  if (rqstCmd =? OUTPUT_RQST) || (rqstCmd =? STATS_QUERY_RQST) then ("Request API not support this command" +:+ endl, RET_FAIL)
  else
    let '(ret, inp) := RequestMsgHead p1 p2 lk rqstCmd rspCmd rqst in
    if negb (ret =? RET_SUCCESS) then ("", ret)
    else
      match GetRsp (psize p2) inp with
      | None => ("", ERR_SOCKET_RECEIVE_RSP)
      | Some (data, _) => handle (dec p2 data)
      end.

Definition DEFAULT_RECV_BUF_LEN : Z := MAX_LOG_LEN * 2.

(** The loop of [ReceiveAndProcessOutputRsp]: the buffer keeps the bytes of
    earlier packets behind those of the last one.  [None]: the handler
    throws. *)
Fixpoint output_rsp_loop (handle : string -> option (string * Z)) (buffer : string) (inp : list string) : option (string * Z) :=
  match inp with
  | [] => Some ("", ERR_SOCKET_RECEIVE_RSP)
  | p :: inp =>
      if bool_decide (p = "") then Some ("", ERR_SOCKET_RECEIVE_RSP)
      else
        let data := str_take (Z.to_nat DEFAULT_RECV_BUF_LEN) p in
        let buffer := data +:+ str_drop (String.length data) buffer in
        '(out, ret) ← handle buffer;
        if ret =? SUCCESS_CONTINUE then '(out', ret) ← output_rsp_loop handle buffer inp; Some (out +:+ out', ret)
        else Some (out, ret)
  end.

Definition ReceiveAndProcessOutputRsp (handle : string -> option (string * Z)) (inp : list string) : option (string * Z) :=
  output_rsp_loop handle (fill (Z.to_nat DEFAULT_RECV_BUF_LEN) NUL) inp.

Definition RequestOutput (lk : link) (rqst : OutputRqst) (handle : string -> option (string * Z)) : option (string * Z) :=
  let '(ret, inp) := RequestMsgHead p_OutputRqst p_OutputRsp lk OUTPUT_RQST OUTPUT_RSP rqst in
  if negb (ret =? RET_SUCCESS) then Some ("", ret) else ReceiveAndProcessOutputRsp handle inp.

(** [ptr_size] is the size of the pointers in the statistics. *)
Definition RequestStatsQuery (ptr_size : nat) (lk : link) (rqst : StatsQueryRqst) (handle : StatsTree -> string * Z) : string * Z :=
  let '(ret, inp) := RequestMsgHead p_StatsQueryRqst (p_StatsQueryRsp ptr_size) lk STATS_QUERY_RQST STATS_QUERY_RSP rqst in
  if negb (ret =? RET_SUCCESS) then ("", ret)
  else
    match GetRsp (psize (p_StatsQueryRsp ptr_size)) inp with
    | None => ("", ERR_SOCKET_RECEIVE_RSP)
    | Some _ =>
        match ReceiveAndProcessStatsQueryRsp ptr_size inp with
        | None => ("", RET_FAIL)
        | Some (tree, _) => handle tree
        end
    end.

(** * Lemmas and properties *)

(** ** Requests on the wire *)

Inductive request :=
  | RqOutput (r : OutputRqst)
  | RqPersistStart (r : PersistStartRqst)
  | RqPersistStop (jobId : Z)
  | RqPersistQuery (placeholder : string)
  | RqBufferSizeGet (types : Z)
  | RqBufferSizeSet (r : BufferSizeSetRqst)
  | RqStatsQuery (r : StatsQueryRqst)
  | RqPersistRefresh (jobId : Z)
  | RqPersistClear (placeholder : string)
  | RqStatsClear (placeholder : string)
  | RqDomainFlowCtrl (on : bool)
  | RqLogRemove (types : Z)
  | RqKmsgEnable (on : bool).

Definition rq_cmd (q : request) : Z :=
  match q with
  | RqOutput _ => OUTPUT_RQST
  | RqPersistStart _ => PERSIST_START_RQST
  | RqPersistStop _ => PERSIST_STOP_RQST
  | RqPersistQuery _ => PERSIST_QUERY_RQST
  | RqBufferSizeGet _ => BUFFERSIZE_GET_RQST
  | RqBufferSizeSet _ => BUFFERSIZE_SET_RQST
  | RqStatsQuery _ => STATS_QUERY_RQST
  | RqPersistRefresh _ => PERSIST_REFRESH_RQST
  | RqPersistClear _ => PERSIST_CLEAR_RQST
  | RqStatsClear _ => STATS_CLEAR_RQST
  | RqDomainFlowCtrl _ => DOMAIN_FLOWCTRL_RQST
  | RqLogRemove _ => LOG_REMOVE_RQST
  | RqKmsgEnable _ => KMSG_ENABLE_RQST
  end.

(** The structure of a request with the way it is laid out. *)
Record body := mkBody { bd_type : Type; bd_packed : packed bd_type; bd_ok : PackedOk bd_packed; bd_value : bd_type }.

Definition rq_body (q : request) : body :=
  match q with
  | RqOutput r => mkBody _ p_OutputRqst _ r
  | RqPersistStart r => mkBody _ p_PersistStartRqst _ r
  | RqPersistStop id | RqPersistRefresh id => mkBody _ p_jobId _ id
  | RqPersistQuery x | RqPersistClear x | RqStatsClear x => mkBody _ p_placeholder _ x
  | RqBufferSizeGet t | RqLogRemove t => mkBody _ p_types _ t
  | RqBufferSizeSet r => mkBody _ p_BufferSizeSetRqst _ r
  | RqStatsQuery r => mkBody _ p_StatsQueryRqst _ r
  | RqDomainFlowCtrl on | RqKmsgEnable on => mkBody _ p_on _ on
  end.

Definition rq_size (q : request) : Z := Z.of_nat (psize (bd_packed (rq_body q))).
Definition rq_wf (q : request) : Prop := pwf (bd_packed (rq_body q)) (bd_value (rq_body q)).
Definition rq_bytes (q : request) : string := enc (bd_packed (rq_body q)) (bd_value (rq_body q)).
Definition rq_packets (q : request) : list string :=
  [enc p_MsgHeader (mkMsgHeader MSG_VER (rq_cmd q) 0 (rq_size q)); rq_bytes q].

Section dispatch.
Context {PS : ParamService} {ZL : Zlib}.
Context (localtime_r : Z -> option tm) (char_signed : bool) (regex_search : string -> string -> option bool).
Context (allTypes : list Z) (ptr_size : nat) (cmds : list Z) (cn : conn) (d : Daemon).
Abbreviation loop := (CommunicationLoop localtime_r char_signed regex_search allTypes ptr_size cmds cn).

(** What the daemon does for a request. *)
Definition rq_handle (q : request) : handled :=
  match q with
  | RqOutput r => HandleOutputRqst regex_search cn d r
  | RqPersistStart r => HandlePersistStartRqst char_signed cn d r
  | RqPersistStop id => HandlePersistStopRqst char_signed cn d id
  | RqPersistQuery _ => HandlePersistQueryRqst d
  | RqBufferSizeGet t => HandleBufferSizeGetRqst allTypes d t
  | RqBufferSizeSet r => HandleBufferSizeSetRqst allTypes d r
  | RqStatsQuery _ => HandleStatsQueryRqst ptr_size cn d
  | RqPersistRefresh id => HandlePersistRefreshRqst localtime_r char_signed regex_search cn d id
  | RqPersistClear _ => HandlePersistClearRqst cn d
  | RqStatsClear _ => HandleStatsClearRqst cn d
  | RqDomainFlowCtrl on => HandleDomainFlowCtrlRqst d on
  | RqLogRemove t => HandleLogRemoveRqst allTypes d t
  | RqKmsgEnable on => HandleLogKmsgEnableRqst d on
  end.

(** No request but that to start a job starts one. *)
Lemma other_requests q d' out fin :
  match q with RqPersistStart _ => False | _ => True end -> rq_handle q = Some (d', out, fin) -> no_new_jobs d d'.
Proof using.
  assert (forall d', dm_jobs d' = dm_jobs d -> no_new_jobs d d') as Hsame by (intros d2 E; unfold no_new_jobs; by rewrite E).
  destruct q as [r|r|id|x|t|r|r|id|x|x|on|t|on]; cbn [rq_handle]; intros Hq H; try done.
  - unfold HandleOutputRqst in H. destruct (negb _); [injection H as <- _ _; by apply Hsame|].
    destruct (output_loop _ _ _ _ _ _ _ _ _ _) as [[b o] []]; try done; injection H as <- _ _; by apply Hsame.
  - eapply HandleJobs_none, H. by intros d1 i d2 ?%kill_op_none.
  - unfold HandlePersistQueryRqst in H. destruct (bool_decide _); [|destruct (mapM _ _)]; injection H as <- _ _; by apply Hsame.
  - unfold HandleBufferSizeGetRqst in H. destruct (bool_decide _); injection H as <- _ _; by apply Hsame.
  - unfold HandleBufferSizeSetRqst in H. destruct (foldl _ _ _) as [d2 sizes] eqn:E.
    assert (dm_jobs d2 = dm_jobs d) as Hj.
    { change d2 with (d2, sizes).1. rewrite <- E. clear. generalize (replicate (Z.to_nat LOG_TYPE_MAX) 0).
      generalize (selected allTypes (if bs_types r =? 0 then DEFAULT_LOG_TYPES else bs_types r)). intros l. clear -l. revert d.
      induction l as [|t l IH]; intros d z; [done|]. cbn [foldl]. unfold set_size at 2.
      destruct (SetBuffLen _ _ _) as [mz rt]. by rewrite IH. }
    destruct (bool_decide _); injection H as <- _ _; by apply Hsame.
  - unfold HandleStatsQueryRqst in H. destruct (negb _); injection H as <- _ _; by apply Hsame.
  - eapply HandleJobs_none, H. by intros d1 i d2 ?%refresh_op_none.
  - injection H as <- _ _. by apply Hsame.
  - injection H as <- _ _. by apply Hsame.
  - injection H as <- _ _. by apply Hsame.
  - unfold HandleLogRemoveRqst in H. assert (forall l d1, dm_jobs (foldl remove_type d1 l) = dm_jobs d1) as Hj.
    { intros l. induction l as [|t' l IH]; intros d1; [done|]. cbn [foldl]. by rewrite IH. }
    destruct (bool_decide _); injection H as <- _ _; by apply Hsame.
  - injection H as <- _ _. by apply Hsame.
Qed.

Lemma rq_size_range q : 0 < rq_size q < 2 ^ 16.
Proof. destruct q; unfold rq_size; cbn [rq_body bd_packed]; by vm_compute. Qed.

Lemma rq_cmd_range q : 0 <= rq_cmd q < 256.
Proof. by destruct q. Qed.

Lemma sock_read_enc {T} (p : packed T) `{!PackedOk p} v rest : pwf p v -> sock_read (psize p) (enc p v :: rest) = (enc p v, rest).
Proof. intros Hv. unfold sock_read. rewrite str_take_all; [done|]. unfold slen. rewrite enc_size by done. lia. Qed.

Lemma enc_nonempty {T} (p : packed T) `{!PackedOk p} v : (0 < psize p)%nat -> pwf p v -> enc p v <> "".
Proof. intros Hp Hv E. pose proof (enc_size v Hv) as H. rewrite E in H. simpl in H. lia. Qed.

Lemma MsgHeader_wf ver cmd err len :
  0 <= ver < 256 -> 0 <= cmd < 256 -> - 2 ^ 15 <= err < 2 ^ 15 -> 0 <= len < 2 ^ 16 -> pwf p_MsgHeader (mkMsgHeader ver cmd err len).
Proof. intros H1 H2 H3 H4. exact (conj H1 (conj H2 (conj H3 H4))). Qed.

Lemma GetMsgHeader_enc hdr rest : pwf p_MsgHeader hdr -> GetMsgHeader (enc p_MsgHeader hdr :: rest) = Some (hdr, rest).
Proof.
  intros Hh. unfold GetMsgHeader. rewrite (sock_read_enc p_MsgHeader) by done. unfold slen.
  rewrite (enc_size (p := p_MsgHeader) hdr Hh), Z.ltb_irrefl. do 2 f_equal.
  rewrite <- (str_app_nil_r (enc p_MsgHeader hdr)). by apply (dec_enc (p := p_MsgHeader)).
Qed.

Lemma RequestHandler_sent {T} (p : packed T) `{!PackedOk p} hdr v rest d' h :
  (0 < psize p)%nat -> hdr_len hdr = Z.of_nat (psize p) -> pwf p v -> RequestHandler p hdr (enc p v :: rest) d' h = h v.
Proof.
  intros Hp Hl Hv. unfold RequestHandler, GetRqst. rewrite Hl, Z.eqb_refl, Nat2Z.id, sock_read_enc by done. cbn [negb].
  rewrite bool_decide_false by (by apply enc_nonempty). by rewrite dec_enc.
Qed.

Lemma RequestHandler_any {T} (p : packed T) `{!PackedOk p} hdr inp d' h :
  RequestHandler p hdr inp d' h = Some (d', [], true) \/ exists v, pwf p v /\ RequestHandler p hdr inp d' h = h v.
Proof.
  unfold RequestHandler, GetRqst. destruct (Z.eqb_spec (hdr_len hdr) (Z.of_nat (psize p))) as [->|]; [|by left]. cbn [negb].
  rewrite Nat2Z.id. destruct (sock_read (psize p) inp) as [data inp'] eqn:E. destruct (bool_decide (data = "")); [by left|].
  right. eexists. split; [|done]. apply dec_pwf. apply Nat2Z.inj_le. fold (slen (data +:+ fill (Z.to_nat (Z.of_nat (psize p) - slen data)) NUL)).
  rewrite slen_app, slen_fill. pose proof (slen_nonneg data). lia.
Qed.

Lemma loop_request q rest : rq_wf q -> rq_cmd q ∈ cmds -> loop (rq_packets q ++ rest) d = rq_handle q.
Proof.
  intros Hwf Hc. unfold CommunicationLoop, rq_packets. cbn [app].
  pose proof (rq_size_range q). pose proof (rq_cmd_range q).
  assert (pwf p_MsgHeader (mkMsgHeader MSG_VER (rq_cmd q) 0 (rq_size q))) as Hh
    by (apply MsgHeader_wf; unfold MSG_VER; lia).
  rewrite GetMsgHeader_enc by exact Hh. cbn [hdr_cmd].
  unfold IsValidCmd. rewrite bool_decide_true by done. cbn [negb].
  destruct q; unfold rq_wf, rq_bytes in *; cbn [rq_cmd rq_body bd_packed bd_value rq_handle] in *;
    repeat match goal with |- context [?a =? ?b] => let r := eval vm_compute in (a =? b) in change (a =? b) with r end;
    cbv iota; rewrite RequestHandler_sent; try reflexivity; try exact Hwf; try apply _;
    apply Nat.ltb_lt; vm_compute; reflexivity.
Qed.

Lemma loop_any inp :
  loop inp d = Some (d, [], true) \/ loop inp d = Some (d, [WriteErrorRsp ERR_INVALID_RQST_CMD], true) \/
  exists q, rq_wf q /\ rq_cmd q ∈ cmds /\ loop inp d = rq_handle q.
Proof.
  unfold CommunicationLoop. destruct (GetMsgHeader inp) as [[hdr inp']|]; [|by left].
  unfold IsValidCmd. destruct (bool_decide_reflect (hdr_cmd hdr ∈ cmds)) as [Hc|]; [|by right; left]. cbn [negb].
  repeat (match goal with |- context [if ?a =? ?b then _ else _] => destruct (Z.eqb_spec a b) as [E|_] end;
    [rewrite E in Hc; match goal with |- context [RequestHandler ?p hdr inp' d ?h] =>
       destruct (RequestHandler_any p hdr inp' d h) as [->|(v & Hv & ->)] end; [by left|right; right]|]).
  all: try by left.
  - by exists (RqOutput v).
  - by exists (RqPersistStart v).
  - by exists (RqPersistStop v).
  - by exists (RqPersistQuery v).
  - by exists (RqBufferSizeGet v).
  - by exists (RqBufferSizeSet v).
  - by exists (RqStatsQuery v).
  - by exists (RqPersistRefresh v).
  - by exists (RqPersistClear v).
  - by exists (RqStatsClear v).
  - by exists (RqDomainFlowCtrl v).
  - by exists (RqLogRemove v).
  - by exists (RqKmsgEnable v).
Qed.

(** C9: what a client can make the daemon do.  The two packets of a well-formed
    request reach the handler of that request with exactly the structure the
    client encoded.  Any other sequence of packets is either turned down, with
    the state unchanged and no answer but that the command is invalid, or is
    handled as some request whose fields are in the ranges of their types and
    whose command the socket serves. *)
Theorem requests_dispatched :
  (forall q rest, rq_wf q -> rq_cmd q ∈ cmds -> loop (rq_packets q ++ rest) d = rq_handle q) /\
  (forall inp, loop inp d = Some (d, [], true) \/ loop inp d = Some (d, [WriteErrorRsp ERR_INVALID_RQST_CMD], true) \/
     exists q, rq_wf q /\ rq_cmd q ∈ cmds /\ loop inp d = rq_handle q).
Proof. split; [apply loop_request | apply loop_any]. Qed.
End dispatch.

(** ** A client and the daemon *)

Section served.
Context {PS : ParamService} {ZL : Zlib}.
Context (localtime_r : Z -> option tm) (char_signed : bool) (regex_search : string -> string -> option bool).
Context (allTypes : list Z) (ptr_size : nat) (cmds : list Z) (cn : conn) (d : Daemon).

(** The daemon as the client sees it: the packets of one connection. *)
Definition daemon_peer (inp : list string) : list string :=
  match serve_client localtime_r char_signed regex_search allTypes ptr_size cmds cn inp d with
  | Some (_, out, _) => out
  | None => []
  end.

(** The state in which a request is handled: the connection has its readers. *)
Definition connected : Daemon :=
  let d := with_buffer d false (CreateBufReader (buffer_of d false) (cn_reader cn) true) in
  with_buffer d true (CreateBufReader (buffer_of d true) (cn_kreader cn) true).

Definition daemon_link : link := mkLink true [] [] daemon_peer.
Abbreviation answer := (rq_handle localtime_r char_signed regex_search allTypes ptr_size cn connected).

Lemma daemon_peer_request q :
  rq_wf q -> rq_cmd q ∈ cmds ->
  daemon_peer (rq_packets q) = match answer q with Some (_, out, _) => out | None => [] end.
Proof.
  intros Hwf Hc. unfold daemon_peer, serve_client.
  pose proof (loop_request localtime_r char_signed regex_search allTypes ptr_size cmds cn connected q [] Hwf Hc) as Hd.
  rewrite app_nil_r in Hd. fold connected. rewrite Hd.
  by destruct (answer q) as [[[d' out] []]|].
Qed.

Lemma RequestMsgHead_sent {B} (p2 : packed B) q rspCmd :
  rq_wf q -> rq_cmd q ∈ cmds ->
  RequestMsgHead (bd_packed (rq_body q)) p2 daemon_link (rq_cmd q) rspCmd (bd_value (rq_body q)) =
  match ReceiveMsgHeaer (match answer q with Some (_, out, _) => out | None => [] end) with
  | None => (ERR_SOCKET_RECEIVE_RSP, [])
  | Some (hdr, inp) =>
      if hdr_cmd hdr =? RSP_ERROR then (hdr_err hdr, inp)
      else if negb (hdr_cmd hdr =? u8 rspCmd) then (RET_FAIL, inp)
      else if negb (hdr_len hdr =? Z.of_nat (psize p2)) then (ERR_MSG_LEN_INVALID, inp)
      else (RET_SUCCESS, inp)
  end.
Proof.
  intros Hwf Hc. rewrite <- daemon_peer_request by done. pose proof (rq_size_range q). pose proof (rq_cmd_range q).
  assert (write_loop [] (rq_bytes q) = ([rq_bytes q], 0)) as Hw.
  { unfold write_loop. rewrite bool_decide_false; [done|].
    apply enc_nonempty; [apply bd_ok | unfold rq_size in *; lia | done]. }
  unfold RequestMsgHead, SendMsgHeader, WriteAll. cbn [daemon_link lk_init lk_header lk_body lk_peer negb].
  fold (rq_bytes q) (rq_size q). rewrite Hw. cbn [write_loop]. rewrite bool_decide_false by done.
  pose proof (slen_nonneg (enc p_MsgHeader (mkMsgHeader MSG_VER (u8 (rq_cmd q)) 0 (u16 (rq_size q))))).
  pose proof (slen_nonneg (rq_bytes q)). cbn [Z.ltb Z.compare].
  rewrite !(proj2 (Z.ltb_ge _ _)) by lia. cbn [Z.eqb RET_SUCCESS negb app]. unfold rq_packets.
  by rewrite !wrapu_small by lia.
Qed.

Lemma GetRsp_enc {B} (p : packed B) `{!PackedOk p} v inp :
  (0 < psize p)%nat -> pwf p v -> GetRsp (psize p) (enc p v :: inp) = Some (enc p v, inp).
Proof.
  intros Hp Hv. unfold GetRsp. rewrite bool_decide_false by (by apply enc_nonempty). pose proof (enc_size v Hv) as Hl.
  rewrite str_take_all by (unfold slen; lia). rewrite Hl, Nat.sub_diag. cbn [fill]. by rewrite str_app_nil_r.
Qed.

Lemma ReceiveMsgHeaer_enc hdr inp : pwf p_MsgHeader hdr -> ReceiveMsgHeaer (enc p_MsgHeader hdr :: inp) = Some (hdr, inp).
Proof.
  intros Hh. unfold ReceiveMsgHeaer. rewrite (GetRsp_enc p_MsgHeader hdr inp) by (done || apply Nat.lt_0_succ). cbn [mbind option_bind].
  do 2 f_equal. rewrite <- (str_app_nil_r (enc p_MsgHeader hdr)). by apply (dec_enc (p := p_MsgHeader)).
Qed.

(** The round trip of a request other than a query.  The client's handler
    is called with exactly the response structure the daemon built; an error
    the daemon reports is what the call returns; and a client whose daemon
    dies gets an error too. *)
Theorem request_answered {B} (p2 : packed B) `{!PackedOk p2} (q : request) (rspCmd : Z) (handle : B -> string * Z)
    (q_wf : rq_wf q) (q_served : rq_cmd q ∈ cmds) (q_plain : rq_cmd q <> OUTPUT_RQST /\ rq_cmd q <> STATS_QUERY_RQST) :
  let call := Request (bd_packed (rq_body q)) p2 daemon_link (rq_cmd q) rspCmd (bd_value (rq_body q)) handle in
  (forall d' rsp fin, answer q = Some (d', respond rspCmd p2 rsp, fin) -> pwf p2 rsp -> 0 < Z.of_nat (psize p2) < 2 ^ 16 ->
     0 <= rspCmd < RSP_ERROR -> call = handle rsp) /\
  (forall d' e fin, answer q = Some (d', [WriteErrorRsp e], fin) -> - 2 ^ 15 <= e < 0 -> call = ("", e)) /\
  (answer q = None -> call = ("", ERR_SOCKET_RECEIVE_RSP)).
Proof.
  destruct q_plain as [H1 H2]. unfold Request. rewrite (proj2 (Z.eqb_neq _ _) H1), (proj2 (Z.eqb_neq _ _) H2). cbn [orb].
  rewrite RequestMsgHead_sent by done. split_and!.
  - intros d' rsp fin -> Hr Hp Hc. unfold respond, WriteRspHeader, RSP_ERROR in *.
    rewrite ReceiveMsgHeaer_enc by (rewrite wrapu_small by lia; apply MsgHeader_wf; unfold MSG_VER; lia).
    cbn [hdr_cmd hdr_err hdr_len]. rewrite !wrapu_small by lia. rewrite !Z.eqb_refl, (proj2 (Z.eqb_neq _ _)) by lia.
    cbn [negb Z.eqb RET_SUCCESS]. rewrite GetRsp_enc by (done || lia). by rewrite <- (str_app_nil_r (enc p2 rsp)), dec_enc.
  - intros d' e fin -> He. unfold WriteErrorRsp. rewrite wraps_small by lia.
    rewrite ReceiveMsgHeaer_enc by (apply MsgHeader_wf; unfold MSG_VER, RSP_ERROR; lia). cbn [hdr_cmd hdr_err].
    rewrite Z.eqb_refl. unfold RET_SUCCESS. by rewrite (proj2 (Z.eqb_neq _ _)) by lia.
  - by intros ->.
Qed.
End served.

(** ** Examples *)

Definition ex_cmds : list Z := [OUTPUT_RQST; PERSIST_STOP_RQST; BUFFERSIZE_GET_RQST].
Definition ex_types : list Z := [LOG_INIT; LOG_CORE; LOG_APP; LOG_KMSG; LOG_ONLY_PRERELEASE].
Lemma requests_dispatched_witness :
  CommunicationLoop ex_localtime false LogBufferProps.ex_regex ex_types 8 ex_cmds (ex_conn APP_UID) (rq_packets (RqPersistStop 5)) ex_daemon =
    Some (ex_daemon, [WriteErrorRsp ERR_JOBID_NOT_EXSIST], true).
Proof.
  destruct (requests_dispatched ex_localtime false LogBufferProps.ex_regex ex_types 8 ex_cmds (ex_conn APP_UID) ex_daemon) as [H _].
  rewrite <- (app_nil_r (rq_packets _)), H; [reflexivity | by vm_compute | right; left].
Defined.

Lemma request_answered_witness :
  Request p_types p_BufferSizeGetRsp
    (daemon_link ex_localtime false LogBufferProps.ex_regex ex_types 8 ex_cmds (ex_conn APP_UID) ex_daemon)
    BUFFERSIZE_GET_RQST BUFFERSIZE_GET_RSP 0 (fun sizes => (Uint2DecStr (aget sizes LOG_CORE), RET_SUCCESS)) = ("65536", RET_SUCCESS).
Proof.
  assert (BUFFERSIZE_GET_RQST ∈ ex_cmds) as Hin by (right; right; left).
  destruct (request_answered ex_localtime false LogBufferProps.ex_regex ex_types 8 ex_cmds (ex_conn APP_UID) ex_daemon p_BufferSizeGetRsp
              (RqBufferSizeGet 0) BUFFERSIZE_GET_RSP (fun sizes => (Uint2DecStr (aget sizes LOG_CORE), RET_SUCCESS))
              ltac:(by vm_compute) Hin ltac:(by split)) as [H _].
  refine (H _ [65536; 65536; 0; 65536; 0; 65536] true eq_refl _ _ _).
  - split; [reflexivity|]. repeat (apply Forall_cons; split; [by vm_compute|]). by apply Forall_nil_2.
  - by vm_compute.
  - by vm_compute.
Defined.
