(* ===== verification/FloatText.v ===== *)
(** * Floating-point numbers as text

    What the C and C++ libraries print for a [float], computed from its exact
    value: with a number of decimals, and with two significant digits; the
    [float] of its bits; and Size2Str of log_utils.cpp. *)

From S2P Require Import Prelude Utils LogStats LogPrint.
From Stdlib Require Import Ascii SpecFloat.

(** [n] divided by [d], rounded to nearest, ties to even. *)
Definition div_nearest (n d : Z) : Z :=
  let q := n / d in
  let r := n mod d in
  if 2 * r <? d then q else if d <? 2 * r then q + 1 else if Z.even q then q else q + 1.

(** A value as a fraction. *)
Definition frac (m : positive) (e : Z) : Z * Z := if 0 <=? e then (Z.pos m * 2 ^ e, 1) else (Z.pos m, 2 ^ (- e)).

(** [d] units of the last of [p] decimals. *)
Definition decimals (p : nat) (d : Z) : string :=
  to_string (d / 10 ^ Z.of_nat p) +:+ (if (p =? 0)%nat then "" else "." +:+ setw "0" (Z.of_nat p) (to_string (d mod 10 ^ Z.of_nat p))).

(** %.[p]f. *)
Definition fixed_text (p : nat) (f : spec_float) : string :=
  match f with
  | S754_nan => "nan"
  | S754_infinity s => (if s then "-" else "") +:+ "inf"
  | S754_zero s => (if s then "-" else "") +:+ decimals p 0
  | S754_finite s m e => let '(n, d) := frac m e in (if s then "-" else "") +:+ decimals p (div_nearest (n * 10 ^ Z.of_nat p) d)
  end.

(** The decimal exponent of [n / d]: the fuel is the number of exponents tried. *)
Fixpoint exponent10 (fuel : nat) (n d x : Z) : Z :=
  match fuel with
  | O => x
  | S fuel =>
      if d * 10 <=? n then exponent10 fuel n (d * 10) (x + 1)
      else if n <? d then exponent10 fuel (n * 10) d (x - 1)
      else x
  end.

(** Two digits [d] at exponent [x], as %.2g prints them. *)
Definition two_digits (d x : Z) : string :=
  if (x <? -4) || (1 <? x) then
    to_string (d / 10) +:+ (if d mod 10 =? 0 then "" else "." +:+ to_string (d mod 10)) +:+ "e" +:+
    (if x <? 0 then "-" else "+") +:+ setw "0" 2 (to_string (Z.abs x))
  else if x =? 1 then to_string d
  else if d mod 10 =? 0 then decimals (Z.to_nat (- x)) (d / 10)
  else decimals (Z.to_nat (1 - x)) d.

(** %.2g: two significant digits. *)
Definition general_text (f : spec_float) : string :=
  match f with
  | S754_nan => "nan"
  | S754_infinity s => (if s then "-" else "") +:+ "inf"
  | S754_zero s => (if s then "-" else "") +:+ "0"
  | S754_finite s m e =>
      let '(n, d) := frac m e in
      let x := exponent10 64 n d 0 in
      let digits := if x <? 1 then div_nearest (n * 10 ^ (1 - x)) d else div_nearest n (d * 10 ^ (x - 1)) in
      (if s then "-" else "") +:+ (if digits =? 100 then two_digits 10 (x + 1) else two_digits digits x)
  end.

(** The [float] with these bits. *)
Definition f32_of_bits (b : Z) : spec_float :=
  let s := Z.testbit b 31 in
  let e := Z.land (Z.shiftr b 23) 255 in
  let m := Z.land b (2 ^ 23 - 1) in
  if e =? 255 then (if m =? 0 then S754_infinity s else S754_nan)
  else if e =? 0 then match m with Z.pos m => S754_finite s m (-149) | _ => S754_zero s end
  else match m + 2 ^ 23 with Z.pos m => S754_finite s m (e - 150) | _ => S754_nan end.

(** ** Sizes (log_utils.cpp) *)

Definition ONE_KB : Z := 2 ^ 10.
Definition ONE_MB : Z := 2 ^ 20.
Definition ONE_GB : Z := 2 ^ 30.
Definition ONE_TB : Z := 2 ^ 40.

Definition Size2Str (size : Z) : string :=
  let unit :=
    if size <? ONE_KB then 1 else if size <? ONE_MB then ONE_KB else if size <? ONE_GB then ONE_MB
    else if size <? ONE_TB then ONE_GB else ONE_TB in
  let i := f32_div (f32_of_Z size) (f32_of_Z unit) in
  fixed_text 1 i +:+ String (GetKey g_SizeMap unit) "".
