(* ===== verification/Tool.v ===== *)
(** * The command line tool

    hilogtool/main.cpp: the options of the hilog command, the requests they
    are turned into, and what is printed.  getopt_long, and StrToInt and
    IsNumericStr of c_utils, are given; the text of the help pages and of the
    statistics report are arguments, see Help and Display.  What is written to the standard output and
    to the standard error is one text. *)

From S2P Require Import Prelude Common TimeStamp Utils LogData LogStats LogBuffer LogBufferSpec FlowControl.
From S2P Require Import LogCollector Kmsg LogPrint Compress Rotator Recovery Persister Cmd Properties Proc.
From S2P Require Import StatsWire FloatText Controller ControllerProps Ioctl.
From Stdlib Require Import Ascii.

(** ** Texts (log_utils.cpp) *)

Definition DOMAIN_MIN : Z := DOMAIN_APP_MIN.
Definition DOMAIN_MAX : Z := DOMAIN_OS_MAX.

Definition g_ErrorMsgs : KVMap Z string := mkKVMap [
  (RET_SUCCESS, "Success");
  (RET_FAIL, "Unknown failure reason");
  (ERR_LOG_LEVEL_INVALID, "Invalid log level, the valid log levels include D/I/W/E/F or DEBUG/INFO/WARN/ERROR/FATAL");
  (ERR_LOG_TYPE_INVALID, "Invalid log type, the valid log types include app/core/init/kmsg/only_prerelease");
  (ERR_INVALID_RQST_CMD, "Invalid request cmd, please check sourcecode");
  (ERR_QUERY_TYPE_INVALID, "Can't query kmsg type logs combined with other types logs.");
  (ERR_INVALID_DOMAIN_STR, "Invalid domain string");
  (ERR_LOG_PERSIST_FILE_SIZE_INVALID, "Invalid log persist file size, file size should be in range [" +:+
     Size2Str MIN_LOG_FILE_SIZE +:+ ", " +:+ Size2Str MAX_LOG_FILE_SIZE +:+ "]");
  (ERR_LOG_PERSIST_FILE_NAME_INVALID, "Invalid log persist file name, file name should not contain [\/:*?" +:+
     String "034" "<>|]");
  (ERR_LOG_PERSIST_COMPRESS_BUFFER_EXP, "Invalid Log persist compression buffer");
  (ERR_LOG_PERSIST_FILE_PATH_INVALID, "Invalid persister file path or persister directory does not exist");
  (ERR_LOG_PERSIST_COMPRESS_INIT_FAIL, "Log persist compression initialization failed");
  (ERR_LOG_PERSIST_FILE_OPEN_FAIL, "Log persist open file failed");
  (ERR_LOG_PERSIST_JOBID_FAIL, "Log persist jobid not exist");
  (ERR_LOG_PERSIST_TASK_EXISTED, "Log persist task is existed");
  (ERR_DOMAIN_INVALID, "Invalid domain, domain should be in range (" +:+ Uint2HexStr DOMAIN_MIN +:+ ", " +:+
     Uint2HexStr DOMAIN_MAX +:+ "]");
  (ERR_MSG_LEN_INVALID, "Invalid message length");
  (ERR_LOG_PERSIST_JOBID_INVALID, "Invalid jobid, jobid should be in range [" +:+ to_string JOB_ID_MIN +:+ ", " +:+
     to_string JOB_ID_MAX +:+ ")");
  (ERR_BUFF_SIZE_INVALID, "Invalid buffer size, buffer size should be in range [" +:+ Size2Str MIN_BUFFER_SIZE +:+ ", " +:+
     Size2Str MAX_BUFFER_SIZE +:+ "]");
  (ERR_COMMAND_INVALID, "Mutlti commands can't be used in combination");
  (ERR_LOG_FILE_NUM_INVALID, "Invalid number of files");
  (ERR_NOT_NUMBER_STR, "Not a numeric string");
  (ERR_TOO_MANY_ARGUMENTS, "Too many arguments");
  (ERR_DUPLICATE_OPTION, "Too many duplicate options");
  (ERR_INVALID_ARGUMENT, "Invalid argument");
  (ERR_TOO_MANY_DOMAINS, "Max domain count is " +:+ to_string MAX_DOMAINS);
  (ERR_INVALID_SIZE_STR, "Invalid size string");
  (ERR_TOO_MANY_PIDS, "Max pid count is " +:+ to_string MAX_PIDS);
  (ERR_TOO_MANY_TAGS, "Max tag count is " +:+ to_string MAX_TAGS);
  (ERR_TAG_STR_TOO_LONG, "Tag string too long, max length is " +:+ to_string (MAX_TAG_LEN - 1));
  (ERR_REGEX_STR_TOO_LONG, "Regular expression too long, max length is " +:+ to_string (MAX_REGEX_STR_LEN - 1));
  (ERR_FILE_NAME_TOO_LONG, "File name too long, max length is " +:+ to_string MAX_FILE_NAME_LEN);
  (ERR_SOCKET_CLIENT_INIT_FAIL, "Socket client init failed");
  (ERR_SOCKET_WRITE_MSG_HEADER_FAIL, "Socket rite message header failed");
  (ERR_SOCKET_WRITE_CMD_FAIL, "Socket write command failed");
  (ERR_SOCKET_RECEIVE_RSP, "Unable to receive message from socket");
  (ERR_PERSIST_TASK_EMPTY, "No running persist task, please check");
  (ERR_JOBID_NOT_EXSIST, "Persist task of this job id doesn't exist, please check");
  (ERR_TOO_MANY_JOBS, "Too many jobs are running, max job count is:" +:+ to_string MAX_JOBS);
  (ERR_STATS_NOT_ENABLE, "Statistic feature is not enable, please set param persist.sys.hilog.stats true to enable it, " +:+
     "further more, you can set persist.sys.hilog.stats.tag true to enable counting log by tags");
  (ERR_NO_RUNNING_TASK, "No running persistent task");
  (ERR_NO_PID_PERMISSION, "Permission denied, only shell and root can filter logs by pid")
] RET_FAIL "Unknown error code" str_eqb.

Definition ErrorCode2Str (errorCode : Z) : string :=
  GetValue g_ErrorMsgs (i16 (u16 errorCode)) +:+ " [CODE: " +:+ to_string (i16 errorCode) +:+ "]".

(** ** The arguments *)

(** A filter with its black list flag: [domains], [pids] or [tags] with the
    count. *)
Record selection (A : Type) := mkSelection { s_black : bool; s_items : list A }.
Arguments mkSelection {A}.
Arguments s_black {A}.
Arguments s_items {A}.

Record HilogArgs := mkArgs {
  a_headLines : Z;
  a_domains : selection Z;
  a_regex : string;
  a_fileName : string;
  a_jobId : Z;
  a_fileSize : Z;
  a_levels : Z;
  a_stream : string;
  a_fileNum : Z;
  a_persist : bool;
  a_pids : selection Z;
  a_types : Z;
  a_tags : selection string;
  a_format : LogFormat;
  a_noBlock : bool;
  a_tailLines : Z;
}.

Definition new_args : HilogArgs :=
  mkArgs 0 (mkSelection false []) "" "" 0 0 0 "" 0 false (mkSelection false []) 0 (mkSelection false [])
    (mkLogFormat false FT_INVALID FA_INVALID false false false) false 0.

Definition set_headLines (c : HilogArgs) (v : Z) : HilogArgs :=
  mkArgs v (a_domains c) (a_regex c) (a_fileName c) (a_jobId c) (a_fileSize c) (a_levels c) (a_stream c) (a_fileNum c) (a_persist c) (a_pids c) (a_types c) (a_tags c) (a_format c) (a_noBlock c) (a_tailLines c).
Definition set_domainSel (c : HilogArgs) (v : selection Z) : HilogArgs :=
  mkArgs (a_headLines c) v (a_regex c) (a_fileName c) (a_jobId c) (a_fileSize c) (a_levels c) (a_stream c) (a_fileNum c) (a_persist c) (a_pids c) (a_types c) (a_tags c) (a_format c) (a_noBlock c) (a_tailLines c).
Definition set_regex (c : HilogArgs) (v : string) : HilogArgs :=
  mkArgs (a_headLines c) (a_domains c) v (a_fileName c) (a_jobId c) (a_fileSize c) (a_levels c) (a_stream c) (a_fileNum c) (a_persist c) (a_pids c) (a_types c) (a_tags c) (a_format c) (a_noBlock c) (a_tailLines c).
Definition set_fileName (c : HilogArgs) (v : string) : HilogArgs :=
  mkArgs (a_headLines c) (a_domains c) (a_regex c) v (a_jobId c) (a_fileSize c) (a_levels c) (a_stream c) (a_fileNum c) (a_persist c) (a_pids c) (a_types c) (a_tags c) (a_format c) (a_noBlock c) (a_tailLines c).
Definition set_jobId (c : HilogArgs) (v : Z) : HilogArgs :=
  mkArgs (a_headLines c) (a_domains c) (a_regex c) (a_fileName c) v (a_fileSize c) (a_levels c) (a_stream c) (a_fileNum c) (a_persist c) (a_pids c) (a_types c) (a_tags c) (a_format c) (a_noBlock c) (a_tailLines c).
Definition set_fileSize (c : HilogArgs) (v : Z) : HilogArgs :=
  mkArgs (a_headLines c) (a_domains c) (a_regex c) (a_fileName c) (a_jobId c) v (a_levels c) (a_stream c) (a_fileNum c) (a_persist c) (a_pids c) (a_types c) (a_tags c) (a_format c) (a_noBlock c) (a_tailLines c).
Definition set_levels (c : HilogArgs) (v : Z) : HilogArgs :=
  mkArgs (a_headLines c) (a_domains c) (a_regex c) (a_fileName c) (a_jobId c) (a_fileSize c) v (a_stream c) (a_fileNum c) (a_persist c) (a_pids c) (a_types c) (a_tags c) (a_format c) (a_noBlock c) (a_tailLines c).
Definition set_stream (c : HilogArgs) (v : string) : HilogArgs :=
  mkArgs (a_headLines c) (a_domains c) (a_regex c) (a_fileName c) (a_jobId c) (a_fileSize c) (a_levels c) v (a_fileNum c) (a_persist c) (a_pids c) (a_types c) (a_tags c) (a_format c) (a_noBlock c) (a_tailLines c).
Definition set_fileNum (c : HilogArgs) (v : Z) : HilogArgs :=
  mkArgs (a_headLines c) (a_domains c) (a_regex c) (a_fileName c) (a_jobId c) (a_fileSize c) (a_levels c) (a_stream c) v (a_persist c) (a_pids c) (a_types c) (a_tags c) (a_format c) (a_noBlock c) (a_tailLines c).
Definition set_persist (c : HilogArgs) (v : bool) : HilogArgs :=
  mkArgs (a_headLines c) (a_domains c) (a_regex c) (a_fileName c) (a_jobId c) (a_fileSize c) (a_levels c) (a_stream c) (a_fileNum c) v (a_pids c) (a_types c) (a_tags c) (a_format c) (a_noBlock c) (a_tailLines c).
Definition set_pids (c : HilogArgs) (v : selection Z) : HilogArgs :=
  mkArgs (a_headLines c) (a_domains c) (a_regex c) (a_fileName c) (a_jobId c) (a_fileSize c) (a_levels c) (a_stream c) (a_fileNum c) (a_persist c) v (a_types c) (a_tags c) (a_format c) (a_noBlock c) (a_tailLines c).
Definition set_types (c : HilogArgs) (v : Z) : HilogArgs :=
  mkArgs (a_headLines c) (a_domains c) (a_regex c) (a_fileName c) (a_jobId c) (a_fileSize c) (a_levels c) (a_stream c) (a_fileNum c) (a_persist c) (a_pids c) v (a_tags c) (a_format c) (a_noBlock c) (a_tailLines c).
Definition set_tags (c : HilogArgs) (v : selection string) : HilogArgs :=
  mkArgs (a_headLines c) (a_domains c) (a_regex c) (a_fileName c) (a_jobId c) (a_fileSize c) (a_levels c) (a_stream c) (a_fileNum c) (a_persist c) (a_pids c) (a_types c) v (a_format c) (a_noBlock c) (a_tailLines c).
Definition set_format (c : HilogArgs) (v : LogFormat) : HilogArgs :=
  mkArgs (a_headLines c) (a_domains c) (a_regex c) (a_fileName c) (a_jobId c) (a_fileSize c) (a_levels c) (a_stream c) (a_fileNum c) (a_persist c) (a_pids c) (a_types c) (a_tags c) v (a_noBlock c) (a_tailLines c).
Definition set_noBlock (c : HilogArgs) (v : bool) : HilogArgs :=
  mkArgs (a_headLines c) (a_domains c) (a_regex c) (a_fileName c) (a_jobId c) (a_fileSize c) (a_levels c) (a_stream c) (a_fileNum c) (a_persist c) (a_pids c) (a_types c) (a_tags c) (a_format c) v (a_tailLines c).
Definition set_tailLines (c : HilogArgs) (v : Z) : HilogArgs :=
  mkArgs (a_headLines c) (a_domains c) (a_regex c) (a_fileName c) (a_jobId c) (a_fileSize c) (a_levels c) (a_stream c) (a_fileNum c) (a_persist c) (a_pids c) (a_types c) (a_tags c) (a_format c) (a_noBlock c) v.

(** ** Requests *)

(** The strings of an array, copied one by one; [false] when one does not
    fit. *)
Fixpoint put_tags (src dst : list string) : list string * bool :=
  match src, dst with
  | t :: src, d :: dst =>
      match strncpy_s MAX_TAG_LEN t (slen t) with
      | None => (char_array MAX_TAG_LEN "" :: dst, false)
      | Some t => let '(l, ok) := put_tags src dst in (char_array MAX_TAG_LEN t :: l, ok)
      end
  | _, _ => (dst, true)
  end.

(** The elements of a list at the start of an array. *)
Definition put_all (src dst : list Z) : list Z := src ++ drop (length src) dst.

(** Into a request whose bytes are zero. *)
Definition ToOutputRqst (c : HilogArgs) : OutputRqst :=
  let domains := s_items (a_domains c) in
  let tags := s_items (a_tags c) in
  let pids := s_items (a_pids c) in
  let rqst (tagArray : list string) (blackPid : bool) (pidCount : Z) (pids : list Z) (regex : string) (noBlock : bool) (tail : Z) :=
    mkOutputRqst (a_headLines c) (a_types c) (a_levels c) (s_black (a_domains c)) (u8 (Z.of_nat (length domains)))
      (put_all domains (or_domains zero_rqst)) (s_black (a_tags c)) (u8 (Z.of_nat (length tags))) tagArray
      blackPid pidCount pids regex noBlock tail in
  let '(tagArray, ok) := put_tags tags (or_tags zero_rqst) in
  if negb ok then rqst tagArray false 0 (or_pids zero_rqst) (or_regex zero_rqst) false 0
  else
    let pidArray := put_all pids (or_pids zero_rqst) in
    match strncpy_s MAX_REGEX_STR_LEN (a_regex c) (slen (a_regex c)) with
    | None => rqst tagArray (s_black (a_pids c)) (Z.of_nat (length pids)) pidArray (or_regex zero_rqst) false 0
    | Some regex =>
        rqst tagArray (s_black (a_pids c)) (Z.of_nat (length pids)) pidArray (char_array MAX_REGEX_STR_LEN regex)
          (a_noBlock c) (a_tailLines c)
    end.

Definition ToPersistStartRqst (c : HilogArgs) : PersistStartRqst :=
  let rqst := mkPersistStartRqst (ToOutputRqst c) (a_jobId c) (a_fileSize c) (a_fileNum c) in
  match strncpy_s MAX_FILE_NAME_LEN (a_fileName c) (slen (a_fileName c)) with
  | None => rqst (ps_fileName zero_task) (ps_stream zero_task)
  | Some fileName =>
      rqst (char_array MAX_FILE_NAME_LEN fileName)
        (match strncpy_s MAX_STREAM_NAME_LEN (a_stream c) (slen (a_stream c)) with
         | None => ps_stream zero_task
         | Some stream => char_array MAX_STREAM_NAME_LEN stream
         end)
  end.

Definition ToPersistStopRqst (c : HilogArgs) : Z := a_jobId c.
Definition ToBufferSizeSetRqst (c : HilogArgs) (buffSize : Z) : BufferSizeSetRqst := mkBufferSizeSetRqst (a_types c) buffSize.
Definition ToBufferSizeGetRqst (c : HilogArgs) : Z := a_types c.
Definition ToStatsQueryRqst (c : HilogArgs) : StatsQueryRqst :=
  let domains := s_items (a_domains c) in
  mkStatsQueryRqst (a_types c) (u8 (Z.of_nat (length domains))) (put_all domains (replicate (Z.to_nat MAX_DOMAINS) 0)).
Definition ToLogRemoveRqst (c : HilogArgs) : Z := a_types c.

(** ** Handlers *)

Definition PrintErr (error : Z) : string := ErrorCode2Str error +:+ endl.
Definition PrintResult (ret : Z) (msg : string) : string :=
  msg +:+ (if ret =? RET_SUCCESS then " successfully" else " failed") +:+ endl.

Definition BLACK_PREFIX : ascii := "^".
Definition FEATURE_ON : string := "on".
Definition FEATURE_OFF : string := "off".

Section tool.
Context {PS : ParamService}.
Context (localtime_r : Z -> option tm) (ptr_size : nat).
(** c_utils; [None]: the number is not stored. *)
Context (IsNumericStr : string -> bool) (StrToInt : string -> option Z).
(** The iteration order of the table of types, the text of the help pages and
    of the report. *)
Context (allTypes : list Z) (Helper : string -> string) (HilogShowLogStatsInfo : StatsTree -> string).
(** The connection to the daemon. *)
Context (lk : link).

(** The arguments, the parameters, what is printed and the result; [None]: an
    exception. *)
Definition opt_result : Type := option (HilogArgs * sys * string * Z).
Definition OptHandler : Type := HilogArgs -> string -> sys -> opt_result.

(** A handler that only changes the arguments. *)
Definition arg_handler (h : HilogArgs -> string -> HilogArgs * Z) : OptHandler :=
  fun c arg s => let '(c, ret) := h c arg in Some (c, s, "", ret).
(** A handler that only talks to the daemon. *)
Definition rqst_handler (h : HilogArgs -> string -> string * Z) : OptHandler :=
  fun c arg s => let '(out, ret) := h c arg in Some (c, s, out, ret).

(** The format of the lines, with its defaults. *)
Definition query_format (c : HilogArgs) : LogFormat :=
  let f := a_format c in
  mkLogFormat (colorful f) (if decide (timeFormat f = FT_INVALID) then FT_TIME else timeFormat f)
    (if decide (timeAccuFormat f = FA_INVALID) then FA_MSEC else timeAccuFormat f) (f_year f) (f_zone f) (f_wrap f).

(** What the tool does with one output response: the bytes of the buffer. *)
Definition query_callback (c : HilogArgs) (buffer : string) : option (string * Z) :=
  let rsp := dec p_OutputRsp buffer in
  if os_end rsp then Some ("", RET_SUCCESS)
  else
    let data := str_drop (psize p_OutputRsp) buffer in
    let content := mkLogContent (os_level rsp) (os_type rsp) (os_pid rsp) (os_tid rsp) (os_domain rsp)
                     (os_tv_sec rsp) (os_tv_nsec rsp) (os_mono_sec rsp) (cstr data) (cstr (str_drop (Z.to_nat (os_tagLen rsp)) data)) in
    out ← LogPrintWithFormat localtime_r content (query_format c);
    Some (out, SUCCESS_CONTINUE).

Definition QueryLogHandler : OptHandler := fun c arg s =>
  '(out, ret) ← RequestOutput lk (ToOutputRqst c) (query_callback c);
  Some (c, s, out, if negb (ret =? RET_SUCCESS) then ret else RET_SUCCESS).

(** [StrToInt] into an [int] that is 0. *)
Definition number_arg (arg : string) : Z := default 0 (StrToInt arg).

Definition HeadHandler : OptHandler := fun c arg s =>
  if negb (IsNumericStr arg) then Some (c, s, "", ERR_NOT_NUMBER_STR)
  else QueryLogHandler (set_noBlock (set_headLines c (u16 (number_arg arg))) true) arg s.
Definition TailHandler : OptHandler := fun c arg s =>
  if negb (IsNumericStr arg) then Some (c, s, "", ERR_NOT_NUMBER_STR)
  else QueryLogHandler (set_noBlock (set_tailLines c (u16 (number_arg arg))) true) arg s.
Definition NoBlockHandler : OptHandler := fun c arg s => QueryLogHandler (set_noBlock c true) arg s.

(** The loops of [BaseLogLevelHandler]: each item is set, and persistently
    too when asked for. *)
Fixpoint level_loop {A} (set setPersist : sys -> A -> Z -> sys * Z) (name : A -> string) (what : string) (persist : bool)
    (level : Z) (arg : string) (items : list A) (s : sys) : sys * string :=
  match items with
  | [] => (s, "")
  | x :: items =>
      let '(s, ret) := set s x level in
      let out := PrintResult ret ("Set " +:+ what +:+ name x +:+ " log level to " +:+ arg) in
      let '(s, out) :=
        if persist then
          let '(s, ret) := setPersist s x level in
          (s, out +:+ PrintResult ret ("Set persist " +:+ what +:+ name x +:+ " log level to " +:+ arg))
        else (s, out) in
      let '(s, out') := level_loop set setPersist name what persist level arg items s in
      (s, out +:+ out')
  end.

Definition BaseLogLevelHandler : OptHandler := fun c arg s =>
  let baseLevel := PrettyStr2LogLevel arg in
  if baseLevel =? LOG_LEVEL_MIN then Some (c, s, "", ERR_LOG_LEVEL_INVALID)
  else
    let domains := s_items (a_domains c) in
    let tags := s_items (a_tags c) in
    let '(s, out1) :=
      if bool_decide (domains = []) && bool_decide (tags = []) then
        level_loop (fun s _ => SetGlobalLevel s) (fun s _ => SetPersistGlobalLevel s) (fun _ => "") "global" (a_persist c) baseLevel arg [tt] s
      else (s, "") in
    let '(s, out2) := level_loop SetDomainLevel SetPersistDomainLevel Uint2HexStr "domain 0x" (a_persist c) baseLevel arg domains s in
    let '(s, out3) := level_loop SetTagLevel SetPersistTagLevel id "tag " (a_persist c) baseLevel arg tags s in
    Some (c, s, out1 +:+ out2 +:+ out3, RET_SUCCESS).

(** *** Options that are not commands *)

(** The text behind the mark of a black list. *)
Definition black_arg (arg : string) : bool * string :=
  match arg with
  | String c rest => if bool_decide (c = BLACK_PREFIX) then (true, rest) else (false, arg)
  | EmptyString => (false, "")
  end.

(** The loop of [DomainHandler], [PidHandler] and [TagHandler]: at most [max]
    items, each parsed. *)
Fixpoint items_loop {A} (max : Z) (tooMany : Z) (parse : string -> A + Z) (index : Z) (l : list string) : list A + Z :=
  match l with
  | [] => inl []
  | x :: l =>
      if max <=? index then inr tooMany
      else match parse x with
           | inr e => inr e
           | inl a => match items_loop max tooMany parse (index + 1) l with
                      | inr e => inr e
                      | inl items => inl (a :: items)
                      end
           end
  end.

Definition select {A} (set : HilogArgs -> selection A -> HilogArgs) (c : HilogArgs) (black : bool) (items : list A + Z)
    : HilogArgs * Z :=
  match items with
  | inl items => (set c (mkSelection black items), RET_SUCCESS)
  | inr e => (c, e)
  end.

Definition parse_domain (d : string) : Z + Z :=
  let '(domain, success) := HexStr2Uint d in
  if negb success then inr ERR_INVALID_DOMAIN_STR
  else if ((DOMAIN_APP_MIN <=? domain) && (domain <=? DOMAIN_APP_MAX)) || ((DOMAIN_OS_MIN <=? domain) && (domain <=? DOMAIN_OS_MAX))
  then inl domain else inr ERR_INVALID_DOMAIN_STR.
Definition DomainHandler : OptHandler := arg_handler (fun c arg =>
  let '(black, arg) := black_arg arg in
  let domains := Split arg DEFAULT_SPLIT_DELIMIT in
  if bool_decide (domains = []) then (c, ERR_INVALID_ARGUMENT)
  else select set_domainSel c black (items_loop MAX_DOMAINS ERR_TOO_MANY_DOMAINS parse_domain 0 domains)).

Definition parse_pid (p : string) : Z + Z :=
  if negb (IsNumericStr p) then inr ERR_NOT_NUMBER_STR else inl (u32 (number_arg p)).
Definition PidHandler : OptHandler := arg_handler (fun c arg =>
  let '(black, arg) := black_arg arg in
  let pids := Split arg DEFAULT_SPLIT_DELIMIT in
  if bool_decide (pids = []) then (c, ERR_INVALID_ARGUMENT)
  else select set_pids c black (items_loop MAX_PIDS ERR_TOO_MANY_PIDS parse_pid 0 pids)).

Definition parse_tag (t : string) : string + Z := if MAX_TAG_LEN <=? slen t then inr ERR_TAG_STR_TOO_LONG else inl t.
Definition TagHandler : OptHandler := arg_handler (fun c arg =>
  let '(black, arg) := black_arg arg in
  select set_tags c black (items_loop MAX_TAGS ERR_TOO_MANY_TAGS parse_tag 0 (Split arg DEFAULT_SPLIT_DELIMIT))).

Definition RegexHandler : OptHandler := arg_handler (fun c arg =>
  (set_regex c arg, if MAX_REGEX_STR_LEN <=? slen arg then ERR_REGEX_STR_TOO_LONG else RET_SUCCESS)).
Definition PersistHandler : OptHandler := arg_handler (fun c arg => (set_persist c true, RET_SUCCESS)).
Definition FileNameHandler : OptHandler := arg_handler (fun c arg =>
  (set_fileName c arg, if MAX_FILE_NAME_LEN <=? slen arg then ERR_FILE_NAME_TOO_LONG else RET_SUCCESS)).
Definition JobIdHandler : OptHandler := arg_handler (fun c arg =>
  if negb (IsNumericStr arg) then (c, ERR_NOT_NUMBER_STR) else (set_jobId c (u32 (number_arg arg)), RET_SUCCESS)).
Definition FileNumberHandler : OptHandler := arg_handler (fun c arg =>
  if negb (IsNumericStr arg) then (c, ERR_NOT_NUMBER_STR) else (set_fileNum c (u16 (number_arg arg)), RET_SUCCESS)).
Definition FileLengthHandler : OptHandler := fun c arg s =>
  size ← Str2Size arg;
  if size =? 0 then Some (c, s, "", ERR_INVALID_SIZE_STR) else Some (set_fileSize c (u32 size), s, "", RET_SUCCESS).
Definition LevelHandler : OptHandler := arg_handler (fun c arg =>
  let levels := Str2ComboLogLevel arg in
  if levels =? 0 then (c, ERR_LOG_LEVEL_INVALID) else (set_levels c levels, RET_SUCCESS)).
Definition TypeHandler : OptHandler := arg_handler (fun c arg =>
  let types := Str2ComboLogType arg in
  if types =? 0 then (c, ERR_LOG_TYPE_INVALID) else (set_types c types, RET_SUCCESS)).
Definition FileCompressHandler : OptHandler := arg_handler (fun c arg => (set_stream c arg, RET_SUCCESS)).

Definition TimeHandler (c : HilogArgs) (value : FormatTime) : HilogArgs * Z :=
  let f := a_format c in
  if negb (bool_decide (timeFormat f = FT_INVALID)) then (c, ERR_DUPLICATE_OPTION)
  else (set_format c (mkLogFormat (colorful f) value (timeAccuFormat f) (f_year f) (f_zone f) (f_wrap f)), RET_SUCCESS).
Definition TimeAccuHandler (c : HilogArgs) (value : FormatTimeAccu) : HilogArgs * Z :=
  let f := a_format c in
  if negb (bool_decide (timeAccuFormat f = FA_INVALID)) then (c, ERR_DUPLICATE_OPTION)
  else (set_format c (mkLogFormat (colorful f) (timeFormat f) value (f_year f) (f_zone f) (f_wrap f)), RET_SUCCESS).

Definition FormatHandler : OptHandler := arg_handler (fun c arg =>
  let f := a_format c in
  if bool_decide (arg ∈ ["color"; "colour"]) then
    (set_format c (mkLogFormat true (timeFormat f) (timeAccuFormat f) (f_year f) (f_zone f) (f_wrap f)), RET_SUCCESS)
  else if bool_decide (arg = "time") then TimeHandler c FT_TIME
  else if bool_decide (arg = "epoch") then TimeHandler c FT_EPOCH
  else if bool_decide (arg = "monotonic") then TimeHandler c FT_MONOTONIC
  else if bool_decide (arg = "msec") then TimeAccuHandler c FA_MSEC
  else if bool_decide (arg = "usec") then TimeAccuHandler c FA_USEC
  else if bool_decide (arg = "nsec") then TimeAccuHandler c FA_NSEC
  else if bool_decide (arg = "year") then
    (set_format c (mkLogFormat (colorful f) (timeFormat f) (timeAccuFormat f) true (f_zone f) (f_wrap f)), RET_SUCCESS)
  else if bool_decide (arg = "zone") then
    (set_format c (mkLogFormat (colorful f) (timeFormat f) (timeAccuFormat f) (f_year f) true (f_wrap f)), RET_SUCCESS)
  else if bool_decide (arg = "wrap") then
    (set_format c (mkLogFormat (colorful f) (timeFormat f) (timeAccuFormat f) (f_year f) (f_zone f) true), RET_SUCCESS)
  else (c, ERR_INVALID_ARGUMENT)).

(** *** Commands *)

(** One line of text. *)
Definition line (l : list string) : string := foldr (fun a b => a +:+ b) endl l.

(** The text of the failure after that of the request. *)
Definition or_failed (res : string * Z) (failed : string) : string * Z :=
  let '(out, ret) := res in (if negb (ret =? RET_SUCCESS) then out +:+ failed else out, ret).

Definition BufferSizeGetHandler : OptHandler := rqst_handler (fun c arg =>
  let types := ToBufferSizeGetRqst c in
  or_failed (Request p_types p_BufferSizeGetRsp lk BUFFERSIZE_GET_RQST BUFFERSIZE_GET_RSP types (fun size =>
      (foldl (fun out i =>
         if 0 <? aget size i then out +:+ line ["Log type "; LogType2Str i; " buffer size is "; Size2Str (aget size i)] else out)
         "" (seqZ 0 LOG_TYPE_MAX), RET_SUCCESS)))
    (line ["Get "; ComboLogType2Str allTypes types; " buffer size failed"])).

(** A negative size in the answer is an error code. *)
Definition BufferSizeSetHandler : OptHandler := fun c arg s =>
  size ← Str2Size arg;
  if size =? 0 then Some (c, s, "", ERR_INVALID_SIZE_STR)
  else
    let rqst := ToBufferSizeSetRqst c (i32 size) in
    rqst_handler (fun c arg =>
      or_failed (Request p_BufferSizeSetRqst p_BufferSizeSetRsp lk BUFFERSIZE_SET_RQST BUFFERSIZE_SET_RSP rqst (fun sizes =>
        (foldl (fun out i =>
           if 0 <? aget sizes i then
             out +:+ line ["Set log type "; LogType2Str i; " buffer size to "; Size2Str (aget sizes i); " successfully"]
           else if aget sizes i <? 0 then
             out +:+ line ["Set log type "; LogType2Str i; " buffer size to "; Size2Str (u64 (bs_size rqst)); " failed"] +:+
             PrintErr (aget sizes i)
           else out) "" (seqZ 0 LOG_TYPE_MAX), RET_SUCCESS)))
      (line ["Set buffer size failed"])) c arg s.

Definition HelpHandler : OptHandler := fun c arg s => Some (c, s, Helper "", RET_SUCCESS).

(** [on] or [off]. *)
Definition feature (arg : string) : option bool :=
  if bool_decide (arg = FEATURE_ON) then Some true else if bool_decide (arg = FEATURE_OFF) then Some false else None.

Definition KmsgFeatureSetHandler : OptHandler := rqst_handler (fun c arg =>
  match feature arg with
  | None => ("", ERR_INVALID_ARGUMENT)
  | Some kmsgOn =>
      let '(out, ret) := Request p_on p_placeholder lk KMSG_ENABLE_RQST KMSG_ENABLE_RSP kmsgOn (fun _ => ("", RET_SUCCESS)) in
      (out +:+ PrintResult ret ("Set hilogd storing kmsg log " +:+ arg), ret)
  end).

Definition PrivateFeatureSetHandler : OptHandler := fun c arg s =>
  match feature arg with
  | None => Some (c, s, "", ERR_INVALID_ARGUMENT)
  | Some privateOn =>
      let '(s, ret) := SetPrivateSwitchOn s privateOn in
      Some (c, s, PrintResult ret ("Set hilog privacy format " +:+ arg), RET_SUCCESS)
  end.

Definition SetDomainFlowCtrl (on : bool) : string * Z :=
  Request p_on p_placeholder lk DOMAIN_FLOWCTRL_RQST DOMAIN_FLOWCTRL_RSP on (fun _ => ("", RET_SUCCESS)).

Definition flow_result (by_what state : string) (ret : Z) : string :=
  line ["Set flow control by "; by_what; " to "; state; ", result: "; ErrorCode2Str ret].

Definition FlowControlFeatureSetHandler : OptHandler := fun c arg s =>
  if bool_decide (arg = "pid" +:+ FEATURE_ON) then
    let '(s, ret) := SetProcessSwitchOn s true in Some (c, s, flow_result "process" "enabled" ret, ret)
  else if bool_decide (arg = "pid" +:+ FEATURE_OFF) then
    let '(s, ret) := SetProcessSwitchOn s false in Some (c, s, flow_result "process" "disabled" ret, ret)
  else if bool_decide (arg = "domain" +:+ FEATURE_ON) then
    let '(out, ret) := SetDomainFlowCtrl true in Some (c, s, out +:+ flow_result "domain" "enabled" ret, ret)
  else if bool_decide (arg = "domain" +:+ FEATURE_OFF) then
    let '(out, ret) := SetDomainFlowCtrl false in Some (c, s, out +:+ flow_result "domain" "disabled" ret, ret)
  else Some (c, s, "", ERR_INVALID_ARGUMENT).

Definition RemoveHandler : OptHandler := rqst_handler (fun c arg =>
  or_failed (Request p_types p_types lk LOG_REMOVE_RQST LOG_REMOVE_RSP (ToLogRemoveRqst c) (fun types =>
      (line ["Log type "; ComboLogType2Str allTypes types; " buffer clear successfully"], RET_SUCCESS)))
    (line ["Log buffer clear failed"])).

Definition StatsInfoQueryHandler : OptHandler := rqst_handler (fun c arg =>
  or_failed (RequestStatsQuery ptr_size lk (ToStatsQueryRqst c) (fun rsp => (HilogShowLogStatsInfo rsp, RET_SUCCESS)))
    (line ["Statistic info query failed"])).

Definition StatsInfoClearHandler : OptHandler := rqst_handler (fun c arg =>
  or_failed (Request p_placeholder p_placeholder lk STATS_CLEAR_RQST STATS_CLEAR_RSP placeholder (fun _ =>
      (line ["Statistic info clear successfully"], RET_SUCCESS)))
    (line ["Statistic info clear failed"])).

(** The lines of the answer to a stop or a refresh, one for each job. *)
Definition job_lines (text : Z -> string) (rsp : PersistStopRsp) : string :=
  foldl (fun out i => out +:+ text (aget (sp_jobId rsp) i)) "" (seqZ 0 (sp_jobNum rsp)).

Definition PersistTaskStart (c : HilogArgs) : string * Z :=
  or_failed (Request p_PersistStartRqst p_jobId lk PERSIST_START_RQST PERSIST_START_RSP (ToPersistStartRqst c) (fun jobId =>
      (line ["Persist task [jobid:"; to_string jobId; "] start successfully"], RET_SUCCESS)))
    (line ["Persist task start failed"]).
Definition PersistTaskStop (c : HilogArgs) : string * Z :=
  or_failed (Request p_jobId p_PersistStopRsp lk PERSIST_STOP_RQST PERSIST_STOP_RSP (ToPersistStopRqst c) (fun rsp =>
      (job_lines (fun id => line ["Persist task [jobid:"; to_string id; "] stop successfully"]) rsp, RET_SUCCESS)))
    (line ["Persist task stop failed"]).

Definition PrintTaskInfo (task : PersistStartRqst) : string :=
  line [to_string (ps_jobId task); " "; ComboLogType2Str allTypes (or_types (ps_outputFilter task)); " "; cstr (ps_stream task); " ";
        cstr (ps_fileName task); " "; Size2Str (ps_fileSize task); " "; to_string (ps_fileNum task)].
Definition PersistTaskQuery : string * Z :=
  or_failed (Request p_placeholder p_PersistQueryRsp lk PERSIST_QUERY_RQST PERSIST_QUERY_RSP placeholder (fun rsp =>
      (foldl (fun out t => out +:+ PrintTaskInfo t) "" (take (Z.to_nat (pq_jobNum rsp)) (pq_taskInfo rsp)), RET_SUCCESS)))
    (line ["Persist task query failed"]).
Definition PersistTaskRefresh : string * Z :=
  or_failed (Request p_jobId p_PersistStopRsp lk PERSIST_REFRESH_RQST PERSIST_REFRESH_RSP 0 (fun rsp =>
      (job_lines (fun id => PrintResult RET_SUCCESS ("Persist task [jobid:" +:+ to_string id +:+ "] refresh")) rsp, RET_SUCCESS)))
    (PrintResult RET_FAIL "Persist task refresh").
Definition ClearPersistLog : string * Z :=
  or_failed (Request p_placeholder p_placeholder lk PERSIST_CLEAR_RQST PERSIST_CLEAR_RSP placeholder (fun _ =>
      (PrintResult RET_SUCCESS "Persist log /data/log/hilog clear", RET_SUCCESS)))
    (PrintResult RET_FAIL "Persist log /data/log/hilog clear").

Definition PersistTaskHandler : OptHandler := rqst_handler (fun c arg =>
  if bool_decide (arg = "start") then PersistTaskStart c
  else if bool_decide (arg = "stop") then PersistTaskStop c
  else if bool_decide (arg = "query") then PersistTaskQuery
  else if bool_decide (arg = "refresh") then PersistTaskRefresh
  else if bool_decide (arg = "clear") then ClearPersistLog
  else ("", ERR_INVALID_ARGUMENT)).

(** ** The option table *)

Inductive ControlCmd :=
  | NOT_CMD | CMD_HELP | CMD_QUERY | CMD_REMOVE | CMD_BUFFER_SIZE_QUERY | CMD_BUFFER_SIZE_SET | CMD_STATS_INFO_QUERY
  | CMD_STATS_INFO_CLEAR | CMD_PERSIST_TASK | CMD_PRIVATE_FEATURE_SET | CMD_KMSG_FEATURE_SET | CMD_FLOWCONTROL_FEATURE_SET
  | CMD_LOGLEVEL_SET.

(** The last entry has no handler. *)
Record OptEntry := mkOpt {
  oe_opt : ascii; oe_longOpt : option string; oe_cmd : ControlCmd; oe_handler : option OptHandler; oe_needArg : bool; oe_count : Z;
}.

Arguments mkOpt oe_opt%_char_scope.
Definition optEntries : list OptEntry := [
  mkOpt "a" (Some "head") CMD_QUERY (Some HeadHandler) true 1;
  mkOpt "b" (Some "baselevel") CMD_LOGLEVEL_SET (Some BaseLogLevelHandler) true 1;
  mkOpt "D" (Some "domain") NOT_CMD (Some DomainHandler) true 1;
  mkOpt "e" (Some "regex") NOT_CMD (Some RegexHandler) true 1;
  mkOpt NUL (Some "persist") NOT_CMD (Some PersistHandler) false 1;
  mkOpt "f" (Some "filename") NOT_CMD (Some FileNameHandler) true 1;
  mkOpt "g" None CMD_BUFFER_SIZE_QUERY (Some BufferSizeGetHandler) false 1;
  mkOpt "G" (Some "buffer-size") CMD_BUFFER_SIZE_SET (Some BufferSizeSetHandler) true 1;
  mkOpt "h" (Some "help") CMD_HELP (Some HelpHandler) false 1;
  mkOpt "j" (Some "jobid") NOT_CMD (Some JobIdHandler) true 1;
  mkOpt "k" (Some "kmsg") CMD_KMSG_FEATURE_SET (Some KmsgFeatureSetHandler) true 1;
  mkOpt "l" (Some "length") NOT_CMD (Some FileLengthHandler) true 1;
  mkOpt "L" (Some "level") NOT_CMD (Some LevelHandler) true 1;
  mkOpt "m" (Some "stream") NOT_CMD (Some FileCompressHandler) true 1;
  mkOpt "n" (Some "number") NOT_CMD (Some FileNumberHandler) true 1;
  mkOpt "p" (Some "private") CMD_PRIVATE_FEATURE_SET (Some PrivateFeatureSetHandler) true 1;
  mkOpt "P" (Some "pid") NOT_CMD (Some PidHandler) true 1;
  mkOpt "Q" (Some "flowctrl") CMD_FLOWCONTROL_FEATURE_SET (Some FlowControlFeatureSetHandler) true 1;
  mkOpt "r" None CMD_REMOVE (Some RemoveHandler) false 1;
  mkOpt "s" (Some "statistics") CMD_STATS_INFO_QUERY (Some StatsInfoQueryHandler) false 1;
  mkOpt "S" None CMD_STATS_INFO_CLEAR (Some StatsInfoClearHandler) false 1;
  mkOpt "t" (Some "type") NOT_CMD (Some TypeHandler) true 1;
  mkOpt "T" (Some "tag") NOT_CMD (Some TagHandler) true 1;
  mkOpt "v" (Some "format") NOT_CMD (Some FormatHandler) true 5;
  mkOpt "w" (Some "write") CMD_PERSIST_TASK (Some PersistTaskHandler) true 1;
  mkOpt "x" (Some "exit") CMD_QUERY (Some NoBlockHandler) false 1;
  mkOpt "z" (Some "tail") CMD_QUERY (Some TailHandler) true 1;
  mkOpt NUL None NOT_CMD None false 1
].

(** The option string and the long options (name, has an argument, value). *)
Definition GetOpts (entries : list OptEntry) : string * list (string * bool * ascii) :=
  (foldl (fun opts e => if bool_decide (oe_opt e = NUL) then opts
                        else opts +:+ String (oe_opt e) (if oe_needArg e then ":" else "")) "" entries,
   omap (fun e => l ← oe_longOpt e; Some (l, oe_needArg e, oe_opt e)) entries).

(** The index of the first entry of the option, of the last one when there is
    none. *)
Fixpoint opt_index (c : ascii) (entries : list OptEntry) (i : nat) : option nat :=
  match entries with
  | [] => None
  | e :: entries => if bool_decide (oe_opt e = c) then Some i else opt_index c entries (S i)
  end.
Definition GetOptEntry (entries : list OptEntry) (choice : Z) : nat :=
  default (length entries - 1)%nat (opt_index (byte_chr choice) entries 0).

(** One result of [getopt_long]: its value, [optarg], and the argument
    [optind] is at. *)
Record getopt := mkGetopt { go_choice : Z; go_optarg : option string; go_next : option string }.

Definition starts_with_dash (s : string) : bool :=
  match s with String c _ => bool_decide (c = "-"%char) | EmptyString => false end.

Definition use_entry (entries : list OptEntry) (i : nat) : list OptEntry :=
  alter (fun e => mkOpt (oe_opt e) (oe_longOpt e) (oe_cmd e) (oe_handler e) (oe_needArg e) (oe_count e - 1)) i entries.

(** The state of the scan: the arguments, the command with the number of
    commands, and its argument. *)
Record scan_state := mkScan {
  sc_entries : list OptEntry; sc_args : HilogArgs; sc_cmd : OptHandler; sc_cmdCount : Z; sc_cmdArgs : string;
}.

(** The loop over the options: the state at its end or the value returned
    with what is printed.  [None]: a call of an empty function. *)
Fixpoint scan_opts (l : list getopt) (st : scan_state) (s : sys) : option (scan_state * sys + sys * string * Z) :=
  match l with
  | [] => Some (inl (st, s))
  | o :: l =>
      if go_choice o =? byte_val "?" then Some (inr (s, "", RET_FAIL))
      else
        let i := GetOptEntry (sc_entries st) (go_choice o) in
        entry ← sc_entries st !! i;
        if match go_next o with Some a => negb (starts_with_dash a) | None => false end
        then Some (inr (s, PrintErr ERR_TOO_MANY_ARGUMENTS, ERR_TOO_MANY_ARGUMENTS))
        else if oe_count entry =? 0 then Some (inr (s, PrintErr ERR_DUPLICATE_OPTION, ERR_DUPLICATE_OPTION))
        else
          let entries := use_entry (sc_entries st) i in
          handler ← oe_handler entry;
          match oe_cmd entry with
          | NOT_CMD =>
              '(c, s, out, ret) ← handler (sc_args st) (default "" (go_optarg o)) s;
              if negb (ret =? RET_SUCCESS) then Some (inr (s, out +:+ PrintErr ret, ret))
              else scan_opts l (mkScan entries c (sc_cmd st) (sc_cmdCount st) (sc_cmdArgs st)) s
          | _ =>
              scan_opts l (mkScan entries (sc_args st) handler (sc_cmdCount st + 1) (default (sc_cmdArgs st) (go_optarg o))) s
          end
  end.

Definition HilogEntry (argv : list string) (opts : list getopt) (s : sys) : option (sys * string * Z) :=
  let help := match argv with
              | [_; arg; topic] => if bool_decide (arg ∈ ["--help"; "-h"]) then Some topic else None
              | _ => None
              end in
  match help with
  | Some topic => Some (s, Helper topic, RET_SUCCESS)
  | None =>
      res ← scan_opts opts (mkScan optEntries new_args QueryLogHandler 0 "") s;
      match res with
      | inr r => Some r
      | inl (st, s) =>
          if 1 <? sc_cmdCount st then Some (s, ErrorCode2Str ERR_COMMAND_INVALID +:+ endl, ERR_COMMAND_INVALID)
          else
            '(_, s, out, ret) ← sc_cmd st (sc_args st) (sc_cmdArgs st) s;
            if negb (ret =? RET_SUCCESS) then Some (s, out +:+ PrintErr ret, ret) else Some (s, out, RET_SUCCESS)
      end
  end.
End tool.
