(* ===== verification/ToolProps.v ===== *)
(** * Properties of the command line tool

    What the options mean to the daemon, and a query from the command line to
    the lines that are printed. *)

From S2P Require Import Prelude Common TimeStamp Utils LogData LogStats LogBuffer LogBufferSpec LogBufferProps.
From S2P Require Import FlowControl LogCollector Kmsg LogPrint Compress Rotator Recovery Persister Cmd.
From S2P Require Import Properties Proc StatsWire Controller ControllerProps Ioctl Tool.
From Stdlib Require Import Ascii.

(** ** The arguments *)

Definition in_u16 (z : Z) : Prop := 0 <= z < 2 ^ 16.
Definition in_u32 (z : Z) : Prop := 0 <= z < 2 ^ 32.

(** Everything fits in the fields of the requests. *)
Record args_ok (c : HilogArgs) : Prop := {
  ok_head : in_u16 (a_headLines c);
  ok_tail : in_u16 (a_tailLines c);
  ok_types : in_u16 (a_types c);
  ok_levels : in_u16 (a_levels c);
  ok_job : in_u32 (a_jobId c) /\ in_u32 (a_fileSize c) /\ in_u16 (a_fileNum c);
  ok_domains : Z.of_nat (length (s_items (a_domains c))) <= MAX_DOMAINS /\ Forall in_u32 (s_items (a_domains c));
  ok_tags : Z.of_nat (length (s_items (a_tags c))) <= MAX_TAGS /\ Forall (fun t => slen t < MAX_TAG_LEN) (s_items (a_tags c));
  ok_pids : Z.of_nat (length (s_items (a_pids c))) <= MAX_PIDS /\ Forall in_u32 (s_items (a_pids c));
  ok_regex : slen (a_regex c) < MAX_REGEX_STR_LEN;
  ok_file : slen (a_fileName c) < MAX_FILE_NAME_LEN;
}.

Lemma new_args_ok : args_ok new_args.
Proof. split; unfold in_u16, in_u32; split_and?; (done || apply Forall_nil_2). Qed.

Lemma items_loop_ok {A} max e (parse : string -> A + Z) (P : A -> Prop) index l items :
  (forall x a, parse x = inl a -> P a) -> index <= max -> items_loop max e parse index l = inl items ->
  index + Z.of_nat (length items) <= max /\ Forall P items.
Proof.
  intros HP. revert index items. induction l as [|x l IH]; intros index items Hi H; cbn [items_loop] in H.
  { injection H as <-. cbn. split; [lia | constructor]. }
  destruct (Z.leb_spec max index); [done|]. destruct (parse x) as [a|] eqn:E; [|done].
  destruct (items_loop max e parse (index + 1) l) as [items'|] eqn:El; [|done]. injection H as <-.
  destruct (IH (index + 1) items' ltac:(lia) El) as [H1 H2]. cbn [length]. split; [lia|]. constructor; [by eapply HP | done].
Qed.

Lemma lor_range w a b : 0 <= w -> 0 <= a < 2 ^ w -> 0 <= b < 2 ^ w -> 0 <= Z.lor a b < 2 ^ w.
Proof.
  intros Hw Ha Hb. assert (Z.lor a b = Z.lor a b mod 2 ^ w) as ->; [|apply Z.mod_pos_bound; lia].
  rewrite <- Z.land_ones, Z.land_lor_distr_l, !Z.land_ones by done. by rewrite !Z.mod_small.
Qed.

Lemma str2combo_range parse l acc : in_u16 acc -> in_u16 (str2combo parse l acc).
Proof.
  revert acc. induction l as [|x l IH]; intros acc Ha; [done|]. cbn [str2combo]. case_decide; [by apply IH|].
  destruct (parse x); [|by unfold in_u16]. apply IH. apply lor_range; [done|done|]. apply wrapu_range. lia.
Qed.

(** ** Options *)

Section options.
Context {PS : ParamService}.
Context (localtime_r : Z -> option tm) (ptr_size : nat) (IsNumericStr : string -> bool) (StrToInt : string -> option Z).
Context (allTypes : list Z) (Helper : string -> string) (HilogShowLogStatsInfo : StatsTree -> string) (lk : link).

Definition keeps_args (h : OptHandler) : Prop :=
  forall c arg s c' s' out, args_ok c -> h c arg s = Some (c', s', out, RET_SUCCESS) -> args_ok c'.

Lemma arg_handler_keeps h :
  (forall c arg c', args_ok c -> h c arg = (c', RET_SUCCESS) -> args_ok c') -> keeps_args (arg_handler h).
Proof.
  intros Hh c arg s c' s' out Hc H. unfold arg_handler in H. destruct (h c arg) as [c1 ret] eqn:E.
  injection H as -> _ _ ->. by eapply Hh.
Qed.

Ltac same_args :=
  match goal with H : args_ok ?c |- args_ok _ => destruct H; split; cbn; try assumption end.

Lemma TimeHandler_keeps c v c' : args_ok c -> TimeHandler c v = (c', RET_SUCCESS) -> args_ok c'.
Proof. unfold TimeHandler. intros Hc. destruct (negb _); [done|]. intros [= <-]. same_args. Qed.
Lemma TimeAccuHandler_keeps c v c' : args_ok c -> TimeAccuHandler c v = (c', RET_SUCCESS) -> args_ok c'.
Proof. unfold TimeAccuHandler. intros Hc. destruct (negb _); [done|]. intros [= <-]. same_args. Qed.

Lemma FormatHandler_keeps : keeps_args FormatHandler.
Proof.
  apply arg_handler_keeps. intros c arg c' Hc H. cbv beta zeta in H.
  repeat match type of H with
    | (if bool_decide ?p then _ else _) = _ => destruct (bool_decide p) end;
    first [exact (TimeHandler_keeps _ _ _ Hc H) | exact (TimeAccuHandler_keeps _ _ _ Hc H) | injection H as <-; same_args | done].
Qed.

(** Only an accepted list is stored. *)
Lemma select_success {A} (set : HilogArgs -> selection A -> HilogArgs) c black max e parse index l c' :
  0 <> e -> (forall x k, parse x = inr k -> 0 <> k) ->
  select set c black (items_loop max e parse index l) = (c', RET_SUCCESS) ->
  exists items, items_loop max e parse index l = inl items /\ c' = set c (mkSelection black items).
Proof.
  intros He Hk. unfold select. destruct (items_loop max e parse index l) as [items|k] eqn:E; [intros [= <-]; by eexists|].
  intros [= _ ->]. exfalso. revert index E. induction l as [|x l IH]; intros i; cbn [items_loop]; [done|].
  destruct (max <=? i); [intros [= ->]; by apply He|]. destruct (parse x) as [a|k] eqn:Ep; [|intros [= ->]; by apply (Hk x RET_SUCCESS)].
  destruct (items_loop max e parse (i + 1) l) as [|k] eqn:El; [done|]. intros [= ->]. by eapply IH.
Qed.
(** An option whose argument is a list. *)
Lemma select_keeps {A} (set : HilogArgs -> selection A -> HilogArgs) (P : A -> Prop) c black max e parse l c' :
  (forall x a, parse x = inl a -> P a) -> 0 <= max -> 0 <> e -> (forall x k, parse x = inr k -> 0 <> k) ->
  (forall items, Z.of_nat (length items) <= max /\ Forall P items -> args_ok (set c (mkSelection black items))) ->
  select set c black (items_loop max e parse 0 l) = (c', RET_SUCCESS) -> args_ok c'.
Proof.
  intros HP Hmax He Hk Hset (items & E & ->)%select_success; [|done..]. apply Hset. exact (items_loop_ok max e parse P 0 l items HP Hmax E).
Qed.

Lemma parse_domain_ok x a : parse_domain x = inl a -> in_u32 a.
Proof.
  unfold parse_domain, in_u32. destruct (HexStr2Uint x) as [v []]; [|done]. cbn [negb].
  unfold DOMAIN_APP_MIN, DOMAIN_APP_MAX, DOMAIN_OS_MIN, DOMAIN_OS_MAX. destruct (_ || _) eqn:E; [|done]. intros [= <-]. lia.
Qed.
Lemma parse_domain_err x k : parse_domain x = inr k -> 0 <> k.
Proof. unfold parse_domain. destruct (HexStr2Uint x) as [v []]; cbn [negb]; [|by intros [= <-]]. destruct (_ || _); by intros [= <-]. Qed.

Lemma DomainHandler_keeps : keeps_args DomainHandler.
Proof.
  apply arg_handler_keeps. intros c arg c' Hc. cbv beta zeta. destruct (black_arg arg) as [black rest].
  destruct (bool_decide (Split rest DEFAULT_SPLIT_DELIMIT = [])); [done|].
  apply (select_keeps _ in_u32); [apply parse_domain_ok | done | done | apply parse_domain_err|]. intros items Hi. same_args.
Qed.
Lemma PidHandler_keeps : keeps_args (PidHandler IsNumericStr StrToInt).
Proof.
  apply arg_handler_keeps. intros c arg c' Hc. cbv beta zeta. destruct (black_arg arg) as [black rest].
  destruct (bool_decide (Split rest DEFAULT_SPLIT_DELIMIT = [])); [done|].
  apply (select_keeps _ in_u32); [| done | done | |intros items Hi; same_args]; intros x a; unfold parse_pid; destruct (negb _);
    intros [= <-]; try done. apply wrapu_range. lia.
Qed.
Lemma TagHandler_keeps : keeps_args TagHandler.
Proof.
  apply arg_handler_keeps. intros c arg c' Hc. cbv beta zeta. destruct (black_arg arg) as [black rest].
  apply (select_keeps _ (fun t => slen t < MAX_TAG_LEN)); [| done | done | |intros items Hi; same_args]; intros x a; unfold parse_tag;
    destruct (Z.leb_spec MAX_TAG_LEN (slen x)); intros [= <-]; done.
Qed.

Lemma number_keeps wrap (set : HilogArgs -> Z -> HilogArgs) :
  (forall c v, args_ok c -> args_ok (set c (wrap v))) ->
  keeps_args (arg_handler (fun c arg => if negb (IsNumericStr arg) then (c, ERR_NOT_NUMBER_STR)
                                        else (set c (wrap (number_arg StrToInt arg)), RET_SUCCESS))).
Proof.
  intros Hset. apply arg_handler_keeps. intros c arg c' Hc. cbv beta zeta. destruct (negb _); [done|]. intros [= <-]. by apply Hset.
Qed.

(** The handlers of the options that are not commands. *)
Lemma optEntries_keep :
  Forall (fun e => oe_cmd e = NOT_CMD -> forall h, oe_handler e = Some h -> keeps_args h)
    (optEntries localtime_r ptr_size IsNumericStr StrToInt allTypes Helper HilogShowLogStatsInfo lk).
Proof.
  unfold optEntries. repeat (apply Forall_cons; split); [..|by apply Forall_nil_2]; cbn [oe_cmd oe_handler]; try done; intros _ h [= <-].
  - apply DomainHandler_keeps.
  - apply arg_handler_keeps. intros c arg c' Hc. cbv beta zeta. destruct (Z.leb_spec MAX_REGEX_STR_LEN (slen arg)); [done|]. intros [= <-]. same_args.
  - apply arg_handler_keeps. intros c arg c' Hc [= <-]. same_args.
  - apply arg_handler_keeps. intros c arg c' Hc. cbv beta zeta. destruct (Z.leb_spec MAX_FILE_NAME_LEN (slen arg)); [done|]. intros [= <-]. same_args.
  - apply (number_keeps (fun z => u32 z) set_jobId). intros c v Hc. same_args. destruct ok_job0. split; [apply wrapu_range; lia | done].
  - intros c arg s c' s' out Hc. unfold FileLengthHandler. destruct (Str2Size arg) as [z|]; [|done]. cbn [mbind option_bind].
    destruct (z =? 0); [done|]. intros [= <- _ _]. same_args. destruct ok_job0 as (? & _ & ?).
    split; [done|]. split; [apply wrapu_range; lia | done].
  - apply arg_handler_keeps. intros c arg c' Hc. cbv beta zeta. destruct (_ =? 0); [done|]. intros [= <-]. same_args.
    unfold Str2ComboLogLevel. case_decide; [done|]. by apply str2combo_range.
  - apply arg_handler_keeps. intros c arg c' Hc [= <-]. same_args.
  - apply (number_keeps (fun z => u16 z) set_fileNum). intros c v Hc. same_args. destruct ok_job0 as (? & ? & _).
    split; [done|]. split; [done | apply wrapu_range; lia].
  - apply PidHandler_keeps.
  - apply arg_handler_keeps. intros c arg c' Hc. cbv beta zeta. destruct (_ =? 0); [done|]. intros [= <-]. same_args.
    unfold Str2ComboLogType. case_decide; [done|]. by apply str2combo_range.
  - apply TagHandler_keeps.
  - apply FormatHandler_keeps.
Qed.

Definition entries_keep (l : list OptEntry) : Prop :=
  Forall (fun e => oe_cmd e = NOT_CMD -> forall h, oe_handler e = Some h -> keeps_args h) l.

Lemma use_entry_keep l i : entries_keep l -> entries_keep (use_entry l i).
Proof. intros H. unfold use_entry. by apply Forall_alter. Qed.

Lemma scan_opts_ok l st s st' s' :
  entries_keep (sc_entries st) -> args_ok (sc_args st) -> scan_opts l st s = Some (inl (st', s')) -> args_ok (sc_args st').
Proof.
  revert st s. induction l as [|o l IH]; intros st s He Ha H; cbn [scan_opts] in H; [by injection H as <- _|].
  destruct (_ =? _); [done|]. set (i := GetOptEntry (sc_entries st) (go_choice o)) in H.
  destruct (sc_entries st !! i) as [e|] eqn:Ei; [|done]. cbn [mbind option_bind] in H.
  destruct (match go_next o with Some a => _ | None => _ end); [done|]. destruct (oe_count e =? 0); [done|].
  destruct (oe_handler e) as [h|] eqn:Eh; [|done]. cbn [mbind option_bind] in H.
  pose proof (proj1 (Forall_lookup _ _) He i e Ei) as Hk. pose proof (use_entry_keep _ i He) as He'.
  destruct (oe_cmd e) eqn:Ec; try (eapply IH; [..|exact H]; done).
  destruct (h (sc_args st) _ s) as [[[[c s1] out] ret]|] eqn:E; [|done]. cbn [mbind option_bind] in H.
  destruct (Z.eqb_spec ret RET_SUCCESS) as [->|]; [|done]. cbn [negb] in H. eapply IH; [..|exact H]; [done|].
  by eapply (Hk Ec h Eh).
Qed.

(** *** What was typed *)

(** The argument of the last option [ch]. *)
Definition typed_after (ch : ascii) : option string -> list getopt -> option string :=
  foldl (fun acc o => if bool_decide (byte_chr (go_choice o) = ch) then Some (default "" (go_optarg o)) else acc).
Definition typed (ch : ascii) (opts : list getopt) : option string := typed_after ch None opts.

Lemma opt_index_lookup c l i j : opt_index c l i = Some j -> exists e, l !! (j - i)%nat = Some e /\ oe_opt e = c /\ (i <= j)%nat.
Proof.
  revert i. induction l as [|e l IH]; intros i; [done|]. cbn [opt_index]. case_bool_decide as Hc.
  - intros [= <-]. exists e. by rewrite Nat.sub_diag.
  - intros (e' & He' & Hc' & Hle)%IH. exists e'. replace (j - i)%nat with (S (j - S i)) by lia. split_and!; [done..|lia].
Qed.

Section field.
(** One of the arguments, and what it is for the text typed after [ch]. *)
Context {V : Type} (val : HilogArgs -> V) (ch : ascii) (means : option string -> V -> Prop).

(** The handler of the option sets the argument, all others keep it. *)
Definition serves (e : OptEntry) : Prop :=
  match oe_cmd e with
  | NOT_CMD => forall h c arg s c' s' out, oe_handler e = Some h -> h c arg s = Some (c', s', out, RET_SUCCESS) ->
      if bool_decide (oe_opt e = ch) then means (Some arg) (val c') else val c' = val c
  | _ => oe_opt e <> ch
  end.

Definition table_ok (l : list OptEntry) : Prop :=
  Forall serves l /\ forall e, l !! (length l - 1)%nat = Some e -> oe_handler e = None.

Lemma use_entry_table l i : table_ok l -> table_ok (use_entry l i).
Proof.
  intros [Hs Hl]. unfold use_entry. split; [apply Forall_alter; [done|]; intros e _ He; exact He|]. intros e. rewrite length_alter, list_lookup_alter.
  case_decide as Hi; [|apply Hl]. rewrite Hi. destruct (l !! _) as [e0|] eqn:E; [|done]. intros [= <-]. exact (Hl e0 eq_refl).
Qed.

Lemma scan_opts_field l st s st' s' acc :
  table_ok (sc_entries st) -> means acc (val (sc_args st)) -> scan_opts l st s = Some (inl (st', s')) ->
  means (typed_after ch acc l) (val (sc_args st')).
Proof.
  revert st s acc. induction l as [|o l IH]; intros st s acc Ht Hm H; cbn [scan_opts] in H; [by injection H as <- _|].
  destruct (_ =? _); [done|]. set (i := GetOptEntry (sc_entries st) (go_choice o)) in H.
  destruct (sc_entries st !! i) as [e|] eqn:Ei; [|done]. cbn [mbind option_bind] in H.
  destruct (match go_next o with Some a => _ | None => _ end); [done|]. destruct (oe_count e =? 0); [done|].
  destruct (oe_handler e) as [h|] eqn:Eh; [|done]. cbn [mbind option_bind] in H.
  pose proof (use_entry_table _ i Ht) as Ht'. destruct Ht as [Hs Hl].
  assert (oe_opt e = byte_chr (go_choice o)) as Ho.
  { unfold i, GetOptEntry in Ei. destruct (opt_index _ _ 0) as [j|] eqn:Ej; cbn [default from_option id] in Ei.
    - apply opt_index_lookup in Ej as (e' & He' & Hc & _). rewrite Nat.sub_0_r in He'. congruence.
    - rewrite (Hl e Ei) in Eh. done. }
  pose proof (proj1 (Forall_lookup _ _) Hs i e Ei) as He. unfold serves in He. unfold typed_after in *. cbn [foldl]. rewrite <- Ho.
  destruct (oe_cmd e) eqn:Ec; try (rewrite bool_decide_false by done; eapply IH; [| |exact H]; [exact Ht' | exact Hm]).
  destruct (h (sc_args st) _ s) as [[[[c s1] out] ret]|] eqn:E; [|done]. cbn [mbind option_bind] in H.
  destruct (Z.eqb_spec ret RET_SUCCESS) as [->|]; [|done]. cbn [negb] in H. specialize (He h _ _ _ _ _ _ Eh E).
  eapply IH; [| |exact H]; [exact Ht'|]. cbn [sc_args]. destruct (bool_decide (oe_opt e = ch)); [exact He | by rewrite He].
Qed.
End field.

(** *** The fields *)

(** A handler that only writes one argument. *)
Definition writes {A} (set : HilogArgs -> A -> HilogArgs) (h : OptHandler) : Prop :=
  forall c arg s c' s' out, h c arg s = Some (c', s', out, RET_SUCCESS) -> exists v, c' = set c v.

Lemma arg_handler_writes {A} (set : HilogArgs -> A -> HilogArgs) h :
  (forall c arg c', h c arg = (c', RET_SUCCESS) -> exists v, c' = set c v) -> writes set (arg_handler h).
Proof. intros Hh c arg s c' s' out H. unfold arg_handler in H. destruct (h c arg) as [c1 ret] eqn:E. injection H as -> _ _ ->. by eapply Hh. Qed.

Lemma number_writes wrap (set : HilogArgs -> Z -> HilogArgs) :
  writes set (arg_handler (fun c arg => if negb (IsNumericStr arg) then (c, ERR_NOT_NUMBER_STR)
                                        else (set c (wrap (number_arg StrToInt arg)), RET_SUCCESS))).
Proof. apply arg_handler_writes. intros c arg c'. destruct (negb _); [done|]. intros [= <-]. by eexists. Qed.

Lemma FormatHandler_writes : writes set_format FormatHandler.
Proof.
  apply arg_handler_writes. intros c arg c' H. cbv beta zeta in H. unfold TimeHandler, TimeAccuHandler in H.
  repeat match type of H with
    | (if ?p then _ else _) = _ => destruct p end; try done; injection H as <-; by eexists.
Qed.

Lemma FileLengthHandler_writes : writes set_fileSize FileLengthHandler.
Proof.
  intros c arg s c' s' out. unfold FileLengthHandler. destruct (Str2Size arg) as [z|]; [|done]. cbn [mbind option_bind].
  destruct (z =? 0); [done|]. intros [= <- _ _]. by eexists.
Qed.

(** A list typed with a mark: a caret in front makes it a black list. *)
Definition listing {A} (item : string -> A -> Prop) (arg : option string) (sel : selection A) : Prop :=
  match arg with
  | None => sel = mkSelection false []
  | Some arg => exists rest, arg = (if s_black sel then String BLACK_PREFIX rest else rest) /\
      (s_black sel = false -> String.get 0 rest <> Some BLACK_PREFIX) /\ Forall2 item (Split rest ",") (s_items sel)
  end.

Lemma black_arg_marked arg black rest :
  black_arg arg = (black, rest) ->
  arg = (if black then String BLACK_PREFIX rest else rest) /\ (black = false -> String.get 0 rest <> Some BLACK_PREFIX).
Proof.
  destruct arg as [|c arg]; cbn; [by intros [= <- <-]|]. case_bool_decide as Hc; intros [= <- <-]; [by subst|].
  split; [done|]. intros _ [= ->]. done.
Qed.

Lemma items_loop_all {A} max e (parse : string -> A + Z) (item : string -> A -> Prop) index l items :
  (forall x a, parse x = inl a -> item x a) -> items_loop max e parse index l = inl items -> Forall2 item l items.
Proof.
  intros Hp. revert index items. induction l as [|x l IH]; intros index items H; cbn [items_loop] in H; [injection H as <-; constructor|].
  destruct (max <=? index); [done|]. destruct (parse x) as [a|] eqn:E; [|done].
  destruct (items_loop max e parse (index + 1) l) as [items'|] eqn:El; [|done]. injection H as <-. constructor; [by apply Hp | by eapply IH].
Qed.

(** The numbers of a list of domains, its tags, the numbers of a list of
    processes. *)
Definition domain_text (x : string) (d : Z) : Prop := HexStr2Uint x = (d, true).
Definition pid_text (x : string) (p : Z) : Prop := IsNumericStr x = true /\ p = u32 (number_arg StrToInt x).

Lemma parse_domain_text x d : parse_domain x = inl d -> domain_text x d.
Proof. unfold parse_domain, domain_text. destruct (HexStr2Uint x) as [v []]; cbn [negb]; [|done]. destruct (_ || _); [|done]. by intros [= <-]. Qed.
Lemma parse_tag_text x t : parse_tag x = inl t -> t = x.
Proof. unfold parse_tag. destruct (_ <=? _); [done|]. by intros [= <-]. Qed.
Lemma parse_tag_err x k : parse_tag x = inr k -> 0 <> k.
Proof. unfold parse_tag. destruct (_ <=? _); by intros [= <-]. Qed.
Lemma parse_pid_text x p : parse_pid IsNumericStr StrToInt x = inl p -> pid_text x p.
Proof. unfold parse_pid, pid_text. destruct (IsNumericStr x); [|done]. by intros [= <-]. Qed.
Lemma parse_pid_err x k : parse_pid IsNumericStr StrToInt x = inr k -> 0 <> k.
Proof. unfold parse_pid. destruct (negb _); by intros [= <-]. Qed.

(** A list that is accepted is stored as it was typed. *)
Lemma listing_stored {A} (set : HilogArgs -> selection A -> HilogArgs) (item : string -> A -> Prop) c arg black rest max e parse c' :
  black_arg arg = (black, rest) -> (forall x a, parse x = inl a -> item x a) -> 0 <> e -> (forall x k, parse x = inr k -> 0 <> k) ->
  select set c black (items_loop max e parse 0 (Split rest ",")) = (c', RET_SUCCESS) ->
  exists sel, c' = set c sel /\ listing item (Some arg) sel.
Proof.
  intros Hb Hi He Hk (items & E & ->)%select_success; [|done..]. exists (mkSelection black items). split; [done|].
  destruct (black_arg_marked _ _ _ Hb) as [-> Hn]. exists rest. split_and!; try done. cbn. by eapply items_loop_all.
Qed.

Lemma DomainHandler_stored c arg s c' s' out :
  DomainHandler c arg s = Some (c', s', out, RET_SUCCESS) -> exists sel, c' = set_domainSel c sel /\ listing domain_text (Some arg) sel.
Proof.
  unfold DomainHandler, arg_handler. destruct (black_arg arg) as [black rest] eqn:Eb. destruct (bool_decide _); [done|].
  destruct (select _ _ _ _) as [c1 ret] eqn:E. intros [= -> _ _ ->]. revert E.
  apply (listing_stored _ _ _ _ _ _ _ _ _ _ Eb); [apply parse_domain_text | done | apply parse_domain_err].
Qed.
Lemma TagHandler_stored c arg s c' s' out :
  TagHandler c arg s = Some (c', s', out, RET_SUCCESS) -> exists sel, c' = set_tags c sel /\ listing (fun x t => t = x) (Some arg) sel.
Proof.
  unfold TagHandler, arg_handler. destruct (black_arg arg) as [black rest] eqn:Eb.
  destruct (select _ _ _ _) as [c1 ret] eqn:E. intros [= -> _ _ ->]. revert E.
  apply (listing_stored _ _ _ _ _ _ _ _ _ _ Eb); [apply parse_tag_text | done | apply parse_tag_err].
Qed.
Lemma PidHandler_stored c arg s c' s' out :
  PidHandler IsNumericStr StrToInt c arg s = Some (c', s', out, RET_SUCCESS) -> exists sel, c' = set_pids c sel /\ listing pid_text (Some arg) sel.
Proof.
  unfold PidHandler, arg_handler. destruct (black_arg arg) as [black rest] eqn:Eb. destruct (bool_decide _); [done|].
  destruct (select _ _ _ _) as [c1 ret] eqn:E. intros [= -> _ _ ->]. revert E.
  apply (listing_stored _ _ _ _ _ _ _ _ _ _ Eb); [apply parse_pid_text | done | apply parse_pid_err].
Qed.

(** A mask that is given is not empty. *)
Definition mask_text (parse : string -> Z) (arg : option string) (v : Z) : Prop :=
  match arg with None => v = 0 | Some arg => v = parse arg /\ v <> 0 end.

Lemma mask_stored (parse : string -> Z) (set : HilogArgs -> Z -> HilogArgs) e c arg s c' s' out :
  0 <> e -> arg_handler (fun c arg => let v := parse arg in if v =? 0 then (c, e) else (set c v, RET_SUCCESS)) c arg s = Some (c', s', out, RET_SUCCESS) ->
  exists v, c' = set c v /\ mask_text parse (Some arg) v.
Proof.
  intros He. unfold arg_handler. cbv zeta. destruct (Z.eqb_spec (parse arg) 0); intros [=]; [by subst|]. subst. by eexists.
Qed.

Lemma RegexHandler_stored c arg s c' s' out :
  RegexHandler c arg s = Some (c', s', out, RET_SUCCESS) -> c' = set_regex c arg.
Proof. unfold RegexHandler, arg_handler. by intros [= <- _ _ _]. Qed.

Abbreviation the_options := (optEntries localtime_r ptr_size IsNumericStr StrToInt allTypes Helper HilogShowLogStatsInfo lk).

(** What a handler of the table has written. *)
Ltac written H :=
  lazymatch type of H with
  | DomainHandler _ _ _ = _ => apply DomainHandler_stored in H as (? & -> & H)
  | TagHandler _ _ _ = _ => apply TagHandler_stored in H as (? & -> & H)
  | PidHandler _ _ _ _ _ = _ => apply PidHandler_stored in H as (? & -> & H)
  | TypeHandler _ _ _ = _ => apply (mask_stored Str2ComboLogType set_types) in H as (? & -> & H); [|done]
  | LevelHandler _ _ _ = _ => apply (mask_stored Str2ComboLogLevel set_levels) in H as (? & -> & H); [|done]
  | RegexHandler _ _ _ = _ => apply RegexHandler_stored in H as ->
  | FormatHandler _ _ _ = _ => apply FormatHandler_writes in H as (? & ->)
  | FileLengthHandler _ _ _ = _ => apply FileLengthHandler_writes in H as (? & ->)
  | JobIdHandler _ _ _ _ _ = _ => apply (number_writes (fun z => u32 z) set_jobId) in H as (? & ->)
  | FileNumberHandler _ _ _ _ _ = _ => apply (number_writes (fun z => u16 z) set_fileNum) in H as (? & ->)
  | _ => injection H as <- _ _ _ || injection H as <- _ _
  end.
Ltac field_table :=
  split; [unfold optEntries; repeat (apply Forall_cons; split); [..|by apply Forall_nil_2]; unfold serves; cbn [oe_cmd oe_opt oe_handler];
          try discriminate; intros h c arg s c' s' out [= <-] H; written H; first [reflexivity | exact H]
         | by intros e [= <-]].

Lemma domains_table : table_ok a_domains "D"%char (listing domain_text) the_options.
Proof. field_table. Qed.
Lemma tags_table : table_ok a_tags "T"%char (listing (fun x t => t = x)) the_options.
Proof. field_table. Qed.
Lemma pids_table : table_ok a_pids "P"%char (listing pid_text) the_options.
Proof. field_table. Qed.
Lemma types_table : table_ok a_types "t"%char (mask_text Str2ComboLogType) the_options.
Proof. field_table. Qed.
Lemma levels_table : table_ok a_levels "L"%char (mask_text Str2ComboLogLevel) the_options.
Proof. field_table. Qed.
Lemma regex_table : table_ok a_regex "e"%char (fun arg v => v = default "" arg) the_options.
Proof. field_table. Qed.

Lemma scanned_field {V} (val : HilogArgs -> V) ch (means : option string -> V -> Prop) opts s st s' :
  table_ok val ch means the_options -> means None (val new_args) ->
  scan_opts opts (mkScan the_options new_args (QueryLogHandler localtime_r lk) 0 "") s = Some (inl (st, s')) ->
  means (typed ch opts) (val (sc_args st)).
Proof. intros Ht Hn H. unfold typed. eapply scan_opts_field; [| |exact H]; done. Qed.
End options.

(** ** Requests *)

Lemma cstr_char_array n s : no_char NUL s -> cstr (char_array n s) = s.
Proof. apply cstr_fill. Qed.

Lemma take_cstr s : str_take (Z.to_nat (slen s)) (cstr s) = cstr s.
Proof. apply str_take_all. pose proof (cstr_le s). pose proof (slen_nonneg s). lia. Qed.

Lemma put_all_length src dst : (length src <= length dst)%nat -> length (put_all src dst) = length dst.
Proof. intros H. unfold put_all. rewrite length_app, length_drop. lia. Qed.

Lemma put_all_range src dst : Forall in_u32 src -> Forall in_u32 dst -> Forall in_u32 (put_all src dst).
Proof. intros H1 H2. apply Forall_app. split; [done | by apply Forall_drop]. Qed.

Definition tag_array (t : string) : string := char_array MAX_TAG_LEN (cstr t).

Lemma put_tags_eq src dst :
  Forall (fun t => slen t < MAX_TAG_LEN) src -> (length src <= length dst)%nat ->
  put_tags src dst = ((tag_array <$> src) ++ drop (length src) dst, true).
Proof.
  intros Hs. revert dst. induction Hs as [|t src Ht Hs IH]; intros dst Hl; cbn [put_tags]; [by destruct dst|].
  destruct dst as [|d dst]; [simpl in Hl; lia|]. pose proof (slen_nonneg t). rewrite strncpy_s_short by lia.
  rewrite take_cstr, IH by (simpl in Hl; lia). done.
Qed.

Lemma tag_array_length t : slen t < MAX_TAG_LEN -> String.length (tag_array t) = Z.to_nat MAX_TAG_LEN.
Proof.
  intros H. pose proof (cstr_le t). pose proof (slen_char_array MAX_TAG_LEN (cstr t) ltac:(lia)) as Hl. unfold slen in Hl.
  unfold tag_array, MAX_TAG_LEN in *. lia.
Qed.

(** The request of arguments that fit. *)
Lemma ToOutputRqst_eq c :
  args_ok c ->
  ToOutputRqst c =
    mkOutputRqst (a_headLines c) (a_types c) (a_levels c)
      (s_black (a_domains c)) (Z.of_nat (length (s_items (a_domains c)))) (put_all (s_items (a_domains c)) (replicate 5 0))
      (s_black (a_tags c)) (Z.of_nat (length (s_items (a_tags c))))
      ((tag_array <$> s_items (a_tags c)) ++ drop (length (s_items (a_tags c))) (or_tags zero_rqst))
      (s_black (a_pids c)) (Z.of_nat (length (s_items (a_pids c)))) (put_all (s_items (a_pids c)) (replicate 5 0))
      (char_array MAX_REGEX_STR_LEN (cstr (a_regex c))) (a_noBlock c) (a_tailLines c).
Proof.
  intros Hc. destruct (ok_domains c Hc) as [Hd _], (ok_tags c Hc) as [Ht Ht'], (ok_pids c Hc) as [Hp _].
  pose proof (ok_regex c Hc). unfold ToOutputRqst. unfold MAX_DOMAINS, MAX_TAGS, MAX_PIDS in *.
  rewrite put_tags_eq by (done || (cbn [zero_rqst or_tags]; rewrite length_replicate; unfold MAX_TAGS; lia)). cbn [negb].
  pose proof (slen_nonneg (a_regex c)). rewrite strncpy_s_short, take_cstr, !wrapu_small by lia. done.
Qed.

Lemma u32_array_wf src : (length src <= 5)%nat -> Forall in_u32 src -> pwf (p_array 5 p_u32) (put_all src (replicate 5 0)).
Proof. intros Hl Hs. split; [by apply put_all_length | apply put_all_range; [done | by repeat constructor]]. Qed.

Lemma tag_arrays_wf l :
  (length l <= 10)%nat -> Forall (fun t => slen t < MAX_TAG_LEN) l ->
  pwf (p_array 10 (p_chars 32)) ((tag_array <$> l) ++ drop (length l) (or_tags zero_rqst)).
Proof.
  intros Hl Ht. split.
  - rewrite length_app, length_fmap, length_drop. change (length (or_tags zero_rqst)) with 10%nat. lia.
  - apply Forall_app. split; [|by apply Forall_drop; repeat constructor]. apply Forall_fmap. eapply Forall_impl; [exact Ht|].
    intros t. apply tag_array_length.
Qed.

Lemma ToOutputRqst_wf c : args_ok c -> pwf p_OutputRqst (ToOutputRqst c).
Proof.
  intros Hc. rewrite ToOutputRqst_eq by done. destruct (ok_domains c Hc) as [Hd Hd'], (ok_tags c Hc) as [Ht Ht'], (ok_pids c Hc) as [Hp Hp'].
  pose proof (ok_regex c Hc). unfold MAX_DOMAINS, MAX_TAGS, MAX_PIDS in *.
  split; [apply (ok_head c Hc)|]. split; [apply (ok_types c Hc)|]. split; [apply (ok_levels c Hc)|]. split; [done|].
  split; [cbn; lia|]. split; [apply u32_array_wf; [lia | done]|]. split; [done|]. split; [cbn; lia|].
  split; [apply tag_arrays_wf; [lia | done]|]. split; [done|]. split; [cbn; lia|]. split; [apply u32_array_wf; [lia | done]|].
  split; [|split; [done | apply (ok_tail c Hc)]]. pose proof (cstr_le (a_regex c)).
  pose proof (slen_char_array MAX_REGEX_STR_LEN (cstr (a_regex c)) ltac:(lia)) as Hl. unfold slen in Hl.
  unfold MAX_REGEX_STR_LEN in *. cbn. lia.
Qed.

Lemma entries_copy {A} (l src dst : list A) : entries (Z.of_nat (length l)) (copy_first (Z.of_nat (length l)) (l ++ src) dst) = l.
Proof.
  unfold entries, copy_first. rewrite Nat2Z.id, (take_app_length' l src) by done. by rewrite take_app_length'.
Qed.

Lemma copy_tags_first l src dst :
  (length l <= length dst)%nat -> Forall (fun t => slen t < MAX_TAG_LEN) l ->
  take (length l) (copy_tags (length l) ((tag_array <$> l) ++ src) dst).1 = cstr <$> l.
Proof.
  intros Hl Ht. revert dst Hl. induction Ht as [|t l Ht _ IH]; intros [|d dst] Hl; try done; [simpl in Hl; lia|].
  cbn [length fmap list_fmap app copy_tags]. rewrite strncpy_s_short by done.
  specialize (IH dst ltac:(simpl in Hl; lia)). change (list_fmap _ _ ?f ?x) with (f <$> x).
  destruct (copy_tags (length l) ((tag_array <$> l) ++ src) dst) as [l' ok]. cbn [fst take] in *. rewrite IH. f_equal.
  unfold tag_array. rewrite cstr_char_array by apply cstr_no_nul. apply str_take_all. pose proof (cstr_le t). unfold MAX_TAG_LEN in *. lia.
Qed.

Section filter.
Context {PS : ParamService}.
Context (localtime_r : Z -> option tm) (ptr_size : nat) (IsNumericStr : string -> bool) (StrToInt : string -> option Z).
Context (allTypes : list Z) (Helper : string -> string) (HilogShowLogStatsInfo : StatsTree -> string) (lk : link).

Lemma mask_default parse dflt arg v : mask_text parse arg v -> (if v =? 0 then dflt else v) = from_option parse dflt arg.
Proof. destruct arg as [t|]; cbn; [intros [-> Hv]; by rewrite (proj2 (Z.eqb_neq _ _) Hv) | by intros ->]. Qed.

Lemma listing_fmap {A B} (f : A -> B) (item : string -> A -> Prop) (item' : string -> B -> Prop) arg sel :
  (forall x a, item x a -> item' x (f a)) -> listing item arg sel -> listing item' arg (mkSelection (s_black sel) (f <$> s_items sel)).
Proof.
  intros Hf. destruct arg as [t|]; cbn; [|by intros ->]. intros (rest & -> & Hn & Hi). exists rest. split_and!; try done.
  apply Forall2_fmap_r. by eapply Forall2_impl.
Qed.

Lemma selection_eta {A} (sel : selection A) : mkSelection (s_black sel) (s_items sel) = sel.
Proof. by destruct sel. Qed.

(** C10: what is typed is what is filtered.  Options that are accepted fit in
    the request (no list, tag or expression is cut) and the request is well
    formed.  The filter the daemon makes of it has the types, the levels and
    the expression that were typed, or the defaults for those that were not,
    and the domains and the tags one by one as they are between the commas,
    as a black list exactly when a caret is in front.  The same holds of the
    processes for a user who may read the lines of all processes; for any
    other user the daemon replaces them. *)
Theorem options_reach_filter (opts : list getopt) (s s' : sys) (st : scan_state)
    (scanned : scan_opts opts (mkScan (optEntries localtime_r ptr_size IsNumericStr StrToInt allTypes Helper HilogShowLogStatsInfo lk)
                                  new_args (QueryLogHandler localtime_r lk) 0 "") s = Some (inl (st, s'))) :
  pwf p_OutputRqst (ToOutputRqst (sc_args st)) /\
  forall ppid uid pid,
    let f := LogFilterFromOutputRqst ppid uid pid (ToOutputRqst (sc_args st)) no_filter in
    f_types f = from_option Str2ComboLogType DEFAULT_LOG_TYPES (typed "t" opts) /\
    f_levels f = from_option Str2ComboLogLevel 0xFFFF (typed "L" opts) /\
    f_regex f = from_option cstr "" (typed "e" opts) /\
    listing domain_text (typed "D" opts) (mkSelection (f_blackDomain f) (entries (f_domainCount f) (f_domains f))) /\
    listing (fun x t => t = cstr x) (typed "T" opts) (mkSelection (f_blackTag f) (entries (f_tagCount f) (f_tags f))) /\
    (may_read_all uid = true ->
     listing (pid_text IsNumericStr StrToInt) (typed "P" opts) (mkSelection (f_blackPid f) (entries (f_pidCount f) (f_pids f)))).
Proof.
  set (c := sc_args st). assert (args_ok c) as Hc.
  { eapply scan_opts_ok; [..|exact scanned]; [apply optEntries_keep | apply new_args_ok]. }
  pose proof (scanned_field _ _ _ _ _ _ _ _ _ _ _ _ _ _ _ (types_table _ _ _ _ _ _ _ _) eq_refl scanned) as Hty.
  pose proof (scanned_field _ _ _ _ _ _ _ _ _ _ _ _ _ _ _ (levels_table _ _ _ _ _ _ _ _) eq_refl scanned) as Hlv.
  pose proof (scanned_field _ _ _ _ _ _ _ _ _ _ _ _ _ _ _ (regex_table _ _ _ _ _ _ _ _) eq_refl scanned) as Hre.
  pose proof (scanned_field _ _ _ _ _ _ _ _ _ _ _ _ _ _ _ (domains_table _ _ _ _ _ _ _ _) eq_refl scanned) as Hdo.
  pose proof (scanned_field _ _ _ _ _ _ _ _ _ _ _ _ _ _ _ (tags_table _ _ _ _ _ _ _ _) eq_refl scanned) as Hta.
  pose proof (scanned_field _ _ _ _ _ _ _ _ _ _ _ _ _ _ _ (pids_table _ _ _ _ _ _ _ _) eq_refl scanned) as Hpi.
  split; [by apply ToOutputRqst_wf|]. intros ppid uid pid. rewrite LogFilterFromOutputRqst_eq, ToOutputRqst_eq by done.
  destruct (ok_tags c Hc) as [Ht Ht']. pose proof (ok_regex c Hc).
  cbn [f_types f_levels f_blackDomain f_domainCount f_domains f_blackTag f_tagCount f_tags f_blackPid f_pidCount f_pids f_regex
       or_types or_levels or_blackDomain or_domainCount or_domains or_blackTag or_tagCount or_tags or_blackPid or_pidCount or_pids or_regex].
  split; [by apply mask_default|]. split; [by apply mask_default|]. unfold put_all. split; [|split; [|split]].
  - fold c in Hre. rewrite cstr_char_array by apply cstr_no_nul. rewrite str_take_all; [rewrite Hre; by destruct (typed "e" opts)|].
    pose proof (cstr_le (a_regex c)). unfold MAX_REGEX_STR_LEN in *. lia.
  - by rewrite entries_copy, selection_eta.
  - unfold entries. rewrite Nat2Z.id, copy_tags_first by (done || unfold MAX_TAGS in Ht; cbn; lia).
    by apply (listing_fmap cstr (fun x t => t = x)); [intros x t ->|].
  - intros ->. by rewrite entries_copy, selection_eta.
Qed.
End filter.

(** ** A query *)

(** A line as it is stored: its strings end before their lengths. *)
Record line_ok (d : HilogData) : Prop := {
  lo_data : data_wf d;
  lo_fields : Forall in_u32 [d_tv_sec d; d_tv_nsec d; d_mono_sec d; d_pid d; d_tid d; d_domain d];
  lo_tag : no_char NUL (d_tag d) /\ slen (d_tag d) < d_tagLen d;
  lo_content : no_char NUL (d_content d) /\ slen (d_content d) < d_len d - d_tagLen d;
}.

(** The lines the buffer accepts are such lines. *)
Lemma stored_line_ok msg : msg_wf msg -> insert_invalid msg = false -> line_ok (HilogData_of_msg msg).
Proof.
  intros Hwf Hv. destruct (insert_valid msg Hwf Hv) as (Ht & Hc & Hty).
  pose proof (HilogData_of_msg_wf msg Hwf Ht Hc (proj2 Hty)) as (Hd & Hcl & _). pose proof (cLen_wf _ Hd) as [Hcl' _].
  assert (d_tagLen (HilogData_of_msg msg) = msg_tagLen msg) as Htl.
  { unfold HilogData_of_msg. rewrite Init_ok by done. cbn. apply Z.mod_small. unfold MAX_TAG_LEN in Ht. lia. }
  destruct Hwf as (_ & _ & _ & _ & _ & H1 & H2 & H3 & H4 & H5 & H6). split.
  - done.
  - unfold HilogData_of_msg. rewrite Init_ok by done. repeat (apply Forall_cons; split; [done|]). by apply Forall_nil_2.
  - rewrite Htl. unfold HilogData_of_msg. rewrite Init_ok by done. cbn [from_option id d_tag].
    split; [apply no_char_take, cstr_no_nul|]. rewrite slen_take. lia.
  - rewrite <- Hcl', Hcl. unfold HilogData_of_msg. rewrite Init_ok by done. cbn [from_option id d_content].
    split; [apply no_char_take, cstr_no_nul|]. rewrite slen_take. lia.
Qed.

Definition line_header (d : HilogData) : OutputRsp :=
  mkOutputRsp (d_len d) (d_level d) (d_type d) (d_pid d) (d_tid d) (d_domain d) (d_tv_sec d) (d_tv_nsec d) (d_mono_sec d)
    (d_tagLen d) false.

Lemma line_header_wf d : line_ok d -> pwf p_OutputRsp (line_header d).
Proof.
  intros [(Ht & Hl & Hty & Hlv) Hf _ _]. unfold MAX_TAG_LEN, MAX_LOG_LEN, LOG_TYPE_MAX in *.
  rewrite !Forall_cons in Hf. destruct Hf as (H1 & H2 & H3 & H4 & H5 & H6 & _).
  split; [cbn; lia|]. split; [cbn; lia|]. split; [cbn; lia|]. split; [exact H4|]. split; [exact H5|]. split; [exact H6|].
  split; [exact H1|]. split; [exact H2|]. split; [exact H3|]. split; [cbn; lia | done].
Qed.

Lemma in_array_length n old s : slen s < n -> String.length (in_array n old s) = Z.to_nat n.
Proof.
  intros H. apply Nat2Z.inj. fold (slen (in_array n old s)). unfold in_array.
  rewrite slen_app, slen_cons, slen_take, slen_app, slen_fill. pose proof (slen_nonneg s). pose proof (slen_nonneg old). lia.
Qed.

Lemma slen_in_array n old s : slen s < n -> slen (in_array n old s) = n.
Proof. intros H. unfold slen. rewrite in_array_length by done. pose proof (slen_nonneg s). lia. Qed.

Lemma in_array_cstr n old s rest : no_char NUL s -> cstr (in_array n old s +:+ rest) = s.
Proof. intros H. unfold in_array. rewrite <- str_app_assoc, str_cons_app. by apply cstr_app_nul. Qed.

Definition line_content (d : HilogData) : LogContent :=
  mkLogContent (d_level d) (d_type d) (d_pid d) (d_tid d) (d_domain d) (d_tv_sec d) (d_tv_nsec d) (d_mono_sec d)
    (d_tag d) (d_content d).

Lemma query_callback_line localtime_r c j d rest :
  line_ok d ->
  query_callback localtime_r c (WriteQueryResponse j (Some d) +:+ rest) =
    (out ← LogPrintWithFormat localtime_r (line_content d) (query_format c); Some (out, SUCCESS_CONTINUE)).
Proof.
  intros Hd. pose proof (line_header_wf d Hd) as Hw. destruct (lo_tag d Hd) as [Ht Ht'], (lo_content d Hd) as [Hc _].
  unfold query_callback, WriteQueryResponse. fold (line_header d). rewrite <- str_app_assoc.
  rewrite (dec_enc (p := p_OutputRsp)) by exact Hw. cbn [line_header os_end].
  rewrite (str_drop_app_eq (psize p_OutputRsp)) by (by apply (enc_size (p := p_OutputRsp))).
  unfold line_bytes. rewrite <- str_app_assoc, in_array_cstr by done. cbn [line_header os_tagLen].
  rewrite (str_drop_app_eq (Z.to_nat (d_tagLen d))) by (by apply in_array_length). by rewrite in_array_cstr.
Qed.

Lemma query_callback_end localtime_r c j rest :
  pwf p_OutputRsp (j_rsp j) -> query_callback localtime_r c (WriteQueryResponse j None +:+ rest) = Some ("", RET_SUCCESS).
Proof.
  intros Hj. unfold query_callback, WriteQueryResponse. rewrite (dec_enc (p := p_OutputRsp)); [done|].
  destruct (j_rsp j). exact Hj.
Qed.

Lemma enc_OutputRsp_length r : pwf p_OutputRsp r -> slen (enc p_OutputRsp r) = 30.
Proof. intros Hr. unfold slen. by rewrite (enc_size (p := p_OutputRsp)). Qed.

Lemma packet_line j d : line_ok d -> 0 < slen (WriteQueryResponse j (Some d)) <= DEFAULT_RECV_BUF_LEN.
Proof.
  intros Hd. unfold WriteQueryResponse, line_bytes. fold (line_header d). rewrite !slen_app, enc_OutputRsp_length by (by apply line_header_wf).
  destruct Hd as [(Ht & Hl & _) _ [_ Htag] [_ Hcon]]. rewrite !slen_in_array by lia.
  unfold DEFAULT_RECV_BUF_LEN, MAX_LOG_LEN, MAX_TAG_LEN in *. lia.
Qed.

Lemma packet_end j : pwf p_OutputRsp (j_rsp j) -> 0 < slen (WriteQueryResponse j None) <= DEFAULT_RECV_BUF_LEN.
Proof. intros Hj. unfold WriteQueryResponse. rewrite enc_OutputRsp_length by (by destruct (j_rsp j)). by unfold DEFAULT_RECV_BUF_LEN. Qed.

Lemma output_rsp_loop_packet h buffer p inp :
  0 < slen p <= DEFAULT_RECV_BUF_LEN ->
  output_rsp_loop h buffer (p :: inp) =
    '(out, ret) ← h (p +:+ str_drop (String.length p) buffer);
    if ret =? SUCCESS_CONTINUE
    then '(out', ret) ← output_rsp_loop h (p +:+ str_drop (String.length p) buffer) inp; Some (out +:+ out', ret)
    else Some (out, ret).
Proof.
  intros Hp. cbn [output_rsp_loop]. rewrite bool_decide_false by (intros ->; change (slen "") with 0 in Hp; lia).
  assert (str_take (Z.to_nat DEFAULT_RECV_BUF_LEN) p = p) as ->; [|done]. apply str_take_all. lia.
Qed.

(** The tool prints the lines one after the other. *)
Lemma output_rsp_loop_lines localtime_r c turns lines j (text : HilogData -> string) buffer :
  Forall line_ok lines -> pwf p_OutputRsp (j_rsp j) -> (length lines <= length turns)%nat ->
  Forall (fun d => LogPrintWithFormat localtime_r (line_content d) (query_format c) = Some (text d)) lines ->
  output_rsp_loop (query_callback localtime_r c) buffer (line_packets turns lines ++ [WriteQueryResponse j None]) =
    Some (foldr (fun d out => text d +:+ out) "" lines, RET_SUCCESS).
Proof.
  intros Hl Hj. revert turns buffer. induction Hl as [|d lines Hd _ IH]; intros turns buffer Hlen Ht.
  - unfold line_packets. rewrite zip_with_nil_r. cbn [app foldr]. rewrite output_rsp_loop_packet by (by apply packet_end).
    by rewrite query_callback_end.
  - destruct turns as [|t turns]; [simpl in Hlen; lia|]. apply Forall_cons in Ht as [Hp Ht].
    change (line_packets (t :: turns) (d :: lines)) with (WriteQueryResponse (ot_junk t) (Some d) :: line_packets turns lines).
    cbn [app foldr]. rewrite output_rsp_loop_packet by (by apply packet_line). rewrite query_callback_line, Hp by done.
    cbn [mbind option_bind]. rewrite Z.eqb_refl, IH by (done || simpl in Hlen; lia). done.
Qed.

Lemma CreateBufReader_list b id cb : hilogDataList (CreateBufReader b id cb) = hilogDataList b.
Proof. unfold CreateBufReader. by destruct (m_logReaders b !! id). Qed.

Lemma listed_Forall rs f rqst b (P : HilogData -> Prop) :
  Forall (fun n => P n.2) (hilogDataList b) -> Forall P (listed rs f rqst b).
Proof.
  intros H. unfold listed. assert (Forall P (filter (wanted rs f) (hilogDataList b).*2)) as Hf.
  { apply Forall_forall. intros x [_ Hx]%list_elem_of_filter. revert x Hx. apply Forall_forall. by apply Forall_fmap. }
  destruct (_ =? 0); [done | by apply Forall_take].
Qed.

Lemma listed_length rs f rqst b : (length (listed rs f rqst b) <= length (filter (wanted rs f) (hilogDataList b).*2))%nat.
Proof. unfold listed. destruct (_ =? 0); [done|]. rewrite length_take. lia. Qed.

Section query.
Context {PS : ParamService} {ZL : Zlib}.
Context (localtime_r : Z -> option tm) (char_signed : bool) (regex_search : string -> string -> option bool).
Context (allTypes : list Z) (ptr_size : nat) (cmds : list Z) (cn : conn) (d : Daemon) (c : HilogArgs).
Let rqst : OutputRqst := ToOutputRqst c.
Let f : LogFilter := LogFilterFromOutputRqst (cn_ppid cn) (cn_uid cn) (cn_pid cn) rqst no_filter.
Let b : HilogBuffer := buffer_of d (IsKmsg (f_types f)).
Let reader : Z := if IsKmsg (f_types f) then cn_kreader cn else cn_reader cn.

(** What the client receives. *)
Lemma query_packets
    (fits : args_ok c) (no_wait : a_noBlock c = true) (no_tail : a_tailLines c = 0)
    (accepted : CheckOutputRqst (cn_uid cn) rqst = RET_SUCCESS) (served : OUTPUT_RQST ∈ cmds)
    (stored : buf_ok b) (new_reader : m_logReaders b !! reader = None)
    (compiles : no_throw regex_search f b) (undisturbed : Forall quiet (cn_turns cn))
    (enough : (length (filter (wanted regex_search f) (hilogDataList b).*2) < length (cn_turns cn))%nat) :
  exists t, t ∈ cn_turns cn /\
    RequestMsgHead p_OutputRqst p_OutputRsp (daemon_link localtime_r char_signed regex_search allTypes ptr_size cmds cn d)
      OUTPUT_RQST OUTPUT_RSP rqst =
    (RET_SUCCESS, line_packets (cn_turns cn) (listed regex_search f rqst b) ++ [WriteQueryResponse (ot_junk t) None]).
Proof.
  assert (rq_wf (RqOutput rqst)) as Hwf by (by apply ToOutputRqst_wf).
  assert (or_noBlock rqst = true /\ or_tailLines rqst = 0 /\ or_headLines rqst = a_headLines c) as (Hnb & Htl & Hhl).
  { unfold rqst. rewrite ToOutputRqst_eq by done. done. }
  destruct (ok_head c fits) as [Hh0 _]. rewrite <- Hhl in Hh0.
  destruct (fresh_listing regex_search f (dm_maxsz d) reader (cn_turns cn) (CreateBufReader b reader true)
              (mkBufferReader it_singular false 0 true) rqst) as (b' & t & Ht & Hloop & _).
  { by apply CreateBufReader_ok. }
  { unfold CreateBufReader. rewrite new_reader. cbn [m_logReaders]. by rewrite lookup_insert_eq. }
  { done. }
  { done. }
  { unfold no_throw. by rewrite CreateBufReader_list. }
  { done. }
  { by rewrite CreateBufReader_list. }
  { done. }
  unfold listed in Hloop. rewrite CreateBufReader_list in Hloop. fold (listed regex_search f rqst b) in Hloop.
  pose proof (RequestMsgHead_sent localtime_r char_signed regex_search allTypes ptr_size cmds cn d p_OutputRsp
                (RqOutput rqst) OUTPUT_RSP Hwf served) as HR.
  cbn [rq_body bd_type bd_packed bd_value rq_cmd rq_handle] in HR. unfold HandleOutputRqst in HR. rewrite accepted in HR.
  cbn [negb Z.eqb RET_SUCCESS] in HR. fold f in HR. rewrite Hnb, Htl in HR.
  assert (buffer_of (connected cn d) (IsKmsg (f_types f)) = CreateBufReader b reader true) as Eb
    by (unfold connected, b, reader; by destruct (IsKmsg (f_types f))).
  assert ((if or_headLines rqst =? 0 then 0 else or_headLines rqst) = or_headLines rqst) as El
    by (destruct (Z.eqb_spec (or_headLines rqst) 0); congruence).
  change (dm_maxsz (connected cn d)) with (dm_maxsz d) in HR. rewrite El, Eb in HR. fold reader in HR. rewrite Hloop in HR.
  unfold WriteRspHeader in HR. rewrite ReceiveMsgHeaer_enc in HR by (apply MsgHeader_wf; by vm_compute).
  set (packets := line_packets _ _ ++ _) in HR |- *. exists t. split; [exact Ht | exact HR].
Qed.

(** C7: a query from the command line to the terminal.  A query that does not
    wait and asks for no tail, of a user the daemon accepts, prints the lines of
    the buffer that match the filter, all of them or the first n when the head
    is asked for, each once, in the order in which they are stored and
    completely, and then ends successfully.  Meanwhile nothing is inserted and
    the client keeps reading; the stored lines are well formed and can be
    printed, and the expression compiles. *)
Theorem query_prints_lines (text : HilogData -> string) (arg : string) (s : sys)
    (fits : args_ok c) (no_wait : a_noBlock c = true) (no_tail : a_tailLines c = 0)
    (accepted : CheckOutputRqst (cn_uid cn) rqst = RET_SUCCESS) (served : OUTPUT_RQST ∈ cmds)
    (stored : buf_ok b) (lines : Forall (fun n => line_ok n.2) (hilogDataList b)) (new_reader : m_logReaders b !! reader = None)
    (compiles : no_throw regex_search f b) (undisturbed : Forall (fun t => quiet t /\ pwf p_OutputRsp (j_rsp (ot_junk t))) (cn_turns cn))
    (enough : (length (filter (wanted regex_search f) (hilogDataList b).*2) < length (cn_turns cn))%nat)
    (printable : Forall (fun n => LogPrintWithFormat localtime_r (line_content n.2) (query_format c) = Some (text n.2)) (hilogDataList b)) :
  QueryLogHandler localtime_r (daemon_link localtime_r char_signed regex_search allTypes ptr_size cmds cn d) c arg s =
    Some (c, s, foldr (fun x out => text x +:+ out) "" (listed regex_search f rqst b), RET_SUCCESS).
Proof.
  destruct query_packets as (t & Ht & HR); try done.
  { eapply Forall_impl; [exact undisturbed|]. by intros t0 [? _]. }
  unfold QueryLogHandler, RequestOutput. change (ToOutputRqst c) with rqst. rewrite HR. cbn [negb Z.eqb RET_SUCCESS].
  unfold ReceiveAndProcessOutputRsp. rewrite (output_rsp_loop_lines localtime_r c _ _ (ot_junk t) text); [done|..].
  - by apply listed_Forall.
  - rewrite Forall_forall in undisturbed. by destruct (undisturbed t Ht).
  - pose proof (listed_length regex_search f rqst b). lia.
  - by apply listed_Forall.
Qed.
End query.

(** ** Examples *)

Definition ex_args : HilogArgs := set_noBlock new_args true.
Definition ex_link (uid : Z) : link :=
  daemon_link ex_localtime false LogBufferProps.ex_regex ex_types 8 ex_cmds (ex_conn uid) ex_daemon.
Definition ex_text (d : HilogData) : string := default "" (LogPrintWithFormat ex_localtime (line_content d) (query_format ex_args)).

Lemma ex_args_ok : args_ok ex_args.
Proof. destruct new_args_ok. by split. Qed.

Lemma ex_lines_ok : Forall (fun n => line_ok n.2) (hilogDataList (LogBufferProps.ex_buffer true)).
Proof.
  assert ((hilogDataList (LogBufferProps.ex_buffer true)).*2 = HilogData_of_msg <$>
    [LogBufferProps.ex_msg LOG_CORE "first"; LogBufferProps.ex_msg LOG_CORE LogBufferProps.ex_90; LogBufferProps.ex_msg LOG_APP "app"]) as H
    by (vm_compute; reflexivity).
  assert (Forall line_ok (hilogDataList (LogBufferProps.ex_buffer true)).*2) as HF; [|exact (proj1 (Forall_fmap snd line_ok _) HF)].
  rewrite H. apply Forall_fmap.
  repeat (apply Forall_cons; split; [apply stored_line_ok; [apply LogBufferProps.ex_msg_wf|]; by vm_compute|]). by apply Forall_nil_2.
Qed.

Lemma ex_turns_ok : Forall (fun t => quiet t /\ pwf p_OutputRsp (j_rsp (ot_junk t))) (cn_turns (ex_conn ROOT_UID)).
Proof. by repeat (apply Forall_cons; split; [by vm_compute|]); apply Forall_nil_2. Qed.

Lemma query_prints_lines_witness :
  QueryLogHandler ex_localtime (ex_link ROOT_UID) ex_args "" ex_sys =
    Some (ex_args, ex_sys,
          "08-06 16:51:04.000   100   100 I C00000/T: first" +:+ endl +:+
          "08-06 16:51:04.000   100   100 I C00000/T: " +:+ LogBufferProps.ex_90 +:+ endl +:+
          "08-06 16:51:04.000   100   100 I A00000/T: app" +:+ endl, RET_SUCCESS).
Proof.
  unfold ex_link.
  rewrite (query_prints_lines ex_localtime false LogBufferProps.ex_regex ex_types 8 ex_cmds (ex_conn ROOT_UID) ex_daemon ex_args ex_text
             "" ex_sys ex_args_ok eq_refl eq_refl).
  - apply f_equal, (f_equal (fun t => (ex_args, ex_sys, t, RET_SUCCESS))). vm_compute; reflexivity.
  - vm_compute; reflexivity.
  - by left.
  - apply LogBufferProps.ex_buffer_ok.
  - apply ex_lines_ok.
  - vm_compute; reflexivity.
  - by repeat (apply Forall_cons; split; [by vm_compute|]); apply Forall_nil_2.
  - apply ex_turns_ok.
  - apply Nat.ltb_lt. vm_compute; reflexivity.
  - by repeat (apply Forall_cons; split; [by vm_compute|]); apply Forall_nil_2.
Defined.

(** hilog -D 0xD002D00,0xD002D01 -T ^Tag -t core *)
Definition ex_opts : list getopt :=
  [mkGetopt 68 (Some "0xD002D00,0xD002D01") (Some "-T"); mkGetopt 84 (Some "^Tag") (Some "-t"); mkGetopt 116 (Some "core") None].
Definition ex_scan : scan_state :=
  mkScan (optEntries ex_localtime 8 (fun _ => true) (fun _ => None) ex_types (fun _ => "") (fun _ => "") (ex_link ROOT_UID))
    new_args (QueryLogHandler ex_localtime (ex_link ROOT_UID)) 0 "".

Lemma options_reach_filter_witness :
  exists st, scan_opts ex_opts ex_scan ex_sys = Some (inl (st, ex_sys)) /\
    let f := LogFilterFromOutputRqst (fun _ => 1) ROOT_UID 100 (ToOutputRqst (sc_args st)) no_filter in
    f_types f = 8 /\ f_levels f = 0xFFFF /\
    listing domain_text (Some "0xD002D00,0xD002D01") (mkSelection (f_blackDomain f) (entries (f_domainCount f) (f_domains f))) /\
    listing (fun x t => t = cstr x) (Some "^Tag") (mkSelection (f_blackTag f) (entries (f_tagCount f) (f_tags f))) /\
    mkSelection (f_blackPid f) (entries (f_pidCount f) (f_pids f)) = mkSelection false [].
Proof.
  assert (exists st, scan_opts ex_opts ex_scan ex_sys = Some (inl (st, ex_sys))) as (st & E).
  { eexists. reflexivity. }
  destruct (options_reach_filter (PS := hist_service) ex_localtime 8 (fun _ => true) (fun _ => None) ex_types (fun _ => "") (fun _ => "") (ex_link ROOT_UID)
              ex_opts ex_sys ex_sys st E) as [_ H].
  destruct (H (fun _ => 1) ROOT_UID 100) as (H1 & H2 & _ & H3 & H4 & H5).
  exists st. split; [exact E|]. split; [exact H1|]. split; [exact H2|]. split; [exact H3|]. split; [exact H4|]. exact (H5 eq_refl).
Defined.
