(* ===== verification/Format.v ===== *)
(** The formatter of log texts: [vsnprintfp_s] and [SecOutputPS] of
    frameworks/libhilog/vsnprintf (vsnprintf_s_p.c and output_p.inl), with the
    privacy marks [%{public}] and [%{private}] of the conversions.

    The model is the build for a little-endian POSIX target: none of the
    Windows, VxWorks, AIX and Solaris macros is defined, output_p.inl undefines
    SECUREC_COMPATIBLE_LINUX_FORMAT, and SECUREC_ON_64BITS is the parameter
    [lp64].  The output stream is its count and the bytes written.  The
    variable arguments are a list of typed values; a [va_arg] of another type,
    or after the last one, is undefined behaviour, the value [None].  Signed
    arithmetic wraps.  The C library is a parameter: [wctomb], whether a
    [malloc] of a size succeeds, and the [vsprintf_s] that formats a double. *)

From S2P Require Import Prelude Common Utils.
From Stdlib Require Import Ascii.

(** ** Constants *)

Definition SECUREC_STRING_MAX_LEN : Z := 0x7fffffff.
Definition SECUREC_PRINTF_TRUNCATE : Z := -2.
Definition SECUREC_BUFFER_SIZE : Z := 512.
Definition SECUREC_MAX_PRECISION : Z := SECUREC_BUFFER_SIZE.
Definition SECUREC_FLOAT_BUFSIZE : Z := 309 + 40.
Definition SECUREC_FLOAT_BUFSIZE_LB : Z := 4932 + 40.
Definition SECUREC_INT_MAX : Z := 2147483647.
Definition SECUREC_INT_MAX_DIV_TEN : Z := 21474836.
Definition SECUREC_FMT_STR_LEN : Z := 16.

Definition SECUREC_FLAG_SIGN : Z := 0x00001.
Definition SECUREC_FLAG_SIGN_SPACE : Z := 0x00002.
Definition SECUREC_FLAG_LEFT : Z := 0x00004.
Definition SECUREC_FLAG_LEADZERO : Z := 0x00008.
Definition SECUREC_FLAG_LONG : Z := 0x00010.
Definition SECUREC_FLAG_SHORT : Z := 0x00020.
Definition SECUREC_FLAG_SIGNED : Z := 0x00040.
Definition SECUREC_FLAG_ALTERNATE : Z := 0x00080.
Definition SECUREC_FLAG_NEGATIVE : Z := 0x00100.
Definition SECUREC_FLAG_FORCE_OCTAL : Z := 0x00200.
Definition SECUREC_FLAG_LONG_DOUBLE : Z := 0x00400.
Definition SECUREC_FLAG_WIDECHAR : Z := 0x00800.
Definition SECUREC_FLAG_LONGLONG : Z := 0x01000.
Definition SECUREC_FLAG_CHAR : Z := 0x02000.
Definition SECUREC_FLAG_POINTER : Z := 0x04000.
Definition SECUREC_FLAG_I64 : Z := 0x08000.
Definition SECUREC_FLAG_PTRDIFF : Z := 0x10000.
Definition SECUREC_FLAG_SIZE : Z := 0x20000.

(** ** The output stream *)

Record SecPrintfStream := mkStream {
  st_count : Z;
  st_text : string;   (* the bytes between the start of the buffer and [cur] *)
}.

(** [SECUREC_IS_REST_BUF_ENOUGH], and the macros that write without a check. *)
Definition SECUREC_IS_REST_BUF_ENOUGH (f : SecPrintfStream) (needLen : Z) : bool := 0 <=? i32 (st_count f - needLen).

Definition SECUREC_SAFE_WRITE (s : string) (f : SecPrintfStream) (charsOut : Z) : SecPrintfStream * Z :=
  (mkStream (st_count f - slen s) (st_text f +:+ s), charsOut + slen s).

(** [SecWriteString]: one [SECUREC_PUTC] for each byte, until the buffer ends. *)
Fixpoint SecWriteString (s : string) (f : SecPrintfStream) (pnumwritten : Z) : SecPrintfStream * Z :=
  match s with
  | "" => (f, pnumwritten)
  | String c s =>
      if 0 <=? st_count f - 1 then
        SecWriteString s (mkStream (st_count f - 1) (st_text f +:+ String c "")) (pnumwritten + 1)
      else (mkStream (st_count f - 1) (st_text f), -1)
  end.

Fixpoint SecWriteMultiChar (ch : ascii) (num : nat) (f : SecPrintfStream) (pnumwritten : Z) : SecPrintfStream * Z :=
  match num with
  | O => (f, pnumwritten)
  | S num =>
      if 0 <=? st_count f - 1 then
        SecWriteMultiChar ch num (mkStream (st_count f - 1) (st_text f +:+ String ch "")) (pnumwritten + 1)
      else (mkStream (st_count f - 1) (st_text f), -1)
  end.

(** The two ways to write a text and a padding. *)
Definition write_text (s : string) (f : SecPrintfStream) (charsOut : Z) : SecPrintfStream * Z :=
  if SECUREC_IS_REST_BUF_ENOUGH f (slen s) then SECUREC_SAFE_WRITE s f charsOut else SecWriteString s f charsOut.
Definition write_padding (ch : ascii) (padding : Z) (f : SecPrintfStream) (charsOut : Z) : SecPrintfStream * Z :=
  if SECUREC_IS_REST_BUF_ENOUGH f padding then SECUREC_SAFE_WRITE (fill (Z.to_nat padding) ch) f charsOut
  else SecWriteMultiChar ch (Z.to_nat padding) f charsOut.
Definition write_char (ch : ascii) (f : SecPrintfStream) (charsOut : Z) : SecPrintfStream * Z :=
  if SECUREC_IS_REST_BUF_ENOUGH f 1 then SECUREC_SAFE_WRITE (String ch "") f charsOut else (mkStream (-1) (st_text f), -1).

Definition PRIVACY_STRING : string := "<private>".
Definition SecWritePrivateStr (f : SecPrintfStream) (charsOut : Z) : SecPrintfStream * Z := write_text PRIVACY_STRING f charsOut.

(** ** The states of the format *)

Inductive SecFmtState := STAT_NORMAL | STAT_PERCENT | STAT_FLAG | STAT_WIDTH | STAT_DOT | STAT_PRECIS | STAT_SIZE | STAT_TYPE | STAT_INVALID.
#[export] Instance SecFmtState_eq_dec : EqDecision SecFmtState.
Proof. solve_decision. Defined.

Definition state_code (s : SecFmtState) : nat :=
  match s with
  | STAT_NORMAL => 0 | STAT_PERCENT => 1 | STAT_FLAG => 2 | STAT_WIDTH => 3 | STAT_DOT => 4
  | STAT_PRECIS => 5 | STAT_SIZE => 6 | STAT_TYPE => 7 | STAT_INVALID => 8
  end.
Definition state_of_code (n : nat) : SecFmtState :=
  match n with
  | 0 => STAT_NORMAL | 1 => STAT_PERCENT | 2 => STAT_FLAG | 3 => STAT_WIDTH | 4 => STAT_DOT
  | 5 => STAT_PRECIS | 6 => STAT_SIZE | 7 => STAT_TYPE | _ => STAT_INVALID
  end%nat.

(** The first half of the table classifies characters (those from 0x80 on are
    all 0), the second half is the transition function, nine states for each
    class. *)
Definition FMT_CHAR_TABLE : list nat := [
  0;0;0;0;0;0;0;0;0;0;0;0;0;0;0;0;
  0;0;0;0;0;0;0;0;0;0;0;0;0;0;0;0;
  6;0;0;6;0;1;0;0;0;0;3;6;0;6;2;0;
  4;5;5;5;5;5;5;5;5;5;0;0;0;0;0;0;
  0;0;0;8;0;8;8;8;0;7;0;0;7;0;7;0;
  0;0;0;8;0;0;0;0;8;0;7;0;0;0;0;0;
  0;0;0;8;8;8;8;8;7;8;7;0;7;0;0;8;
  8;7;0;8;7;8;0;7;8;0;7;0;0;0;0;0]%nat ++ replicate 128 0%nat ++ [
  0;8;8;8;8;8;8;0;0;1;0;8;8;8;8;8;
  1;0;0;4;4;4;8;8;8;0;0;0;3;3;8;5;
  8;8;0;0;0;2;2;3;5;5;8;0;0;0;3;3;
  3;5;5;8;0;0;0;2;2;2;8;8;8;0;0;0;
  6;6;6;6;6;6;0;0;0;7;7;7;7;7;7;0;
  0]%nat.
Definition SECUREC_FMT_STATE_OFFSET : nat := 256.

Definition SECUREC_DECODE_STATE (c : ascii) (laststate : SecFmtState) : SecFmtState :=
  state_of_code (nth (nth (Z.to_nat (byte_val c)) FMT_CHAR_TABLE 0 * (state_code STAT_INVALID + 1)
                        + state_code laststate + SECUREC_FMT_STATE_OFFSET) FMT_CHAR_TABLE 0)%nat.

(** ** The attributes of a conversion *)

Record SecFormatAttr := mkAttr {
  fa_flags : Z;
  fa_fldWidth : Z;
  fa_precision : Z;
  fa_dynWidth : bool;
  fa_dynPrecision : bool;
}.
Definition add_flags (a : SecFormatAttr) (fl : Z) : SecFormatAttr :=
  mkAttr (Z.lor (fa_flags a) fl) (fa_fldWidth a) (fa_precision a) (fa_dynWidth a) (fa_dynPrecision a).
Definition clear_flags (a : SecFormatAttr) (fl : Z) : SecFormatAttr :=
  mkAttr (Z.ldiff (fa_flags a) fl) (fa_fldWidth a) (fa_precision a) (fa_dynWidth a) (fa_dynPrecision a).
Definition set_precision (a : SecFormatAttr) (p : Z) : SecFormatAttr :=
  mkAttr (fa_flags a) (fa_fldWidth a) p (fa_dynWidth a) (fa_dynPrecision a).
Definition has_flag (a : SecFormatAttr) (fl : Z) : bool := negb (Z.land (fa_flags a) fl =? 0).

Definition SecDecodeFlags (ch : ascii) (a : SecFormatAttr) : SecFormatAttr :=
  match ch with
  | " " => add_flags a SECUREC_FLAG_SIGN_SPACE
  | "+" => add_flags a SECUREC_FLAG_SIGN
  | "-" => add_flags a SECUREC_FLAG_LEFT
  | "0" => add_flags a SECUREC_FLAG_LEADZERO
  | "#" => add_flags a SECUREC_FLAG_ALTERNATE
  | _ => a
  end%char.

(** Moves the format pointer: the characters passed are kept, last first. *)
Fixpoint advance (k : nat) (before format : string) : string * string :=
  match k, format with
  | S k, String c format => advance k (String c before) format
  | _, _ => (before, format)
  end.

Definition str_head (s : string) : ascii := match s with String c _ => c | "" => NUL end.

Section output.
Context (lp64 char_signed : bool).
Context (wctomb : Z -> option string) (SECUREC_MALLOC : Z -> bool).
(** [vsprintf_s destMax format args value]: the text, or nothing on an error. *)
Context (vsprintf_s : Z -> string -> list Z -> Z -> option string).

(** [None]: the function returns -1; otherwise the attributes and by how many
    characters the format pointer moves. *)
Definition SecDecodeSize (ch : ascii) (a : SecFormatAttr) (format : string) : option (SecFormatAttr * nat) :=
  let next := str_head format in
  match ch with
  | "q" | "L" => Some (add_flags a (Z.lor SECUREC_FLAG_LONGLONG SECUREC_FLAG_LONG_DOUBLE), 0%nat)
  | "l" => if decide (next = "l")%char then Some (add_flags a SECUREC_FLAG_LONGLONG, 1%nat)
           else Some (add_flags a SECUREC_FLAG_LONG, 0%nat)
  | "t" => Some (add_flags a SECUREC_FLAG_PTRDIFF, 0%nat)
  | "I" =>
      let a := if lp64 then add_flags a SECUREC_FLAG_I64 else a in
      let next2 := str_head (str_drop 1 format) in
      if bool_decide (next = "6")%char && bool_decide (next2 = "4")%char then Some (add_flags a SECUREC_FLAG_I64, 2%nat)
      else if bool_decide (next = "3")%char && bool_decide (next2 = "2")%char then Some (clear_flags a SECUREC_FLAG_I64, 2%nat)
      else if str_mem next "diouxX" then Some (a, 0%nat)
      else None
  | "h" => if decide (next = "h")%char then Some (add_flags a SECUREC_FLAG_CHAR, 0%nat)
           else Some (add_flags a SECUREC_FLAG_SHORT, 0%nat)
  | "w" => Some (add_flags a SECUREC_FLAG_WIDECHAR, 0%nat)
  | _ => Some (a, 0%nat)
  end%char.

(** ** Arguments *)

(** The value of an argument after the default promotions: an [int], a 64-bit
    integer (also [long] with [lp64]), a double (its bits), a pointer to the
    characters of a string, to the wide characters of a string, or to
    anything.  [None] is the null pointer. *)
Inductive varg :=
  | VInt (z : Z) | VLong (z : Z) | VDouble (bits : Z)
  | VStr (s : option string) | VWStr (s : option (list Z)) | VPtr (z : Z).

Definition va_int (args : list varg) : option (Z * list varg) :=
  match args with
  | VInt z :: args => Some (i32 z, args)
  | VPtr z :: args => if lp64 then None else Some (i32 z, args)
  | _ => None
  end.
Definition va_int64 (args : list varg) : option (Z * list varg) :=
  match args with
  | VLong z :: args => Some (wraps 64 z, args)
  | VPtr z :: args => if lp64 then Some (wraps 64 z, args) else None
  | _ => None
  end.
Definition va_double (args : list varg) : option (Z * list varg) :=
  match args with VDouble z :: args => Some (z, args) | _ => None end.
Definition va_ptr (args : list varg) : option (varg * list varg) :=
  match args with
  | VStr s :: args => Some (VStr s, args)
  | VWStr s :: args => Some (VWStr s, args)
  | _ => None
  end.

(** ** Conversions *)

(** What a case of the switch leaves for the common part: it returns from the
    function, leaves the switch without a text ([noOutput], or a private
    argument), or with the attributes, the prefix and the text, of bytes or of
    wide characters. *)
Inductive conv_text := Narrow (s : string) | Wide (l : list Z).
Inductive conversion := ConvReturn | ConvBreak | ConvText (a : SecFormatAttr) (prefix : string) (t : conv_text).

Definition SecDecodeTypeC (a : SecFormatAttr) (cValue : Z) : conversion :=
  if has_flag a (Z.lor SECUREC_FLAG_LONG SECUREC_FLAG_WIDECHAR) then
    match wctomb cValue with Some s => ConvText a "" (Narrow s) | None => ConvBreak end
  else ConvText a "" (Narrow (String (byte_chr (u8 cValue)) "")).

(** The characters up to the terminator, at most [finalPrecision] of them. *)
Fixpoint wide_until (finalPrecision : nat) (l : list Z) : list Z :=
  match finalPrecision, l with
  | S n, c :: l => if c =? 0 then [] else c :: wide_until n l
  | _, _ => []
  end.
Definition strNullString : string := "(null)".
Definition wStrNullString : list Z := [40; 110; 117; 108; 108; 41].

Definition SecDecodeTypeS (a : SecFormatAttr) (argPtr : varg) : option conversion :=
  let finalPrecision := if fa_precision a =? -1 then SECUREC_INT_MAX else fa_precision a in
  let narrow s := ConvText a "" (Narrow (str_take (Z.to_nat (Z.min finalPrecision (slen s))) (cstr s))) in
  let wide l := ConvText a "" (Wide (wide_until (Z.to_nat (Z.min finalPrecision (Z.of_nat (length l)))) l)) in
  if has_flag a (Z.lor SECUREC_FLAG_LONG SECUREC_FLAG_WIDECHAR) then
    match argPtr with
    | VWStr None | VStr None => Some (wide wStrNullString)
    | VWStr (Some l) => Some (wide l)
    | _ => None
    end
  else
    match argPtr with
    | VStr None | VWStr None => Some (narrow strNullString)
    | VStr (Some s) => Some (narrow s)
    | _ => None
    end.

(** *** Floating point *)

(** The format handed to [vsprintf_s]: back from the character before the
    conversion to the percent sign or the closing brace of the mark. *)
Fixpoint walk_back (before acc : string) : string :=
  match before with
  | "" => acc
  | String c before => if decide (c = "%" \/ c = "}")%char then acc else walk_back before (String c acc)
  end.
Definition flt_fmt (before : string) : string := String "%"%char (walk_back (str_drop 1 before) (String (str_head before) "")).

Definition float_conv (ch : ascii) (a : SecFormatAttr) (isPrivacy : bool) (before : string) (args : list varg)
    : option (conversion * list varg) :=
  if isPrivacy then '(_, args) ← va_double args; Some (ConvBreak, args)
  else
    let ch := if str_mem ch "EFGA" then byte_chr (byte_val ch + 32) else ch in
    let precision :=
      if fa_precision a <? 0 then 6
      else if (fa_precision a =? 0) && bool_decide (ch = "g")%char then 1 else fa_precision a in
    let size := if has_flag a SECUREC_FLAG_LONG_DOUBLE then SECUREC_FLOAT_BUFSIZE_LB else SECUREC_FLOAT_BUFSIZE in
    if SECUREC_INT_MAX - size <? precision then Some (ConvBreak, args)
    else
      let bufferSize := Z.max (size + precision) (fa_fldWidth a) in
      let onHeap := SECUREC_BUFFER_SIZE <=? bufferSize in
      let formatBufLen := if onHeap then bufferSize + 2 else SECUREC_BUFFER_SIZE + 1 in
      if onHeap && negb (SECUREC_MALLOC formatBufLen) then Some (ConvBreak, args)
      else
        let fltFmtStr := flt_fmt before in
        let fltFmtStrLen := slen fltFmtStr + 1 in
        if (SECUREC_FMT_STR_LEN <? fltFmtStrLen) && negb (SECUREC_MALLOC fltFmtStrLen) then Some (ConvBreak, args)
        else
          '(tmp, args) ← va_double args;
          let dyn := (if fa_dynWidth a then [fa_fldWidth a] else []) ++ (if fa_dynPrecision a then [precision] else []) in
          match vsprintf_s formatBufLen fltFmtStr dyn tmp with
          | None => Some (ConvBreak, args)
          | Some text => Some (ConvText (mkAttr 0 (slen text) precision (fa_dynWidth a) (fa_dynPrecision a)) "" (Narrow text), args)
          end.

(** *** Integers *)

Definition itoaUpperDigits : string := "0123456789ABCDEFX".
Definition itoaLowerDigits : string := "0123456789abcdefx".
Definition digit_at (digits : string) (d : Z) : ascii := str_head (str_drop (Z.to_nat d) digits).

(** [SECUREC_SPECIAL]: digits are put before those already there. *)
Fixpoint SECUREC_SPECIAL (fuel : nat) (digits : string) (base val : Z) (buf : string) : string :=
  match fuel with
  | O => buf
  | S fuel =>
      let buf := String (digit_at digits (val mod base)) buf in
      if val / base =? 0 then buf else SECUREC_SPECIAL fuel digits base (val / base) buf
  end.

(** The division by ten of 32-bit targets, by shifts and additions. *)
Definition fast_div10 (n : Z) : Z :=
  let q := u32 (Z.shiftr n 1 + Z.shiftr n 2) in
  let q := u32 (q + Z.shiftr q 4) in
  let q := u32 (q + Z.shiftr q 8) in
  let q := u32 (q + Z.shiftr q 16) in
  let q := Z.shiftr q 3 in
  let r := u32 (n - Z.shiftl (Z.shiftl q 2 + q) 1) in
  if 9 <? r then u32 (q + 1) else q.
Fixpoint fast_dec (fuel : nat) (digits : string) (val : Z) (buf : string) : string :=
  match fuel with
  | O => buf
  | S fuel =>
      let buf := String (digit_at digits (val mod 10)) buf in
      if fast_div10 val =? 0 then buf else fast_dec fuel digits (fast_div10 val) buf
  end.

(** A 64-bit number has at most 22 digits in the radices used. *)
Definition DIGITS_FUEL : nat := 64.
Definition number_digits (digits : string) (radix number : Z) : string :=
  if number =? 0 then ""
  else if negb lp64 && (number <=? 0xFFFFFFFF) && (radix =? 10) then fast_dec DIGITS_FUEL digits number ""
  else SECUREC_SPECIAL DIGITS_FUEL digits radix number "".

(** The value of an [int] argument for the size given; a plain [char] may be
    unsigned. *)
Definition int_value (a : SecFormatAttr) (v : Z) : Z * SecFormatAttr :=
  let signed := has_flag a SECUREC_FLAG_SIGNED in
  if has_flag a SECUREC_FLAG_CHAR then
    if signed then
      let l := if char_signed then wraps 8 v else u8 v in
      if 128 <=? l then (u8 (Z.lnot l) + 1, add_flags a SECUREC_FLAG_NEGATIVE) else (l, a)
    else (u8 v, a)
  else if has_flag a SECUREC_FLAG_SHORT then (if signed then i16 v else u16 v, a)
  else (if signed then v else u32 v, a).

(** Reads the argument into [l]. *)
Definition read_int (a : SecFormatAttr) (args : list varg) : option (Z * SecFormatAttr * list varg) :=
  if has_flag a SECUREC_FLAG_I64 || has_flag a SECUREC_FLAG_LONGLONG || (lp64 && has_flag a SECUREC_FLAG_LONG) then
    '(l, args) ← va_int64 args; Some (l, a, args)
  else
    '(v, args) ← va_int args; Some (int_value a v, args).

(** The text of [number] in the buffer: at least [precision] digits, and the
    leading zero of the alternate octal form. *)
Definition int_text (a : SecFormatAttr) (digits : string) (radix number precision : Z) : string :=
  let text := number_digits digits radix number in
  let text := fill (Z.to_nat (precision - slen text)) "0" +:+ text in
  if has_flag a SECUREC_FLAG_FORCE_OCTAL && negb (bool_decide (str_head text = "0")%char) then String "0" text else text.

Definition int_conversion (a : SecFormatAttr) (digits : string) (radix : Z) (prefix : string) (l : Z) : conversion :=
  let '(number, a) :=
    if has_flag a SECUREC_FLAG_SIGNED && (l <? 0) then (u64 (- l), add_flags a SECUREC_FLAG_NEGATIVE) else (u64 l, a) in
  let wide := has_flag a SECUREC_FLAG_I64 || has_flag a SECUREC_FLAG_LONGLONG ||
              (lp64 && (has_flag a SECUREC_FLAG_PTRDIFF || has_flag a SECUREC_FLAG_SIZE || has_flag a SECUREC_FLAG_LONG)) in
  let number := if wide then number else Z.land number 0xffffffff in
  let '(a, precision) :=
    if fa_precision a <? 0 then (a, 1)
    else (if has_flag a SECUREC_FLAG_POINTER then a else clear_flags a SECUREC_FLAG_LEADZERO,
          Z.min (fa_precision a) SECUREC_MAX_PRECISION) in
  let prefix := if number =? 0 then "" else prefix in
  ConvText a prefix (Narrow (int_text a digits radix number precision)).

Definition output_int (a : SecFormatAttr) (digits : string) (radix : Z) (prefix : string) (isPrivacy : bool) (args : list varg)
    : option (conversion * list varg) :=
  '(l, a, args) ← read_int a args;
  Some (if isPrivacy then ConvBreak else int_conversion a digits radix prefix l, args).

Definition output_hex (a : SecFormatAttr) (digits : string) (isPrivacy : bool) (args : list varg) : option (conversion * list varg) :=
  let prefix := if has_flag a SECUREC_FLAG_ALTERNATE then String "0" (String (digit_at digits 16) "") else "" in
  output_int a digits 16 prefix isPrivacy args.

(** *** The switch on the conversion *)

Definition as_wide (a : SecFormatAttr) : SecFormatAttr :=
  if has_flag a (Z.lor SECUREC_FLAG_SHORT (Z.lor SECUREC_FLAG_LONG SECUREC_FLAG_WIDECHAR)) then a
  else add_flags a SECUREC_FLAG_WIDECHAR.

Definition convert_c (a : SecFormatAttr) (isPrivacy : bool) (args : list varg) : option (conversion * list varg) :=
  '(v, args) ← va_int args;
  Some (if isPrivacy then ConvBreak else SecDecodeTypeC a (u32 v), args).
Definition convert_s (a : SecFormatAttr) (isPrivacy : bool) (args : list varg) : option (conversion * list varg) :=
  '(p, args) ← va_ptr args;
  if isPrivacy then Some (ConvBreak, args) else c ← SecDecodeTypeS a p; Some (c, args).

Definition convert (ch : ascii) (a : SecFormatAttr) (isPrivacy : bool) (before : string) (args : list varg)
    : option (conversion * list varg) :=
  match ch with
  | "C" => convert_c (as_wide a) isPrivacy args
  | "c" => convert_c a isPrivacy args
  | "S" => convert_s (as_wide a) isPrivacy args
  | "s" => convert_s a isPrivacy args
  | "n" => Some (ConvReturn, args)
  | "E" | "F" | "G" | "A" | "e" | "f" | "g" | "a" => float_conv ch a isPrivacy before args
  | "p" =>
      let a := add_flags a (Z.lor SECUREC_FLAG_POINTER (if lp64 then SECUREC_FLAG_I64 else SECUREC_FLAG_LONG)) in
      output_hex (set_precision a (2 * (if lp64 then 8 else 4))) itoaUpperDigits isPrivacy args
  | "X" => output_hex a itoaUpperDigits isPrivacy args
  | "x" => output_hex a itoaLowerDigits isPrivacy args
  | "i" | "d" => output_int (add_flags a SECUREC_FLAG_SIGNED) itoaUpperDigits 10 "" isPrivacy args
  | "u" => output_int a itoaUpperDigits 10 "" isPrivacy args
  | "o" =>
      output_int (if has_flag a SECUREC_FLAG_ALTERNATE then add_flags a SECUREC_FLAG_FORCE_OCTAL else a)
        itoaUpperDigits 8 "" isPrivacy args
  | _ => Some (ConvText a "" (Narrow ""), args)   (* no such character has the class of a conversion *)
  end%char.

(** ** Writing a conversion *)

Fixpoint write_wide (l : list Z) (f : SecPrintfStream) (charsOut : Z) : SecPrintfStream * Z :=
  match l with
  | [] => (f, charsOut)
  | c :: l =>
      match wctomb c with
      | None | Some "" => (f, -1)
      | Some s => let '(f, charsOut) := SecWriteString s f charsOut in write_wide l f charsOut
      end
  end.
Definition text_len (t : conv_text) : Z := match t with Narrow s => slen s | Wide l => Z.of_nat (length l) end.

Definition sign_prefix (a : SecFormatAttr) (prefix : string) : string :=
  if has_flag a SECUREC_FLAG_SIGNED then
    if has_flag a SECUREC_FLAG_NEGATIVE then "-"
    else if has_flag a SECUREC_FLAG_SIGN then "+"
    else if has_flag a SECUREC_FLAG_SIGN_SPACE then " "
    else prefix
  else prefix.

Definition write_conversion (a : SecFormatAttr) (prefix : string) (t : conv_text) (f : SecPrintfStream) (charsOut : Z)
    : SecPrintfStream * Z :=
  let prefix := sign_prefix a prefix in
  let padding := i32 (i32 (fa_fldWidth a - text_len t) - slen prefix) in
  let left := has_flag a SECUREC_FLAG_LEFT in
  let zero := has_flag a SECUREC_FLAG_LEADZERO in
  let '(f, charsOut) := if negb (left || zero) && (0 <? padding) then write_padding " " padding f charsOut else (f, charsOut) in
  let '(f, charsOut) := if bool_decide (prefix = "") then (f, charsOut) else write_text prefix f charsOut in
  let '(f, charsOut) := if zero && negb left && (0 <? padding) then write_padding "0" padding f charsOut else (f, charsOut) in
  let '(f, charsOut) :=
    match t with
    | Narrow s => write_text s f charsOut
    | Wide [] => write_text "" f charsOut
    | Wide l => write_wide l f charsOut
    end in
  if (0 <=? charsOut) && left && (0 <? padding) then write_padding " " padding f charsOut else (f, charsOut).

(** ** The loop over the format *)

Record fmt_state := mkFmt {
  fs_state : SecFmtState;
  fs_attr : SecFormatAttr;
  fs_isPrivacy : bool;
  fs_stream : SecPrintfStream;
  fs_charsOut : Z;
  fs_args : list varg;
}.
(** The loop goes on after the characters passed, or the function returns. *)
Inductive fmt_next := Next (before format : string) (s : fmt_state) | Return (ret : Z) (f : SecPrintfStream).

Definition PUBLIC_FLAG : string := "{public}".
Definition PRIVATE_FLAG : string := "{private}".

(** The privacy of the conversion that starts, and how far its mark reaches. *)
Definition privacy_mark (format : string) (isPrivacy : bool) : bool * nat :=
  if bool_decide (str_head format = "{")%char then
    if String.prefix PUBLIC_FLAG format then (false, 8%nat)
    else if String.prefix PRIVATE_FLAG format then (true, 9%nat)
    else (isPrivacy, 0%nat)
  else (true, 0%nat).

Definition add_digit (v : Z) (ch : ascii) : option Z :=
  if SECUREC_INT_MAX_DIV_TEN <? v then None else Some (i32 (i32 (10 * v) + (byte_val ch - 48))).

Definition put_char (ch : ascii) (before format : string) (s : fmt_state) : fmt_next :=
  let '(f, n) := write_char ch (fs_stream s) (fs_charsOut s) in
  Next before format (mkFmt STAT_NORMAL (fs_attr s) (fs_isPrivacy s) f n (fs_args s)).
Definition with_attr (st : SecFmtState) (s : fmt_state) (a : SecFormatAttr) (args : list varg) : fmt_state :=
  mkFmt st a (fs_isPrivacy s) (fs_stream s) (fs_charsOut s) args.

Definition do_percent (priv : bool) (before format : string) (s : fmt_state) : fmt_next :=
  let a := mkAttr 0 0 (-1) (fa_dynWidth (fs_attr s)) (fa_dynPrecision (fs_attr s)) in
  let '(isPrivacy, k) := privacy_mark format (fs_isPrivacy s) in
  let '(before, format) := advance k before format in
  Next before format (mkFmt STAT_PERCENT a (priv && isPrivacy) (fs_stream s) (fs_charsOut s) (fs_args s)).

Definition do_width (ch : ascii) (before format : string) (s : fmt_state) : option fmt_next :=
  let a := fs_attr s in
  if bool_decide (ch = "*")%char then
    '(v, args) ← va_int (fs_args s);
    let a := if v <? 0
             then mkAttr (Z.lor (fa_flags a) SECUREC_FLAG_LEFT) (i32 (- v)) (fa_precision a) true (fa_dynPrecision a)
             else mkAttr (fa_flags a) v (fa_precision a) true (fa_dynPrecision a) in
    Some (Next before format (with_attr STAT_WIDTH s a args))
  else
    let w := if decide (fs_state s = STAT_WIDTH) then fa_fldWidth a else 0 in
    match add_digit w ch with
    | None => Some (Return (-1) (fs_stream s))
    | Some w =>
        Some (Next before format
                (with_attr STAT_WIDTH s (mkAttr (fa_flags a) w (fa_precision a) false (fa_dynPrecision a)) (fs_args s)))
    end.

Definition do_precis (ch : ascii) (before format : string) (s : fmt_state) : option fmt_next :=
  let a := fs_attr s in
  if bool_decide (ch = "*")%char then
    '(v, args) ← va_int (fs_args s);
    let a := mkAttr (fa_flags a) (fa_fldWidth a) (if v <? 0 then -1 else v) (fa_dynWidth a) true in
    Some (Next before format (with_attr STAT_PRECIS s a args))
  else
    match add_digit (fa_precision a) ch with
    | None => Some (Return (-1) (fs_stream s))
    | Some p =>
        Some (Next before format
                (with_attr STAT_PRECIS s (mkAttr (fa_flags a) (fa_fldWidth a) p (fa_dynWidth a) false) (fs_args s)))
    end.

Definition do_size (ch : ascii) (before format : string) (s : fmt_state) : fmt_next :=
  match SecDecodeSize ch (fs_attr s) format with
  | None => put_char ch before format s
  | Some (a, k) =>
      let '(before, format) := advance k before format in
      Next before format (with_attr STAT_SIZE s a (fs_args s))
  end.

Definition do_type (ch : ascii) (before format : string) (s : fmt_state) : option fmt_next :=
  '(c, args) ← convert ch (fs_attr s) (fs_isPrivacy s) before (fs_args s);
  let next f n := Next before format (mkFmt STAT_TYPE (fs_attr s) (fs_isPrivacy s) f n args) in
  match c with
  | ConvReturn => Some (Return (-1) (fs_stream s))
  | _ =>
      if fs_isPrivacy s then
        let '(f, n) := SecWritePrivateStr (fs_stream s) (fs_charsOut s) in Some (next f n)
      else
        match c with
        | ConvText a prefix t => let '(f, n) := write_conversion a prefix t (fs_stream s) (fs_charsOut s) in Some (next f n)
        | _ => Some (next (fs_stream s) (fs_charsOut s))
        end
  end.

(** One character of the format, with the state it leads to. *)
Definition fmt_step (priv : bool) (before format : string) (ch : ascii) (s : fmt_state) : option fmt_next :=
  match SECUREC_DECODE_STATE ch (fs_state s) with
  | STAT_NORMAL => Some (put_char ch before format s)
  | STAT_PERCENT => Some (do_percent priv before format s)
  | STAT_FLAG => Some (Next before format (with_attr STAT_FLAG s (SecDecodeFlags ch (fs_attr s)) (fs_args s)))
  | STAT_WIDTH => do_width ch before format s
  | STAT_DOT => Some (Next before format (with_attr STAT_DOT s (set_precision (fs_attr s) 0) (fs_args s)))
  | STAT_PRECIS => do_precis ch before format s
  | STAT_SIZE => Some (do_size ch before format s)
  | STAT_TYPE => do_type ch before format s
  | STAT_INVALID => Some (Return (-1) (fs_stream s))
  end.

Definition fmt_end (s : fmt_state) : Z * SecPrintfStream :=
  match fs_state s with
  | STAT_NORMAL | STAT_TYPE => (fs_charsOut s, fs_stream s)
  | _ => (-1, fs_stream s)
  end.

Fixpoint fmt_loop (fuel : nat) (priv : bool) (before format : string) (s : fmt_state) : option (Z * SecPrintfStream) :=
  match format with
  | "" => Some (fmt_end s)
  | String ch format =>
      if fs_charsOut s <? 0 then Some (fmt_end s)
      else
        match fuel with
        | O => None
        | S fuel =>
            match fmt_step priv (String ch before) format ch s with
            | None => None
            | Some (Return ret f) => Some (ret, f)
            | Some (Next before format s) => fmt_loop fuel priv before format s
            end
        end
  end.

(** Every turn of the loop passes a character. *)
Definition SecOutputPS (stream : SecPrintfStream) (priv : bool) (cformat : string) (args : list varg)
    : option (Z * SecPrintfStream) :=
  let format := cstr cformat in
  fmt_loop (String.length format) priv "" format (mkFmt STAT_NORMAL (mkAttr 0 0 0 false false) true stream 0 args).

(** The return value and the text in the buffer of [count] bytes, up to its
    terminator.  Without a terminator of the stream the rest of the buffer is
    what it was; the caller then empties the text. *)
Definition SecVsnprintfPImpl (count : Z) (priv : bool) (format : string) (args : list varg) : option (Z * string) :=
  '(retVal, str) ← SecOutputPS (mkStream count "") priv format args;
  if (0 <=? retVal) && (0 <=? st_count str - 1) then Some (retVal, st_text str)
  else if (st_count str - (if 0 <=? retVal then 1 else 0)) <? 0 then
    Some (SECUREC_PRINTF_TRUNCATE, str_take (Z.to_nat (count - 1)) (st_text str))
  else Some (-1, st_text str).

Definition vsnprintfp_s (destMax count : Z) (priv : bool) (format : string) (args : list varg) : option (Z * string) :=
  if (destMax =? 0) || (SECUREC_STRING_MAX_LEN <? destMax) ||
     ((SECUREC_STRING_MAX_LEN - 1 <? count) && negb (count =? 2 ^ (if lp64 then 64 else 32) - 1)) then Some (-1, "")
  else if count <? destMax then
    '(retVal, text) ← SecVsnprintfPImpl (count + 1) priv format args;
    if retVal =? SECUREC_PRINTF_TRUNCATE then Some (-1, text)
    else if retVal <? 0 then Some (-1, "")
    else Some (retVal, text)
  else
    '(retVal, text) ← SecVsnprintfPImpl destMax priv format args;
    if retVal <? 0 then Some (-1, "") else Some (retVal, text).
End output.
