(* ===== verification/FormatProps.v ===== *)
(** Correctness of the formatter of log texts (Format.v): it stays in its
    buffer, arguments of conversions not marked public do not influence what
    is written, and formats with the usual conversions give the text the C
    standard describes, cut at the end of the buffer. *)

From S2P Require Import Prelude Common Utils Format.
From Stdlib Require Import Ascii.

(** Splits on the outermost condition. *)
Ltac outer_if := lazymatch goal with |- (if ?b then _ else _) = _ -> _ => destruct b end.

(** ** The stream *)

Lemma str_take_app_le n a b : Z.of_nat n <= slen a -> str_take n (a +:+ b) = str_take n a.
Proof.
  revert n; induction a as [|c a IH]; intros n Hn.
  { change (slen "") with 0 in Hn. by replace n with O by lia. }
  destruct n as [|n]; [by rewrite str_cons_app|]. rewrite slen_cons in Hn. rewrite str_cons_app. cbn [str_take].
  rewrite IH by lia. done.
Qed.

(** A stream over [n] bytes on which the text [t] has been written: it holds
    all of it, or what fits, and has then failed up to [k] times. *)
Definition written (n : nat) (k : Z) (t : string) (r : SecPrintfStream * Z) : Prop :=
  (slen t <= Z.of_nat n /\ r = (mkStream (Z.of_nat n - slen t) t, slen t)) \/
  (Z.of_nat n < slen t /\ - k <= st_count r.1 < 0 /\ st_text r.1 = str_take n t /\ r.2 = -1).

Lemma written_le n k k' t r : written n k t r -> k <= k' -> written n k' t r.
Proof. intros [?|(? & ? & ?)] Hk; [by left|]. right. repeat split; try tauto. lia. Qed.

Lemma written_full n k t s r : written n k t r -> r.2 < 0 -> written n k (t +:+ s) r.
Proof.
  intros [[Ht ->]|(Ht & Hc & Hx & Hr)] E; [cbn in E; pose proof (slen_nonneg t); lia|].
  right. rewrite slen_app. pose proof (slen_nonneg s). rewrite str_take_app_le by lia. repeat split; try done; lia.
Qed.

Section stream.
Context (n : nat) (k : Z) (Hn : Z.of_nat n < 2 ^ 31) (Hk : 0 <= k).

(** Enough room is reported exactly while the text fits. *)
Lemma rest_enough t f c z :
  written n k t (f, c) -> 0 <= z <= 2 ^ 31 - k ->
  SECUREC_IS_REST_BUF_ENOUGH f z = (0 <=? c) && (slen t + z <=? Z.of_nat n).
Proof.
  intros Hw Hz. unfold SECUREC_IS_REST_BUF_ENOUGH. pose proof (slen_nonneg t).
  destruct Hw as [[Ht [= -> ->]]|(Ht & Hc & _ & Hr)]; cbn [fst snd st_count] in *; rewrite wraps_small by lia.
  - rewrite (proj2 (Z.leb_le 0 (slen t))) by done. cbn [andb].
    destruct (Z.leb_spec 0 (Z.of_nat n - slen t - z)), (Z.leb_spec (slen t + z) (Z.of_nat n)); lia.
  - subst c. cbn [Z.leb]. by destruct (Z.leb_spec 0 (st_count f - z)); [lia|].
Qed.

Lemma safe_written t s f c :
  written n k t (f, c) -> 0 <= c -> slen t + slen s <= Z.of_nat n -> written n (k + 1) (t +:+ s) (SECUREC_SAFE_WRITE s f c).
Proof.
  intros [[Ht [= -> ->]]|(Ht & Hc & _ & Hr)] H0 Hfit; [|cbn in Hr; lia].
  left. rewrite slen_app. split; [done|]. unfold SECUREC_SAFE_WRITE. cbn [st_count st_text]. do 2 f_equal. lia.
Qed.

Lemma SecWriteString_written t s f c : written n k t (f, c) -> written n (k + 1) (t +:+ s) (SecWriteString s f c).
Proof.
  revert t f c; induction s as [|ch s IH]; intros t f c Hw; cbn [SecWriteString].
  { rewrite str_app_nil_r. eapply written_le; [done|lia]. }
  destruct Hw as [[Ht [= -> ->]]|(Ht & Hc & Hx & Hr)]; cbn [fst snd st_count st_text] in *.
  - destruct (Z.leb_spec 0 (Z.of_nat n - slen t - 1)).
    + replace (t +:+ String ch s) with ((t +:+ String ch "") +:+ s) by (by rewrite <- str_app_assoc, str_cons_app, str_nil_app).
      apply IH. left. rewrite slen_app, slen_cons. change (slen "") with 0. split; [lia|]. do 2 f_equal; lia.
    + right. cbn [fst snd st_count st_text]. rewrite slen_app, slen_cons. pose proof (slen_nonneg s). split; [lia|].
      split; [lia|]. split; [|done]. assert (slen t = Z.of_nat n) by lia.
      rewrite str_take_app_le, str_take_all by lia. done.
  - destruct (Z.leb_spec 0 (st_count f - 1)); [lia|]. right. cbn [fst snd st_count st_text].
    rewrite slen_app. pose proof (slen_nonneg (String ch s)). rewrite str_take_app_le by lia. repeat split; try done; lia.
Qed.

Lemma SecWriteMultiChar_string ch m f c : SecWriteMultiChar ch m f c = SecWriteString (fill m ch) f c.
Proof. revert f c; induction m as [|m IH]; intros f c; [done|]. cbn. destruct (0 <=? st_count f - 1); [apply IH|done]. Qed.

Lemma write_text_written t s f c :
  written n k t (f, c) -> slen s <= 2 ^ 31 - k -> written n (k + 1) (t +:+ s) (write_text s f c).
Proof.
  intros Hw Hs. unfold write_text. rewrite (rest_enough t f c) by (done || (pose proof (slen_nonneg s); lia)).
  destruct (Z.leb_spec 0 c); cbn [andb]; [|by apply SecWriteString_written].
  destruct (Z.leb_spec (slen t + slen s) (Z.of_nat n)); [by apply safe_written | by apply SecWriteString_written].
Qed.

Lemma write_padding_written t ch p f c :
  written n k t (f, c) -> 0 < p <= 2 ^ 31 - k -> written n (k + 1) (t +:+ fill (Z.to_nat p) ch) (write_padding ch p f c).
Proof.
  intros Hw Hp. unfold write_padding. rewrite (rest_enough t f c) by (done || lia). rewrite SecWriteMultiChar_string.
  destruct (Z.leb_spec 0 c); cbn [andb]; [|by apply SecWriteString_written].
  destruct (Z.leb_spec (slen t + p) (Z.of_nat n)); [|by apply SecWriteString_written].
  apply safe_written; [done..|]. rewrite slen_fill. lia.
Qed.

Lemma write_char_written t ch f c : k < 2 ^ 31 -> written n k t (f, c) -> 0 <= c -> written n 1 (t +:+ String ch "") (write_char ch f c).
Proof.
  intros Hkk Hw Hc. unfold write_char. rewrite (rest_enough t f c) by (done || lia). rewrite (proj2 (Z.leb_le 0 c)) by done. cbn [andb].
  destruct Hw as [[Ht [= -> ->]]|(? & ? & ? & Hr)]; [|cbn in Hr; lia].
  destruct (Z.leb_spec (slen t + 1) (Z.of_nat n)).
  - left. unfold SECUREC_SAFE_WRITE. cbn [st_count st_text]. rewrite slen_app. change (slen (String ch "")) with 1.
    split; [lia|]. do 2 f_equal. lia.
  - right. cbn [fst snd st_count st_text]. rewrite slen_app. change (slen (String ch "")) with 1. split; [lia|].
    split; [lia|]. rewrite str_take_app_le, str_take_all by lia. done.
Qed.
End stream.

(** ** One conversion *)

(** The text [s] with its prefix and a padding of [p]. *)
Definition layout (a : SecFormatAttr) (p : Z) (pre s : string) : string :=
  let left := has_flag a SECUREC_FLAG_LEFT in
  let zero := has_flag a SECUREC_FLAG_LEADZERO in
  (if negb (left || zero) then fill (Z.to_nat p) " " else "") +:+ pre +:+
  (if zero && negb left then fill (Z.to_nat p) "0" else "") +:+ s +:+ (if left then fill (Z.to_nat p) " " else "").

Definition padding_of (a : SecFormatAttr) (len : Z) (pre : string) : Z := i32 (i32 (fa_fldWidth a - len) - slen pre).

Lemma sign_prefix_len a prefix : slen prefix <= 2 -> slen (sign_prefix a prefix) <= 2.
Proof.
  intros H. unfold sign_prefix. destruct (has_flag a SECUREC_FLAG_SIGNED); [|done].
  destruct (has_flag a SECUREC_FLAG_NEGATIVE); [done|]. destruct (has_flag a SECUREC_FLAG_SIGN); [done|].
  by destruct (has_flag a SECUREC_FLAG_SIGN_SPACE).
Qed.

(** An optional padding: written under a condition, or empty. *)
Lemma write_pad_if n k k' (b : bool) ch p t f c :
  Z.of_nat n < 2 ^ 31 -> 0 <= k -> (if b then k + 1 else k) <= k' -> (b = true -> p <= 2 ^ 31 - k) -> written n k t (f, c) ->
  written n k' (t +:+ (if b then fill (Z.to_nat p) ch else "")) (if b && (0 <? p) then write_padding ch p f c else (f, c)).
Proof.
  intros Hn Hk Hk' Hp Hw. destruct b; cbn [andb]; [|by rewrite str_app_nil_r; eapply written_le].
  specialize (Hp eq_refl). destruct (Z.ltb_spec 0 p); [eapply written_le; [by apply (write_padding_written n k)|done]|].
  replace (Z.to_nat p) with O by lia. cbn [fill]. rewrite str_app_nil_r. eapply written_le; [done|lia].
Qed.

Lemma write_prefix_written n k pre t f c :
  Z.of_nat n < 2 ^ 31 -> 0 <= k -> slen pre <= 2 ^ 31 - k -> written n k t (f, c) ->
  written n (k + 1) (t +:+ pre) (if bool_decide (pre = "") then (f, c) else write_text pre f c).
Proof.
  intros Hn Hk Hp Hw. case_bool_decide as Hpe; [|by apply (write_text_written n k)].
  rewrite Hpe, str_app_nil_r. eapply written_le; [done|lia].
Qed.

(** Before the text: blanks, prefix, zeros. *)
Lemma write_front_written n (left zero : bool) p pre t f c :
  Z.of_nat n < 2 ^ 31 -> p < 2 ^ 31 -> slen pre <= 2 -> written n 0 t (f, c) ->
  written n 2 (t +:+ (if negb (left || zero) then fill (Z.to_nat p) " " else "") +:+ pre +:+
                 (if zero && negb left then fill (Z.to_nat p) "0" else ""))
    (let '(f, c) := if negb (left || zero) && (0 <? p) then write_padding " " p f c else (f, c) in
     let '(f, c) := if bool_decide (pre = "") then (f, c) else write_text pre f c in
     if zero && negb left && (0 <? p) then write_padding "0" p f c else (f, c)).
Proof.
  intros Hn Hp Hpre H0. set (b := negb (left || zero)).
  pose proof (write_pad_if n 0 (if b then 1 else 0) b " "%char p t f c Hn ltac:(lia) ltac:(by destruct b) ltac:(lia) H0) as Ha.
  destruct (if b && (0 <? p) then write_padding _ _ _ _ else _) as [f1 c1].
  pose proof (write_prefix_written n (if b then 1 else 0) pre _ f1 c1 Hn ltac:(by destruct b) ltac:(destruct b; lia) Ha) as Hb.
  destruct (if bool_decide (pre = "") then (f1, c1) else _) as [f2 c2]. rewrite !str_app_assoc.
  apply (write_pad_if n ((if b then 1 else 0) + 1)); subst b; destruct left, zero; cbn [negb orb andb]; try done; lia.
Qed.

Lemma write_conversion_written wctomb n t a prefix s f c :
  Z.of_nat n < 2 ^ 31 -> slen prefix <= 2 -> slen s <= 2 ^ 31 - 2 -> written n 0 t (f, c) ->
  written n 4 (t +:+ layout a (padding_of a (slen s) (sign_prefix a prefix)) (sign_prefix a prefix) s)
    (write_conversion wctomb a prefix (Narrow s) f c).
Proof.
  intros Hn Hpre Hs H0. unfold write_conversion, layout. cbn [text_len].
  change (i32 (i32 (fa_fldWidth a - slen s) - slen (sign_prefix a prefix))) with (padding_of a (slen s) (sign_prefix a prefix)).
  set (pre := sign_prefix a prefix). set (p := padding_of a (slen s) pre). assert (p < 2 ^ 31) as Hp by (apply wraps_range; lia).
  set (left := has_flag a SECUREC_FLAG_LEFT). set (zero := has_flag a SECUREC_FLAG_LEADZERO).
  pose proof (write_front_written n left zero p pre t f c Hn Hp (sign_prefix_len a prefix Hpre) H0) as Ha. cbv zeta in Ha.
  destruct (if negb (left || zero) && (0 <? p) then write_padding _ _ _ _ else _) as [f1 c1].
  destruct (if bool_decide (pre = "") then (f1, c1) else _) as [f2 c2].
  destruct (if zero && negb left && (0 <? p) then write_padding _ _ _ _ else _) as [f3 c3].
  pose proof (write_text_written n 2 Hn ltac:(lia) _ s f3 c3 Ha Hs) as Hb.
  destruct (write_text s f3 c3) as [f4 c4]. rewrite !str_app_assoc in Hb. rewrite !str_app_assoc. destruct (Z.leb_spec 0 c4); cbn [andb].
  - destruct Hb as [Hb|(_ & _ & _ & E)]; [|cbn in E; lia].
    apply (write_pad_if n 0); [done | lia | by destruct left | lia | by left].
  - eapply written_le; [apply written_full; [exact Hb | cbn [snd]; lia] | lia].
Qed.

(** ** The loop *)

Lemma advance_le k b f : (String.length (advance k b f).2 <= String.length f)%nat.
Proof.
  revert b f; induction k as [|k IH]; intros b [|c f]; cbn [advance]; try (cbn; lia).
  etransitivity; [apply IH|]. cbn. lia.
Qed.

Section loop.
Context (lp64 char_signed : bool) (wctomb : Z -> option string) (malloc : Z -> bool).
Context (vsprintf_s : Z -> string -> list Z -> Z -> option string) (priv : bool).
Let step := fmt_step lp64 char_signed wctomb malloc vsprintf_s priv.
Let loop fuel := fmt_loop lp64 char_signed wctomb malloc vsprintf_s fuel priv.

Lemma fmt_step_shrinks b f ch s b' f' s' : step b f ch s = Some (Next b' f' s') -> (String.length f' <= String.length f)%nat.
Proof.
  unfold step, fmt_step, put_char, do_percent, do_width, do_precis, do_size, do_type.
  destruct (SECUREC_DECODE_STATE ch (fs_state s)).
  - destruct (write_char _ _ _). intros [= <- <- <-]. done.
  - destruct (privacy_mark _ _) as [p k]. pose proof (advance_le k b f). destruct (advance k b f). by intros [= <- <- <-].
  - by intros [= <- <- <-].
  - case_bool_decide.
    + destruct (va_int _ _) as [[]|]; [|done]. by intros [= <- <- <-].
    + destruct (add_digit _ _); [|done]. by intros [= <- <- <-].
  - by intros [= <- <- <-].
  - case_bool_decide.
    + destruct (va_int _ _) as [[]|]; [|done]. by intros [= <- <- <-].
    + destruct (add_digit _ _); [|done]. by intros [= <- <- <-].
  - destruct (SecDecodeSize _ _ _ _) as [[a k]|].
    + pose proof (advance_le k b f). destruct (advance k b f). by intros [= <- <- <-].
    + unfold put_char. destruct (write_char _ _ _). by intros [= <- <- <-].
  - destruct (convert _ _ _ _ _ _ _ _ _ _) as [[c args]|]; [|done]. cbn.
    destruct c; [done|..]; destruct (fs_isPrivacy s); try destruct (SecWritePrivateStr _ _);
      try destruct (write_conversion _ _ _ _ _ _); by intros [= <- <- <-].
  - done.
Qed.

(** More fuel than characters changes nothing. *)
Lemma fmt_loop_fuel fuel fuel' b f s :
  (String.length f <= fuel)%nat -> (String.length f <= fuel')%nat -> loop fuel b f s = loop fuel' b f s.
Proof.
  revert fuel' b f s; induction fuel as [|fuel IH]; intros fuel' b [|ch f] s H H'; cbn [String.length] in *;
    try lia; try (by destruct fuel').
  destruct fuel' as [|fuel']; [lia|]. unfold loop. cbn [fmt_loop]. destruct (fs_charsOut s <? 0); [done|].
  pose proof (fmt_step_shrinks (String ch b) f ch s) as Hs. unfold step in Hs.
  destruct (fmt_step _ _ _ _ _ _ _ _ _) as [[b' f' s'|]|]; try done.
  apply IH; specialize (Hs b' f' s' eq_refl); lia.
Qed.

Definition run (b f : string) (s : fmt_state) : option (Z * SecPrintfStream) := loop (String.length f) b f s.

Lemma run_cons b ch f s :
  0 <= fs_charsOut s ->
  run b (String ch f) s = match step (String ch b) f ch s with
                          | None => None
                          | Some (Return ret st) => Some (ret, st)
                          | Some (Next b' f' s') => run b' f' s'
                          end.
Proof.
  intros Hc. unfold run, loop. cbn [String.length fmt_loop]. rewrite (proj2 (Z.ltb_ge _ _) Hc).
  pose proof (fmt_step_shrinks (String ch b) f ch s) as Hs. unfold step in *.
  destruct (fmt_step _ _ _ _ _ _ _ _ _) as [[b' f' s'|]|]; try done.
  apply fmt_loop_fuel; [exact (Hs _ _ _ eq_refl) | done].
Qed.

Lemma run_nil b s : run b "" s = Some (fmt_end s).
Proof. done. Qed.

(** Some turns of the loop at once. *)
Fixpoint turns (k : nat) (b f : string) (s : fmt_state) : option (string * string * fmt_state) :=
  match k, f with
  | O, _ => Some (b, f, s)
  | S k, String ch f =>
      if fs_charsOut s <? 0 then None
      else match step (String ch b) f ch s with Some (Next b f s) => turns k b f s | _ => None end
  | _, _ => None
  end.
Lemma run_turns k b f s b' f' s' : turns k b f s = Some (b', f', s') -> run b f s = run b' f' s'.
Proof.
  revert b f s; induction k as [|k IH]; intros b f s; cbn [turns]; [by destruct f; intros [= <- <- <-]|].
  destruct f as [|ch f]; [done|]. destruct (Z.ltb_spec (fs_charsOut s) 0); [done|]. intros E. rewrite run_cons by done.
  destruct (step (String ch b) f ch s) as [[b1 f1 s1|]|]; [by apply IH | done..].
Qed.

Lemma run_full b f s : fs_charsOut s < 0 -> run b f s = Some (fmt_end s).
Proof. intros Hc. unfold run, loop. destruct f; [done|]. cbn [String.length fmt_loop]. by rewrite (proj2 (Z.ltb_lt _ _) Hc). Qed.
End loop.

(** ** Staying in the buffer *)

(** The text never leaves the [n] bytes, is counted while it fits, and fills
    them when the count has become negative. *)
Definition in_buffer (n : nat) (r : SecPrintfStream * Z) : Prop :=
  slen (st_text r.1) <= Z.of_nat n /\
  ((r.2 = slen (st_text r.1) /\ st_count r.1 = Z.of_nat n - slen (st_text r.1)) \/
   (r.2 = -1 /\ (st_count r.1 < 0 -> slen (st_text r.1) = Z.of_nat n))).

Lemma written_in_buffer n k t r : written n k t r -> in_buffer n r.
Proof.
  intros [[Ht ->]|(Ht & Hc & Hx & Hr)]; unfold in_buffer; cbn [fst snd st_count st_text].
  - split; [done|]. by left.
  - rewrite Hx, slen_take. split; [lia|]. right. split; [done|]. intros _. lia.
Qed.

Lemma live_written n r : in_buffer n r -> 0 <= r.2 -> written n 0 (st_text r.1) r.
Proof.
  destruct r as [[c t] ch]. intros [Ht H] Hc. cbn [fst snd st_count st_text] in *.
  destruct H as [[-> ->]|[-> _]]; [by left | lia].
Qed.

Lemma write_wide_in_buffer wctomb n k l t f c : 0 <= k -> written n k t (f, c) -> in_buffer n (write_wide wctomb l f c).
Proof.
  revert k t f c; induction l as [|w l IH]; intros k t f c Hk Hw; cbn [write_wide]; [by eapply written_in_buffer|].
  assert (in_buffer n (f, -1)) as Hf.
  { destruct (written_in_buffer _ _ _ _ Hw) as [Ht H]. split; [done|]. right. split; [done|]. cbn [fst snd] in *.
    intros Hneg. destruct H as [[_ ?]|[_ ?]]; [lia|auto]. }
  destruct (wctomb w) as [[|ch s]|]; [done| |done].
  pose proof (SecWriteString_written n k Hk t (String ch s) f c Hw) as Hs.
  destruct (SecWriteString (String ch s) f c) as [f' c']. eapply (IH (k + 1)); [lia|done].
Qed.

Lemma slen_special fuel digits base v buf : slen (SECUREC_SPECIAL fuel digits base v buf) <= Z.of_nat fuel + slen buf.
Proof.
  revert v buf; induction fuel as [|fuel IH]; intros v buf; cbn [SECUREC_SPECIAL]; [lia|].
  destruct (v / base =? 0); [rewrite slen_cons; lia|]. etransitivity; [apply IH|]. rewrite slen_cons. lia.
Qed.
Lemma slen_fast_dec fuel digits v buf : slen (fast_dec fuel digits v buf) <= Z.of_nat fuel + slen buf.
Proof.
  revert v buf; induction fuel as [|fuel IH]; intros v buf; cbn [fast_dec]; [lia|].
  destruct (fast_div10 v =? 0); [rewrite slen_cons; lia|]. etransitivity; [apply IH|]. rewrite slen_cons. lia.
Qed.
Lemma slen_number_digits lp64 digits radix v : slen (number_digits lp64 digits radix v) <= 64.
Proof.
  unfold number_digits. destruct (v =? 0); [done|].
  destruct (negb lp64 && (v <=? 0xFFFFFFFF) && (radix =? 10)); [apply (slen_fast_dec 64) | apply (slen_special 64)].
Qed.

(** The digits of an integer fit in the local buffer. *)
Lemma slen_int_text lp64 a digits radix v precision :
  precision <= SECUREC_MAX_PRECISION -> slen (int_text lp64 a digits radix v precision) <= SECUREC_BUFFER_SIZE.
Proof.
  intros Hp. unfold int_text, SECUREC_MAX_PRECISION, SECUREC_BUFFER_SIZE in *.
  pose proof (slen_number_digits lp64 digits radix v). set (d := number_digits lp64 digits radix v) in *. pose proof (slen_nonneg d).
  destruct (Z.to_nat (precision - slen d)) as [|m] eqn:Em.
  - cbn [fill]. rewrite str_nil_app. destruct (has_flag a SECUREC_FLAG_FORCE_OCTAL && _); [rewrite slen_cons|]; lia.
  - cbn [fill]. rewrite str_cons_app. cbn [str_head]. rewrite bool_decide_true by done. cbn [negb]. rewrite andb_false_r.
    rewrite slen_cons, slen_app, slen_fill. lia.
Qed.

(** What the library promises: at most MB_LEN_MAX bytes for a wide character,
    and texts that end in the buffer. *)
Definition libc_ok (wctomb : Z -> option string) (vsprintf_s : Z -> string -> list Z -> Z -> option string) : Prop :=
  (forall c s, wctomb c = Some s -> slen s <= 16) /\
  (forall m f d v s, vsprintf_s m f d v = Some s -> slen s < Z.min m SECUREC_STRING_MAX_LEN).
(** A string is shorter than an [int] can count. *)
Definition arg_fits (v : varg) : Prop := match v with VStr (Some s) => slen s <= 2 ^ 31 - 2 | _ => True end.

Section bounds.
Context (lp64 char_signed : bool) (wctomb : Z -> option string) (malloc : Z -> bool).
Context (vsprintf_s : Z -> string -> list Z -> Z -> option string) (Hlib : libc_ok wctomb vsprintf_s).

Definition conversion_ok (c : conversion) : Prop :=
  match c with ConvText _ prefix (Narrow s) => slen prefix <= 2 /\ slen s <= 2 ^ 31 - 2 | ConvText _ prefix _ => slen prefix <= 2 | _ => True end.

Lemma va_int_cons args v rest : va_int lp64 args = Some (v, rest) -> exists a, args = a :: rest.
Proof. destruct args as [|[] args]; try done; cbn; [intros [= _ <-]; eauto|]. destruct lp64; [done|]. intros [= _ <-]; eauto. Qed.
Lemma va_int64_cons args v rest : va_int64 lp64 args = Some (v, rest) -> exists a, args = a :: rest.
Proof. destruct args as [|[] args]; try done; cbn; [intros [= _ <-]; eauto|]. destruct lp64; [|done]. intros [= _ <-]; eauto. Qed.
Lemma va_double_cons args v rest : va_double args = Some (v, rest) -> exists a, args = a :: rest.
Proof. destruct args as [|[] args]; try done. cbn. intros [= _ <-]. eauto. Qed.
Lemma va_ptr_cons args v rest : va_ptr args = Some (v, rest) -> args = v :: rest.
Proof. destruct args as [|[] args]; try done; cbn; by intros [= <- <-]. Qed.

Lemma read_int_cons a args r rest : read_int lp64 char_signed a args = Some (r, rest) -> exists x, args = x :: rest.
Proof.
  unfold read_int. destruct (_ || _ || _).
  - destruct (va_int64 lp64 args) as [[v r']|] eqn:E; [|done]. cbn. intros [= _ <-]. by eapply va_int64_cons.
  - destruct (va_int lp64 args) as [[v r']|] eqn:E; [|done]. cbn. intros [= _ <-]. by eapply va_int_cons.
Qed.

Lemma int_conversion_ok a digits radix prefix l :
  slen prefix <= 2 -> conversion_ok (int_conversion lp64 a digits radix prefix l).
Proof.
  intros Hp. unfold int_conversion.
  destruct (if has_flag a SECUREC_FLAG_SIGNED && (l <? 0) then (u64 (- l), _) else _) as [number a2].
  destruct (if fa_precision a2 <? 0 then (a2, 1) else _) as [a3 pr] eqn:Ep.
  assert (pr <= SECUREC_MAX_PRECISION) as Hpr.
  { destruct (fa_precision a2 <? 0); injection Ep as <- <-; unfold SECUREC_MAX_PRECISION, SECUREC_BUFFER_SIZE; lia. }
  cbn [conversion_ok]. split.
  { destruct (_ =? 0); [change (slen "") with 0; lia | done]. }
  etransitivity; [by apply slen_int_text | done].
Qed.

Lemma output_int_ok a digits radix prefix p args c rest :
  slen prefix <= 2 -> output_int lp64 char_signed a digits radix prefix p args = Some (c, rest) ->
  conversion_ok c /\ exists x, args = x :: rest.
Proof.
  intros Hp. unfold output_int. destruct (read_int _ _ a args) as [[[l a'] r]|] eqn:E; [|done]. cbn.
  apply read_int_cons in E. intros [= <- <-]. split; [|done]. destruct p; [done | by apply int_conversion_ok].
Qed.

Lemma float_conv_ok ch a p before args c rest :
  float_conv malloc vsprintf_s ch a p before args = Some (c, rest) ->
  conversion_ok c /\ (rest = args \/ exists x, args = x :: rest).
Proof using Hlib.
  unfold float_conv. destruct p.
  { destruct (va_double args) as [[v r]|] eqn:E; [|done]. cbn. intros [= <- <-]. split; [done|]. right. by eapply va_double_cons. }
  cbv beta iota zeta. do 3 (outer_if; [by intros [= <- <-]; split; [|left]|]). destruct (va_double args) as [[v r]|] eqn:E; [|done]. cbn.
  apply va_double_cons in E. destruct (vsprintf_s _ _ _ _) as [t|] eqn:Et; intros [= <- <-]; (split; [|by right]); [|done].
  apply (proj2 Hlib) in Et. unfold SECUREC_STRING_MAX_LEN in Et. cbn [conversion_ok]. change (slen "") with 0. lia.
Qed.

Lemma convert_c_ok a p args c rest :
  convert_c lp64 wctomb a p args = Some (c, rest) -> conversion_ok c /\ exists x, args = x :: rest.
Proof using Hlib.
  unfold convert_c. destruct (va_int lp64 args) as [[v r]|] eqn:E; [|done]. cbn. intros [= <- <-].
  split; [|by eapply va_int_cons]. destruct p; [done|]. unfold SecDecodeTypeC. destruct (has_flag _ _).
  - destruct (wctomb _) as [s|] eqn:Ew; [|done]. apply (proj1 Hlib) in Ew. cbn [conversion_ok]. change (slen "") with 0. lia.
  - cbn [conversion_ok]. change (slen "") with 0. rewrite slen_cons. change (slen "") with 0. lia.
Qed.

Lemma convert_s_ok a p args c rest :
  Forall arg_fits args -> convert_s a p args = Some (c, rest) -> conversion_ok c /\ exists x, args = x :: rest.
Proof.
  intros Hargs. unfold convert_s. destruct (va_ptr args) as [[v r]|] eqn:E; [|done]. cbn. apply va_ptr_cons in E as ->.
  apply Forall_cons_1 in Hargs as [Hv _].
  destruct p; [intros [= <- <-]; split; [done|eauto]|]. destruct (SecDecodeTypeS a v) as [c'|] eqn:Es; [|by intros]. cbn. intros [= <- <-].
  split; [|eauto]. revert Es. unfold SecDecodeTypeS. destruct (has_flag _ _), v as [| | |[s|]|[l|]|]; try done;
    intros [= <-]; cbn [conversion_ok]; change (slen "") with 0; try lia; rewrite slen_take; cbn in Hv; (split; [lia|]).
  - pose proof (slen_nonneg s). lia.
  - change (slen strNullString) with 6. lia.
  - change (slen strNullString) with 6. lia.
Qed.

Lemma hex_prefix_len a digits :
  slen (if has_flag a SECUREC_FLAG_ALTERNATE then String "0" (String (digit_at digits 16) "") else "") <= 2.
Proof. destruct (has_flag _ _); rewrite ?slen_cons; change (slen "") with 0; lia. Qed.

Lemma output_hex_ok a digits p args c rest :
  output_hex lp64 char_signed a digits p args = Some (c, rest) -> conversion_ok c /\ exists x, args = x :: rest.
Proof. apply output_int_ok, hex_prefix_len. Qed.

Lemma convert_ok ch a p before args c rest :
  Forall arg_fits args -> convert lp64 char_signed wctomb malloc vsprintf_s ch a p before args = Some (c, rest) ->
  conversion_ok c /\ Forall arg_fits rest.
Proof using Hlib.
  intros Hargs E. enough (conversion_ok c /\ (rest = args \/ exists x, args = x :: rest)) as [? Hr].
  { split; [done|]. destruct Hr as [->|[x ->]]; [done|]. by apply Forall_cons_1 in Hargs as [_ ?]. }
  assert (forall P Q : Prop, P /\ Q -> P /\ (rest = args \/ Q)) as Hw by tauto.
  revert E. unfold convert. set (fl := if lp64 then SECUREC_FLAG_I64 else SECUREC_FLAG_LONG).
  set (pr := 2 * (if lp64 then 8 else 4)). clearbody fl pr. repeat case_match; intros E;
    lazymatch type of E with
    | convert_c _ _ _ _ _ = _ => exact (Hw _ _ (convert_c_ok _ _ _ _ _ E))
    | convert_s _ _ _ = _ => exact (Hw _ _ (convert_s_ok _ _ _ _ _ Hargs E))
    | float_conv _ _ _ _ _ _ _ = _ => exact (float_conv_ok _ _ _ _ _ _ _ E)
    | output_hex _ _ _ _ _ _ = _ => exact (Hw _ _ (output_hex_ok _ _ _ _ _ _ E))
    | output_int _ _ _ _ _ _ _ _ = _ => refine (Hw _ _ (output_int_ok _ _ _ _ _ _ _ _ _ E)); done
    | _ => injection E as <- <-; split; [done | by left]
    end.
Qed.

Context (n : nat) (Hn : Z.of_nat n < 2 ^ 31).
Definition state_ok (s : fmt_state) : Prop := in_buffer n (fs_stream s, fs_charsOut s) /\ Forall arg_fits (fs_args s).
Definition next_ok (r : fmt_next) : Prop :=
  match r with Next _ _ s => state_ok s | Return ret f => in_buffer n (f, ret) end.

Lemma write_conversion_in_buffer a prefix t f c :
  conversion_ok (ConvText a prefix t) -> in_buffer n (f, c) -> 0 <= c -> in_buffer n (write_conversion wctomb a prefix t f c).
Proof using Hn.
  intros Hc Hb H0. pose proof (live_written n (f, c) Hb H0) as Hw. cbn [fst] in Hw. destruct t as [s|l].
  { destruct Hc. eapply written_in_buffer. by apply write_conversion_written. }
  cbn in Hc. unfold write_conversion. set (p := i32 _). set (pre := sign_prefix a prefix).
  assert (p < 2 ^ 31) as Hp by (apply wraps_range; lia).
  set (left := has_flag a SECUREC_FLAG_LEFT). set (zero := has_flag a SECUREC_FLAG_LEADZERO).
  pose proof (write_front_written n left zero p pre _ f c Hn Hp (sign_prefix_len a prefix Hc) Hw) as Ha. cbv zeta in Ha.
  destruct (if negb (left || zero) && (0 <? p) then write_padding _ _ _ _ else _) as [f1 c1].
  destruct (if bool_decide (pre = "") then (f1, c1) else _) as [f2 c2].
  destruct (if zero && negb left && (0 <? p) then write_padding _ _ _ _ else _) as [f3 c3].
  assert (in_buffer n (match l with [] => write_text "" f3 c3 | _ => write_wide wctomb l f3 c3 end)) as Hb'.
  { destruct l; [|eapply write_wide_in_buffer; [|exact Ha]; lia].
    eapply written_in_buffer, (write_text_written n 2); [done | lia | exact Ha | change (slen "") with 0; lia]. }
  destruct (match l with [] => _ | _ => _ end) as [f4 c4]. destruct (Z.leb_spec 0 c4); cbn [andb]; [|done].
  eapply written_in_buffer, (write_pad_if n 0 4); [done | lia | by destruct left | lia | by apply live_written].
Qed.

Lemma fmt_step_in_buffer priv b f ch s r :
  state_ok s -> 0 <= fs_charsOut s -> fmt_step lp64 char_signed wctomb malloc vsprintf_s priv b f ch s = Some r -> next_ok r.
Proof using Hlib Hn.
  intros [Hb Ha] H0. pose proof (live_written n _ Hb H0) as Hw. cbn [fst snd] in *.
  assert (in_buffer n (fs_stream s, -1)) as Hret.
  { destruct Hb as [Ht H]. split; [done|]. right. split; [done|]. cbn [fst snd] in *. destruct H as [[_ H]|[H _]]; lia. }
  assert (forall b f, next_ok (put_char ch b f s)) as Hput.
  { intros b' f'. unfold put_char. pose proof (write_char_written n 0 Hn ltac:(lia) _ ch _ _ ltac:(lia) Hw H0) as Hc.
    destruct (write_char ch (fs_stream s) (fs_charsOut s)) as [st c]. split; [by eapply written_in_buffer | done]. }
  unfold fmt_step. destruct (SECUREC_DECODE_STATE ch (fs_state s)).
  - intros [= <-]. apply Hput.
  - unfold do_percent. destruct (privacy_mark _ _) as [p k]. destruct (advance _ _ _). intros [= <-]. by split.
  - intros [= <-]. by split.
  - unfold do_width. case_bool_decide.
    + destruct (va_int _ _) as [[v rest]|] eqn:E; [|done]. cbn. intros [= <-]. apply va_int_cons in E as [x E].
      split; [done|]. cbn. rewrite E in Ha. by apply Forall_cons_1 in Ha as [_ ?].
    + destruct (add_digit _ _); intros [= <-]; [by split | done].
  - intros [= <-]. by split.
  - unfold do_precis. case_bool_decide.
    + destruct (va_int _ _) as [[v rest]|] eqn:E; [|done]. cbn. intros [= <-]. apply va_int_cons in E as [x E].
      split; [done|]. cbn. rewrite E in Ha. by apply Forall_cons_1 in Ha as [_ ?].
    + destruct (add_digit _ _); intros [= <-]; [by split | done].
  - unfold do_size. destruct (SecDecodeSize _ _ _ _) as [[a k]|]; [|intros [= <-]; apply Hput].
    destruct (advance _ _ _). intros [= <-]. by split.
  - unfold do_type. destruct (convert _ _ _ _ _ _ _ _ _ _) as [[c args]|] eqn:E; [|done].
    apply convert_ok in E as [Hc Hargs]; [|done]. change (Some ?x ≫= ?f) with (f x). cbv beta iota zeta.
    assert (forall p, next_ok (let '(st, c) := SecWritePrivateStr (fs_stream s) (fs_charsOut s) in
              Next b f (mkFmt STAT_TYPE (fs_attr s) p st c args))) as Hp.
    { intros p. pose proof (write_text_written n 0 Hn ltac:(lia) _ PRIVACY_STRING _ _ Hw ltac:(change (slen PRIVACY_STRING) with 9; lia)) as Hp.
      unfold SecWritePrivateStr. destruct (write_text _ _ _). split; [by eapply written_in_buffer | done]. }
    destruct c as [| |a prefix t]; [by intros [= <-]|..]; destruct (fs_isPrivacy s) eqn:Ei.
    1,3: specialize (Hp true); destruct (SecWritePrivateStr _ _); intros [= <-]; exact Hp.
    + intros [= <-]. by split.
    + pose proof (write_conversion_in_buffer a prefix t _ _ Hc Hb H0) as Hwc.
      destruct (write_conversion _ _ _ _ _ _). intros [= <-]. by split.
  - by intros [= <-].
Qed.

Lemma in_buffer_fail f c : in_buffer n (f, c) -> in_buffer n (f, -1).
Proof. intros [Ht H]. split; [done|]. right. split; [done|]. cbn [fst snd] in *. intros Hc. destruct H as [[_ H]|[_ H]]; [lia|auto]. Qed.

Lemma fmt_loop_in_buffer fuel priv b f s r :
  state_ok s -> fmt_loop lp64 char_signed wctomb malloc vsprintf_s fuel priv b f s = Some r -> in_buffer n (r.2, r.1).
Proof using Hlib Hn.
  assert (forall s, state_ok s -> in_buffer n ((fmt_end s).2, (fmt_end s).1)) as Hend.
  { intros s0 [Hb _]. unfold fmt_end. destruct (fs_state s0); try done; by eapply in_buffer_fail. }
  revert b f s; induction fuel as [|fuel IH]; intros b [|ch f] s Hs; cbn [fmt_loop].
  1,3: intros [= <-]; by apply Hend.
  { destruct (fs_charsOut s <? 0); [|done]. intros [= <-]. by apply Hend. }
  destruct (Z.ltb_spec (fs_charsOut s) 0); [intros [= <-]; by apply Hend|].
  destruct (fmt_step _ _ _ _ _ _ _ _ _) as [x|] eqn:E; [|done]. apply fmt_step_in_buffer in E; [|done..].
  destruct x as [b' f' s'|ret st]; [by apply IH|]. by intros [= <-].
Qed.

(** What the formatter writes, terminator apart, never leaves its buffer. *)
Lemma SecOutputPS_in_buffer priv format args r f :
  Forall arg_fits args -> SecOutputPS lp64 char_signed wctomb malloc vsprintf_s (mkStream (Z.of_nat n) "") priv format args = Some (r, f) ->
  in_buffer n (f, r).
Proof using Hlib Hn.
  intros Hargs E. apply fmt_loop_in_buffer in E; [done|].
  split; [|done]. split; cbn [fst snd fs_stream fs_charsOut st_text st_count]; change (slen "") with 0; [lia|left]. lia.
Qed.

Lemma SecVsnprintfPImpl_in_buffer priv format args ret text :
  (0 < n)%nat -> Forall arg_fits args ->
  SecVsnprintfPImpl lp64 char_signed wctomb malloc vsprintf_s (Z.of_nat n) priv format args = Some (ret, text) ->
  (ret = slen text /\ slen text < Z.of_nat n) \/ (ret = SECUREC_PRINTF_TRUNCATE /\ slen text = Z.of_nat n - 1) \/ ret = -1.
Proof using Hlib Hn.
  intros Hpos Hargs. unfold SecVsnprintfPImpl.
  destruct (SecOutputPS _ _ _ _ _ _ _ _ _) as [[r st]|] eqn:E; [|done]. change (Some ?x ≫= ?f) with (f x). cbv beta iota.
  apply SecOutputPS_in_buffer in E as [Ht H]; [|done]. cbn [fst snd] in *. pose proof (slen_nonneg (st_text st)).
  destruct (Z.leb_spec 0 r); cbn [andb].
  - destruct H as [[-> Hc]|[? _]]; [|lia]. destruct (Z.leb_spec 0 (st_count st - 1)).
    { intros [= <- <-]. left. lia. }
    destruct (Z.ltb_spec (st_count st - 1) 0); [|lia]. intros [= <- <-]. right; left. rewrite slen_take. lia.
  - destruct H as [[-> _]|[-> Hc]]; [lia|]. destruct (Z.ltb_spec (st_count st - 0) 0); intros [= <- <-]; [|by auto].
    right; left. rewrite slen_take. lia.
Qed.
End bounds.

(** The text and its terminator fit. *)
Lemma vsnprintfp_in_buffer lp64 char_signed wctomb malloc vsprintf_s destMax count priv format args ret text :
  libc_ok wctomb vsprintf_s -> Forall arg_fits args -> 0 < destMax <= SECUREC_STRING_MAX_LEN -> 0 <= count ->
  vsnprintfp_s lp64 char_signed wctomb malloc vsprintf_s destMax count priv format args = Some (ret, text) ->
  slen text < destMax /\ slen text <= count /\ (ret = slen text \/ ret = -1 /\ (text = "" \/ slen text = count)).
Proof.
  intros Hlib Hargs Hd Hc. unfold vsnprintfp_s. pose proof Hd as Hd'. unfold SECUREC_STRING_MAX_LEN in Hd'.
  assert (slen "" < destMax /\ slen "" <= count /\ (-1 = slen "" \/ -1 = -1 /\ ("" = "" \/ slen "" = count))) as Hempty.
  { change (slen "") with 0. repeat split; [lia..|]. right. auto. }
  outer_if; [by intros [= <- <-]|]. destruct (Z.ltb_spec count destMax).
  - destruct (SecVsnprintfPImpl _ _ _ _ _ _ _ _ _) as [[r t]|] eqn:E; [|done]. change (Some ?x ≫= ?f) with (f x). cbv beta iota.
    replace (count + 1) with (Z.of_nat (Z.to_nat (count + 1))) in E by lia.
    apply SecVsnprintfPImpl_in_buffer in E as [[-> Ht]|[[-> Ht]| ->]]; try done; try lia; pose proof (slen_nonneg t).
    + destruct (Z.eqb_spec (slen t) SECUREC_PRINTF_TRUNCATE) as [E|_]; [unfold SECUREC_PRINTF_TRUNCATE in E; lia|].
      destruct (Z.ltb_spec (slen t) 0); [lia|]. intros [= <- <-]. lia.
    + cbn. intros [= <- <-]. lia.
    + cbn. by intros [= <- <-].
  - destruct (SecVsnprintfPImpl _ _ _ _ _ _ _ _ _) as [[r t]|] eqn:E; [|done]. change (Some ?x ≫= ?f) with (f x). cbv beta iota.
    replace destMax with (Z.of_nat (Z.to_nat destMax)) in E by lia.
    apply SecVsnprintfPImpl_in_buffer in E as [[-> Ht]|[[-> Ht]| ->]]; try done; try lia; pose proof (slen_nonneg t).
    + destruct (Z.ltb_spec (slen t) 0); [lia|]. intros [= <- <-]. lia.
    + cbn. by intros [= <- <-].
    + cbn. by intros [= <- <-].
Qed.

(** C13: the formatter stays in its buffer: whatever the format and the
    arguments, as long as these are there and fit their conversions, every byte
    that is ever written goes to the first [count + 1] bytes of the buffer and
    to its first [destMax] bytes.  The text that is left has at most [count]
    characters and room for its terminator in [destMax] bytes; the return value
    is its length, or -1, and then the text is empty or was cut after exactly
    [count] characters. *)
Theorem format_in_buffer lp64 char_signed wctomb malloc vsprintf_s destMax count priv format args ret text :
  let space := Z.min (count + 1) destMax in
  libc_ok wctomb vsprintf_s -> Forall arg_fits args -> 0 < destMax <= SECUREC_STRING_MAX_LEN -> 0 <= count ->
  vsnprintfp_s lp64 char_signed wctomb malloc vsprintf_s destMax count priv format args = Some (ret, text) ->
  (forall r f, SecOutputPS lp64 char_signed wctomb malloc vsprintf_s (mkStream space "") priv format args = Some (r, f) ->
     slen (st_text f) <= space) /\
  slen text < destMax /\ slen text <= count /\ (ret = slen text \/ ret = -1 /\ (text = "" \/ slen text = count)).
Proof.
  intros space Hlib Hargs Hd Hc E. split; [|by eapply vsnprintfp_in_buffer]. intros r f Ef.
  unfold SECUREC_STRING_MAX_LEN in Hd. replace space with (Z.of_nat (Z.to_nat space)) in Ef |- * by (unfold space; lia).
  apply SecOutputPS_in_buffer in Ef as [H _]; try done. unfold SECUREC_STRING_MAX_LEN, space. lia.
Qed.

(** ** Privacy *)

(** What the format does with an argument: it is a width, a precision, it is
    shown, because the conversion is marked public, or it is hidden. *)
Inductive arg_use := Width | Precision | Shown | Hidden.

Definition mark_len (format : string) : nat :=
  if String.prefix PUBLIC_FLAG format then 8%nat else if String.prefix PRIVATE_FLAG format then 9%nat else 0%nat.
Definition no_attr : SecFormatAttr := mkAttr 0 0 (-1) false false.

(** The uses of the arguments of a format, in order; [public] is the mark of
    the conversion being read. *)
Fixpoint arg_plan (lp64 : bool) (fuel : nat) (format : string) (st : SecFmtState) (public : bool) : list arg_use :=
  match fuel, format with
  | S fuel, String ch format =>
      let st' := SECUREC_DECODE_STATE ch st in
      match st' with
      | STAT_PERCENT => arg_plan lp64 fuel (str_drop (mark_len format) format) st' (String.prefix PUBLIC_FLAG format)
      | STAT_WIDTH => (if decide (ch = "*"%char) then [Width] else []) ++ arg_plan lp64 fuel format st' public
      | STAT_PRECIS => (if decide (ch = "*"%char) then [Precision] else []) ++ arg_plan lp64 fuel format st' public
      | STAT_SIZE =>
          match SecDecodeSize lp64 ch no_attr format with
          | None => arg_plan lp64 fuel format STAT_NORMAL public
          | Some (_, k) => arg_plan lp64 fuel (str_drop k format) STAT_SIZE public
          end
      | STAT_TYPE => (if public then Shown else Hidden) :: arg_plan lp64 fuel format st' public
      | STAT_INVALID => []
      | _ => arg_plan lp64 fuel format st' public
      end
  | _, _ => []
  end.
Definition uses (lp64 : bool) (format : string) : list arg_use :=
  arg_plan lp64 (String.length (cstr format)) (cstr format) STAT_NORMAL false.

(** Another value of the same type. *)
Definition hide (v : varg) : varg :=
  match v with
  | VInt _ => VInt 0 | VLong _ => VLong 0 | VDouble _ => VDouble 0 | VStr _ => VStr None | VWStr _ => VWStr None | VPtr _ => VPtr 0
  end.
Fixpoint redact (plan : list arg_use) (args : list varg) : list varg :=
  match plan, args with
  | u :: plan, v :: args => (match u with Hidden => hide v | _ => v end) :: redact plan args
  | _, _ => args
  end.

(** Precisions for which the size of the buffer of a floating point number is
    an [int]. *)
Definition PRECISION_LIMIT : Z := SECUREC_INT_MAX - SECUREC_FLOAT_BUFSIZE_LB.
Definition precision_arg (lp64 : bool) (v : varg) : Prop :=
  forall z, va_int lp64 [v] = Some (z, []) -> 0 <= z <= PRECISION_LIMIT.
Fixpoint precisions_ok (lp64 : bool) (plan : list arg_use) (args : list varg) : Prop :=
  match plan, args with
  | u :: plan, v :: args => (u = Precision -> precision_arg lp64 v) /\ precisions_ok lp64 plan args
  | _, _ => True
  end.

(** The characters that end a conversion. *)
Lemma type_chars ch st : SECUREC_DECODE_STATE ch st = STAT_TYPE -> str_mem ch "CEFGSXcdefgiopsux" = true.
Proof. destruct ch as [[] [] [] [] [] [] [] []]; destruct st; vm_compute; done. Qed.

Lemma SecDecodeSize_attr lp64 ch a a' f :
  match SecDecodeSize lp64 ch a f, SecDecodeSize lp64 ch a' f with
  | Some (_, k), Some (_, k') => k = k'
  | None, None => True
  | _, _ => False
  end.
Proof.
  unfold SecDecodeSize. destruct ch as [[] [] [] [] [] [] [] []]; try done; try (by case_decide).
  destruct (bool_decide _ && bool_decide _); [done|]. destruct (bool_decide _ && bool_decide _); [done|].
  by destruct (str_mem _ _).
Qed.

Section private.
Context (lp64 char_signed : bool) (wctomb : Z -> option string) (malloc : Z -> bool).
Context (vsprintf_s : Z -> string -> list Z -> Z -> option string) (Hmalloc : forall size, malloc size = true).
Let conv := convert lp64 char_signed wctomb malloc vsprintf_s.

(** A conversion takes one argument, and a hidden one has no influence. *)
Definition takes_one (p : bool) (get : list varg -> option (conversion * list varg)) : Prop :=
  get [] = None /\
  forall v, exists r, (forall rest, get (v :: rest) = match r with Some c => Some (c, rest) | None => None end) /\
                      (p = true -> forall rest, get (hide v :: rest) = match r with Some c => Some (c, rest) | None => None end).

Lemma convert_c_one a p : takes_one p (convert_c lp64 wctomb a p).
Proof.
  split; [done|]. intros v. unfold convert_c.
  destruct v; cbn; try (by exists None); try destruct lp64; try (by exists None); eexists (Some _); split; try done; by intros ->.
Qed.
Lemma convert_s_one a p : takes_one p (convert_s a p).
Proof.
  split; [done|]. intros v. unfold convert_s. destruct v as [| | |s|s|]; cbn; try (by exists None); destruct p.
  1,3: by exists (Some ConvBreak).
  all: destruct (SecDecodeTypeS a _) as [c|]; [by exists (Some c) | by exists None].
Qed.

Lemma float_conv_one ch a p before :
  fa_precision a <= PRECISION_LIMIT -> takes_one p (float_conv malloc vsprintf_s ch a p before).
Proof using Hmalloc.
  intros Hp. unfold float_conv. destruct p.
  { split; [done|]. intros v. destruct v; try (by exists None). by exists (Some ConvBreak). }
  cbv zeta. rewrite !Hmalloc, !andb_false_r. unfold PRECISION_LIMIT, SECUREC_FLOAT_BUFSIZE_LB, SECUREC_INT_MAX in Hp.
  set (precision := if fa_precision a <? 0 then 6 else _).
  set (size := if has_flag a SECUREC_FLAG_LONG_DOUBLE then SECUREC_FLOAT_BUFSIZE_LB else SECUREC_FLOAT_BUFSIZE).
  assert (precision <= SECUREC_INT_MAX - size) as Hle.
  { assert (size <= 4972) by (unfold size; by destruct (has_flag _ _)).
    assert (precision <= 2147478675) by (unfold precision; destruct (_ <? 0); [done|]; destruct (_ && _); lia).
    unfold SECUREC_INT_MAX. lia. }
  rewrite (proj2 (Z.ltb_ge _ _) Hle). split; [done|]. intros v. destruct v as [| |d| | |]; try (by exists None).
  cbn [va_double mbind option_bind]. by destruct (vsprintf_s _ _ _ d) as [t|]; [eexists (Some _) | exists (Some ConvBreak)].
Qed.

(** A [va_arg] takes one value, or none for every value of the type. *)
Definition va_one (get : list varg -> option (Z * list varg)) : Prop :=
  get [] = None /\
  forall v, (forall rest, get (v :: rest) = None /\ get (hide v :: rest) = None) \/
            exists x x', forall rest, get (v :: rest) = Some (x, rest) /\ get (hide v :: rest) = Some (x', rest).
Lemma va_int_one : va_one (va_int lp64).
Proof.
  split; [done|]. intros v. destruct v; cbn; try (by left); [right; by eexists _, _|].
  destruct lp64; [by left | right; by eexists _, _].
Qed.
Lemma va_int64_one : va_one (va_int64 lp64).
Proof.
  split; [done|]. intros v. destruct v; cbn; try (by left); [right; by eexists _, _|].
  destruct lp64; [right; by eexists _, _ | by left].
Qed.

Lemma output_int_one a digits radix prefix p : takes_one p (output_int lp64 char_signed a digits radix prefix p).
Proof.
  assert (exists get g, va_one get /\ forall args, read_int lp64 char_signed a args = '(v, rest) ← get args; Some (g v, rest))
    as (get & g & [Hnil Hone] & Heq).
  { unfold read_int. destruct (_ || _ || _).
    - exists (va_int64 lp64), (fun v => (v, a)). split; [apply va_int64_one | done].
    - exists (va_int lp64), (int_value char_signed a). split; [apply va_int_one | done]. }
  unfold output_int. split; [by rewrite Heq, Hnil|]. intros v. destruct (Hone v) as [Hn|(x & x' & Hx)].
  - exists None. split; intros; rewrite Heq; [by rewrite (proj1 (Hn rest)) | by rewrite (proj2 (Hn rest))].
  - exists (Some (let '(l, a) := g x in if p then ConvBreak else int_conversion lp64 a digits radix prefix l)).
    split; [intros rest; rewrite Heq, (proj1 (Hx rest)); cbn; by destruct (g x)|].
    intros -> rest. rewrite Heq, (proj2 (Hx rest)). cbn. by destruct (g x), (g x').
Qed.

Lemma convert_one ch st a p before :
  SECUREC_DECODE_STATE ch st = STAT_TYPE -> fa_precision a <= PRECISION_LIMIT -> takes_one p (conv ch a p before).
Proof using Hmalloc.
  intros Hch%type_chars Hp. unfold conv, convert.
  destruct ch as [[] [] [] [] [] [] [] []]; try discriminate Hch;
    first [ apply convert_c_one | apply convert_s_one | by apply float_conv_one | apply output_int_one ].
Qed.

Definition set_args (s : fmt_state) (args : list varg) : fmt_state :=
  mkFmt (fs_state s) (fs_attr s) (fs_isPrivacy s) (fs_stream s) (fs_charsOut s) args.
(** Inside a conversion the flag is its mark, unless the format is about to be
    refused for an unknown mark. *)
Definition mark_ok (s : fmt_state) (f : string) (public : bool) : Prop :=
  match fs_state s with
  | STAT_NORMAL | STAT_TYPE | STAT_INVALID => True
  | STAT_PERCENT => fs_isPrivacy s = negb public \/ str_head f = "{"%char
  | _ => fs_isPrivacy s = negb public
  end.
Definition precision_ok (s : fmt_state) : Prop :=
  -1 <= fa_precision (fs_attr s) <= PRECISION_LIMIT /\
  (fs_state s = STAT_DOT \/ fs_state s = STAT_PRECIS -> 0 <= fa_precision (fs_attr s)).

(** Outside of a conversion only a percent sign is special. *)
Lemma outside_state ch st :
  st = STAT_NORMAL \/ st = STAT_TYPE \/ st = STAT_INVALID ->
  SECUREC_DECODE_STATE ch st = STAT_NORMAL \/ SECUREC_DECODE_STATE ch st = STAT_PERCENT.
Proof. intros [-> | [-> | ->]]; destruct ch as [[] [] [] [] [] [] [] []]; vm_compute; auto. Qed.

Lemma mark_ok_flag ch f s public :
  mark_ok s (String ch f) public -> SECUREC_DECODE_STATE ch (fs_state s) <> STAT_NORMAL ->
  SECUREC_DECODE_STATE ch (fs_state s) <> STAT_PERCENT -> SECUREC_DECODE_STATE ch (fs_state s) <> STAT_INVALID ->
  fs_isPrivacy s = negb public.
Proof.
  unfold mark_ok. intros Hm H1 H2 H3. destruct (fs_state s) eqn:E; try done.
  - destruct (outside_state ch STAT_NORMAL); [by left|done..].
  - destruct Hm as [?|Hc]; [done|]. cbn in Hc. subst ch. by destruct H3.
  - destruct (outside_state ch STAT_TYPE); [by right; left|done..].
  - destruct (outside_state ch STAT_INVALID); [by right; right|done..].
Qed.

Lemma precis_char ch st :
  SECUREC_DECODE_STATE ch st = STAT_PRECIS ->
  (st = STAT_DOT \/ st = STAT_PRECIS) /\ (ch <> "*"%char -> 48 <= byte_val ch <= 57).
Proof.
  destruct ch as [[] [] [] [] [] [] [] []]; destruct st; vm_compute; try discriminate; intros _;
    (split; [auto|]); intros H; try (by destruct H); by split.
Qed.

Lemma add_digit_ok v ch w :
  0 <= v -> 48 <= byte_val ch <= 57 -> add_digit v ch = Some w -> 0 <= w <= PRECISION_LIMIT.
Proof.
  unfold add_digit, SECUREC_INT_MAX_DIV_TEN, PRECISION_LIMIT, SECUREC_INT_MAX, SECUREC_FLOAT_BUFSIZE_LB.
  intros Hv Hch. destruct (Z.ltb_spec 21474836 v); [done|]. intros [= <-].
  rewrite (wraps_small 32 (10 * v)) by lia. rewrite wraps_small by lia. lia.
Qed.

Lemma va_int_redact plan args u :
  u <> Hidden -> va_int lp64 (redact (u :: plan) args) = '(v, rest) ← va_int lp64 args; Some (v, redact plan rest).
Proof.
  intros Hu. destruct args as [|v args]; [done|]. cbn [redact]. replace (match u with Hidden => hide v | _ => v end) with v by (by destruct u).
  destruct v; try done. cbn. by destruct lp64.
Qed.

Lemma advance_drop k b f : (advance k b f).2 = str_drop k f.
Proof. revert b f; induction k as [|k IH]; intros b [|c f]; cbn [advance str_drop]; done || apply IH. Qed.

Lemma privacy_mark_eq f p :
  (privacy_mark f p).2 = mark_len f /\
  ((privacy_mark f p).1 = negb (String.prefix PUBLIC_FLAG f) \/ (mark_len f = O /\ str_head f = "{"%char)).
Proof.
  unfold privacy_mark, mark_len. case_bool_decide as Hf.
  - destruct (String.prefix PUBLIC_FLAG f); [auto|]. destruct (String.prefix PRIVATE_FLAG f); auto.
  - assert (forall s, String.prefix (String "{"%char s) f = false) as Hpre.
    { intros s. destruct f as [|c f]; [done|]. cbn [str_head] in Hf. cbn [String.prefix]. by destruct (Ascii.ascii_dec "{" c) as [<-|]. }
    unfold PUBLIC_FLAG, PRIVATE_FLAG. rewrite !Hpre. auto.
Qed.

(** Two turns of the loop, on the arguments and on those that are shown. *)
Definition same_turn (fuel : nat) (r r' : option fmt_next) : Prop :=
  match r, r' with
  | None, None => True
  | Some (Return ret f), Some (Return ret' f') => ret = ret' /\ f = f'
  | Some (Next b f s), Some (Next b' f' s') =>
      b = b' /\ f = f' /\ exists public,
        let plan := arg_plan lp64 fuel f (fs_state s) public in
        mark_ok s f public /\ precision_ok s /\ precisions_ok lp64 plan (fs_args s) /\ s' = set_args s (redact plan (fs_args s))
  | _, _ => False
  end.

Lemma put_char_same fuel ch b f s public args :
  precision_ok s -> args = fs_args s -> precisions_ok lp64 (arg_plan lp64 fuel f STAT_NORMAL public) args ->
  same_turn fuel (Some (put_char ch b f s)) (Some (put_char ch b f (set_args s (redact (arg_plan lp64 fuel f STAT_NORMAL public) args)))).
Proof.
  intros Hp -> Hc. unfold put_char. cbn [fs_stream fs_charsOut set_args fs_attr fs_isPrivacy fs_args].
  destruct (write_char _ _ _) as [st n]. cbn. repeat split. exists public. repeat split; try done; try apply Hp. by intros [?|?].
Qed.

Lemma do_width_same fuel ch b f s public :
  mark_ok s (String ch f) public -> SECUREC_DECODE_STATE ch (fs_state s) = STAT_WIDTH -> precision_ok s ->
  let plan := (if decide (ch = "*"%char) then [Width] else []) ++ arg_plan lp64 fuel f STAT_WIDTH public in
  precisions_ok lp64 plan (fs_args s) ->
  same_turn fuel (do_width lp64 ch b f s) (do_width lp64 ch b f (set_args s (redact plan (fs_args s)))).
Proof.
  intros Hm Hst [Hp _] plan Hc. assert (fs_isPrivacy s = negb public) as Hpub by (by eapply mark_ok_flag; [|rewrite Hst..]).
  unfold do_width. cbn [set_args fs_args fs_attr fs_state fs_stream]. unfold plan in *. destruct (decide (ch = "*"%char)) as [->|Hch].
  - rewrite bool_decide_true by done. cbn [app]. rewrite va_int_redact by done.
    destruct (va_int lp64 (fs_args s)) as [[v rest]|] eqn:E; [|done]. cbn [mbind option_bind same_turn].
    repeat split. exists public. apply va_int_cons in E as [x E]. rewrite E in Hc. destruct Hc as [_ Hc].
    by destruct (v <? 0); repeat split; try done; try apply Hp; intros [?|?].
  - rewrite bool_decide_false by done. cbn [app]. destruct (add_digit _ _) as [w|]; cbn [same_turn]; [|done].
    repeat split. exists public. repeat split; try done; try apply Hp; by intros [?|?].
Qed.

Lemma do_precis_same fuel ch b f s public :
  mark_ok s (String ch f) public -> SECUREC_DECODE_STATE ch (fs_state s) = STAT_PRECIS -> precision_ok s ->
  let plan := (if decide (ch = "*"%char) then [Precision] else []) ++ arg_plan lp64 fuel f STAT_PRECIS public in
  precisions_ok lp64 plan (fs_args s) ->
  same_turn fuel (do_precis lp64 ch b f s) (do_precis lp64 ch b f (set_args s (redact plan (fs_args s)))).
Proof.
  intros Hm Hst [_ Hp] plan Hc. assert (fs_isPrivacy s = negb public) as Hpub by (by eapply mark_ok_flag; [|rewrite Hst..]).
  destruct (precis_char ch _ Hst) as [Hs Hd]. specialize (Hp Hs).
  unfold do_precis. cbn [set_args fs_args fs_attr fs_state fs_stream]. unfold plan in *. destruct (decide (ch = "*"%char)) as [->|Hch].
  - rewrite bool_decide_true by done. cbn [app]. rewrite va_int_redact by done.
    destruct (va_int lp64 (fs_args s)) as [[v rest]|] eqn:E; [|done]. cbn [mbind option_bind same_turn].
    repeat split. exists public. pose proof E as [x E']%va_int_cons. rewrite E' in Hc, E. destruct Hc as [Hx Hc].
    assert (0 <= v <= PRECISION_LIMIT) as Hv.
    { apply (Hx eq_refl). destruct x; cbn in E |- *; try done; [by injection E as -> |]. destruct lp64; [done|]. by injection E as ->. }
    destruct (Z.ltb_spec v 0); [lia|]. repeat split; cbn; try done; lia.
  - rewrite bool_decide_false by done. cbn [app]. destruct (add_digit _ _) as [w|] eqn:Ew; cbn [same_turn]; [|done].
    apply add_digit_ok in Ew; [|done|by apply Hd]. repeat split. exists public. repeat split; cbn; try done; lia.
Qed.

Lemma do_percent_same fuel b f s :
  let plan := arg_plan lp64 fuel (str_drop (mark_len f) f) STAT_PERCENT (String.prefix PUBLIC_FLAG f) in
  precisions_ok lp64 plan (fs_args s) ->
  same_turn fuel (Some (do_percent true b f s)) (Some (do_percent true b f (set_args s (redact plan (fs_args s))))).
Proof.
  intros plan Hc. unfold do_percent. cbn [set_args fs_args fs_attr fs_isPrivacy fs_stream fs_charsOut].
  destruct (privacy_mark_eq f (fs_isPrivacy s)) as [Hk Hm]. destruct (privacy_mark f (fs_isPrivacy s)) as [p k].
  cbn [fst snd] in *. subst k. pose proof (advance_drop (mark_len f) b f) as Hf. destruct (advance (mark_len f) b f) as [b' f'].
  cbn [snd] in Hf. subst f'. cbn [same_turn fs_state fs_args]. repeat split. exists (String.prefix PUBLIC_FLAG f).
  repeat split; cbn; try done; [|by intros [?|?]].
  destruct Hm as [->|[-> Hh]]; [by left|]. right. by destruct f.
Qed.

Lemma do_size_same fuel ch b f s public :
  mark_ok s (String ch f) public -> SECUREC_DECODE_STATE ch (fs_state s) = STAT_SIZE -> precision_ok s ->
  let plan := match SecDecodeSize lp64 ch no_attr f with
              | None => arg_plan lp64 fuel f STAT_NORMAL public
              | Some (_, k) => arg_plan lp64 fuel (str_drop k f) STAT_SIZE public
              end in
  precisions_ok lp64 plan (fs_args s) ->
  same_turn fuel (Some (do_size lp64 ch b f s)) (Some (do_size lp64 ch b f (set_args s (redact plan (fs_args s))))).
Proof.
  intros Hm Hst Hp plan Hc. assert (fs_isPrivacy s = negb public) as Hpub by (by eapply mark_ok_flag; [|rewrite Hst..]).
  unfold do_size, plan in *. cbn [set_args fs_attr]. pose proof (SecDecodeSize_attr lp64 ch no_attr (fs_attr s) f) as Ha.
  destruct (SecDecodeSize lp64 ch no_attr f) as [[a0 k]|], (SecDecodeSize lp64 ch (fs_attr s) f) as [[a k']|] eqn:E;
    try done; [|by apply put_char_same].
  subst k'. assert (fa_precision a = fa_precision (fs_attr s)) as Hpa.
  { revert E. clear. unfold SecDecodeSize. destruct ch as [[] [] [] [] [] [] [] []]; try (by intros [= <- <-]); try (by case_decide; intros [= <- <-]).
    repeat case_match; by intros [= <- <-]. }
  pose proof (advance_drop k b f) as Hf. destruct (advance k b f) as [b' f']. cbn [snd] in Hf. subst f'.
  cbn [same_turn]. repeat split. exists public. destruct Hp as [Hp _].
  repeat split; cbn; rewrite ?Hpa; try done; try apply Hp; by intros [?|?].
Qed.

Lemma do_type_same fuel ch b f s public :
  mark_ok s (String ch f) public -> SECUREC_DECODE_STATE ch (fs_state s) = STAT_TYPE -> precision_ok s ->
  let plan := (if public then Shown else Hidden) :: arg_plan lp64 fuel f STAT_TYPE public in
  precisions_ok lp64 plan (fs_args s) ->
  same_turn fuel (do_type lp64 char_signed wctomb malloc vsprintf_s ch b f s)
    (do_type lp64 char_signed wctomb malloc vsprintf_s ch b f (set_args s (redact plan (fs_args s)))).
Proof using Hmalloc.
  intros Hm Hst [Hp _] plan Hc. assert (fs_isPrivacy s = negb public) as Hpub by (by eapply mark_ok_flag; [|rewrite Hst..]).
  destruct (convert_one ch _ (fs_attr s) (fs_isPrivacy s) b Hst (proj2 Hp)) as [Hnil Hone]. unfold conv in Hnil, Hone.
  unfold do_type. cbn [set_args fs_attr fs_isPrivacy fs_args fs_stream fs_charsOut].
  unfold plan in *. destruct (fs_args s) as [|v rest]; [cbn [redact]; by rewrite !Hnil|]. cbn [redact]. destruct Hc as [_ Hc].
  destruct (Hone v) as (r & Hr & Hh). rewrite Hr.
  assert (convert lp64 char_signed wctomb malloc vsprintf_s ch (fs_attr s) (fs_isPrivacy s) b
            ((match (if public then Shown else Hidden) with Hidden => hide v | _ => v end) :: redact (arg_plan lp64 fuel f STAT_TYPE public) rest)
          = match r with Some c => Some (c, redact (arg_plan lp64 fuel f STAT_TYPE public) rest) | None => None end) as ->.
  { destruct public; [apply Hr|]. apply Hh. by rewrite Hpub. }
  destruct r as [c|]; [|done]. cbn [mbind option_bind].
  assert (forall st n, same_turn fuel
            (Some (Next b f (mkFmt STAT_TYPE (fs_attr s) (fs_isPrivacy s) st n rest)))
            (Some (Next b f (mkFmt STAT_TYPE (fs_attr s) (fs_isPrivacy s) st n (redact (arg_plan lp64 fuel f STAT_TYPE public) rest))))) as Hnext.
  { intros st n. cbn [same_turn fs_state fs_args]. repeat split. exists public. repeat split; cbn; try done; try apply Hp; by intros [?|?]. }
  destruct c as [| |a prefix t]; [done|..]; destruct (fs_isPrivacy s).
  1,3: destruct (SecWritePrivateStr _ _); apply Hnext.
  - apply Hnext.
  - destruct (write_conversion _ _ _ _ _ _). apply Hnext.
Qed.

Lemma fmt_step_same fuel b f ch s public :
  let plan := arg_plan lp64 (S fuel) (String ch f) (fs_state s) public in
  mark_ok s (String ch f) public -> precision_ok s -> precisions_ok lp64 plan (fs_args s) ->
  same_turn fuel (fmt_step lp64 char_signed wctomb malloc vsprintf_s true b f ch s)
    (fmt_step lp64 char_signed wctomb malloc vsprintf_s true b f ch (set_args s (redact plan (fs_args s)))).
Proof using Hmalloc.
  cbv zeta. intros Hm Hp. cbn [arg_plan]. unfold fmt_step. cbn [set_args fs_state].
  pose proof (mark_ok_flag ch f s public Hm) as Hflag. destruct (SECUREC_DECODE_STATE ch (fs_state s)) eqn:Hst; intros Hc.
  - by apply put_char_same.
  - by apply do_percent_same.
  - cbn [same_turn]. repeat split. exists public. destruct Hp as [Hp _]. cbn [with_attr fs_state fs_args mark_ok].
    assert (fa_precision (SecDecodeFlags ch (fs_attr s)) = fa_precision (fs_attr s)) as E
      by (clear; by destruct ch as [[] [] [] [] [] [] [] []]).
    repeat split; cbn; rewrite ?E; try done; try apply Hp; [by apply Hflag | by intros [?|?]].
  - by apply do_width_same.
  - cbn [same_turn]. repeat split. exists public. repeat split; cbn; try done. by apply Hflag.
  - by apply do_precis_same.
  - by apply do_size_same.
  - by apply do_type_same.
  - done.
Qed.

Lemma fmt_loop_redact fuel b f s public :
  let plan := arg_plan lp64 fuel f (fs_state s) public in
  mark_ok s f public -> precision_ok s -> precisions_ok lp64 plan (fs_args s) ->
  fmt_loop lp64 char_signed wctomb malloc vsprintf_s fuel true b f s
  = fmt_loop lp64 char_signed wctomb malloc vsprintf_s fuel true b f (set_args s (redact plan (fs_args s))).
Proof using Hmalloc.
  revert b f s public; induction fuel as [|fuel IH]; intros b [|ch f] s public plan Hm Hp Hc; try done.
  cbn [fmt_loop]. cbn [set_args fs_charsOut]. destruct (fs_charsOut s <? 0); [done|].
  pose proof (fmt_step_same fuel (String ch b) f ch s public Hm Hp Hc) as H.
  destruct (fmt_step _ _ _ _ _ _ _ _ _ s) as [[b1 f1 s1|r st]|], (fmt_step _ _ _ _ _ _ _ _ _ (set_args _ _)) as [[b2 f2 s2|r' st']|]; try done.
  - destruct H as (<- & <- & public' & Hm' & Hp' & Hc' & ->). by apply IH.
  - by destruct H as [-> ->].
Qed.
End private.

(** A private argument can be replaced by any value of its type. *)
Lemma vsnprintfp_redact lp64 char_signed wctomb malloc vsprintf_s destMax count format args :
  (forall size, malloc size = true) -> precisions_ok lp64 (uses lp64 format) args ->
  vsnprintfp_s lp64 char_signed wctomb malloc vsprintf_s destMax count true format args
  = vsnprintfp_s lp64 char_signed wctomb malloc vsprintf_s destMax count true format (redact (uses lp64 format) args).
Proof.
  intros Hm Hc. unfold vsnprintfp_s, SecVsnprintfPImpl, SecOutputPS.
  assert (forall st, let s := mkFmt STAT_NORMAL (mkAttr 0 0 0 false false) true st 0 args in
    mark_ok s (cstr format) false /\ precision_ok s) as Hs by (intros st; split; [done|]; split; [by split | by intros [?|?]]).
  rewrite !(fmt_loop_redact lp64 char_signed wctomb malloc vsprintf_s Hm _ _ _ _ false (proj1 (Hs _)) (proj2 (Hs _)) Hc). done.
Qed.

(** C4: with privacy on, an argument of a conversion that is not marked
    [%{public}] has no influence on what is written nor on the return value:
    it can be replaced by any value of its type.  This is for any format,
    malformed ones included, as long as [malloc] succeeds and the precisions
    given as arguments are in range. *)
Theorem private_args_hidden lp64 char_signed wctomb malloc vsprintf_s destMax count format args :
  (forall size, malloc size = true) -> precisions_ok lp64 (uses lp64 format) args ->
  vsnprintfp_s lp64 char_signed wctomb malloc vsprintf_s destMax count true format args
  = vsnprintfp_s lp64 char_signed wctomb malloc vsprintf_s destMax count true format (redact (uses lp64 format) args).
Proof. apply vsnprintfp_redact. Qed.

(** ** Without allocation *)

Definition ex_leak_format : string := "%{public}.200f %{private}f %{public}f".

(** C30: the library for the early parts of the system is built without
    [malloc].  A public number whose text needs a large buffer is then left
    out without its argument being consumed, so that the following conversions
    read the arguments before theirs: here the text ends with the number that
    was passed for the private conversion. *)
Theorem base_reveals_private lp64 char_signed wctomb vsprintf_s a secret c text :
  vsprintf_s 513 "%f" [] secret = Some text -> slen text <= 1000 ->
  vsnprintfp_s lp64 char_signed wctomb (fun _ => false) vsprintf_s 1024 1023 true ex_leak_format [VDouble a; VDouble secret; VDouble c]
  = Some (11 + slen text, " <private> " +:+ text).
Proof.
  intros Ht Hlen. unfold vsnprintfp_s, SecVsnprintfPImpl. change (_ || _ || _) with false. cbv iota. change (1023 <? 1024) with true. cbv iota.
  set (st := mkFmt STAT_PERCENT (mkAttr 0 0 (-1) false false) false (mkStream (1024 - 11) " <private> ") 11 [VDouble secret; VDouble c]).
  set (b := "}cilbup{% f}etavirp{% f002.}cilbup{%").
  assert (turns lp64 char_signed wctomb (fun _ => false) vsprintf_s true 11 "" ex_leak_format
    (mkFmt STAT_NORMAL (mkAttr 0 0 0 false false) true (mkStream (1023 + 1) "") 0 [VDouble a; VDouble secret; VDouble c]) = Some (b, "f", st)) as E
    by (by vm_compute).
  apply run_turns in E. unfold SecOutputPS. change (cstr ex_leak_format) with ex_leak_format. unfold run at 1 in E. rewrite E. clear E.
  rewrite run_cons by done. unfold fmt_step. change (SECUREC_DECODE_STATE "f" (fs_state st)) with STAT_TYPE. unfold do_type.
  assert (convert lp64 char_signed wctomb (fun _ => false) vsprintf_s "f" (fs_attr st) (fs_isPrivacy st) (String "f" b) (fs_args st)
          = Some (ConvText (mkAttr 0 (slen text) 6 false false) "" (Narrow text), [VDouble c])) as ->.
  { transitivity (match vsprintf_s 513 "%f" [] secret with
                  | None => Some (ConvBreak, [VDouble c])
                  | Some text => Some (ConvText (mkAttr 0 (slen text) 6 false false) "" (Narrow text), [VDouble c])
                  end); [done | by rewrite Ht]. }
  cbn [mbind option_bind fs_isPrivacy st]. pose proof (slen_nonneg text).
  pose proof (write_conversion_written wctomb 1024 " <private> " (mkAttr 0 (slen text) 6 false false) "" text (mkStream (1024 - 11) " <private> ") 11
    ltac:(lia) ltac:(done) ltac:(lia) ltac:(left; by vm_compute)) as Hw.
  assert (layout (mkAttr 0 (slen text) 6 false false) (padding_of (mkAttr 0 (slen text) 6 false false) (slen text) "") "" text = text) as Hl.
  { unfold layout, padding_of. cbn [fa_fldWidth]. rewrite Z.sub_diag. change (Z.to_nat _) with O. by rewrite !str_nil_app, str_app_nil_r. }
  change (sign_prefix _ "") with "" in Hw. rewrite Hl in Hw.
  destruct (write_conversion _ _ _ _ _ _) as [f n]. rewrite run_nil. cbn [fmt_end fs_state fs_charsOut fs_stream mbind option_bind].
  destruct Hw as [[_ [= -> ->]]|[Hlt _]]; [|rewrite slen_app in Hlt; change (slen " <private> ") with 11 in Hlt; lia].
  cbn [st_count st_text]. rewrite slen_app. change (slen " <private> ") with 11.
  rewrite (proj2 (Z.leb_le 0 (11 + _))), (proj2 (Z.leb_le 0 _)) by lia. cbn [andb mbind option_bind].
  unfold SECUREC_PRINTF_TRUNCATE. rewrite (proj2 (Z.eqb_neq _ (-2))), (proj2 (Z.ltb_ge _ 0)) by lia. done.
Qed.

(** ** Instances *)

(** A library: one byte for a character below 128, and decimal bits for a
    double. *)
Definition ex_wctomb (c : Z) : option string := if (0 <? c) && (c <? 128) then Some (String (byte_chr c) "") else None.
Definition ex_vsprintf (destMax : Z) (format : string) (dyn : list Z) (v : Z) : option string :=
  let s := to_string v in if slen s <? Z.min destMax SECUREC_STRING_MAX_LEN then Some s else None.

Lemma ex_libc_ok : libc_ok ex_wctomb ex_vsprintf.
Proof.
  split.
  - intros c s. unfold ex_wctomb. destruct (_ && _); [|done]. by intros [= <-].
  - intros m f d v s. unfold ex_vsprintf. destruct (Z.ltb_spec (slen (to_string v)) (Z.min m SECUREC_STRING_MAX_LEN)); [|done]. by intros [= <-].
Qed.

Lemma format_in_buffer_witness :
  (forall r f, SecOutputPS true true ex_wctomb (fun _ => true) ex_vsprintf (mkStream 11 "") true "user %s" [VStr (Some "bob")] = Some (r, f) ->
     slen (st_text f) <= 11) /\
  slen "user <priv" < 11 /\ slen "user <priv" <= 10 /\ (-1 = slen "user <priv" \/ -1 = -1 /\ ("user <priv" = "" \/ slen "user <priv" = 10)).
Proof.
  apply (format_in_buffer true true ex_wctomb (fun _ => true) ex_vsprintf 11 10 true "user %s" [VStr (Some "bob")] (-1) "user <priv" ex_libc_ok).
  - repeat constructor; by vm_compute.
  - by vm_compute.
  - by vm_compute.
  - by vm_compute.
Defined.

Lemma private_args_hidden_witness :
  vsnprintfp_s true true ex_wctomb (fun _ => true) ex_vsprintf 1024 1023 true "%{public}s %.*f %d" [VStr (Some "id"); VInt 3; VDouble 9; VInt 7]
  = vsnprintfp_s true true ex_wctomb (fun _ => true) ex_vsprintf 1024 1023 true "%{public}s %.*f %d" [VStr (Some "id"); VInt 3; VDouble 0; VInt 0].
Proof.
  apply (private_args_hidden true true ex_wctomb (fun _ => true) ex_vsprintf 1024 1023 "%{public}s %.*f %d" [VStr (Some "id"); VInt 3; VDouble 9; VInt 7]).
  - done.
  - split; [done|]. split; [|by repeat split]. intros _ z [= <-]. by vm_compute.
Defined.

Lemma base_reveals_private_witness :
  vsnprintfp_s true true ex_wctomb (fun _ => false) ex_vsprintf 1024 1023 true ex_leak_format [VDouble 1; VDouble 42; VDouble 3] = Some (13, " <private> 42").
Proof. apply (base_reveals_private true true ex_wctomb ex_vsprintf 1 42 3 "42"); by vm_compute. Defined.
