(* ===== verification/FormatRef.v ===== *)
(** The formatter against a reference: a format made of literal characters
    and of the usual conversions gives, for every part, the text that the C
    standard describes, or the private string, and is cut where the buffer
    ends. *)

From S2P Require Import Prelude Common Utils Format FormatProps.
From Stdlib Require Import Ascii.

(** ** Numbers *)

Ltac divlia := Z.div_mod_to_equations; lia.

(** The division of 32-bit targets is the division by ten. *)
Lemma fast_div10_ok n : 0 <= n < 2 ^ 32 -> fast_div10 n = n / 10.
Proof.
  intros Hn. unfold fast_div10. rewrite !Z.shiftr_div_pow2, !Z.shiftl_mul_pow2 by lia.
  change (2 ^ 1) with 2. change (2 ^ 2) with 4. change (2 ^ 3) with 8. change (2 ^ 4) with 16. change (2 ^ 8) with 256. change (2 ^ 16) with 65536.
  rewrite (wrapu_small 32 (n / 2 + n / 4)) by divlia. set (q0 := n / 2 + n / 4).
  assert (0 <= q0 /\ 4 * q0 <= 3 * n <= 4 * q0 + 5) as H0 by (unfold q0; divlia). clearbody q0.
  rewrite (wrapu_small 32 (q0 + q0 / 16)) by divlia. set (q1 := q0 + q0 / 16).
  assert (0 <= q1 /\ 16 * q1 <= 17 * q0 <= 16 * q1 + 15) as H1 by (unfold q1; divlia). clearbody q1.
  rewrite (wrapu_small 32 (q1 + q1 / 256)) by divlia. set (q2 := q1 + q1 / 256).
  assert (0 <= q2 /\ 256 * q2 <= 257 * q1 <= 256 * q2 + 255) as H2 by (unfold q2; divlia). clearbody q2.
  rewrite (wrapu_small 32 (q2 + q2 / 65536)) by divlia. set (q3 := q2 + q2 / 65536).
  assert (0 <= q3 /\ 65536 * q3 <= 65537 * q2 <= 65536 * q3 + 65535) as H3 by (unfold q3; divlia). clearbody q3.
  assert (8 * (q3 / 8) <= q3 <= 8 * (q3 / 8) + 7) as H4 by divlia. set (q := q3 / 8) in *. clearbody q.
  assert (0 <= n - 10 * q < 20) as Hr by lia.
  rewrite (wrapu_small 32 (n - _)) by lia. destruct (Z.ltb_spec 9 (n - (q * 4 + q) * 2)).
  - rewrite wrapu_small by lia. apply Z.div_unique with (n - 10 * (q + 1)); lia.
  - apply Z.div_unique with (n - 10 * q); lia.
Qed.

Fixpoint str_map (f : ascii -> ascii) (s : string) : string :=
  match s with "" => "" | String c s => String (f c) (str_map f s) end.
Lemma str_map_app f a b : str_map f (a +:+ b) = str_map f a +:+ str_map f b.
Proof. induction a as [|c a IH]; [done|]. rewrite !str_cons_app. cbn [str_map]. by rewrite IH, str_cons_app. Qed.
Lemma slen_map f s : slen (str_map f s) = slen s.
Proof. induction s as [|c s IH]; [done|]. cbn [str_map]. by rewrite !slen_cons, IH. Qed.

Definition upper_hex (c : ascii) : ascii := if bool_decide (97 <= byte_val c <= 102) then byte_chr (byte_val c - 32) else c.

(** The digits of [m] in a radix, as they are printed. *)
Definition ref_digits (upper : bool) (radix m : Z) : string :=
  if upper then str_map upper_hex (Num2Str radix m) else Num2Str radix m.

Lemma digit_at_lower d : 0 <= d < 16 -> digit_at itoaLowerDigits d = digit_chr d.
Proof.
  intros Hd. assert (d ∈ seqZ 0 16) as Hin by (apply elem_of_seqZ; lia).
  assert (Forall (fun d => digit_at itoaLowerDigits d = digit_chr d) (seqZ 0 16)) as H by (apply (bool_decide_unpack _); by vm_compute).
  rewrite Forall_forall in H. auto.
Qed.
Lemma digit_at_upper d : 0 <= d < 16 -> digit_at itoaUpperDigits d = upper_hex (digit_chr d).
Proof.
  intros Hd. assert (d ∈ seqZ 0 16) as Hin by (apply elem_of_seqZ; lia).
  assert (Forall (fun d => digit_at itoaUpperDigits d = upper_hex (digit_chr d)) (seqZ 0 16)) as H by (apply (bool_decide_unpack _); by vm_compute).
  rewrite Forall_forall in H. auto.
Qed.

Section digits.
Context (radix : Z) (Hradix : 2 <= radix <= 16) (digits : string) (f : ascii -> ascii).
Context (Hdig : forall d, 0 <= d < radix -> digit_at digits d = f (digit_chr d)).

Lemma special_map fuel v buf :
  0 <= v -> SECUREC_SPECIAL fuel digits radix v buf = str_map f (num_go radix fuel v "") +:+ buf.
Proof using Hradix Hdig.
  revert v buf; induction fuel as [|fuel IH]; intros v buf Hv; cbn [SECUREC_SPECIAL num_go]; [done|].
  rewrite Hdig by (apply Z.mod_pos_bound; lia).
  destruct (Z.eqb_spec (v / radix) 0) as [E|E], (Z.ltb_spec v radix).
  - done.
  - assert (1 <= v / radix) by (apply Z.div_le_lower_bound; lia). lia.
  - rewrite Z.div_small in E; lia.
  - rewrite IH by (apply Z.div_pos; lia). rewrite (num_go_app _ _ _ (String _ "")), str_map_app, <- str_app_assoc. done.
Qed.

Lemma num_go_enough fuel fuel' v : 0 <= v < 2 ^ Z.of_nat fuel -> 0 <= v < 2 ^ Z.of_nat fuel' -> (0 < fuel)%nat -> (0 < fuel')%nat ->
  num_go radix fuel v "" = num_go radix fuel' v "".
Proof using Hradix.
  revert fuel' v; induction fuel as [|fuel IH]; intros [|fuel'] v H H' Hp Hp'; try lia. cbn [num_go].
  destruct (Z.ltb_spec v radix); [done|]. rewrite !(num_go_app _ _ _ (String _ "")). f_equal.
  rewrite Nat2Z.inj_succ, Z.pow_succ_r in H, H' by lia.
  assert (0 < v / radix) by (apply Z.div_str_pos; lia). assert (v / radix <= v / 2) by (apply Z.div_le_compat_l; lia).
  assert (v / 2 < 2 ^ Z.of_nat fuel /\ v / 2 < 2 ^ Z.of_nat fuel') by divlia.
  apply IH; try lia; [destruct fuel | destruct fuel']; cbn in *; lia.
Qed.

Lemma special_ref v : 0 <= v < 2 ^ 64 -> SECUREC_SPECIAL DIGITS_FUEL digits radix v "" = str_map f (Num2Str radix v).
Proof using Hradix Hdig.
  intros Hv. rewrite special_map, str_app_nil_r by lia. f_equal. unfold Num2Str, DIGITS_FUEL. apply num_go_enough; try lia.
  rewrite Nat2Z.inj_succ, Z2Nat.id by apply Z.log2_nonneg. destruct (Z.eq_dec v 0) as [->|]; [done|].
  split; [lia|]. apply Z.log2_spec. lia.
Qed.
End digits.

Lemma fast_dec_special fuel digits v buf : 0 <= v < 2 ^ 32 -> fast_dec fuel digits v buf = SECUREC_SPECIAL fuel digits 10 v buf.
Proof.
  revert v buf; induction fuel as [|fuel IH]; intros v buf Hv; cbn [fast_dec SECUREC_SPECIAL]; [done|].
  rewrite !fast_div10_ok by done. destruct (v / 10 =? 0); [done|]. apply IH. divlia.
Qed.

Lemma str_map_id s : str_map id s = s.
Proof. induction s as [|c s IH]; cbn [str_map]; [done|]. by rewrite IH. Qed.

(** On 32-bit and on 64-bit targets, the digits of the number. *)
Lemma number_digits_ref lp64 (upper : bool) radix v :
  (radix = 8 \/ radix = 10 \/ radix = 16) -> 0 <= v < 2 ^ 64 ->
  number_digits lp64 (if upper then itoaUpperDigits else itoaLowerDigits) radix v
  = if v =? 0 then "" else ref_digits (upper && (radix =? 16)) radix v.
Proof.
  intros Hr Hv. unfold number_digits. destruct (Z.eqb_spec v 0); [done|].
  transitivity (SECUREC_SPECIAL DIGITS_FUEL (if upper then itoaUpperDigits else itoaLowerDigits) radix v "").
  { destruct (negb lp64 && (v <=? 0xFFFFFFFF) && (radix =? 10)) eqn:E; [|done].
    apply andb_true_iff in E as [[_ E]%andb_true_iff ->%Z.eqb_eq]. apply Z.leb_le in E. apply fast_dec_special. lia. }
  unfold ref_digits. destruct (upper && (radix =? 16)) eqn:E.
  { apply andb_true_iff in E as [-> ->%Z.eqb_eq]. apply special_ref; [lia | apply digit_at_upper | done]. }
  rewrite (special_ref radix ltac:(lia) _ id); [apply str_map_id | | done]. intros d Hd. destruct upper; [|apply digit_at_lower; lia].
  rewrite digit_at_upper by lia. unfold upper_hex. rewrite byte_val_digit_chr by lia.
  destruct (Z.eqb_spec radix 16); [done|]. destruct (Z.ltb_spec d 10); [|lia]. by rewrite bool_decide_false by lia.
Qed.

(** ** Formats *)

Inductive count_spec := NoCount | Digits (ds : string) | Star.
Inductive size_spec := SzNone | SzHH | SzH | SzL | SzLL.

(** A conversion, and how it is written. *)
Record conv_spec := mkConv {
  cv_mark : option bool;   (* public or private *)
  cv_flags : string;
  cv_width : count_spec;
  cv_prec : count_spec;
  cv_size : size_spec;
  cv_type : ascii;
}.
Definition show_mark (m : option bool) : string :=
  match m with None => "" | Some true => "{public}" | Some false => "{private}" end.
Definition show_width (w : count_spec) : string := match w with NoCount => "" | Digits ds => ds | Star => "*" end.
Definition show_prec (p : count_spec) : string := match p with NoCount => "" | Digits ds => String "." ds | Star => ".*" end.
Definition show_size (z : size_spec) : string :=
  match z with SzNone => "" | SzHH => "hh" | SzH => "h" | SzL => "l" | SzLL => "ll" end.
Definition show_conv (c : conv_spec) : string :=
  String "%" (show_mark (cv_mark c) +:+ cv_flags c +:+ show_width (cv_width c) +:+ show_prec (cv_prec c) +:+
              show_size (cv_size c) +:+ String (cv_type c) "").

Inductive piece := Lit (c : ascii) | Percent | Conv (c : conv_spec).
Definition show_piece (p : piece) : string := match p with Lit c => String c "" | Percent => "%%" | Conv c => show_conv c end.
Definition show (l : list piece) : string := foldr (fun p s => show_piece p +:+ s) "" l.

Fixpoint str_all (P : ascii -> Prop) (s : string) : Prop := match s with "" => True | String c s => P c /\ str_all P s end.
Definition is_flag (c : ascii) : Prop := str_mem c " +-0#" = true.
Definition is_dec (c : ascii) : Prop := 48 <= byte_val c <= 57.

Definition width_wf (ws : count_spec) : Prop :=
  match ws with Digits ds => str_all is_dec ds /\ 49 <= byte_val (str_head ds) /\ read_digits 10 0 ds <= 214748364 | _ => True end.
Definition prec_wf (ps : count_spec) : Prop :=
  match ps with Digits ds => str_all is_dec ds /\ read_digits 10 0 ds <= SECUREC_MAX_PRECISION | _ => True end.

Definition conv_wf (c : conv_spec) : Prop :=
  str_all is_flag (cv_flags c) /\ width_wf (cv_width c) /\ prec_wf (cv_prec c) /\
  str_mem (cv_type c) (match cv_size c with SzNone => "diouxXcs" | _ => "diouxX" end) = true.
Definition piece_wf (p : piece) : Prop :=
  match p with Lit c => c <> "%"%char /\ c <> NUL | Percent => True | Conv c => conv_wf c end.

(** ** The reference *)

Definition ref_pad (left zero : bool) (w : Z) (prefix body : string) : string :=
  let n := Z.to_nat (w - slen prefix - slen body) in
  if left then prefix +:+ body +:+ fill n " "
  else if zero then prefix +:+ fill n "0" +:+ body
  else fill n " " +:+ prefix +:+ body.

(** An argument of the size of the conversion, signed or unsigned. *)
Definition ref_arg (lp64 signed : bool) (z : size_spec) (v : varg) : option Z :=
  match z, v with
  | SzHH, VInt n => Some (if signed then wraps 8 (i32 n) else u8 (i32 n))
  | SzH, VInt n => Some (if signed then i16 (i32 n) else u16 (i32 n))
  | SzNone, VInt n => Some (if signed then i32 n else u32 (i32 n))
  | SzL, VInt n => if lp64 then None else Some (if signed then i32 n else u32 (i32 n))
  | SzL, VLong n => if lp64 then Some (if signed then wraps 64 n else u64 (wraps 64 n)) else None
  | SzLL, VLong n => Some (if signed then wraps 64 n else u64 (wraps 64 n))
  | _, _ => None
  end.

Section reference.
Context (c : conv_spec) (left : bool) (w : Z) (p : option Z).
Definition flagged (ch : ascii) : bool := str_mem ch (cv_flags c).

(** Integers: the digits, at least as many as the precision, none for zero
    with precision zero; the sign or the prefix of the alternate form; padded
    with blanks, or with zeros when there is no precision. *)
Definition ref_int (signed : bool) (radix : Z) (upper : bool) (v : Z) : string :=
  let m := Z.abs v in
  let digits := if (m =? 0) && bool_decide (p = Some 0) then "" else ref_digits upper radix m in
  let digits := fill (Z.to_nat (default 1 p - slen digits)) "0" +:+ digits in
  let digits := if flagged "#" && (radix =? 8) && negb (bool_decide (str_head digits = "0"%char)) then String "0" digits else digits in
  let prefix :=
    if signed then if v <? 0 then "-" else if flagged "+" then "+" else if flagged " " then " " else ""
    else if flagged "#" && (radix =? 16) && negb (m =? 0) then (if upper then "0X" else "0x") else "" in
  ref_pad left (flagged "0" && bool_decide (p = None)) w prefix digits.

Definition ref_char (v : varg) : option string :=
  match v with
  | VInt n => Some (ref_pad left (flagged "0") w "" (String (byte_chr (u8 (u32 (i32 n)))) ""))
  | _ => None
  end.
Definition ref_str (v : varg) : option string :=
  match v with
  | VStr q =>
      let s := cstr (default "(null)" q) in
      if slen (default "" q) <=? 2 ^ 30
      then Some (ref_pad left (flagged "0") w "" (match p with Some p => str_take (Z.to_nat p) s | None => s end))
      else None
  | _ => None
  end.

Definition ref_text (lp64 : bool) (v : varg) : option string :=
  match cv_type c with
  | "d" | "i" => n ← ref_arg lp64 true (cv_size c) v; Some (ref_int true 10 false n)
  | "u" => n ← ref_arg lp64 false (cv_size c) v; Some (ref_int false 10 false n)
  | "o" => n ← ref_arg lp64 false (cv_size c) v; Some (ref_int false 8 false n)
  | "x" => n ← ref_arg lp64 false (cv_size c) v; Some (ref_int false 16 false n)
  | "X" => n ← ref_arg lp64 false (cv_size c) v; Some (ref_int false 16 true n)
  | "c" => ref_char v
  | "s" => ref_str v
  | _ => None
  end%char.
End reference.

(** Widths and precisions given as arguments: a negative width adjusts to the
    left, a negative precision is no precision. *)
Definition ref_width (s : count_spec) (args : list varg) : option (bool * Z * list varg) :=
  match s with
  | NoCount => Some (false, 0, args)
  | Digits ds => Some (false, read_digits 10 0 ds, args)
  | Star => match args with
            | VInt z :: args => if Z.abs z <=? 2 ^ 30 then Some (z <? 0, Z.abs z, args) else None
            | _ => None
            end
  end.
Definition ref_prec (s : count_spec) (args : list varg) : option (option Z * list varg) :=
  match s with
  | NoCount => Some (None, args)
  | Digits ds => Some (Some (read_digits 10 0 ds), args)
  | Star => match args with
            | VInt z :: args => if Z.abs z <=? SECUREC_MAX_PRECISION then Some (if z <? 0 then None else Some z, args) else None
            | _ => None
            end
  end.

Definition ref_conv (lp64 priv : bool) (c : conv_spec) (args : list varg) : option (string * list varg) :=
  '(neg, w, args) ← ref_width (cv_width c) args;
  '(p, args) ← ref_prec (cv_prec c) args;
  match args with
  | [] => None
  | v :: args =>
      t ← ref_text c (flagged c "-" || neg) w p lp64 v;
      Some (if priv && negb (bool_decide (cv_mark c = Some true)) then "<private>" else t, args)
  end.

Fixpoint render (lp64 priv : bool) (l : list piece) (args : list varg) : option string :=
  match l with
  | [] => Some ""
  | Lit c :: l => s ← render lp64 priv l args; Some (String c s)
  | Percent :: l => s ← render lp64 priv l args; Some (String "%" s)
  | Conv c :: l => '(t, args) ← ref_conv lp64 priv c args; s ← render lp64 priv l args; Some (t +:+ s)
  end.

(** ** Reading a conversion *)

Fixpoint decode_flags (fl : string) (a : SecFormatAttr) : SecFormatAttr :=
  match fl with "" => a | String ch fl => decode_flags fl (SecDecodeFlags ch a) end.

Lemma flag_state ch st : is_flag ch -> st = STAT_PERCENT \/ st = STAT_FLAG -> SECUREC_DECODE_STATE ch st = STAT_FLAG.
Proof.
  unfold is_flag. intros H [-> | ->]; revert H; destruct ch as [[] [] [] [] [] [] [] []]; vm_compute; by intros.
Qed.
Lemma dec_state ch st :
  is_dec ch ->
  (st = STAT_WIDTH -> SECUREC_DECODE_STATE ch st = STAT_WIDTH) /\
  (st = STAT_PERCENT \/ st = STAT_FLAG -> 49 <= byte_val ch -> SECUREC_DECODE_STATE ch st = STAT_WIDTH) /\
  (st = STAT_DOT \/ st = STAT_PRECIS -> SECUREC_DECODE_STATE ch st = STAT_PRECIS).
Proof.
  intros [H1 H2]. destruct ch as [[] [] [] [] [] [] [] []]; try (by vm_compute in H1); try (by vm_compute in H2);
    repeat split; (intros -> || (intros [-> | ->])); try (by vm_compute); by vm_compute.
Qed.
Lemma dec_digit ch : is_dec ch -> chr_digit ch = byte_val ch - 48 /\ ch <> "*"%char.
Proof.
  intros [H1 H2]. destruct ch as [[] [] [] [] [] [] [] []]; try (by vm_compute in H1); try (by vm_compute in H2); by vm_compute.
Qed.

Lemma read_digits_ge v ds : 0 <= v -> str_all is_dec ds -> v <= read_digits 10 v ds.
Proof.
  revert v; induction ds as [|ch ds IH]; intros v Hv H; cbn [read_digits]; [lia|]. destruct H as [Hc H].
  destruct (dec_digit ch Hc) as [Hd _]. unfold is_dec in Hc. rewrite Hd. destruct (Z.ltb_spec (byte_val ch - 48) 10); [|lia].
  etransitivity; [|apply IH; [lia|done]]. lia.
Qed.

Lemma read_digits_cons v ch ds : is_dec ch -> read_digits 10 v (String ch ds) = read_digits 10 (10 * v + (byte_val ch - 48)) ds.
Proof.
  intros Hc. cbn [read_digits]. destruct (dec_digit ch Hc) as [-> _]. unfold is_dec in Hc.
  by destruct (Z.ltb_spec (byte_val ch - 48) 10); [|lia].
Qed.

Lemma add_digit_eq v ch ds :
  0 <= v -> is_dec ch -> str_all is_dec ds -> read_digits 10 v (String ch ds) <= 214748364 ->
  add_digit v ch = Some (10 * v + (byte_val ch - 48)).
Proof.
  intros Hv Hc Hds. rewrite read_digits_cons by done. unfold is_dec in Hc. intros Hle.
  pose proof (read_digits_ge (10 * v + (byte_val ch - 48)) ds ltac:(lia) Hds).
  unfold add_digit, SECUREC_INT_MAX_DIV_TEN. destruct (Z.ltb_spec 21474836 v); [lia|].
  rewrite (wraps_small 32 (10 * v)) by lia. by rewrite wraps_small by lia.
Qed.

Section read.
Context (lp64 char_signed : bool) (wctomb : Z -> option string) (malloc : Z -> bool).
Context (vsprintf_s : Z -> string -> list Z -> Z -> option string) (priv : bool).
Context (ip : bool) (f : SecPrintfStream) (n : Z) (Hn : 0 <= n).
Abbreviation run := (run lp64 char_signed wctomb malloc vsprintf_s priv).
Abbreviation st_with st a args := (mkFmt st a ip f n args).

Lemma run_step b ch r s b' r' s' :
  0 <= fs_charsOut s -> fmt_step lp64 char_signed wctomb malloc vsprintf_s priv (String ch b) r ch s = Some (Next b' r' s') ->
  run b (String ch r) s = run b' r' s'.
Proof. intros H0 E. rewrite run_cons by done. by rewrite E. Qed.

Lemma run_flags fl b st a rest args :
  str_all is_flag fl -> st = STAT_PERCENT \/ st = STAT_FLAG ->
  exists b' st', (st' = STAT_PERCENT \/ st' = STAT_FLAG) /\
    run b (fl +:+ rest) (st_with st a args) = run b' rest (st_with st' (decode_flags fl a) args).
Proof using Hn.
  revert b st a; induction fl as [|ch fl IH]; intros b st a Hfl Hst; [by exists b, st|]. destruct Hfl as [Hch Hfl].
  destruct (IH (String ch b) STAT_FLAG (SecDecodeFlags ch a) Hfl ltac:(by right)) as (b' & st' & Hst' & E).
  exists b', st'. split; [done|]. rewrite str_cons_app. cbn [decode_flags]. rewrite <- E. apply run_step; [done|].
  unfold fmt_step. cbn [fs_state]. by rewrite flag_state.
Qed.

(** The digits of a width. *)
Lemma run_width_digits ds b fl v pr dw dp rest args :
  0 <= v -> str_all is_dec ds -> read_digits 10 v ds <= 214748364 ->
  exists b' dw', run b (ds +:+ rest) (st_with STAT_WIDTH (mkAttr fl v pr dw dp) args)
    = run b' rest (st_with STAT_WIDTH (mkAttr fl (read_digits 10 v ds) pr dw' dp) args).
Proof using Hn.
  revert b v dw; induction ds as [|ch ds IH]; intros b v dw Hv Hds Hle; [by exists b, dw|]. destruct Hds as [Hch Hds].
  pose proof (add_digit_eq v ch ds Hv Hch Hds Hle) as Ha. rewrite read_digits_cons in * by done.
  destruct (IH (String ch b) (10 * v + (byte_val ch - 48)) false ltac:(unfold is_dec in Hch; lia) Hds Hle) as (b' & dw' & E).
  exists b', dw'. rewrite <- E, str_cons_app. apply run_step; [done|]. unfold fmt_step. cbn [fs_state].
  destruct (dec_state ch STAT_WIDTH Hch) as [-> _]; [|done]. unfold do_width. cbn [fs_state fs_attr fa_fldWidth fs_args].
  rewrite bool_decide_false by (by apply dec_digit). by rewrite decide_True, Ha by done.
Qed.
Lemma run_prec_digits ds b st fl w v dw dp rest args :
  0 <= v -> str_all is_dec ds -> read_digits 10 v ds <= 214748364 -> st = STAT_DOT \/ st = STAT_PRECIS ->
  exists b' st' dp', (st' = STAT_DOT \/ st' = STAT_PRECIS) /\
    run b (ds +:+ rest) (st_with st (mkAttr fl w v dw dp) args) = run b' rest (st_with st' (mkAttr fl w (read_digits 10 v ds) dw dp') args).
Proof using Hn.
  revert b st v dp; induction ds as [|ch ds IH]; intros b st v dp Hv Hds Hle Hst; [by exists b, st, dp|]. destruct Hds as [Hch Hds].
  pose proof (add_digit_eq v ch ds Hv Hch Hds Hle) as Ha. rewrite read_digits_cons in * by done.
  destruct (IH (String ch b) STAT_PRECIS (10 * v + (byte_val ch - 48)) false ltac:(unfold is_dec in Hch; lia) Hds Hle ltac:(by right))
    as (b' & st' & dp' & Hst' & E).
  exists b', st', dp'. split; [done|]. rewrite <- E, str_cons_app. apply run_step; [done|]. unfold fmt_step. cbn [fs_state].
  destruct (dec_state ch st Hch) as (_ & _ & ->); [|done]. unfold do_precis. cbn [fs_state fs_attr fa_precision fs_args].
  rewrite bool_decide_false by (by apply dec_digit). by rewrite Ha.
Qed.

Definition before_width (st : SecFmtState) : bool := match st with STAT_PERCENT | STAT_FLAG => true | _ => false end.
Definition before_prec (st : SecFmtState) : bool := match st with STAT_WIDTH => true | _ => before_width st end.
Definition before_size (st : SecFmtState) : bool := match st with STAT_DOT | STAT_PRECIS => true | _ => before_prec st end.
Definition before_type (st : SecFmtState) : bool := match st with STAT_SIZE => true | _ => before_size st end.

Lemma run_width ws b st fl dw dp rest args neg w args' :
  width_wf ws -> before_width st = true -> ref_width ws args = Some (neg, w, args') ->
  exists b' st' dw', before_prec st' = true /\
    run b (show_width ws +:+ rest) (st_with st (mkAttr fl 0 (-1) dw dp) args)
    = run b' rest (st_with st' (mkAttr (if neg then Z.lor fl SECUREC_FLAG_LEFT else fl) w (-1) dw' dp) args').
Proof using Hn.
  intros Hws Hst Hr. assert (st = STAT_PERCENT \/ st = STAT_FLAG) as Hst' by (destruct st; auto; done).
  destruct ws as [|ds|]; cbn [ref_width show_width] in *.
  - injection Hr as <- <- <-. exists b, st, dw. split; [by destruct st|]. by rewrite str_nil_app.
  - injection Hr as <- <- <-. destruct Hws as (Hds & Hh & Hle). destruct ds as [|ch ds]; [by vm_compute in Hh|].
    destruct Hds as [Hch Hds]. pose proof (add_digit_eq 0 ch ds ltac:(lia) Hch Hds Hle) as Ha.
    rewrite read_digits_cons in * by done.
    destruct (run_width_digits ds (String ch b) fl (10 * 0 + (byte_val ch - 48)) (-1) false dp rest args) as (b' & dw' & E);
      [cbn in Hh; lia|done..|].
    exists b', STAT_WIDTH, dw'. split; [done|]. rewrite <- E, str_cons_app. apply run_step; [done|].
    unfold fmt_step. cbn [fs_state]. destruct (dec_state ch st Hch) as (_ & -> & _); [|done..].
    unfold do_width. cbn [fs_state fs_attr fa_fldWidth fs_args]. rewrite bool_decide_false by (by apply dec_digit).
    rewrite decide_False by (by destruct Hst' as [-> | ->]). by rewrite Ha.
  - destruct args as [|[z| | | | |] args]; try done. destruct (Z.leb_spec (Z.abs z) (2 ^ 30)); [|done]. injection Hr as <- <- <-.
    exists (String "*"%char b), STAT_WIDTH, true. split; [done|]. rewrite str_cons_app, str_nil_app. apply run_step; [done|].
    unfold fmt_step. cbn [fs_state]. replace (SECUREC_DECODE_STATE "*" st) with STAT_WIDTH by (by destruct Hst' as [-> | ->]).
    unfold do_width. cbn [fs_args va_int mbind option_bind fs_attr fa_flags fa_precision fa_dynPrecision bool_decide].
    rewrite wraps_small by lia. destruct (Z.ltb_spec z 0); [by rewrite wraps_small, Z.abs_neq by lia | by rewrite Z.abs_eq by lia].
Qed.

Lemma run_prec ps b st fl w dw dp rest args p args' :
  prec_wf ps -> before_prec st = true -> ref_prec ps args = Some (p, args') ->
  exists b' st' dp', before_size st' = true /\
    run b (show_prec ps +:+ rest) (st_with st (mkAttr fl w (-1) dw dp) args)
    = run b' rest (st_with st' (mkAttr fl w (default (-1) p) dw dp') args').
Proof using Hn.
  intros Hps Hst Hr.
  assert (forall b rest, run b (String "." rest) (st_with st (mkAttr fl w (-1) dw dp) args)
          = run (String "." b) rest (st_with STAT_DOT (mkAttr fl w 0 dw dp) args)) as Hdot.
  { intros b0 r0. apply run_step; [done|]. unfold fmt_step. cbn [fs_state].
    by replace (SECUREC_DECODE_STATE "." st) with STAT_DOT by (by destruct st). }
  destruct ps as [|ds|]; cbn [ref_prec show_prec] in *.
  - injection Hr as <- <-. exists b, st, dp. split; [by destruct st|]. by rewrite str_nil_app.
  - injection Hr as <- <-. destruct Hps as [Hds Hle]. unfold SECUREC_MAX_PRECISION, SECUREC_BUFFER_SIZE in Hle.
    destruct (run_prec_digits ds (String "." b) STAT_DOT fl w 0 dw dp rest args) as (b' & st' & dp' & Hst' & E); [lia | done | lia | by left|].
    exists b', st', dp'. split; [by destruct Hst' as [-> | ->]|]. by rewrite str_cons_app, Hdot, E.
  - destruct args as [|[z| | | | |] args]; try done. destruct (Z.leb_spec (Z.abs z) SECUREC_MAX_PRECISION) as [Hz|]; [|done].
    unfold SECUREC_MAX_PRECISION, SECUREC_BUFFER_SIZE in Hz. injection Hr as <- <-.
    exists (String "*" (String "." b)), STAT_PRECIS, true. split; [done|]. rewrite !str_cons_app, str_nil_app, Hdot.
    apply run_step; [done|]. unfold fmt_step. cbn [fs_state]. change (SECUREC_DECODE_STATE "*" STAT_DOT) with STAT_PRECIS.
    unfold do_precis. cbn [fs_args va_int mbind option_bind fs_attr fa_flags fa_fldWidth fa_dynWidth bool_decide].
    rewrite wraps_small by lia. by destruct (z <? 0).
Qed.

Definition size_flags (z : size_spec) : Z :=
  match z with
  | SzNone => 0 | SzHH => Z.lor SECUREC_FLAG_CHAR SECUREC_FLAG_SHORT | SzH => SECUREC_FLAG_SHORT
  | SzL => SECUREC_FLAG_LONG | SzLL => SECUREC_FLAG_LONGLONG
  end.

Lemma run_size z b st fl w p dw dp ch rest args :
  before_size st = true -> str_mem ch "diouxXcs" = true ->
  exists b' st', before_type st' = true /\
    run b (show_size z +:+ String ch rest) (st_with st (mkAttr fl w p dw dp) args)
    = run b' (String ch rest) (st_with st' (mkAttr (Z.lor fl (size_flags z)) w p dw dp) args).
Proof using Hn.
  intros Hst Hch. assert (ch <> "h"%char /\ ch <> "l"%char) as [Hh Hl] by (by split; intros ->).
  assert (forall st sz, before_type st = true -> sz = "h"%char \/ sz = "l"%char -> SECUREC_DECODE_STATE sz st = STAT_SIZE) as Hsz
    by (intros st0 sz H [-> | ->]; by destruct st0).
  assert (before_type st = true) as Hst' by (by destruct st).
  assert (forall b st fl, before_type st = true ->
    run b (String "h" (String ch rest)) (st_with st (mkAttr fl w p dw dp) args)
    = run (String "h" b) (String ch rest) (st_with STAT_SIZE (mkAttr (Z.lor fl SECUREC_FLAG_SHORT) w p dw dp) args)) as Hshort.
  { intros b0 st0 fl0 H. apply run_step; [done|]. unfold fmt_step. cbn [fs_state]. rewrite Hsz by auto.
    unfold do_size, SecDecodeSize. cbn [str_head]. by rewrite decide_False. }
  destruct z; cbn [show_size size_flags]; rewrite ?str_cons_app, ?str_nil_app.
  - exists b, st. by rewrite Z.lor_0_r.
  - exists (String "h" (String "h" b)), STAT_SIZE. split; [done|]. rewrite Z.lor_assoc, <- (Hshort _ STAT_SIZE) by done. apply run_step; [done|].
    unfold fmt_step. cbn [fs_state]. rewrite Hsz by auto. done.
  - exists (String "h" b), STAT_SIZE. split; [done|]. by apply Hshort.
  - exists (String "l" b), STAT_SIZE. split; [done|]. apply run_step; [done|]. unfold fmt_step. cbn [fs_state]. rewrite Hsz by auto.
    unfold do_size, SecDecodeSize. cbn [str_head]. by rewrite decide_False.
  - exists (String "l" (String "l" b)), STAT_SIZE. split; [done|]. apply run_step; [done|]. unfold fmt_step. cbn [fs_state]. by rewrite Hsz by auto.
Qed.
End read.

(** What the parts before the conversion leave for it. *)
Definition spec_flags (c : conv_spec) (neg : bool) : Z :=
  let fl := fa_flags (decode_flags (cv_flags c) no_attr) in
  Z.lor (if neg then Z.lor fl SECUREC_FLAG_LEFT else fl) (size_flags (cv_size c)).
Definition spec_hidden (priv : bool) (c : conv_spec) : bool := priv && negb (bool_decide (cv_mark c = Some true)).

Lemma SecDecodeFlags_frame ch fl w p dw dp :
  SecDecodeFlags ch (mkAttr fl w p dw dp) = mkAttr (fa_flags (SecDecodeFlags ch (mkAttr fl 0 (-1) false false))) w p dw dp.
Proof. by destruct ch as [[] [] [] [] [] [] [] []]. Qed.
Lemma decode_flags_frame s fl w p dw dp :
  decode_flags s (mkAttr fl w p dw dp) = mkAttr (fa_flags (decode_flags s (mkAttr fl 0 (-1) false false))) w p dw dp.
Proof.
  revert fl; induction s as [|ch s IH]; intros fl; [done|]. cbn [decode_flags]. rewrite SecDecodeFlags_frame, IH.
  by rewrite (SecDecodeFlags_frame ch fl 0 (-1) false false).
Qed.

Lemma flag_not_mark fl ws ps z ch rest :
  str_all is_flag fl -> width_wf ws -> str_mem ch "diouxXcs" = true ->
  str_head (fl +:+ show_width ws +:+ show_prec ps +:+ show_size z +:+ String ch rest) <> "{"%char.
Proof.
  intros Hfl Hws Hch. destruct fl as [|c fl].
  - rewrite str_nil_app. destruct ws as [|ds|]; cbn [show_width].
    + rewrite str_nil_app. destruct ps; cbn [show_prec]; rewrite ?str_nil_app; [|done..].
      destruct z; cbn [show_size]; rewrite ?str_nil_app; [|done..]. cbn. by intros ->.
    + destruct ds as [|d ds]; [by destruct Hws as (_ & H & _); vm_compute in H|]. rewrite str_cons_app. cbn.
      destruct Hws as [[[_ Hd] _] _]. by intros ->.
    + done.
  - rewrite str_cons_app. cbn. intros ->. by destruct Hfl.
Qed.

Lemma conv_type_mem c : conv_wf c -> str_mem (cv_type c) "diouxXcs" = true.
Proof.
  intros (_ & _ & _ & Hty). assert (forall ch, str_mem ch "diouxX" = true -> str_mem ch "diouxXcs" = true) as Hsub.
  { intros ch. cbn [str_mem]. rewrite !orb_true_iff. tauto. }
  destruct (cv_size c); auto.
Qed.
Lemma type_state ch st : str_mem ch "diouxXcs" = true -> before_type st = true -> SECUREC_DECODE_STATE ch st = STAT_TYPE.
Proof. destruct ch as [[] [] [] [] [] [] [] []]; try discriminate; intros _; by destruct st. Qed.

Section conv.
Context (lp64 char_signed : bool) (wctomb : Z -> option string) (malloc : Z -> bool).
Context (vsprintf_s : Z -> string -> list Z -> Z -> option string) (priv : bool).
Abbreviation run := (run lp64 char_signed wctomb malloc vsprintf_s priv).

(** The mark is read together with the percent sign. *)
Lemma run_percent m b st a ip f n args rest :
  st = STAT_NORMAL \/ st = STAT_TYPE -> 0 <= n -> (m = None -> str_head rest <> "{"%char) ->
  exists b', run b (String "%" (show_mark m +:+ rest)) (mkFmt st a ip f n args)
    = run b' rest (mkFmt STAT_PERCENT (mkAttr 0 0 (-1) (fa_dynWidth a) (fa_dynPrecision a))
                     (priv && negb (bool_decide (m = Some true))) f n args).
Proof.
  intros Hst Hn Hm.
  assert (SECUREC_DECODE_STATE "%" st = STAT_PERCENT) as Hs by (by destruct Hst as [-> | ->]).
  destruct m as [[]|]; cbn [show_mark].
  - exists (String "}" (String "c" (String "i" (String "l" (String "b" (String "u" (String "p" (String "{" (String "%" b))))))))).
    apply run_step; [done|]. unfold fmt_step. cbn [fs_state]. rewrite Hs, !str_cons_app, str_nil_app. by destruct rest.
  - exists (String "}" (String "e" (String "t" (String "a" (String "v" (String "i" (String "r" (String "p" (String "{" (String "%" b)))))))))).
    apply run_step; [done|]. unfold fmt_step. cbn [fs_state]. rewrite Hs, !str_cons_app, str_nil_app. by destruct rest.
  - exists (String "%" b). rewrite str_nil_app. apply run_step; [done|]. unfold fmt_step. cbn [fs_state]. rewrite Hs.
    unfold do_percent, privacy_mark. by rewrite bool_decide_false by (by apply Hm).
Qed.

Lemma run_conv c b st a ip f n args rest neg w args1 p args2 :
  conv_wf c -> st = STAT_NORMAL \/ st = STAT_TYPE -> 0 <= n ->
  ref_width (cv_width c) args = Some (neg, w, args1) -> ref_prec (cv_prec c) args1 = Some (p, args2) ->
  exists b' st' dw dp, before_type st' = true /\
    run b (show_conv c +:+ rest) (mkFmt st a ip f n args)
    = run b' (String (cv_type c) rest) (mkFmt st' (mkAttr (spec_flags c neg) w (default (-1) p) dw dp) (spec_hidden priv c) f n args2).
Proof.
  intros Hwf Hst Hn Hw Hp. pose proof (conv_type_mem c Hwf) as Hty'. destruct Hwf as (Hfl & Hws & Hps & _).
  unfold show_conv. rewrite str_cons_app, <- !str_app_assoc. rewrite (str_cons_app (cv_type c)), str_nil_app.
  destruct (run_percent (cv_mark c) b st a ip f n args _ Hst Hn (fun _ => flag_not_mark (cv_flags c) (cv_width c) (cv_prec c) (cv_size c) (cv_type c) rest Hfl Hws Hty'))
    as (b1 & ->).
  destruct (run_flags lp64 char_signed wctomb malloc vsprintf_s priv (spec_hidden priv c) f n Hn (cv_flags c) b1 STAT_PERCENT
    (mkAttr 0 0 (-1) (fa_dynWidth a) (fa_dynPrecision a)) (show_width (cv_width c) +:+ show_prec (cv_prec c) +:+ show_size (cv_size c) +:+ String (cv_type c) rest)
    args Hfl ltac:(by left)) as (b2 & st2 & Hst2 & E2). unfold spec_hidden in E2. rewrite E2, decode_flags_frame. clear E2.
  edestruct (run_width lp64 char_signed wctomb malloc vsprintf_s priv (spec_hidden priv c) f n Hn (cv_width c) b2 st2) as (b3 & st3 & dw & Hst3 & E3);
    [done | by destruct Hst2 as [-> | ->] | done|]. unfold spec_hidden in E3. rewrite E3. clear E3.
  edestruct (run_prec lp64 char_signed wctomb malloc vsprintf_s priv (spec_hidden priv c) f n Hn (cv_prec c) b3 st3) as (b4 & st4 & dp & Hst4 & E4);
    [done..|]. unfold spec_hidden in E4. rewrite E4. clear E4.
  edestruct (run_size lp64 char_signed wctomb malloc vsprintf_s priv (spec_hidden priv c) f n Hn (cv_size c) b4 st4) as (b5 & st5 & Hst5 & E5);
    [done..|]. unfold spec_hidden in E5. rewrite E5. by exists b5, st5, dw, dp.
Qed.
End conv.

(** ** Flags *)

Definition fbit (fl y : Z) : bool := negb (Z.land fl y =? 0).

Lemma fbit_lor x y z : fbit (Z.lor x y) z = fbit x z || fbit y z.
Proof.
  unfold fbit. rewrite Z.land_lor_distr_l. destruct (Z.eqb_spec (Z.land x z) 0) as [->|Hx], (Z.eqb_spec (Z.land y z) 0) as [->|Hy]; cbn.
  - done.
  - rewrite Z.lor_0_l. by rewrite (proj2 (Z.eqb_neq _ _) Hy).
  - rewrite Z.lor_0_r. by rewrite (proj2 (Z.eqb_neq _ _) Hx).
  - rewrite (proj2 (Z.eqb_neq _ _)); [done|]. by intros [? _]%Z.lor_eq_0_iff.
Qed.
Lemma has_flag_add a x y : has_flag (add_flags a x) y = has_flag a y || fbit x y.
Proof. apply fbit_lor. Qed.
Lemma has_flag_clear a x y : has_flag (clear_flags a x) y = has_flag a (Z.ldiff y x).
Proof.
  unfold has_flag, clear_flags. cbn [fa_flags]. do 2 f_equal. apply Z.bits_inj'. intros i Hi.
  rewrite !Z.land_spec, !Z.ldiff_spec. by destruct (Z.testbit (fa_flags a) i), (Z.testbit y i), (Z.testbit x i).
Qed.

Definition flag_bit (ch : ascii) : Z := fa_flags (SecDecodeFlags ch no_attr).
Lemma SecDecodeFlags_bit ch a : fa_flags (SecDecodeFlags ch a) = Z.lor (fa_flags a) (flag_bit ch).
Proof. destruct ch as [[] [] [] [] [] [] [] []]; try done; cbn; by rewrite Z.lor_0_r. Qed.

(** The bit of a flag is set exactly when the flag is written. *)
Lemma decode_flags_bit s a c y :
  (forall ch, fbit (flag_bit ch) y = bool_decide (c = ch)) -> fbit (fa_flags (decode_flags s a)) y = fbit (fa_flags a) y || str_mem c s.
Proof.
  intros Hc. revert a; induction s as [|ch s IH]; intros a; cbn [decode_flags str_mem]; [by rewrite orb_false_r|].
  by rewrite IH, SecDecodeFlags_bit, fbit_lor, Hc, <- orb_assoc.
Qed.
Lemma decode_flags_none s a y : (forall ch, fbit (flag_bit ch) y = false) -> fbit (fa_flags (decode_flags s a)) y = fbit (fa_flags a) y.
Proof.
  intros Hc. revert a; induction s as [|ch s IH]; intros a; cbn [decode_flags]; [done|].
  by rewrite IH, SecDecodeFlags_bit, fbit_lor, Hc, orb_false_r.
Qed.

Ltac each_char := let ch := fresh "ch" in intros ch; destruct ch as [[] [] [] [] [] [] [] []]; by vm_compute.

Lemma spec_flag_bits c neg :
  fbit (spec_flags c neg) SECUREC_FLAG_LEFT = flagged c "-" || neg /\
  fbit (spec_flags c neg) SECUREC_FLAG_LEADZERO = flagged c "0" /\
  fbit (spec_flags c neg) SECUREC_FLAG_SIGN = flagged c "+" /\
  fbit (spec_flags c neg) SECUREC_FLAG_SIGN_SPACE = flagged c " " /\
  fbit (spec_flags c neg) SECUREC_FLAG_ALTERNATE = flagged c "#".
Proof.
  unfold spec_flags, flagged. rewrite !fbit_lor.
  replace (fbit (size_flags _) SECUREC_FLAG_LEFT) with false by (by destruct (cv_size c)).
  replace (fbit (size_flags _) SECUREC_FLAG_LEADZERO) with false by (by destruct (cv_size c)).
  replace (fbit (size_flags _) SECUREC_FLAG_SIGN) with false by (by destruct (cv_size c)).
  replace (fbit (size_flags _) SECUREC_FLAG_SIGN_SPACE) with false by (by destruct (cv_size c)).
  replace (fbit (size_flags _) SECUREC_FLAG_ALTERNATE) with false by (by destruct (cv_size c)).
  rewrite !orb_false_r. destruct neg; rewrite ?fbit_lor, ?orb_false_r.
  all: rewrite (decode_flags_bit _ _ "-"%char SECUREC_FLAG_LEFT), (decode_flags_bit _ _ "0"%char SECUREC_FLAG_LEADZERO),
    (decode_flags_bit _ _ "+"%char SECUREC_FLAG_SIGN), (decode_flags_bit _ _ " "%char SECUREC_FLAG_SIGN_SPACE),
    (decode_flags_bit _ _ "#"%char SECUREC_FLAG_ALTERNATE) by each_char; rewrite ?orb_false_r, ?orb_true_r; done.
Qed.

(** Bits that only sizes set, and bits that nothing written sets. *)
Lemma spec_size_bits c neg y :
  (forall ch, fbit (flag_bit ch) y = false) -> fbit SECUREC_FLAG_LEFT y = false ->
  fbit (spec_flags c neg) y = fbit (size_flags (cv_size c)) y.
Proof.
  intros Hy Hl. unfold spec_flags. rewrite fbit_lor. destruct neg; rewrite ?fbit_lor, decode_flags_none by done; rewrite ?Hl; done.
Qed.

(** ** Integers *)

(** The attributes of an integer conversion of a given size. *)
Record sized (a : SecFormatAttr) (signed : bool) (z : size_spec) : Prop := {
  sz_signed : has_flag a SECUREC_FLAG_SIGNED = signed;
  sz_i64 : has_flag a SECUREC_FLAG_I64 = false;
  sz_char : has_flag a SECUREC_FLAG_CHAR = fbit (size_flags z) SECUREC_FLAG_CHAR;
  sz_short : has_flag a SECUREC_FLAG_SHORT = fbit (size_flags z) SECUREC_FLAG_SHORT;
  sz_long : has_flag a SECUREC_FLAG_LONG = fbit (size_flags z) SECUREC_FLAG_LONG;
  sz_longlong : has_flag a SECUREC_FLAG_LONGLONG = fbit (size_flags z) SECUREC_FLAG_LONGLONG;
  sz_ptrdiff : has_flag a SECUREC_FLAG_PTRDIFF = false;
  sz_size : has_flag a SECUREC_FLAG_SIZE = false;
  sz_pointer : has_flag a SECUREC_FLAG_POINTER = false;
  sz_negative : has_flag a SECUREC_FLAG_NEGATIVE = false;
}.

Definition is_wide (lp64 : bool) (z : size_spec) : bool := match z with SzL => lp64 | SzLL => true | _ => false end.
Definition negative (a : SecFormatAttr) (v : Z) : SecFormatAttr := if v <? 0 then add_flags a SECUREC_FLAG_NEGATIVE else a.

(** The sign and the magnitude of an argument. *)
Definition magnitude (l : Z) (a : SecFormatAttr) : Z * SecFormatAttr :=
  if has_flag a SECUREC_FLAG_SIGNED && (l <? 0) then (u64 (- l), add_flags a SECUREC_FLAG_NEGATIVE) else (u64 l, a).

Lemma magnitude_abs a signed v :
  has_flag a SECUREC_FLAG_SIGNED = signed -> (signed = false -> 0 <= v) -> - 2 ^ 63 <= v < 2 ^ 64 ->
  magnitude v a = (Z.abs v, negative a v).
Proof.
  intros Hs Hv Hr. unfold magnitude, negative. rewrite Hs. destruct signed; cbn [andb].
  - destruct (Z.ltb_spec v 0); rewrite wrapu_small by lia; f_equal; lia.
  - specialize (Hv eq_refl). rewrite (proj2 (Z.ltb_ge v 0)) by lia. rewrite wrapu_small by lia. f_equal. lia.
Qed.

Lemma wraps8_u8 x : wraps 8 x = if u8 x <? 128 then u8 x else u8 x - 256.
Proof. unfold wraps, wrapu. change (2 ^ (8 - 1)) with 128. change (2 ^ 8) with 256. destruct (Z.ltb_spec (x mod 256) 128); divlia. Qed.
Lemma u8_lnot l : 0 <= l < 256 -> u8 (Z.lnot l) + 1 = 256 - l.
Proof. intros Hl. unfold Z.lnot, wrapu. change (2 ^ 8) with 256. divlia. Qed.

(** The value of an [int] argument for its size. *)
Definition ref_small (signed : bool) (z : size_spec) (n : Z) : Z :=
  match z with
  | SzHH => if signed then wraps 8 n else u8 n
  | SzH => if signed then i16 n else u16 n
  | _ => if signed then n else u32 n
  end.
Lemma ref_small_range signed z n : - 2 ^ 31 <= n < 2 ^ 31 -> Z.abs (ref_small signed z n) < 2 ^ 32 /\ (signed = false -> 0 <= ref_small signed z n).
Proof.
  intros Hn. pose proof (wraps_range 8 n ltac:(lia)). pose proof (wrapu_range 8 n ltac:(lia)). pose proof (wraps_range 16 n ltac:(lia)).
  pose proof (wrapu_range 16 n ltac:(lia)). pose proof (wrapu_range 32 n ltac:(lia)). destruct z, signed; cbn [ref_small]; split; try done; lia.
Qed.

Lemma int_value_ref char_signed a signed z n :
  sized a signed z -> - 2 ^ 31 <= n < 2 ^ 31 ->
  magnitude (int_value char_signed a n).1 (int_value char_signed a n).2 = (Z.abs (ref_small signed z n), negative a (ref_small signed z n)).
Proof.
  intros [Hsg _ Hc Hsh _ _ _ _ _ _] Hn. destruct (ref_small_range signed z n Hn) as [Hr Hu].
  assert (magnitude (ref_small signed z n) a = (Z.abs (ref_small signed z n), negative a (ref_small signed z n))) as Hm
    by (eapply magnitude_abs; [done..|lia]).
  unfold int_value. rewrite Hsg, Hc, Hsh. destruct z; try exact Hm. cbn [size_flags].
  change (fbit _ _) with true. cbv beta iota zeta. destruct signed; [|exact Hm].
  pose proof (wrapu_range 8 n ltac:(lia)). cbn [ref_small] in *. destruct char_signed.
  { destruct (Z.leb_spec 128 (wraps 8 n)); [pose proof (wraps_range 8 n ltac:(lia)); lia | exact Hm]. }
  rewrite wraps8_u8 in *. destruct (Z.leb_spec 128 (u8 n)), (Z.ltb_spec (u8 n) 128); try lia; [|exact Hm]. cbn [fst snd].
  rewrite u8_lnot by lia. unfold magnitude, negative. rewrite has_flag_add, Hsg. cbn [orb andb].
  rewrite (proj2 (Z.ltb_ge (256 - u8 n) 0)), (proj2 (Z.ltb_lt (u8 n - 256) 0)) by lia. rewrite wrapu_small by lia. f_equal. lia.
Qed.

Lemma read_ref lp64 char_signed a signed z arg v rest :
  sized a signed z -> ref_arg lp64 signed z arg = Some v ->
  exists l a1, read_int lp64 char_signed a (arg :: rest) = Some (l, a1, rest) /\ magnitude l a1 = (Z.abs v, negative a v) /\
    Z.abs v < (if is_wide lp64 z then 2 ^ 64 else 2 ^ 32).
Proof.
  intros Hz Hr. destruct Hz as [Hsg Hi Hc Hsh Hl Hll Hp Hsz Hpt Hng]. unfold read_int. rewrite Hi, Hll, Hl.
  destruct (is_wide lp64 z) eqn:Hw.
  - assert (exists n, arg = VLong n /\ v = if signed then wraps 64 n else u64 (wraps 64 n)) as (n & -> & ->).
    { destruct z, lp64; try done; destruct arg; try done; injection Hr as <-; eauto. }
    exists (wraps 64 n), a. pose proof (wraps_range 64 n ltac:(lia)). pose proof (wrapu_range 64 (wraps 64 n) ltac:(lia)).
    split; [by destruct z, lp64|]. destruct signed.
    + split; [by eapply magnitude_abs; [exact Hsg | done | lia] | lia].
    + split; [|lia]. unfold magnitude, negative. rewrite Hsg. cbn [andb]. rewrite (proj2 (Z.ltb_ge _ 0)) by lia. f_equal. lia.
  - assert (exists n, arg = VInt n /\ v = ref_small signed z (i32 n)) as (n & -> & ->).
    { destruct z, lp64; try done; destruct arg; try done; injection Hr as <-; eauto. }
    pose proof (wraps_range 32 n ltac:(lia)) as Hn. exists (int_value char_signed a (i32 n)).1, (int_value char_signed a (i32 n)).2.
    split; [by destruct z, lp64; cbn; destruct (int_value _ _ _)|].
    split; [by apply int_value_ref; [constructor|] | by apply ref_small_range].
Qed.

Lemma fill_snoc n c : fill n c +:+ String c "" = fill (S n) c.
Proof. induction n as [|n IH]; [done|]. cbn [fill]. rewrite str_cons_app, IH. done. Qed.

Lemma layout_ref a pre s :
  0 <= fa_fldWidth a <= 2 ^ 30 -> slen s <= 2 ^ 30 -> slen pre <= 2 ->
  layout a (padding_of a (slen s) pre) pre s
  = ref_pad (has_flag a SECUREC_FLAG_LEFT) (has_flag a SECUREC_FLAG_LEADZERO) (fa_fldWidth a) pre s.
Proof.
  intros Hw Hs Hp. unfold layout, ref_pad, padding_of. pose proof (slen_nonneg s). pose proof (slen_nonneg pre).
  rewrite (wraps_small 32 (fa_fldWidth a - slen s)) by lia. rewrite wraps_small by lia.
  replace (fa_fldWidth a - slen s - slen pre) with (fa_fldWidth a - slen pre - slen s) by lia.
  destruct (has_flag a SECUREC_FLAG_LEFT), (has_flag a SECUREC_FLAG_LEADZERO); cbn [orb negb andb];
    by rewrite ?str_nil_app, ?str_app_nil_r.
Qed.

(** The digits with their precision. *)
Definition ref_number (alt8 upper : bool) (radix : Z) (p : option Z) (m : Z) : string :=
  let digits := if (m =? 0) && bool_decide (p = Some 0) then "" else ref_digits upper radix m in
  let digits := fill (Z.to_nat (default 1 p - slen digits)) "0" +:+ digits in
  if alt8 && negb (bool_decide (str_head digits = "0"%char)) then String "0" digits else digits.

Lemma int_text_ref lp64 a (upper : bool) radix m p :
  radix = 8 \/ radix = 10 \/ radix = 16 -> 0 <= m < 2 ^ 64 -> (forall q, p = Some q -> 0 <= q) ->
  int_text lp64 a (if upper then itoaUpperDigits else itoaLowerDigits) radix m (default 1 p)
  = ref_number (has_flag a SECUREC_FLAG_FORCE_OCTAL) (upper && (radix =? 16)) radix p m.
Proof.
  intros Hr Hm Hp. unfold int_text, ref_number. rewrite number_digits_ref by done.
  destruct (Z.eqb_spec m 0) as [->|Hm0]; cbn [andb]; [|done].
  replace (fill (Z.to_nat (default 1 p - slen "")) "0" +:+ "") with
    (let digits := if bool_decide (p = Some 0) then "" else ref_digits (upper && (radix =? 16)) radix 0 in
     fill (Z.to_nat (default 1 p - slen digits)) "0" +:+ digits); [done|]. cbv zeta. case_bool_decide as Hp0; [done|].
  assert (ref_digits (upper && (radix =? 16)) radix 0 = String "0" "") as -> by (destruct upper, Hr as [-> | [-> | ->]]; by vm_compute).
  change (slen "") with 0. change (slen (String "0" "")) with 1. rewrite fill_snoc, str_app_nil_r.
  assert (1 <= default 1 p) by (destruct p as [q|]; cbn; [|lia]; specialize (Hp q eq_refl); destruct (Z.eq_dec q 0) as [->|]; [done|lia]).
  f_equal. lia.
Qed.

Section int.
Context (lp64 : bool) (c : conv_spec) (neg : bool) (w : Z) (p : option Z).
Context (Hw : 0 <= w <= 2 ^ 30) (Hp : forall q, p = Some q -> 0 <= q <= SECUREC_MAX_PRECISION).

Lemma int_conversion_ref a signed (upper : bool) radix prefix l a1 v :
  radix = 8 \/ radix = 10 \/ radix = 16 -> sized a signed (cv_size c) -> fa_fldWidth a = w -> fa_precision a = default (-1) p ->
  has_flag a SECUREC_FLAG_LEFT = flagged c "-" || neg -> has_flag a SECUREC_FLAG_LEADZERO = flagged c "0" ->
  has_flag a SECUREC_FLAG_SIGN = flagged c "+" -> has_flag a SECUREC_FLAG_SIGN_SPACE = flagged c " " ->
  has_flag a SECUREC_FLAG_FORCE_OCTAL = flagged c "#" && (radix =? 8) ->
  prefix = (if negb signed && flagged c "#" && (radix =? 16) then (if upper then "0X" else "0x") else "") ->
  magnitude l a1 = (Z.abs v, negative a v) -> Z.abs v < (if is_wide lp64 (cv_size c) then 2 ^ 64 else 2 ^ 32) -> (signed = false -> 0 <= v) ->
  exists a' pre s, int_conversion lp64 a1 (if upper then itoaUpperDigits else itoaLowerDigits) radix prefix l = ConvText a' pre (Narrow s) /\
    slen pre <= 2 /\ slen s <= SECUREC_BUFFER_SIZE /\
    layout a' (padding_of a' (slen s) (sign_prefix a' pre)) (sign_prefix a' pre) s
    = ref_int c (flagged c "-" || neg) w p signed radix (upper && (radix =? 16)) v.
Proof.
  intros Hr Hz Hwa Hpa Hleft Hzero Hplus Hspace Hoct Hpre Hmag Hv Hu. unfold int_conversion.
  change (if has_flag a1 SECUREC_FLAG_SIGNED && (l <? 0) then (u64 (- l), add_flags a1 SECUREC_FLAG_NEGATIVE) else (u64 l, a1)) with (magnitude l a1).
  rewrite Hmag. set (m := Z.abs v). set (a2 := negative a v).
  assert (forall y, fbit SECUREC_FLAG_NEGATIVE y = false -> has_flag a2 y = has_flag a y) as H2.
  { intros y Hy. unfold a2, negative. destruct (v <? 0); [|done]. by rewrite has_flag_add, Hy, orb_false_r. }
  destruct Hz as [Hsg Hi Hc Hsh Hl Hll Hpd Hsz Hpt Hng]. rewrite !H2 by done. rewrite Hi, Hll, Hpd, Hsz, Hl, Hpt.
  replace (if false || fbit (size_flags (cv_size c)) SECUREC_FLAG_LONGLONG || (lp64 && (false || false || fbit (size_flags (cv_size c)) SECUREC_FLAG_LONG))
           then m else Z.land m 0xffffffff) with m.
  2:{ replace (false || _ || _) with (is_wide lp64 (cv_size c)) by (by destruct (cv_size c), lp64). destruct (is_wide _ _); [done|].
      change 0xffffffff with (Z.ones 32). rewrite Z.land_ones, Z.mod_small by lia. done. }
  assert (fa_precision a2 = default (-1) p) as Hpa2 by (unfold a2, negative; by destruct (v <? 0)).
  set (a3 := match p with None => a2 | Some _ => clear_flags a2 SECUREC_FLAG_LEADZERO end).
  assert ((if fa_precision a2 <? 0 then (a2, 1)
           else (if false then a2 else clear_flags a2 SECUREC_FLAG_LEADZERO, Z.min (fa_precision a2) SECUREC_MAX_PRECISION)) = (a3, default 1 p)) as ->.
  { rewrite Hpa2. unfold a3. destruct p as [q|]; [|done]. specialize (Hp q eq_refl). change (default _ (Some q)) with q.
    change (default 1 (Some q)) with q. destruct (Z.ltb_spec q 0); [lia|]. by rewrite Z.min_l by lia. }
  assert (forall y, fbit SECUREC_FLAG_NEGATIVE y = false -> Z.ldiff y SECUREC_FLAG_LEADZERO = y -> has_flag a3 y = has_flag a y) as H3.
  { intros y Hy Hd. unfold a3. destruct p; [rewrite has_flag_clear, Hd|]; by apply H2. }
  assert (has_flag a3 SECUREC_FLAG_LEADZERO = flagged c "0" && bool_decide (p = None)) as H3z.
  { unfold a3. destruct p as [q|]; [|by rewrite H2, Hzero, andb_true_r]. rewrite has_flag_clear. unfold has_flag. change (Z.ldiff _ _) with 0. by rewrite Z.land_0_r, andb_false_r. }
  assert (has_flag a3 SECUREC_FLAG_NEGATIVE = (v <? 0)) as H3n.
  { unfold a3, a2, negative. destruct p; rewrite ?has_flag_clear; destruct (v <? 0); rewrite ?has_flag_add; cbn [Z.ldiff]; try by rewrite orb_true_r.
    all: exact Hng. }
  assert (fa_fldWidth a3 = w) as H3w by (unfold a3, a2, negative; by destruct p, (v <? 0)).
  eexists a3, _, _. split; [done|]. rewrite (int_text_ref lp64 a3 upper radix m p); [|done|destruct (is_wide _ _); lia|intros q ->; by apply Hp].
  assert (slen (ref_number (has_flag a3 SECUREC_FLAG_FORCE_OCTAL) (upper && (radix =? 16)) radix p m) <= SECUREC_BUFFER_SIZE) as Hlen.
  { rewrite <- (int_text_ref lp64 a3 upper radix m p); [|done|destruct (is_wide _ _); lia|intros q ->; by apply Hp].
    apply slen_int_text. destruct p as [q|]; cbn [default]; [by apply Hp | done]. }
  assert (slen (if m =? 0 then "" else prefix) <= 2) as Hpl.
  { rewrite Hpre. destruct (m =? 0); [done|]. destruct (_ && _ && _); [by destruct upper | done]. }
  split; [done|]. split; [done|]. rewrite layout_ref; [|by rewrite H3w|unfold SECUREC_BUFFER_SIZE in Hlen; lia|by apply sign_prefix_len].
  unfold ref_int. rewrite H3w, H3z, (H3 SECUREC_FLAG_LEFT), Hleft by done. f_equal.
  - unfold sign_prefix. rewrite H3n, !H3, Hsg, Hplus, Hspace, Hpre by done. destruct signed; cbn [negb andb].
    + destruct (v <? 0); [done|]. destruct (flagged c "+"); [done|]. destruct (flagged c " "); [done|]. by destruct (m =? 0).
    + fold m. destruct (m =? 0); [by rewrite andb_false_r|]. cbn [negb]. rewrite andb_true_r.
      destruct (flagged c "#"), (Z.eqb_spec radix 16); cbn [andb]; try done. by rewrite andb_true_r.
  - rewrite (H3 SECUREC_FLAG_FORCE_OCTAL), Hoct by done. done.
Qed.
End int.

(** ** One conversion *)

Section one.
Context (lp64 char_signed : bool) (wctomb : Z -> option string) (malloc : Z -> bool).
Context (vsprintf_s : Z -> string -> list Z -> Z -> option string).
Context (c : conv_spec) (neg : bool) (w : Z) (p : option Z) (dw dp : bool).
Context (Hw : 0 <= w <= 2 ^ 30) (Hp : forall q, p = Some q -> 0 <= q <= SECUREC_MAX_PRECISION).
Definition spec_attr : SecFormatAttr := mkAttr (spec_flags c neg) w (default (-1) p) dw dp.

Lemma spec_sized : sized spec_attr false (cv_size c).
Proof.
  unfold spec_attr. split; unfold has_flag; cbn [fa_flags]; change (negb (Z.land ?x ?y =? 0)) with (fbit x y);
    (rewrite spec_size_bits; [|each_char|done]); try done; by destruct (cv_size c).
Qed.
Lemma sized_add a x signed signed' z :
  sized a signed z -> fbit x SECUREC_FLAG_SIGNED = signed' -> Z.land x 0x3f930 = 0 -> Z.land x 0x100 = 0 ->
  sized (add_flags a x) (signed || signed') z.
Proof.
  intros [Hsg Hi Hc Hsh Hl Hll Hpd Hsz Hpt Hng] Hx Hm Hn.
  assert (forall y, Z.land 0x3f930 y = y \/ y = 0x100 -> fbit x y = false) as Hy.
  { intros y Hy. unfold fbit. destruct Hy as [<-| ->]; [|by rewrite Hn]. by rewrite Z.land_assoc, Hm. }
  split; rewrite has_flag_add; [by rewrite Hsg, Hx|..]; rewrite Hy by (by left || by right); by rewrite orb_false_r.
Qed.

(** What the text of an argument amounts to: hidden, the argument is passed
    over; shown, the text is written with this layout. *)
Definition converted (t : string) (before : string) (v : varg) (rest : list varg) : Prop :=
  convert lp64 char_signed wctomb malloc vsprintf_s (cv_type c) spec_attr true before (v :: rest) = Some (ConvBreak, rest) /\
  exists a pre s,
    convert lp64 char_signed wctomb malloc vsprintf_s (cv_type c) spec_attr false before (v :: rest) = Some (ConvText a pre (Narrow s), rest) /\
    slen pre <= 2 /\ slen s <= 2 ^ 30 /\ layout a (padding_of a (slen s) (sign_prefix a pre)) (sign_prefix a pre) s = t.

Lemma ref_arg_nonneg z v n : ref_arg lp64 false z v = Some n -> 0 <= n.
Proof.
  pose proof (fun w z H => proj1 (wrapu_range w z H)) as R.
  destruct z, v; try done; cbn; try destruct lp64; try done; intros [= <-]; apply R; lia.
Qed.

Lemma output_int_ref a signed (upper : bool) radix prefix v rest n :
  radix = 8 \/ radix = 10 \/ radix = 16 -> sized a signed (cv_size c) -> fa_fldWidth a = w -> fa_precision a = default (-1) p ->
  has_flag a SECUREC_FLAG_LEFT = flagged c "-" || neg -> has_flag a SECUREC_FLAG_LEADZERO = flagged c "0" ->
  has_flag a SECUREC_FLAG_SIGN = flagged c "+" -> has_flag a SECUREC_FLAG_SIGN_SPACE = flagged c " " ->
  has_flag a SECUREC_FLAG_FORCE_OCTAL = flagged c "#" && (radix =? 8) ->
  prefix = (if negb signed && flagged c "#" && (radix =? 16) then (if upper then "0X" else "0x") else "") ->
  ref_arg lp64 signed (cv_size c) v = Some n ->
  output_int lp64 char_signed a (if upper then itoaUpperDigits else itoaLowerDigits) radix prefix true (v :: rest) = Some (ConvBreak, rest) /\
  exists a' pre s,
    output_int lp64 char_signed a (if upper then itoaUpperDigits else itoaLowerDigits) radix prefix false (v :: rest)
    = Some (ConvText a' pre (Narrow s), rest) /\
    slen pre <= 2 /\ slen s <= 2 ^ 30 /\ layout a' (padding_of a' (slen s) (sign_prefix a' pre)) (sign_prefix a' pre) s
    = ref_int c (flagged c "-" || neg) w p signed radix (upper && (radix =? 16)) n.
Proof using Hw Hp.
  intros Hr Hz Hwa Hpa H1 H2 H3 H4 H5 Hpre Hn. unfold output_int.
  destruct (read_ref lp64 char_signed a signed (cv_size c) v n rest Hz Hn) as (l & a1 & -> & Hmag & Hlt). split; [done|].
  destruct (int_conversion_ref lp64 c neg w p Hw Hp a signed upper radix prefix l a1 n) as (a' & pre & s & E & Hpl & Hsl & Ht); try done.
  { intros ->. by eapply ref_arg_nonneg. }
  exists a', pre, s. cbn [mbind option_bind]. rewrite E. unfold SECUREC_BUFFER_SIZE in Hsl. repeat split; try done. lia.
Qed.

(** The bits of the attributes, for each extra flag a conversion may add. *)
Lemma spec_bits x :
  Z.land x 0x8f = 0 ->
  has_flag (add_flags spec_attr x) SECUREC_FLAG_LEFT = flagged c "-" || neg /\
  has_flag (add_flags spec_attr x) SECUREC_FLAG_LEADZERO = flagged c "0" /\
  has_flag (add_flags spec_attr x) SECUREC_FLAG_SIGN = flagged c "+" /\
  has_flag (add_flags spec_attr x) SECUREC_FLAG_SIGN_SPACE = flagged c " " /\
  has_flag (add_flags spec_attr x) SECUREC_FLAG_ALTERNATE = flagged c "#".
Proof.
  intros Hx. destruct (spec_flag_bits c neg) as (H1 & H2 & H3 & H4 & H5).
  assert (forall y, Z.land 0x8f y = y -> fbit x y = false) as Hy by (intros y <-; unfold fbit; by rewrite Z.land_assoc, Hx).
  rewrite !has_flag_add, !Hy, !orb_false_r by done. auto.
Qed.
Lemma add_no_flags a : add_flags a 0 = a.
Proof. destruct a. unfold add_flags. cbn. by rewrite Z.lor_0_r. Qed.

(** The extra flag of an integer conversion. *)
Definition int_extra (x : Z) (signed : bool) (radix : Z) : Prop :=
  (x = SECUREC_FLAG_SIGNED /\ signed = true /\ radix = 10) \/ (x = 0 /\ signed = false /\ (radix = 10 \/ radix = 16)) \/
  (x = (if flagged c "#" then SECUREC_FLAG_FORCE_OCTAL else 0) /\ signed = false /\ radix = 8).

Lemma int_case_ref x signed (upper : bool) radix prefix v rest n :
  int_extra x signed radix ->
  prefix = (if negb signed && flagged c "#" && (radix =? 16) then (if upper then "0X" else "0x") else "") ->
  ref_arg lp64 signed (cv_size c) v = Some n ->
  let out := output_int lp64 char_signed (add_flags spec_attr x) (if upper then itoaUpperDigits else itoaLowerDigits) radix prefix in
  out true (v :: rest) = Some (ConvBreak, rest) /\
  exists a pre s, out false (v :: rest) = Some (ConvText a pre (Narrow s), rest) /\
    slen pre <= 2 /\ slen s <= 2 ^ 30 /\ layout a (padding_of a (slen s) (sign_prefix a pre)) (sign_prefix a pre) s
    = ref_int c (flagged c "-" || neg) w p signed radix (upper && (radix =? 16)) n.
Proof using Hw Hp.
  intros Hx Hpre Hn out.
  assert (Z.land x 0x8f = 0) as Hx8 by (destruct Hx as [[-> _]|[[-> _]|[-> _]]]; [done..|]; by destruct (flagged c "#")).
  destruct (spec_bits x Hx8) as (H1 & H2 & H3 & H4 & _).
  assert (sized (add_flags spec_attr x) signed (cv_size c)) as Hz.
  { assert (fbit x SECUREC_FLAG_SIGNED = signed /\ Z.land x 0x3f930 = 0 /\ Z.land x 0x100 = 0) as (? & ? & ?)
      by (destruct Hx as [(-> & -> & _)|[(-> & -> & _)|(-> & -> & _)]]; [done..|]; by destruct (flagged c "#")).
    exact (sized_add _ x false signed _ spec_sized ltac:(done) ltac:(done) ltac:(done)). }
  apply output_int_ref; try done.
  { destruct Hx as [(_ & _ & ->)|[(_ & _ & [-> | ->])|(_ & _ & ->)]]; auto. }
  rewrite has_flag_add. unfold has_flag, spec_attr. cbn [fa_flags]. change (negb (Z.land ?x ?y =? 0)) with (fbit x y).
  rewrite spec_size_bits; [|each_char|done]. replace (fbit (size_flags _) _) with false by (by destruct (cv_size c)).
  destruct Hx as [(-> & _ & ->)|[(-> & _ & [-> | ->])|(-> & _ & ->)]]; try (by rewrite andb_false_r). by destruct (flagged c "#").
Qed.

Lemma convert_int_ref v rest before t :
  str_mem (cv_type c) "diouxX" = true -> ref_text c (flagged c "-" || neg) w p lp64 v = Some t -> converted t before v rest.
Proof using Hw Hp.
  intros Hty. pose proof (spec_bits 0 eq_refl) as (_ & _ & _ & _ & Halt). rewrite add_no_flags in Halt.
  assert ((if has_flag spec_attr SECUREC_FLAG_ALTERNATE then add_flags spec_attr SECUREC_FLAG_FORCE_OCTAL else spec_attr)
          = add_flags spec_attr (if flagged c "#" then SECUREC_FLAG_FORCE_OCTAL else 0)) as Ho
    by (rewrite Halt; destruct (flagged c "#"); [done | by rewrite add_no_flags]).
  pose proof (fun signed upper radix pre n => int_case_ref 0 signed upper radix pre v rest n) as H0. cbv zeta in H0. rewrite add_no_flags in H0.
  unfold converted, convert, output_hex, ref_text. rewrite Ho, Halt. revert Hty.
  destruct (cv_type c) as [[] [] [] [] [] [] [] []]; try discriminate; intros _;
    destruct (ref_arg lp64 _ (cv_size c) v) as [n|] eqn:En; try done; cbn [mbind option_bind]; intros [= <-];
    lazymatch goal with
    | |- context [output_int _ _ (add_flags spec_attr SECUREC_FLAG_SIGNED)] => apply (int_case_ref SECUREC_FLAG_SIGNED true true 10 ""); [by left | done..]
    | |- context [output_int _ _ _ _ 8] =>
        apply (int_case_ref _ false true 8 ""); [by right; right | by rewrite andb_false_r | done]
    | |- context [output_int _ _ _ _ 10] => apply (H0 false true 10 ""); [right; left; auto | by rewrite andb_false_r | done]
    | |- context [output_int _ _ _ itoaUpperDigits 16] => apply (H0 false true 16); [right; left; auto | by destruct (flagged c "#") | done]
    | |- context [output_int _ _ _ itoaLowerDigits 16] => apply (H0 false false 16); [right; left; auto | by destruct (flagged c "#") | done]
    end.
Qed.

Lemma convert_text_ref v rest before t :
  cv_size c = SzNone -> cv_type c = "c"%char \/ cv_type c = "s"%char ->
  ref_text c (flagged c "-" || neg) w p lp64 v = Some t -> converted t before v rest.
Proof using Hw Hp.
  intros Hz Hty. pose proof (spec_bits 0 eq_refl) as (Hl & H0 & _). rewrite add_no_flags in Hl, H0.
  assert (has_flag spec_attr SECUREC_FLAG_SIGNED = false) as Hs by apply spec_sized.
  assert (has_flag spec_attr (Z.lor SECUREC_FLAG_LONG SECUREC_FLAG_WIDECHAR) = false) as Hwide.
  { unfold has_flag, spec_attr. cbn [fa_flags]. change (negb (Z.land ?x ?y =? 0)) with (fbit x y).
    rewrite spec_size_bits; [by rewrite Hz | each_char | done]. }
  assert (forall s, slen s <= 2 ^ 30 -> layout spec_attr (padding_of spec_attr (slen s) (sign_prefix spec_attr "")) (sign_prefix spec_attr "") s
          = ref_pad (flagged c "-" || neg) (flagged c "0") w "" s) as Hlay.
  { intros s Hs'. unfold sign_prefix. rewrite Hs. rewrite layout_ref; [by rewrite Hl, H0 | done..]. }
  unfold converted, convert, ref_text. destruct Hty as [-> | ->].
  - unfold ref_char, convert_c. destruct v as [n| | | | |]; try done. intros [= <-]. split; [done|].
    exists spec_attr, "", (String (byte_chr (u8 (u32 (i32 n)))) ""). cbn [va_int mbind option_bind]. unfold SecDecodeTypeC. rewrite Hwide.
    rewrite slen_cons. change (slen "") with 0. repeat split; try done. rewrite <- Hlay; [by rewrite slen_cons|]. by rewrite slen_cons.
  - unfold ref_str, convert_s. destruct v as [| | |q| |]; try done. destruct (Z.leb_spec (slen (default "" q)) (2 ^ 30)) as [Hq|]; [|done].
    intros [= <-]. split; [done|].
    set (s := cstr (default "(null)" q)). set (text := match p with Some p => str_take (Z.to_nat p) s | None => s end).
    assert (slen s <= 2 ^ 30) as Hsl.
    { unfold s. etransitivity; [apply cstr_le|]. destruct q; [done|]. by vm_compute. }
    assert (slen text <= 2 ^ 30) as Htl by (unfold text; destruct p; [rewrite slen_take|]; lia).
    exists spec_attr, "", text. cbn [va_ptr mbind option_bind]. unfold SecDecodeTypeS. rewrite Hwide.
    assert (forall u, cstr u = s -> slen u <= 2 ^ 30 ->
      str_take (Z.to_nat (Z.min (if fa_precision spec_attr =? -1 then SECUREC_INT_MAX else fa_precision spec_attr) (slen u))) (cstr u) = text) as Hu.
    { intros u Eu Hul. pose proof (cstr_le u). pose proof (slen_nonneg u). rewrite Eu in *. unfold spec_attr, text. cbn [fa_precision]. destruct p as [m|].
      - change (default (-1) (Some m)) with m. specialize (Hp m eq_refl). destruct (Z.eqb_spec m (-1)); [lia|].
        destruct (Z.le_gt_cases m (slen u)); [by rewrite Z.min_l by lia|]. rewrite Z.min_r, !str_take_all by lia. done.
      - change (default (-1) None) with (-1). rewrite Z.eqb_refl. unfold SECUREC_INT_MAX. rewrite Z.min_r, str_take_all by lia. done. }
    repeat split; try done; [|by apply Hlay].
    destruct q as [u|]; cbn [mbind option_bind]; [rewrite (Hu u eq_refl Hq) | rewrite (Hu strNullString eq_refl ltac:(by vm_compute))]; done.
Qed.

Lemma convert_ref v rest before t :
  conv_wf c -> ref_text c (flagged c "-" || neg) w p lp64 v = Some t -> converted t before v rest.
Proof using Hw Hp.
  intros (_ & _ & _ & Hty). destruct (str_mem (cv_type c) "diouxX") eqn:E; [by apply convert_int_ref|].
  destruct (cv_size c) eqn:Ez; try congruence. apply convert_text_ref; [done|]. revert Hty E.
  destruct (cv_type c) as [[] [] [] [] [] [] [] []]; try discriminate; auto.
Qed.
End one.

(** ** A whole format *)

Lemma str_take_take m n s : (m <= n)%nat -> str_take m (str_take n s) = str_take m s.
Proof. revert m n; induction s as [|c s IH]; intros [|m] [|n] Hle; try done; [lia|]. cbn. by rewrite IH by lia. Qed.

Lemma ref_width_range ws args neg w rest : width_wf ws -> ref_width ws args = Some (neg, w, rest) -> 0 <= w <= 2 ^ 30.
Proof.
  intros Hws. destruct ws as [|ds|]; cbn [ref_width].
  - intros [= <- <- <-]. lia.
  - intros [= <- <- <-]. destruct Hws as (Hd & _ & Hle). pose proof (read_digits_ge 0 ds ltac:(lia) Hd). lia.
  - destruct args as [|[z| | | | |] args]; try done. destruct (Z.leb_spec (Z.abs z) (2 ^ 30)); [|done]. intros [= <- <- <-]. lia.
Qed.
Lemma ref_prec_range ps args p rest q : prec_wf ps -> ref_prec ps args = Some (p, rest) -> p = Some q -> 0 <= q <= SECUREC_MAX_PRECISION.
Proof.
  intros Hps. destruct ps as [|ds|]; cbn [ref_prec].
  - by intros [= <- <-].
  - intros [= <- <-] [= <-]. destruct Hps as (Hd & Hle). pose proof (read_digits_ge 0 ds ltac:(lia) Hd). lia.
  - destruct args as [|[z| | | | |] args]; try done. destruct (Z.leb_spec (Z.abs z) SECUREC_MAX_PRECISION); [|done]. intros [= <- <-].
    destruct (Z.ltb_spec z 0); [done|]. intros [= <-]. lia.
Qed.

Section pieces.
Context (lp64 char_signed : bool) (wctomb : Z -> option string) (malloc : Z -> bool).
Context (vsprintf_s : Z -> string -> list Z -> Z -> option string) (priv : bool) (N : nat) (HN : Z.of_nat N < 2 ^ 31).
Abbreviation run := (run lp64 char_signed wctomb malloc vsprintf_s priv).

Lemma written_live k t f n : written N k t (f, n) -> 0 <= n -> written N 0 t (f, n).
Proof. intros [?|(_ & _ & _ & Hn)] H0; [by left | cbn in Hn; lia]. Qed.

(** The character of the conversion: the text is written. *)
Lemma run_type c b st neg w p dw dp f n v rest args t T :
  conv_wf c -> before_type st = true -> 0 <= w <= 2 ^ 30 -> (forall q, p = Some q -> 0 <= q <= SECUREC_MAX_PRECISION) ->
  ref_text c (flagged c "-" || neg) w p lp64 v = Some t -> 0 <= n -> written N 4 T (f, n) ->
  exists b' st' a f' n', (st' = STAT_NORMAL \/ st' = STAT_TYPE) /\
    written N 4 (T +:+ (if spec_hidden priv c then "<private>" else t)) (f', n') /\
    run b (String (cv_type c) rest) (mkFmt st (spec_attr c neg w p dw dp) (spec_hidden priv c) f n (v :: args))
    = run b' rest (mkFmt st' a (spec_hidden priv c) f' n' args).
Proof using HN.
  intros Hwf Hst Hw Hp Ht Hn Hwr. pose proof (written_live _ _ _ _ Hwr Hn) as H0.
  destruct (convert_ref lp64 char_signed wctomb malloc vsprintf_s c neg w p dw dp Hw Hp v args (String (cv_type c) b) t Hwf Ht)
    as [Hhid (a' & pre & s & Hshow & Hpre & Hs & Hlay)].
  pose proof (type_state _ _ (conv_type_mem c Hwf) Hst) as Hty.
  destruct (spec_hidden priv c).
  - pose proof (write_text_written N 0 HN ltac:(lia) T PRIVACY_STRING f n H0 ltac:(by vm_compute)) as Hp'.
    destruct (write_text PRIVACY_STRING f n) as [f' n'] eqn:Ew.
    exists (String (cv_type c) b), STAT_TYPE, (spec_attr c neg w p dw dp), f', n'. split; [by right|]. split; [eapply written_le; [exact Hp' | lia]|].
    apply run_step; [done|]. unfold fmt_step. cbn [fs_state]. rewrite Hty. unfold do_type. cbn [fs_attr fs_isPrivacy fs_args fs_stream fs_charsOut].
    rewrite Hhid. cbn [mbind option_bind]. unfold SecWritePrivateStr. by rewrite Ew.
  - pose proof (write_conversion_written wctomb N T a' pre s f n HN Hpre ltac:(lia) H0) as Hc. rewrite Hlay in Hc.
    destruct (write_conversion wctomb a' pre (Narrow s) f n) as [f' n'] eqn:Ew.
    exists (String (cv_type c) b), STAT_TYPE, (spec_attr c neg w p dw dp), f', n'. split; [by right|]. split; [done|].
    apply run_step; [done|]. unfold fmt_step. cbn [fs_state]. rewrite Hty. unfold do_type. cbn [fs_attr fs_isPrivacy fs_args fs_stream fs_charsOut].
    rewrite Hshow. cbn [mbind option_bind]. by rewrite Ew.
Qed.

Lemma run_pieces l b st a ip f n args text T :
  Forall piece_wf l -> render lp64 priv l args = Some text -> st = STAT_NORMAL \/ st = STAT_TYPE -> written N 4 T (f, n) ->
  exists n' f', run b (show l) (mkFmt st a ip f n args) = Some (n', f') /\ written N 4 (T +:+ text) (f', n').
Proof using HN.
  revert b st a ip f n args text T; induction l as [|pc l IH]; intros b st a ip f n args text T Hwf Hr Hst Hw.
  { injection Hr as <-. exists n, f. rewrite str_app_nil_r. split; [by destruct Hst as [-> | ->] | done]. }
  destruct (Z.lt_ge_cases n 0) as [Hneg|Hpos].
  { exists n, f. split; [|by apply written_full]. rewrite run_full by done. by destruct Hst as [-> | ->]. }
  apply Forall_cons_1 in Hwf as [Hpc Hwf]. change (show (pc :: l)) with (show_piece pc +:+ show l).
  assert (forall ch b st, written N 1 (T +:+ String ch "") (write_char ch f n) ->
    SECUREC_DECODE_STATE ch st = STAT_NORMAL -> forall a ip, exists f' n', written N 4 (T +:+ String ch "") (f', n') /\
    run b (String ch (show l)) (mkFmt st a ip f n args) = run (String ch b) (show l) (mkFmt STAT_NORMAL a ip f' n' args)) as Hput.
  { intros ch b0 st0 Hc Hs0 a0 ip0. destruct (write_char ch f n) as [f' n'] eqn:Ew. exists f', n'. split; [eapply written_le; [exact Hc | lia]|].
    apply run_step; [done|]. unfold fmt_step. cbn [fs_state]. rewrite Hs0. unfold put_char. cbn [fs_stream fs_charsOut]. by rewrite Ew. }
  pose proof (written_live _ _ _ _ Hw Hpos) as H0.
  assert (forall ch, written N 1 (T +:+ String ch "") (write_char ch f n)) as Hch by (intros ch; by apply (write_char_written N 0)).
  destruct pc as [ch| |c]; cbn [render show_piece] in *.
  - destruct (render lp64 priv l args) as [s|] eqn:Es; [|done]. injection Hr as <-.
    assert (SECUREC_DECODE_STATE ch st = STAT_NORMAL) as Hs.
    { destruct Hpc as [Hpc _]. revert Hpc. clear -Hst. destruct Hst as [-> | ->]; destruct ch as [[] [] [] [] [] [] [] []]; try done; intros H; by destruct H. }
    destruct (Hput ch b st (Hch ch) Hs a ip) as (f' & n' & Hw' & E). rewrite str_cons_app, str_nil_app, E.
    replace (T +:+ String ch s) with ((T +:+ String ch "") +:+ s) by (by rewrite <- str_app_assoc, str_cons_app, str_nil_app).
    eapply IH; [done..|by left|done].
  - destruct (render lp64 priv l args) as [s|] eqn:Es; [|done]. injection Hr as <-. rewrite !str_cons_app, str_nil_app.
    destruct (run_percent lp64 char_signed wctomb malloc vsprintf_s priv None b st a ip f n args (String "%" (show l)) Hst Hpos ltac:(done)) as (b1 & E1).
    cbn [show_mark] in E1. rewrite str_nil_app in E1. rewrite E1.
    edestruct (Hput "%"%char b1 STAT_PERCENT (Hch _) eq_refl) as (f' & n' & Hw' & E2). rewrite E2.
    replace (T +:+ String "%" s) with ((T +:+ String "%" "") +:+ s) by (by rewrite <- str_app_assoc, str_cons_app, str_nil_app).
    eapply IH; [done..|by left|done].
  - unfold ref_conv in Hr. destruct (ref_width (cv_width c) args) as [[[neg w] args1]|] eqn:Ew; [|done]. cbn [mbind option_bind] in Hr.
    destruct (ref_prec (cv_prec c) args1) as [[p args2]|] eqn:Ep; [|done]. cbn [mbind option_bind] in Hr.
    destruct args2 as [|v args3]; [done|]. destruct (ref_text c (flagged c "-" || neg) w p lp64 v) as [t|] eqn:Et; [|done]. cbn [mbind option_bind] in Hr.
    destruct (render lp64 priv l args3) as [s|] eqn:Es; [|done]. injection Hr as <-.
    destruct (run_conv lp64 char_signed wctomb malloc vsprintf_s priv c b st a ip f n args (show l) neg w args1 p (v :: args3) Hpc Hst Hpos Ew Ep)
      as (b1 & st1 & dw & dp & Hst1 & ->).
    destruct Hpc as (Hfl & Hws & Hps & Hty).
    edestruct (run_type c b1 st1 neg w p dw dp f n v (show l) args3 t T) as (b2 & st2 & a2 & f' & n' & Hst2 & Hw2 & E2);
      [by repeat split | done | by eapply ref_width_range | by intros q; eapply ref_prec_range | done..|].
    unfold spec_attr in E2. rewrite E2, str_app_assoc. by eapply IH.
Qed.
End pieces.

Lemma str_all_no_nul (P : ascii -> Prop) s : (~ P NUL) -> str_all P s -> no_char NUL s.
Proof.
  intros HP. induction s as [|ch s IH]; [intros _; apply not_elem_of_nil|]. intros [Hc Hs].
  apply no_char_cons. split; [by intros <- | by apply IH].
Qed.
Lemma digits_no_nul ds : str_all is_dec ds -> no_char NUL ds.
Proof. apply str_all_no_nul. intros [H _]. by vm_compute in H. Qed.

Lemma show_no_nul l : Forall piece_wf l -> no_char NUL (show l).
Proof.
  assert (forall s, str_mem NUL s = false -> no_char NUL s) as Hlit.
  { intros s Hs. destruct (decide (no_char NUL s)) as [?|Hn]; [done|]. apply str_mem_spec in Hn. congruence. }
  induction 1 as [|pc l Hpc _ IH]; [apply not_elem_of_nil|]. change (show (pc :: l)) with (show_piece pc +:+ show l).
  apply no_char_app; [|done]. destruct pc as [ch| |c]; cbn [show_piece].
  - destruct Hpc as [_ Hc]. apply no_char_cons. split; [done | apply not_elem_of_nil].
  - by apply Hlit.
  - pose proof (conv_type_mem c Hpc) as Hty. destruct Hpc as (Hfl & Hws & Hps & _). unfold show_conv.
    apply no_char_cons. split; [done|]. apply no_char_app; [by apply Hlit; destruct (cv_mark c) as [[]|]|].
    apply no_char_app; [eapply str_all_no_nul, Hfl; done|].
    apply no_char_app; [destruct (cv_width c) as [|ds|] in Hws |- *; [by apply Hlit | apply digits_no_nul, Hws | by apply Hlit]|].
    apply no_char_app; [destruct (cv_prec c) as [|ds|] in Hps |- *; [by apply Hlit | | by apply Hlit]; apply no_char_cons; split; [done | apply digits_no_nul, Hps]|].
    apply no_char_app; [by apply Hlit; destruct (cv_size c)|]. apply no_char_cons. split; [by intros E; rewrite <- E in Hty | apply not_elem_of_nil].
Qed.

Lemma vsnprintfp_pieces lp64 char_signed wctomb malloc vsprintf_s destMax priv l args text :
  Forall piece_wf l -> render lp64 priv l args = Some text -> 0 < destMax <= SECUREC_STRING_MAX_LEN ->
  vsnprintfp_s lp64 char_signed wctomb malloc vsprintf_s destMax (destMax - 1) priv (show l) args
  = Some (if slen text <? destMax then (slen text, text) else (-1, str_take (Z.to_nat (destMax - 1)) text)).
Proof.
  intros Hwf Hr Hd. pose proof Hd as Hd'. unfold SECUREC_STRING_MAX_LEN in Hd'. unfold vsnprintfp_s.
  rewrite (proj2 (Z.eqb_neq destMax 0)), (proj2 (Z.ltb_ge _ destMax)), (proj2 (Z.ltb_ge _ (destMax - 1))),
    (proj2 (Z.ltb_lt (destMax - 1) destMax)) by (unfold SECUREC_STRING_MAX_LEN; lia). cbn [orb andb].
  unfold SecVsnprintfPImpl, SecOutputPS. rewrite cstr_id by (by apply show_no_nul). replace (destMax - 1 + 1) with destMax by lia.
  assert (written (Z.to_nat destMax) 4 "" (mkStream destMax "", 0)) as H0.
  { left. change (slen "") with 0. split; [lia|]. do 2 f_equal. lia. }
  destruct (run_pieces lp64 char_signed wctomb malloc vsprintf_s priv (Z.to_nat destMax) ltac:(lia) l "" STAT_NORMAL (mkAttr 0 0 0 false false) true
    (mkStream destMax "") 0 args text "" Hwf Hr ltac:(by left) H0) as (n' & f' & E & Hw).
  unfold run in E. rewrite E. cbn [mbind option_bind]. rewrite str_nil_app in Hw. pose proof (slen_nonneg text).
  destruct Hw as [[Ht [= -> ->]]|(Ht & Hc & Hx & Hr')]; cbn [fst snd st_count st_text] in *.
  - rewrite (proj2 (Z.leb_le 0 (slen text))) by done. cbn [andb]. cbv beta iota. destruct (Z.ltb_spec (slen text) destMax).
    + rewrite (proj2 (Z.leb_le 0 _)) by lia. cbn [mbind option_bind]. unfold SECUREC_PRINTF_TRUNCATE.
      rewrite (proj2 (Z.eqb_neq _ (-2))), (proj2 (Z.ltb_ge _ 0)) by lia. done.
    + rewrite (proj2 (Z.leb_gt 0 _)), (proj2 (Z.ltb_lt _ 0)) by lia. done.
  - subst n'. change (0 <=? -1) with false. cbn [andb]. cbv beta iota. rewrite (proj2 (Z.ltb_lt (st_count f' - 0) 0)) by lia. rewrite (proj2 (Z.ltb_ge (slen text) destMax)) by lia.
    cbn [mbind option_bind]. rewrite Hx, str_take_take by lia. done.
Qed.

(** The format of the bindings and of the calls with a ready text. *)
Lemma vsnprintfp_public lp64 char_signed wctomb malloc vsprintf_s destMax priv s :
  no_char NUL s -> slen s <= 2 ^ 30 -> 0 < destMax <= SECUREC_STRING_MAX_LEN ->
  vsnprintfp_s lp64 char_signed wctomb malloc vsprintf_s destMax (destMax - 1) priv "%{public}s" [VStr (Some s)]
  = Some (if slen s <? destMax then (slen s, s) else (-1, str_take (Z.to_nat (destMax - 1)) s)).
Proof.
  intros Hn Hs Hd. apply (vsnprintfp_pieces lp64 char_signed wctomb malloc vsprintf_s destMax priv
    [Conv (mkConv (Some true) "" NoCount NoCount SzNone "s")] [VStr (Some s)] s); [repeat constructor | | done].
  cbn [render]. unfold ref_conv, ref_text, ref_str, ref_pad. cbn [cv_width cv_prec cv_type cv_mark ref_width ref_prec mbind option_bind default id].
  rewrite (proj2 (Z.leb_le _ _) Hs), cstr_id by done. cbn [mbind option_bind]. change (slen "") with 0.
  replace (Z.to_nat (0 - 0 - slen s)) with 0%nat by (pose proof (slen_nonneg s); lia). rewrite andb_false_r. cbn [mbind option_bind].
  by rewrite str_app_nil_r.
Qed.

(** C5: a format built from literal characters and the integer, character and
    string conversions, with any flags, width, precision and size, gives the
    text of the reference: the C standard's text for what is shown, the
    private string for what is hidden.  A text that does not fit is cut at the
    end of the buffer and reported with -1. *)
Theorem format_reference lp64 char_signed wctomb malloc vsprintf_s destMax priv l args text :
  Forall piece_wf l -> render lp64 priv l args = Some text -> 0 < destMax <= SECUREC_STRING_MAX_LEN ->
  vsnprintfp_s lp64 char_signed wctomb malloc vsprintf_s destMax (destMax - 1) priv (show l) args
  = Some (if slen text <? destMax then (slen text, text) else (-1, str_take (Z.to_nat (destMax - 1)) text)).
Proof. apply vsnprintfp_pieces. Qed.

Definition ex_format : list piece :=
  [Lit "a"; Conv (mkConv (Some true) "+" (Digits "6") NoCount SzNone "d"); Percent;
   Conv (mkConv None "" NoCount NoCount SzL "u"); Conv (mkConv (Some true) "-#" Star (Digits "3") SzNone "x")].
Definition ex_format_args : list varg := [VInt 42; VLong 7; VInt 8; VInt 255].

Lemma format_reference_witness :
  vsnprintfp_s true true (fun _ => None) (fun _ => true) (fun _ _ _ _ => None) 1024 1023 true (show ex_format) ex_format_args
  = Some (25, "a   +42%<private>0x0ff   ").
Proof.
  refine (format_reference true true (fun _ => None) (fun _ => true) (fun _ _ _ _ => None) 1024 true ex_format ex_format_args
    "a   +42%<private>0x0ff   " _ _ _).
  - repeat (apply Forall_cons; split); try apply Forall_nil; try done; repeat split; done.
  - by vm_compute.
  - by vm_compute.
Defined.
