(* ===== verification/SandboxFs.v ===== *)
(** * Files, locks and memory-mapped buffers of the sandbox log

    The part of the operating system the sandbox log relies on, the helpers of
    sandbox_utils.cpp and LogMmapManager (log_mmap_manager.cpp).

    A path names an inode; an open file description refers to an inode whatever
    its path has become, and owns at most the write lock of that inode.  The
    descriptions of all processes are in one table.  A mapping shares the bytes
    of its inode, so what is written through it survives the process and is
    seen through every other mapping of the file.  A call that the system may
    refuse takes its outcome from a list, which is empty when nothing fails;
    a query that fails answers like one on a file that does not exist.  Sizes
    are those of a target with 64-bit [size_t]. *)

From S2P Require Import Prelude Common Utils LogPrint.
From Stdlib Require Import Ascii.

(** ** The file system *)

Record inode := mkInode {
  i_data : string;
  i_mtime : Z;           (* nanoseconds *)
  i_lock : option nat;   (* the open file description with the write lock *)
}.

Inductive outcome := Done | Failed | Partial (n : Z).

Record world := mkWorld {
  w_dirs : gset string;        (* directories that exist *)
  w_names : gmap string nat;   (* paths of the regular files *)
  w_inodes : gmap nat inode;
  w_fds : gmap nat nat;        (* open file descriptions *)
  w_next : nat;                (* the next inode or description *)
  w_now : Z;                   (* the clock, in nanoseconds *)
  w_outcomes : list outcome;
}.

Definition sysM (A : Type) : Type := world -> world * A.

#[export] Instance sysM_ret : MRet sysM := fun A x w => (w, x).
#[export] Instance sysM_bind : MBind sysM := fun A B f m w => let '(w, x) := m w in f x w.

(** A call of the system, as a function on the world. *)
Definition sys {A} (f : world -> world * A) : sysM A := f.

(** [for (x : l) f(x)] over the world. *)
Fixpoint for_each {A S} (f : A -> S -> sysM S) (l : list A) (s : S) : sysM S :=
  match l with
  | [] => mret s
  | x :: l => s ← f x s; for_each f l s
  end.

Definition set_names (names : gmap string nat) (w : world) : world :=
  mkWorld (w_dirs w) names (w_inodes w) (w_fds w) (w_next w) (w_now w) (w_outcomes w).
Definition set_inodes (inodes : gmap nat inode) (w : world) : world :=
  mkWorld (w_dirs w) (w_names w) inodes (w_fds w) (w_next w) (w_now w) (w_outcomes w).
Definition set_fds (fds : gmap nat nat) (w : world) : world :=
  mkWorld (w_dirs w) (w_names w) (w_inodes w) fds (w_next w) (w_now w) (w_outcomes w).

Definition next_outcome : sysM outcome := fun w =>
  match w_outcomes w with
  | [] => (w, Done)
  | o :: os => (mkWorld (w_dirs w) (w_names w) (w_inodes w) (w_fds w) (w_next w) (w_now w) os, o)
  end.

Definition failed (o : outcome) : bool := match o with Failed => true | _ => false end.

Definition inode_of (w : world) (path : string) : option nat := w_names w !! path.
Definition file_of (w : world) (path : string) : option inode := inode_of w path ≫= (w_inodes w !!.).

(** A directory may be written with a slash at its end. *)
Definition norm_dir (dir : string) : string :=
  if (1 <? slen dir) && bool_decide (str_last NUL dir = "/"%char) then str_take (String.length dir - 1) dir else dir.

(** [fs::exists], [fs::file_size] and the time of the last change. *)
Definition fs_exists (path : string) : sysM bool := fun w =>
  (w, bool_decide (is_Some (inode_of w path)) || bool_decide (norm_dir path ∈ w_dirs w)).
Definition fs_file_size (path : string) : sysM (option Z) := fun w => (w, slen ∘ i_data <$> file_of w path).
Definition fs_mtime (path : string) : sysM (option Z) := fun w => (w, i_mtime <$> file_of w path).

(** [fs::path(dir) / name] for a relative name, and the parts of a path. *)
Definition path_join (dir name : string) : string :=
  if bool_decide (dir = "") then name
  else if bool_decide (str_last NUL dir = "/"%char) then dir +:+ name else dir +:+ "/" +:+ name.

Fixpoint filename (path : string) : string :=
  match path with
  | EmptyString => EmptyString
  | String c s =>
      if str_mem "/" s then filename s
      else if bool_decide (c = "/"%char) then s else path
  end.

Definition parent_path (path : string) : string :=
  norm_dir (str_take (String.length path - String.length (filename path)) path).

(** The directory of a file is there when it needs none. *)
Definition dir_exists (w : world) (path : string) : bool :=
  bool_decide (parent_path path = "") || bool_decide (parent_path path ∈ w_dirs w).

Definition fs_create_directory (dir : string) : sysM bool :=
  o ← next_outcome;
  sys (fun w =>
    if failed o || negb (dir_exists w (norm_dir dir)) || bool_decide (norm_dir dir ∈ w_dirs w) then (w, false)
    else (mkWorld ({[norm_dir dir]} ∪ w_dirs w) (w_names w) (w_inodes w) (w_fds w) (w_next w) (w_now w) (w_outcomes w), true)).

(** The names of the regular files of a directory, in an order of the system. *)
Definition strip_prefix (p s : string) : option string :=
  if String.prefix p s then Some (str_drop (String.length p) s) else None.

Definition entry_name (dir path : string) : option string :=
  name ← strip_prefix (path_join dir "") path;
  if bool_decide (name = "") || str_mem "/" name then None else Some name.

Definition dir_entries (order : list string -> list string) (dir : string) : sysM (list string) := fun w =>
  (w, order (omap (fun kv => entry_name dir kv.1) (map_to_list (w_names w)))).

Definition new_file (path : string) : sysM nat := fun w =>
  let i := w_next w in
  (mkWorld (w_dirs w) (<[path := i]> (w_names w)) (<[i := mkInode "" (w_now w) None]> (w_inodes w)) (w_fds w) (S i)
     (w_now w) (w_outcomes w), i).

Definition new_fd (i : nat) : sysM nat := fun w =>
  let fd := w_next w in
  (mkWorld (w_dirs w) (w_names w) (w_inodes w) (<[fd := i]> (w_fds w)) (S fd) (w_now w) (w_outcomes w), fd).

(** [open]: an existing file, or a new one when it may be created. *)
Definition sys_open (create : bool) (path : string) : sysM (option nat) :=
  o ← next_outcome;
  if failed o then mret None
  else fun w =>
    match inode_of w path with
    | Some i => (fd ← new_fd i; mret (Some fd)) w
    | None =>
        if create && dir_exists w path then (i ← new_file path; fd ← new_fd i; mret (Some fd)) w else (w, None)
    end.

Definition upd_inode (i : nat) (f : inode -> inode) (w : world) : world :=
  match w_inodes w !! i with
  | Some n => set_inodes (<[i := f n]> (w_inodes w)) w
  | None => w
  end.

Definition set_lock (l : option nat) (n : inode) : inode := mkInode (i_data n) (i_mtime n) l.
Definition set_data (d : string) (n : inode) : inode := mkInode d (i_mtime n) (i_lock n).

(** [fcntl] with [F_OFD_SETLK]: the write lock of the whole file. *)
Definition sys_lock (fd : nat) : sysM bool := fun w =>
  match w_fds w !! fd with
  | Some i =>
      match w_inodes w !! i ≫= i_lock with
      | Some owner => (w, bool_decide (owner = fd))
      | None => (upd_inode i (set_lock (Some fd)) w, true)
      end
  | None => (w, false)
  end.

Definition release (fd : nat) (n : inode) : inode :=
  if bool_decide (i_lock n = Some fd) then set_lock None n else n.

Definition sys_unlock (fd : nat) : sysM bool := fun w =>
  match w_fds w !! fd with
  | Some i => (upd_inode i (release fd) w, true)
  | None => (w, false)
  end.

Definition sys_close (fd : nat) : sysM unit := fun w =>
  match w_fds w !! fd with
  | Some i => (set_fds (delete fd (w_fds w)) (upd_inode i (release fd) w), tt)
  | None => (w, tt)
  end.

Definition append_data (now : Z) (s : string) (n : inode) : inode := mkInode (i_data n +:+ s) now (i_lock n).

(** [write] to a file opened for appending: the number of bytes, or a failure. *)
Definition sys_write (fd : option nat) (s : string) : sysM (option Z) :=
  o ← next_outcome;
  sys (fun w =>
    let part := match o with Partial n => str_take (Z.to_nat n) s | _ => s end in
    match fd ≫= (w_fds w !!.) with
    | Some i => if failed o then (w, None) else (upd_inode i (append_data (w_now w) part) w, Some (slen part))
    | None => (w, None)
    end).

Definition sys_fsync (fd : option nat) : sysM bool :=
  o ← next_outcome; mret (negb (failed o) && bool_decide (is_Some fd)).

(** [fs::rename]; a file in the way loses its name. *)
Definition fs_rename (old new : string) : sysM bool :=
  o ← next_outcome;
  sys (fun w =>
    match inode_of w old with
    | Some i => if failed o then (w, false) else (set_names (<[new := i]> (delete old (w_names w))) w, true)
    | None => (w, false)
    end).

(** [fs::remove]: whether a file was removed. *)
Definition fs_remove (path : string) : sysM bool :=
  o ← next_outcome;
  sys (fun w =>
    match inode_of w path with
    | Some _ => if failed o then (w, false) else (set_names (delete path (w_names w)) w, true)
    | None => (w, false)
    end).

(** [fs::copy_file] that leaves an existing target alone: whether it failed. *)
Definition fs_copy_file (from to : string) : sysM bool :=
  o ← next_outcome;
  sys (fun w =>
    match file_of w from, inode_of w to with
    | Some _, Some _ => (w, failed o)
    | Some n, None =>
        if failed o || negb (dir_exists w to) then (w, true)
        else (i ← new_file to; sys (fun w => (upd_inode i (append_data (w_now w) (i_data n)) w, false))) w
    | None, _ => (w, true)
    end).

(** ** sandbox_utils.cpp *)

(** [LockFile]: the new description, which then owns the lock. *)
Definition LockFile (filePath : string) : sysM (option nat) :=
  fd ← sys_open true filePath;
  match fd with
  | None => mret None
  | Some fd =>
      locked ← sys_lock fd;
      if locked : bool then mret (Some fd) else sys_close fd;; mret None
  end.

Definition UnlockAndCloseFd (fd : option nat) : sysM bool :=
  match fd with
  | None => mret false
  | Some fd => ret ← sys_unlock fd; sys_close fd;; mret ret
  end.

(** [F_OFD_GETLK] reports a lock of another description. *)
Definition IsFdWriteLocked (fd : option nat) : sysM bool := sys (fun w =>
  (w, match fd ≫= (w_fds w !!.) with
      | Some i => match w_inodes w !! i ≫= i_lock with Some owner => negb (bool_decide (Some owner = fd)) | None => false end
      | None => true
      end)).

Definition IsFileWriteLocked (filePath : string) : sysM bool :=
  fd ← sys_open false filePath;
  match fd with
  | None => mret true
  | Some fd => ret ← IsFdWriteLocked (Some fd); sys_close fd;; mret ret
  end.

Fixpoint SplitString (str : string) (delimiter : ascii) : list string :=
  match str with
  | EmptyString => [""]
  | String c s =>
      if decide (c = delimiter) then "" :: SplitString s delimiter
      else match SplitString s delimiter with
           | [] => [String c ""]
           | t :: ts => String c t :: ts
           end
  end.

(** [std::from_chars] on an [int]: a minus sign and the longest run of digits. *)
Definition TextToInt (data : string) : option Z :=
  let neg := String.prefix "-" data in
  let s := if neg then str_drop 1 data else data in
  match s with
  | String c _ =>
      if is_digit c then
        let v := if neg then - read_digits 10 0 s else read_digits 10 0 s in
        if (- 2 ^ 31 <=? v) && (v <? 2 ^ 31) then Some v else None
      else None
  | EmptyString => None
  end.

(** "%0<n>d". *)
Definition zero_pad (n v : Z) : string :=
  if v <? 0 then "-" +:+ setw "0" (n - 1) (to_string (- v)) else setw "0" n (to_string v).

Definition TM_STRING_SIZE : Z := 20.

(** One conversion of [sscanf] with a width: blanks, a sign and digits. *)
Fixpoint scan_digits (width : nat) (s : string) (acc : option Z) : option Z * string :=
  match width, s with
  | S width, String c s' =>
      if is_digit c then scan_digits width s' (Some (10 * default 0 acc + (byte_val c - 48))) else (acc, s)
  | _, _ => (acc, s)
  end.

Definition scan_int (width : nat) (s : string) : option (Z * string) :=
  let s := skip_space s in
  let '(neg, t) := take_sign s in
  let width := if bool_decide (t = s) then width else (width - 1)%nat in
  match scan_digits width t None with
  | (Some v, rest) => Some (if neg then - v else v, rest)
  | (None, _) => None
  end.

Fixpoint scan_ints (widths : list nat) (s : string) : option (list Z) :=
  match widths with
  | [] => Some []
  | n :: widths => '(v, rest) ← scan_int n s; vs ← scan_ints widths rest; Some (v :: vs)
  end.

(** The calendar of the C library is given: seconds to fields and back. *)
Section calendar.
Context (localtime_r : Z -> option tm) (mktime : list Z -> option Z).

Definition GetTimeString (time : Z) : string :=
  let ms := wraps 64 time in
  match localtime_r (Z.quot ms 1000) with
  | None => ""
  | Some t =>
      let s := zero_pad 4 (tm_year t + TM_YEAR_BASE) +:+ zero_pad 2 (tm_mon t + 1) +:+ zero_pad 2 (tm_mday t) +:+
               zero_pad 2 (tm_hour t) +:+ zero_pad 2 (tm_min t) +:+ zero_pad 2 (tm_sec t) +:+ zero_pad 3 (Z.rem ms 1000) in
      if TM_STRING_SIZE - 1 <? slen s then "" else s
  end.

(** [mktime] gets year since 1900, month from 0, day, hour, minute, second. *)
Definition TimeStrToTimestamp (timeStr : string) : Z :=
  if negb (slen timeStr =? 17) then 0
  else match scan_ints [4; 2; 2; 2; 2; 2; 3]%nat timeStr with
       | Some [year; mon; day; hour; min; sec; msec] =>
           match mktime [i32 (year - TM_YEAR_BASE); i32 (mon - 1); day; hour; min; sec] with
           | Some seconds => if seconds =? -1 then 0 else u64 (seconds * 1000 + msec)
           | None => 0
           end
       | _ => 0
       end.
End calendar.

(** ** LogMmapManager *)

Definition METADATA_SIZE : Z := 8.

Record LogMmapManager := mkMmap {
  mmapPtr_ : option nat;   (* the mapped inode *)
  mmapFp_ : bool;
  mmapSize_ : Z;
  currentOffset_ : Z;
}.
Definition new_mmap : LogMmapManager := mkMmap None false 0 0.

Definition GetSize (m : LogMmapManager) : Z :=
  if METADATA_SIZE <? mmapSize_ m then mmapSize_ m - METADATA_SIZE else 0.
Definition GetOffset (m : LogMmapManager) : Z := currentOffset_ m.

(** Bytes [pos, pos + slen s) of a file replaced by [s]. *)
Definition splice (data : string) (pos : Z) (s : string) : string :=
  str_take (Z.to_nat pos) data +:+ s +:+ str_drop (Z.to_nat pos + String.length s) data.

Definition poke (i : nat) (pos : Z) (s : string) : sysM unit :=
  sys (fun w => (upd_inode i (fun n => set_data (splice (i_data n) pos s) n) w, tt)).

(** [n] bytes of the data area, from [GetPtr]. *)
Definition map_bytes (m : LogMmapManager) (n : Z) (w : world) : option string :=
  i ← mmapPtr_ m; node ← w_inodes w !! i;
  Some (str_take (Z.to_nat n) (str_drop (Z.to_nat METADATA_SIZE) (i_data node))).

Definition IsParentDirExists (path : string) : sysM bool := sys (fun w => (w, dir_exists w path)).

Definition UpdateMetadata (m : LogMmapManager) : sysM unit :=
  match mmapPtr_ m with
  | None => mret tt
  | Some i => poke i 0 (le_bytes 8 (currentOffset_ m))
  end.

(** [fopen] of an existing file for update, or of a new one. *)
Definition map_open (path : string) : sysM (option nat) :=
  o ← next_outcome;
  sys (fun w =>
    if failed o then (w, None)
    else match inode_of w path with
         | Some i => (w, Some i)
         | None => if dir_exists w path then (i ← new_file path; mret (Some i)) w else (w, None)
         end).

(** [ftruncate] to a larger size. *)
Definition grow (i : nat) (size : Z) : sysM bool :=
  o ← next_outcome;
  sys (fun w =>
    if failed o then (w, false)
    else (upd_inode i (fun n => set_data (i_data n +:+ fill (Z.to_nat (size - slen (i_data n))) NUL) n) w, true)).

Definition Mmap_Initialize (m : LogMmapManager) (path : string) (size : Z) : sysM (LogMmapManager * bool) :=
  ok ← IsParentDirExists path;
  if negb ok then mret (m, false) else
  fileExists ← fs_exists path;
  i ← map_open path;
  match i with
  | None => mret (mkMmap (mmapPtr_ m) false (mmapSize_ m) (currentOffset_ m), false)
  | Some i =>
      fileSize ← fs_file_size path;
      match fileSize with
      | None => mret (mkMmap (mmapPtr_ m) false (mmapSize_ m) (currentOffset_ m), false)
      | Some fileSize =>
          let mmapSize := size + METADATA_SIZE in
          resized ← (if fileSize <? mmapSize then grow i mmapSize else mret true);
          if negb resized then mret (mkMmap (mmapPtr_ m) false mmapSize (currentOffset_ m), false) else
          o ← next_outcome;
          if failed o then mret (mkMmap None false mmapSize (currentOffset_ m), false) else
          if fileExists && (METADATA_SIZE <=? fileSize) then
            sys (fun w =>
              let stored := default 0 (le_val 8 ∘ i_data <$> w_inodes w !! i) in
              (w, (mkMmap (Some i) true mmapSize (if stored <=? size then stored else 0), true)))
          else
            let m := mkMmap (Some i) true mmapSize 0 in
            UpdateMetadata m;; mret (m, true)
      end
  end.

Definition Mmap_Write (m : LogMmapManager) (log : string) : sysM LogMmapManager :=
  let logSize := u32 (slen log) in
  let dataSize := u64 (mmapSize_ m - METADATA_SIZE) in
  let room := u64 (dataSize - currentOffset_ m) in
  match mmapPtr_ m with
  | None => mret m
  | Some i =>
      if room <? logSize then mret m
      else if negb (memcpy_s room logSize) then mret m
      else
        poke i (METADATA_SIZE + currentOffset_ m) (str_take (Z.to_nat logSize) log);;
        let m := mkMmap (mmapPtr_ m) (mmapFp_ m) (mmapSize_ m) (u64 (currentOffset_ m + logSize)) in
        UpdateMetadata m;; mret m
  end.

Definition Reset (m : LogMmapManager) : sysM LogMmapManager :=
  match mmapPtr_ m with
  | None => mret m
  | Some i =>
      let dataSize := u64 (mmapSize_ m - METADATA_SIZE) in
      if dataSize =? 0 then mret m
      else
        poke i METADATA_SIZE (fill (Z.to_nat dataSize) NUL);;
        let m := mkMmap (mmapPtr_ m) (mmapFp_ m) (mmapSize_ m) 0 in
        UpdateMetadata m;; mret m
  end.

(** [write] and [fsync] of the mapped bytes. *)
Definition write_mapped (fd : option nat) (mm : LogMmapManager) : sysM bool :=
  bytes ← sys (fun w => (w, default "" (map_bytes mm (GetOffset mm) w)));
  written ← sys_write fd bytes;
  match written with
  | None => mret false
  | Some _ => sys_fsync fd
  end.
