(* ===== verification/LogFileManager.v ===== *)
(** * The page switch log: files of a process in its sandbox

    LogFileManager (log_file_manager.cpp): lines gather in a memory-mapped
    buffer, full buffers are appended to the numbered log files of the process'
    instance, old files are aged out, and snapshots of the logs are taken.  The
    order in which a directory is listed, the sorting of the standard library,
    the printing of JSON and the calendar are given. *)

From S2P Require Import Prelude Common Utils LogPrint SandboxFs.
From Stdlib Require Import Ascii.

Definition MAX_PROCESS_COUNT : Z := 5.
Definition MAX_INSTANCE_COUNT : Z := 10.
Definition MAX_OPEN_FILE_RETRY_TIMES : nat := 3.
Definition MAX_DIFF_MS : Z := 24 * 60 * 60 * 1000.
Definition MAX_RESERVED_SNAPSHOT_FILE_NUM : Z := 40.
Definition MAX_RESERVED_LOG_FILE_NUM : Z := 100.

Record LogFileConfig := mkConfig {
  logDir : string; persistFile : string; filePrefix : string; fileSuffix : string;
  snapshotLogDir : string; snapshotLogSuffix : string;
  maxLogNum : Z;         (* uint16_t *)
  maxLogFileSize : Z; mmapSize : Z;
}.

Record LogFile := mkLogFile { lf_path : string; lf_processName : string; lf_instanceID : Z; lf_modifyTime : Z }.
Definition LogFile_lt (a b : LogFile) : bool := lf_modifyTime b <? lf_modifyTime a.

Record SnapshotFile := mkSnapshot {
  sf_path : string; sf_processName : string; sf_instanceID : Z; sf_fileID : Z; sf_timestamp : Z }.
Definition SnapshotFile_lt (a b : SnapshotFile) : bool :=
  if sf_timestamp a =? sf_timestamp b then sf_fileID a <? sf_fileID b else sf_timestamp a <? sf_timestamp b.

Record manager := mkManager {
  initialized_ : bool;
  config_ : LogFileConfig;
  mmapManager_ : LogMmapManager;
  currentFileIndex_ : Z;       (* uint16_t *)
  currentInstanceIndex_ : Z;   (* uint16_t *)
  currentFd_ : option nat;
  processName_ : string;
}.
Definition new_manager (c : LogFileConfig) : manager := mkManager false c new_mmap 1 1 None "".

Definition set_mmap (m : manager) (mm : LogMmapManager) : manager :=
  mkManager (initialized_ m) (config_ m) mm (currentFileIndex_ m) (currentInstanceIndex_ m) (currentFd_ m) (processName_ m).
Definition set_fd (m : manager) (fd : option nat) : manager :=
  mkManager (initialized_ m) (config_ m) (mmapManager_ m) (currentFileIndex_ m) (currentInstanceIndex_ m) fd (processName_ m).
Definition set_indexes (m : manager) (inst file : Z) : manager :=
  mkManager (initialized_ m) (config_ m) (mmapManager_ m) file inst (currentFd_ m) (processName_ m).
Definition set_initialized (m : manager) (b : bool) : manager :=
  mkManager b (config_ m) (mmapManager_ m) (currentFileIndex_ m) (currentInstanceIndex_ m) (currentFd_ m) (processName_ m).

(** The parts of a string before and after the last [c]. *)
Fixpoint split_last (c : ascii) (s : string) : option (string * string) :=
  match s with
  | EmptyString => None
  | String d s =>
      match split_last c s with
      | Some (a, b) => Some (String d a, b)
      | None => if decide (d = c) then Some ("", s) else None
      end
  end.

Fixpoint replace_chars (f : ascii -> ascii) (s : string) : string :=
  match s with EmptyString => EmptyString | String c s => String (f c) (replace_chars f s) end.

Definition GetFormatedProcessName (program : string) : string :=
  let processName :=
    match split_last ":" program with
    | Some (name, suffix) =>
        if negb (bool_decide (suffix = "")) && str_forall is_digit suffix then name else program
    | None => program
    end in
  replace_chars (fun c => if str_mem c ":/-" then "_"%char else c) processName.

Definition GetLogFilePath (m : manager) (instanceIndex fileIndex : Z) : string :=
  path_join (logDir (config_ m))
    (filePrefix (config_ m) +:+ "-" +:+ processName_ m +:+ "-" +:+ to_string instanceIndex +:+ "-" +:+
     to_string fileIndex +:+ fileSuffix (config_ m)).

Definition GetPersistFilePath (c : LogFileConfig) (processName : string) (instanceIndex : Z) : string :=
  persistFile c +:+ "_" +:+ processName +:+ "_" +:+ to_string instanceIndex.

Definition CreateDirectory (m : manager) : sysM bool :=
  there ← fs_exists (logDir (config_ m));
  if there : bool then mret true else fs_create_directory (logDir (config_ m)).

Definition CloseCurrentFile (m : manager) : sysM manager :=
  match currentFd_ m with
  | None => mret m
  | Some _ => UnlockAndCloseFd (currentFd_ m);; mret (set_fd m None)
  end.

Definition OpenCurrentLogFile (m : manager) : sysM (manager * bool) :=
  m ← CloseCurrentFile m;
  fd ← LockFile (GetLogFilePath m (currentInstanceIndex_ m) (currentFileIndex_ m));
  mret (set_fd m fd, bool_decide (is_Some fd)).

(** The files of one instance, in order: whether one of them is in use, and
    the index of the last file looked at. *)
Fixpoint seek_files (m : manager) (instanceIndex : Z) (fileIndexes : list Z) (current : Z) : sysM (bool * Z) :=
  match fileIndexes with
  | [] => mret (false, current)
  | fileIndex :: rest =>
      let filePath := GetLogFilePath m instanceIndex fileIndex in
      isFileExist ← fs_exists filePath;
      locked ← (if isFileExist : bool then IsFileWriteLocked filePath else mret false);
      if isFileExist && locked then mret (true, current)
      else if negb isFileExist then mret (false, fileIndex)
      else seek_files m instanceIndex rest fileIndex
  end.

(** Indexes are below 2^16 - 1, so the counter of the loop does not wrap. *)
Definition fileIndexes (m : manager) : list Z := Z.of_nat <$> seq 1 (Z.to_nat (maxLogNum (config_ m))).

Fixpoint seek_instances (m : manager) (instances : list Z) : sysM (manager * bool) :=
  match instances with
  | [] => mret (m, false)
  | instanceIndex :: rest =>
      '(occupied, current) ← seek_files m instanceIndex (fileIndexes m) (currentFileIndex_ m);
      let m := set_indexes m (currentInstanceIndex_ m) current in
      if occupied : bool then seek_instances m rest
      else mret (set_indexes m instanceIndex (currentFileIndex_ m), true)
  end.

Definition SeekFileIndexes (m : manager) : sysM (manager * bool) :=
  seek_instances m (Z.of_nat <$> seq 1 (Z.to_nat MAX_INSTANCE_COUNT)).

Definition GetFileModifyTime (path : string) : sysM (option Z) :=
  t ← fs_mtime path; mret ((fun ns => u64 (ns / 10 ^ 9 * 1000)) <$> t).

(** [std::map] as an association list in the order of its keys: the value of
    [k] updated by [f]. *)
Fixpoint map_update {K V} (lt : K -> K -> bool) (k : K) (f : option V -> V) (l : list (K * V)) : list (K * V) :=
  match l with
  | [] => [(k, f None)]
  | (k', v) :: l' =>
      if lt k k' then (k, f None) :: l
      else if lt k' k then (k', v) :: map_update lt k f l'
      else (k', f (Some v)) :: l'
  end.

Definition group_key (processName : string) (instanceID : Z) : string := processName +:+ "-" +:+ to_string instanceID.

(** Files grouped by process name and instance, in their order. *)
Definition group_by {A} (key : A -> string) (files : list A) : list (string * list A) :=
  foldl (fun groups f => map_update String.ltb (key f) (fun old => default [] old ++ [f]) groups) [] files.

Definition file_key (f : LogFile) : string := group_key (lf_processName f) (lf_instanceID f).

(** Whether one of the files is locked, looked at in order. *)
Fixpoint any_locked (paths : list string) : sysM bool :=
  match paths with
  | [] => mret false
  | p :: paths => locked ← IsFileWriteLocked p; if locked : bool then mret true else any_locked paths
  end.

Section manager.
Context (order : list string -> list string) (std_sort : forall A, (A -> A -> bool) -> list A -> list A).

Definition parse_log_file (m : manager) (name : string) : sysM (option LogFile) :=
  let path := path_join (logDir (config_ m)) name in
  match SplitString name "-" with
  | [_; processName; inst; _] =>
      modifyTime ← GetFileModifyTime path;
      mret (t ← modifyTime; instanceID ← TextToInt inst; Some (mkLogFile path processName instanceID t))
  | _ => mret None
  end.

Definition GetLogFiles (m : manager) : sysM (list LogFile) :=
  entries ← dir_entries order (logDir (config_ m));
  for_each (fun name files => f ← parse_log_file m name; mret (files ++ option_list f)) entries [].

(** The locks of a group of files, or none of them. *)
Fixpoint lock_all (files : list LogFile) (fds : list nat) : sysM (bool * list nat) :=
  match files with
  | [] => mret (true, fds)
  | f :: files =>
      fd ← LockFile (lf_path f);
      match fd with
      | None => mret (false, fds)
      | Some fd => lock_all files (fds ++ [fd])
      end
  end.

Definition RemoveFileGroups (m : manager) (files : list LogFile) : sysM bool :=
  '(allLocked, fds) ← lock_all files [];
  (if allLocked : bool then
     for_each (fun f _ => fs_remove (lf_path f);; mret tt) files tt;;
     for_each (fun p _ => fs_remove p;; mret tt)
       (remove_dups ((fun f => GetPersistFilePath (config_ m) (lf_processName f) (u16 (lf_instanceID f))) <$> files)) tt
   else mret tt);;
  for_each (fun fd _ => UnlockAndCloseFd (Some fd);; mret tt) fds tt;;
  mret allLocked.

(** The groups without a locked file by the time of their latest change, and
    the number of their files. *)
Definition unlocked_groups (groups : list (string * list LogFile)) : sysM (list (Z * list LogFile) * Z) :=
  for_each (fun group '(byTime, count) =>
    let files := std_sort _ LogFile_lt group.2 in
    locked ← any_locked (lf_path <$> files);
    mret (if locked : bool then (byTime, count)
          else match files with
               | [] => (byTime, count)
               | f :: _ => (map_update Z.ltb (lf_modifyTime f) (fun _ => files) byTime, count + Z.of_nat (length files))
               end)) groups ([], 0).

Definition remove_groups (m : manager) (rmCount : Z) (groups : list (Z * list LogFile)) : sysM Z :=
  for_each (fun group count =>
    if rmCount <=? count then mret count
    else removed ← RemoveFileGroups m group.2;
         mret (if removed : bool then count + Z.of_nat (length group.2) else count)) groups 0.

Definition AgedOutLogFiles (m : manager) : sysM unit :=
  logFiles ← GetLogFiles m;
  let size := Z.of_nat (length logFiles) in
  if size <=? u64 (MAX_RESERVED_LOG_FILE_NUM - maxLogNum (config_ m)) then mret tt
  else
    '(byTime, count) ← unlocked_groups (group_by file_key logFiles);
    let rmCount := size - MAX_RESERVED_LOG_FILE_NUM + maxLogNum (config_ m) in
    remove_groups m (Z.min rmCount count) byTime;; mret tt.

Definition CanCreateLogFile (m : manager) : sysM bool :=
  entries ← dir_entries order (logDir (config_ m));
  processes ← for_each (fun name (acc : gset string) =>
    match SplitString name "-" with
    | [_; processName; _; _] =>
        locked ← IsFileWriteLocked (path_join (logDir (config_ m)) name);
        mret (if locked : bool then {[processName]} ∪ acc else acc)
    | _ => mret acc
    end) entries (∅ : gset string);
  mret (Z.of_nat (size processes) <? MAX_PROCESS_COUNT).

Fixpoint open_retry (n : nat) (m : manager) : sysM (manager * bool) :=
  match n with
  | O => mret (m, false)
  | S n =>
      '(m, found) ← SeekFileIndexes m;
      if found : bool then
        '(m, success) ← OpenCurrentLogFile m;
        if success : bool then mret (m, true) else open_retry n m
      else open_retry n m
  end.

Definition InitLogFile (m : manager) : sysM (manager * bool) :=
  AgedOutLogFiles m;;
  ok ← CanCreateLogFile m;
  if ok : bool then open_retry MAX_OPEN_FILE_RETRY_TIMES m else mret (m, false).

Definition Initialize (program : string) (m : manager) : sysM (manager * bool) :=
  let m := mkManager (initialized_ m) (config_ m) (mmapManager_ m) (currentFileIndex_ m) (currentInstanceIndex_ m)
             (currentFd_ m) (GetFormatedProcessName program) in
  made ← CreateDirectory m;
  if negb made then mret (set_initialized m false, false) else
  '(m, opened) ← InitLogFile m;
  if negb opened then mret (set_initialized m false, false) else
  '(mm, ok) ← Mmap_Initialize (mmapManager_ m) (GetPersistFilePath (config_ m) (processName_ m) (currentInstanceIndex_ m))
                (mmapSize (config_ m));
  mret (set_initialized (set_mmap m mm) ok, ok).

(** ** Writing *)

(** The last files move down by one: the first is lost. *)
Definition shift_files (m : manager) : sysM unit :=
  for_each (fun i _ =>
    fs_rename (GetLogFilePath m (currentInstanceIndex_ m) (u16 (i + 1))) (GetLogFilePath m (currentInstanceIndex_ m) i);;
    mret tt) (Z.of_nat <$> seq 1 (Z.to_nat (maxLogNum (config_ m) - 1))) tt.

Definition RotateFiles (m : manager) : sysM (manager * bool) :=
  fileSize ← fs_file_size (GetLogFilePath m (currentInstanceIndex_ m) (currentFileIndex_ m));
  match fileSize with
  | None => mret (m, false)
  | Some fileSize =>
      if u64 (fileSize + mmapSize (config_ m)) <? maxLogFileSize (config_ m) then mret (m, true)
      else if currentFileIndex_ m <? maxLogNum (config_ m) then
        OpenCurrentLogFile (set_indexes m (currentInstanceIndex_ m) (u16 (currentFileIndex_ m + 1)))
      else shift_files m;; OpenCurrentLogFile m
  end.

Definition FlushMmapToFile (m : manager) : sysM (manager * bool) :=
  '(m, rotated) ← RotateFiles m;
  if negb rotated then mret (m, false)
  else match mmapPtr_ (mmapManager_ m) with
       | None => mret (m, false)
       | Some _ =>
           if GetOffset (mmapManager_ m) =? 0 then mret (m, true)
           else
             result ← write_mapped (currentFd_ m) (mmapManager_ m);
             mm ← Reset (mmapManager_ m);
             mret (set_mmap m mm, result)
       end.

Definition WriteLog (log : string) (m : manager) : sysM manager :=
  m ← (if GetSize (mmapManager_ m) <? u64 (GetOffset (mmapManager_ m) + slen log)
       then '(m, _) ← FlushMmapToFile m; mret m else mret m);
  mm ← Mmap_Write (mmapManager_ m) log;
  mret (set_mmap m mm).

Definition Flush (m : manager) : sysM (manager * bool) :=
  if GetOffset (mmapManager_ m) =? 0 then mret (m, true) else FlushMmapToFile m.

(** The destructor. *)
Definition destroy (m : manager) : sysM manager := '(m, _) ← Flush m; CloseCurrentFile m.

(** ** Snapshots *)

Context (localtime_r : Z -> option tm) (mktime : list Z -> option Z) (cJSON_PrintUnformatted : list string -> option string).

(** The text of an array of strings, by the JSON library. *)
Definition BuildSnapshotJson (files : list string) : string := default "[]" (cJSON_PrintUnformatted (cstr <$> files)).

(** The part before the first [c]. *)
Definition before_char (c : ascii) (s : string) : option string := fst <$> split_at c s.

Definition parse_snapshot (m : manager) (name : string) : option SnapshotFile :=
  match SplitString name "-" with
  | [_; processName; inst; file; last] =>
      instanceID ← TextToInt inst; fileID ← TextToInt file; timeStr ← before_char "." last;
      Some (mkSnapshot (path_join (snapshotLogDir (config_ m)) name) processName instanceID fileID
              (TimeStrToTimestamp mktime timeStr))
  | _ => None
  end.

Definition GetSnapshotFiles (m : manager) : sysM (list SnapshotFile) :=
  entries ← dir_entries order (snapshotLogDir (config_ m));
  mret (omap (parse_snapshot m) entries).

Definition AgedOutSnapshots (m : manager) : sysM unit :=
  snapshotFiles ← GetSnapshotFiles m;
  let size := Z.of_nat (length snapshotFiles) in
  if size <=? MAX_RESERVED_SNAPSHOT_FILE_NUM then mret tt
  else for_each (fun f _ => fs_remove (sf_path f);; mret tt)
         (take (Z.to_nat (size - MAX_RESERVED_SNAPSHOT_FILE_NUM)) (std_sort _ SnapshotFile_lt snapshotFiles)) tt.

Definition GetUnlockedPageSwitchLogNames (logFiles : list LogFile) : sysM (list string) :=
  for_each (fun (group : string * list LogFile) names =>
    let files := std_sort _ LogFile_lt group.2 in
    locked ← any_locked (lf_path <$> files);
    mret (if locked : bool then names else names ++ (filename ∘ lf_path <$> files))) (group_by file_key logFiles) [].

Definition AppendSelfLogNames (m : manager) (logNames : list string) : sysM (list string) :=
  for_each (fun i names =>
    let filePath := GetLogFilePath m (currentInstanceIndex_ m) i in
    isFileExist ← fs_exists filePath;
    mret (if isFileExist && str_mem "/" filePath then names ++ [filename filePath] else names)) (fileIndexes m) logNames.

Definition GetPageSwitchLogNames (m : manager) (isUnlockedOnly : bool) : sysM (list string) :=
  logFiles ← GetLogFiles m;
  if isUnlockedOnly then
    names ← GetUnlockedPageSwitchLogNames logFiles;
    if initialized_ m then AppendSelfLogNames m names else mret names
  else mret (filename ∘ lf_path <$> logFiles).

(** A name without the suffix of log files. *)
Definition strip_suffix (suffix name : string) : option string :=
  let k := (String.length name - String.length suffix)%nat in
  if (slen suffix <=? slen name) && bool_decide (str_drop k name = suffix) then Some (str_take k name) else None.

Definition GetLogPrefixes (m : manager) (pageSwitchLogs : list string) : list string :=
  omap (strip_suffix (fileSuffix (config_ m))) pageSwitchLogs.

(** The buffer of another process is mapped for the time of the call. *)
Definition FlushTempMmapToFile (m : manager) (mmapPath logPath : string) : sysM bool :=
  '(mm, ok) ← Mmap_Initialize new_mmap mmapPath (mmapSize (config_ m));
  if negb ok then mret false
  else if GetOffset mm =? 0 then mret true
  else
    logFd ← LockFile logPath;
    match logFd with
    | None => mret false
    | Some _ =>
        result ← write_mapped logFd mm;
        UnlockAndCloseFd logFd;;
        Reset mm;;
        mret result
    end.

Definition GetMmapFilePathFrom (m : manager) (logPrefix : string) : string :=
  match SplitString logPrefix "-" with
  | [_; processName; inst; _] =>
      match TextToInt inst with
      | Some instanceID => GetPersistFilePath (config_ m) processName (u16 instanceID)
      | None => ""
      end
  | _ => ""
  end.

Definition IsLatestLog (m : manager) (logPrefix : string) : sysM bool :=
  match split_last "-" logPrefix with
  | None => mret false
  | Some (head, tail) =>
      match TextToInt tail with
      | None => mret false
      | Some fileID =>
          if fileID =? maxLogNum (config_ m) then mret true
          else if (fileID <=? 0) || (maxLogNum (config_ m) <? fileID) then mret false
          else
            there ← fs_exists (logDir (config_ m) +:+ "/" +:+ head +:+ "-" +:+ to_string (fileID + 1) +:+ fileSuffix (config_ m));
            mret (negb there)
      end
  end.

(** One log of the snapshot: the path of its copy, if there is one. *)
Definition snapshot_log (m : manager) (eventTime : Z) (formatedTime logPrefix : string) : sysM (option string) :=
  let logPath := path_join (logDir (config_ m)) (logPrefix +:+ fileSuffix (config_ m)) in
  modifyTime ← GetFileModifyTime logPath;
  match modifyTime with
  | None => mret None
  | Some modifyTime =>
      if MAX_DIFF_MS <? u64 (Z.abs (wraps 64 (wraps 64 eventTime - wraps 64 modifyTime))) then mret None
      else
        let snapshotPath := path_join (snapshotLogDir (config_ m)) (logPrefix +:+ "-" +:+ formatedTime +:+ snapshotLogSuffix (config_ m)) in
        latest ← IsLatestLog m logPrefix;
        (if latest : bool then FlushTempMmapToFile m (GetMmapFilePathFrom m logPrefix) logPath;; mret tt else mret tt);;
        copyFailed ← fs_copy_file logPath snapshotPath;
        mret (if copyFailed : bool then None else Some snapshotPath)
  end.

Definition CreateSnapshot (m : manager) (eventTime : Z) (enablePackAll : bool) : sysM (option string) :=
  there ← fs_exists (snapshotLogDir (config_ m));
  made ← (if there : bool then mret true else fs_create_directory (snapshotLogDir (config_ m)));
  if negb made then mret None else
  let formatedTime := GetTimeString localtime_r eventTime in
  if bool_decide (formatedTime = "") then mret None
  else
    pageSwitchLogs ← GetPageSwitchLogNames m (negb enablePackAll);
    snapshotPaths ← for_each (fun logPrefix paths =>
      p ← snapshot_log m eventTime formatedTime logPrefix; mret (paths ++ option_list p)) (GetLogPrefixes m pageSwitchLogs) [];
    AgedOutSnapshots m;;
    mret (Some (BuildSnapshotJson snapshotPaths)).
End manager.
