(* ===== verification/AppFileManager.v ===== *)
(** * The application log: files of an application in its sandbox

    AppFileManager (app_file_manager.cpp): lines gather in a memory-mapped
    buffer, a full buffer is appended to the current file, files are left for a
    new one when they are full or the day changes, the oldest are removed, and
    what a dead process left in its buffer is appended to its newest file.  The
    order in which a directory is listed, the sorting of the standard library
    and the calendar are given. *)

From S2P Require Import Prelude Common Utils LogPrint SandboxFs.
From Stdlib Require Import Ascii.

Definition MAX_RESERVED_LOG_FILE_NUM : Z := 50.
Definition INDEX_BUFFER_SIZE : Z := 16.
Definition TIME_BUFFER_SIZE : Z := 32.
Definition persistFilePrefix : string := ".persist_sandbox_log".

Record FileInfo := mkFileInfo { path : string; lastWriteTime : Z }.

Record AppFileConfig := mkAppConfig {
  logDir : string; persistFile : string; filePrefix : string; fileSuffix : string;
  maxLogNum : Z;         (* uint16_t *)
  maxLogFileSize : Z; mmapSize : Z;
}.

Record AppFileManager := mkApp {
  config_ : AppFileConfig;
  mmapManager_ : LogMmapManager;
  currentFileIndex_ : Z;       (* uint16_t *)
  currentFd_ : option nat;
  pid_ : Z;
  currentFileName_ : string;
  persistFd_ : option nat;
  currentDay_ : Z;
}.

Definition new_app (pid : Z) : AppFileManager := mkApp (mkAppConfig "" "" "" "" 0 0 0) new_mmap 1 None pid "" None 0.

Definition set_mmap (m : AppFileManager) (mm : LogMmapManager) : AppFileManager :=
  mkApp (config_ m) mm (currentFileIndex_ m) (currentFd_ m) (pid_ m) (currentFileName_ m) (persistFd_ m) (currentDay_ m).
Definition set_file (m : AppFileManager) (fd : option nat) (name : string) : AppFileManager :=
  mkApp (config_ m) (mmapManager_ m) (currentFileIndex_ m) fd (pid_ m) name (persistFd_ m) (currentDay_ m).
Definition set_index (m : AppFileManager) (i : Z) : AppFileManager :=
  mkApp (config_ m) (mmapManager_ m) i (currentFd_ m) (pid_ m) (currentFileName_ m) (persistFd_ m) (currentDay_ m).
Definition set_day (m : AppFileManager) (day : Z) : AppFileManager :=
  mkApp (config_ m) (mmapManager_ m) (currentFileIndex_ m) (currentFd_ m) (pid_ m) (currentFileName_ m) (persistFd_ m) day.
Definition set_persist (m : AppFileManager) (fd : option nat) : AppFileManager :=
  mkApp (config_ m) (mmapManager_ m) (currentFileIndex_ m) (currentFd_ m) (pid_ m) (currentFileName_ m) fd (currentDay_ m).
Definition set_config (m : AppFileManager) (c : AppFileConfig) : AppFileManager :=
  mkApp c (mmapManager_ m) (currentFileIndex_ m) (currentFd_ m) (pid_ m) (currentFileName_ m) (persistFd_ m) (currentDay_ m).

(** [str.find(needle) != npos]. *)
Definition contains (needle s : string) : bool := bool_decide (is_Some (String.index 0 needle s)).

(** [fs::exists] and [fs::is_directory]. *)
Definition is_directory (dir : string) : sysM bool := sys (fun w => (w, bool_decide (norm_dir dir ∈ w_dirs w))).

Definition CreateDirectory (m : AppFileManager) : sysM bool :=
  there ← fs_exists (logDir (config_ m));
  if there : bool then mret true else fs_create_directory (logDir (config_ m)).

Definition CloseCurrentFile (m : AppFileManager) : sysM AppFileManager :=
  match currentFd_ m with
  | None => mret m
  | Some _ => UnlockAndCloseFd (currentFd_ m);; mret (set_file m None (currentFileName_ m))
  end.

(** ** The calendar *)

Section app.
Context (order : list string -> list string) (std_sort : forall A, (A -> A -> bool) -> list A -> list A).
Context (localtime : Z -> tm).

(** [time(nullptr)]. *)
Definition time_now : sysM Z := sys (fun w => (w, w_now w / 10 ^ 9)).

Definition GetDay : sysM Z := now ← time_now; mret (tm_mday (localtime now)).

(** "%Y%m%d-%H%M%S". *)
Definition strftime (t : tm) : string :=
  to_string (tm_year t + TM_YEAR_BASE) +:+ zero_pad 2 (tm_mon t + 1) +:+ zero_pad 2 (tm_mday t) +:+ "-" +:+
  zero_pad 2 (tm_hour t) +:+ zero_pad 2 (tm_min t) +:+ zero_pad 2 (tm_sec t).

Definition GetLogFilePath (m : AppFileManager) (fileIndex : Z) : sysM string :=
  let indexStr := zero_pad 3 fileIndex in
  now ← time_now;
  mret (path_join (logDir (config_ m))
    (filePrefix (config_ m) +:+ "." +:+ to_string (pid_ m) +:+ "." +:+ indexStr +:+ "." +:+ strftime (localtime now) +:+
     fileSuffix (config_ m))).

(** ** Buffers of dead processes *)

(** The file of the process that was written last, the first of those. *)
Definition newer (dir : string) (best : option (string * Z)) (name : string) (w : world) : option (string * Z) :=
  match i_mtime <$> file_of w (path_join dir name), best with
  | None, _ => best
  | Some writeTime, None => Some (path_join dir name, writeTime)
  | Some writeTime, Some (_, minTime) => if minTime <? writeTime then Some (path_join dir name, writeTime) else best
  end.

Definition GetNewestLogFileByPid (m : AppFileManager) (dirPath : string) (pid : Z) : sysM string :=
  there ← is_directory dirPath;
  if negb there then mret "" else
  entries ← dir_entries order dirPath;
  newest ← for_each (fun fileName best =>
    if negb (contains (filePrefix (config_ m)) fileName) then mret best
    else if negb (contains (to_string pid) fileName) then mret best
    else sys (fun w => (w, newer dirPath best fileName w))) entries None;
  mret (default "" (fst <$> newest)).

(** [fopen] for appending, [fwrite] and [fclose]; a failure is only reported. *)
Definition DoWriteFlushPersistFile (logFile : string) (bytes : string) : sysM unit :=
  target ← sys_open true logFile;
  match target with
  | None => mret tt
  | Some fd => sys_write (Some fd) bytes;; sys_close fd
  end.

(** Bytes past the end of the file read as zero. *)
Definition DoFlushPersistFile (m : AppFileManager) (persist logFile : string) : sysM unit :=
  mmapTarget ← sys_open false persist;
  match mmapTarget with
  | None => mret tt
  | Some fd =>
      let totalSize := mmapSize (config_ m) + METADATA_SIZE in
      o ← next_outcome;
      data ← sys (fun w => (w, default "" (i_data <$> file_of w persist)));
      sys_close fd;;
      if failed o then mret tt else
      let mmapData := data +:+ fill (Z.to_nat (totalSize - slen data)) NUL in
      let actualDataSize := le_val 8 mmapData in
      if (actualDataSize =? 0) || (mmapSize (config_ m) <? actualDataSize) then mret tt
      else DoWriteFlushPersistFile logFile (str_take (Z.to_nat actualDataSize) (str_drop (Z.to_nat METADATA_SIZE) mmapData))
  end.

Definition FlushPersistFile (m : AppFileManager) (filePath : string) (pid : Z) : sysM unit :=
  fdPersist ← LockFile filePath;
  match fdPersist with
  | None => mret tt
  | Some _ =>
      logFile ← GetNewestLogFileByPid m (logDir (config_ m)) pid;
      if bool_decide (logFile = "") then UnlockAndCloseFd fdPersist;; mret tt
      else DoFlushPersistFile m filePath logFile;; UnlockAndCloseFd fdPersist;; mret tt
  end.

Definition flush_entry (m : AppFileManager) (dirPath fileName : string) : sysM unit :=
  if negb (contains persistFilePrefix fileName) then mret tt else
  locked ← IsFileWriteLocked (path_join dirPath fileName);
  if locked : bool then mret tt
  else match TextToInt (default "" (last (SplitString fileName "_"))) with
       | None => mret tt
       | Some pid => FlushPersistFile m (path_join dirPath fileName) pid;; fs_remove (path_join dirPath fileName);; mret tt
       end.

Definition FlushAbondonedPersistFiles (m : AppFileManager) (dirPath : string) : sysM unit :=
  there ← is_directory dirPath;
  if negb there then mret tt else
  entries ← dir_entries order dirPath;
  for_each (fun fileName _ => flush_entry m dirPath fileName) entries tt.

(** ** Removing the oldest files *)

Definition GetFilesInDirectory (m : AppFileManager) (dirPath : string) : sysM (list FileInfo) :=
  there ← is_directory dirPath;
  if negb there then mret [] else
  entries ← dir_entries order dirPath;
  for_each (fun fileName files =>
    if negb (contains (filePrefix (config_ m)) fileName) then mret files
    else t ← fs_mtime (path_join dirPath fileName);
         mret (files ++ option_list (mkFileInfo (path_join dirPath fileName) <$> t))) entries [].

Definition newer_first (a b : FileInfo) : bool := lastWriteTime b <? lastWriteTime a.

(** The files from the oldest on, until enough are removed. *)
Fixpoint delete_files (toDelete : Z) (files : list FileInfo) (deleted : Z) : sysM Z :=
  match files with
  | [] => mret deleted
  | f :: files =>
      if toDelete <=? deleted then mret deleted else
      locked ← IsFileWriteLocked (path f);
      if locked : bool then delete_files toDelete files deleted
      else removed ← fs_remove (path f);
           delete_files toDelete files (if removed : bool then deleted + 1 else deleted)
  end.

Definition DeleteOldestFiles (m : AppFileManager) (dirPath : string) (keepCount : Z) : sysM Z :=
  files ← GetFilesInDirectory m dirPath;
  let size := Z.of_nat (length files) in
  if size <=? keepCount then mret 0
  else delete_files (i32 size - i32 keepCount + 1) (rev (std_sort _ newer_first files)) 0.

(** ** Writing *)

Definition OpenCurrentLogFile (m : AppFileManager) : sysM (AppFileManager * bool) :=
  m ← CloseCurrentFile m;
  FlushAbondonedPersistFiles m (logDir (config_ m));;
  DeleteOldestFiles m (logDir (config_ m)) MAX_RESERVED_LOG_FILE_NUM;;
  currentFile ← GetLogFilePath m (currentFileIndex_ m);
  fd ← LockFile currentFile;
  mret (match fd with
        | None => (set_file m None (currentFileName_ m), false)
        | Some _ => (set_file m fd currentFile, true)
        end).

Definition Initialize (config : AppFileConfig) (m : AppFileManager) : sysM (AppFileManager * bool) :=
  let m := set_config m config in
  made ← CreateDirectory m;
  if negb made then mret (m, false) else
  day ← GetDay;
  let m := set_day m day in
  m ← (if bool_decide (currentFileName_ m = "") then '(m, _) ← OpenCurrentLogFile m; mret m else mret m);
  '(mm, ok) ← Mmap_Initialize (mmapManager_ m) (persistFile (config_ m)) (mmapSize (config_ m));
  let m := set_mmap m mm in
  if negb ok then mret (m, false) else
  fd ← LockFile (persistFile (config_ m));
  mret (set_persist m fd, bool_decide (is_Some fd)).

Definition RotateFiles (m : AppFileManager) : sysM (AppFileManager * bool) :=
  fileSize ← fs_file_size (currentFileName_ m);
  match fileSize with
  | None => mret (m, false)
  | Some fileSize =>
      day ← GetDay;
      if (u64 (fileSize + mmapSize (config_ m)) <? maxLogFileSize (config_ m)) && (day =? currentDay_ m) then mret (m, true)
      else
        let m := set_day m day in
        OpenCurrentLogFile (set_index m
          (if currentFileIndex_ m <? maxLogNum (config_ m) then u16 (currentFileIndex_ m + 1) else 0))
  end.

Definition FlushMmapToFile (m : AppFileManager) : sysM (AppFileManager * bool) :=
  match mmapPtr_ (mmapManager_ m) with
  | None => mret (m, false)
  | Some _ =>
      if GetOffset (mmapManager_ m) =? 0 then mret (m, true)
      else
        result ← write_mapped (currentFd_ m) (mmapManager_ m);
        mm ← Reset (mmapManager_ m);
        let m := set_mmap m mm in
        if negb result then mret (m, false) else RotateFiles m
  end.

Definition WriteLog (log : string) (m : AppFileManager) : sysM AppFileManager :=
  m ← (if GetSize (mmapManager_ m) <? u64 (GetOffset (mmapManager_ m) + slen log)
       then '(m, _) ← FlushMmapToFile m; mret m else mret m);
  mm ← Mmap_Write (mmapManager_ m) log;
  mret (set_mmap m mm).

Definition Flush (m : AppFileManager) : sysM (AppFileManager * bool) :=
  if GetOffset (mmapManager_ m) =? 0 then mret (m, true) else FlushMmapToFile m.

Definition remove_unlocked (files : list FileInfo) : sysM unit :=
  for_each (fun f _ =>
    locked ← IsFileWriteLocked (path f);
    if locked : bool then mret tt else fs_remove (path f);; mret tt) files tt.

Definition ClearLogFiles (m : AppFileManager) : sysM (AppFileManager * bool) :=
  '(m, flushed) ← (if 0 <? GetOffset (mmapManager_ m) then FlushMmapToFile m else mret (m, true));
  if negb flushed then mret (m, false) else
  mm ← Reset (mmapManager_ m);
  m ← CloseCurrentFile (set_mmap m mm);
  files ← GetFilesInDirectory m (logDir (config_ m));
  remove_unlocked files;;
  OpenCurrentLogFile (set_index m 1).

Definition GetLogFilesByTime (m : AppFileManager) (seconds : Z) : sysM (Z * list string) :=
  if seconds <? 0 then mret (-1, []) else
  now ← sys (fun w => (w, w_now w));
  let timeThshold := now - seconds * 10 ^ 9 in
  fileList ← GetFilesInDirectory m (logDir (config_ m));
  files ← for_each (fun f files =>
    t ← fs_mtime (path f);
    mret (match t with
          | Some t => if timeThshold <=? t then files ++ [filename (path f)] else files
          | None => files
          end)) fileList [];
  mret (0, files).

(** The destructor. *)
Definition destroy (m : AppFileManager) : sysM AppFileManager :=
  '(m, _) ← Flush m;
  m ← CloseCurrentFile m;
  UnlockAndCloseFd (persistFd_ m);; mret m.
End app.
