(* ===== verification/LogQueue.v ===== *)
(** * The queue between the clients of a logger and its files

    SandboxLogger and AppboxLogger (sandbox_logger.cpp, appbox_logger.cpp)
    queue the lines that clients write, and one worker thread per logger takes
    them to the file manager.  The threads meet at two mutexes, that of the
    queue and that of the file manager; a step of the relation below is what
    happens under one of them. *)

From S2P Require Import Prelude Common Utils LogPrint SandboxFs.
From Stdlib Require Import Ascii.

(** ** What a logger asks of its file manager *)

(** [fm_Other]: the other calls that a logger makes of it, each under the mutex
    of the manager. *)
Class FileManager (M : Type) := {
  fm_WriteLog : string -> M -> sysM M;
  fm_Flush : M -> sysM (M * bool);
  fm_Other : (M -> sysM M) -> Prop;
}.

(** ** The queue and its worker *)

(** What happens to a queue: a line comes in, the files are flushed, a client
    makes another call of the file manager, the logger is destroyed, the worker
    takes a turn.  [SetStatus] of a logger whose file manager is initialised
    is none of these: it changes the flag that lets lines in, and a logger of
    the application that it switches off flushes. *)
Inductive event := Pushed (log : string) | Flushed | Called | Stopped | Worked.

#[export] Instance event_eq_dec : EqDecision event.
Proof. solve_decision. Defined.

Inductive worker := Waiting | Writing (log : string) | Exited.

Section queue.
Context {M : Type} `{FileManager M}.

Record queue := mkQueue {
  tasks_ : list string;
  stop_ : bool;
  worker_ : worker;
  files_ : M;
}.

Definition AsyncWriteLog (log : string) (q : queue) : queue := mkQueue (tasks_ q ++ [log]) (stop_ q) (worker_ q) (files_ q).

(** The destructor, up to joining the worker. *)
Definition request_stop (q : queue) : queue := mkQueue (tasks_ q) true (worker_ q) (files_ q).

(** One turn of [ProcessQueue]: the part under the mutex of the queue, and the
    call of the file manager. [None]: the thread waits or is gone. *)
Definition ProcessQueue (q : queue) : sysM (option queue) :=
  match worker_ q with
  | Waiting =>
      mret (match tasks_ q with
            | log :: tasks => Some (mkQueue tasks (stop_ q) (Writing log) (files_ q))
            | [] => if stop_ q then Some (mkQueue [] (stop_ q) Exited (files_ q)) else None
            end)
  | Writing log => m ← fm_WriteLog log (files_ q); mret (Some (mkQueue (tasks_ q) (stop_ q) Waiting m))
  | Exited => mret None
  end.

Definition FlushLog (q : queue) : sysM (queue * bool) :=
  '(m, ok) ← fm_Flush (files_ q); mret (mkQueue (tasks_ q) (stop_ q) (worker_ q) m, ok).

Inductive step : queue * world -> event -> queue * world -> Prop :=
| step_push q w log : stop_ q = false -> step (q, w) (Pushed log) (AsyncWriteLog log q, w)
| step_flush q w q' w' ok : FlushLog q w = (w', (q', ok)) -> step (q, w) Flushed (q', w')
| step_call q w call m' w' :
    fm_Other call -> call (files_ q) w = (w', m') -> step (q, w) Called (mkQueue (tasks_ q) (stop_ q) (worker_ q) m', w')
| step_stop q w : step (q, w) Stopped (request_stop q, w)
| step_work q w q' w' : ProcessQueue q w = (w', Some q') -> step (q, w) Worked (q', w').

Inductive steps : queue * world -> list event -> queue * world -> Prop :=
| steps_nil s : steps s [] s
| steps_cons s e s' es s'' : step s e s' -> steps s' es s'' -> steps s (e :: es) s''.

Definition pushed (es : list event) : list string := omap (fun e => match e with Pushed log => Some log | _ => None end) es.
End queue.
Arguments queue : clear implicits.

(** A line ends with a line break. *)
Definition end_line (s : string) : string := if bool_decide (str_last NUL s = LF) then s else s +:+ endl.
