(* ===== verification/SandboxLogger.v ===== *)
(** * The logger of the page switch log

    SandboxLogger (sandbox_logger.cpp): lines with their time and ids for the
    page switch log of an application, its status and the callbacks that are
    told of it. *)

From S2P Require Import Prelude Common Utils LogPrint SandboxFs LogFileManager LogQueue.
From Stdlib Require Import Ascii.

(** Snapshots; a directory is listed in some order, and [std::sort] sorts. *)
Inductive page_call : (manager -> sysM manager) -> Prop :=
| call_snapshot order std_sort localtime_r mktime print eventTime enablePackAll :
    (forall l, order l ≡ₚ l) -> (forall A (lt : A -> A -> bool) l, std_sort A lt l ≡ₚ l) ->
    page_call (fun m => LogFileManager.CreateSnapshot order std_sort localtime_r mktime print m eventTime enablePackAll;; mret m).

#[export] Instance page_files : FileManager manager := {|
  fm_WriteLog := LogFileManager.WriteLog;
  fm_Flush := LogFileManager.Flush;
  fm_Other := page_call;
|}.

Definition LOG_DIR : string := "/data/storage/el2/log/page_switch".
Definition LOG_FILE_PREFIX : string := "page_switch".
Definition LOG_FILE_SUFFIX : string := ".log".
Definition SNAPSHOT_LOG_DIR : string := LOG_DIR +:+ "/snapshot".
Definition SNAPSHOT_LOG_FILE_SUFFIX : string := ".log".
Definition PERSIST_FILE : string := LOG_DIR +:+ "/.persist_sandbox_log".
Definition MAX_SANDBOX_LOG_NUM : Z := 2.
Definition MAX_SANDBOX_LOG_FILE_SIZE : Z := 128 * 1024.
Definition SANDBOX_LOG_MMAP_SIZE : Z := 8 * 1024.
Definition MAX_LOG_LEN : Z := 1024.
Definition MIN_HAP_UID : Z := 10000.
Definition SUCCESS : Z := 0.
Definition ERROR_DISABLED : Z := -1.
Definition ERROR_INTERNAL : Z := -2.
Definition ERROR_INVALID_PARAM : Z := -3.

(** Callbacks are functions of the client, by their addresses. *)
Record logger := mkLogger {
  loggable_ : bool;
  isHap_ : bool;
  initialized_ : bool;
  callbacks_ : list nat;
  queue_ : queue manager;
}.

Definition set_queue (l : logger) (q : queue manager) : logger :=
  mkLogger (loggable_ l) (isHap_ l) (initialized_ l) (callbacks_ l) q.

Definition InitFileManager : LogFileConfig :=
  mkConfig LOG_DIR PERSIST_FILE LOG_FILE_PREFIX LOG_FILE_SUFFIX SNAPSHOT_LOG_DIR SNAPSHOT_LOG_FILE_SUFFIX
    MAX_SANDBOX_LOG_NUM MAX_SANDBOX_LOG_FILE_SIZE SANDBOX_LOG_MMAP_SIZE.

Definition IsHap (uid : Z) : bool := MIN_HAP_UID <=? uid.

(** The constructor. *)
Definition new_logger (uid : Z) : logger :=
  mkLogger false (IsHap uid) false [] (mkQueue [] false Waiting (new_manager InitFileManager)).

Section process.
Context (localtime_r : Z -> option tm) (getpid gettid : Z).

(** "%04d-%02d-%02d %02d:%02d:%02d.%03d  %5d  %5d " in 64 bytes. *)
Definition line_prefix (t : tm) (ms : Z) : option string :=
  let prefix :=
    zero_pad 4 (tm_year t + 1900) +:+ "-" +:+ zero_pad 2 (tm_mon t + 1) +:+ "-" +:+ zero_pad 2 (tm_mday t) +:+ " " +:+
    zero_pad 2 (tm_hour t) +:+ ":" +:+ zero_pad 2 (tm_min t) +:+ ":" +:+ zero_pad 2 (tm_sec t) +:+ "." +:+
    zero_pad 3 ms +:+ "  " +:+ setw " " 5 (to_string getpid) +:+ "  " +:+ setw " " 5 (to_string gettid) +:+ " " in
  if 63 <? slen prefix then None else Some prefix.

Definition DoWriteLog (msg : string) (l : logger) : sysM (logger * Z) :=
  now ← sys (fun w => (w, w_now w));
  let ms := now / 10 ^ 6 `mod` 1000 in
  match localtime_r (now / 10 ^ 9) with
  | None => mret (l, ERROR_INTERNAL)
  | Some t =>
      match line_prefix t ms with
      | None => mret (l, ERROR_INTERNAL)
      | Some prefix =>
          let fullMsg := end_line (prefix +:+ msg) in
          mret (set_queue l (AsyncWriteLog fullMsg (queue_ l)), SUCCESS)
      end
  end.

Definition WriteLog (str : string) (l : logger) : sysM (logger * Z) :=
  if negb (loggable_ l) then mret (l, ERROR_DISABLED)
  else DoWriteLog (str_take (Z.to_nat MAX_LOG_LEN) str) l.

(** [vsnprintf_s(buffer, MAX_LOG_LEN + 1, MAX_LOG_LEN, fmt, args)]: its result
    and the text in the buffer. *)
Definition WriteLogFmt (formatted : option (Z * string)) (l : logger) : sysM (logger * Z) :=
  if negb (loggable_ l) then mret (l, ERROR_DISABLED)
  else match formatted with
       | None => mret (l, ERROR_INVALID_PARAM)   (* fmt is null *)
       | Some (ret, buffer) =>
           let buffer := cstr buffer in
           if (ret =? -1) && negb (slen buffer =? MAX_LOG_LEN) then mret (l, ERROR_INVALID_PARAM)
           else DoWriteLog buffer l
       end.
End process.

(** The callbacks that are called, with the status, in order. *)
Definition NotifyStatusChanged (status : bool) (l : logger) : list (nat * bool) := (fun c => (c, status)) <$> callbacks_ l.

Section manager.
Context (order : list string -> list string) (std_sort : forall A, (A -> A -> bool) -> list A -> list A).

Definition SetStatus (program : string) (status : bool) (l : logger) : sysM (logger * list (nat * bool)) :=
  if negb (isHap_ l) then mret (l, []) else
  l ← (if negb (initialized_ l) && status then
         '(m, ok) ← LogFileManager.Initialize order std_sort program (files_ (queue_ l));
         mret (mkLogger (loggable_ l) (isHap_ l) ok (callbacks_ l)
                 (mkQueue (tasks_ (queue_ l)) (stop_ (queue_ l)) (worker_ (queue_ l)) m))
       else mret l);
  if negb (initialized_ l) then mret (l, []) else
  let oldStatus := loggable_ l in
  let l := mkLogger status (isHap_ l) (initialized_ l) (callbacks_ l) (queue_ l) in
  mret (l, if bool_decide (oldStatus = status) then [] else NotifyStatusChanged status l).

Context (localtime_r : Z -> option tm) (mktime : list Z -> option Z) (cJSON_PrintUnformatted : list string -> option string).

Definition CreateSnapshot (eventTime : Z) (enablePackAll : bool) (l : logger) : sysM (logger * option string) :=
  '(q, _) ← FlushLog (queue_ l);
  r ← LogFileManager.CreateSnapshot order std_sort localtime_r mktime cJSON_PrintUnformatted (files_ q) eventTime enablePackAll;
  mret (set_queue l q, r).
End manager.

(** A null callback is refused. *)
Definition RegisterCallback (callback : option nat) (l : logger) : logger * bool :=
  match callback with
  | None => (l, false)
  | Some c => (mkLogger (loggable_ l) (isHap_ l) (initialized_ l) (callbacks_ l ++ [c]) (queue_ l), true)
  end.

Fixpoint erase_first (c : nat) (l : list nat) : list nat :=
  match l with
  | [] => []
  | d :: l => if bool_decide (d = c) then l else d :: erase_first c l
  end.

Definition UnregisterCallback (callback : option nat) (l : logger) : logger :=
  match callback with
  | None => l
  | Some c => mkLogger (loggable_ l) (isHap_ l) (initialized_ l) (erase_first c (callbacks_ l)) (queue_ l)
  end.
