(* ===== verification/AppboxLogger.v ===== *)
(** * The loggers of the application log

    AppboxLogger (appbox_logger.cpp): the logs of an application in its private
    and in its public directory. *)

From S2P Require Import Prelude Common Utils LogPrint SandboxFs AppFileManager LogQueue.
From Stdlib Require Import Ascii.

Definition PRIVATE_APP_LOG_DIR : string := "/data/storage/el2/base/files/hiapplog/".
Definition PUBLIC_APP_LOG_DIR : string := "/data/storage/el2/log/hiapplog/".
Definition LOG_FILE_PREFIX : string := "hiapplog".
Definition LOG_FILE_SUFFIX : string := ".log".
Definition PRIVATE_APP_PERSIST_FILE : string := PRIVATE_APP_LOG_DIR +:+ ".persist_sandbox_log_".
Definition PUBLIC_APP_PERSIST_FILE : string := PUBLIC_APP_LOG_DIR +:+ ".persist_sandbox_log_".
Definition MAX_SANDBOX_LOG_NUM : Z := 50.
Definition MAX_SANDBOX_LOG_FILE_SIZE : Z := 2 * 1024 * 1024.
Definition SANDBOX_LOG_MMAP_SIZE : Z := 16 * 1024.
Definition MAX_LOG_LEN : Z := 1024.
Definition SUCCESS : Z := 0.
Definition ERROR_DISABLED : Z := 50.

Inductive AppboxLoggerType := PRIVATE_SANDBOX | PUBLIC_SANDBOX.

Record logger := mkLogger {
  loggable_ : bool;
  initialized_ : bool;
  type_ : AppboxLoggerType;
  queue_ : queue AppFileManager;
}.

Definition set_queue (l : logger) (q : queue AppFileManager) : logger := mkLogger (loggable_ l) (initialized_ l) (type_ l) q.

Definition new_logger (pid : Z) (type : AppboxLoggerType) : logger :=
  mkLogger false false type (mkQueue [] false Waiting (new_app pid)).

(** The sum binds more tightly than the conditional. *)
Definition app_config (type : AppboxLoggerType) (pid : Z) : AppFileConfig :=
  mkAppConfig
    (match type with PRIVATE_SANDBOX => PRIVATE_APP_LOG_DIR | PUBLIC_SANDBOX => PUBLIC_APP_LOG_DIR end)
    (match type with
     | PRIVATE_SANDBOX => PRIVATE_APP_PERSIST_FILE
     | PUBLIC_SANDBOX => PUBLIC_APP_PERSIST_FILE +:+ to_string pid
     end)
    LOG_FILE_PREFIX LOG_FILE_SUFFIX MAX_SANDBOX_LOG_NUM MAX_SANDBOX_LOG_FILE_SIZE SANDBOX_LOG_MMAP_SIZE.

(** [None]: the last character of an empty string is read. *)
Definition DoWriteLog (msg : string) (l : logger) : option (logger * Z) :=
  if bool_decide (msg = "") then None
  else Some (set_queue l (AsyncWriteLog (end_line msg) (queue_ l)), SUCCESS).

Definition WriteLog (str : string) (l : logger) : option (logger * Z) :=
  if negb (loggable_ l) then Some (l, ERROR_DISABLED)
  else DoWriteLog (str_take (Z.to_nat MAX_LOG_LEN) str) l.

Section files.
Context (order : list string -> list string) (std_sort : forall A, (A -> A -> bool) -> list A -> list A).
Context (localtime : Z -> tm).

(** Clearing the files, and looking for those of the last seconds. *)
Inductive app_call : (AppFileManager -> sysM AppFileManager) -> Prop :=
| call_clear : app_call (fun m => '(m, _) ← ClearLogFiles order std_sort localtime m; mret m)
| call_files seconds : app_call (fun m => GetLogFilesByTime order m seconds;; mret m).

#[export] Instance app_files : FileManager AppFileManager := {|
  fm_WriteLog := AppFileManager.WriteLog order std_sort localtime;
  fm_Flush := AppFileManager.Flush order std_sort localtime;
  fm_Other := app_call;
|}.

Definition InitFileManager (pid : Z) (l : logger) : sysM (logger * bool) :=
  '(m, ok) ← AppFileManager.Initialize order std_sort localtime (app_config (type_ l) pid) (files_ (queue_ l));
  mret (set_queue l (mkQueue (tasks_ (queue_ l)) (stop_ (queue_ l)) (worker_ (queue_ l)) m), ok).

Definition SetStatus (pid : Z) (status : bool) (l : logger) : sysM logger :=
  l ← (if negb (initialized_ l) && status then
         '(l, ok) ← InitFileManager pid l;
         mret (mkLogger (loggable_ l) ok (type_ l) (queue_ l))
       else mret l);
  if negb (initialized_ l) then mret l else
  let oldStatus := loggable_ l in
  let l := mkLogger status (initialized_ l) (type_ l) (queue_ l) in
  if negb status && oldStatus then '(q, _) ← FlushLog (queue_ l); mret (set_queue l q) else mret l.

Definition CleanLog (l : logger) : sysM (logger * bool) :=
  '(m, ok) ← ClearLogFiles order std_sort localtime (files_ (queue_ l));
  mret (set_queue l (mkQueue (tasks_ (queue_ l)) (stop_ (queue_ l)) (worker_ (queue_ l)) m), ok).

Definition GetLogFile (seconds : Z) (l : logger) : sysM (list string) :=
  '(_, files) ← GetLogFilesByTime order (files_ (queue_ l)) seconds; mret files.
End files.
