(* ===== verification/PageSwitchLog.v ===== *)
(** * The interface of the sandbox log

    page_switch_log.cpp: the calls an application makes, on the three loggers
    of its process. *)

From S2P Require Import Prelude Common Utils LogPrint SandboxFs LogQueue SandboxLogger AppboxLogger.
From Stdlib Require Import Ascii.

(** The loggers of a process. *)
Record process := mkProcess {
  page_switch : SandboxLogger.logger;
  private_sandbox : AppboxLogger.logger;
  public_sandbox : AppboxLogger.logger;
}.

Inductive sandbox_call :=
| WritePageSwitch (formatted : option (Z * string))
| RegisterPageSwitchLogStatusCallback (callback : option nat)
| UnregisterPageSwitchLogStatusCallback (callback : option nat)
| WritePageSwitchStr (str : string)
| IsPageSwitchLoggable
| SetPageSwitchStatus (status : bool)
| CreatePageSwitchSnapshot (eventTime : Z) (enablePackAll : bool)
| FlushPageSwitchLog
| WritePrivateSandboxStr (str : string)
| WriteShareSandboxStr (str : string)
| FlushPrivateSandboxLog
| FlushShareSandboxLog
| CleanPrivateSandboxLog
| CleanShareSandboxLog
| GetPrivateSandboxLogFile (seconds : Z)
| GetShareSandboxLogFile (seconds : Z)
| SetPrivateSandboxStatus (status : bool)
| SetPublicSandboxStatus (status : bool).

(** What a call returns; [Undefined] when its behaviour is not defined. *)
Inductive sandbox_answer :=
| Nothing | Int (z : Z) | Bool (b : bool) | Snapshot (s : option string) | Files (names : list string)
| Callbacks (called : list (nat * bool)) | Undefined.

Section api.
Context (order : list string -> list string) (std_sort : forall A, (A -> A -> bool) -> list A -> list A).
Context (localtime : Z -> tm) (mktime : list Z -> option Z) (cJSON_PrintUnformatted : list string -> option string).
Context (program : string) (getpid gettid : Z).

Abbreviation localtime_r := (fun t => Some (localtime t)).
#[local] Existing Instance AppboxLogger.app_files.

Definition with_page (p : process) (l : SandboxLogger.logger) : process := mkProcess l (private_sandbox p) (public_sandbox p).
Definition with_private (p : process) (l : AppboxLogger.logger) : process := mkProcess (page_switch p) l (public_sandbox p).
Definition with_public (p : process) (l : AppboxLogger.logger) : process := mkProcess (page_switch p) (private_sandbox p) l.

Definition write_app (str : string) (l : AppboxLogger.logger) (update : AppboxLogger.logger -> process) (p : process) :
    process * sandbox_answer :=
  match AppboxLogger.WriteLog str l with
  | Some (l, r) => (update l, Int r)
  | None => (p, Undefined)
  end.

Definition flush_app (l : AppboxLogger.logger) : sysM (AppboxLogger.logger * bool) :=
  '(q, ok) ← FlushLog (H := AppboxLogger.app_files order std_sort localtime) (AppboxLogger.queue_ l);
  mret (AppboxLogger.set_queue l q, ok).

Definition sandbox_api (c : sandbox_call) (p : process) : sysM (process * sandbox_answer) :=
  let page := page_switch p in
  let priv := private_sandbox p in
  let pub := public_sandbox p in
  match c with
  | WritePageSwitch None => mret (p, Int (-1))
  | WritePageSwitch formatted =>
      '(l, r) ← SandboxLogger.WriteLogFmt localtime_r getpid gettid formatted page; mret (with_page p l, Int r)
  | RegisterPageSwitchLogStatusCallback callback =>
      let '(l, ok) := SandboxLogger.RegisterCallback callback page in mret (with_page p l, Bool ok)
  | UnregisterPageSwitchLogStatusCallback callback =>
      mret (with_page p (SandboxLogger.UnregisterCallback callback page), Nothing)
  | WritePageSwitchStr str =>
      '(l, r) ← SandboxLogger.WriteLog localtime_r getpid gettid str page; mret (with_page p l, Int r)
  | IsPageSwitchLoggable => mret (p, Bool (SandboxLogger.loggable_ page))
  | SetPageSwitchStatus status =>
      '(l, called) ← SandboxLogger.SetStatus order std_sort program status page; mret (with_page p l, Callbacks called)
  | CreatePageSwitchSnapshot eventTime enablePackAll =>
      '(l, r) ← SandboxLogger.CreateSnapshot order std_sort localtime_r mktime cJSON_PrintUnformatted eventTime enablePackAll page;
      mret (with_page p l, Snapshot r)
  | FlushPageSwitchLog =>
      '(q, ok) ← FlushLog (SandboxLogger.queue_ page); mret (with_page p (SandboxLogger.set_queue page q), Bool ok)
  | WritePrivateSandboxStr str => mret (write_app str priv (with_private p) p)
  | WriteShareSandboxStr str => mret (write_app str pub (with_public p) p)
  | FlushPrivateSandboxLog => '(l, ok) ← flush_app priv; mret (with_private p l, Bool ok)
  | FlushShareSandboxLog => '(l, ok) ← flush_app pub; mret (with_public p l, Bool ok)
  | CleanPrivateSandboxLog =>
      '(l, ok) ← AppboxLogger.CleanLog order std_sort localtime priv; mret (with_private p l, Bool ok)
  | CleanShareSandboxLog =>
      '(l, ok) ← AppboxLogger.CleanLog order std_sort localtime pub; mret (with_public p l, Bool ok)
  | GetPrivateSandboxLogFile seconds => files ← AppboxLogger.GetLogFile order seconds priv; mret (p, Files files)
  | GetShareSandboxLogFile seconds => files ← AppboxLogger.GetLogFile order seconds pub; mret (p, Files files)
  | SetPrivateSandboxStatus status =>
      l ← AppboxLogger.SetStatus order std_sort localtime getpid status priv; mret (with_private p l, Nothing)
  | SetPublicSandboxStatus status =>
      l ← AppboxLogger.SetStatus order std_sort localtime getpid status pub; mret (with_public p l, Nothing)
  end.
End api.
