(* ===== verification/SandboxFsProps.v ===== *)
(** * Lemmas on the files of the sandbox log

    Consistency of the file system and its preservation by the calls the
    sandbox log makes, what each call does to the files that have names, and
    the memory-mapped buffer as a bounded string that survives its process. *)

From S2P Require Import Prelude Common Utils LogPrint SandboxFs.
From Stdlib Require Import Ascii.

(** ** Consistency *)

Record world_ok (w : world) : Prop := mkWorldOk {
  ok_inj : forall p q i, w_names w !! p = Some i -> w_names w !! q = Some i -> p = q;
  ok_named : forall p i, w_names w !! p = Some i -> is_Some (w_inodes w !! i);
  ok_inodes : forall i, is_Some (w_inodes w !! i) -> (i < w_next w)%nat;
  ok_fds : forall fd i, w_fds w !! fd = Some i -> (fd < w_next w)%nat /\ is_Some (w_inodes w !! i);
  ok_locks : forall i n fd, w_inodes w !! i = Some n -> i_lock n = Some fd -> w_fds w !! fd = Some i;
}.

(** The system has no failure in store. *)
Abbreviation no_faults w := (w_outcomes w = []).

Lemma next_outcome_done w : no_faults w -> next_outcome w = (w, Done).
Proof. unfold next_outcome. by intros ->. Qed.

Lemma file_of_Some w p i n : w_names w !! p = Some i -> w_inodes w !! i = Some n -> file_of w p = Some n.
Proof. unfold file_of, inode_of. intros -> H. by cbn. Qed.

Lemma file_of_names w p : world_ok w -> is_Some (file_of w p) <-> is_Some (w_names w !! p).
Proof.
  intros Hok. unfold file_of, inode_of. destruct (w_names w !! p) as [i|] eqn:E; cbn.
  - split; [done|]. intros _. by eapply ok_named.
  - done.
Qed.

Lemma file_of_None w p : world_ok w -> file_of w p = None <-> w_names w !! p = None.
Proof. intros Hok. rewrite !eq_None_not_Some. by rewrite file_of_names. Qed.

(** Changing an inode changes what its path shows, and nothing else. *)
Section upd_inode.
Context (i : nat) (f : inode -> inode).

Lemma upd_inode_names w : w_names (upd_inode i f w) = w_names w.
Proof. unfold upd_inode. by destruct (_ !! i). Qed.
Lemma upd_inode_fds w : w_fds (upd_inode i f w) = w_fds w.
Proof. unfold upd_inode. by destruct (_ !! i). Qed.
Lemma upd_inode_dirs w : w_dirs (upd_inode i f w) = w_dirs w.
Proof. unfold upd_inode. by destruct (_ !! i). Qed.
Lemma upd_inode_next w : w_next (upd_inode i f w) = w_next w.
Proof. unfold upd_inode. by destruct (_ !! i). Qed.
Lemma upd_inode_now w : w_now (upd_inode i f w) = w_now w.
Proof. unfold upd_inode. by destruct (_ !! i). Qed.
Lemma upd_inode_outcomes w : w_outcomes (upd_inode i f w) = w_outcomes w.
Proof. unfold upd_inode. by destruct (_ !! i). Qed.

Lemma upd_inode_lookup w j :
  w_inodes (upd_inode i f w) !! j = (if decide (i = j) then f <$> w_inodes w !! j else w_inodes w !! j).
Proof.
  unfold upd_inode. destruct (w_inodes w !! i) as [n|] eqn:E.
  - cbn. case_decide; [subst; by rewrite lookup_insert_eq, E | by rewrite lookup_insert_ne].
  - case_decide; [subst; by rewrite E | done].
Qed.

Lemma upd_inode_file_of w p :
  file_of (upd_inode i f w) p = (if decide (w_names w !! p = Some i) then f <$> file_of w p else file_of w p).
Proof.
  unfold file_of, inode_of. rewrite upd_inode_names. destruct (w_names w !! p) as [j|] eqn:E; cbn.
  - rewrite upd_inode_lookup. case_decide; case_decide; by simplify_eq.
  - by case_decide.
Qed.

Lemma upd_inode_ok w :
  world_ok w -> (forall n, i_lock (f n) = i_lock n \/ i_lock (f n) = None) -> world_ok (upd_inode i f w).
Proof.
  intros [Hinj Hnam Hino Hfd Hlk] Hf.
  assert (forall j, is_Some (w_inodes (upd_inode i f w) !! j) <-> is_Some (w_inodes w !! j)) as Hsome.
  { intros j. rewrite upd_inode_lookup. case_decide; [by rewrite fmap_is_Some | done]. }
  constructor.
  - rewrite upd_inode_names. done.
  - intros p j. rewrite upd_inode_names, Hsome. apply Hnam.
  - intros j. rewrite upd_inode_next, Hsome. apply Hino.
  - intros fd j. rewrite upd_inode_fds, upd_inode_next, Hsome. apply Hfd.
  - intros j n fd. rewrite upd_inode_lookup, upd_inode_fds. case_decide; [subst|apply Hlk].
    intros (n' & Hn' & ->)%fmap_Some Hl. destruct (Hf n') as [E|E]; rewrite E in Hl; [by eapply Hlk | done].
Qed.
End upd_inode.

#[export] Hint Rewrite upd_inode_names upd_inode_fds upd_inode_dirs upd_inode_next upd_inode_now upd_inode_outcomes : sandbox.

(** ** Calls that change nothing that has a name *)

Lemma release_data fd n : i_data (release fd n) = i_data n.
Proof. unfold release. by case_bool_decide. Qed.
Lemma release_mtime fd n : i_mtime (release fd n) = i_mtime n.
Proof. unfold release. by case_bool_decide. Qed.
Lemma release_lock fd n : i_lock (release fd n) = if decide (i_lock n = Some fd) then None else i_lock n.
Proof. unfold release. case_bool_decide; by case_decide. Qed.
Lemma release_twice fd n : release fd (release fd n) = release fd n.
Proof.
  unfold release at 1. rewrite bool_decide_eq_false_2; [done|]. rewrite release_lock. by case_decide.
Qed.

(** What closing the descriptor [fd] leaves. *)
Definition closed (fd i : nat) (w : world) : world := set_fds (delete fd (w_fds w)) (upd_inode i (release fd) w).

Lemma UnlockAndCloseFd_spec fd i w :
  w_fds w !! fd = Some i -> UnlockAndCloseFd (Some fd) w = (closed fd i w, true).
Proof.
  intros H. unfold UnlockAndCloseFd, sys_unlock, mbind, sysM_bind. rewrite H. unfold sys_close.
  rewrite upd_inode_fds, H. unfold closed, mret, sysM_ret. f_equal.
  assert (upd_inode i (release fd) (upd_inode i (release fd) w) = upd_inode i (release fd) w) as ->; [|done].
  unfold upd_inode at 1. rewrite upd_inode_lookup, decide_True by done. destruct (w_inodes w !! i) as [n|] eqn:E; cbn; [|done].
  unfold upd_inode. rewrite E. rewrite release_twice. unfold set_inodes. cbn. f_equal. by rewrite insert_insert_eq.
Qed.

Lemma closed_names fd i w : w_names (closed fd i w) = w_names w.
Proof. unfold closed. cbn. by autorewrite with sandbox. Qed.
Lemma closed_file_of fd i w p :
  file_of (closed fd i w) p = if decide (w_names w !! p = Some i) then release fd <$> file_of w p else file_of w p.
Proof. change (file_of (upd_inode i (release fd) w) p = if decide (w_names w !! p = Some i) then release fd <$> file_of w p else file_of w p). apply upd_inode_file_of. Qed.
Lemma closed_data fd i w p : i_data <$> file_of (closed fd i w) p = i_data <$> file_of w p.
Proof. rewrite closed_file_of. case_decide; [|done]. destruct (file_of w p); cbn; [by rewrite release_data | done]. Qed.

Lemma closed_ok fd i w : world_ok w -> w_fds w !! fd = Some i -> world_ok (closed fd i w).
Proof.
  intros Hok Hfd. pose proof (upd_inode_ok i (release fd) w Hok) as [Hinj Hnam Hino Hfds Hlk].
  { intros n. rewrite release_lock. case_decide; auto. }
  constructor; unfold closed; cbn; [done | done | done | |].
  - intros fd' j [Hne H]%lookup_delete_Some. apply (Hfds fd'). by autorewrite with sandbox.
  - intros j n fd' Hj Hl. rewrite lookup_delete_ne; [autorewrite with sandbox in Hlk; by eapply Hlk|].
    intros <-. assert (w_fds w !! fd = Some j) as Hj' by (autorewrite with sandbox in Hlk; by eapply Hlk). simplify_eq.
    rewrite upd_inode_lookup, decide_True in Hj by done. apply fmap_Some in Hj as (n' & _ & ->).
    rewrite release_lock in Hl. case_decide; congruence.
Qed.

(** ** Opening and locking *)

(** A description that was opened and closed leaves a number unused. *)
Definition bump (w : world) : world :=
  mkWorld (w_dirs w) (w_names w) (w_inodes w) (w_fds w) (S (w_next w)) (w_now w) (w_outcomes w).

Lemma bump_ok w : world_ok w -> world_ok (bump w).
Proof.
  intros [Hinj Hnam Hino Hfd Hlk]. constructor; unfold bump; cbn; try done.
  - intros i Hi%Hino. lia.
  - intros fd i Hf. apply Hfd in Hf as [? ?]. split; [lia | done].
Qed.

Lemma fresh_fd w : world_ok w -> w_fds w !! w_next w = None.
Proof. intros Hok. destruct (w_fds w !! w_next w) eqn:E; [|done]. apply ok_fds in E as [? _]; [lia | done]. Qed.

Lemma fresh_inode w : world_ok w -> w_inodes w !! w_next w = None.
Proof.
  intros Hok. destruct (w_inodes w !! w_next w) eqn:E; [|done].
  pose proof (ok_inodes w Hok (w_next w)) as H. rewrite E in H. specialize (H ltac:(done)). lia.
Qed.

Lemma fresh_unlocked w i n : world_ok w -> w_inodes w !! i = Some n -> i_lock n <> Some (w_next w).
Proof. intros Hok Hi Hl. pose proof (ok_locks w Hok _ _ _ Hi Hl) as H. by rewrite fresh_fd in H. Qed.

Lemma IsFileWriteLocked_spec w p n :
  world_ok w -> no_faults w -> file_of w p = Some n ->
  IsFileWriteLocked p w = (bump w, bool_decide (is_Some (i_lock n))).
Proof.
  intros Hok Hf (i & Hp & Hi)%bind_Some.
  unfold IsFileWriteLocked, sys_open, mbind, sysM_bind, mret, sysM_ret. rewrite next_outcome_done by done. cbn.
  unfold inode_of in *. rewrite Hp. cbn. unfold sys_close. cbn. rewrite lookup_insert_eq. cbn. rewrite Hi. cbn. f_equal.
  - unfold set_fds, upd_inode. cbn. rewrite Hi. cbn. rewrite delete_insert_id by by apply fresh_fd.
    unfold set_inodes, bump. cbn. f_equal. apply insert_id. rewrite Hi. unfold release.
    rewrite bool_decide_eq_false_2; [done|]. by eapply fresh_unlocked.
  - destruct (i_lock n) as [o|] eqn:El; [|by rewrite bool_decide_eq_false_2 by (by intros [? ?])].
    rewrite bool_decide_eq_false_2, bool_decide_eq_true_2; [done|done|].
    intros [= ->]. by eapply fresh_unlocked in El.
Qed.

(** [LockFile] on a path without a file. *)
Definition locked_new (p : string) (w : world) : world :=
  mkWorld (w_dirs w) (<[p := w_next w]> (w_names w)) (<[w_next w := mkInode "" (w_now w) (Some (S (w_next w)))]> (w_inodes w))
    (<[S (w_next w) := w_next w]> (w_fds w)) (S (S (w_next w))) (w_now w) (w_outcomes w).

Lemma LockFile_new w p :
  no_faults w -> w_names w !! p = None -> dir_exists w p = true ->
  LockFile p w = (locked_new p w, Some (S (w_next w))).
Proof.
  intros Hf Hp Hd. unfold LockFile, sys_open, mbind, sysM_bind. rewrite next_outcome_done by done. cbn.
  unfold inode_of. rewrite Hp, Hd. cbn. unfold sys_lock. cbn. rewrite lookup_insert_eq. cbn. rewrite lookup_insert_eq. cbn.
  unfold upd_inode. cbn. rewrite lookup_insert_eq. unfold set_inodes, mret, sysM_ret, locked_new. cbn. by rewrite insert_insert_eq.
Qed.

Lemma locked_new_ok w p : world_ok w -> w_names w !! p = None -> world_ok (locked_new p w).
Proof.
  intros Hok Hp. pose proof (fresh_inode w Hok) as Hni. destruct Hok as [Hinj Hnam Hino Hfd Hlk].
  assert (forall q i, w_names w !! q = Some i -> i <> w_next w) as Hne.
  { intros q i Hq ->. apply Hnam in Hq as [? ?]. congruence. }
  constructor; unfold locked_new; cbn.
  - intros q r i [[<- <-]|[? H1]]%lookup_insert_Some [[<- E]|[? H2]]%lookup_insert_Some; try done.
    + by apply Hne in H2.
    + subst. by apply Hne in H1.
    + by eapply Hinj.
  - intros q i [[<- <-]|[? H1]]%lookup_insert_Some; [by rewrite lookup_insert_eq|].
    rewrite lookup_insert_ne by (by eapply not_eq_sym, Hne). by eapply Hnam.
  - intros i [n [[<- _]|[? H]]%lookup_insert_Some]; [lia|]. pose proof (Hino i ltac:(by rewrite H)). lia.
  - intros fd i [[<- <-]|[? H]]%lookup_insert_Some; [rewrite lookup_insert_eq; split; [lia | done]|].
    apply Hfd in H as [? H]. split; [lia|]. destruct (decide (i = w_next w)) as [->|]; [by rewrite lookup_insert_eq|by rewrite lookup_insert_ne].
  - intros i n fd [[<- <-]|[? H]]%lookup_insert_Some Hl; cbn in Hl; [simplify_eq; by rewrite lookup_insert_eq|].
    pose proof (Hlk _ _ _ H Hl) as H'. rewrite lookup_insert_ne; [done|]. apply Hfd in H' as [? _]. lia.
Qed.

Lemma locked_new_file_of w p q :
  world_ok w -> file_of (locked_new p w) q =
    if decide (q = p) then Some (mkInode "" (w_now w) (Some (S (w_next w)))) else file_of w q.
Proof.
  intros Hok. unfold file_of, inode_of, locked_new. cbn. case_decide as E.
  - subst. rewrite lookup_insert_eq. cbn. by rewrite lookup_insert_eq.
  - rewrite lookup_insert_ne by done. destruct (w_names w !! q) as [i|] eqn:Hq; [|done]. cbn.
    rewrite lookup_insert_ne; [done|]. intros <-. apply ok_named in Hq as [? Hq]; [|done]. by rewrite fresh_inode in Hq.
Qed.

(** [LockFile] on an existing file that nobody has locked. *)
Definition locked_at (i : nat) (w : world) : world :=
  upd_inode i (set_lock (Some (w_next w)))
    (mkWorld (w_dirs w) (w_names w) (w_inodes w) (<[w_next w := i]> (w_fds w)) (S (w_next w)) (w_now w) (w_outcomes w)).

Lemma LockFile_unlocked w p i n :
  no_faults w -> w_names w !! p = Some i -> w_inodes w !! i = Some n -> i_lock n = None ->
  LockFile p w = (locked_at i w, Some (w_next w)).
Proof.
  intros Hf Hp Hi Hl. unfold LockFile, sys_open, mbind, sysM_bind. rewrite next_outcome_done by done. cbn.
  unfold inode_of. rewrite Hp. cbn. unfold sys_lock. cbn. rewrite lookup_insert_eq. cbn. rewrite Hi. cbn. by rewrite Hl.
Qed.

Lemma locked_at_ok w i : world_ok w -> is_Some (w_inodes w !! i) -> (i_lock <$> w_inodes w !! i) = Some None -> world_ok (locked_at i w).
Proof.
  intros Hok Hs Hn. destruct Hok as [Hinj Hnam Hino Hfd Hlk]. unfold locked_at.
  assert (forall j, is_Some (w_inodes (locked_at i w) !! j) <-> is_Some (w_inodes w !! j)) as Hsome.
  { intros j. unfold locked_at. rewrite upd_inode_lookup. cbn. case_decide; [by rewrite fmap_is_Some | done]. }
  constructor; autorewrite with sandbox; cbn.
  - done.
  - intros p j Hp. apply Hsome. by eapply Hnam.
  - intros j Hj%Hsome%Hino. lia.
  - intros fd j Hj. split; [|apply Hsome]; apply lookup_insert_Some in Hj as [[<- <-]|[? Hj]]; try (lia || done); apply Hfd in Hj as [? ?]; [lia | done].
  - intros j m fd. rewrite upd_inode_lookup. cbn. case_decide; [subst|].
    + intros (m' & _ & ->)%fmap_Some [= <-]. by rewrite lookup_insert_eq.
    + intros Hj Hl. pose proof (Hlk _ _ _ Hj Hl) as H'. rewrite lookup_insert_ne; [done|]. apply Hfd in H' as [? _]. lia.
Qed.

Lemma locked_at_file_of w i p :
  file_of (locked_at i w) p = if decide (w_names w !! p = Some i) then set_lock (Some (w_next w)) <$> file_of w p else file_of w p.
Proof. unfold locked_at. rewrite upd_inode_file_of. done. Qed.

(** ** Writing *)

Lemma sys_write_spec w fd i s :
  no_faults w -> w_fds w !! fd = Some i ->
  sys_write (Some fd) s w = (upd_inode i (append_data (w_now w) s) w, Some (slen s)).
Proof. intros Hf Hfd. unfold sys_write, mbind, sysM_bind. rewrite next_outcome_done by done. unfold sys. cbn. by rewrite Hfd. Qed.

Lemma sys_fsync_spec w fd : no_faults w -> sys_fsync (Some fd) w = (w, true).
Proof. intros Hf. unfold sys_fsync, mbind, sysM_bind. by rewrite next_outcome_done. Qed.

Lemma fs_rename_spec w p q i :
  no_faults w -> w_names w !! p = Some i -> fs_rename p q w = (set_names (<[q := i]> (delete p (w_names w))) w, true).
Proof. intros Hf Hp. unfold fs_rename, mbind, sysM_bind, inode_of, sys. rewrite next_outcome_done by done. by rewrite Hp. Qed.

Lemma fs_rename_none w p q : no_faults w -> w_names w !! p = None -> fs_rename p q w = (w, false).
Proof. intros Hf Hp. unfold fs_rename, mbind, sysM_bind, inode_of, sys. rewrite next_outcome_done by done. by rewrite Hp. Qed.

Lemma rename_ok w p q i :
  world_ok w -> w_names w !! p = Some i -> world_ok (set_names (<[q := i]> (delete p (w_names w))) w).
Proof.
  intros [Hinj Hnam Hino Hfd Hlk] Hp. constructor; cbn; try done.
  - intros a b j [[<- <-]|[? [? Ha]%lookup_delete_Some]]%lookup_insert_Some [[<- E]|[? [? Hb]%lookup_delete_Some]]%lookup_insert_Some; try done.
    + by pose proof (Hinj _ _ _ Hp Hb).
    + subst. by pose proof (Hinj _ _ _ Hp Ha).
    + by eapply Hinj.
  - intros a j [[<- <-]|[? [? Ha]%lookup_delete_Some]]%lookup_insert_Some; by eapply Hnam.
Qed.

Lemma remove_ok w p : world_ok w -> world_ok (set_names (delete p (w_names w)) w).
Proof.
  intros [Hinj Hnam Hino Hfd Hlk]. constructor; cbn; try done.
  - intros a b j [_ Ha]%lookup_delete_Some [_ Hb]%lookup_delete_Some. by eapply Hinj.
  - intros a j [_ Ha]%lookup_delete_Some. by eapply Hnam.
Qed.

(** ** The mapped buffer *)

Lemma str_drop_app_slen a b : str_drop (Z.to_nat (slen a)) (a +:+ b) = b.
Proof. rewrite slen_Z_to_nat. apply str_drop_app_length. Qed.
Lemma str_take_app_slen a b : str_take (Z.to_nat (slen a)) (a +:+ b) = a.
Proof. rewrite slen_Z_to_nat. apply str_take_app_length. Qed.

Lemma splice_app a b c s : slen b = slen s -> splice (a +:+ b +:+ c) (slen a) s = a +:+ s +:+ c.
Proof.
  intros Hl. unfold splice. rewrite str_take_app_slen. do 2 f_equal.
  rewrite str_drop_add, str_drop_app_slen.
  replace (String.length s) with (Z.to_nat (slen b)) by (rewrite Hl; apply slen_Z_to_nat). apply str_drop_app_slen.
Qed.

(** [n] characters of a string, split off. *)
Lemma str_split_at (n : Z) s : 0 <= n <= slen s -> exists a b, s = a +:+ b /\ slen a = n.
Proof.
  intros Hn. exists (str_take (Z.to_nat n) s), (str_drop (Z.to_nat n) s).
  rewrite str_take_drop, slen_take. split; [done | lia].
Qed.

(** A buffer file with room for [size] characters that holds the text [t]. *)
Definition buffer_holds (data : string) (size : Z) (t : string) : Prop :=
  exists rest, data = le_bytes 8 (slen t) +:+ t +:+ rest /\ slen t <= size <= slen t + slen rest.

(** The manager [mm] maps the file at [p], which holds the text [t]. *)
Definition mapped (mm : LogMmapManager) (w : world) (p : string) (size : Z) (t : string) : Prop :=
  exists i n, mmapPtr_ mm = Some i /\ mmapSize_ mm = size + METADATA_SIZE /\ currentOffset_ mm = slen t /\
    w_names w !! p = Some i /\ w_inodes w !! i = Some n /\ buffer_holds (i_data n) size t.

Lemma buffer_holds_write rest t log size :
  slen t + slen log <= size <= slen t + slen rest ->
  exists rest', splice (splice (le_bytes 8 (slen t) +:+ t +:+ rest) (METADATA_SIZE + slen t) log) 0 (le_bytes 8 (slen (t +:+ log)))
    = le_bytes 8 (slen (t +:+ log)) +:+ (t +:+ log) +:+ rest' /\ size <= slen (t +:+ log) + slen rest'.
Proof.
  intros H. pose proof (slen_nonneg log). destruct (str_split_at (slen log) rest) as (b & c & -> & Hb); [lia|].
  rewrite slen_app in H.
  exists c. rewrite slen_app. split; [|lia].
  pose proof (splice_app (le_bytes 8 (slen t) +:+ t) b c log Hb) as E.
  rewrite slen_app, slen_le_bytes in E. rewrite <- str_app_assoc in E. change (Z.of_nat 8) with METADATA_SIZE in E. rewrite E.
  pose proof (splice_app "" (le_bytes 8 (slen t)) (t +:+ log +:+ c) (le_bytes 8 (slen t + slen log))) as E2.
  rewrite !str_nil_app in E2. change (slen "") with 0 in E2. rewrite !slen_le_bytes in E2. specialize (E2 eq_refl).
  rewrite <- (str_app_assoc (le_bytes 8 (slen t)) t). rewrite E2. by rewrite !str_app_assoc.
Qed.

Lemma buffer_holds_reset rest t size :
  slen t <= size <= slen t + slen rest ->
  buffer_holds (splice (splice (le_bytes 8 (slen t) +:+ t +:+ rest) METADATA_SIZE (fill (Z.to_nat size) NUL)) 0 (le_bytes 8 0)) size "".
Proof.
  intros H. pose proof (slen_nonneg t). destruct (str_split_at size (t +:+ rest)) as (b & c & -> & Hb); [rewrite slen_app; lia|].
  pose proof (splice_app (le_bytes 8 (slen t)) b c (fill (Z.to_nat size) NUL)) as E.
  rewrite slen_fill, slen_le_bytes in E. change (Z.of_nat 8) with METADATA_SIZE in E. rewrite E by lia.
  pose proof (splice_app "" (le_bytes 8 (slen t)) (fill (Z.to_nat size) NUL +:+ c) (le_bytes 8 0)) as E2.
  rewrite !str_nil_app in E2. change (slen "") with 0 in E2. rewrite !slen_le_bytes in E2. rewrite E2 by done.
  exists (fill (Z.to_nat size) NUL +:+ c). rewrite slen_app, slen_fill, str_nil_app. change (slen "") with 0.
  split; [done|]. pose proof (slen_nonneg c). lia.
Qed.

Lemma upd_inode_ext i f g w n : w_inodes w !! i = Some n -> f n = g n -> upd_inode i f w = upd_inode i g w.
Proof. unfold upd_inode. by intros -> ->. Qed.

Lemma upd_inode_twice i f g w : upd_inode i f (upd_inode i g w) = upd_inode i (f ∘ g) w.
Proof.
  unfold upd_inode at 1. rewrite upd_inode_lookup, decide_True by done. unfold upd_inode.
  destruct (w_inodes w !! i) as [n|] eqn:E; cbn; [|done]. unfold set_inodes. cbn. by rewrite insert_insert_eq.
Qed.

Lemma upd_inode_id i w n : w_inodes w !! i = Some n -> upd_inode i (set_data (i_data n)) w = w.
Proof.
  intros H. unfold upd_inode. rewrite H. unfold set_inodes. destruct w as [dirs names inodes fds next now outs]. cbn in *.
  f_equal. by apply insert_id; destruct n.
Qed.

(** The two writes of an operation on the buffer, seen as one. *)
Lemma poke_twice i w n pos1 s1 pos2 s2 :
  w_inodes w !! i = Some n ->
  upd_inode i (fun n => set_data (splice (i_data n) pos2 s2) n) (upd_inode i (fun n => set_data (splice (i_data n) pos1 s1) n) w)
  = upd_inode i (set_data (splice (splice (i_data n) pos1 s1) pos2 s2)) w.
Proof. intros H. rewrite upd_inode_twice. by eapply upd_inode_ext. Qed.

(** A manager over the changed file. *)
Lemma mapped_after i d mm w p size t n :
  w_names w !! p = Some i -> w_inodes w !! i = Some n -> mmapPtr_ mm = Some i -> mmapSize_ mm = size + METADATA_SIZE ->
  currentOffset_ mm = slen t -> buffer_holds d size t -> mapped mm (upd_inode i (set_data d) w) p size t.
Proof.
  intros Hp Hi Hm Hs Ho Hb. exists i, (set_data d n). rewrite upd_inode_names, upd_inode_lookup, decide_True by done.
  by rewrite Hi.
Qed.

Lemma Mmap_Write_spec mm w p size t log :
  mapped mm w p size t -> slen t + slen log <= size -> size < 2 ^ 32 ->
  exists i d mm', Mmap_Write mm log w = (upd_inode i (set_data d) w, mm') /\ w_names w !! p = Some i /\
    mapped mm' (upd_inode i (set_data d) w) p size (t +:+ log).
Proof.
  intros (i & n & Hm & Hs & Ho & Hp & Hi & rest & Hd & Hsz) Hlog Hsize.
  pose proof (slen_nonneg t). pose proof (slen_nonneg log). unfold Mmap_Write. rewrite Hm, Hs, Ho.
  replace (size + METADATA_SIZE - METADATA_SIZE) with size by lia. rewrite (wrapu_small 32 (slen log)), (wrapu_small 64 size), !wrapu_small by lia.
  destruct (Z.ltb_spec (size - slen t) (slen log)); [lia|]. unfold memcpy_s.
  destruct (Z.ltb_spec 0 (size - slen t)).
  - destruct (Z.leb_spec (slen log) (size - slen t)); [|lia]. cbn [negb andb].
    destruct (buffer_holds_write rest t log size) as (rest' & E & Hr); [lia|]. rewrite slen_app in E.
    exists i, (le_bytes 8 (slen (t +:+ log)) +:+ (t +:+ log) +:+ rest').
    exists (mkMmap (Some i) (mmapFp_ mm) (size + METADATA_SIZE) (slen t + slen log)).
    rewrite str_take_all by lia. unfold mbind, sysM_bind, poke, UpdateMetadata, sys, mret, sysM_ret. cbn [mmapPtr_ currentOffset_].
    unfold poke, sys.
    rewrite (poke_twice i w n) by done. rewrite Hd, E, <- slen_app. split; [done|]. split; [done|].
    eapply mapped_after; cbn [mmapPtr_ mmapSize_ currentOffset_]; [done | done | done | done | by rewrite slen_app|].
    exists rest'. split; [done|]. rewrite slen_app in *. lia.
  - assert (slen log = 0) as Hz by lia. rewrite Hz. destruct log; [|rewrite slen_cons in Hz; pose proof (slen_nonneg log); lia].
    exists i, (i_data n), mm. rewrite upd_inode_id by done. rewrite str_app_nil_r. split; [done|]. split; [done|].
    exists i, n. repeat split; try done. by exists rest.
Qed.

Lemma Reset_spec mm w p size t :
  mapped mm w p size t -> 0 < size < 2 ^ 32 ->
  exists i d mm', Reset mm w = (upd_inode i (set_data d) w, mm') /\ w_names w !! p = Some i /\
    mapped mm' (upd_inode i (set_data d) w) p size "".
Proof.
  intros (i & n & Hm & Hs & Ho & Hp & Hi & rest & Hd & Hsz) Hsize. unfold Reset. rewrite Hm, Hs.
  replace (size + METADATA_SIZE - METADATA_SIZE) with size by lia. rewrite wrapu_small by lia.
  destruct (Z.eqb_spec size 0); [lia|].
  pose proof (buffer_holds_reset rest t size Hsz) as Hb.
  eexists i, _, (mkMmap (Some i) (mmapFp_ mm) (size + METADATA_SIZE) 0).
  unfold mbind, sysM_bind, poke, UpdateMetadata, sys, mret, sysM_ret. cbn [mmapPtr_ currentOffset_]. unfold poke, sys.
  rewrite (poke_twice i w n) by done. rewrite Hd. split; [done|]. split; [done|]. by eapply mapped_after.
Qed.

(** The bytes a flush reads are the text. *)
Lemma map_bytes_spec mm w p size t : mapped mm w p size t -> map_bytes mm (GetOffset mm) w = Some t.
Proof.
  intros (i & n & Hm & Hs & Ho & Hp & Hi & rest & Hd & Hsz). unfold map_bytes, GetOffset. rewrite Hm. cbn. rewrite Hi. cbn.
  rewrite Ho, Hd. change (Pos.to_nat 8) with 8%nat. rewrite str_drop_le_bytes, str_take_app_slen. done.
Qed.

(** Changing another file leaves the buffer alone. *)
Lemma mapped_other mm w p size t j f :
  mapped mm w p size t -> w_names w !! p <> Some j -> mapped mm (upd_inode j f w) p size t.
Proof.
  intros (i & n & Hm & Hs & Ho & Hp & Hi & Hb) Hne. exists i, n. rewrite upd_inode_names, upd_inode_lookup, decide_False by congruence. done.
Qed.

(** A buffer file that is there is taken over with its text. *)
Lemma Mmap_Initialize_existing mm w p i n size t :
  no_faults w -> dir_exists w p = true -> w_names w !! p = Some i -> w_inodes w !! i = Some n ->
  buffer_holds (i_data n) size t -> size < 2 ^ 63 ->
  exists mm', Mmap_Initialize mm p size w = (w, (mm', true)) /\ mapped mm' w p size t.
Proof.
  intros Hf Hd Hp Hi Hb Hsize. pose proof Hb as (rest & Hdata & Hsz). pose proof (slen_nonneg t).
  exists (mkMmap (Some i) true (size + METADATA_SIZE) (slen t)). split; [|by exists i, n].
  unfold Mmap_Initialize, IsParentDirExists, fs_exists, map_open, fs_file_size, mbind, sysM_bind, sys.
  assert (inode_of w p = Some i) as Hio by done. rewrite Hd. cbn [negb]. cbv beta iota. rewrite Hio. rewrite bool_decide_eq_true_2 by done. cbn [orb].
  rewrite next_outcome_done by done. cbn [failed]. cbv beta iota. rewrite Hio. cbv beta iota. rewrite (file_of_Some w p i n) by done. cbn [fmap option_fmap option_map compose].
  assert (slen (i_data n) = METADATA_SIZE + slen t + slen rest) as Hl by (rewrite Hdata, !slen_app, slen_le_bytes; unfold METADATA_SIZE; lia).
  destruct (Z.ltb_spec (slen (i_data n)) (size + METADATA_SIZE)); [lia|]. unfold mret, sysM_ret. cbn [negb].
  rewrite next_outcome_done by done. cbn [failed]. destruct (Z.leb_spec METADATA_SIZE (slen (i_data n))); [|pose proof (slen_nonneg rest); lia].
  cbn [andb]. rewrite Hi. change (default 0 (le_val 8 ∘ i_data <$> Some n)) with (le_val 8 (i_data n)). rewrite Hdata.
  rewrite le_val_bytes_app by (unfold METADATA_SIZE in *; lia). destruct (Z.leb_spec (slen t) size); [done | lia].
Qed.

(** A file that a process made, with its content. *)
Definition created (p d : string) (w : world) : world :=
  mkWorld (w_dirs w) (<[p := w_next w]> (w_names w)) (<[w_next w := mkInode d (w_now w) None]> (w_inodes w)) (w_fds w)
    (S (w_next w)) (w_now w) (w_outcomes w).

Lemma created_ok w p d : world_ok w -> w_names w !! p = None -> world_ok (created p d w).
Proof.
  intros Hok Hp. pose proof (fresh_inode w Hok) as Hni. destruct Hok as [Hinj Hnam Hino Hfd Hlk].
  assert (forall q i, w_names w !! q = Some i -> i <> w_next w) as Hne.
  { intros q i Hq ->. apply Hnam in Hq as [? ?]. congruence. }
  constructor; unfold created; cbn.
  - intros q r i [[<- <-]|[? H1]]%lookup_insert_Some [[<- E]|[? H2]]%lookup_insert_Some; try done.
    + by apply Hne in H2.
    + subst. by apply Hne in H1.
    + by eapply Hinj.
  - intros q i [[<- <-]|[? H1]]%lookup_insert_Some; [by rewrite lookup_insert_eq|].
    rewrite lookup_insert_ne by (by eapply not_eq_sym, Hne). by eapply Hnam.
  - intros i [n [[<- _]|[? H]]%lookup_insert_Some]; [lia|]. pose proof (Hino i ltac:(by rewrite H)). lia.
  - intros fd i H. apply Hfd in H as [? H]. split; [lia|].
    destruct (decide (i = w_next w)) as [->|]; [by rewrite lookup_insert_eq|by rewrite lookup_insert_ne].
  - intros i n fd [[<- <-]|[? H]]%lookup_insert_Some Hl; [done|]. by eapply Hlk.
Qed.

Lemma created_file_of w p d q :
  world_ok w -> file_of (created p d w) q = if decide (q = p) then Some (mkInode d (w_now w) None) else file_of w q.
Proof.
  intros Hok. unfold file_of, inode_of, created. cbn. case_decide as E.
  - subst. rewrite lookup_insert_eq. cbn. by rewrite lookup_insert_eq.
  - rewrite lookup_insert_ne by done. destruct (w_names w !! q) as [i|] eqn:Hq; [|done]. cbn.
    rewrite lookup_insert_ne; [done|]. intros <-. apply ok_named in Hq as [? Hq]; [|done]. by rewrite fresh_inode in Hq.
Qed.

Lemma upd_created p d f w n :
  f (mkInode d (w_now w) None) = mkInode n (w_now w) None -> upd_inode (w_next w) f (created p d w) = created p n w.
Proof.
  intros Hf. unfold upd_inode, created. cbn. rewrite lookup_insert_eq, Hf. unfold set_inodes. cbn. by rewrite insert_insert_eq.
Qed.

(** Otherwise an empty one is made. *)
Lemma Mmap_Initialize_new mm w p size :
  world_ok w -> no_faults w -> dir_exists w p = true -> w_names w !! p = None -> norm_dir p ∉ w_dirs w -> 0 <= size ->
  exists mm' d, Mmap_Initialize mm p size w = (created p d w, (mm', true)) /\ mapped mm' (created p d w) p size "".
Proof.
  intros Hok Hf Hd Hp Hnd Hsize.
  set (d := splice (fill (Z.to_nat (size + METADATA_SIZE)) NUL) 0 (le_bytes 8 0)).
  exists (mkMmap (Some (w_next w)) true (size + METADATA_SIZE) 0), d. split.
  - unfold Mmap_Initialize, IsParentDirExists, fs_exists, map_open, fs_file_size, mbind, sysM_bind, sys.
    assert (inode_of w p = None) as Hio by done. rewrite Hd. cbn [negb]. cbv beta iota. rewrite Hio. rewrite bool_decide_eq_false_2 by (by intros [? ?]).
    rewrite bool_decide_eq_false_2 by done. cbn [orb]. rewrite next_outcome_done by done. cbn [failed]. cbv beta iota. rewrite Hio, Hd. cbv beta iota.
    change (new_file p w) with (created p "" w, w_next w). unfold mret, sysM_ret. cbv beta iota.
    rewrite created_file_of, decide_True by done. cbn [fmap option_fmap option_map compose i_data]. change (slen "") with 0.
    destruct (Z.ltb_spec 0 (size + METADATA_SIZE)); [|unfold METADATA_SIZE in *; lia].
    unfold grow, mbind, sysM_bind, sys. rewrite next_outcome_done by done. cbn [failed negb].
    rewrite (upd_created p "" _ w (fill (Z.to_nat (size + METADATA_SIZE)) NUL))
      by (unfold set_data; cbn; rewrite Z.sub_0_r, str_nil_app; done).
    rewrite next_outcome_done by done. cbn [failed andb]. unfold UpdateMetadata, poke, sys. cbn [mmapPtr_ currentOffset_].
    by rewrite (upd_created p _ _ w d).
  - exists (w_next w), (mkInode d (w_now w) None). repeat split; try done; unfold created; cbn; rewrite ?lookup_insert_eq; try done.
    exists (fill (Z.to_nat size) NUL). rewrite slen_fill, str_nil_app. change (slen "") with 0. split; [|lia].
    pose proof (splice_app "" (fill 8 NUL) (fill (Z.to_nat size) NUL) (le_bytes 8 0)) as E. rewrite !str_nil_app in E.
    change (slen "") with 0 in E. unfold d. replace (Z.to_nat (size + METADATA_SIZE)) with (8 + Z.to_nat size)%nat by (unfold METADATA_SIZE; lia).
    by apply E.
Qed.

(** ** The files of a directory *)

Lemma prefix_app p t : String.prefix p (p +:+ t) = true.
Proof. induction p as [|c p IH]; [by destruct t|]. rewrite str_cons_app. cbn [String.prefix]. by destruct (ascii_dec c c). Qed.

Lemma strip_prefix_spec p s t : strip_prefix p s = Some t <-> s = p +:+ t.
Proof.
  unfold strip_prefix. split.
  - destruct (String.prefix p s) eqn:E; [|done]. intros [= <-]. revert s E; induction p as [|c p IH]; intros s E; [done|].
    destruct s as [|d s]; [done|]. cbn [String.prefix] in E. destruct (ascii_dec c d) as [->|]; [|done]. rewrite str_cons_app. f_equal. by apply IH.
  - intros ->. rewrite prefix_app. f_equal. rewrite <- slen_Z_to_nat. apply str_drop_app_slen.
Qed.

Lemma path_join_app d name : path_join d name = path_join d "" +:+ name.
Proof. unfold path_join. repeat case_bool_decide; by rewrite ?str_nil_app, ?str_app_nil_r, <- ?str_app_assoc. Qed.

Lemma path_join_inj d a b : path_join d a = path_join d b -> a = b.
Proof. rewrite (path_join_app d a), (path_join_app d b). intros E. apply (f_equal (str_drop (Z.to_nat (slen (path_join d ""))))) in E. by rewrite !str_drop_app_slen in E. Qed.

Definition dir_files (w : world) (dir : string) : list string := omap (fun kv => entry_name dir kv.1) (map_to_list (w_names w)).

Definition plain (name : string) : Prop := name <> "" /\ str_mem "/" name = false.

Lemma entry_name_spec dir p name : entry_name dir p = Some name <-> p = path_join dir name /\ plain name.
Proof.
  unfold entry_name, plain. rewrite (path_join_app dir name). split.
  - intros (t & ->%strip_prefix_spec & Ht)%bind_Some. destruct (str_mem "/" t) eqn:Em; [by rewrite orb_true_r in Ht|].
    rewrite orb_false_r in Ht. case_bool_decide; [done|]. by injection Ht as <-.
  - intros (-> & Hn & Hm). apply bind_Some. exists name. split; [by apply strip_prefix_spec|]. by rewrite Hm, bool_decide_eq_false_2.
Qed.

Lemma elem_of_dir_files w dir name : name ∈ dir_files w dir <-> is_Some (w_names w !! path_join dir name) /\ plain name.
Proof.
  unfold dir_files. rewrite list_elem_of_omap. split.
  - intros ([p i] & Hin%elem_of_map_to_list & Hn). cbn in Hn. apply entry_name_spec in Hn as [-> Hn]. by rewrite Hin.
  - intros [[i Hi] Hn]. exists (path_join dir name, i). split; [by apply elem_of_map_to_list|]. by apply entry_name_spec.
Qed.

Lemma NoDup_dir_files w dir : NoDup (dir_files w dir).
Proof.
  unfold dir_files. pose proof (NoDup_fst_map_to_list (w_names w)) as Hnd.
  induction (map_to_list (w_names w)) as [|[p i] l IH]; [constructor|]. cbn in *. apply NoDup_cons in Hnd as [Hp Hnd].
  destruct (entry_name dir p) as [name|] eqn:E; [|by apply IH]. constructor; [|by apply IH].
  intros ([q j] & Hin & Hq)%list_elem_of_omap. apply entry_name_spec in E as [-> _], Hq as [Hq _]. cbn in Hq. subst q.
  destruct Hp. apply list_elem_of_fmap. by exists (path_join dir name, j).
Qed.
