(* ===== verification/LogFileManagerProps.v ===== *)
(** * The page switch log keeps its latest text

    What a running manager writes is an append-only text of which the buffer
    and the numbered files hold the end: an abstract log of files and pending
    text, its refinement by LogFileManager, and what survives the process. *)

From stdpp Require Import sorting.
From S2P Require Import Prelude Common Utils LogPrint SandboxFs SandboxLogger LogFileManager SandboxFsProps.
From Stdlib Require Import Ascii.

(** ** The abstract log *)

Section spec.
Context (c : LogFileConfig).

(** Full files are followed by a new one; the first is lost for it when there
    are as many as there may be. *)
Definition spec_rotate (files : list string) : list string :=
  if slen (default "" (last files)) + mmapSize c <? maxLogFileSize c then files
  else if Z.of_nat (length files) <? maxLogNum c then files ++ [""] else tail files ++ [""].

Definition append_last (files : list string) (s : string) : list string :=
  match last files with
  | Some f => removelast files ++ [f +:+ s]
  | None => []
  end.

Definition spec_flush (s : list string * string) : list string * string := (append_last (spec_rotate s.1) s.2, "").

Definition spec_write (log : string) (s : list string * string) : list string * string :=
  let s := if mmapSize c <? slen s.2 + slen log then spec_flush s else s in (s.1, s.2 +:+ log).

(** A line, or a flush of what waits. *)
Definition spec_op (op : option string) (s : list string * string) : list string * string :=
  match op with
  | Some log => spec_write log s
  | None => if slen s.2 =? 0 then s else spec_flush s
  end.

Definition spec_text (s : list string * string) : string := foldr String.append "" s.1 +:+ s.2.
End spec.

Definition page_op (op : option string) (m : manager) : sysM manager :=
  match op with
  | Some log => WriteLog log m
  | None => '(m, _) ← Flush m; mret m
  end.

(** ** Running managers *)

Abbreviation log_path m k := (GetLogFilePath m (currentInstanceIndex_ m) k).
Abbreviation persist_path m := (GetPersistFilePath (config_ m) (processName_ m) (currentInstanceIndex_ m)).

Record config_ok (c : LogFileConfig) : Prop := mkConfigOk {
  cf_mmap : 0 < mmapSize c < 2 ^ 32;
  cf_size : mmapSize c < maxLogFileSize c < 2 ^ 62;
  cf_num : 2 <= maxLogNum c < 2 ^ 16 - 1;
}.

(** The manager [m] owns the last of [files], and [pending] waits in its buffer. *)
Record running (m : manager) (w : world) (files : list string) (pending : string) : Prop := mkRunning {
  rn_ok : world_ok w;
  rn_faults : no_faults w;
  rn_config : config_ok (config_ m);
  rn_dir : forall k, dir_exists w (log_path m k) = true;
  rn_apart : forall k, persist_path m <> log_path m k;
  rn_index : currentFileIndex_ m = Z.of_nat (length files) /\ 1 <= Z.of_nat (length files) <= maxLogNum (config_ m);
  rn_files : forall k, 1 <= k <= maxLogNum (config_ m) ->
    i_data <$> file_of w (log_path m k) = files !! Z.to_nat (k - 1);
  rn_sizes : Forall (fun f => slen f < maxLogFileSize (config_ m)) files;
  rn_fd : exists fd n, currentFd_ m = Some fd /\ w_fds w !! fd = w_names w !! log_path m (currentFileIndex_ m) /\
    file_of w (log_path m (currentFileIndex_ m)) = Some n /\ i_lock n = Some fd;
  rn_older : forall k, 1 <= k < currentFileIndex_ m -> file_of w (log_path m k) ≫= i_lock = None;
  rn_map : mapped (mmapManager_ m) w (persist_path m) (mmapSize (config_ m)) pending;
}.

Lemma str_app_inj_l a b c : (a +:+ b)%string = a +:+ c -> b = c.
Proof. induction a as [|x a IH]; [done|]. rewrite !str_cons_app. intros [= H]. by apply IH. Qed.

Lemma str_app_inj_r a b c : (a +:+ c)%string = b +:+ c -> a = b.
Proof.
  intros H. assert (slen a = slen b) as Hl by (pose proof (f_equal slen H) as E; rewrite !slen_app in E; lia).
  rewrite <- (str_take_app_slen a c), <- (str_take_app_slen b c), H. by rewrite Hl.
Qed.

Lemma to_string_inj a b : 0 <= a -> 0 <= b -> to_string a = to_string b -> a = b.
Proof.
  intros Ha Hb. unfold to_string. destruct (Z.ltb_spec a 0), (Z.ltb_spec b 0); try lia. intros E.
  pose proof (Num2Str_read 10 ltac:(lia) a "" Ha) as E1. pose proof (Num2Str_read 10 ltac:(lia) b "" Hb) as E2.
  rewrite str_app_nil_r in E1, E2. change (read_digits 10 a "") with a in E1. change (read_digits 10 b "") with b in E2. congruence.
Qed.

Lemma GetLogFilePath_inj m i j k : 0 <= j -> 0 <= k -> GetLogFilePath m i j = GetLogFilePath m i k -> j = k.
Proof.
  intros Hj Hk H. unfold GetLogFilePath in H. apply path_join_inj in H. do 6 apply str_app_inj_l in H.
  apply str_app_inj_r in H. by apply to_string_inj.
Qed.

Lemma for_each_cons {A S} (f : A -> S -> sysM S) x l s w :
  for_each f (x :: l) s w = (let '(w, s) := f x s w in for_each f l s w).
Proof. done. Qed.

(** ** Rotation *)

(** The file after the last has its name free once a new one is due. *)
Lemma open_next m m0 w i :
  world_ok w -> no_faults w -> dir_exists w (log_path m (currentFileIndex_ m)) = true ->
  w_names w !! log_path m (currentFileIndex_ m) = None ->
  currentFd_ m = Some m0 -> w_fds w !! m0 = Some i ->
  let w1 := closed m0 i w in
  OpenCurrentLogFile m w = (locked_new (log_path m (currentFileIndex_ m)) w1, (set_fd m (Some (S (w_next w1))), true)).
Proof.
  intros Hok Hf Hd Hn Hfd Hi w1. unfold OpenCurrentLogFile, CloseCurrentFile, mbind, sysM_bind, mret, sysM_ret. rewrite Hfd.
  rewrite (UnlockAndCloseFd_spec m0 i) by done. fold w1. cbv beta iota.
  change (GetLogFilePath (set_fd m None)) with (GetLogFilePath m). cbn [set_fd currentInstanceIndex_ currentFileIndex_].
  rewrite LockFile_new; [done|..]; unfold w1, closed; cbn; autorewrite with sandbox; try done.
  unfold dir_exists. cbn. autorewrite with sandbox. done.
Qed.

Section shift.
Context (m : manager) (w0 : world).
Abbreviation lp k := (log_path m k).

(** Only names have changed since [w0]. *)
Definition renamed (w : world) : Prop :=
  w_dirs w = w_dirs w0 /\ w_inodes w = w_inodes w0 /\ w_fds w = w_fds w0 /\ w_next w = w_next w0 /\ w_now w = w_now w0 /\
  w_outcomes w = w_outcomes w0.

Definition rename_down (i : Z) (_ : unit) : sysM unit :=
  fs_rename (lp (u16 (i + 1))) (lp i);; mret tt.

Lemma shift_range n i w :
  1 <= i -> i + Z.of_nat n < 2 ^ 16 -> world_ok w -> no_faults w -> renamed w ->
  (forall k, i < k <= i + Z.of_nat n -> is_Some (w_names w !! lp k)) ->
  exists w', for_each rename_down (Z.of_nat <$> seq (Z.to_nat i) n) tt w = (w', tt) /\ world_ok w' /\ no_faults w' /\ renamed w' /\
    (forall k, i <= k < i + Z.of_nat n -> w_names w' !! lp k = w_names w !! lp (k + 1)) /\
    (n <> O -> w_names w' !! lp (i + Z.of_nat n) = None) /\
    (forall p, (n <> O -> forall k, i <= k <= i + Z.of_nat n -> p <> lp k) -> w_names w' !! p = w_names w !! p).
Proof.
  revert i w; induction n as [|n IH]; intros i w Hi Hb Hok Hf Hr Hs.
  { exists w. cbn. split_and!; try done. lia. }
  destruct (Hs (i + 1) ltac:(lia)) as [a Ha].
  set (w1 := set_names (<[lp i := a]> (delete (lp (i + 1)) (w_names w))) w).
  assert (forall j k, 1 <= j -> 1 <= k -> j <> k -> lp j <> lp k) as Hne.
  { intros j k ? ? ? E. apply GetLogFilePath_inj in E; lia. }
  destruct (IH (i + 1) w1) as (w' & E & Hok' & Hf' & Hr' & Hmid & Hend & Hrest); [lia|lia|by apply rename_ok|done|done|..].
  { intros k Hk. unfold w1. cbn. rewrite lookup_insert_ne, lookup_delete_ne by (apply Hne; lia). apply Hs. lia. }
  exists w'. split_and!; try done.
  - cbn [seq fmap list_fmap]. rewrite for_each_cons, Z2Nat.id by lia.
    assert (rename_down i tt w = (w1, tt)) as ->.
    { unfold rename_down, mbind, sysM_bind. rewrite wrapu_small by lia. by rewrite (fs_rename_spec w _ _ a). }
    replace (S (Z.to_nat i)) with (Z.to_nat (i + 1)) by lia. exact E.
  - intros k Hk. destruct (decide (k = i)) as [->|].
    + rewrite Hrest by (intros _ j Hj; apply Hne; lia). unfold w1. cbn. by rewrite lookup_insert_eq, Ha.
    + rewrite Hmid by lia. unfold w1. cbn. by rewrite lookup_insert_ne, lookup_delete_ne by (apply Hne; lia).
  - intros _. replace (i + Z.of_nat (S n)) with (i + 1 + Z.of_nat n) by lia. destruct n as [|n]; [|by apply Hend].
    replace (i + 1 + Z.of_nat 0) with (i + 1) by lia. rewrite Hrest.
    + unfold w1. cbn. rewrite lookup_insert_ne by (apply Hne; lia). apply lookup_delete_eq.
    + done.
  - intros p Hp. specialize (Hp ltac:(done)). rewrite Hrest by (intros _ k Hk; apply Hp; lia). unfold w1. cbn.
    rewrite lookup_insert_ne, lookup_delete_ne by (apply not_eq_sym, Hp; lia). done.
Qed.
End shift.

(** The manager with a new, empty file after the [older] ones. *)
Lemma fresh_running m w older pending :
  world_ok w -> no_faults w -> config_ok (config_ m) -> (forall k, dir_exists w (log_path m k) = true) ->
  (forall k, persist_path m <> log_path m k) ->
  currentFileIndex_ m = Z.of_nat (length older) + 1 -> currentFileIndex_ m <= maxLogNum (config_ m) ->
  (forall k, 1 <= k <= maxLogNum (config_ m) -> i_data <$> file_of w (log_path m k) = older !! Z.to_nat (k - 1)) ->
  (forall k, 1 <= k < currentFileIndex_ m -> file_of w (log_path m k) ≫= i_lock = None) ->
  mapped (mmapManager_ m) w (persist_path m) (mmapSize (config_ m)) pending ->
  Forall (fun f => slen f < maxLogFileSize (config_ m)) older ->
  w_names w !! log_path m (currentFileIndex_ m) = None /\
  running (set_fd m (Some (S (w_next w)))) (locked_new (log_path m (currentFileIndex_ m)) w) (older ++ [""]) pending.
Proof.
  intros Hok Hf Hc Hd Hap Hidx Hmax Hfiles Hlk Hmap Hsz.
  assert (w_names w !! log_path m (currentFileIndex_ m) = None) as Hnone.
  { apply file_of_None; [done|]. pose proof (Hfiles (currentFileIndex_ m) ltac:(lia)) as E.
    rewrite lookup_ge_None_2 in E by lia. by destruct (file_of w _). }
  split; [done|]. set (p := log_path m (currentFileIndex_ m)) in *.
  assert (forall k, 1 <= k -> k <> currentFileIndex_ m -> log_path m k <> p) as Hne.
  { intros k Hk Hk' E. apply GetLogFilePath_inj in E; lia. }
  constructor; cbn [set_fd config_ currentInstanceIndex_ currentFileIndex_ currentFd_ mmapManager_ processName_];
    change (GetLogFilePath (set_fd m (Some (S (w_next w))))) with (GetLogFilePath m).
  - by apply locked_new_ok.
  - done.
  - done.
  - intros k. apply Hd.
  - done.
  - rewrite length_app. cbn. lia.
  - intros k Hk. rewrite locked_new_file_of by done. case_decide as E.
    + apply GetLogFilePath_inj in E; [|lia..]. subst k. cbn. rewrite list_lookup_middle; [done | lia].
    + rewrite Hfiles by done. assert (k <> currentFileIndex_ m) by (intros ->; done).
      destruct (Z.lt_ge_cases k (currentFileIndex_ m)); [by rewrite lookup_app_l by lia|].
      rewrite !lookup_ge_None_2; [done | rewrite length_app; cbn; lia | lia].
  - apply Forall_app. split; [done|]. constructor; [|done]. change (slen "") with 0. destruct Hc. lia.
  - exists (S (w_next w)), (mkInode "" (w_now w) (Some (S (w_next w)))).
    rewrite locked_new_file_of, decide_True by done. unfold locked_new. cbn [w_fds w_names i_lock]. by rewrite !lookup_insert_eq.
  - intros k Hk. rewrite locked_new_file_of, decide_False by (done || apply Hne; lia). by apply Hlk.
  - change (persist_path (set_fd m (Some (S (w_next w))))) with (persist_path m).
    destruct Hmap as (j & n & H1 & H2 & H3 & Hpj & Hin & Hb). exists j, n. split_and!; try done; unfold locked_new.
    + cbn [w_names]. by rewrite lookup_insert_ne by (apply not_eq_sym, Hap).
    + cbn [w_inodes]. rewrite lookup_insert_ne; [done|]. intros E. pose proof (fresh_inode w Hok) as Hfr. congruence.
Qed.

Lemma reopen m w older pending fd i :
  world_ok w -> no_faults w -> config_ok (config_ m) -> (forall k, dir_exists w (log_path m k) = true) ->
  (forall k, persist_path m <> log_path m k) ->
  currentFileIndex_ m = Z.of_nat (length older) + 1 -> currentFileIndex_ m <= maxLogNum (config_ m) ->
  (forall k, 1 <= k <= maxLogNum (config_ m) -> i_data <$> file_of w (log_path m k) = older !! Z.to_nat (k - 1)) ->
  (forall k n, 1 <= k < currentFileIndex_ m -> file_of w (log_path m k) = Some n -> i_lock n = None \/ i_lock n = Some fd) ->
  currentFd_ m = Some fd -> w_fds w !! fd = Some i ->
  mapped (mmapManager_ m) w (persist_path m) (mmapSize (config_ m)) pending ->
  w_names w !! persist_path m <> Some i -> Forall (fun f => slen f < maxLogFileSize (config_ m)) older ->
  exists w', OpenCurrentLogFile m w = (w', (set_fd m (Some (S (w_next w))), true)) /\
    running (set_fd m (Some (S (w_next w)))) w' (older ++ [""]) pending.
Proof.
  intros Hok Hf Hc Hd Hap Hidx Hmax Hfiles Hlk Hfd Hi Hmap Hpi Hsz.
  set (w1 := closed fd i w). assert (world_ok w1) as Hok1 by by apply closed_ok.
  assert (w_next w1 = w_next w /\ w_dirs w1 = w_dirs w /\ w_outcomes w1 = w_outcomes w /\ w_names w1 = w_names w) as (Hnx & Hdr & Hou & Hna)
    by (unfold w1, closed; cbn; by autorewrite with sandbox).
  destruct (fresh_running m w1 older pending) as [Hnone Hrun]; try done; rewrite ?Hou; try done.
  - intros k. unfold dir_exists. rewrite Hdr. apply Hd.
  - intros k Hk. unfold w1. rewrite closed_data. by apply Hfiles.
  - intros k Hk. unfold w1. rewrite closed_file_of.
    destruct (file_of w (log_path m k)) as [n|] eqn:En; [|by case_decide].
    destruct (Hlk k n Hk En) as [El|El].
    + case_decide; cbn; [rewrite release_lock, El; by case_decide | done].
    + rewrite decide_True; cbn; [rewrite release_lock, El; by case_decide|].
      apply bind_Some in En as (j & Hj & Hin). pose proof (ok_locks w Hok _ _ _ Hin El) as Hj'. unfold inode_of in Hj. congruence.
  - destruct Hmap as (j & n & H1 & H2 & H3 & Hpj & Hin & Hb). exists j, n. rewrite Hna. split_and!; try done.
    unfold w1, closed, set_fds. cbn [w_inodes]. rewrite upd_inode_lookup, decide_False by congruence. done.
  - rewrite Hnx in Hrun. rewrite Hna in Hnone. rewrite (open_next m fd w i) by (done || apply Hd). fold w1. rewrite Hnx.
    by eexists.
Qed.

Lemma RotateFiles_spec m w files pending :
  running m w files pending ->
  exists m' w', RotateFiles m w = (w', (m', true)) /\ running m' w' (spec_rotate (config_ m) files) pending /\
    config_ m' = config_ m /\ mmapManager_ m' = mmapManager_ m /\ currentInstanceIndex_ m' = currentInstanceIndex_ m /\
    processName_ m' = processName_ m.
Proof.
  intros Hr. pose proof Hr as [Hok Hf Hc Hd Hap [Hidx Hlen] Hfiles Hsz (fd & n & Hfd & Hfdn & Hn & Hl) Hold Hmap].
  pose proof Hc as [Hc1 Hc2 Hc3].
  assert (last files = Some (i_data n)) as Hlast.
  { rewrite last_lookup. pose proof (Hfiles (currentFileIndex_ m) ltac:(lia)) as E. rewrite Hn in E. cbn in E. rewrite E. f_equal. lia. }
  unfold RotateFiles, fs_file_size, mbind, sysM_bind. rewrite Hn. cbn [fmap option_fmap option_map compose].
  unfold spec_rotate. rewrite Hlast. change (default "" (Some (i_data n))) with (i_data n).
  destruct (w_names w !! log_path m (currentFileIndex_ m)) as [i|] eqn:Hi; [|by rewrite (proj2 (file_of_None w _ Hok) Hi) in Hn].
  assert (w_names w !! persist_path m <> Some i) as Hpi.
  { intros E. by apply (Hap (currentFileIndex_ m)), (ok_inj w Hok _ _ i). }
  assert (slen (i_data n) < maxLogFileSize (config_ m)) as Hsn by (exact (proj1 (Forall_forall _ _) Hsz _ (last_Some_elem_of _ _ Hlast))).
  pose proof (slen_nonneg (i_data n)). rewrite wrapu_small by lia.
  destruct (Z.ltb_spec (slen (i_data n) + mmapSize (config_ m)) (maxLogFileSize (config_ m))).
  { exists m, w. unfold mret, sysM_ret. by split_and!. }
  assert (forall k n', 1 <= k <= currentFileIndex_ m -> file_of w (log_path m k) = Some n' -> i_lock n' = None \/ i_lock n' = Some fd) as Hlk.
  { intros k n' Hk Hk'. destruct (decide (k = currentFileIndex_ m)) as [->|].
    - rewrite Hn in Hk'. simplify_eq. auto.
    - left. pose proof (Hold k ltac:(lia)) as E. by rewrite Hk' in E. }
  rewrite Hidx. destruct (Z.ltb_spec (Z.of_nat (length files)) (maxLogNum (config_ m))).
  - rewrite <- Hidx. rewrite wrapu_small by lia. set (m1 := set_indexes m _ _).
    destruct (reopen m1 w files pending fd i) as (w' & E & Hrun); cbn; try done; try lia.
    { intros k n' Hk. apply Hlk. lia. }
    exists (set_fd m1 (Some (S (w_next w)))), w'. rewrite E. by split_and!.
  - destruct (shift_range m w (Z.to_nat (maxLogNum (config_ m) - 1)) 1 w) as (w1 & E1 & Hok1 & Hf1 & Hren & Hmid & Hend & Hrest);
      try done; try lia.
    { intros k Hk. rewrite <- file_of_names by done. rewrite <- (fmap_is_Some i_data), Hfiles by lia. apply lookup_lt_is_Some. lia. }
    destruct Hren as (Hr1 & Hr2 & Hr3 & Hr4 & Hr5 & Hr6).
    assert (forall k, 1 <= k <= maxLogNum (config_ m) -> file_of w1 (log_path m k) = if decide (k = maxLogNum (config_ m)) then None else file_of w (log_path m (k + 1))) as Hf1'.
    { intros k Hk. unfold file_of, inode_of. rewrite Hr2. case_decide.
      - subst k. replace (maxLogNum (config_ m)) with (1 + Z.of_nat (Z.to_nat (maxLogNum (config_ m) - 1))) at 1 by lia.
        by rewrite Hend by lia.
      - by rewrite Hmid by lia. }
    assert (w_names w1 !! persist_path m = w_names w !! persist_path m) as Hpp by (apply Hrest; intros; apply Hap).
    destruct (reopen m w1 (tail files) pending fd i) as (w' & E & Hrun); try done.
    + intros k. unfold dir_exists. rewrite Hr1. apply Hd.
    + destruct files; cbn in *; lia.
    + lia.
    + intros k Hk. rewrite Hf1' by done. rewrite lookup_tail. case_decide.
      * rewrite lookup_ge_None_2 by lia. done.
      * rewrite Hfiles by lia. f_equal. lia.
    + intros k n' Hk. rewrite Hf1', decide_False by lia. apply Hlk. lia.
    + by rewrite Hr3.
    + destruct Hmap as (j & n' & ? & ? & ? & ? & ? & ?). exists j, n'. rewrite Hpp, Hr2. done.
    + by rewrite Hpp.
    + destruct Hsz; [done|]. done.
    + exists (set_fd m (Some (S (w_next w1)))), w'. unfold shift_files, mbind, sysM_bind.
      change (for_each _ _ tt w) with (for_each (rename_down m) (Z.of_nat <$> seq (Z.to_nat 1) (Z.to_nat (maxLogNum (config_ m) - 1))) tt w).
      rewrite E1. by split_and!.
Qed.

(** ** Flushing and writing *)

Lemma running_nonempty m w files pending : running m w files pending -> files <> [].
Proof. intros Hr E. destruct (rn_index _ _ _ _ Hr) as [_ H]. subst. cbn in H. lia. Qed.

Lemma running_dirs_upd i f w p : dir_exists (upd_inode i f w) p = dir_exists w p.
Proof. unfold dir_exists. by rewrite upd_inode_dirs. Qed.

(** Text appended to the current file. *)
Lemma running_append m w files pending s :
  running m w files pending -> slen (default "" (last files)) + slen s < maxLogFileSize (config_ m) ->
  exists fd i, currentFd_ m = Some fd /\ w_fds w !! fd = Some i /\
    running m (upd_inode i (append_data (w_now w) s) w) (append_last files s) pending.
Proof.
  intros Hr Hs. pose proof Hr as [Hok Hf Hc Hd Hap [Hidx Hlen] Hfiles Hsz (fd & n & Hfd & Hfdn & Hn & Hl) Hold Hmap].
  assert (last files = Some (i_data n)) as Hlast.
  { rewrite last_lookup. pose proof (Hfiles (currentFileIndex_ m) ltac:(lia)) as E. rewrite Hn in E. cbn in E. rewrite E. f_equal. lia. }
  destruct (w_names w !! log_path m (currentFileIndex_ m)) as [i|] eqn:Hi; [|by rewrite (proj2 (file_of_None w _ Hok) Hi) in Hn].
  exists fd, i. split; [done|]. split; [done|]. apply last_Some in Hlast as [older ->].
  unfold append_last. rewrite last_snoc, removelast_last. rewrite last_snoc in Hs. change (default "" (Some (i_data n))) with (i_data n) in Hs.
  rewrite length_app in *. cbn in Hidx, Hlen. apply Forall_app in Hsz as [Hsz1 _].
  assert (forall k, 1 <= k -> w_names w !! log_path m k = Some i -> k = currentFileIndex_ m) as Honly.
  { intros k Hk E. pose proof (ok_inj w Hok _ _ i E Hi) as E'. apply GetLogFilePath_inj in E'; lia. }
  constructor; autorewrite with sandbox; try done.
  - apply upd_inode_ok; [done|]. intros n'. by left.
  - intros k. rewrite running_dirs_upd. apply Hd.
  - rewrite length_app. cbn. lia.
  - intros k Hk. rewrite upd_inode_file_of. case_decide as E.
    + apply Honly in E; [|lia]. subst k. rewrite Hn. cbn. rewrite list_lookup_middle; [done | lia].
    + rewrite Hfiles by done. assert (k <> currentFileIndex_ m) by congruence.
      destruct (Z.lt_ge_cases k (currentFileIndex_ m)); [by rewrite !lookup_app_l by lia|].
      by rewrite !lookup_ge_None_2 by (rewrite length_app; cbn; lia).
  - apply Forall_app. split; [done|]. constructor; [|done]. by rewrite slen_app.
  - exists fd, (append_data (w_now w) s n). rewrite upd_inode_file_of, decide_True, Hn by done. split_and!; try done. congruence.
  - intros k Hk. rewrite upd_inode_file_of. case_decide as E; [apply Honly in E; lia | by apply Hold].
  - apply mapped_other; [done|]. intros E. by apply (Hap (currentFileIndex_ m)), (ok_inj w Hok _ _ i).
Qed.

(** The buffer file changed through the mapping. *)
Lemma running_remap m w files pending i d mm pending' :
  running m w files pending -> w_names w !! persist_path m = Some i ->
  mapped mm (upd_inode i (set_data d) w) (persist_path m) (mmapSize (config_ m)) pending' ->
  running (set_mmap m mm) (upd_inode i (set_data d) w) files pending'.
Proof.
  intros Hr Hi Hmap'. pose proof Hr as [Hok Hf Hc Hd Hap [Hidx Hlen] Hfiles Hsz (fd & n & Hfd & Hfdn & Hn & Hl) Hold Hmap].
  assert (forall k, file_of (upd_inode i (set_data d) w) (log_path m k) = file_of w (log_path m k)) as Hsame.
  { intros k. rewrite upd_inode_file_of, decide_False; [done|]. intros E. apply (Hap k), (ok_inj w Hok _ _ i); done. }
  constructor; change (GetLogFilePath (set_mmap m mm)) with (GetLogFilePath m); cbn [set_mmap config_ currentInstanceIndex_ currentFileIndex_ currentFd_ mmapManager_ processName_];
    autorewrite with sandbox; try done.
  - apply upd_inode_ok; [done|]. intros n'. by left.
  - intros k. rewrite running_dirs_upd. apply Hd.
  - intros k Hk. rewrite Hsame. by apply Hfiles.
  - exists fd, n. by rewrite Hsame.
  - intros k Hk. rewrite Hsame. by apply Hold.
Qed.

Lemma append_last_nil files : files <> [] -> append_last files "" = files.
Proof.
  intros Hne. unfold append_last. destruct (last files) as [f|] eqn:E; [|by apply last_None in E].
  apply last_Some in E as [older ->]. by rewrite removelast_last, str_app_nil_r.
Qed.

Lemma spec_rotate_room c files :
  config_ok c -> slen (default "" (last (spec_rotate c files))) + mmapSize c < maxLogFileSize c.
Proof.
  intros [? ? ?]. unfold spec_rotate. destruct (Z.ltb_spec (slen (default "" (last files)) + mmapSize c) (maxLogFileSize c)); [done|].
  destruct (_ <? _); rewrite last_snoc; change (slen (default "" (Some ""))) with 0; lia.
Qed.

Lemma mapped_len mm w p size t : mapped mm w p size t -> currentOffset_ mm = slen t /\ slen t <= size.
Proof. intros (i & n & ? & ? & ? & ? & ? & rest & ? & ?). split; [done | lia]. Qed.

Lemma FlushMmapToFile_spec m w files pending :
  running m w files pending ->
  exists m' w', FlushMmapToFile m w = (w', (m', true)) /\
    running m' w' (append_last (spec_rotate (config_ m) files) pending) "" /\ config_ m' = config_ m /\
    currentInstanceIndex_ m' = currentInstanceIndex_ m /\ processName_ m' = processName_ m.
Proof.
  intros Hr. destruct (RotateFiles_spec m w files pending Hr) as (m1 & w1 & E1 & Hr1 & Hc & Hmm & Hinst & Hname).
  unfold FlushMmapToFile, mbind, sysM_bind. rewrite E1. cbn [negb].
  pose proof (rn_map _ _ _ _ Hr1) as Hmap. pose proof Hmap as (j & n & Hj & _). rewrite Hj. unfold GetOffset.
  destruct (mapped_len _ _ _ _ _ Hmap) as [Ho Hp]. rewrite Ho. destruct (Z.eqb_spec (slen pending) 0) as [Hz|].
  { destruct pending; [|rewrite slen_cons in Hz; pose proof (slen_nonneg pending); lia]. exists m1, w1.
    rewrite append_last_nil by (by eapply running_nonempty). by split_and!. }
  pose proof (rn_config _ _ _ _ Hr1) as Hcok. rewrite Hc in Hcok, Hp. pose proof (spec_rotate_room (config_ m) files Hcok).
  destruct (running_append m1 w1 _ _ pending Hr1) as (fd & i & Hfd & Hi & Hr2); [rewrite Hc; lia|].
  set (w2 := upd_inode i (append_data (w_now w1) pending) w1) in *.
  assert (write_mapped (currentFd_ m1) (mmapManager_ m1) w1 = (w2, true)) as Ew.
  { unfold write_mapped, mbind, sysM_bind, sys. rewrite (map_bytes_spec _ _ _ _ _ Hmap), Hfd. cbn [default].
    change (default "" (Some pending)) with pending. rewrite (sys_write_spec w1 fd i) by (done || apply Hr1). fold w2. cbv beta iota.
    apply sys_fsync_spec, Hr2. }
  rewrite Ew. destruct Hcok as [Hc1 Hc2 Hc3].
  destruct (Reset_spec (mmapManager_ m1) w2 _ _ _ (rn_map _ _ _ _ Hr2)) as (i' & d & mm' & Er & Hpi & Hmap'); [rewrite Hc; lia|].
  rewrite Er. eexists (set_mmap m1 mm'), _. split; [done|]. split; [|by split_and!]. by apply (running_remap m1 w2 _ pending).
Qed.

(** One line: the manager follows the abstract log. *)
Lemma WriteLog_spec m w files pending log :
  running m w files pending -> slen log <= mmapSize (config_ m) ->
  exists m' w', WriteLog log m w = (w', m') /\
    running m' w' (spec_write (config_ m) log (files, pending)).1 (spec_write (config_ m) log (files, pending)).2 /\
    config_ m' = config_ m /\ currentInstanceIndex_ m' = currentInstanceIndex_ m /\ processName_ m' = processName_ m.
Proof.
  intros Hr Hlog. pose proof (rn_map _ _ _ _ Hr) as Hmap. destruct (mapped_len _ _ _ _ _ Hmap) as [Ho Hp].
  destruct (rn_config _ _ _ _ Hr) as [Hc1 Hc2 Hc3]. pose proof (slen_nonneg log). pose proof (slen_nonneg pending).
  assert (GetSize (mmapManager_ m) = mmapSize (config_ m)) as Hgs.
  { destruct Hmap as (i & n & _ & Hs & _). unfold GetSize. rewrite Hs. unfold METADATA_SIZE. destruct (Z.ltb_spec 8 (mmapSize (config_ m) + 8)); lia. }
  assert (exists m1 w1 files1 pending1,
    (if GetSize (mmapManager_ m) <? u64 (GetOffset (mmapManager_ m) + slen log) then '(m, _) ← FlushMmapToFile m; mret m else mret m) w = (w1, m1) /\
    running m1 w1 files1 pending1 /\ (files1, pending1) = (if mmapSize (config_ m) <? slen pending + slen log then spec_flush (config_ m) (files, pending) else (files, pending)) /\
    slen pending1 + slen log <= mmapSize (config_ m) /\ config_ m1 = config_ m /\
    currentInstanceIndex_ m1 = currentInstanceIndex_ m /\ processName_ m1 = processName_ m) as (m1 & w1 & files1 & pending1 & E1 & Hr1 & Es & Hroom & Hc & Hinst & Hname).
  { unfold GetOffset. rewrite Hgs, Ho, wrapu_small by lia. destruct (Z.ltb_spec (mmapSize (config_ m)) (slen pending + slen log)).
    - destruct (FlushMmapToFile_spec m w files pending Hr) as (m1 & w1 & E & Hr1 & ? & ? & ?).
      exists m1, w1. do 2 eexists. unfold mbind, sysM_bind. rewrite E. split; [done|]. split; [exact Hr1|]. split_and!; try done.
    - exists m, w, files, pending. by split_and!. }
  unfold WriteLog, mbind at 1, sysM_bind at 1. rewrite E1. rewrite <- Hc in Hroom.
  destruct (Mmap_Write_spec (mmapManager_ m1) w1 _ _ pending1 log (rn_map _ _ _ _ Hr1)) as (i & d & mm' & Ew & Hpi & Hmap'); [done|rewrite Hc; lia|].
  unfold mbind, sysM_bind. rewrite Ew. eexists (set_mmap m1 mm'), _. split; [done|]. split; [|by split_and!].
  unfold spec_write. cbn [fst snd]. rewrite <- Es. cbn [fst snd]. by apply (running_remap m1 w1 _ pending1).
Qed.

(** The log that a manager writes stays the same. *)
Definition same_log (m m' : manager) : Prop :=
  config_ m' = config_ m /\ currentInstanceIndex_ m' = currentInstanceIndex_ m /\ processName_ m' = processName_ m.

Definition op_fits (c : LogFileConfig) (op : option string) : Prop := from_option (fun log => slen log <= mmapSize c) True op.

Lemma page_op_spec m w files pending op :
  running m w files pending -> op_fits (config_ m) op ->
  exists m' w', page_op op m w = (w', m') /\
    running m' w' (spec_op (config_ m) op (files, pending)).1 (spec_op (config_ m) op (files, pending)).2 /\ same_log m m'.
Proof.
  intros Hr Hop. destruct op as [log|].
  - destruct (WriteLog_spec m w files pending log Hr Hop) as (m' & w' & ? & ? & ? & ? & ?). by exists m', w'.
  - unfold page_op, Flush, spec_op, GetOffset. cbn [fst snd]. destruct (mapped_len _ _ _ _ _ (rn_map _ _ _ _ Hr)) as [-> _].
    destruct (Z.eqb_spec (slen pending) 0); [by exists m, w|].
    destruct (FlushMmapToFile_spec m w files pending Hr) as (m' & w' & E & Hr' & ? & ? & ?). exists m', w'.
    unfold mbind, sysM_bind. by rewrite E.
Qed.

(** ** The abstract log keeps the end of the text *)

Section keeps.
Context (c : LogFileConfig) (Hc : config_ok c).

(** The files between the first and the last are full, which a first file that
    was short, and has been followed by others, need not be; the text that was
    lost was more than fits. *)
Definition full (f : string) : Prop := maxLogFileSize c - mmapSize c <= slen f.

Definition inner (files : list string) : list string := tail (removelast files).

Definition spec_ok (s : list string * string) : Prop :=
  s.1 <> [] /\ Z.of_nat (length s.1) <= maxLogNum c /\ Forall full (inner s.1) /\ slen s.2 <= mmapSize c.

Lemma files_text_app l1 l2 : foldr String.append "" (l1 ++ l2) = foldr String.append "" l1 +:+ foldr String.append "" l2.
Proof. induction l1 as [|x l1 IH]; cbn [foldr app]; [by rewrite str_nil_app|]. by rewrite IH, str_app_assoc. Qed.

Lemma append_last_text files s :
  files <> [] -> foldr String.append "" (append_last files s) = foldr String.append "" files +:+ s.
Proof.
  intros Hne. unfold append_last. destruct (last files) as [f|] eqn:E; [|by apply last_None in E].
  apply last_Some in E as [older ->]. rewrite removelast_last, !files_text_app. cbn [foldr]. by rewrite !str_app_nil_r, str_app_assoc.
Qed.

Lemma append_last_removelast files s : files <> [] -> removelast (append_last files s) = removelast files /\ length (append_last files s) = length files /\ append_last files s <> [].
Proof.
  intros Hne. unfold append_last. destruct (last files) as [f|] eqn:E; [|by apply last_None in E].
  apply last_Some in E as [older ->]. rewrite !removelast_last, !length_app. split_and!; [done | done | by destruct older].
Qed.

Lemma full_slen l : Forall full l -> (maxLogFileSize c - mmapSize c) * Z.of_nat (length l) <= slen (foldr String.append "" l).
Proof.
  induction 1 as [|f l Hf Hl IH]; cbn [foldr length]; [change (slen "") with 0; lia|]. rewrite slen_app. unfold full in Hf. lia.
Qed.

(** The bytes that are there whenever older text was lost. *)
Definition kept : Z := (maxLogNum c - 1) * (maxLogFileSize c - mmapSize c).

Lemma spec_rotate_keeps files :
  files <> [] -> Z.of_nat (length files) <= maxLogNum c -> Forall full (inner files) ->
  spec_rotate c files <> [] /\ Z.of_nat (length (spec_rotate c files)) <= maxLogNum c /\ Forall full (inner (spec_rotate c files)) /\
  exists lost, foldr String.append "" files = lost +:+ foldr String.append "" (spec_rotate c files) /\
    (lost = "" \/ kept <= slen (foldr String.append "" (spec_rotate c files))).
Proof using Hc.
  intros Hne Hlen Hfull. unfold spec_rotate.
  destruct (last files) as [f|] eqn:E; [|by apply last_None in E]. change (default "" (Some f)) with f.
  destruct (Z.ltb_spec (slen f + mmapSize c) (maxLogFileSize c)).
  { split_and!; try done. exists "". rewrite str_nil_app. auto. }
  apply last_Some in E as [older ->]. unfold inner in *. rewrite removelast_last in *.
  assert (Forall full (tail (older ++ [f]))) as Hall.
  { destruct older as [|g older]; cbn [app tail] in *; [constructor|]. apply Forall_app. split; [done|]. constructor; [unfold full; lia | done]. }
  destruct (Z.ltb_spec (Z.of_nat (length (older ++ [f]))) (maxLogNum c)).
  - rewrite removelast_last, length_app. cbn [length]. split_and!; [by destruct older | lia | done|].
    exists "". rewrite str_nil_app, (files_text_app (older ++ [f])). cbn. rewrite str_app_nil_r. auto.
  - destruct (older ++ [f]) as [|g rest] eqn:Eg; [by destruct older|]. cbn [tail] in *.
    rewrite removelast_last, length_app. cbn [length] in *.
    split_and!; [by destruct rest | lia | by destruct Hall|].
    exists g. rewrite (files_text_app rest). cbn [foldr]. rewrite !str_app_nil_r. split; [done|]. right. unfold kept.
    pose proof (full_slen rest ltac:(done)). destruct Hc. replace (maxLogNum c - 1) with (Z.of_nat (length rest)) by lia. lia.
Qed.

Lemma spec_flush_keeps s :
  spec_ok s -> spec_ok (spec_flush c s) /\
  exists lost, spec_text s = lost +:+ spec_text (spec_flush c s) /\ (lost = "" \/ kept <= slen (spec_text (spec_flush c s))).
Proof using Hc.
  intros (Hne & Hlen & Hfull & Hp). destruct (spec_rotate_keeps s.1 Hne Hlen Hfull) as (Hne' & Hlen' & Hfull' & lost & Et & Hl).
  destruct (append_last_removelast (spec_rotate c s.1) s.2 Hne') as (Hr & Hll & Hn). destruct Hc.
  unfold spec_flush, spec_ok, spec_text, inner in *. cbn [fst snd]. rewrite Hr, Hll, str_app_nil_r. change (slen "") with 0. split; [split_and!; done || lia|].
  exists lost. rewrite append_last_text by done. rewrite Et. split; [by rewrite !str_app_assoc|].
  destruct Hl as [?|Hl]; [by left|right]. rewrite !slen_app. pose proof (slen_nonneg s.2). lia.
Qed.

Lemma spec_op_keeps s op :
  spec_ok s -> op_fits c op ->
  spec_ok (spec_op c op s) /\
  exists lost, (spec_text s +:+ default "" op)%string = lost +:+ spec_text (spec_op c op s) /\
    (lost = "" \/ kept <= slen (spec_text (spec_op c op s))).
Proof using Hc.
  intros Hs Hop. destruct op as [log|]; cbn [spec_op default from_option id].
  2:{ rewrite str_app_nil_r. destruct (slen s.2 =? 0); [|by apply spec_flush_keeps]. split; [done|]. exists "". rewrite str_nil_app. auto. }
  assert (exists s', spec_write c log s = (s'.1, s'.2 +:+ log) /\ spec_ok s' /\ slen s'.2 + slen log <= mmapSize c /\
    exists lost, spec_text s = lost +:+ spec_text s' /\ (lost = "" \/ kept <= slen (spec_text s'))) as (s' & -> & (? & ? & ? & ?) & Hroom & lost & Et & Hl).
  { unfold spec_write. destruct (Z.ltb_spec (mmapSize c) (slen s.2 + slen log)).
    - exists (spec_flush c s). destruct (spec_flush_keeps s Hs). by split_and!.
    - exists s. split_and!; try done. exists "". rewrite str_nil_app. auto. }
  unfold spec_ok, spec_text in *. cbn [fst snd]. rewrite slen_app. split; [by split_and!|].
  exists lost. rewrite Et. split; [by rewrite !str_app_assoc|]. destruct Hl as [?|Hl]; [by left|right].
  rewrite !slen_app in *. pose proof (slen_nonneg log). lia.
Qed.

End keeps.

Lemma sizes_bound (l : list string) b : Forall (fun f => slen f < b) l -> slen (foldr String.append "" l) <= b * Z.of_nat (length l).
Proof. induction 1; cbn [foldr length]; [change (slen "") with 0; lia|]. rewrite slen_app. lia. Qed.

(** The text of a manager after lines and flushes: an end of all that was
    written, and within the room there is. *)
Definition holds_end (c : LogFileConfig) (all : string) (files : list string) (pending : string) : Prop :=
  (exists lost, all = lost +:+ foldr String.append "" files +:+ pending /\
     (lost = "" \/ kept c <= slen (foldr String.append "" files +:+ pending))) /\
  slen (foldr String.append "" files +:+ pending) <= maxLogNum c * maxLogFileSize c + mmapSize c.

(** The files and the buffer of the manager hold the end of [all]. *)
Definition holds (all : string) (m : manager) (w : world) : Prop :=
  exists files pending, running m w files pending /\ Forall (full (config_ m)) (inner files) /\
    exists lost, all = lost +:+ spec_text (files, pending) /\ (lost = "" \/ kept (config_ m) <= slen (spec_text (files, pending))).

Lemma holds_spec_ok m w files pending :
  running m w files pending -> Forall (full (config_ m)) (inner files) -> spec_ok (config_ m) (files, pending).
Proof.
  intros Hr Hfull. pose proof (running_nonempty _ _ _ _ Hr). destruct (mapped_len _ _ _ _ _ (rn_map _ _ _ _ Hr)), (rn_index _ _ _ _ Hr).
  unfold spec_ok. cbn [fst snd]. split_and!; [done | lia | done | done].
Qed.

(** A line, or a flush. *)
Lemma holds_op all op m w :
  holds all m w -> op_fits (config_ m) op ->
  exists m' w', page_op op m w = (w', m') /\ holds (all +:+ default "" op) m' w' /\ same_log m m'.
Proof.
  intros (files & pending & Hr & Hfull & lost & -> & Hl) Hop.
  destruct (page_op_spec m w files pending op Hr Hop) as (m' & w' & E & Hr' & Hs). exists m', w'. split; [done|]. split; [|done].
  destruct (spec_op_keeps (config_ m) (rn_config _ _ _ _ Hr) (files, pending) op (holds_spec_ok _ _ _ _ Hr Hfull) Hop)
    as ((_ & _ & Hfull' & _) & lost' & Et & Hl').
  destruct Hs as (Hc & _). unfold holds. rewrite Hc. destruct (spec_op (config_ m) op (files, pending)) as [files' pending'].
  exists files', pending'. split_and!; try done. exists (lost +:+ lost'). rewrite <- str_app_assoc, Et, str_app_assoc. split; [done|].
  destruct Hl' as [->|Hl']; [|by right]. rewrite str_nil_app in Et. rewrite str_app_nil_r. destruct Hl as [->|Hl]; [by left|right].
  rewrite <- Et, slen_app. pose proof (slen_nonneg (default "" op)). lia.
Qed.

(** What is there when the manager is destroyed: all of it is in the files. *)
Lemma destroy_holds all m w :
  holds all m w ->
  exists m' w' files, destroy m w = (w', m') /\ currentFd_ m' = None /\
    (forall k, 1 <= k <= maxLogNum (config_ m) -> i_data <$> file_of w' (log_path m k) = files !! Z.to_nat (k - 1)) /\
    holds_end (config_ m) all files "".
Proof.
  intros H. destruct (holds_op all None m w H I) as (m1 & w1 & E & (files & pending & Hr & _ & lost & Et & Hl) & Hs).
  assert (pending = "") as ->.
  { destruct H as (files0 & pending0 & Hr0 & _). destruct (page_op_spec m w files0 pending0 None Hr0 I) as (m2 & w2 & E2 & Hr2 & _).
    rewrite E in E2. injection E2 as <- <-. pose proof (proj1 (mapped_len _ _ _ _ _ (rn_map _ _ _ _ Hr))) as L1.
    pose proof (proj1 (mapped_len _ _ _ _ _ (rn_map _ _ _ _ Hr2))) as L2. unfold spec_op in L2. cbn [snd] in L2.
    assert (slen pending = 0) as Hz by (destruct (Z.eqb_spec (slen pending0) 0); cbn [snd spec_flush] in L2; change (slen "") with 0 in L2; lia).
    destruct pending; [done|]. rewrite slen_cons in Hz. pose proof (slen_nonneg pending). lia. }
  destruct Hs as (Hc & Hi & Hn). pose proof Hr as [_ _ _ _ _ [_ Hlen] Hfiles Hsz (fd & n & Hfd & Hfdn & Hnode & _) _ _].
  destruct (w_names w1 !! log_path m1 (currentFileIndex_ m1)) as [i|] eqn:Ei;
    [|unfold file_of, inode_of in Hnode; by rewrite Ei in Hnode].
  exists (set_fd m1 None), (closed fd i w1), files. split_and!.
  - unfold destroy, mbind, sysM_bind. unfold page_op, mbind, sysM_bind in E. destruct (Flush m w) as [w2 [m2 b]].
    injection E as -> ->. unfold CloseCurrentFile. rewrite Hfd. unfold mbind, sysM_bind. by rewrite (UnlockAndCloseFd_spec fd i).
  - done.
  - intros k Hk. rewrite closed_data. unfold GetLogFilePath. rewrite <- Hc, <- Hi, <- Hn. apply Hfiles. by rewrite Hc.
  - rewrite str_app_nil_r in Et. split.
    + exists lost. rewrite <- Hc. unfold spec_text in *. cbn [fst snd] in *. rewrite str_app_nil_r in *. done.
    + pose proof (sizes_bound _ _ Hsz) as Hb. rewrite Hc in Hb, Hlen. destruct (rn_config _ _ _ _ Hr) as [? ? ?].
      rewrite Hc in *. rewrite str_app_nil_r. nia.
Qed.

(** ** A new process takes over *)

(** Only the numbers of descriptions were used since [w]. *)
Definition with_next (n : nat) (w : world) : world :=
  mkWorld (w_dirs w) (w_names w) (w_inodes w) (w_fds w) n (w_now w) (w_outcomes w).

Lemma with_next_ok w n : world_ok w -> (w_next w <= n)%nat -> world_ok (with_next n w).
Proof.
  intros [Hinj Hnam Hino Hfd Hlk] Hn. constructor; unfold with_next; cbn; try done.
  - intros i Hi%Hino. lia.
  - intros fd i Hf. apply Hfd in Hf as [? ?]. split; [lia | done].
Qed.

Section takeover.
Context (w : world) (Hok : world_ok w) (Hf : no_faults w).

(** No file is locked. *)
Context (Hquiet : forall p n, file_of w p = Some n -> i_lock n = None).

Lemma probe_unlocked n p :
  (w_next w <= n)%nat -> is_Some (w_names w !! p) -> IsFileWriteLocked p (with_next n w) = (with_next (S n) w, false).
Proof using Hok Hf Hquiet.
  intros Hn [node Hp]%file_of_names; [|done]. rewrite (IsFileWriteLocked_spec _ _ node); [|by apply with_next_ok|done|done].
  by rewrite (Hquiet p node Hp).
Qed.

Lemma GetLogFiles_quiet order m n :
  exists files, GetLogFiles order m (with_next n w) = (with_next n w, files) /\
    (length files <= length (order (omap (fun kv => entry_name (logDir (config_ m)) kv.1) (map_to_list (w_names w)))))%nat.
Proof.
  unfold GetLogFiles, dir_entries, mbind, sysM_bind. cbn [w_names with_next].
  generalize (order (omap (fun kv => entry_name (logDir (config_ m)) kv.1) (map_to_list (w_names w)))). intros l.
  assert (forall acc, exists files, for_each (fun name files => f ← parse_log_file m name; mret (files ++ option_list f)) l acc (with_next n w)
    = (with_next n w, files) /\ (length files <= length acc + length l)%nat) as H; [|by apply (H [])].
  induction l as [|name l IH]; intros acc; [exists acc; split; [done | cbn; lia]|]. rewrite for_each_cons.
  assert (exists f, parse_log_file m name (with_next n w) = (with_next n w, f)) as [f Ef].
  { unfold parse_log_file, GetFileModifyTime, fs_mtime, mbind, sysM_bind, mret, sysM_ret.
    destruct (SplitString name "-") as [|a [|b [|c0 [|d [|e r]]]]]; eauto. }
  unfold mbind at 1, sysM_bind at 1. rewrite Ef. destruct (IH (acc ++ option_list f)) as (files & E & Hlen).
  exists files. split; [exact E|]. rewrite length_app in Hlen. destruct f; cbn in *; lia.
Qed.

Context (order : list string -> list string) (std_sort : forall A, (A -> A -> bool) -> list A -> list A).
Context (Horder : forall l, order l ≡ₚ l).

Definition entries_of (m : manager) : list string := dir_files w (logDir (config_ m)).

Lemma AgedOutLogFiles_quiet m n :
  config_ok (config_ m) -> Z.of_nat (length (entries_of m)) <= MAX_RESERVED_LOG_FILE_NUM - maxLogNum (config_ m) ->
  AgedOutLogFiles order std_sort m (with_next n w) = (with_next n w, tt).
Proof using Horder.
  intros [? ? ?] Hfew. destruct (GetLogFiles_quiet order m n) as (files & E & Hlen). fold (dir_files w (logDir (config_ m))) in Hlen. fold (entries_of m) in Hlen. rewrite Horder in Hlen.
  unfold AgedOutLogFiles, mbind at 1, sysM_bind at 1. rewrite E. unfold MAX_RESERVED_LOG_FILE_NUM in *. rewrite wrapu_small by lia.
  destruct (Z.leb_spec (Z.of_nat (length files)) (100 - maxLogNum (config_ m))); [done | lia].
Qed.

Lemma CanCreateLogFile_quiet m n :
  (w_next w <= n)%nat -> exists n', (n <= n')%nat /\ CanCreateLogFile order m (with_next n w) = (with_next n' w, true).
Proof using Hok Hf Hquiet Horder.
  intros Hn. unfold CanCreateLogFile, dir_entries, mbind at 1, sysM_bind at 1. cbn [w_names with_next]. fold (dir_files w (logDir (config_ m))). fold (entries_of m).
  assert (forall name, name ∈ order (entries_of m) -> is_Some (w_names w !! path_join (logDir (config_ m)) name)) as Hin.
  { intros name. rewrite Horder. by intros [? _]%elem_of_dir_files. }
  revert Hin. generalize (order (entries_of m)). intros l Hin.
  unfold mbind at 1, sysM_bind at 1.
  match goal with |- context [for_each ?f l ∅] => set (body := f) end.
  assert (exists n', (n <= n')%nat /\ for_each body l ∅ (with_next n w) = (with_next n' w, ∅)) as (n' & Hn' & E); [|exists n'; by rewrite E].
  revert n Hn; induction l as [|name l IH]; intros n Hn; [by exists n|]. rewrite for_each_cons.
  assert (exists n1, (n <= n1)%nat /\ body name ∅ (with_next n w) = (with_next n1 w, ∅)) as (n1 & Hn1 & E1).
  { unfold body. destruct (SplitString name "-") as [|a [|b [|c0 [|d [|e r]]]]]; try by exists n.
    unfold mbind, sysM_bind. rewrite probe_unlocked by (done || apply Hin; left). exists (S n). split; [lia | done]. }
  rewrite E1. destruct (IH ltac:(intros; apply Hin; by right) n1) as (n' & Hn' & E); [lia|]. exists n'. split; [lia | exact E].
Qed.

(** The files of an instance, all of them free: the index of the first that is
    not there, or of the last. *)
Lemma seek_files_quiet m inst (len : nat) k cur n :
  (w_next w <= n)%nat -> 1 <= k ->
  (forall j, is_Some (w_names w !! GetLogFilePath m inst j) \/ norm_dir (GetLogFilePath m inst j) ∉ w_dirs w) ->
  exists n', (n <= n')%nat /\ forall j, k <= j <= k + Z.of_nat len ->
    (forall i, k <= i < j -> is_Some (w_names w !! GetLogFilePath m inst i)) ->
    (j < k + Z.of_nat len -> w_names w !! GetLogFilePath m inst j = None) ->
    seek_files m inst (Z.of_nat <$> seq (Z.to_nat k) len) cur (with_next n w)
    = (with_next n' w, (false, if decide (j < k + Z.of_nat len) then j else if decide (j = k) then cur else j - 1)).
Proof using Hok Hf Hquiet.
  intros Hn Hk Hdirs. revert k cur n Hn Hk; induction len as [|len IH]; intros k cur n Hn Hk.
  { exists n. split; [lia|]. intros j Hj _ _. rewrite decide_False, decide_True by lia. done. }
  cbn [seq fmap list_fmap seek_files]. rewrite Z2Nat.id by lia.
  destruct (w_names w !! GetLogFilePath m inst k) as [i|] eqn:Ek.
  - destruct (IH (k + 1) k (S n)) as (n' & Hn' & E); [lia|lia|]. exists n'. split; [lia|]. intros j Hj Hs Hnone.
    assert (j <> k) by (intros ->; rewrite Hnone in Ek; [done | lia]).
    unfold mbind, sysM_bind, fs_exists, inode_of. cbn [w_names with_next]. rewrite Ek. rewrite (bool_decide_eq_true_2 (is_Some _)) by done. cbn [orb].
    rewrite probe_unlocked by (done || by rewrite Ek). cbn [andb negb]. replace (S (Z.to_nat k)) with (Z.to_nat (k + 1)) by lia.
    rewrite (E j) by (lia || (intros; apply Hs; lia) || (intros; apply Hnone; lia)). do 2 f_equal.
    repeat case_decide; lia.
  - exists n. split; [lia|]. intros j Hj Hs Hnone.
    assert (j = k) as -> by (destruct (decide (j = k)); [done|]; destruct (Hs k ltac:(lia)) as [? ?]; congruence).
    unfold mbind, sysM_bind, fs_exists, inode_of. cbn [w_names w_dirs with_next]. rewrite Ek, bool_decide_eq_false_2 by (by intros [? ?]).
    destruct (Hdirs k) as [[? ?]|Hd]; [congruence|]. rewrite bool_decide_eq_false_2 by done. cbn. by rewrite decide_True by lia.
Qed.
End takeover.

(** The last file taken over with its content. *)
Lemma taken_running m w files pending i n :
  world_ok w -> no_faults w -> config_ok (config_ m) -> (forall k, dir_exists w (log_path m k) = true) ->
  (forall k, persist_path m <> log_path m k) ->
  currentFileIndex_ m = Z.of_nat (length files) -> 1 <= currentFileIndex_ m <= maxLogNum (config_ m) ->
  (forall k, 1 <= k <= maxLogNum (config_ m) -> i_data <$> file_of w (log_path m k) = files !! Z.to_nat (k - 1)) ->
  (forall k, 1 <= k <= currentFileIndex_ m -> file_of w (log_path m k) ≫= i_lock = None) ->
  w_names w !! log_path m (currentFileIndex_ m) = Some i -> w_inodes w !! i = Some n ->
  mapped (mmapManager_ m) w (persist_path m) (mmapSize (config_ m)) pending ->
  Forall (fun f => slen f < maxLogFileSize (config_ m)) files ->
  running (set_fd m (Some (w_next w))) (locked_at i w) files pending.
Proof.
  intros Hok Hf Hc Hd Hap Hidx Hmax Hfiles Hlk Hi Hn Hmap Hsz.
  pose proof (Hlk (currentFileIndex_ m) ltac:(lia)) as Hl. rewrite (file_of_Some w _ i n) in Hl by done. cbn in Hl.
  assert (forall k, 1 <= k -> w_names w !! log_path m k = Some i -> k = currentFileIndex_ m) as Honly.
  { intros k Hk E. pose proof (ok_inj w Hok _ _ i E Hi) as E'. apply GetLogFilePath_inj in E'; lia. }
  constructor; cbn [set_fd config_ currentInstanceIndex_ currentFileIndex_ currentFd_ mmapManager_ processName_];
    change (GetLogFilePath (set_fd m (Some (w_next w)))) with (GetLogFilePath m); try done.
  - apply locked_at_ok; [done | by rewrite Hn | by rewrite Hn; cbn; rewrite Hl].
  - unfold locked_at. by autorewrite with sandbox.
  - intros k. unfold locked_at. rewrite running_dirs_upd. apply Hd.
  - split; [done | lia].
  - intros k Hk. rewrite locked_at_file_of. rewrite <- Hfiles by done. case_decide; [|done]. by destruct (file_of w _).
  - exists (w_next w), (set_lock (Some (w_next w)) n). rewrite locked_at_file_of, decide_True, (file_of_Some w _ i n) by done.
    split_and!; try done. unfold locked_at. autorewrite with sandbox. cbn. by rewrite lookup_insert_eq.
  - intros k Hk. rewrite locked_at_file_of. case_decide as E; [apply Honly in E; lia | apply Hlk; lia].
  - unfold locked_at. apply mapped_other; [|cbn; intros E; by apply (Hap (currentFileIndex_ m)), (ok_inj w Hok _ _ i)].
    destruct Hmap as (j & n' & ? & ? & ? & ? & ? & ?). by exists j, n'.
Qed.

(** The system closes the descriptors of a process that ends or is killed; the
    mapped bytes are in the file.  The process ends between two operations of
    its manager. *)
Definition process_end (m : manager) (w : world) : world :=
  match currentFd_ m with Some fd => (sys_close fd w).1 | None => w end.

Lemma running_initialized m w files pending b : running m w files pending -> running (set_initialized m b) w files pending.
Proof. intros []. by constructor. Qed.

Lemma mapped_frame mm w w' p size t :
  w_names w' !! p = w_names w !! p -> (forall i, w_names w !! p = Some i -> w_inodes w' !! i = w_inodes w !! i) ->
  mapped mm w' p size t -> mapped mm w p size t.
Proof.
  intros Hn Hi (i & n & ? & ? & ? & Hp & Hin & ?). rewrite Hn in Hp. rewrite (Hi i Hp) in Hin. by exists i, n.
Qed.

Lemma with_next_id w : with_next (w_next w) w = w.
Proof. by destruct w. Qed.

(** Initialisation in a directory where no file is locked. *)
Lemma InitLogFile_quiet order std_sort m w files :
  world_ok w -> no_faults w -> (forall p n, file_of w p = Some n -> i_lock n = None) -> (forall l, order l ≡ₚ l) ->
  config_ok (config_ m) -> Z.of_nat (length (entries_of w m)) <= MAX_RESERVED_LOG_FILE_NUM - maxLogNum (config_ m) ->
  currentFd_ m = None -> (forall k, dir_exists w (GetLogFilePath m 1 k) = true) ->
  (forall k, norm_dir (GetLogFilePath m 1 k) ∉ w_dirs w) ->
  (forall k, 1 <= k <= maxLogNum (config_ m) -> i_data <$> file_of w (GetLogFilePath m 1 k) = files !! Z.to_nat (k - 1)) ->
  let len := Z.of_nat (length files) in 1 <= len <= maxLogNum (config_ m) ->
  exists n, (w_next w <= n)%nat /\
    if len <? maxLogNum (config_ m) then
      w_names w !! GetLogFilePath m 1 (len + 1) = None /\
      InitLogFile order std_sort m w
      = (locked_new (GetLogFilePath m 1 (len + 1)) (with_next n w), (set_fd (set_indexes m 1 (len + 1)) (Some (S n)), true))
    else exists i, w_names w !! GetLogFilePath m 1 len = Some i /\
      InitLogFile order std_sort m w = (locked_at i (with_next n w), (set_fd (set_indexes m 1 len) (Some n), true)).
Proof.
  intros Hok Hf Hq Hord Hc Hfew Hfd Hdir Hnd Hfiles len Hlen. pose proof Hc as [_ _ Hnum].
  assert (forall k, 1 <= k <= maxLogNum (config_ m) -> is_Some (w_names w !! GetLogFilePath m 1 k) <-> k <= len) as Hsome.
  { intros k Hk. rewrite <- file_of_names, <- (fmap_is_Some i_data), Hfiles, lookup_lt_is_Some by done. lia. }
  destruct (CanCreateLogFile_quiet w Hok Hf Hq order Hord m (w_next w)) as (n1 & Hn1 & Ecan); [lia|].
  destruct (seek_files_quiet w Hok Hf Hq m 1 (Z.to_nat (maxLogNum (config_ m))) 1 (currentFileIndex_ m) n1) as (n & Hn & Eseek); [lia|lia|by right|].
  specialize (Eseek (len + 1) ltac:(lia)). change (Z.to_nat 1) with 1%nat in Eseek. fold (fileIndexes m) in Eseek.
  set (idx := if decide (len + 1 < 1 + Z.of_nat (Z.to_nat (maxLogNum (config_ m)))) then len + 1 else if decide (len + 1 = 1) then currentFileIndex_ m else len + 1 - 1) in *.
  assert (InitLogFile order std_sort m w = OpenCurrentLogFile (set_indexes m 1 idx) (with_next n w) \/
    exists w' m', OpenCurrentLogFile (set_indexes m 1 idx) (with_next n w) = (w', (m', false))) as Einit.
  { destruct (OpenCurrentLogFile (set_indexes m 1 idx) (with_next n w)) as [w' [m' []]] eqn:Eo; [left|right; by eauto].
    unfold InitLogFile, mbind, sysM_bind. rewrite <- (with_next_id w) at 1. rewrite AgedOutLogFiles_quiet by done.
    rewrite Ecan. unfold MAX_OPEN_FILE_RETRY_TIMES. cbn [open_retry]. unfold mbind at 1, sysM_bind at 1.
    assert (SeekFileIndexes m (with_next n1 w) = (with_next n w, (set_indexes m 1 idx, true))) as ->.
    { unfold SeekFileIndexes, MAX_INSTANCE_COUNT. change (Z.of_nat <$> seq 1 (Z.to_nat 10)) with (1 :: (Z.of_nat <$> seq 2 9)).
      cbn [seek_instances]. unfold mbind, sysM_bind. rewrite Eseek; [done|..].
      - intros k Hk. apply Hsome; lia.
      - intros Hlt. apply eq_None_not_Some. rewrite Hsome; lia. }
    unfold mbind, sysM_bind. by rewrite Eo. }
  exists n. split; [lia|]. destruct (Z.ltb_spec len (maxLogNum (config_ m))).
  - assert (idx = len + 1) as Ei by (unfold idx; rewrite decide_True by lia; done).
    assert (w_names w !! GetLogFilePath m 1 (len + 1) = None) as Hnone by (apply eq_None_not_Some; rewrite Hsome; lia).
    split; [done|].
    assert (OpenCurrentLogFile (set_indexes m 1 idx) (with_next n w)
      = (locked_new (GetLogFilePath m 1 (len + 1)) (with_next n w), (set_fd (set_indexes m 1 (len + 1)) (Some (S n)), true))) as Eo.
    { unfold OpenCurrentLogFile, CloseCurrentFile, mbind, sysM_bind. cbn [set_indexes currentFd_]. rewrite Hfd, Ei.
      change (GetLogFilePath (set_indexes m 1 (len + 1))) with (GetLogFilePath m). cbn [set_indexes currentInstanceIndex_ currentFileIndex_ mret sysM_ret].
      rewrite LockFile_new by (done || apply Hdir). done. }
    rewrite Eo in Einit. by destruct Einit as [?|(? & ? & ?)].
  - assert (idx = len) as Ei by (unfold idx; rewrite !decide_False by lia; lia).
    destruct (proj2 (Hsome len ltac:(lia)) ltac:(lia)) as [i Hi]. exists i. split; [done|].
    destruct (ok_named w Hok _ _ Hi) as [node Hnode].
    assert (OpenCurrentLogFile (set_indexes m 1 idx) (with_next n w) = (locked_at i (with_next n w), (set_fd (set_indexes m 1 len) (Some n), true))) as Eo.
    { unfold OpenCurrentLogFile, CloseCurrentFile, mbind, sysM_bind. cbn [set_indexes currentFd_]. rewrite Hfd, Ei.
      change (GetLogFilePath (set_indexes m 1 len)) with (GetLogFilePath m). cbn [set_indexes currentInstanceIndex_ currentFileIndex_ mret sysM_ret].
      rewrite (LockFile_unlocked _ _ i node); [done|done|done|done|]. by eapply Hq, file_of_Some. }
    rewrite Eo in Einit. by destruct Einit as [?|(? & ? & ?)].
Qed.

(** The manager that comes out of the initialisation runs as soon as the buffer is mapped. *)
Lemma InitLogFile_running order std_sort m w files pending j nn :
  world_ok w -> no_faults w -> (forall p n, file_of w p = Some n -> i_lock n = None) -> (forall l, order l ≡ₚ l) ->
  config_ok (config_ m) -> Z.of_nat (length (entries_of w m)) <= MAX_RESERVED_LOG_FILE_NUM - maxLogNum (config_ m) ->
  currentFd_ m = None -> currentInstanceIndex_ m = 1 -> (forall k, dir_exists w (log_path m k) = true) ->
  (forall k, norm_dir (log_path m k) ∉ w_dirs w) -> (forall k, persist_path m <> log_path m k) ->
  (forall k, 1 <= k <= maxLogNum (config_ m) -> i_data <$> file_of w (log_path m k) = files !! Z.to_nat (k - 1)) ->
  1 <= Z.of_nat (length files) <= maxLogNum (config_ m) ->
  Forall (fun f => slen f < maxLogFileSize (config_ m)) files ->
  w_names w !! persist_path m = Some j -> w_inodes w !! j = Some nn ->
  exists idx fd w3, InitLogFile order std_sort m w = (w3, (set_fd (set_indexes m 1 idx) fd, true)) /\
    no_faults w3 /\ w_dirs w3 = w_dirs w /\ w_names w3 !! persist_path m = Some j /\ w_inodes w3 !! j = Some nn /\
    forall mm, mapped mm w3 (persist_path m) (mmapSize (config_ m)) pending ->
      running (set_mmap (set_fd (set_indexes m 1 idx) fd) mm) w3
        (if Z.of_nat (length files) <? maxLogNum (config_ m) then files ++ [""] else files) pending.
Proof.
  intros Hok Hf Hq Hord Hc Hfew Hfd Hinst Hd Hnd Hap Hfiles Hlen Hsz Hj Hnn. rewrite Hinst in *.
  destruct (InitLogFile_quiet order std_sort m w files) as (n & Hn & E); try done.
  cbv zeta in E. pose proof (with_next_ok w n Hok Hn) as Hok'.
  destruct (Z.ltb_spec (Z.of_nat (length files)) (maxLogNum (config_ m))) as [Hlt|Hge].
  - destruct E as [Hnone E]. eexists _, _, _. split; [exact E|]. cbn [locked_new with_next w_outcomes w_dirs w_names w_inodes w_next].
    assert (j <> n) as Hjn by (intros ->; pose proof (ok_inodes w Hok n ltac:(by rewrite Hnn)); lia).
    repeat apply conj; try done; [by rewrite lookup_insert_ne by (intros X; symmetry in X; by apply Hap in X)|by rewrite lookup_insert_ne|].
    intros mm Hmm. apply (fresh_running (set_mmap (set_indexes m 1 (Z.of_nat (length files) + 1)) mm) (with_next n w) files pending); cbn; try done; try lia.
    + intros k Hk. apply bind_None. destruct (file_of _ _) as [x|] eqn:E'; [right; exists x; split; [done | by apply (Hq _ x E')] | by left].
    + revert Hmm. apply mapped_frame; cbn; [by rewrite lookup_insert_ne by (intros X; symmetry in X; by apply Hap in X)|].
      intros i' Hi'. rewrite Hj in Hi'. injection Hi' as <-. by rewrite lookup_insert_ne.
  - destruct E as (i & Hi & E). eexists _, _, _. split; [exact E|]. unfold locked_at. autorewrite with sandbox. cbn [with_next w_outcomes w_dirs w_names w_inodes w_next].
    assert (i <> j) as Hij by (intros ->; by apply (Hap (Z.of_nat (length files))), (ok_inj w Hok _ _ j)).
    rewrite upd_inode_lookup, decide_False by done. repeat apply conj; try done.
    intros mm Hmm. destruct (ok_named w Hok _ _ Hi) as [ni Hni].
    apply (taken_running (set_mmap (set_indexes m 1 (Z.of_nat (length files))) mm) (with_next n w) files pending i ni); cbn; try done; try lia.
    + intros k Hk. apply bind_None. destruct (file_of _ _) as [x|] eqn:E'; [right; exists x; split; [done | by apply (Hq _ x E')] | by left].
    + revert Hmm. apply mapped_frame; autorewrite with sandbox; [done|].
      intros i' Hi'. cbn in Hi'. rewrite Hj in Hi'. injection Hi' as <-. by rewrite upd_inode_lookup, decide_False.
Qed.

(** C24: what a process wrote to its page switch log survives a process that
    ends or is killed between two operations of its manager, without a flush:
    the next process of that name takes over the instance, with the text that
    was in the buffer, and goes on after the files that are there.  It does
    when the ended process had the first instance, nobody else has a log
    locked, no system call fails, and there are so few logs that none is aged
    out. *)
Theorem page_log_survives order std_sort program m w files pending :
  running m w files pending -> (forall l, order l ≡ₚ l) ->
  processName_ m = GetFormatedProcessName program -> currentInstanceIndex_ m = 1 ->
  (forall p n, file_of w p = Some n -> i_lock n = None \/ i_lock n = currentFd_ m) ->
  norm_dir (logDir (config_ m)) ∈ w_dirs w -> dir_exists w (persist_path m) = true ->
  (forall k, norm_dir (log_path m k) ∉ w_dirs w) ->
  Z.of_nat (length (entries_of w m)) <= MAX_RESERVED_LOG_FILE_NUM - maxLogNum (config_ m) ->
  exists m' w', Initialize order std_sort program (new_manager (config_ m)) (process_end m w) = (w', (m', true)) /\
    running m' w' (if Z.of_nat (length files) <? maxLogNum (config_ m) then files ++ [""] else files) pending.
Proof.
  intros Hr Hord Hname Hinst Hquiet Hdir Hpdir Hnd Hfew.
  pose proof Hr as [Hok Hf Hc Hd Hap [Hidx Hlen] Hfiles Hsz (fd & node & Hfd & Hfdn & Hn & Hl) Hold Hmap].
  destruct (w_names w !! log_path m (currentFileIndex_ m)) as [i|] eqn:Hi; [|by rewrite (proj2 (file_of_None w _ Hok) Hi) in Hn].
  set (w1 := closed fd i w).
  assert (process_end m w = w1) as -> by (unfold process_end, sys_close; by rewrite Hfd, Hfdn).
  assert (world_ok w1) as Hok1 by by apply closed_ok.
  assert (w_dirs w1 = w_dirs w /\ w_outcomes w1 = w_outcomes w /\ w_names w1 = w_names w) as (Hdr & Hou & Hna)
    by (unfold w1, closed; cbn; by autorewrite with sandbox).
  assert (forall p n, file_of w1 p = Some n -> i_lock n = None) as Hq1.
  { intros p n. unfold w1. rewrite closed_file_of. destruct (file_of w p) as [n'|] eqn:En; [|by case_decide].
    case_decide; intros [= <-].
    - rewrite release_lock. case_decide; [done|]. destruct (Hquiet p n' En) as [?|E]; [done | by rewrite Hfd in E].
    - destruct (Hquiet p n' En) as [?|E]; [done|]. rewrite Hfd in E. apply bind_Some in En as (j & Hj & Hin).
      pose proof (ok_locks w Hok _ _ _ Hin E). unfold inode_of in Hj. congruence. }
  set (m1 := mkManager false (config_ m) new_mmap 1 1 None (GetFormatedProcessName program)).
  assert (forall j k, GetLogFilePath m1 j k = GetLogFilePath m j k) as Hlp by (intros; unfold GetLogFilePath; by rewrite Hname).
  assert (persist_path m1 = persist_path m) as Hpp by (by cbn; rewrite Hname, Hinst).
  rewrite Hinst in *. pose proof Hc as [Hc1 Hc2 Hc3].
  destruct Hmap as (j & nn & _ & _ & _ & Hpj & Hjn & Hb).
  assert (i <> j) as Hij by (intros ->; by apply (Hap (currentFileIndex_ m)), (ok_inj w Hok _ _ j)).
  assert (w_inodes w1 !! j = Some nn) as Hjn1 by (unfold w1, closed, set_fds; cbn [w_inodes]; by rewrite upd_inode_lookup, decide_False).
  destruct (InitLogFile_running order std_sort m1 w1 files pending j nn) as (idx & fd3 & w3 & E3 & Ho3 & Hd3 & Hp3 & Hj3 & Hrun3);
    cbn [m1 config_ currentFd_ currentInstanceIndex_ processName_]; try done; try (by rewrite <- Hname).
  { by rewrite Hou. }
  { unfold entries_of, dir_files. by rewrite Hna. }
  { intros k. rewrite Hlp. unfold dir_exists. rewrite Hdr. apply Hd. }
  { intros k. rewrite Hlp, Hdr. apply Hnd. }
  { intros k. rewrite Hlp, <- Hname. apply Hap. }
  { intros k Hk. rewrite Hlp. unfold w1. rewrite closed_data. by apply Hfiles. }
  { by rewrite <- Hname, Hna. }
  destruct (Mmap_Initialize_existing new_mmap w3 (persist_path m1) j nn (mmapSize (config_ m)) pending) as (mm & Em & Hmap3); try done; try lia.
  { unfold dir_exists in *. rewrite Hd3, Hdr. cbn [m1 config_ currentInstanceIndex_ processName_]. by rewrite <- Hname. }
  eexists _, w3. split; [|by apply running_initialized, Hrun3].
  unfold Initialize, mbind, sysM_bind. cbn [new_manager initialized_ config_ mmapManager_ currentFileIndex_ currentInstanceIndex_ currentFd_]. fold m1.
  assert (CreateDirectory m1 w1 = (w1, true)) as ->.
  { unfold CreateDirectory, fs_exists, mbind, sysM_bind. cbn [m1 config_]. rewrite Hdr, (bool_decide_eq_true_2 (_ ∈ _)) by done. by rewrite orb_true_r. }
  cbn [negb]. rewrite E3. cbn [negb].
  change (Mmap_Initialize _ _ _ w3) with (Mmap_Initialize new_mmap (persist_path m1) (mmapSize (config_ m)) w3). by rewrite Em.
Qed.

(** ** The page switch log of an application *)

Lemma filename_no_slash s : no_char "/" s -> filename s = s.
Proof.
  induction s as [|c s IH]; [done|]. rewrite no_char_cons. intros [Hc Hs]. cbn [filename].
  destruct (str_mem "/" s) eqn:E; [by apply str_mem_spec in E|]. by rewrite bool_decide_eq_false_2 by congruence.
Qed.

Lemma filename_app d s : no_char "/" s -> filename (d +:+ "/" +:+ s) = s.
Proof.
  intros Hs. change ("/" +:+ s)%string with (String "/" s). induction d as [|c d IH]; rewrite ?str_nil_app, ?str_cons_app; cbn [filename].
  - destruct (str_mem "/" s) eqn:E; [by apply str_mem_spec in E|]. by rewrite bool_decide_eq_true_2.
  - destruct (str_mem "/" (d +:+ String "/" s)) eqn:E; [done|]. apply not_true_iff_false in E. destruct E.
    rewrite str_mem_spec, no_char_app_iff, no_char_cons. by intros (_ & ? & _).
Qed.

Lemma parent_path_app d s : d <> "" -> no_char "/" s -> parent_path (d +:+ "/" +:+ s) = d.
Proof.
  intros Hd Hs. unfold parent_path. rewrite filename_app by done. rewrite str_app_assoc. pose proof (slen_app (d +:+ "/") s) as Hl. unfold slen in Hl.
  replace (String.length ((d +:+ "/") +:+ s) - String.length s)%nat with (String.length (d +:+ "/")) by lia.
  rewrite str_take_app_length. unfold norm_dir. rewrite str_last_app, bool_decide_eq_true_2 by done.
  assert (0 < slen d) by (destruct d; [done | unfold slen; cbn; lia]). destruct (Z.ltb_spec 1 (slen (d +:+ "/"))) as [_|H'].
  - cbn [andb]. pose proof (slen_app d "/") as Hl'. unfold slen in Hl'. change (String.length "/") with 1%nat in Hl'.
    replace (String.length (d +:+ "/") - 1)%nat with (String.length d) by lia. apply str_take_app_length.
  - rewrite slen_app in H'. change (slen "/") with 1 in H'. lia.
Qed.

Lemma to_string_no_slash z : no_char "/" (to_string z).
Proof.
  assert (forall s, str_forall is_digit s = true -> no_char "/" s) as H.
  { induction s as [|c s IH]; [intros _; apply not_elem_of_nil|]. cbn [str_forall]. intros [Hc Hs]%andb_prop. apply no_char_cons.
    split; [by intros <- | by apply IH]. }
  unfold to_string. destruct (z <? 0); [apply no_char_app; [apply no_char_cons; split; [done | apply not_elem_of_nil]|]|]; apply H, Num2Str_digits.
Qed.

(** A directory with the buffer of an application and none of its files, and a
    manager that maps the buffer. *)
Definition page_start : world :=
  mkWorld {[SandboxLogger.LOG_DIR]} {["/data/storage/el2/log/page_switch/.persist_sandbox_log_com.app_1" := 0%nat]}
    {[0%nat := mkInode (le_bytes 8 0 +:+ fill 8192 NUL) 0 None]} ∅ 1 0 [].
Definition page_app : manager :=
  mkManager true SandboxLogger.InitFileManager (mkMmap (Some 0%nat) true 8200 0) 1 1 None "com.app".

Lemma page_paths k :
  GetLogFilePath page_app 1 k = SandboxLogger.LOG_DIR +:+ "/" +:+ ("page_switch-com.app-1-" +:+ to_string k +:+ ".log").
Proof. done. Qed.

Lemma no_char_mem c s : str_mem c s = false -> no_char c s.
Proof. intros E. apply dec_stable. intros H%str_mem_spec. by rewrite H in E. Qed.

Lemma page_name_no_slash k : no_char "/" ("page_switch-com.app-1-" +:+ to_string k +:+ ".log").
Proof.
  repeat apply no_char_app; [by apply no_char_mem | apply to_string_no_slash | by apply no_char_mem].
Qed.

Lemma page_start_ok : world_ok page_start.
Proof.
  constructor; cbn.
  - intros p q i [-> _]%lookup_singleton_Some [-> _]%lookup_singleton_Some. done.
  - intros p i [_ <-]%lookup_singleton_Some. by rewrite lookup_singleton_eq.
  - intros i [n [<- _]%lookup_singleton_Some]. lia.
  - by intros fd i ?%lookup_empty_Some.
  - by intros i n fd [_ <-]%lookup_singleton_Some.
Qed.

Lemma slen_norm_dir s : slen s - 1 <= slen (norm_dir s).
Proof. unfold norm_dir. destruct (_ && _); [|lia]. rewrite slen_take. unfold slen. lia. Qed.

Lemma page_example :
  running (set_fd page_app (Some 2%nat)) (locked_new (GetLogFilePath page_app 1 1) page_start) [""] "".
Proof.
  apply (fresh_running page_app page_start [] ""); try done; [apply page_start_ok|..].
  - intros k. unfold dir_exists. rewrite page_paths, parent_path_app by (done || apply page_name_no_slash).
    cbn. by rewrite (bool_decide_eq_true_2 (_ ∈ {[_]})) by set_solver.
  - exists 0%nat, (mkInode (le_bytes 8 0 +:+ fill 8192 NUL) 0 None). repeat split; [by rewrite lookup_singleton_eq..|].
    exists (fill 8192 NUL). rewrite str_nil_app, slen_fill. split; [done|]. change (slen "") with 0. by vm_compute.
Qed.

Definition sort_by (A : Type) (lt : A -> A -> bool) (l : list A) : list A :=
  @merge_sort A (fun a b => lt a b = true) (fun a b => decide (lt a b = true)) l.

Lemma sort_by_perm A (lt : A -> A -> bool) l : sort_by A lt l ≡ₚ l.
Proof. unfold sort_by. apply (@merge_sort_Permutation A (fun a b => lt a b = true) (fun a b => decide (lt a b = true))). Qed.

(** A process that has written a line, flushed, and written another. *)
Definition first_line : string := "page/main" +:+ endl.
Definition second_line : string := "page/list" +:+ endl.
Definition page_run : world * manager :=
  for_each page_op [Some first_line; None; Some second_line] (set_fd page_app (Some 2%nat)) (locked_new (GetLogFilePath page_app 1 1) page_start).

Lemma page_run_running : running page_run.2 page_run.1 [first_line] second_line /\ same_log page_app page_run.2.
Proof.
  destruct (page_op_spec _ _ _ _ (Some first_line) page_example) as (m1 & w1 & E1 & R1 & (C1 & I1 & N1)); [by vm_compute|].
  destruct (page_op_spec m1 w1 _ _ None R1) as (m2 & w2 & E2 & R2 & (C2 & I2 & N2)); [done|].
  destruct (page_op_spec m2 w2 _ _ (Some second_line) R2) as (m3 & w3 & E3 & R3 & (C3 & I3 & N3)); [rewrite C2, C1; by vm_compute|].
  assert (page_run = (w3, m3)) as ->.
  { unfold page_run. rewrite for_each_cons, E1, for_each_cons, E2, for_each_cons, E3. done. }
  cbn [fst snd]. rewrite C2, C1 in R3. split; [exact R3|]. unfold same_log. by rewrite C3, C2, C1, I3, I2, I1, N3, N2, N1.
Qed.

Lemma page_log_survives_witness :
  exists m' w', Initialize id sort_by "com.app" (new_manager SandboxLogger.InitFileManager) (process_end page_run.2 page_run.1) = (w', (m', true)) /\
    running m' w' [first_line; ""] second_line.
Proof.
  apply (page_log_survives id sort_by "com.app" _ _ _ _ (proj1 page_run_running)).
  - done.
  - by vm_compute.
  - by vm_compute.
  - assert (map_Forall (fun _ n => i_lock n = None \/ i_lock n = currentFd_ page_run.2) (w_inodes page_run.1)) as Hl
      by (apply (bool_decide_unpack _); by vm_compute).
    intros p n (i & _ & Hi)%bind_Some. exact (Hl i n Hi).
  - apply (bool_decide_unpack _). by vm_compute.
  - by vm_compute.
  - intros k. assert (bool_decide (w_dirs page_run.1 = {[SandboxLogger.LOG_DIR]}) = true) as ->%bool_decide_eq_true by (vm_compute; reflexivity).
    intros H%elem_of_singleton. pose proof (f_equal slen H) as E.
    assert (log_path page_run.2 k = GetLogFilePath page_app 1 k) as Ep
      by (destruct (proj2 page_run_running) as (E1 & E2 & E3); unfold GetLogFilePath; rewrite E1, E2, E3; reflexivity).
    pose proof (slen_norm_dir (log_path page_run.2 k)) as Hl. rewrite E, Ep, page_paths, !slen_app in Hl.
    change (slen SandboxLogger.LOG_DIR) with 33 in Hl. change (slen "page_switch-com.app-1-") with 22 in Hl.
    change (slen "/") with 1 in Hl. pose proof (slen_nonneg (to_string k)). pose proof (slen_nonneg ".log"). lia.
  - by vm_compute.
Defined.
