(* ===== verification/SnapshotProps.v ===== *)
(** * Snapshots leave the log of their process alone

    CreateSnapshot (log_file_manager.cpp) lists the logs of all processes,
    writes the buffers that other processes left into their logs, and copies
    files.  What it does to the files of the system is framed: the files, the
    buffer and the lock of the process that takes the snapshot stay as they
    are. *)

From S2P Require Import Prelude Common Utils LogPrint SandboxFs SandboxLogger LogFileManager SandboxFsProps LogFileManagerProps.
From Stdlib Require Import Ascii.

(** ** Frames *)

Section frame.
(** The files that stay, the names that may not appear, a description that
    stays open. *)
Context (P L : string -> Prop) (own : nat).

Record frame (w w' : world) : Prop := mkFrame {
  fr_names : forall p, P p -> w_names w' !! p = w_names w !! p;
  fr_inodes : forall p i, P p -> w_names w !! p = Some i -> w_inodes w' !! i = w_inodes w !! i;
  fr_own : w_fds w' !! own = w_fds w !! own;
  fr_dirs : w_dirs w ⊆ w_dirs w';
  fr_new : forall p, L p -> is_Some (w_names w' !! p) -> is_Some (w_names w !! p);
}.

#[export] Instance frame_po : PreOrder frame.
Proof.
  split; [by intros w; constructor|]. intros w1 w2 w3 [N1 I1 O1 D1 A1] [N2 I2 O2 D2 A2]. constructor.
  - intros p Hp. by rewrite N2, N1.
  - intros p i Hp Hi. rewrite (I2 p), (I1 p i); [done..|]. by rewrite N1.
  - congruence.
  - by etrans.
  - eauto.
Qed.

Definition fine (w : world) : Prop := world_ok w /\ no_faults w /\ (own < w_next w)%nat.

(** The call [c] is framed, and its result is as said. *)
Definition framed {A} (w : world) (c : sysM A) (Q : world -> A -> Prop) : Prop :=
  fine w -> let '(w', a) := c w in fine w' /\ frame w w' /\ Q w' a.

Lemma framed_ret {A} w (x : A) (Q : world -> A -> Prop) : Q w x -> framed w (mret x) Q.
Proof. intros HQ Hw. by split_and!. Qed.

Lemma framed_bind {A B} w (c : sysM A) (f : A -> sysM B) Q R :
  framed w c Q -> (forall w1 a, fine w1 -> frame w w1 -> Q w1 a -> framed w1 (f a) R) -> framed w (c ≫= f) R.
Proof.
  intros Hc Hf Hw. specialize (Hc Hw). unfold mbind, sysM_bind. destruct (c w) as [w1 a]. destruct Hc as (Hw1 & Hfr & HQ).
  specialize (Hf w1 a Hw1 Hfr HQ Hw1). destruct (f a w1) as [w2 b]. destruct Hf as (? & ? & ?). split_and!; try done. by etrans.
Qed.

Lemma framed_mono {A} w (c : sysM A) (Q R : world -> A -> Prop) :
  framed w c Q -> (forall w' a, frame w w' -> Q w' a -> R w' a) -> framed w c R.
Proof. intros Hc HQ Hw. specialize (Hc Hw). destruct (c w) as [w' a]. destruct Hc as (? & ? & ?). split_and!; auto. Qed.

(** A call that changes nothing. *)
Lemma framed_read {A} w (c : sysM A) a (Q : world -> A -> Prop) : c w = (w, a) -> Q w a -> framed w c Q.
Proof. intros E HQ Hw. rewrite E. by split_and!. Qed.

Lemma framed_for_each {A S} (I : S -> Prop) (f : A -> S -> sysM S) l s w :
  I s -> (forall x s' w', x ∈ l -> I s' -> fine w' -> frame w w' -> framed w' (f x s') (fun _ => I)) ->
  framed w (for_each f l s) (fun _ => I).
Proof.
  revert s w. induction l as [|x l IH]; intros s w Hs Hf; [by apply framed_ret|]. cbn [for_each]. intros Hw.
  revert Hw. eapply framed_bind; [intros Hw; apply Hf; [by left | done | done | done | done]|].
  intros w1 s1 Hw1 Hfr Hs1. apply IH; [done|]. intros y s' w' Hy Hs' Hw' Hfr'. apply Hf; [by right | done | done|]. by etrans.
Qed.

(** ** The calls of the system *)

(** No name of a file that stays. *)
Definition off (w : world) (i : nat) : Prop := forall p, P p -> w_names w !! p <> Some i.

Lemma off_frame w w' i : frame w w' -> off w i -> off w' i.
Proof. intros Hfr Hi p Hp. rewrite (fr_names _ _ Hfr) by done. by apply Hi. Qed.

Lemma off_name w p i : fine w -> ~ P p -> w_names w !! p = Some i -> off w i.
Proof. intros (Hok & _) Hp Hi q Hq Hqi. by rewrite (ok_inj w Hok p q i Hi Hqi) in Hp. Qed.

Lemma off_fresh w i : fine w -> w_inodes w !! i = None -> off w i.
Proof. intros (Hok & _) Hi p _ E. apply (ok_named w Hok) in E as [? E]. congruence. Qed.

Lemma frame_upd w i f :
  fine w -> off w i -> (forall n, i_lock (f n) = i_lock n \/ i_lock (f n) = None) ->
  fine (upd_inode i f w) /\ frame w (upd_inode i f w).
Proof.
  intros (Hok & Hf & Hn) Hi Hl. split.
  - split_and!; [by apply upd_inode_ok | by autorewrite with sandbox..].
  - constructor; autorewrite with sandbox; try done.
    intros p j Hp Hj. rewrite upd_inode_lookup, decide_False; [done|]. intros <-. by apply (Hi p Hp).
Qed.

Lemma frame_bump w : fine w -> fine (bump w) /\ frame w (bump w).
Proof.
  intros (Hok & Hf & Hn). split; [|by constructor]. split_and!; [by apply bump_ok | done | cbn; lia].
Qed.

Lemma framed_mkdir w d : framed w (fs_create_directory d) (fun _ _ => True).
Proof.
  intros (Hok & Hf & Hn). unfold fs_create_directory, mbind, sysM_bind, sys. rewrite next_outcome_done by done.
  destruct (_ || _); [by split_and!|]. split_and!; [split_and!; [|done..]|constructor; try done; cbn; set_solver|done].
  destruct Hok. by constructor.
Qed.

Lemma framed_probe w p : framed w (IsFileWriteLocked p) (fun _ _ => True).
Proof.
  intros Hw. pose proof Hw as (Hok & Hf & Hn). destruct (file_of w p) as [n|] eqn:E.
  - rewrite (IsFileWriteLocked_spec w p n) by done. destruct (frame_bump w Hw). by split_and!.
  - apply file_of_None in E; [|done]. unfold IsFileWriteLocked, sys_open, mbind, sysM_bind. rewrite next_outcome_done by done.
    cbn [failed]. unfold inode_of. rewrite E. cbn [andb]. by split_and!.
Qed.

Lemma LockFile_held w p i n o :
  world_ok w -> no_faults w -> w_names w !! p = Some i -> w_inodes w !! i = Some n -> i_lock n = Some o -> LockFile p w = (bump w, None).
Proof.
  intros Hok Hf Hp Hi Hl. unfold LockFile, sys_open, mbind, sysM_bind. rewrite next_outcome_done by done. cbn [failed].
  unfold inode_of. rewrite Hp. cbn. unfold sys_lock. cbn. rewrite lookup_insert_eq, Hi. cbn. rewrite Hl.
  rewrite bool_decide_eq_false_2 by (intros ->; by eapply fresh_unlocked in Hl). unfold sys_close. cbn. rewrite lookup_insert_eq.
  unfold mret, sysM_ret. f_equal. unfold set_fds, upd_inode. cbn. rewrite Hi. cbn. rewrite delete_insert_id by by apply fresh_fd.
  unfold set_inodes, bump. cbn. f_equal. apply insert_id. rewrite Hi. unfold release.
  rewrite bool_decide_eq_false_2; [done|]. by eapply fresh_unlocked.
Qed.

(** Locking a file that may change: when the lock is got, it is by a new
    description. *)
Lemma framed_lock w p :
  ~ P p -> ~ L p -> framed w (LockFile p) (fun w' r => forall fd, r = Some fd -> fd <> own /\ exists i, w_fds w' !! fd = Some i /\ off w' i).
Proof.
  intros HP HL Hw. pose proof Hw as (Hok & Hf & Hn). destruct (w_names w !! p) as [i|] eqn:Ep.
  - destruct (ok_named w Hok p i Ep) as [n Hi]. pose proof (off_name w p i Hw HP Ep) as Hoff. destruct (i_lock n) as [o|] eqn:El.
    + rewrite (LockFile_held w p i n o) by done. destruct (frame_bump w Hw). by split_and!.
    + rewrite (LockFile_unlocked w p i n) by done.
      assert (frame w (locked_at i w)) as Hfr.
      { constructor; unfold locked_at; autorewrite with sandbox; cbn; try done.
        - intros q j Hq Hj. rewrite upd_inode_lookup, decide_False; [done|]. intros <-. by apply (Hoff q).
        - rewrite lookup_insert_ne by lia. done. }
      split_and!; [split_and!|exact Hfr|].
      * apply locked_at_ok; [done | by rewrite Hi | by rewrite Hi; cbn; rewrite El].
      * unfold locked_at. by autorewrite with sandbox.
      * unfold locked_at. autorewrite with sandbox. cbn. lia.
      * intros fd [= <-]. split; [lia|]. exists i. split; [|by eapply off_frame].
        unfold locked_at. autorewrite with sandbox. cbn. by rewrite lookup_insert_eq.
  - destruct (dir_exists w p) eqn:Ed.
    + rewrite (LockFile_new w p) by done. pose proof (locked_new_ok w p Hok Ep) as Hok'.
      assert (frame w (locked_new p w)) as Hfr.
      { constructor; cbn; try done.
        - intros q Hq. rewrite lookup_insert_ne; [done|]. by intros <-.
        - intros q j Hq Hj. rewrite lookup_insert_ne; [done|]. intros <-. apply (ok_named w Hok) in Hj as [? Hj]. by rewrite fresh_inode in Hj.
        - rewrite lookup_insert_ne by lia. done.
        - intros q Hq. rewrite lookup_insert_ne; [done|]. by intros <-. }
      split_and!; [split_and!; [done | done | cbn; lia]|done|]. intros fd [= <-]. split; [lia|]. exists (w_next w).
      split; [cbn; by rewrite lookup_insert_eq|]. eapply off_frame; [exact Hfr|]. apply off_fresh; [done | by apply fresh_inode].
    + unfold LockFile, sys_open, mbind, sysM_bind. rewrite next_outcome_done by done. cbn [failed]. unfold inode_of. rewrite Ep, Ed.
      by split_and!.
Qed.

Lemma framed_close w fd i :
  w_fds w !! fd = Some i -> fd <> own -> off w i -> framed w (UnlockAndCloseFd (Some fd)) (fun _ _ => True).
Proof.
  intros Hfd Hne Hi Hw. pose proof Hw as (Hok & Hf & Hn). rewrite (UnlockAndCloseFd_spec fd i) by done. split_and!; [|..|done].
  - split_and!; [by apply closed_ok | unfold closed; cbn; by autorewrite with sandbox..].
  - destruct (frame_upd w i (release fd) Hw Hi) as [_ [N I O D A]].
    { intros n. rewrite release_lock. case_decide; auto. }
    constructor; unfold closed; cbn; try done. by rewrite lookup_delete_ne.
Qed.

Lemma framed_write w fd i mm : w_fds w !! fd = Some i -> off w i -> framed w (write_mapped (Some fd) mm) (fun _ _ => True).
Proof.
  intros Hfd Hi Hw. pose proof Hw as (Hok & Hf & Hn). unfold write_mapped, mbind, sysM_bind, sys.
  rewrite (sys_write_spec w fd i) by done. destruct (frame_upd w i (append_data (w_now w) (default "" (map_bytes mm (GetOffset mm) w))) Hw Hi)
    as [Hw' Hfr]; [by left|]. rewrite sys_fsync_spec by apply Hw'. by split_and!.
Qed.

Lemma framed_poke w i pos s : off w i -> framed w (poke i pos s) (fun _ _ => True).
Proof. intros Hi Hw. unfold poke, sys. destruct (frame_upd w i (fun n => set_data (splice (i_data n) pos s) n) Hw Hi); [by left|]. by split_and!. Qed.

(** A buffer whose file may change. *)
Definition map_off (w : world) (mm : LogMmapManager) : Prop := forall i, mmapPtr_ mm = Some i -> off w i.

Lemma map_off_frame w w' mm : frame w w' -> map_off w mm -> map_off w' mm.
Proof. intros Hfr Hm i Hi. by eapply off_frame, Hm. Qed.

Lemma framed_metadata w mm : map_off w mm -> framed w (UpdateMetadata mm) (fun _ _ => True).
Proof. unfold UpdateMetadata. intros Hm. destruct (mmapPtr_ mm) as [i|] eqn:E; [by apply framed_poke, Hm | by apply framed_ret]. Qed.

Lemma framed_reset w mm : map_off w mm -> framed w (Reset mm) (fun _ _ => True).
Proof.
  intros Hm. unfold Reset. destruct (mmapPtr_ mm) as [i|] eqn:E; [|by apply framed_ret]. destruct (_ =? 0); [by apply framed_ret|].
  eapply framed_bind; [by apply framed_poke, Hm|]. intros w1 _ _ Hfr _. eapply framed_bind; [apply framed_metadata|by intros; apply framed_ret].
  intros j [= <-]. by eapply off_frame, Hm.
Qed.

Lemma framed_new_file w p : ~ P p -> ~ L p -> w_names w !! p = None -> framed w (new_file p) (fun w' i => off w' i).
Proof.
  intros HP HL Ep Hw. pose proof Hw as (Hok & Hf & Hn). unfold new_file.
  assert (frame w (created p "" w)) as Hfr.
  { constructor; cbn; try done.
    - intros q Hq. rewrite lookup_insert_ne; [done|]. by intros <-.
    - intros q j Hq Hj. rewrite lookup_insert_ne; [done|]. intros <-. apply (ok_named w Hok) in Hj as [? Hj]. by rewrite fresh_inode in Hj.
    - intros q Hq. rewrite lookup_insert_ne; [done|]. by intros <-. }
  split_and!; [split_and!; [by apply (created_ok w p "") | done | cbn; lia]|exact Hfr|].
  eapply off_frame; [exact Hfr|]. apply off_fresh; [done | by apply fresh_inode].
Qed.

Lemma framed_outcome w : framed w next_outcome (fun _ o => o = Done).
Proof. intros Hw. rewrite next_outcome_done by apply Hw. by split_and!. Qed.

Lemma framed_map_open w p : ~ P p -> ~ L p -> framed w (map_open p) (fun w' r => forall i, r = Some i -> off w' i).
Proof.
  intros HP HL. unfold map_open. eapply framed_bind; [apply framed_outcome|]. intros w1 o Hw1 _ ->. cbn [failed].
  intros Hw. unfold sys, inode_of. destruct (w_names w1 !! p) as [i|] eqn:E.
  - split_and!; [done..|]. intros j [= <-]. by eapply off_name.
  - destruct (dir_exists w1 p); [|by split_and!]. revert Hw.
    eapply (framed_bind w1 (new_file p) (fun i => mret (Some i))); [by apply framed_new_file|]. intros w2 i _ _ Hi. apply framed_ret. by intros j [= <-].
Qed.

Lemma framed_grow w i size : off w i -> framed w (grow i size) (fun _ _ => True).
Proof.
  intros Hi. unfold grow. eapply framed_bind; [apply framed_outcome|]. intros w1 o Hw1 Hfr ->. cbn [failed]. intros Hw. unfold sys.
  edestruct (frame_upd w1 i) as [? ?]; [done | by eapply off_frame | |split_and!; [done..]]. by left.
Qed.

Lemma framed_map w p size :
  ~ P p -> ~ L p -> framed w (Mmap_Initialize new_mmap p size) (fun w' r => map_off w' r.1).
Proof.
  intros HP HL. unfold Mmap_Initialize. eapply framed_bind; [by eapply (framed_read _ _ _ (fun _ _ => True))|]. intros w1 ok _ _ _.
  destruct ok; cbn [negb]; [|by apply framed_ret]. eapply framed_bind; [by eapply (framed_read _ _ _ (fun _ _ => True))|]. intros w2 ex _ _ _.
  eapply framed_bind; [by apply framed_map_open|]. intros w3 [i|] _ _ Hi; [|by apply framed_ret]. specialize (Hi i eq_refl).
  eapply framed_bind; [by eapply (framed_read _ _ _ (fun w' _ => off w' i))|]. intros w4 [fsz|] _ _ Hi4; [|by apply framed_ret].
  eapply (framed_bind w4 _ _ (fun w' _ => off w' i)).
  { destruct (_ <? _); [|by apply framed_ret]. eapply framed_mono; [by apply framed_grow|]. intros w' _ Hfr _. by eapply off_frame. }
  intros w5 rz _ _ Hi5. destruct rz; cbn [negb]; [|by apply framed_ret]. eapply framed_bind; [apply framed_outcome|]. intros w6 o _ Hfr ->.
  cbn [failed]. assert (off w6 i) as Hi6 by by eapply off_frame. destruct (_ && _).
  - eapply framed_read; [done|]. by intros j [= <-].
  - eapply framed_bind; [apply framed_metadata; by intros j [= <-]|]. intros w7 _ _ Hfr7 _. apply framed_ret.
    intros j [= <-]. by eapply off_frame.
Qed.

Lemma framed_copy w p q : ~ P q -> ~ L q -> framed w (fs_copy_file p q) (fun _ _ => True).
Proof.
  intros HP HL. unfold fs_copy_file. eapply framed_bind; [apply framed_outcome|]. intros w1 o Hw1 _ ->. cbn [failed orb].
  intros Hw. unfold sys at 1. destruct (file_of w1 p) as [n|]; [|by split_and!]. unfold inode_of. destruct (w_names w1 !! q) eqn:E; [by split_and!|].
  destruct (negb _); [by split_and!|]. revert Hw.
  eapply (framed_bind w1 (new_file q) (fun i => sys (fun w => (upd_inode i (append_data (w_now w) (i_data n)) w, false)))); [by apply framed_new_file|].
  intros w2 i _ _ Hi Hw2. unfold sys. edestruct (frame_upd w2 i) as [? ?]; [done | done | |split_and!; [done..]]. by left.
Qed.

Lemma framed_remove w p : ~ P p -> framed w (fs_remove p) (fun _ _ => True).
Proof.
  intros HP. unfold fs_remove. eapply framed_bind; [apply framed_outcome|]. intros w1 o Hw1 _ ->. cbn [failed]. intros (Hok & Hf & Hn). unfold sys, inode_of.
  destruct (w_names w1 !! p) eqn:E; [|by split_and!]. split_and!; [split_and!; [by apply remove_ok | done | done]|constructor; cbn; try done|done].
  - intros q Hq. rewrite lookup_delete_ne; [done|]. by intros <-.
  - intros q Hq. by intros [? [_ ?]%lookup_delete_Some].
Qed.
End frame.

(** ** Names *)

Lemma SplitString_one d s : no_char d s -> SplitString s d = [s].
Proof.
  induction s as [|c s IH]; [done|]. rewrite no_char_cons. intros [Hc Hs]. cbn [SplitString]. by rewrite decide_False, IH by (done || congruence).
Qed.

Lemma SplitString_cons d a s : no_char d a -> SplitString (a +:+ String d "" +:+ s) d = a :: SplitString s d.
Proof.
  change (String d "" +:+ s)%string with (String d s).
  induction a as [|c a IH]; [intros _; rewrite str_nil_app; cbn [SplitString]; by rewrite decide_True|].
  rewrite no_char_cons. intros [Hc Ha]. rewrite str_cons_app. cbn [SplitString]. by rewrite decide_False, IH by (done || congruence).
Qed.

Lemma SplitString_parts d s : Forall (no_char d) (SplitString s d).
Proof.
  induction s as [|c s IH]; cbn [SplitString]; [repeat constructor; apply not_elem_of_nil|]. case_decide; [constructor; [apply not_elem_of_nil | done]|].
  destruct (SplitString s d) as [|t ts]; [constructor; [|done]|]; [apply no_char_cons; split; [congruence | apply not_elem_of_nil]|].
  inversion IH; subst. constructor; [|done]. apply no_char_cons. by split; [congruence|].
Qed.

Lemma split_last_app c a b : no_char c b -> split_last c (a +:+ String c "" +:+ b) = Some (a, b).
Proof.
  change (String c "" +:+ b)%string with (String c b). intros Hb. assert (forall s, no_char c s -> split_last c s = None) as Hn.
  { induction s as [|d s IH]; [done|]. rewrite no_char_cons. intros [? ?]. cbn [split_last]. by rewrite IH, decide_False by (done || congruence). }
  induction a as [|d a IH]; rewrite ?str_nil_app, ?str_cons_app; cbn [split_last]; [by rewrite Hn, decide_True|]. by rewrite IH.
Qed.

Lemma to_string_no_char c z : is_digit c = false -> 0 <= z -> no_char c (to_string z).
Proof.
  intros Hc Hz. unfold to_string. destruct (Z.ltb_spec z 0); [lia|]. pose proof (Num2Str_digits z) as Hd.
  induction (Num2Str 10 z) as [|d s IH]; [apply not_elem_of_nil|]. cbn [str_forall] in Hd. apply andb_prop in Hd as [Hd Hs].
  apply no_char_cons. split; [congruence | auto].
Qed.

Lemma TextToInt_to_string z : 0 <= z -> TextToInt (to_string z) = if z <? 2 ^ 31 then Some z else None.
Proof.
  intros Hz. unfold to_string. destruct (Z.ltb_spec z 0); [lia|]. destruct (Num2Str_head 10 ltac:(lia) z ltac:(lia)) as (d & s & Hd & E).
  pose proof (is_digit_chr d ltac:(lia)) as Hdig. unfold TextToInt. rewrite E.
  assert (String.prefix "-" (String (digit_chr d) s) = false) as ->.
  { cbn [String.prefix]. destruct (ascii_dec "-" (digit_chr d)) as [Ed|]; [|done]. by rewrite <- Ed in Hdig. }
  cbv zeta. rewrite Hdig. rewrite <- E. pose proof (Num2Str_read 10 ltac:(lia) z "" ltac:(lia)) as Er. rewrite str_app_nil_r in Er. rewrite Er.
  change (read_digits 10 z "") with z. destruct (Z.leb_spec (- 2 ^ 31) z); [done | lia].
Qed.

Lemma strip_suffix_app suf name pre : strip_suffix suf name = Some pre <-> name = pre +:+ suf.
Proof.
  unfold strip_suffix. split.
  - destruct (_ && _) eqn:E; [|done]. apply andb_prop in E as [_ E%bool_decide_eq_true]. intros [= <-].
    set (k := (String.length name - String.length suf)%nat) in *. transitivity (str_take k name +:+ str_drop k name); [by rewrite str_take_drop | by rewrite E].
  - intros ->. pose proof (slen_app pre suf) as Hl. pose proof (slen_nonneg pre). unfold slen in Hl.
    replace (String.length (pre +:+ suf) - String.length suf)%nat with (String.length pre) by lia.
    rewrite str_drop_app_length, str_take_app_length, bool_decide_eq_true_2 by done.
    destruct (Z.leb_spec (slen suf) (slen (pre +:+ suf))); [done|]. unfold slen in *. lia.
Qed.

(** ** The log of the process that takes the snapshot *)

Section page.
Context (m : manager).
Context (Hc : config_ m = SandboxLogger.InitFileManager).
Context (Hslash : no_char "/" (processName_ m)) (Hdash : no_char "-" (processName_ m)).
Context (Hinst : 0 <= currentInstanceIndex_ m < 2 ^ 16).

Abbreviation DIR := (SandboxLogger.LOG_DIR +:+ "/").

Definition own_prefix (k : Z) : string :=
  "page_switch" +:+ "-" +:+ processName_ m +:+ "-" +:+ to_string (currentInstanceIndex_ m) +:+ "-" +:+ to_string k.

(** The files of the process. *)
Definition own_file (p : string) : Prop := p = persist_path m \/ exists k, 1 <= k <= maxLogNum (config_ m) /\ p = log_path m k.

(** The log at [p] is taken for one that uses the buffer of the process. *)
Definition shares_buffer (p : string) : Prop :=
  exists prefix, p = path_join (logDir (config_ m)) (prefix +:+ fileSuffix (config_ m)) /\ plain (prefix +:+ fileSuffix (config_ m)) /\
    GetMmapFilePathFrom m prefix = persist_path m.

(** Only its own logs are. *)
Definition alone (w : world) : Prop := forall p, shares_buffer p -> is_Some (w_names w !! p) -> exists k, 0 <= k /\ p = log_path m k.

Lemma join_eq name : path_join (logDir (config_ m)) name = DIR +:+ name.
Proof using Hc. rewrite Hc. by rewrite <- str_app_assoc. Qed.

Lemma log_path_eq k : log_path m k = DIR +:+ own_prefix k +:+ ".log".
Proof using Hc.
  unfold GetLogFilePath. rewrite join_eq, Hc. cbn [filePrefix fileSuffix SandboxLogger.InitFileManager]. unfold own_prefix, SandboxLogger.LOG_FILE_PREFIX, SandboxLogger.LOG_FILE_SUFFIX.
  by rewrite <- !str_app_assoc.
Qed.

Lemma buffer_eq name i : GetPersistFilePath (config_ m) name i = DIR +:+ (".persist_sandbox_log" +:+ "_" +:+ name +:+ "_" +:+ to_string i).
Proof using Hc. unfold GetPersistFilePath. rewrite Hc. cbn [persistFile SandboxLogger.InitFileManager]. unfold SandboxLogger.PERSIST_FILE. by rewrite <- !str_app_assoc. Qed.

Lemma persist_eq : persist_path m = DIR +:+ (".persist_sandbox_log" +:+ "_" +:+ processName_ m +:+ "_" +:+ to_string (currentInstanceIndex_ m)).
Proof using Hc. apply buffer_eq. Qed.

Lemma own_file_head p : own_file p -> exists c s, p = DIR +:+ String c s /\ (c = "."%char \/ c = "p"%char).
Proof using Hc.
  intros [->|(k & _ & ->)]; [rewrite persist_eq | rewrite log_path_eq]; eexists _, _; (split; [reflexivity|]); auto.
Qed.

Lemma own_prefix_mmap k : 0 <= k -> GetMmapFilePathFrom m (own_prefix k) = persist_path m.
Proof using Hc Hdash Hinst.
  intros Hk. unfold GetMmapFilePathFrom, own_prefix. assert (is_digit "-" = false) as Hd by done.
  rewrite (SplitString_cons "-" "page_switch") by (by apply no_char_mem).
  rewrite (SplitString_cons "-" (processName_ m)) by done. rewrite (SplitString_cons "-" (to_string _)) by (apply to_string_no_char; [done | lia]).
  rewrite SplitString_one by (apply to_string_no_char; [done | lia]). rewrite TextToInt_to_string, (proj2 (Z.ltb_lt _ _)) by lia.
  by rewrite wrapu_small by lia.
Qed.

(** A buffer file that is not that of the process. *)
Lemma other_mmap prefix :
  GetMmapFilePathFrom m prefix <> persist_path m -> ~ own_file (GetMmapFilePathFrom m prefix) /\ ~ shares_buffer (GetMmapFilePathFrom m prefix).
Proof using Hc.
  intros Hne. split.
  - intros [?|(k & _ & E)]; [done|]. rewrite log_path_eq in E. revert E. unfold GetMmapFilePathFrom.
    destruct (SplitString prefix "-") as [|a [|b [|c0 [|d [|e r]]]]]; try discriminate. destruct (TextToInt c0) as [z|]; [|discriminate].
    rewrite buffer_eq. intros E. apply str_app_inj_l in E. discriminate E.
  - intros (pre & E & _ & Hm). rewrite join_eq in E. pose proof (SplitString_parts "-" prefix) as Hparts. revert E. unfold GetMmapFilePathFrom at 1.
    destruct (SplitString prefix "-") as [|a [|b [|c0 [|d [|e r]]]]]; try discriminate. destruct (TextToInt c0) as [z|]; [|discriminate].
    intros E. assert (no_char "-" pre) as Hpre.
    { rewrite buffer_eq in E. apply str_app_inj_l in E.
      assert (no_char "-" (pre +:+ fileSuffix (config_ m))) as Hn; [|by apply no_char_app_iff in Hn as [? _]].
      rewrite <- E. inversion Hparts as [|? ? _ Hp2]; subst. inversion Hp2 as [|? ? Hb _]; subst.
      repeat apply no_char_app; try done; try (by apply no_char_mem). apply to_string_no_char; [done|]. apply (wrapu_range 16 z ltac:(lia)). }
    unfold GetMmapFilePathFrom in Hm. rewrite SplitString_one in Hm by done. rewrite persist_eq in Hm. discriminate Hm.
Qed.

Lemma digits_last t : t <> "" -> str_forall is_digit t = true -> forall a, is_digit (str_last NUL (a +:+ t)) = true.
Proof using.
  intros Hne Ht. assert (exists u c, t = u +:+ String c "" /\ is_digit c = true) as (u & c & -> & Hd).
  { induction t as [|c t IH]; [done|]. cbn [str_forall] in Ht. apply andb_prop in Ht as [Hd Ht]. destruct t as [|d t].
    - by exists "", c.
    - destruct IH as (u & e & E & He); [done..|]. exists (String c u), e. by rewrite str_cons_app, <- E. }
  intros a. by rewrite str_app_assoc, str_last_app.
Qed.

Lemma other_log prefix :
  GetMmapFilePathFrom m prefix <> persist_path m ->
  let p := path_join (logDir (config_ m)) (prefix +:+ fileSuffix (config_ m)) in ~ own_file p /\ ~ shares_buffer p.
Proof using Hc Hdash Hinst.
  intros Hne p. unfold p. split.
  - rewrite join_eq. intros [E|(k & Hk & E)].
    + rewrite persist_eq in E. apply str_app_inj_l in E. apply (f_equal (fun s => is_digit (str_last NUL s))) in E.
      rewrite !str_app_assoc in E. rewrite (digits_last (to_string (currentInstanceIndex_ m))) in E.
      * rewrite Hc in E. cbn [fileSuffix SandboxLogger.InitFileManager] in E. change SandboxLogger.LOG_FILE_SUFFIX with (".lo" +:+ String "g" "")%string in E.
        rewrite str_app_assoc, str_last_app in E. discriminate E.
      * unfold to_string. destruct (Z.ltb_spec (currentInstanceIndex_ m) 0); [lia|].
        destruct (Num2Str_head 10 ltac:(lia) (currentInstanceIndex_ m) ltac:(lia)) as (d & u & _ & ->). done.
      * unfold to_string. destruct (Z.ltb_spec (currentInstanceIndex_ m) 0); [lia|]. apply Num2Str_digits.
    + rewrite log_path_eq, Hc in E. apply str_app_inj_l in E. change (fileSuffix SandboxLogger.InitFileManager) with ".log" in E.
      apply str_app_inj_r in E. subst prefix. apply Hne, own_prefix_mmap. lia.
  - intros (pre & E & _ & Hm). apply path_join_inj, str_app_inj_r in E. by subst pre.
Qed.

(** The files of the snapshots. *)
Lemma snapshot_path name :
  let p := path_join (snapshotLogDir (config_ m)) name in ~ own_file p /\ ~ shares_buffer p.
Proof using Hc.
  intros p. assert (p = DIR +:+ ("snapshot/" +:+ name)) as ->.
  { unfold p. rewrite Hc. change (path_join _ name) with ((DIR +:+ "snapshot") +:+ "/" +:+ name)%string. by rewrite <- !str_app_assoc. }
  split.
  - intros (c & s & E & Hs)%own_file_head. apply str_app_inj_l in E. injection E as <- _. by destruct Hs.
  - intros (pre & E & [_ Hp] & _). rewrite join_eq in E. apply str_app_inj_l in E. rewrite <- E in Hp. discriminate Hp.
Qed.

(** ** The manager goes on *)

Context (fd : nat) (Hfd : currentFd_ m = Some fd).
Abbreviation fr := (frame own_file shares_buffer fd).
Abbreviation does := (framed own_file shares_buffer fd).

Lemma file_frame w w' p : fr w w' -> own_file p -> file_of w' p = file_of w p.
Proof using.
  intros Hfr Hp. unfold file_of, inode_of. rewrite (fr_names _ _ _ _ _ Hfr p Hp). destruct (w_names w !! p) as [i|] eqn:E; [|done].
  cbn. by apply (fr_inodes _ _ _ _ _ Hfr p).
Qed.

Lemma running_frame w w' files pending : fr w w' -> fine fd w' -> running m w files pending -> running m w' files pending.
Proof using Hfd.
  intros Hfr (Hok' & Hf' & _) [Hok Hf Hcf Hd Hap [Hidx Hlen] Hfiles Hsz (fd' & n & Hfd' & Hfdn & Hn & Hl) Hold Hmap].
  rewrite Hfd in Hfd'. injection Hfd' as <-.
  assert (forall k, 1 <= k <= maxLogNum (config_ m) -> own_file (log_path m k)) as Hown by (intros k Hk; right; eauto).
  assert (own_file (persist_path m)) as Hown0 by by left. constructor; try done.
  - intros k. specialize (Hd k). unfold dir_exists in *. apply orb_true_iff in Hd as [Hd|Hd%bool_decide_eq_true]; [by rewrite Hd|].
    rewrite orb_true_iff. right. apply bool_decide_eq_true. by apply (fr_dirs _ _ _ _ _ Hfr).
  - intros k Hk. rewrite (file_frame w) by auto. auto.
  - exists fd, n. rewrite (fr_own _ _ _ _ _ Hfr), (fr_names _ _ _ _ _ Hfr), (file_frame w) by (done || (apply Hown; lia)). done.
  - intros k Hk. rewrite (file_frame w) by (done || (apply Hown; lia)). by apply Hold.
  - destruct Hmap as (i & n' & ? & ? & ? & Hp & Hi & ?). exists i, n'. rewrite (fr_names _ _ _ _ _ Hfr) by done.
    rewrite (fr_inodes _ _ _ _ _ Hfr (persist_path m) i) by done. done.
Qed.

Lemma alone_frame w w' : fr w w' -> alone w -> alone w'.
Proof using. intros Hfr Ha p Hp Hs. apply Ha; [done|]. by apply (fr_new _ _ _ _ _ Hfr). Qed.

Lemma running_fine w files pending : running m w files pending -> fine fd w.
Proof using Hfd.
  intros [Hok Hf _ _ _ _ _ _ (fd' & n & Hfd' & Hfdn & Hn & _) _ _]. rewrite Hfd in Hfd'. injection Hfd' as <-. split_and!; try done.
  destruct (w_names w !! log_path m (currentFileIndex_ m)) as [i|] eqn:E; [by apply (ok_fds w Hok) in Hfdn as [? _]|].
  apply (file_of_None w _ Hok) in E. congruence.
Qed.

Lemma framed_latest w prefix Q : (forall b, IsLatestLog m prefix w = (w, b) -> Q w b) -> does w (IsLatestLog m prefix) Q.
Proof using.
  intros HQ. assert (exists b, IsLatestLog m prefix w = (w, b)) as [b E]; [|eapply framed_read; [exact E | by apply HQ]].
  unfold IsLatestLog. destruct (split_last "-" prefix) as [[h t]|]; [|by eexists]. destruct (TextToInt t) as [z|]; [|by eexists].
  destruct (z =? _); [by eexists|]. destruct (_ || _); by eexists.
Qed.

(** The log of the process that is the latest is the one it has locked. *)
Lemma latest_own w files pending prefix k :
  running m w files pending -> 0 <= k -> path_join (logDir (config_ m)) (prefix +:+ fileSuffix (config_ m)) = log_path m k ->
  is_Some (w_names w !! log_path m k) -> IsLatestLog m prefix w = (w, true) -> k = currentFileIndex_ m.
Proof using Hc Hdash Hinst.
  intros Hr Hk E Hs Hlat. pose proof Hr as [Hok _ _ _ _ [Hidx Hlen] Hfiles _ _ _ _].
  assert (prefix = own_prefix k) as ->.
  { rewrite log_path_eq, join_eq in E. apply str_app_inj_l in E. rewrite Hc in E. change (fileSuffix SandboxLogger.InitFileManager) with ".log" in E.
    by apply str_app_inj_r in E. }
  assert (forall j, 1 <= j <= maxLogNum (config_ m) -> is_Some (w_names w !! log_path m j) <-> j <= Z.of_nat (length files)) as Hsome.
  { intros j Hj. rewrite <- file_of_names, <- (fmap_is_Some i_data), Hfiles, lookup_lt_is_Some by done. lia. }
  revert Hlat. unfold IsLatestLog, own_prefix. rewrite !str_app_assoc. rewrite <- (str_app_assoc _ "-").
  rewrite split_last_app by (apply to_string_no_char; [done | lia]).
  destruct (TextToInt (to_string k)) as [z|] eqn:Ez; [|done].
  assert (z = k) as ->.
  { rewrite TextToInt_to_string in Ez by lia. destruct (k <? 2 ^ 31); [by injection Ez | done]. }
  destruct (Z.eqb_spec k (maxLogNum (config_ m))) as [->|Hne]; [intros _; apply Hsome in Hs; lia|].
  destruct (Z.leb_spec k 0), (Z.ltb_spec (maxLogNum (config_ m)) k); try done. cbn [orb]. unfold fs_exists, mbind, sysM_bind. intros [= Hb].
  apply negb_true_iff, orb_false_iff in Hb as [Hb%bool_decide_eq_false _]. unfold inode_of in Hb.
  assert (is_Some (w_names w !! log_path m (k + 1)) -> False) as Hnone.
  { intros Hx. apply Hb. revert Hx. rewrite log_path_eq. unfold own_prefix. rewrite Hc. cbn [logDir fileSuffix SandboxLogger.InitFileManager].
    by rewrite !str_app_assoc. }
  rewrite Hsome in Hnone by lia. apply Hsome in Hs; lia.
Qed.

Lemma framed_flush_own w files pending :
  running m w files pending -> does w (FlushTempMmapToFile m (persist_path m) (log_path m (currentFileIndex_ m))) (fun _ _ => True).
Proof using Hfd.
  intros Hr. pose proof Hr as [Hok Hf [? ? ?] _ _ _ _ _ (fd' & n & _ & _ & Hn & Hl) _ (i & n' & _ & _ & _ & Hp & Hi & Hb)].
  unfold FlushTempMmapToFile. destruct (dir_exists w (persist_path m)) eqn:Ed.
  - destruct (Mmap_Initialize_existing new_mmap w (persist_path m) i n' (mmapSize (config_ m)) pending) as (mm & E & _); try done; [lia|].
    eapply framed_bind; [by eapply (framed_read _ _ _ _ _ _ (fun w' r => w' = w /\ r = (mm, true)))|]. intros w1 r Hw1 _ [-> ->]. cbn [negb].
    destruct (GetOffset mm =? 0); [by apply framed_ret|].
    destruct (w_names w !! log_path m (currentFileIndex_ m)) as [j|] eqn:Ej; [|unfold file_of, inode_of in Hn; by rewrite Ej in Hn].
    eapply (framed_bind _ _ _ _ _ _ (fun _ r => r = None)); [|intros w2 r _ _ ->; by apply framed_ret].
    intros Hw. rewrite (LockFile_held w _ j n fd'); try done; [|unfold file_of, inode_of in Hn; by rewrite Ej in Hn].
    destruct (frame_bump own_file shares_buffer fd w Hw). by split_and!.
  - eapply framed_bind; [eapply (framed_read _ _ _ _ _ _ (fun _ r => r.2 = false))|intros w1 [mm b] _ _ E; cbn in E; subst b; by apply framed_ret].
    + unfold Mmap_Initialize, IsParentDirExists, mbind, sysM_bind, sys. by rewrite Ed.
    + done.
Qed.

Lemma framed_flush_other w mp lp :
  ~ own_file mp -> ~ shares_buffer mp -> ~ own_file lp -> ~ shares_buffer lp -> does w (FlushTempMmapToFile m mp lp) (fun _ _ => True).
Proof using.
  intros H1 H2 H3 H4. unfold FlushTempMmapToFile. eapply framed_bind; [by apply framed_map|]. intros w1 [mm ok] _ _ Hm. cbn [fst] in Hm.
  destruct ok; cbn [negb]; [|by apply framed_ret]. destruct (GetOffset mm =? 0); [by apply framed_ret|].
  eapply framed_bind; [by apply framed_lock|]. intros w2 [lfd|] _ Hfr2 Hl; [|by apply framed_ret].
  destruct (Hl lfd eq_refl) as (Hne & i & Hi & Ho). assert (map_off own_file w2 mm) as Hm2 by by eapply map_off_frame.
  eapply (framed_bind _ _ _ _ _ _ (fun w' _ => w_fds w' !! lfd = Some i)).
  { intros Hw2. pose proof (framed_write own_file shares_buffer fd w2 lfd i mm Hi Ho Hw2) as Hx.
    destruct (write_mapped (Some lfd) mm w2) as [w3 b] eqn:E. destruct Hx as (? & ? & _). split_and!; try done.
    unfold write_mapped, mbind, sysM_bind, sys in E. rewrite (sys_write_spec w2 lfd i), sys_fsync_spec in E; [|by autorewrite with sandbox; apply Hw2|apply Hw2|done].
    injection E as <- _. by autorewrite with sandbox. }
  intros w3 r _ Hfr3 Hi3. eapply framed_bind; [eapply framed_close; [exact Hi3 | done | by eapply off_frame]|]. intros w4 _ _ Hfr4 _.
  eapply framed_bind; [apply framed_reset|by intros; apply framed_ret]. eapply map_off_frame; [exact Hfr4|]. by eapply map_off_frame.
Qed.

Lemma framed_snapshot_log w files pending eventTime formatedTime prefix :
  running m w files pending -> alone w -> plain (prefix +:+ fileSuffix (config_ m)) ->
  does w (snapshot_log m eventTime formatedTime prefix) (fun _ _ => True).
Proof using Hc Hdash Hinst Hfd.
  intros Hr Ha Hpl. unfold snapshot_log. set (lp := path_join (logDir (config_ m)) (prefix +:+ fileSuffix (config_ m))).
  eapply (framed_bind _ _ _ _ _ _ (fun w' t => w' = w /\ (is_Some t -> is_Some (w_names w !! lp)))).
  { eapply framed_read; [done|]. split; [done|]. unfold GetFileModifyTime. intros [t Ht]. apply fmap_Some in Ht as (x & Hx & _).
    apply fmap_Some in Hx as (n & Hn & _). unfold file_of, inode_of in Hn. by destruct (w_names w !! lp). }
  intros w0 [t|] _ _ [-> Hs]; [|by apply framed_ret]. specialize (Hs ltac:(done)). destruct (_ <? _); [by apply framed_ret|].
  eapply (framed_bind _ _ _ _ _ _ (fun w' b => w' = w /\ IsLatestLog m prefix w = (w, b))); [by apply framed_latest|].
  intros w0 latest _ _ [-> Hlat]. destruct (snapshot_path (prefix +:+ "-" +:+ formatedTime +:+ snapshotLogSuffix (config_ m))) as [Hn1 Hn2].
  eapply (framed_bind _ _ _ _ _ _ (fun _ _ => True)).
  - destruct latest; [|by apply framed_ret]. eapply framed_bind; [|by intros; apply framed_ret].
    destruct (decide (GetMmapFilePathFrom m prefix = persist_path m)) as [Em|Em].
    + destruct (Ha lp) as (k & Hk & Ek); [by exists prefix | done|]. rewrite Em.
      assert (k = currentFileIndex_ m) as -> by (eapply latest_own; try done; by rewrite <- Ek). rewrite Ek. by eapply framed_flush_own.
    + destruct (other_mmap prefix Em), (other_log prefix Em). by apply framed_flush_other.
  - intros w1 _ _ _ _. eapply framed_bind; [by apply framed_copy|]. intros; by apply framed_ret.
Qed.

(** ** The logs that are looked at *)

Context (order : list string -> list string) (std_sort : forall A, (A -> A -> bool) -> list A -> list A).
Context (Horder : forall l, order l ≡ₚ l) (Hsort : forall A (lt : A -> A -> bool) l, std_sort A lt l ≡ₚ l).

Definition named (f : LogFile) : Prop := plain (filename (lf_path f)).

Lemma framed_log_files w : does w (GetLogFiles order m) (fun _ files => Forall named files).
Proof using Hc Horder.
  unfold GetLogFiles. eapply (framed_bind _ _ _ _ _ _ (fun _ names => Forall plain names)).
  { eapply framed_read; [done|]. change (omap _ _) with (dir_files w (logDir (config_ m))). rewrite Horder. apply Forall_forall.
    by intros name [_ ?]%elem_of_dir_files. }
  intros w1 names _ _ Hn. apply framed_for_each; [by constructor|]. intros name files w2 Hin Hfiles _ _.
  eapply (framed_bind _ _ _ _ _ _ (fun _ f => Forall named (option_list f))); [|intros; apply framed_ret; by apply Forall_app].
  rewrite Forall_forall in Hn. pose proof (Hn name Hin) as [Hne Hsl]. unfold parse_log_file.
  destruct (SplitString name "-") as [|a [|b [|c0 [|d [|e r]]]]]; try (by apply framed_ret; constructor).
  eapply (framed_bind _ _ _ _ _ _ (fun _ _ => True)); [by eapply framed_read|]. intros w3 t _ _ _. apply framed_ret.
  destruct t as [t|]; [|by constructor]. cbn [mbind option_bind]. destruct (TextToInt c0); [|by constructor]. cbn. constructor; [|done].
  unfold named. cbn [lf_path]. rewrite join_eq, <- str_app_assoc, filename_app by by apply no_char_mem. by split.
Qed.

Lemma map_update_Forall {K V} (lt : K -> K -> bool) (Q : V -> Prop) k f l :
  (forall o, (forall v, o = Some v -> Q v) -> Q (f o)) -> Forall (fun kv => Q kv.2) l -> Forall (fun kv => Q kv.2) (map_update lt k f l).
Proof using.
  intros Hf Hl. induction Hl as [|[k' v] l Hv Hl IH]; cbn [map_update]; [constructor; [by apply Hf | done]|].
  destruct (lt k k'); [constructor; [by apply Hf | by constructor]|]. destruct (lt k' k); constructor; try done. apply Hf. by intros ? [= <-].
Qed.

Lemma group_by_Forall {A} (Q : A -> Prop) (key : A -> string) l : Forall Q l -> Forall (fun g => Forall Q g.2) (group_by key l).
Proof using.
  unfold group_by. intros Hl. assert (Forall (fun g : string * list A => Forall Q g.2) []) as H0 by constructor. revert H0.
  generalize (@nil (string * list A)). induction Hl as [|x l Hx Hl IH]; intros acc Ha; [done|]. cbn [foldl]. apply IH.
  apply (map_update_Forall String.ltb (Forall Q)); [|done]. intros [v|] Hv; cbn; [apply Forall_app; split; [by apply Hv | by constructor] | by constructor].
Qed.

Lemma framed_any_locked w l : does w (any_locked l) (fun _ _ => True).
Proof using.
  revert w. induction l as [|p l IH]; intros w; cbn [any_locked]; [by apply framed_ret|]. eapply framed_bind; [apply framed_probe|].
  intros w1 [] _ _ _; [by apply framed_ret | apply IH].
Qed.

Lemma framed_log_names w unlocked : does w (GetPageSwitchLogNames order std_sort m unlocked) (fun _ names => Forall plain names).
Proof using Hc Horder Hsort Hslash.
  unfold GetPageSwitchLogNames. eapply framed_bind; [apply framed_log_files|]. intros w1 files _ _ Hf. destruct unlocked.
  2:{ apply framed_ret. by apply Forall_fmap. }
  eapply (framed_bind _ _ _ _ _ _ (fun _ names => Forall plain names)).
  - apply framed_for_each; [by constructor|]. intros g names w2 Hg Hn _ _. eapply framed_bind; [apply framed_any_locked|]. intros w3 b _ _ _.
    apply framed_ret. destruct b; [done|]. apply Forall_app. split; [done|]. apply Forall_fmap.
    pose proof (group_by_Forall named file_key files Hf) as Hgs. rewrite Forall_forall in Hgs. by rewrite Hsort; apply Hgs.
  - intros w2 names _ _ Hn. destruct (initialized_ m); [|by apply framed_ret]. apply framed_for_each; [done|]. intros k names' w3 _ Hn' _ _.
    eapply (framed_bind _ _ _ _ _ _ (fun _ _ => True)); [by eapply framed_read|]. intros w4 b _ _ _. apply framed_ret.
    destruct (_ && _); [|done]. apply Forall_app. split; [done|]. constructor; [|done]. rewrite log_path_eq, <- str_app_assoc, filename_app; [split; [done|]|].
    + apply not_true_iff_false. rewrite str_mem_spec. intros Hx. apply Hx. clear Hx. unfold own_prefix.
      repeat apply no_char_app; try done; try (by apply no_char_mem); apply to_string_no_slash.
    + unfold own_prefix. repeat apply no_char_app; try done; try (by apply no_char_mem); apply to_string_no_slash.
Qed.

Context (localtime_r : Z -> option tm) (mktime : list Z -> option Z) (print : list string -> option string).

Lemma framed_aged_out w : does w (AgedOutSnapshots order std_sort mktime m) (fun _ _ => True).
Proof using Hc Hsort.
  unfold AgedOutSnapshots. eapply (framed_bind _ _ _ _ _ _ (fun _ files => Forall (fun f => exists name, sf_path f = path_join (snapshotLogDir (config_ m)) name) files)).
  { eapply framed_read; [done|]. apply Forall_forall. intros f (name & _ & Hp)%list_elem_of_omap. revert Hp. unfold parse_snapshot.
    destruct (SplitString name "-") as [|a [|b [|c0 [|d [|e [|e' r]]]]]]; try done. destruct (TextToInt c0); [|done]. destruct (TextToInt d); [|done].
    cbn [mbind option_bind]. destruct (before_char "." e); [|done]. intros [= <-]. by exists name. }
  intros w1 files _ _ Hf. destruct (_ <=? _); [by apply framed_ret|]. eapply framed_mono; [apply (framed_for_each _ _ _ (fun _ => True)); [done|]|done].
  intros f [] w2 Hin _ _ _. eapply framed_bind; [apply framed_remove|by intros; apply framed_ret].
  rewrite <- (Hsort _ SnapshotFile_lt) in Hf. rewrite Forall_forall in Hf.
  destruct (Hf f) as [name ->]; [by eapply subseteq_take, Hin | apply snapshot_path].
Qed.

(** A snapshot leaves the manager as it is. *)
Lemma CreateSnapshot_running w files pending eventTime enablePackAll :
  running m w files pending -> alone w ->
  let '(w', _) := CreateSnapshot order std_sort localtime_r mktime print m eventTime enablePackAll w in
  running m w' files pending /\ alone w'.
Proof using Hc Hdash Hinst Hfd Horder Hsort Hslash.
  intros Hr Ha. pose proof (running_fine w files pending Hr) as Hw.
  assert (does w (CreateSnapshot order std_sort localtime_r mktime print m eventTime enablePackAll) (fun _ _ => True)) as Hd.
  { assert (forall w', fr w w' -> fine fd w' -> running m w' files pending /\ alone w') as Hgo
      by (intros w' H1 H2; split; [by eapply running_frame | by eapply alone_frame]).
    unfold CreateSnapshot. eapply (framed_bind _ _ _ _ _ _ (fun _ _ => True)); [by eapply framed_read|]. intros w1 there _ F1 _.
    eapply (framed_bind _ _ _ _ _ _ (fun _ _ => True)); [destruct there; [by apply framed_ret | apply framed_mkdir]|]. intros w2 made _ F2 _.
    destruct made; cbn [negb]; [|by apply framed_ret]. destruct (bool_decide _); [by apply framed_ret|].
    eapply framed_bind; [apply framed_log_names|]. intros w3 names Hw3 F3 Hn.
    eapply (framed_bind _ _ _ _ _ _ (fun _ _ => True)).
    - apply framed_for_each; [done|]. intros prefix paths w4 Hin _ Hw4 F4. eapply framed_bind; [|intros; by apply framed_ret].
      destruct (Hgo w4) as [Hr4 Ha4]; [do 3 (etrans; [eassumption|]); done | done|]. eapply framed_snapshot_log; [done..|].
      apply list_elem_of_omap in Hin as (name & Hname & Hs%strip_suffix_app). rewrite Forall_forall in Hn. rewrite <- Hs. by apply Hn.
    - intros w4 paths _ _ _. eapply framed_bind; [apply framed_aged_out|]. intros; by apply framed_ret. }
  specialize (Hd Hw). destruct (CreateSnapshot _ _ _ _ _ _ _ _ w) as [w' r]. destruct Hd as (H1 & H2 & _).
  split; [by eapply running_frame | by eapply alone_frame].
Qed.
End page.

(** ** Lines and flushes *)

Section adds.
Context (m : manager).

(** The only names that appear are those of the logs of the process. *)
Definition adds (w w' : world) : Prop :=
  forall p, is_Some (w_names w' !! p) -> is_Some (w_names w !! p) \/ exists k, 0 <= k /\ p = log_path m k.

#[local] Instance adds_po : PreOrder adds.
Proof using. split; [by intros w p; left|]. intros w1 w2 w3 H1 H2 p [Hp|Hp]%H2; [by apply H1 | by right]. Qed.

Lemma adds_names w w' : w_names w' = w_names w -> adds w w'.
Proof using. intros E p. rewrite E. by left. Qed.

Lemma adds_log w w' k i : 0 <= k -> w_names w' = <[log_path m k := i]> (w_names w) -> adds w w'.
Proof using.
  intros Hk E p. rewrite E. destruct (decide (p = log_path m k)) as [->|Hne]; [right; eauto|]. rewrite lookup_insert_ne by congruence. by left.
Qed.

Lemma UnlockAndCloseFd_names fd w : w_names (UnlockAndCloseFd fd w).1 = w_names w.
Proof using.
  destruct fd as [fd|]; [|done]. unfold UnlockAndCloseFd, sys_unlock, sys_close, mbind, sysM_bind.
  destruct (w_fds w !! fd) as [i|] eqn:E; [rewrite upd_inode_fds, E | rewrite E]; cbn; by autorewrite with sandbox.
Qed.

Lemma next_outcome_names w : w_names (next_outcome w).1 = w_names w.
Proof using. unfold next_outcome. by destruct (w_outcomes w). Qed.

Lemma LockFile_adds w k : 0 <= k -> adds w (LockFile (log_path m k) w).1.
Proof using.
  intros Hk. unfold LockFile, sys_open, mbind, sysM_bind. pose proof (next_outcome_names w) as E0. destruct (next_outcome w) as [w0 o]. cbn [fst] in E0.
  destruct (failed o); [by apply adds_names|].
  assert (forall i w1, w_names (let '(w2, locked) := sys_lock i w1 in
    (if locked : bool then mret (Some i) else sys_close i;; mret None) w2).1 = w_names w1) as Hl.
  { intros i w1. unfold sys_lock. destruct (w_fds w1 !! i) as [j|] eqn:Ej.
    - destruct (w_inodes w1 !! j ≫= i_lock); [|cbn; by autorewrite with sandbox]. destruct (bool_decide _); [done|].
      unfold mbind, sysM_bind, sys_close. rewrite Ej. cbn. by autorewrite with sandbox.
    - unfold mbind, sysM_bind, sys_close. by rewrite Ej. }
  unfold inode_of. destruct (w_names w0 !! _) as [i|] eqn:Ei.
  - apply adds_names. cbv beta iota zeta delta [new_fd mret sysM_ret mbind sysM_bind]. etransitivity; [apply (Hl (w_next w0))|]. done.
  - destruct (_ && _); [|by apply adds_names]. apply (adds_log _ _ k (w_next w0) Hk). rewrite <- E0.
    etransitivity; [apply (Hl (S (w_next w0)))|]. done.
Qed.

Lemma fs_rename_adds p k w : 0 <= k -> adds w (fs_rename p (log_path m k) w).1.
Proof using.
  intros Hk. unfold fs_rename, mbind, sysM_bind, sys. pose proof (next_outcome_names w) as E0. destruct (next_outcome w) as [w0 o]. cbn [fst] in E0.
  unfold inode_of. destruct (w_names w0 !! p) as [i|]; [|by apply adds_names]. destruct (failed o); [by apply adds_names|].
  intros q. cbn. destruct (decide (q = log_path m k)) as [->|Hne]; [right; eauto|]. rewrite lookup_insert_ne by congruence.
  intros [x [_ Hx]%lookup_delete_Some]. left. rewrite <- E0. by rewrite Hx.
Qed.

Lemma adds_bind {A B} w (c : sysM A) (f : A -> sysM B) :
  adds w (c w).1 -> (forall w1, adds w1 (f (c w).2 w1).1) -> adds w ((c ≫= f) w).1.
Proof using. intros Hc Hf. unfold mbind, sysM_bind. destruct (c w) as [w1 a]. etrans; [exact Hc | apply Hf]. Qed.

Lemma poke_adds i pos t w : adds w (poke i pos t w).1.
Proof using. apply adds_names. unfold poke, sys. cbn. by autorewrite with sandbox. Qed.

Lemma UpdateMetadata_adds mm w : adds w (UpdateMetadata mm w).1.
Proof using. unfold UpdateMetadata. destruct (mmapPtr_ mm); [apply poke_adds | by apply adds_names]. Qed.

Lemma Reset_adds mm w : adds w (Reset mm w).1.
Proof using.
  unfold Reset. destruct (mmapPtr_ mm); [|by apply adds_names]. destruct (_ =? 0); [by apply adds_names|].
  apply adds_bind; [apply poke_adds|]. intros w1. apply adds_bind; [apply UpdateMetadata_adds|]. intros w2. by apply adds_names.
Qed.

Lemma Mmap_Write_adds mm log w : adds w (Mmap_Write mm log w).1.
Proof using.
  unfold Mmap_Write. destruct (mmapPtr_ mm); [|by apply adds_names]. destruct (_ <? _); [by apply adds_names|]. destruct (negb _); [by apply adds_names|].
  apply adds_bind; [apply poke_adds|]. intros w1. apply adds_bind; [apply UpdateMetadata_adds|]. intros w2. by apply adds_names.
Qed.

Lemma write_mapped_adds fd mm w : adds w (write_mapped fd mm w).1.
Proof using.
  unfold write_mapped. apply adds_bind; [by apply adds_names|]. intros w1. apply adds_bind.
  - apply adds_names. unfold sys_write, mbind, sysM_bind, sys. pose proof (next_outcome_names w1) as E0. destruct (next_outcome w1) as [w0 o]. cbn [fst] in E0.
    destruct (option_bind nat nat _ fd) as [i|]; [|exact E0]. destruct (failed o); [exact E0|]. cbn. autorewrite with sandbox. exact E0.
  - intros w2. destruct (_.2); [|by apply adds_names]. apply adds_bind; [apply adds_names, next_outcome_names | intros w3; by apply adds_names].
Qed.

Lemma OpenCurrentLogFile_adds m' w : same_log m m' -> 0 <= currentFileIndex_ m' -> adds w (OpenCurrentLogFile m' w).1.
Proof using.
  intros (H1 & H2 & H3) Hk. unfold OpenCurrentLogFile.
  assert (exists m1, (CloseCurrentFile m' w).2 = m1 /\ same_log m m1 /\ currentFileIndex_ m1 = currentFileIndex_ m') as (m1 & E & (G1 & G2 & G3) & Ek).
  { unfold CloseCurrentFile. destruct (currentFd_ m') as [fd|]; [|by exists m']. unfold mbind, sysM_bind. destruct (UnlockAndCloseFd _ w). by exists (set_fd m' None). }
  apply adds_bind.
  - apply adds_names. unfold CloseCurrentFile. destruct (currentFd_ m') as [fd|]; [|done]. unfold mbind, sysM_bind.
    pose proof (UnlockAndCloseFd_names (Some fd) w) as En. by destruct (UnlockAndCloseFd (Some fd) w).
  - intros w1. rewrite E. apply adds_bind; [|intros w2; by apply adds_names].
    assert (GetLogFilePath m1 (currentInstanceIndex_ m1) (currentFileIndex_ m1) = log_path m (currentFileIndex_ m')) as ->
      by (unfold GetLogFilePath; by rewrite G1, G2, G3, Ek). by apply LockFile_adds.
Qed.

Lemma RotateFiles_adds w : 0 <= currentFileIndex_ m -> adds w (RotateFiles m w).1.
Proof using.
  intros Hk. unfold RotateFiles. apply adds_bind; [by apply adds_names|]. intros w1. destruct (_.2); [|by apply adds_names].
  destruct (_ <? _); [by apply adds_names|]. destruct (_ <? _).
  - apply OpenCurrentLogFile_adds; [done|]. cbn. apply (wrapu_range 16). lia.
  - apply adds_bind; [|intros w2; by apply OpenCurrentLogFile_adds]. unfold shift_files. generalize (seq 1 (Z.to_nat (maxLogNum (config_ m) - 1))).
    intros l. revert w1. induction l as [|i l IH]; intros w1; [by apply adds_names|]. cbn [fmap list_fmap for_each]. apply adds_bind; [|intros w2; destruct (_.2); apply IH].
    apply adds_bind; [apply fs_rename_adds; lia | intros w2; by apply adds_names].
Qed.

Lemma page_op_adds op w : 0 <= currentFileIndex_ m -> adds w (page_op op m w).1.
Proof using.
  intros Hk. assert (forall w, adds w (FlushMmapToFile m w).1) as Hflush.
  { intros w1. unfold FlushMmapToFile. apply adds_bind; [by apply RotateFiles_adds|]. intros w2. destruct (RotateFiles m w1).2 as [m1 []]; cbn [negb]; [|by apply adds_names].
    destruct (mmapPtr_ _); [|by apply adds_names]. destruct (_ =? 0); [by apply adds_names|]. apply adds_bind; [apply write_mapped_adds|].
    intros w3. apply adds_bind; [apply Reset_adds|]. intros w4. by apply adds_names. }
  destruct op as [log|]; cbn [page_op].
  - unfold WriteLog. apply adds_bind.
    + destruct (_ <? _); [|by apply adds_names]. apply adds_bind; [apply Hflush|]. intros w1. destruct (FlushMmapToFile m w).2. by apply adds_names.
    + intros w1. apply adds_bind; [apply Mmap_Write_adds|]. intros w2. by apply adds_names.
  - apply adds_bind; [|intros w1; destruct (_.2); by apply adds_names]. unfold Flush. destruct (_ =? 0); [by apply adds_names | apply Hflush].
Qed.
End adds.

(** ** What is kept, whatever is called *)

Lemma same_log_paths m m' k : same_log m m' -> log_path m' k = log_path m k /\ persist_path m' = persist_path m.
Proof. intros (E1 & E2 & E3). unfold GetLogFilePath. by rewrite E1, E2, E3. Qed.

Lemma alone_same m m' w w' : same_log m m' -> adds m w w' -> alone m w -> alone m' w'.
Proof.
  intros Hs Hadd Ha p (prefix & -> & Hp & Hm) [Hw|(k & Hk & E)]%Hadd.
  - destruct (Ha (path_join (logDir (config_ m')) (prefix +:+ fileSuffix (config_ m')))) as (k & Hk & E); [|done|].
    + exists prefix. destruct (same_log_paths m m' 0 Hs) as [_ Ep]. destruct Hs as (E1 & _). rewrite E1 in *. split_and!; try done.
      rewrite <- Ep, <- Hm. unfold GetMmapFilePathFrom. by rewrite E1.
    + exists k. by rewrite (proj1 (same_log_paths m m' k Hs)).
  - exists k. by rewrite (proj1 (same_log_paths m m' k Hs)).
Qed.

Lemma replace_chars_no c f s : (forall d, f d <> c) -> no_char c (replace_chars f s).
Proof. intros Hf. induction s as [|d s IH]; cbn [replace_chars]; [apply not_elem_of_nil|]. apply no_char_cons. by split; [apply not_eq_sym|]. Qed.

(** A manager that writes the page switch log of an application. *)
Record page_manager (m : manager) : Prop := {
  pm_config : config_ m = SandboxLogger.InitFileManager;
  pm_name : exists program, processName_ m = GetFormatedProcessName program;
  pm_instance : 1 <= currentInstanceIndex_ m <= MAX_INSTANCE_COUNT;
}.

Lemma page_manager_same m m' : same_log m m' -> page_manager m -> page_manager m'.
Proof. intros (E1 & E2 & E3) [H1 [pr H2] H3]. split; [congruence | exists pr; congruence | by rewrite E2]. Qed.

Lemma page_name_no c m : page_manager m -> str_mem c ":/-" = true -> no_char c (processName_ m).
Proof.
  intros [_ [pr ->] _] Hc. unfold GetFormatedProcessName. apply replace_chars_no. intros d. destruct (str_mem d ":/-") eqn:E; [|congruence].
  intros <-. discriminate Hc.
Qed.

(** What the manager holds, with its log to itself. *)
Definition keeps (all : string) (m : manager) (w : world) : Prop := holds all m w /\ alone m w /\ page_manager m.

Lemma keeps_op all op m w :
  keeps all m w -> op_fits (config_ m) op ->
  exists m' w', page_op op m w = (w', m') /\ keeps (all +:+ default "" op) m' w' /\ same_log m m'.
Proof.
  intros (Hh & Ha & Hm) Hop. destruct (holds_op all op m w Hh Hop) as (m' & w' & E & Hh' & Hs). exists m', w'. split; [done|]. split; [|done].
  split; [done|]. split; [|by eapply page_manager_same]. destruct Hh as (files & pending & Hr & _). destruct (rn_index _ _ _ _ Hr) as [Hidx _].
  pose proof (page_op_adds m op w ltac:(lia)) as Hadd. rewrite E in Hadd. by eapply alone_same.
Qed.

Lemma keeps_call all call m w m' w' : keeps all m w -> SandboxLogger.page_call call -> call m w = (w', m') -> keeps all m' w' /\ m' = m.
Proof.
  intros ((files & pending & Hr & Hfull & Hl) & Ha & Hm) [order std_sort localtime_r mktime print eventTime pack Ho Hs].
  destruct (rn_fd _ _ _ _ Hr) as (fd & n & Hfd & _). pose proof Hm as [Hc _ Hi]. unfold MAX_INSTANCE_COUNT in Hi.
  pose proof (CreateSnapshot_running m Hc (page_name_no "/" m Hm eq_refl) (page_name_no "-" m Hm eq_refl) ltac:(lia) fd Hfd order std_sort Ho Hs
    localtime_r mktime print w files pending eventTime pack Hr Ha) as H.
  unfold mbind, sysM_bind. destruct (CreateSnapshot _ _ _ _ _ _ _ _ w) as [w1 r]. destruct H as [Hr' Ha']. intros [= <- <-]. split; [|done].
  split; [|by split]. by exists files, pending.
Qed.
