(* ===== verification/LoggersProps.v ===== *)
(** * What the loggers deliver

    The queue of a logger hands its lines to the file manager in order and
    loses none, whatever the threads do; a logger that is destroyed writes all
    of them first; and what the page switch log delivers is what its files and
    its buffer hold. *)

From S2P Require Import Prelude Common Utils LogPrint SandboxFs SandboxLogger LogFileManager LogQueue SandboxFsProps LogFileManagerProps SnapshotProps.
From Stdlib Require Import Ascii.

Section queue.
Context {M : Type} `{FileManager M}.
Implicit Types (q : queue M) (s : queue M * world).

Definition in_flight q : list string := match worker_ q with Writing log => [log] | _ => [] end.

(** The turns the worker has left once the logger is stopped. *)
Definition turns q : nat :=
  match worker_ q with
  | Waiting => 2 * length (tasks_ q) + 1
  | Writing _ => 2 * length (tasks_ q) + 2
  | Exited => 0
  end.

Definition worked (es : list event) : nat := length (filter (fun e => e = Worked) es).

Definition exited_empty q : Prop := worker_ q = Exited -> tasks_ q = [] /\ stop_ q = true.

Lemma worked_one e : worked [e] = match e with Worked => 1%nat | _ => 0%nat end.
Proof. by destruct e. Qed.

Lemma step_stopped s e s' :
  step s e s' -> stop_ s.1 = true -> stop_ s'.1 = true /\ (turns s'.1 + worked [e] = turns s.1)%nat.
Proof.
  destruct 1 as [q w log Hs | q w q' w' ok E | q w call m' w' Hcall E | q w | q w q' w' E]; cbn [fst snd]; intros Hst; rewrite ?worked_one.
  - congruence.
  - unfold FlushLog, mbind, sysM_bind in E. destruct (fm_Flush (files_ q) w) as [w1 [m1 b1]]. injection E as <- <- <-. cbn. split; [done|]. unfold turns. cbn. lia.
  - split; [done|]. unfold turns. cbn. lia.
  - split; [done|]. unfold turns. cbn. lia.
  - unfold ProcessQueue in E. unfold turns. destruct (worker_ q) as [|log|] eqn:Ew; [| |done].
    + rewrite Hst in E. destruct (tasks_ q) as [|log tasks]; injection E as <- <-; cbn; split; done || lia.
    + unfold mbind, sysM_bind in E. destruct (fm_WriteLog log (files_ q) w) as [w1 m1]. injection E as <- <-. cbn. split; [done | lia].
Qed.

Lemma worked_cons e es : worked (e :: es) = (worked [e] + worked es)%nat.
Proof. unfold worked. rewrite !filter_cons. by case_decide. Qed.

Lemma steps_stopped s es s' :
  steps s es s' -> stop_ s.1 = true -> stop_ s'.1 = true /\ (turns s'.1 + worked es = turns s.1)%nat.
Proof.
  induction 1 as [s | s e s1 es s2 H1 H2 IH]; intros Hst; [split; [done | cbn; lia]|].
  destruct (step_stopped _ _ _ H1 Hst) as [Hst1 E1]. destruct (IH Hst1) as [Hst2 E2]. rewrite worked_cons. split; [done | lia].
Qed.

Lemma step_exited s e s' : step s e s' -> exited_empty s.1 -> exited_empty s'.1.
Proof.
  destruct 1 as [q w log Hs | q w q' w' ok E | q w call m' w' Hcall E | q w | q w q' w' E]; cbn [fst snd]; unfold exited_empty; intros Hx.
  - cbn. intros [_ ?]%Hx. congruence.
  - unfold FlushLog, mbind, sysM_bind in E. destruct (fm_Flush (files_ q) w) as [w1 [m1 b1]]. by injection E as <- <- <-.
  - done.
  - cbn. by intros [? _]%Hx.
  - unfold ProcessQueue in E. destruct (worker_ q) as [|log|] eqn:Ew; [| |done].
    + destruct (tasks_ q) as [|log tasks]; [destruct (stop_ q) eqn:Es|]; [|done|]; by injection E as <- <-.
    + unfold mbind, sysM_bind in E. destruct (fm_WriteLog log (files_ q) w) as [w1 m1]. by injection E as <- <-.
Qed.

Lemma steps_exited s es s' : steps s es s' -> exited_empty s.1 -> exited_empty s'.1.
Proof. induction 1; [done|]. eauto using step_exited. Qed.

(** Once a logger is stopped its worker comes to an end: it always has a
    turn to take until it has exited, every turn brings it closer, whatever
    other threads do in between, and then no line is left in the queue. *)
Theorem worker_drains q w es q' w' :
  steps (q, w) es (q', w') -> stop_ q = true -> exited_empty q ->
  (turns q' + worked es = turns q)%nat /\
  (worker_ q' = Exited -> tasks_ q' = []) /\
  (worker_ q' <> Exited -> exists q'' w'', step (q', w') Worked (q'', w'')) /\
  ((turns q <= worked es)%nat -> worker_ q' = Exited).
Proof.
  intros Hs Hst Hx. destruct (steps_stopped _ _ _ Hs Hst) as [Hst' Ht]. pose proof (steps_exited _ _ _ Hs Hx) as Hx'. cbn [fst] in *.
  split; [done|]. split; [by intros [? _]%Hx'|]. split.
  - intros Hne. destruct (ProcessQueue q' w') as [w'' [q''|]] eqn:E; [exists q'', w''; by constructor|].
    unfold ProcessQueue in E. rewrite Hst' in E. destruct (worker_ q') as [|log|]; [by destruct (tasks_ q')| |done].
    unfold mbind, sysM_bind in E. by destruct (fm_WriteLog log (files_ q') w').
  - intros Hle. assert (turns q' = 0%nat) as E by lia. unfold turns in E. by destruct (worker_ q'); [lia..|].
Qed.
End queue.

(** ** The page switch log *)

(** A line of the page switch log: at most 1024 bytes of a message after the
    time and the ids, ended by a line break. *)
Definition page_line (line : string) : Prop :=
  exists getpid gettid t ms prefix msg, SandboxLogger.line_prefix getpid gettid t ms = Some prefix /\
    line = end_line (prefix +:+ str_take (Z.to_nat SandboxLogger.MAX_LOG_LEN) msg).

Lemma page_line_fits line : page_line line -> slen line <= SandboxLogger.SANDBOX_LOG_MMAP_SIZE.
Proof.
  intros (pid & tid & t & ms & prefix & msg & Hp & ->). unfold SandboxLogger.line_prefix in Hp. cbv zeta in Hp.
  match type of Hp with (if 63 <? slen ?p then _ else _) = _ => destruct (Z.ltb_spec 63 (slen p)) as [|Hlen]; [done|] end.
  injection Hp as <-. unfold end_line, SandboxLogger.SANDBOX_LOG_MMAP_SIZE.
  destruct (bool_decide _); rewrite ?slen_app in *; rewrite slen_take; change (slen endl) with 1; unfold SandboxLogger.MAX_LOG_LEN; lia.
Qed.

(** A message is queued as a line exactly when the caller is told so. *)
Lemma WriteLog_line localtime_r getpid gettid str l w w' l' r :
  SandboxLogger.WriteLog localtime_r getpid gettid str l w = (w', (l', r)) ->
  w' = w /\ (r = SandboxLogger.SUCCESS /\ SandboxLogger.loggable_ l = true /\
     (exists line, page_line line /\ l' = SandboxLogger.set_queue l (AsyncWriteLog line (SandboxLogger.queue_ l))) \/
   r <> SandboxLogger.SUCCESS /\ l' = l).
Proof.
  unfold SandboxLogger.WriteLog. destruct (SandboxLogger.loggable_ l) eqn:El; cbn [negb]; [|intros [= <- <- <-]; split; [done|by right]].
  unfold SandboxLogger.DoWriteLog, mbind, sysM_bind, sys. destruct (localtime_r _) as [t|]; [|intros [= <- <- <-]; split; [done|by right]].
  destruct (SandboxLogger.line_prefix getpid gettid t _) as [prefix|] eqn:Ep; intros [= <- <- <-]; (split; [done|]); [left|by right].
  split_and!; try done. eexists. split; [|done]. by repeat eexists.
Qed.

Abbreviation text := (foldr String.append "").

(** The lines on their way to the file manager. *)
Definition waiting (q : queue manager) : list string := in_flight q ++ tasks_ q.

(** What the manager holds and what is on its way, for a log that [all] was
    put into. *)
Definition delivers (m : manager) (all : string) (s : queue manager * world) : Prop :=
  exists done, keeps done (files_ s.1) s.2 /\ same_log m (files_ s.1) /\ all = done +:+ text (waiting s.1) /\ Forall page_line (waiting s.1).

Lemma same_log_trans m1 m2 m3 : same_log m1 m2 -> same_log m2 m3 -> same_log m1 m3.
Proof. intros (? & ? & ?) (? & ? & ?). split_and!; congruence. Qed.

Lemma step_delivers m all s e s' :
  step s e s' -> Forall page_line (pushed [e]) -> delivers m all s -> delivers m (all +:+ text (pushed [e])) s'.
Proof.
  intros Hstep Hline (done & Hk & Hs & -> & Hw). pose proof Hk as (_ & _ & Hm).
  assert (forall op, from_option page_line True op -> op_fits (config_ (files_ s.1)) op) as Hfit.
  { intros [line|]; [|done]. rewrite (pm_config _ Hm). apply page_line_fits. }
  destruct Hstep as [q w log Hst | q w q' w' ok E | q w call m' w' Hcall E | q w | q w q' w' E]; cbn [fst snd] in *.
  - assert (waiting (AsyncWriteLog log q) = waiting q ++ pushed [Pushed log]) as Ew by exact (app_assoc (in_flight q) (tasks_ q) [log]).
    exists done. cbn [fst snd]. rewrite Ew, files_text_app, str_app_assoc. split_and!; try done. by apply Forall_app.
  - destruct (keeps_op done None _ _ Hk (Hfit None I)) as (m' & w1 & E' & Hk' & Hs'). cbn [default from_option id] in Hk'.
    rewrite str_app_nil_r in *. unfold page_op, mbind, sysM_bind in E'. unfold FlushLog, mbind, sysM_bind in E. cbn [fm_Flush page_files] in E.
    destruct (LogFileManager.Flush (files_ q) w) as [w2 [m2 b2]]. injection E' as <- <-. injection E as <- <- <-.
    exists done. split_and!; try done. by eapply same_log_trans.
  - destruct (keeps_call done call _ w m' w' Hk Hcall E) as [Hk' ->]. rewrite str_app_nil_r. by exists done.
  - rewrite str_app_nil_r. by exists done.
  - rewrite str_app_nil_r. unfold ProcessQueue in E. unfold delivers, waiting, in_flight in *. cbn [fst snd]. destruct (worker_ q) as [|log|] eqn:Ew; [| |done].
    + exists done. destruct (tasks_ q) as [|log tasks] eqn:Et; [destruct (stop_ q)|]; [|done|]; injection E as <- <-; cbn; by split_and!.
    + apply Forall_cons_1 in Hw as [Hlog Hw]. destruct (keeps_op done (Some log) _ _ Hk (Hfit (Some log) Hlog)) as (m' & w1 & E' & Hk' & Hs').
      unfold mbind, sysM_bind in E. change (fm_WriteLog log (files_ q) w) with (page_op (Some log) (files_ q) w) in E. rewrite E' in E. injection E as <- <-.
      exists (done +:+ log). cbn in *. split_and!; try done; [by eapply same_log_trans | by rewrite str_app_assoc].
Qed.

Lemma steps_delivers m all s es s' :
  steps s es s' -> Forall page_line (pushed es) -> delivers m all s -> delivers m (all +:+ text (pushed es)) s'.
Proof.
  intros H. revert all. induction H as [s | s e s1 es s2 H1 H2 IH]; intros all Hl Hd; [cbn; by rewrite str_app_nil_r|].
  assert (pushed (e :: es) = pushed [e] ++ pushed es) as E by by destruct e. rewrite E in *. apply Forall_app in Hl as [Hl1 Hl2].
  rewrite files_text_app, str_app_assoc. apply IH; [done|]. by eapply step_delivers.
Qed.

(** C22: whatever the threads do, snapshots included, when the logger of the
    page switch log has been destroyed, with no call of the system failing,
    every line it accepted is, in order, in the text that the files hold the
    end of: nothing is lost but the oldest text, and that only when
    [maxLogNum - 1] files, full but for one buffer, are there. *)
Theorem page_switch_delivered m w files pending es q' w' :
  steps (mkQueue [] false Waiting m, w) es (q', w') -> worker_ q' = Exited ->
  running m w files pending -> page_manager m -> alone m w -> Forall page_line (pushed es) ->
  exists m' w'' files', LogFileManager.destroy (files_ q') w' = (w'', m') /\ currentFd_ m' = None /\
    (forall k, 1 <= k <= maxLogNum (config_ m) -> i_data <$> file_of w'' (log_path m k) = files' !! Z.to_nat (k - 1)) /\
    holds_end (config_ m) (text files +:+ pending +:+ text (pushed es)) files' "".
Proof.
  intros Hs Hex Hr Hm Ha Hlines.
  assert (exited_empty q') as Hx by (by apply (steps_exited _ _ _ Hs)). destruct (Hx Hex) as [Ht _].
  destruct (steps_delivers m (text files +:+ pending) _ _ _ Hs Hlines) as (done & (Hh & _) & Hsame & E & _).
  { exists (text files +:+ pending). cbn [fst snd files_ waiting in_flight worker_ tasks_ app foldr]. 
    split; [|split; [done|]; split; [by rewrite str_app_nil_r | constructor]]. split; [|done].
    exists files, pending. split_and!; try done.
    - destruct (rn_index _ _ _ _ Hr) as [_ Hlen]. rewrite (pm_config _ Hm) in Hlen. change (maxLogNum _) with 2 in Hlen.
      destruct files as [|f1 [|f2 [|f3 fs]]]; cbn in *; try (constructor; fail); lia.
    - exists "". split; [by rewrite str_nil_app | by left]. }
  cbn [fst snd] in *. unfold waiting, in_flight in E. rewrite Hex, Ht in E. cbn [app foldr] in E. rewrite str_app_nil_r in E. subst done.
  destruct (destroy_holds _ _ _ Hh) as (m' & w'' & files' & Ed & Hfd & Hfiles & He). pose proof Hsame as (Hc & _). rewrite Hc in *.
  exists m', w'', files'. rewrite <- str_app_assoc in He. split_and!; try done. intros k Hk. rewrite <- Hfiles by done.
  by rewrite (proj1 (same_log_paths _ _ k Hsame)).
Qed.

(** ** Examples *)

Lemma worker_drains_witness :
  exists q'' w'', step (mkQueue [] true (Writing "page/main") page_app, page_start) Worked (q'', w'').
Proof.
  destruct (worker_drains (mkQueue ["page/main"] true Waiting page_app) page_start [Worked]
              (mkQueue [] true (Writing "page/main") page_app) page_start) as (_ & _ & Hnext & _).
  - eapply steps_cons; [by apply step_work | constructor].
  - done.
  - by intros [=].
  - by apply Hnext.
Defined.

Definition example_line : string := "2026-01-29 11:21:10.516    543   1043 page/main" +:+ endl.

Lemma page_app_alone : alone (set_fd page_app (Some 2%nat)) (locked_new (GetLogFilePath page_app 1 1) page_start).
Proof.
  intros p (prefix & -> & _) [i Hi]. cbn [locked_new w_names page_start] in Hi. apply lookup_insert_Some in Hi as [[<- _]|[_ [Hi _]%lookup_singleton_Some]].
  - by exists 1.
  - apply (f_equal (str_last NUL)) in Hi. change (path_join _ (prefix +:+ _)) with (SandboxLogger.LOG_DIR +:+ "/" +:+ (prefix +:+ ".lo" +:+ String "g" ""))%string in Hi.
    rewrite !str_app_assoc, str_last_app in Hi. by vm_compute in Hi.
Qed.

Definition ex_snapshot (m : manager) : sysM manager :=
  LogFileManager.CreateSnapshot id sort_by (fun _ => None) (fun _ => None) (fun _ => None) m 0 true;; mret m.

Lemma page_switch_delivered_witness :
  exists m w es q' w' m' w'' files', steps (mkQueue [] false Waiting m, w) es (q', w') /\ Called ∈ es /\ pushed es = [example_line] /\
    LogFileManager.destroy (files_ q') w' = (w'', m') /\ holds_end SandboxLogger.InitFileManager (example_line +:+ "") files' "".
Proof.
  set (m := set_fd page_app (Some 2%nat)). set (w := locked_new (GetLogFilePath page_app 1 1) page_start).
  destruct (LogFileManager.WriteLog example_line m w) as [w1 m1] eqn:E.
  destruct (ex_snapshot m1 w1) as [w2 m2] eqn:E2.
  set (es := [Pushed example_line; Worked; Worked; Called; Stopped; Worked]).
  assert (steps (mkQueue [] false Waiting m, w) es (mkQueue [] true Exited m2, w2)) as Hs.
  { eapply steps_cons; [by apply step_push|]. eapply steps_cons; [by apply step_work|].
    eapply steps_cons; [apply step_work; cbn [ProcessQueue worker_ AsyncWriteLog app tasks_ files_ stop_]; unfold mbind, sysM_bind;
      change (fm_WriteLog example_line m w) with (LogFileManager.WriteLog example_line m w); by rewrite E|].
    eapply steps_cons; [eapply (step_call _ _ ex_snapshot); [|exact E2]|].
    { apply SandboxLogger.call_snapshot; [done | apply sort_by_perm]. }
    eapply steps_cons; [by apply step_stop|]. eapply steps_cons; [by apply step_work | constructor]. }
  destruct (page_switch_delivered m w [""] "" es (mkQueue [] true Exited m2) w2 Hs eq_refl page_example) as (m' & w'' & files' & Hd & _ & _ & He).
  - split; [done | by exists "com.app" | done].
  - exact page_app_alone.
  - repeat constructor. exists 543, 1043, (mkTm 10 21 11 29 0 126 ""), 516, "2026-01-29 11:21:10.516    543   1043 ", "page/main".
    by vm_compute.
  - exists m, w, es, (mkQueue [] true Exited m2), w2, m', w'', files'. split; [exact Hs|]. split; [right; right; right; left|].
    split; [reflexivity|]. split; [exact Hd | exact He].
Defined.
