(* ===== verification/AppFileManagerProps.v ===== *)
(** * The application log recovers what dead processes left

    Text that a process had in its buffer when it died is appended to a log
    file of that process by the next one that opens a file, once, and nothing
    that is in a log file is lost by it. *)

From S2P Require Import Prelude Common Utils LogPrint SandboxFs AppboxLogger AppFileManager SandboxFsProps.
From Stdlib Require Import Ascii.

(** ** Opening and closing *)









(** ** The newest file of a process *)




(** ** What the recovery does to the files *)

Section recovery.
Context (order : list string -> list string) (Horder : forall l, order l ≡ₚ l) (m : AppFileManager) (dir : string) (Hdir : logDir (config_ m) = dir).















(** Names of buffers are not names of log files. *)
Definition apart (name : string) : Prop := contains persistFilePrefix name = true -> contains (filePrefix (config_ m)) name = false.

#[export] Instance apart_dec name : Decision (apart name).
Proof. unfold apart. apply _. Defined.








End recovery.


(** ** An example *)






