(* ===== verification/Printf.v ===== *)
(** * The logging calls of a process

    hilog_printf.cpp, hilog_base.c, hilog_ndk.c and hilog.cpp: whether a line
    is to be logged, its formatting with privacy, the flow control of the
    process, and where the line goes: the daemon's socket, the kernel log, a
    callback of the process, or the sandbox log.

    The globals of the library are a state; what a call does outside of it is a
    list of effects.  Clocks, ids, the trace of the call chain and the results
    of system calls are given, as is whether a callee that reads a [va_list]
    works on a copy of it. *)

From S2P Require Import Prelude Common TimeStamp Utils LogData LogPrint Format Properties LogCollector PageSwitchLog.
From Stdlib Require Import Ascii.

Definition UNSET_LOGLEVEL : Z := 0.
Definition PREFER_CLOSE_LOG : Z := 1.
Definition PREFER_OPEN_LOG : Z := 2.

Definition SANDBOXLOG_DEFAULT : Z := 0.
Definition PRIVATE_SANDBOX_ONLY : Z := 1.
Definition SHARE_SANDBOX_ONLY : Z := 2.
Definition PRIVATE_SANDBOX_WITH_CONSOLE : Z := 3.
Definition SHARE_SANDBOX_WITH_CONSOLE : Z := 4.

(** The static variables of [HiLogFlowCtrlProcess]. *)
Record flow := mkFlow {
  isFirstFlag : bool;
  processQuota : Z;            (* uint32_t *)
  gSumLen : Z;                 (* int *)
  gDropped : Z;                (* int *)
  gStartTime : LogTimeStamp;
}.

(** The globals of the library; functions of the client are addresses. *)
Record client := mkClient {
  g_registerFunc : option nat;
  g_logCallback : option nat;
  g_logLevel : Z;
  g_preferStrategy : Z;
  g_hiLogLastFatalMessage : string;
  g_sandboxStatus : Z;
  g_sandboxDomains : list Z;
  g_sandboxIsExclude : bool;
  g_flow : flow;
  g_props : PropCaches;
}.

Definition new_flow : flow := mkFlow false 0 0 0 (mkTS 0 0).
Definition new_client : client := mkClient None None LOG_LEVEL_MIN UNSET_LOGLEVEL "" SANDBOXLOG_DEFAULT [] false new_flow new_caches.

Definition set_level (c : client) (level prefer : Z) : client :=
  mkClient (g_registerFunc c) (g_logCallback c) level prefer (g_hiLogLastFatalMessage c) (g_sandboxStatus c)
    (g_sandboxDomains c) (g_sandboxIsExclude c) (g_flow c) (g_props c).
Definition set_functions (c : client) (id callback : option nat) : client :=
  mkClient id callback (g_logLevel c) (g_preferStrategy c) (g_hiLogLastFatalMessage c) (g_sandboxStatus c)
    (g_sandboxDomains c) (g_sandboxIsExclude c) (g_flow c) (g_props c).
Definition set_fatal (c : client) (s : string) : client :=
  mkClient (g_registerFunc c) (g_logCallback c) (g_logLevel c) (g_preferStrategy c) s (g_sandboxStatus c)
    (g_sandboxDomains c) (g_sandboxIsExclude c) (g_flow c) (g_props c).
Definition set_sandbox (c : client) (status : Z) (domains : list Z) (isExclude : bool) : client :=
  mkClient (g_registerFunc c) (g_logCallback c) (g_logLevel c) (g_preferStrategy c) (g_hiLogLastFatalMessage c) status
    domains isExclude (g_flow c) (g_props c).
Definition set_flow (c : client) (f : flow) : client :=
  mkClient (g_registerFunc c) (g_logCallback c) (g_logLevel c) (g_preferStrategy c) (g_hiLogLastFatalMessage c)
    (g_sandboxStatus c) (g_sandboxDomains c) (g_sandboxIsExclude c) f (g_props c).
Definition set_props (c : client) (p : PropCaches) : client :=
  mkClient (g_registerFunc c) (g_logCallback c) (g_logLevel c) (g_preferStrategy c) (g_hiLogLastFatalMessage c)
    (g_sandboxStatus c) (g_sandboxDomains c) (g_sandboxIsExclude c) (g_flow c) p.

(** What a call does outside of the library. *)
Inductive effect :=
| Sent (datagram : string)
| Kmsg (text : string)
| Callback (f : nat) (type level domain : Z) (tag msg : string)
| Sandbox (c : sandbox_call).

(** Calls change the globals and have effects; [None] when the behaviour is
    not defined or an exception leaves the library. *)
Definition callM (A : Type) : Type := client -> option (client * list effect * A).
#[export] Instance callM_ret : MRet callM := fun A x c => Some (c, [], x).
#[export] Instance callM_bind : MBind callM := fun A B f m c =>
  '(c, es, x) ← m c; '(c, es', y) ← f x c; Some (c, es ++ es', y).

Definition get : callM client := fun c => Some (c, [], c).
Definition put (c : client) : callM unit := fun _ => Some (c, [], tt).
Definition emit (e : effect) : callM unit := fun c => Some (c, [e], tt).
Definition lift {A} (o : option A) : callM A := fun c => x ← o; Some (c, [], x).

(** ** Settings *)

Definition HiLogRegisterGetIdFun (registerFunc : option nat) (c : client) : client * Z :=
  match g_registerFunc c with
  | Some _ => (c, -1)
  | None => (set_functions c registerFunc (g_logCallback c), 0)
  end.

Definition HiLogUnregisterGetIdFun (registerFunc : option nat) (c : client) : client :=
  if bool_decide (g_registerFunc c = registerFunc) then set_functions c None (g_logCallback c) else c.

Definition LOG_SetCallback (callback : option nat) (c : client) : client := set_functions c (g_registerFunc c) callback.

Definition HiLogSetAppLogLevel (level prefer : Z) (c : client) : client := set_level c level prefer.
Definition HiLogSetAppMinLogLevel (level : Z) (c : client) : client := HiLogSetAppLogLevel level PREFER_CLOSE_LOG c.

Definition IsAppDomain (domain : Z) : bool := (DOMAIN_APP_MIN <=? domain) && (domain <=? DOMAIN_APP_MAX).

Definition IsPrivateSandboxEnable (c : client) : bool :=
  (g_sandboxStatus c =? PRIVATE_SANDBOX_ONLY) || (g_sandboxStatus c =? PRIVATE_SANDBOX_WITH_CONSOLE).
Definition IsShareSandboxEnable (c : client) : bool :=
  (g_sandboxStatus c =? SHARE_SANDBOX_ONLY) || (g_sandboxStatus c =? SHARE_SANDBOX_WITH_CONSOLE).

Definition IsSandboxValidDomain (domain : Z) (c : client) : bool :=
  match g_sandboxDomains c with
  | [] => true
  | domains =>
      let contained := bool_decide (i32 domain ∈ domains) in
      if g_sandboxIsExclude c then negb contained else contained
  end.

(** Which of the two sandbox logs is told, and what. *)
Definition sandbox_choice (private share : sandbox_call) (c : client) : option sandbox_call :=
  if IsPrivateSandboxEnable c then Some private else if IsShareSandboxEnable c then Some share else None.

Definition InnerFlushAppLog : client -> option sandbox_call := sandbox_choice FlushPrivateSandboxLog FlushShareSandboxLog.
Definition InnerCleanAppLog : client -> option sandbox_call := sandbox_choice CleanPrivateSandboxLog CleanShareSandboxLog.
Definition InnerGetAppLogFile (seconds : Z) : client -> option sandbox_call :=
  sandbox_choice (GetPrivateSandboxLogFile seconds) (GetShareSandboxLogFile seconds).

Definition switch_sandboxes (type : Z) : callM unit :=
  if (type =? PRIVATE_SANDBOX_ONLY) || (type =? PRIVATE_SANDBOX_WITH_CONSOLE) then
    emit (Sandbox (SetPrivateSandboxStatus true));; emit (Sandbox (SetPublicSandboxStatus false))
  else if (type =? SHARE_SANDBOX_ONLY) || (type =? SHARE_SANDBOX_WITH_CONSOLE) then
    emit (Sandbox (SetPublicSandboxStatus true));; emit (Sandbox (SetPrivateSandboxStatus false))
  else emit (Sandbox (SetPrivateSandboxStatus false));; emit (Sandbox (SetPublicSandboxStatus false)).

Definition InnerSetOutputType (type : Z) : callM Z :=
  c ← get;
  if (type <? SANDBOXLOG_DEFAULT) || (SHARE_SANDBOX_WITH_CONSOLE <? type) then mret (g_sandboxStatus c)
  else
    put (set_sandbox c type [] (g_sandboxIsExclude c));;
    switch_sandboxes type;;
    mret (g_sandboxStatus c).

Definition InnerSetOutputTypeByDomainId (type : Z) (domains : list Z) (isExclude : bool) : callM Z :=
  c ← get;
  if (type <? SANDBOXLOG_DEFAULT) || (SHARE_SANDBOX_WITH_CONSOLE <? type) then mret (g_sandboxStatus c)
  else
    put (set_sandbox c type domains isExclude);;
    switch_sandboxes type;;
    mret (g_sandboxStatus c).

Definition InnerGetOutputDir (c : client) : string :=
  if IsPrivateSandboxEnable c then "/data/storage/el2/base/files/hiapplog"
  else if IsShareSandboxEnable c then "/data/storage/el2/log/hiapplog" else "".

(** [snprintf_s(buffer, length, length - 1, "%s", s)]: the result, and what is in the buffer. *)
Definition copy_out (s : string) (length : Z) : Z * string :=
  let s := cstr s in
  if length <=? 0 then (-1, "")
  else if slen s <=? length - 1 then ((if slen s <=? 0 then -1 else 0), s)
  else (-1, str_take (Z.to_nat (length - 1)) s).

Definition tell (call : client -> option sandbox_call) : callM unit :=
  c ← get; match call c with Some call => emit (Sandbox call) | None => mret tt end.
Definition HiLogFlushAppLog : callM unit := tell InnerFlushAppLog.
Definition HiLogCleanAppLog : callM unit := tell InnerCleanAppLog.

(** [answer] gives the names that the sandbox log returns. *)
Definition app_log_files (answer : sandbox_call -> list string) (seconds : Z) : callM (list string) :=
  tell (InnerGetAppLogFile seconds);;
  c ← get;
  mret match InnerGetAppLogFile seconds c with Some call => answer call | None => [] end.

Definition HiLogGetAppLogFile (files : list string) (length : Z) : Z * string := copy_out (String.concat "," files) length.
Definition HiLogGetOutputDir (length : Z) (c : client) : Z * string := copy_out (InnerGetOutputDir c) length.

(** ** Printing *)

(** What a call finds: the trace of the call chain by the registered function
    (its result and the ids of chain, span and parent), the clocks, ids, the
    descriptor of the kernel log and the results of writing to it and to the
    socket of the daemon. *)
Record call_env := mkCallEnv {
  ce_trace : nat -> Z * Z * Z * Z;
  ce_realtime : Z * Z;
  ce_monotonic : Z * Z;
  ce_pid : Z;
  ce_tid : Z;
  ce_prog : string;
  ce_kmsg_fd : Z;
  ce_kmsg_write : string -> Z;
  ce_send : string -> Z;
}.

Section print.
Context `{ParamService}.
Context (lp64 char_signed : bool) (wctomb : Z -> option string) (SECUREC_MALLOC : Z -> bool).
Context (vsprintf_s : Z -> string -> list Z -> Z -> option string).
Context (localtime_r : Z -> option tm) (va_copied : bool).
Context (pe : penv) (ce : call_env).

Definition props {A} (m : propsM A) : callM A := fun c => let '(p, x) := m pe (g_props c) in Some (set_props c p, [], x).

(** The first level that is set: of the tag, of the domain, of the system. *)
Definition GetFinalLevel (domain : Z) (tag : string) : callM Z :=
  tagLevel ← props (GetTagLevel tag);
  if negb (tagLevel =? LOG_LEVEL_MIN) then mret tagLevel else
  persistTagLevel ← props (GetPersistTagLevel tag);
  if negb (persistTagLevel =? LOG_LEVEL_MIN) then mret persistTagLevel else
  domainLevel ← props (GetDomainLevel domain);
  if negb (domainLevel =? LOG_LEVEL_MIN) then mret domainLevel else
  persistDomainLevel ← props (GetPersistDomainLevel domain);
  if negb (persistDomainLevel =? LOG_LEVEL_MIN) then mret persistDomainLevel else
  debuggable ← (if IsAppDomain domain then props IsDebuggableHap else mret false);
  if debuggable : bool then mret LOG_LEVEL_MIN else props GetGlobalLogLevel.

Definition HiLogIsLoggable (domain : Z) (tag : option string) (level : Z) : callM bool :=
  c ← get;
  if IsAppDomain domain && (g_preferStrategy c =? PREFER_CLOSE_LOG) && (level <? g_logLevel c) then mret false
  else if IsAppDomain domain && (g_preferStrategy c =? PREFER_OPEN_LOG) && (g_logLevel c <=? level) then mret true
  else if (level <=? LOG_LEVEL_MIN) || (LOG_LEVEL_MAX <=? level) || (DOMAIN_OS_MAX <=? domain) then mret false
  else match tag with
       | None => mret false
       | Some tag => finalLevel ← GetFinalLevel domain tag; mret (finalLevel <=? level)
       end.

(** The flow control of the process: -1 when the line is not printed,
    otherwise the number of lines dropped before it. *)
Definition HiLogFlowCtrlProcess (len : Z) (ts : LogTimeStamp) : callM Z :=
  c ← get;
  let f := g_flow c in
  quota ← (if isFirstFlag f then mret (processQuota f) else q ← lift (GetProcessQuota (pe_sys pe) (ce_prog ce)); mret (u32 q));
  let tsStart := ts_add (gStartTime f) (mkTS 1 0) in
  if ts_gtb ts tsStart then
    put (set_flow c (mkFlow true quota (i32 len) 0 ts));; mret (gDropped f)
  else if quota <? u32 (gSumLen f) then
    put (set_flow c (mkFlow true quota (gSumLen f) (i32 (gDropped f + 1)) (gStartTime f)));; mret (-1)
  else
    put (set_flow c (mkFlow true quota (i32 (gSumLen f + len)) (gDropped f) (gStartTime f)));; mret 0.

Definition IsNeedProcFlowCtr (type : Z) : callM bool :=
  if negb (type =? LOG_APP) then mret false
  else
    on ← props IsProcessSwitchOn;
    if on : bool then debuggable ← props IsDebuggableHap; mret (negb debuggable) else mret false.

Definition HiLogIsPrivacyOn : callM bool :=
  debug ← props IsDebugOn;
  if debug : bool then mret false else props IsPrivateSwitchOn.

(** "<level>tag: info" with a line break, cut to the buffer with its line break kept. *)
Definition kmsg_text (level : Z) (tag info : string) : string :=
  let logInfo := "<" +:+ to_string level +:+ ">" +:+ cstr tag +:+ ": " +:+ cstr info +:+ endl in
  if slen logInfo <=? MAX_LOG_LEN - 1 then logInfo else str_take (Z.to_nat (MAX_LOG_LEN - 2)) logInfo +:+ endl.

Definition LogToKmsg (level : Z) (tag info : string) : callM Z :=
  if ce_kmsg_fd ce <? 0 then mret (-1)
  else let text := kmsg_text level tag info in emit (Kmsg text);; mret (ce_kmsg_write ce text).

(** The ids of the call chain, at the front of the line. *)
Definition PrintTraceId (c : client) : string :=
  match g_registerFunc c with
  | None => ""
  | Some func =>
      let '(ret, chainId, spanId, parentSpanId) := ce_trace ce func in
      if ret =? 0 then "[" +:+ Uint2HexStr chainId +:+ ", " +:+ Uint2HexStr spanId +:+ ", " +:+ Uint2HexStr parentSpanId +:+ "] "
      else if negb (ret =? -1) then "[" +:+ Uint2HexStr chainId +:+ "] " else ""
  end.

(** The line in its buffer of [MAX_LOG_LEN] bytes. *)
Definition format_line (fmt : string) (args : list varg) : callM string :=
  c ← get;
  let trace := PrintTraceId c in
  let room := MAX_LOG_LEN - slen trace in
  priv ← HiLogIsPrivacyOn;
  '(_, text) ← lift (vsnprintfp_s lp64 char_signed wctomb SECUREC_MALLOC vsprintf_s room (room - 1) priv fmt args);
  mret (trace +:+ cstr text).

(** Whether the arguments were read. *)
Definition HiLogPrintSandboxLog (type level domain : Z) (tag : option string) (fmt : string) (args : list varg) : callM bool :=
  c ← get;
  if (g_sandboxStatus c =? SANDBOXLOG_DEFAULT) && IsSandboxValidDomain domain c then mret false
  else
    buf ← format_line fmt args;
    tag ← lift tag;
    let '(sec, nsec) := ce_realtime ce in
    fmtLog ← lift (LogPrintWithFormat localtime_r
      (mkLogContent level type (u32 (ce_pid ce)) (u32 (ce_tid ce)) domain sec nsec sec tag buf)
      (mkLogFormat false FT_TIME FA_MSEC false false false));
    match sandbox_choice (WritePrivateSandboxStr fmtLog) (WriteShareSandboxStr fmtLog) c with
    | Some call => emit (Sandbox call)
    | None => mret tt
    end;;
    mret true.

(** Whether to go on, and whether the arguments were read. *)
Definition HiLogPrintVerify (type level domain : Z) (tag : option string) (fmt : string) (args : list varg) : callM (bool * bool) :=
  if negb (type =? LOG_APP) && ((domain <? DOMAIN_OS_MIN) || (DOMAIN_OS_MAX <? domain)) then mret (false, false) else
  loggable ← HiLogIsLoggable domain tag level;
  if negb loggable then mret (false, false) else
  read ← HiLogPrintSandboxLog type level domain tag fmt args;
  c ← get;
  if (type =? LOG_APP) && ((g_sandboxStatus c =? PRIVATE_SANDBOX_ONLY) || (g_sandboxStatus c =? SHARE_SANDBOX_ONLY))
  then mret (false, read) else mret (true, read).

(** A list that a callee has read by reference is not read again. *)
Definition va_again (read : bool) (args : list varg) : list varg := if read && negb va_copied then [] else args.

(** The text for the kernel log: a text that was cut ends with a line break. *)
Definition kmsg_info (ret : Z) (text : string) : string :=
  if (ret =? -1) && (slen text =? MAX_LOG_LEN - 1) then str_take (Z.to_nat (MAX_LOG_LEN - 2)) text +:+ endl else text.

Definition send (header : HilogMsg) (tag text : string) : callM Z :=
  let tagLen := Z.min (slen (cstr tag)) (MAX_TAG_LEN - 1) in
  let logLen := Z.min (slen text) (MAX_LOG_LEN - 1) in
  let datagram := WriteLogMessage header (tag +:+ String NUL "") (tagLen + 1) (text +:+ String NUL "") (logLen + 1) in
  emit (Sent datagram);; mret (ce_send ce datagram).

Definition with_level (h : HilogMsg) (level : Z) : HilogMsg :=
  mkHilogMsg (msg_len h) (msg_version h) (msg_type h) (level mod 8) (msg_tagLen h) (msg_tv_sec h) (msg_tv_nsec h)
    (msg_mono_sec h) (msg_pid h) (msg_tid h) (msg_domain h) (msg_tag h).

(** The header; the daemon takes the id of the process from the socket. *)
Definition line_header (type level domain : Z) : HilogMsg :=
  mkHilogMsg 0 0 (type mod 16) (level mod 8) 0 (u32 (ce_realtime ce).1) (u32 (ce_realtime ce).2) (u32 (ce_monotonic ce).1) 0
    (u32 (ce_tid ce)) domain "".

Definition HiLogPrintArgs (type level domain : Z) (tag : option string) (fmt : string) (args : list varg) : callM Z :=
  '(go, read) ← HiLogPrintVerify type level domain tag fmt args;
  if negb go then mret (-1) else
  let args := va_again read args in
  if type =? LOG_KMSG then
    priv ← HiLogIsPrivacyOn;
    '(ret, text) ← lift (vsnprintfp_s lp64 char_signed wctomb SECUREC_MALLOC vsprintf_s MAX_LOG_LEN (MAX_LOG_LEN - 1) priv fmt args);
    tag ← lift tag;
    LogToKmsg level tag (kmsg_info ret text)
  else
    let header := line_header type level domain in
    buf ← format_line fmt args;
    c ← get;
    let trace := PrintTraceId c in
    match g_logCallback c with
    | Some f => emit (Callback f type level domain (default "" tag) (str_drop (String.length trace) buf))
    | None => mret tt
    end;;
    tag ← lift tag;
    (if level =? LOG_FATAL then c ← get; put (set_fatal c buf) else mret tt);;
    debug ← props IsDebugOn;
    need ← (if debug : bool then mret false else IsNeedProcFlowCtr type);
    ret ← (if need : bool then
             HiLogFlowCtrlProcess
               (Z.min (slen (cstr tag)) (MAX_TAG_LEN - 1) + Z.min (slen buf) (MAX_LOG_LEN - 1) - slen trace)
               (mkTS (u32 (ce_monotonic ce).1) (u32 (ce_monotonic ce).2))
           else mret 0);
    if ret <? 0 then mret ret else
    (if 0 <? ret then send (with_level header LOG_WARN) "LOGLIMIT" ("==LOGS OVER PROC QUOTA, " +:+ to_string ret +:+ " DROPPED==")
     else mret 0);;
    send header tag buf.

(** The ways in. *)
Definition HiLogPrint := HiLogPrintArgs.
Definition HiLogPrintDictNew (type level domain : Z) (tag : option string) (uuid offset : Z) := HiLogPrintArgs type level domain tag.
Definition HiLogPrintComm (level domain : Z) (tag : option string) (uuid offset : Z) := HiLogPrintArgs LOG_CORE level domain tag.

Record HiLogLabel := mkLabel { label_type : Z; label_domain : Z; label_tag : option string }.
Definition HiLog_Print (level : Z) (label : HiLogLabel) := HiLogPrintArgs (label_type label) level (label_domain label) (label_tag label).

(** hilog_ndk.c. *)
Definition OH_LOG_Print := HiLogPrintArgs.
Definition OH_LOG_PrintMsg (type level domain : Z) (tag message : option string) : callM Z :=
  OH_LOG_Print type level domain tag "%{public}s" [VStr message].

(** The tag and the message are not ended by a NUL, and are copied. *)
Definition OH_LOG_PrintMsgByLen (type level domain : Z) (tag : option string) (tagLen : Z) (message : option string) (messageLen : Z) : callM Z :=
  match tag, message with
  | Some tag, Some message =>
      let copyTagLen := if tagLen <? MAX_TAG_LEN - 1 then tagLen else MAX_TAG_LEN - 1 in
      let copyMsgLen := if messageLen <? MAX_LOG_LEN - 1 then messageLen else MAX_LOG_LEN - 1 in
      OH_LOG_Print type level domain (Some (cstr (str_take (Z.to_nat copyTagLen) tag))) "%{public}s"
        [VStr (Some (cstr (str_take (Z.to_nat copyMsgLen) message)))]
  | _, _ => mret (-1)
  end.
End print.

(** ** The library for the early parts of the system: hilog_base.c *)

Module Base.

Definition INVALID_FD : Z := -1.
Definition INVALID_RESULT : Z := -1.
Definition CAS_FAIL : Z := -1.
Definition CAS_INVALID_PARAM : Z := -2.
Definition CAS_SUCCESS : Z := 0.

(** What a thread does with sockets. *)
Inductive socket_effect := Wrote (fd : Z) (datagram : string) | Closed (fd : Z).

(** The socket, and whether it could be connected. *)
Definition GenerateSocketFd (socketFd : Z) (connected : bool) : Z * list socket_effect :=
  if socketFd =? INVALID_FD then (INVALID_FD, [])
  else if connected then (socketFd, []) else (INVALID_FD, [Closed socketFd]).

(** The compare and exchange on [g_socketFd]: its value afterwards, and the result. *)
Definition CASGlobalSocketFd (g_socketFd socketFd : Z) : Z * Z :=
  if socketFd =? INVALID_FD then (g_socketFd, CAS_INVALID_PARAM)
  else if g_socketFd =? INVALID_FD then (socketFd, CAS_SUCCESS) else (g_socketFd, CAS_FAIL).

(** [g_load] and [g_cas] are the values of [g_socketFd] when the thread reads
    it and when it exchanges it: other threads run in between.  The result is
    the value the thread leaves, and what it did. *)
Definition SendMessage (g_load g_cas socketFd : Z) (connected : bool) (writev : Z -> string -> Z) (datagram : string)
    : Z * list socket_effect * Z :=
  if g_load =? INVALID_FD then
    let '(fd, es) := GenerateSocketFd socketFd connected in
    let '(g, result) := CASGlobalSocketFd g_cas fd in
    if result =? CAS_INVALID_PARAM then (g, es, INVALID_RESULT)
    else if result =? CAS_FAIL then (g, es ++ [Wrote fd datagram; Closed fd], writev fd datagram)
    else (g, es ++ [Wrote fd datagram], writev fd datagram)
  else (g_cas, [Wrote g_load datagram], writev g_load datagram).

Definition CloseSocket (g_socketFd : Z) : Z * list socket_effect :=
  if 0 <=? g_socketFd then (INVALID_FD, [Closed g_socketFd]) else (g_socketFd, []).

Definition HiLogBaseIsLoggable (domain : Z) (tag : option string) (level : Z) : bool :=
  negb ((level <=? LOG_LEVEL_MIN) || (LOG_LEVEL_MAX <=? level) || bool_decide (tag = None)).

Section base.
Context (lp64 char_signed : bool) (wctomb : Z -> option string).
Context (vsprintf_s : Z -> string -> list Z -> Z -> option string).

(** The datagram; there is no allocation in this library. *)
Definition HiLogBasePrintArgs (header : HilogMsg) (tag : string) (fmt : string) (args : list varg) : option string :=
  '(_, text) ← vsnprintfp_s lp64 char_signed wctomb (fun _ => false) vsprintf_s MAX_LOG_LEN (MAX_LOG_LEN - 1) true fmt args;
  let buf := cstr text in
  let tagLen := Z.min (slen (cstr tag)) (MAX_TAG_LEN - 1) in
  let logLen := Z.min (slen buf) (MAX_LOG_LEN - 1) in
  Some (WriteLogMessage header (tag +:+ String NUL "") (tagLen + 1) (buf +:+ String NUL "") (logLen + 1)).

Definition HiLogBasePrint (ce : call_env) (type level domain : Z) (tag : option string) (fmt : string) (args : list varg)
    (g_load g_cas socketFd : Z) (connected : bool) (writev : Z -> string -> Z) : option (Z * list socket_effect * Z) :=
  match tag with
  | Some t =>
      if HiLogBaseIsLoggable domain tag level then
        datagram ← HiLogBasePrintArgs (line_header ce type level domain) t fmt args;
        Some (SendMessage g_load g_cas socketFd connected writev datagram)
      else Some (g_cas, [], -1)
  | None => Some (g_cas, [], -1)
  end.
End base.
End Base.
