(* ===== verification/PrintfProps.v ===== *)
(** * What a logging call does

    Arguments that are private have no influence on anything a call does while
    privacy is on; a line that is to be logged is sent to the daemon, and the
    daemon stores it; the restriction of the sandbox log to domains has no
    effect. *)

From S2P Require Import Prelude Common TimeStamp Utils LogData LogPrint Format FormatProps Properties LogBuffer LogBufferSpec FlowControl LogCollector Kmsg PageSwitchLog Printf.
From Stdlib Require Import Ascii.

Section print.
Context {PS : ParamService} {PL : ParamLaws PS}.
Context (lp64 char_signed : bool) (wctomb : Z -> option string) (malloc : Z -> bool).
Context (vsprintf_s : Z -> string -> list Z -> Z -> option string).
Context (localtime_r : Z -> option tm) (va_copied : bool).
Context (pe : penv) (ce : call_env) (Hshort : short_values (pe_sys pe)).

Abbreviation format_line := (format_line lp64 char_signed wctomb malloc vsprintf_s pe ce).
Abbreviation HiLogIsLoggable := (HiLogIsLoggable pe).
Abbreviation HiLogPrintSandboxLog := (HiLogPrintSandboxLog lp64 char_signed wctomb malloc vsprintf_s localtime_r pe ce).
Abbreviation HiLogPrintVerify := (HiLogPrintVerify lp64 char_signed wctomb malloc vsprintf_s localtime_r pe ce).
Abbreviation HiLogPrintArgs := (HiLogPrintArgs lp64 char_signed wctomb malloc vsprintf_s localtime_r va_copied pe ce).

(** ** Calls keep the caches of the parameters right *)

Definition client_ok (c : client) : Prop := caches_ok (g_props c) (pe_sys pe).

Definition keeps {A} (m : callM A) : Prop := forall c c' es x, client_ok c -> m c = Some (c', es, x) -> client_ok c'.

Lemma keeps_ret {A} (x : A) : keeps (mret x).
Proof. by intros c c' es y Hc [= <- _ _]. Qed.

Lemma callM_bind_Some {A B} (m : callM A) (f : A -> callM B) c c' es y :
  (m ≫= f) c = Some (c', es, y) <-> exists c1 es1 x es2, m c = Some (c1, es1, x) /\ f x c1 = Some (c', es2, y) /\ es = es1 ++ es2.
Proof.
  unfold mbind, callM_bind. split.
  - intros ([[c1 es1] x] & E1 & ([[c2 es2] y'] & E2 & [= <- <- <-])%bind_Some)%bind_Some. by exists c1, es1, x, es2.
  - intros (c1 & es1 & x & es2 & E1 & E2 & ->). by rewrite E1; cbn; rewrite E2.
Qed.

Lemma keeps_bind {A B} (m : callM A) (f : A -> callM B) : keeps m -> (forall x, keeps (f x)) -> keeps (m ≫= f).
Proof. intros Hm Hf c c' es y Hc (c1 & es1 & x & es2 & E1 & E2 & _)%callM_bind_Some. eapply Hf; [by eapply Hm|done]. Qed.

Lemma keeps_get {B} (f : client -> callM B) : (forall c, client_ok c -> keeps (f c)) -> keeps (get ≫= f).
Proof. intros Hf c c' es y Hc (c1 & es1 & x & es2 & [= <- <- <-] & E2 & _)%callM_bind_Some. by eapply Hf. Qed.

Lemma keeps_put c : client_ok c -> keeps (put c).
Proof. by intros Hc c0 c' es x _ [= <- _ _]. Qed.

Lemma keeps_emit e : keeps (emit e).
Proof. by intros c c' es x Hc [= <- _ _]. Qed.

Lemma keeps_lift {A} (o : option A) : keeps (lift o).
Proof. intros c c' es x Hc (y & _ & [= <- _ _])%bind_Some. done. Qed.

Lemma keeps_props {A} (m : propsM A) f : getter_ok m f -> keeps (props pe m).
Proof using Hshort.
  intros Hm c c' es x Hc. unfold props. specialize (Hm pe (g_props c) Hshort Hc). destruct (m pe (g_props c)) as [p y].
  intros [= <- _ _]. apply Hm.
Qed.

Lemma keeps_hap : keeps (props pe IsDebuggableHap).
Proof.
  intros c c' es x Hc. unfold props. pose proof (IsDebuggableHap_ok pe (g_props c) Hc) as H.
  destruct (IsDebuggableHap pe (g_props c)) as [p y]. intros [= <- _ _]. apply H.
Qed.

Lemma GetGlobalLogLevel_ok : getter_ok GetGlobalLogLevel (fun e _ =>
  let l := the_level PROP_GLOBAL_LOG_LEVEL "" (pe_sys e) in
  if l =? LOG_LEVEL_MIN then the_level PROP_PERSIST_GLOBAL_LOG_LEVEL "" (pe_sys e) else l).
Proof using PL.
  intros e c Hs Hc. unfold GetGlobalLogLevel, pbind, pret. pose proof (GetGlobalLevel_ok e c Hs Hc) as H.
  destruct (GetGlobalLevel e c) as [c1 l]. destruct H as (-> & Hc1 & Hh1). cbv zeta. destruct (_ =? _); [|done].
  pose proof (GetPersistGlobalLevel_ok e c1 Hs Hc1) as H2. destruct (GetPersistGlobalLevel e c1) as [c2 l2].
  destruct H2 as (-> & ? & ?). by split_and!; [| |congruence].
Qed.

Ltac keeps_step :=
  match goal with
  | |- keeps (mret _) => apply keeps_ret
  | |- keeps (emit _) => apply keeps_emit
  | |- keeps (lift _) => apply keeps_lift
  | |- keeps (put _) => apply keeps_put; done
  | |- keeps (props _ IsDebuggableHap) => apply keeps_hap
  | |- keeps (props _ _) => first
      [ eapply keeps_props, GetTagLevel_ok | eapply keeps_props, GetPersistTagLevel_ok | eapply keeps_props, GetDomainLevel_ok
      | eapply keeps_props, GetPersistDomainLevel_ok | eapply keeps_props, GetGlobalLogLevel_ok | eapply keeps_props, IsDebugOn_ok
      | eapply keeps_props, IsPrivateSwitchOn_ok | eapply keeps_props, IsProcessSwitchOn_ok ]
  | |- keeps (get ≫= _) => apply keeps_get; intros ? ?
  | |- keeps (_ ≫= _) => apply keeps_bind; [|intros ?]
  | |- keeps (if ?b then _ else _) => destruct b
  | |- keeps (match ?o with _ => _ end) => destruct o
  | |- keeps (let _ := _ in _) => cbv zeta
  end.
Ltac keeps := repeat keeps_step.

Lemma HiLogIsPrivacyOn_keeps : keeps (HiLogIsPrivacyOn pe).
Proof using PL Hshort. unfold HiLogIsPrivacyOn. keeps. Qed.

Lemma HiLogIsLoggable_keeps domain tag level : keeps (HiLogIsLoggable domain tag level).
Proof using PL Hshort. unfold HiLogIsLoggable, GetFinalLevel. keeps. Qed.

Lemma format_line_keeps fmt args : keeps (format_line fmt args).
Proof using PL Hshort. unfold format_line. keeps. apply HiLogIsPrivacyOn_keeps. Qed.

Lemma HiLogPrintSandboxLog_keeps type level domain tag fmt args : keeps (HiLogPrintSandboxLog type level domain tag fmt args).
Proof using PL Hshort. unfold HiLogPrintSandboxLog. keeps. apply format_line_keeps. Qed.

Lemma HiLogPrintVerify_keeps type level domain tag fmt args : keeps (HiLogPrintVerify type level domain tag fmt args).
Proof using PL Hshort. unfold HiLogPrintVerify. keeps; [apply HiLogIsLoggable_keeps | apply HiLogPrintSandboxLog_keeps]. Qed.

(** ** Private arguments are hidden *)

(** The parameters of the system that say that privacy is on. *)
Definition privacy_on : Prop :=
  the_switch PROP_ONCE_DEBUG false (pe_sys pe) = false /\ the_switch PROP_PERSIST_DEBUG false (pe_sys pe) = false /\
  the_switch PROP_PRIVATE true (pe_sys pe) = true.

Lemma props_value {A} (m : propsM A) f c :
  getter_ok m f -> client_ok c -> exists c', props pe m c = Some (c', [], f pe (g_props c)) /\ client_ok c'.
Proof using Hshort.
  intros Hm Hc. specialize (Hm pe (g_props c) Hshort Hc). unfold props. destruct (m pe (g_props c)) as [p v].
  destruct Hm as (-> & Hp & _). by exists (set_props c p).
Qed.

Lemma callM_bind_ext {A B} (m : callM A) (f g : A -> callM B) c :
  (forall c' es x, m c = Some (c', es, x) -> f x c' = g x c') -> (m ≫= f) c = (m ≫= g) c.
Proof. intros H. unfold mbind, callM_bind. destruct (m c) as [[[c' es] x]|] eqn:E; [|done]. cbn. by rewrite (H c' es x). Qed.

Lemma callM_bind_eq {A B} (m m' : callM A) (f : A -> callM B) c : m c = m' c -> (m ≫= f) c = (m' ≫= f) c.
Proof. intros E. unfold mbind, callM_bind. by rewrite E. Qed.

Lemma callM_bind_run {A B} (m : callM A) (f : A -> callM B) c c1 es1 x :
  m c = Some (c1, es1, x) -> (m ≫= f) c = ('(c', es2, y) ← f x c1; Some (c', es1 ++ es2, y)).
Proof. intros E. unfold mbind at 1, callM_bind at 1. by rewrite E. Qed.

Lemma HiLogIsPrivacyOn_true c : client_ok c -> privacy_on -> exists c', HiLogIsPrivacyOn pe c = Some (c', [], true).
Proof using PL Hshort.
  intros Hc (H1 & H2 & H3). destruct (props_value _ _ c IsDebugOn_ok Hc) as (c1 & E1 & Hc1). cbv beta in E1. rewrite H1, H2 in E1.
  destruct (props_value _ _ c1 IsPrivateSwitchOn_ok Hc1) as (c2 & E2 & _). cbv beta in E2. rewrite H3 in E2.
  exists c2. unfold HiLogIsPrivacyOn. rewrite (callM_bind_run _ _ _ _ _ _ E1). cbn [orb]. by rewrite E2.
Qed.

Section redact.
Context (Hmalloc : forall size, malloc size = true) (Hpriv : privacy_on) (fmt : string) (args : list varg).
Context (Hprec : precisions_ok lp64 (uses lp64 fmt) args).
Abbreviation hidden := (redact (uses lp64 fmt) args).

Lemma format_redact c destMax count :
  client_ok c ->
  (priv ← HiLogIsPrivacyOn pe; lift (vsnprintfp_s lp64 char_signed wctomb malloc vsprintf_s destMax count priv fmt args)) c
  = (priv ← HiLogIsPrivacyOn pe; lift (vsnprintfp_s lp64 char_signed wctomb malloc vsprintf_s destMax count priv fmt hidden)) c.
Proof using PL Hshort Hmalloc Hpriv Hprec.
  intros Hc. apply callM_bind_ext. intros c' es b E. destruct (HiLogIsPrivacyOn_true c Hc Hpriv) as (c2 & E2). rewrite E2 in E.
  injection E as <- <- <-. by rewrite vsnprintfp_redact.
Qed.

Lemma format_line_redact c : client_ok c -> format_line fmt args c = format_line fmt hidden c.
Proof using PL Hshort Hmalloc Hpriv Hprec.
  intros Hc. unfold Printf.format_line. apply callM_bind_ext. intros c' es x [= <- <- <-]. cbv zeta.
  apply callM_bind_ext. intros c' es' b E. destruct (HiLogIsPrivacyOn_true c Hc Hpriv) as (c2 & E2). rewrite E2 in E.
  injection E as <- <- <-. by rewrite vsnprintfp_redact.
Qed.

Lemma sandbox_redact type level domain tag c :
  client_ok c -> HiLogPrintSandboxLog type level domain tag fmt args c = HiLogPrintSandboxLog type level domain tag fmt hidden c.
Proof using PL Hshort Hmalloc Hpriv Hprec.
  intros Hc. unfold Printf.HiLogPrintSandboxLog. apply callM_bind_ext. intros c' es x [= <- <- <-]. destruct (_ && _); [done|].
  unfold mbind at 1 4, callM_bind at 1 4. by rewrite format_line_redact.
Qed.

Lemma verify_redact type level domain tag c :
  client_ok c -> HiLogPrintVerify type level domain tag fmt args c = HiLogPrintVerify type level domain tag fmt hidden c.
Proof using PL Hshort Hmalloc Hpriv Hprec.
  intros Hc. unfold Printf.HiLogPrintVerify. destruct (_ && _); [done|]. apply callM_bind_ext. intros c1 es b E.
  assert (client_ok c1) as Hc1 by by eapply HiLogIsLoggable_keeps. destruct b; cbn [negb]; [|done].
  unfold mbind at 1 3, callM_bind at 1 3. by rewrite sandbox_redact.
Qed.
End redact.

(** ** Which lines are logged *)

Definition final_level (c : client) (domain : Z) (tag : string) : Z :=
  let s := pe_sys pe in
  let tagLevel := the_level PROP_TAG_LOG_LEVEL tag s in
  let persistTagLevel := the_level PROP_PERSIST_TAG_LOG_LEVEL tag s in
  let domainLevel := the_level PROP_DOMAIN_LOG_LEVEL (Uint2HexStr domain) s in
  let persistDomainLevel := the_level PROP_PERSIST_DOMAIN_LOG_LEVEL (Uint2HexStr domain) s in
  let globalLevel := the_level PROP_GLOBAL_LOG_LEVEL "" s in
  if negb (tagLevel =? LOG_LEVEL_MIN) then tagLevel
  else if negb (persistTagLevel =? LOG_LEVEL_MIN) then persistTagLevel
  else if negb (domainLevel =? LOG_LEVEL_MIN) then domainLevel
  else if negb (persistDomainLevel =? LOG_LEVEL_MIN) then persistDomainLevel
  else if IsAppDomain domain && hap_debuggable pe (g_props c) then LOG_LEVEL_MIN
  else if globalLevel =? LOG_LEVEL_MIN then the_level PROP_PERSIST_GLOBAL_LOG_LEVEL "" s else globalLevel.

Definition loggable (c : client) (domain : Z) (tag : string) (level : Z) : bool :=
  if IsAppDomain domain && (g_preferStrategy c =? PREFER_CLOSE_LOG) && (level <? g_logLevel c) then false
  else if IsAppDomain domain && (g_preferStrategy c =? PREFER_OPEN_LOG) && (g_logLevel c <=? level) then true
  else negb ((level <=? LOG_LEVEL_MIN) || (LOG_LEVEL_MAX <=? level) || (DOMAIN_OS_MAX <=? domain)) && (final_level c domain tag <=? level).

(** The same client but for what it remembers of the parameters. *)
Record agrees (c c' : client) : Prop := mkAgrees {
  ag_client : c' = set_props c (g_props c');
  ag_ok : client_ok c';
  ag_hap : hap_debuggable pe (g_props c') = hap_debuggable pe (g_props c);
}.

Lemma agrees_refl c : client_ok c -> agrees c c.
Proof. intros Hc. split; [by destruct c | done | done]. Qed.

Lemma agrees_trans c1 c2 c3 : agrees c1 c2 -> agrees c2 c3 -> agrees c1 c3.
Proof. intros [E1 _ H1] [E2 ? H2]. split; [rewrite E2, E1; by destruct c1 | done | congruence]. Qed.

(** [m] reads the parameters only, and returns [v]. *)
Definition reads {A} (m : callM A) (c : client) (v : A) : Prop := exists c', m c = Some (c', [], v) /\ agrees c c'.

Lemma reads_props {A} (m : propsM A) f c : getter_ok m f -> client_ok c -> reads (props pe m) c (f pe (g_props c)).
Proof using Hshort.
  intros Hm Hc. specialize (Hm pe (g_props c) Hshort Hc). unfold reads, props. destruct (m pe (g_props c)) as [p v].
  destruct Hm as (-> & Hp & Hh). exists (set_props c p). split; [done|]. split; [done | done|]. cbn. unfold hap_debuggable. by rewrite Hh.
Qed.

Lemma reads_hap c : client_ok c -> reads (props pe IsDebuggableHap) c (hap_debuggable pe (g_props c)).
Proof.
  intros Hc. pose proof (IsDebuggableHap_ok pe (g_props c) Hc) as H. unfold reads, props.
  destruct (IsDebuggableHap pe (g_props c)) as [p v] eqn:E. destruct H as (-> & Hp). exists (set_props c p). split; [done|].
  split; [done | done|]. cbn. revert E. unfold IsDebuggableHap, hap_debuggable. destruct (c_hap (g_props c)) as [r|] eqn:Eh.
  - intros E%(f_equal fst). cbn in E. subst p. by rewrite Eh.
  - destruct (pe_getenv pe HAP_DEBUGGABLE) as [v|] eqn:Ev; intros E%(f_equal fst); cbn in E; subst p; [cbn | by rewrite Eh].
    apply bool_decide_ext. split; congruence.
Qed.

Lemma reads_ret {A} (x : A) c : client_ok c -> reads (mret x) c x.
Proof. intros Hc. exists c. split; [done | by apply agrees_refl]. Qed.

Lemma reads_bind {A B} (m : callM A) (f : A -> callM B) c v v' :
  reads m c v -> (forall c', agrees c c' -> reads (f v) c' v') -> reads (m ≫= f) c v'.
Proof.
  intros (c1 & E1 & H1) Hf. destruct (Hf c1 H1) as (c2 & E2 & H2). exists c2. split; [|by eapply agrees_trans].
  rewrite (callM_bind_run _ _ _ _ _ _ E1), E2. done.
Qed.

Lemma reads_run {A B} (m : callM A) (f : A -> callM B) c v :
  reads m c v -> exists c', agrees c c' /\ (m ≫= f) c = f v c'.
Proof.
  intros (c' & E & Ha). exists c'. split; [done|]. rewrite (callM_bind_run _ _ _ _ _ _ E).
  by destruct (f v c') as [[[? ?] ?]|].
Qed.

Lemma final_level_agrees c c' domain tag : agrees c c' -> final_level c' domain tag = final_level c domain tag.
Proof. intros Ha. unfold final_level. by rewrite (ag_hap _ _ Ha). Qed.

Lemma GetFinalLevel_reads domain tag c : client_ok c -> reads (GetFinalLevel pe domain tag) c (final_level c domain tag).
Proof using PL Hshort.
  intros Hc. unfold GetFinalLevel, final_level. cbv zeta.
  eapply reads_bind; [apply reads_props; [apply GetTagLevel_ok | done]|]. intros c1 H1. destruct (negb _); [apply reads_ret, H1|].
  eapply reads_bind; [apply reads_props; [apply GetPersistTagLevel_ok | apply H1]|]. intros c2 H2. destruct (negb _); [apply reads_ret, H2|].
  eapply reads_bind; [apply reads_props; [apply GetDomainLevel_ok | apply H2]|]. intros c3 H3. destruct (negb _); [apply reads_ret, H3|].
  eapply reads_bind; [apply reads_props; [apply GetPersistDomainLevel_ok | apply H3]|]. intros c4 H4. destruct (negb _); [apply reads_ret, H4|].
  assert (hap_debuggable pe (g_props c4) = hap_debuggable pe (g_props c)) as Hh.
  { by rewrite (ag_hap _ _ H4), (ag_hap _ _ H3), (ag_hap _ _ H2), (ag_hap _ _ H1). }
  eapply (reads_bind _ _ _ (IsAppDomain domain && hap_debuggable pe (g_props c))).
  - destruct (IsAppDomain domain); cbn [andb]; [rewrite <- Hh; apply reads_hap, H4 | apply reads_ret, H4].
  - intros c5 H5. destruct (_ && _); [apply reads_ret, H5|]. apply (reads_props _ _ c5 GetGlobalLogLevel_ok), H5.
Qed.

Lemma HiLogIsLoggable_reads domain tag level c : client_ok c -> reads (HiLogIsLoggable domain (Some tag) level) c (loggable c domain tag level).
Proof using PL Hshort.
  intros Hc. unfold Printf.HiLogIsLoggable, loggable. eapply reads_bind; [exists c; split; [done | by apply agrees_refl]|]. intros c1 H1.
  destruct (_ && _ && _); [apply reads_ret, H1|]. destruct (_ && _ && _); [apply reads_ret, H1|].
  destruct (_ || _ || _); cbn [negb andb]; [apply reads_ret, H1|]. rewrite <- (final_level_agrees c c1) by done.
  eapply reads_bind; [apply GetFinalLevel_reads, H1|]. intros c2 H2. apply reads_ret, H2.
Qed.

(** ** A line that is logged is sent *)

Definition debug_on : bool := the_switch PROP_ONCE_DEBUG false (pe_sys pe) || the_switch PROP_PERSIST_DEBUG false (pe_sys pe).
Definition private_now : bool := negb debug_on && the_switch PROP_PRIVATE true (pe_sys pe).

(** Whether the flow control of the process looks at lines of this type. *)
Definition flow_applies (c : client) (type : Z) : bool :=
  negb debug_on && (type =? LOG_APP) && the_switch PROP_PROCESS_FLOWCTRL false (pe_sys pe) && negb (hap_debuggable pe (g_props c)).

(** The sandbox log is not in use. *)
Definition console_only (c : client) : Prop := g_sandboxStatus c = SANDBOXLOG_DEFAULT /\ g_sandboxDomains c = [].

Lemma HiLogIsPrivacyOn_reads c : client_ok c -> reads (HiLogIsPrivacyOn pe) c private_now.
Proof using PL Hshort.
  intros Hc. unfold HiLogIsPrivacyOn, private_now. eapply reads_bind; [apply (reads_props _ _ c IsDebugOn_ok Hc)|]. intros c1 H1. cbv beta.
  fold debug_on. destruct debug_on; cbn [negb andb]; [apply reads_ret, H1|]. apply (reads_props _ _ c1 IsPrivateSwitchOn_ok), H1.
Qed.

Lemma format_line_reads fmt args c r text :
  client_ok c ->
  vsnprintfp_s lp64 char_signed wctomb malloc vsprintf_s (MAX_LOG_LEN - slen (PrintTraceId ce c)) (MAX_LOG_LEN - slen (PrintTraceId ce c) - 1)
    private_now fmt args = Some (r, text) ->
  reads (format_line fmt args) c (PrintTraceId ce c +:+ cstr text).
Proof using PL Hshort.
  intros Hc E. unfold Printf.format_line. eapply reads_bind; [exists c; split; [done | by apply agrees_refl]|]. intros c1 H1.
  eapply reads_bind; [apply HiLogIsPrivacyOn_reads, H1|]. intros c2 H2. cbv zeta. rewrite E.
  eapply reads_bind; [eexists; split; [done | apply agrees_refl, H2]|]. intros c3 H3. apply reads_ret, H3.
Qed.

Lemma HiLogPrintVerify_reads type level domain tag fmt args c :
  client_ok c -> console_only c -> type = LOG_APP \/ DOMAIN_OS_MIN <= domain <= DOMAIN_OS_MAX ->
  reads (HiLogPrintVerify type level domain (Some tag) fmt args) c (loggable c domain tag level, false).
Proof using PL Hshort.
  intros Hc [Hst Hdom] Hd. unfold Printf.HiLogPrintVerify.
  assert (negb (type =? LOG_APP) && ((domain <? DOMAIN_OS_MIN) || (DOMAIN_OS_MAX <? domain)) = false) as ->.
  { destruct Hd as [->|Hd]; [done|]. destruct (Z.ltb_spec domain DOMAIN_OS_MIN), (Z.ltb_spec DOMAIN_OS_MAX domain); try lia; by rewrite andb_false_r. }
  eapply reads_bind; [by apply HiLogIsLoggable_reads|]. intros c1 H1. destruct (loggable c domain tag level); cbn [negb]; [|apply reads_ret, H1].
  assert (g_sandboxStatus c1 = SANDBOXLOG_DEFAULT /\ g_sandboxDomains c1 = []) as [Hst1 Hdom1] by (by rewrite (ag_client _ _ H1)).
  eapply (reads_bind _ _ _ false).
  - unfold Printf.HiLogPrintSandboxLog. eapply reads_bind; [exists c1; split; [done | apply agrees_refl, H1]|]. intros c2 H2.
    unfold IsSandboxValidDomain. rewrite Hst1, Hdom1. apply reads_ret, H2.
  - intros c2 H2. eapply reads_bind; [exists c2; split; [done | apply agrees_refl, H2]|]. intros c3 H3.
    assert (g_sandboxStatus c2 = SANDBOXLOG_DEFAULT) as -> by (by rewrite (ag_client _ _ H2)). rewrite andb_false_r. apply reads_ret, H3.
Qed.

Lemma IsNeedProcFlowCtr_reads type c :
  client_ok c -> reads (debug ← props pe IsDebugOn; if debug : bool then mret false else IsNeedProcFlowCtr pe type) c (flow_applies c type).
Proof using PL Hshort.
  intros Hc. unfold flow_applies, IsNeedProcFlowCtr. eapply reads_bind; [apply (reads_props _ _ c IsDebugOn_ok Hc)|]. intros c1 H1. cbv beta.
  fold debug_on. destruct debug_on; cbn [negb andb]; [apply reads_ret, H1|]. destruct (type =? LOG_APP); cbn [negb andb]; [|apply reads_ret, H1].
  eapply reads_bind; [apply (reads_props _ _ c1 IsProcessSwitchOn_ok), H1|]. intros c2 H2. cbv beta. destruct (the_switch PROP_PROCESS_FLOWCTRL _ _); [|apply reads_ret, H2].
  cbn [andb]. rewrite <- (ag_hap _ _ H1), <- (ag_hap _ _ H2). eapply reads_bind; [apply reads_hap, H2|]. intros c3 H3. apply reads_ret, H3.
Qed.

(** The text after the header of the trace. *)
Definition formatted (c : client) (fmt : string) (args : list varg) : option (Z * string) :=
  vsnprintfp_s lp64 char_signed wctomb malloc vsprintf_s (MAX_LOG_LEN - slen (PrintTraceId ce c)) (MAX_LOG_LEN - slen (PrintTraceId ce c) - 1)
    private_now fmt args.

(** The call of the callback, where one is set. *)
Definition callback_of (c : client) (type level domain : Z) (tag text : string) : list effect :=
  match g_logCallback c with Some f => [Callback f type level domain tag text] | None => [] end.

Definition datagram_of (type level domain : Z) (tag buf : string) : string :=
  WriteLogMessage (line_header ce type level domain) (tag +:+ String NUL "") (Z.min (slen (cstr tag)) (MAX_TAG_LEN - 1) + 1)
    (buf +:+ String NUL "") (Z.min (slen buf) (MAX_LOG_LEN - 1) + 1).

(** What follows the formatting of the line: no part of it depends on more
    than the switches. *)
Lemma print_tail_run type level domain tag buf c :
  client_ok c -> flow_applies c type = false ->
  exists c', ((if level =? LOG_FATAL then c ← get; put (set_fatal c buf) else mret tt);;
    debug ← props pe IsDebugOn;
    need ← (if debug : bool then mret false else IsNeedProcFlowCtr pe type);
    ret ← (if need : bool then
             HiLogFlowCtrlProcess pe ce
               (Z.min (slen (cstr tag)) (MAX_TAG_LEN - 1) + Z.min (slen buf) (MAX_LOG_LEN - 1) - slen (PrintTraceId ce c))
               (mkTS (u32 (ce_monotonic ce).1) (u32 (ce_monotonic ce).2))
           else mret 0);
    if ret <? 0 then mret ret else
    (if 0 <? ret then send ce (with_level (line_header ce type level domain) LOG_WARN) "LOGLIMIT" ("==LOGS OVER PROC QUOTA, " +:+ to_string ret +:+ " DROPPED==")
     else mret 0);;
    send ce (line_header ce type level domain) tag buf) c
  = Some (c', [Sent (datagram_of type level domain tag buf)], ce_send ce (datagram_of type level domain tag buf)) /\
  client_ok c' /\ g_hiLogLastFatalMessage c' = (if level =? LOG_FATAL then buf else g_hiLogLastFatalMessage c).
Proof using PL Hshort.
  intros Hc Hf. set (c1 := if level =? LOG_FATAL then set_fatal c buf else c).
  assert (client_ok c1 /\ flow_applies c1 type = false /\ g_hiLogLastFatalMessage c1 = (if level =? LOG_FATAL then buf else g_hiLogLastFatalMessage c))
    as (Hc1 & Hf1 & Hm) by (subst c1; by destruct (level =? LOG_FATAL)).
  erewrite callM_bind_run; [|instantiate (3 := c1); subst c1; by destruct (level =? LOG_FATAL)].
  pose proof (IsNeedProcFlowCtr_reads type c1 Hc1) as (c3 & E & H3). rewrite Hf1 in E.
  apply callM_bind_Some in E as (c2 & es1 & debug & es2 & E1 & E2 & [? ?]%eq_sym%app_nil). subst es1 es2.
  exists c3. split; [|split; [apply H3 | by rewrite (ag_client _ _ H3), <- Hm]].
  erewrite callM_bind_run by exact E1. erewrite callM_bind_run by exact E2. done.
Qed.

Lemma print_run type level domain tag fmt args c r text :
  client_ok c -> console_only c -> type <> LOG_KMSG -> type = LOG_APP \/ DOMAIN_OS_MIN <= domain <= DOMAIN_OS_MAX ->
  loggable c domain tag level = true -> flow_applies c type = false -> formatted c fmt args = Some (r, text) ->
  let buf := PrintTraceId ce c +:+ cstr text in
  let d := datagram_of type level domain tag buf in
  exists c', HiLogPrintArgs type level domain (Some tag) fmt args c
    = Some (c', callback_of c type level domain tag (cstr text) ++ [Sent d], ce_send ce d) /\
  client_ok c' /\ g_hiLogLastFatalMessage c' = (if level =? LOG_FATAL then buf else g_hiLogLastFatalMessage c).
Proof using PL Hshort.
  intros Hc Hs Hk Hd Hl Hf E buf d. unfold Printf.HiLogPrintArgs.
  pose proof (HiLogPrintVerify_reads type level domain tag fmt args c Hc Hs Hd) as (c1 & E1 & H1). rewrite Hl in E1.
  rewrite (callM_bind_run _ _ _ _ _ _ E1). cbn [negb app]. unfold va_again. cbn [andb].
  destruct (Z.eqb_spec type LOG_KMSG); [done|].
  assert (PrintTraceId ce c1 = PrintTraceId ce c) as Ht by (by rewrite (ag_client _ _ H1)).
  destruct (format_line_reads fmt args c1 r text (ag_ok _ _ H1)) as (c2 & E2 & H2); [by rewrite Ht|]. rewrite Ht in E2. fold buf in E2.
  rewrite (callM_bind_run _ _ _ _ _ _ E2). pose proof (agrees_trans _ _ _ H1 H2) as H12.
  assert (PrintTraceId ce c2 = PrintTraceId ce c) as Ht2 by (by rewrite (ag_client _ _ H12)).
  assert (g_logCallback c2 = g_logCallback c) as Hcb by (by rewrite (ag_client _ _ H12)).
  assert (flow_applies c2 type = false) as Hf2 by (unfold flow_applies in *; by rewrite (ag_hap _ _ H12)).
  destruct (print_tail_run type level domain tag buf c2 (ag_ok _ _ H12) Hf2) as (c' & E' & Hc' & Hm).
  exists c'. split; [|split; [done | by rewrite Hm, (ag_client _ _ H12)]].
  rewrite (callM_bind_run get _ c2 c2 [] c2 eq_refl). cbv zeta. rewrite Ht2, Hcb in *. cbn [default].
  replace (str_drop (String.length (PrintTraceId ce c)) buf) with (cstr text) by (symmetry; apply str_drop_app_length).
  rewrite (callM_bind_run _ _ c2 c2 (callback_of c type level domain tag (cstr text)) tt) by (unfold callback_of; by destruct (g_logCallback c)).
  rewrite (callM_bind_run (lift (Some tag)) _ c2 c2 [] tag eq_refl).
  by rewrite E'.
Qed.

(** ** The line that is sent is one the daemon takes *)

(** The identifiers of a trace are 64 bits wide. *)
Definition ids_ok : Prop :=
  forall func, let '(_, chainId, spanId, parentSpanId) := ce_trace ce func in
    0 <= chainId < 2 ^ 64 /\ 0 <= spanId < 2 ^ 64 /\ 0 <= parentSpanId < 2 ^ 64.

Lemma slen_hex z : 0 <= z < 2 ^ 64 -> slen (Uint2HexStr z) <= 64.
Proof.
  intros Hz. unfold Uint2HexStr, Num2Str. etransitivity; [apply slen_num_go|]. change (slen "") with 0.
  assert (Z.log2 z < 64); [|pose proof (Z.log2_nonneg z); lia].
  destruct (Z.eq_dec z 0) as [->|]; [done|]. apply Z.log2_lt_pow2; lia.
Qed.

Lemma PrintTraceId_ok c : ids_ok -> no_char NUL (PrintTraceId ce c) /\ slen (PrintTraceId ce c) <= 200.
Proof.
  intros Hi. unfold PrintTraceId. assert (no_char NUL "" /\ slen "" <= 200) as Hnil by (split; [apply not_elem_of_nil | by vm_compute]).
  destruct (g_registerFunc c) as [func|]; [|done]. specialize (Hi func). destruct (ce_trace ce func) as [[[ret a] b] d].
  destruct Hi as (Ha & Hb & Hd). apply slen_hex in Ha, Hb, Hd.
  destruct (ret =? 0); [|destruct (negb _); [|done]]; rewrite ?slen_app;
    change (slen "[") with 1; change (slen ", ") with 2; change (slen "] ") with 2; (split; [|lia]);
    repeat apply no_char_app; try apply hex_no_nul; apply (bool_decide_unpack _); by vm_compute.
Qed.

(** A line that is to be logged, and that the daemon accepts. *)
Record logged (c : client) (type level domain : Z) (tag : string) : Prop := {
  lg_console : console_only c;
  lg_type : 0 <= type < LOG_TYPE_MAX /\ type <> LOG_KMSG;
  lg_level : LOG_DEBUG <= level < LOG_LEVEL_MAX;
  lg_domain : 0 <= domain < 2 ^ 32 /\ IsValidDomain type domain = true;
  lg_tag : no_char NUL tag /\ slen tag < MAX_TAG_LEN;
  lg_loggable : loggable c domain tag level = true;
  lg_flow : flow_applies c type = false;
}.

Lemma valid_domain_range type domain : IsValidDomain type domain = true -> type = LOG_APP \/ DOMAIN_OS_MIN <= domain <= DOMAIN_OS_MAX.
Proof.
  unfold IsValidDomain. intros Hval. destruct (Z.eqb_spec type LOG_APP); [by left|]. right.
  destruct (Z.leb_spec DOMAIN_OS_MIN domain), (Z.leb_spec domain DOMAIN_OS_MAX); try done; lia.
Qed.

Lemma logged_sent c type level domain tag fmt args r text :
  ids_ok -> libc_ok wctomb vsprintf_s -> Forall arg_fits args -> logged c type level domain tag -> formatted c fmt args = Some (r, text) ->
  let h := line_header ce type level domain in
  let buf := PrintTraceId ce c +:+ cstr text in
  msg_wf h /\ sendable tag buf /\ msg_type h = type /\ msg_level h = level /\
  datagram_of type level domain tag buf = WriteLogMessage h (tag +:+ String NUL "") (slen tag + 1) (buf +:+ String NUL "") (slen buf + 1).
Proof.
  intros Hi Hlib Hargs [_ [Hty _] Hlv [Hdom _] [Hn Ht] _ _] E h buf. destruct (PrintTraceId_ok c Hi) as [Hpn Hpl].
  assert (slen buf < MAX_LOG_LEN) as Hb.
  { unfold MAX_LOG_LEN, SECUREC_STRING_MAX_LEN in *. pose proof (slen_nonneg (PrintTraceId ce c)).
    apply vsnprintfp_in_buffer in E as (Hl & _); [|done|done|unfold SECUREC_STRING_MAX_LEN, MAX_LOG_LEN; lia|unfold MAX_LOG_LEN; lia].
    subst buf. rewrite slen_app. pose proof (slen_cstr text). unfold MAX_LOG_LEN in Hl. lia. }
  unfold LOG_TYPE_MAX, LOG_DEBUG, LOG_LEVEL_MAX, MAX_LOG_LEN, MAX_TAG_LEN in *.
  split; [|split; [|split; [cbn; apply Z.mod_small; lia | split; [cbn; apply Z.mod_small; lia|]]]].
  - unfold msg_wf, h, line_header. cbn [msg_len msg_version msg_type msg_level msg_tagLen msg_tv_sec msg_tv_nsec msg_mono_sec msg_pid msg_tid msg_domain].
    repeat split; try lia; apply Z.mod_pos_bound || apply wrapu_range; lia.
  - split; [done | by apply no_char_app; [|apply cstr_no_nul] | unfold MAX_TAG_LEN; lia | unfold MAX_LOG_LEN; lia].
  - unfold datagram_of. rewrite cstr_id by done. unfold MAX_LOG_LEN, MAX_TAG_LEN. by rewrite !Z.min_l by lia.
Qed.

(** C3: a call of the library, from its arguments to the buffer of the daemon.
    A call for a line that the switches and the levels let through, with a
    type that is not that of the kernel, a level, a tag that is not cut and a
    domain that the daemon accepts, and with arguments that are there and fit,
    while the sandbox log is not in use and the flow control of the process
    does not look at the line, tells the callback, if there is one, of the line, sends
    one datagram and returns what the socket returned; a fatal line is kept as
    the last fatal message.  The daemon that serves the datagram appends to
    its buffer the line with the tag, the level, the type and the domain of
    the call, the identifiers of the trace before the formatted text as its
    content, and the process of the socket, unless the flow control of the
    daemon drops it. *)
Theorem log_call_stored maxsz quota name type level domain tag fmt args c r text d pid buffer :
  let h := line_header ce type level domain in
  let buf := PrintTraceId ce c +:+ cstr text in
  let v := flow_verdict quota d (set_pid (sent_msg h (slen tag + 1) (slen buf + 1) "") (u32 pid)) in
  let bt := ConvertBufType type in
  let l := hilogDataList (m_hilogBuffer d) in
  client_ok c -> ids_ok -> libc_ok wctomb vsprintf_s -> Forall arg_fits args ->
  logged c type level domain tag -> formatted c fmt args = Some (r, text) ->
  limits_ok maxsz -> coll_ok d -> m_isSupportSkipLog (m_hilogBuffer d) = true -> slen buffer = MAX_SOCKET_PACKET_LEN ->
  exists c' datagram buffer' d',
    HiLogPrintArgs type level domain (Some tag) fmt args c
      = Some (c', callback_of c type level domain tag (cstr text) ++ [Sent datagram], ce_send ce datagram) /\
    g_hiLogLastFatalMessage c' = (if level =? LOG_FATAL then buf else g_hiLogLastFatalMessage c) /\
    serve maxsz quota name buffer d pid datagram = Some (buffer', d') /\ coll_ok d' /\
    if v <? 0 then hilogDataList (m_hilogBuffer d') = l
    else exists k1 k2 notice i line,
      hilogDataList (m_hilogBuffer d') = evict bt k2 (if 0 <? v then evict bt k1 l ++ [notice] else l) ++ [(i, line)] /\
      d_tag line = tag /\ d_content line = buf /\ d_level line = level /\ d_type line = type /\ d_domain line = domain /\
      d_pid line = u32 pid /\ d_tid line = u32 (ce_tid ce) /\ d_tv_sec line = u32 (ce_realtime ce).1 /\ d_tv_nsec line = u32 (ce_realtime ce).2.
Proof using PL Hshort.
  intros h buf v bt l Hc Hi Hlib Hargs Hlg E Hlim Hd Hsk Hb.
  destruct (logged_sent c type level domain tag fmt args r text Hi Hlib Hargs Hlg E) as (Hwf & Hs & Ht & Hl & Hdg). fold h buf in Hwf, Hs, Ht, Hl, Hdg.
  destruct Hlg as [Hcon [Hty Hk] Hlv [Hdom Hval] Htag Hlog Hflow].
  pose proof (valid_domain_range _ _ Hval) as Hrange.
  destruct (print_run type level domain tag fmt args c r text Hc Hcon Hk Hrange Hlog Hflow E) as (c' & Ec & _ & Hm). fold buf in Ec, Hm.
  destruct (serve_sent maxsz quota name d pid buffer h tag buf Hlim Hd Hsk Hb Hwf Hs) as (buffer' & d' & Es & Hd' & Hstored);
    [rewrite Ht; exact Hval | rewrite Ht; lia | right; rewrite Hl; lia|].
  exists c', (datagram_of type level domain tag buf), buffer', d'. rewrite Hdg in *. split_and!; [done | done | done | done|].
  fold v in Hstored. rewrite Ht in Hstored. destruct (v <? 0); [done|].
  destruct Hstored as (k1 & k2 & n & i & line & H1 & ? & ? & Hlv' & ? & ? & ? & ? & ? & ? & _). exists k1, k2, n, i, line. rewrite Hl in Hlv'. done.
Qed.

(** ** The domains of the sandbox log *)

Section domains.
Context (domains : list Z) (isExclude : bool).

(** The same client with another restriction to domains. *)
Definition restricted (c : client) : client := set_sandbox c (g_sandboxStatus c) domains isExclude.

(** Two calls do the same for a client that uses the sandbox log, whatever the
    domains are. *)
Definition blind {A} (m m' : callM A) : Prop := forall c, g_sandboxStatus c <> SANDBOXLOG_DEFAULT ->
  match m c with
  | Some (c1, es, x) => m' (restricted c) = Some (restricted c1, es, x) /\ g_sandboxStatus c1 <> SANDBOXLOG_DEFAULT
  | None => m' (restricted c) = None
  end.

Lemma blind_ret {A} (x : A) : blind (mret x) (mret x).
Proof. by intros c Hc. Qed.

Lemma blind_bind {A B} (m m' : callM A) (f f' : A -> callM B) : blind m m' -> (forall x, blind (f x) (f' x)) -> blind (m ≫= f) (m' ≫= f').
Proof.
  intros Hm Hf c Hc. specialize (Hm c Hc). unfold mbind, callM_bind. destruct (m c) as [[[c1 es] x]|]; cbn; [|by rewrite Hm].
  destruct Hm as [-> Hc1]. specialize (Hf x c1 Hc1). cbn. destruct (f x c1) as [[[c2 es2] y]|]; cbn; [|by rewrite Hf]. by destruct Hf as [-> ?].
Qed.

Lemma blind_get {B} (f f' : client -> callM B) :
  (forall c, g_sandboxStatus c <> SANDBOXLOG_DEFAULT -> blind (f c) (f' (restricted c))) -> blind (get ≫= f) (get ≫= f').
Proof.
  intros Hf c Hc. specialize (Hf c Hc c Hc). unfold mbind, callM_bind, get. cbn. destruct (f c c) as [[[c1 es] x]|]; [by destruct Hf as [-> ?] | by rewrite Hf].
Qed.

Lemma blind_put c : g_sandboxStatus c <> SANDBOXLOG_DEFAULT -> blind (put c) (put (restricted c)).
Proof. by intros Hc c0 _. Qed.

Lemma blind_emit e : blind (emit e) (emit e).
Proof. by intros c Hc. Qed.

Lemma blind_lift {A} (o : option A) : blind (lift o) (lift o).
Proof. intros c Hc. by destruct o. Qed.

Lemma blind_props {A} (m : propsM A) : blind (props pe m) (props pe m).
Proof. intros c Hc. unfold props. cbn [g_props restricted set_sandbox]. by destruct (m pe (g_props c)) as [p x]. Qed.

Ltac blind_step :=
  match goal with
  | |- blind (mret _) _ => apply blind_ret
  | |- blind (emit _) _ => apply blind_emit
  | |- blind (lift _) _ => apply blind_lift
  | |- blind (put _) _ => apply blind_put; done
  | |- blind (props _ _) _ => apply blind_props
  | |- blind (get ≫= _) _ => apply blind_get; intros ? ?
  | |- blind (_ ≫= _) _ => apply blind_bind; [|intros ?]
  | |- blind (if ?b then _ else ?x) (if ?b' then ?y else ?z) => change (if b' then y else z) with (if b then y else z); destruct b
  | |- blind ?m ?m' => progress change m' with m
  | |- blind (match ?o with _ => _ end) _ => destruct o
  | |- blind (let _ := _ in _) _ => cbv zeta
  end.
Ltac blind := repeat blind_step.
Lemma HiLogIsLoggable_blind domain tag level : blind (HiLogIsLoggable domain tag level) (HiLogIsLoggable domain tag level).
Proof. unfold HiLogIsLoggable, GetFinalLevel. blind. Qed.

Lemma format_line_blind fmt args : blind (format_line fmt args) (format_line fmt args).
Proof. unfold format_line, HiLogIsPrivacyOn. blind. Qed.

Lemma HiLogPrintSandboxLog_blind type level domain tag fmt args :
  blind (HiLogPrintSandboxLog type level domain tag fmt args) (HiLogPrintSandboxLog type level domain tag fmt args).
Proof.
  unfold HiLogPrintSandboxLog. apply blind_get. intros c Hc. cbn [g_sandboxStatus restricted set_sandbox].
  rewrite (proj2 (Z.eqb_neq _ _) Hc). cbn [andb]. blind; apply format_line_blind.
Qed.

Lemma HiLogPrintVerify_blind type level domain tag fmt args :
  blind (HiLogPrintVerify type level domain tag fmt args) (HiLogPrintVerify type level domain tag fmt args).
Proof. unfold HiLogPrintVerify. blind; [apply HiLogIsLoggable_blind | apply HiLogPrintSandboxLog_blind]. Qed.

Lemma HiLogFlowCtrlProcess_blind len ts : blind (HiLogFlowCtrlProcess pe ce len ts) (HiLogFlowCtrlProcess pe ce len ts).
Proof. unfold HiLogFlowCtrlProcess. blind. Qed.

Lemma HiLogPrintArgs_blind type level domain tag fmt args :
  blind (HiLogPrintArgs type level domain tag fmt args) (HiLogPrintArgs type level domain tag fmt args).
Proof.
  unfold HiLogPrintArgs, LogToKmsg, HiLogIsPrivacyOn, send, IsNeedProcFlowCtr.
  blind; first [apply HiLogPrintVerify_blind | apply format_line_blind | apply HiLogFlowCtrlProcess_blind].
Qed.
End domains.

(** What a caller and the rest of the system see of a call. *)
Definition outcome {A} (m : callM A) (c : client) : option (list effect * A) := '(_, es, x) ← m c; Some (es, x).

(** The restriction of the sandbox log to some domains, or to all but some,
    has no effect: after an application has chosen one of the four sandbox
    outputs with a list of domains, every logging call, whatever its domain,
    does and returns just what it does when no domains were given.  The test
    of the domain only decides whether a line is formatted while no sandbox
    output is chosen at all. *)
Theorem sandbox_domains_ignored output domains isExclude type level domain tag fmt args c :
  PRIVATE_SANDBOX_ONLY <= output <= SHARE_SANDBOX_WITH_CONSOLE ->
  outcome (InnerSetOutputTypeByDomainId output domains isExclude;; HiLogPrintArgs type level domain tag fmt args) c
  = outcome (InnerSetOutputType output;; HiLogPrintArgs type level domain tag fmt args) c.
Proof.
  intros Ho. unfold PRIVATE_SANDBOX_ONLY, SHARE_SANDBOX_WITH_CONSOLE in Ho. set (c0 := set_sandbox c output [] (g_sandboxIsExclude c)).
  assert (g_sandboxStatus c0 <> SANDBOXLOG_DEFAULT) as Hc0 by (cbn; unfold SANDBOXLOG_DEFAULT; lia).
  pose proof (HiLogPrintArgs_blind domains isExclude type level domain tag fmt args c0 Hc0) as H.
  assert (exists es x, InnerSetOutputType output c = Some (c0, es, x) /\
    InnerSetOutputTypeByDomainId output domains isExclude c = Some (restricted domains isExclude c0, es, x)) as (es & x & E1 & E2).
  { unfold InnerSetOutputType, InnerSetOutputTypeByDomainId, switch_sandboxes. subst c0.
    assert (output = 1 \/ output = 2 \/ output = 3 \/ output = 4) as [->|[->|[->| ->]]] by lia; by repeat eexists. }
  unfold outcome. rewrite (callM_bind_run _ _ _ _ _ _ E1), (callM_bind_run _ _ _ _ _ _ E2).
  destruct (HiLogPrintArgs _ _ _ _ _ _ c0) as [[[c1 es1] y]|]; [by destruct H as [-> _] | by rewrite H].
Qed.
End print.

(** C2: while privacy is on, nothing that a logging call does depends on the
    arguments that the format does not mark public: not the datagrams to the
    daemon, nor the kernel log, the callback of the process, the sandbox log,
    the last fatal message, or the result.  Every private argument can be
    replaced by any value of its type.  This holds while the caches of the
    process are in order, so that the switch it sees is the one of the system,
    the values of the parameters are short, every allocation succeeds, and
    precisions given by arguments are in range. *)
Theorem log_call_private {PS : ParamService} {PL : ParamLaws PS} lp64 char_signed wctomb malloc vsprintf_s localtime_r va_copied pe ce
    type level domain tag fmt args c :
  short_values (pe_sys pe) -> caches_ok (g_props c) (pe_sys pe) -> privacy_on pe ->
  (forall size, malloc size = true) -> precisions_ok lp64 (uses lp64 fmt) args ->
  HiLogPrintArgs lp64 char_signed wctomb malloc vsprintf_s localtime_r va_copied pe ce type level domain tag fmt args c
  = HiLogPrintArgs lp64 char_signed wctomb malloc vsprintf_s localtime_r va_copied pe ce type level domain tag fmt
      (redact (uses lp64 fmt) args) c.
Proof.
  intros Hs Hc Hp Hm Ha. unfold HiLogPrintArgs.
  match goal with |- (?m ≫= _) c = (?m' ≫= _) c => assert (m c = m' c) as Hv by by apply verify_redact end.
  rewrite (callM_bind_eq _ _ _ _ Hv). apply callM_bind_ext. intros c1 es [go read] E.
  assert (caches_ok (g_props c1) (pe_sys pe)) as Hc1 by (eapply HiLogPrintVerify_keeps; [exact Hs | exact Hc | exact E]).
  destruct go; cbn [negb]; [|done]. destruct (read && negb va_copied) eqn:Er; unfold va_again; rewrite Er; [done|].
  destruct (type =? LOG_KMSG).
  - apply callM_bind_ext. intros c2 es2 b E2. destruct (HiLogIsPrivacyOn_true pe Hs c1 Hc1 Hp) as (c3 & E3). rewrite E3 in E2.
    injection E2 as <- <- <-. by rewrite vsnprintfp_redact.
  - apply callM_bind_eq. by apply format_line_redact.
Qed.

(** ** Instances *)

Definition ex_pe : penv := mkPenv (hist_start []) (fun _ => true) (fun _ => None).

Definition ex_ce : call_env :=
  mkCallEnv (fun _ => (0, 0xabc, 1, 2)) (1700000000, 5) (100, 6) 77 78 "app" 3 slen slen.

Definition ex_client : client := set_functions new_client (Some 1%nat) (Some 2%nat).

Lemma ex_short : short_values (pe_sys ex_pe).
Proof. intros k v H. by vm_compute in H. Qed.

(** A user name in a line for which no parameter is set. *)
Lemma log_call_private_witness :
  let call args := HiLogPrintArgs true true ex_wctomb (fun _ => true) ex_vsprintf (fun _ => None) true ex_pe ex_ce LOG_CORE LOG_INFO 0xD002D00
    (Some "tag") "user %s" args ex_client in
  call [VStr (Some "bob")] = call (redact (uses true "user %s") [VStr (Some "bob")]) /\
  redact (uses true "user %s") [VStr (Some "bob")] <> [VStr (Some "bob")].
Proof.
  intros call. split; [|by vm_compute].
  apply (@log_call_private hist_service hist_laws true true ex_wctomb (fun _ => true) ex_vsprintf (fun _ => None) true ex_pe ex_ce
    LOG_CORE LOG_INFO 0xD002D00 (Some "tag") "user %s" [VStr (Some "bob")] ex_client ex_short (new_caches_ok _)).
  - by vm_compute.
  - done.
  - by repeat split.
Defined.

(** Two applications that log to their private sandbox only, one of which
    excludes the domain of the line. *)
Lemma sandbox_domains_ignored_witness :
  let call := HiLogPrintArgs true true ex_wctomb (fun _ => true) ex_vsprintf (fun _ => Some (mkTm 20 13 22 14 10 123 "UTC")) true ex_pe ex_ce
    LOG_APP LOG_INFO 0x10 (Some "tag") "hello" [] in
  outcome (InnerSetOutputTypeByDomainId PRIVATE_SANDBOX_ONLY [0x10] true;; call) ex_client
  = outcome (InnerSetOutputType PRIVATE_SANDBOX_ONLY;; call) ex_client.
Proof. intros call. apply sandbox_domains_ignored. by vm_compute. Defined.

Lemma ex_ids : ids_ok ex_ce.
Proof. intros func. cbn. lia. Qed.

Lemma ex_logged : logged ex_pe ex_client LOG_CORE LOG_INFO 0xD002D00 "tag".
Proof.
  split; [by split | by split | by split | by vm_compute | | by vm_compute | by vm_compute].
  split; [apply (bool_decide_unpack _); by vm_compute | by vm_compute].
Qed.

(** A line of an application without any parameter set, served by a daemon
    that counts lines and controls their flow. *)
Lemma log_call_stored_witness :
  exists c' datagram buffer' d',
    HiLogPrintArgs true true ex_wctomb (fun _ => true) ex_vsprintf (fun _ => None) true ex_pe ex_ce LOG_CORE LOG_INFO 0xD002D00 (Some "tag")
      "user %s" [VStr (Some "bob")] ex_client
      = Some (c', [Callback 2 LOG_CORE LOG_INFO 0xD002D00 "tag" "user <private>"; Sent datagram], slen datagram) /\
    serve ex_maxsz (fun _ => 100) (fun _ => "p") ex_recv (ex_coll true true) 7 datagram = Some (buffer', d') /\
    (((fun d => (d_tag d, d_content d)) ∘ snd) <$> hilogDataList (m_hilogBuffer d'))
    = [("LOGLIMIT", "3 line(s) dropped!"); ("tag", "[abc, 1, 2] user <private>")].
Proof.
  assert (slen ex_recv = MAX_SOCKET_PACKET_LEN) as Hr by (by vm_compute).
  assert (Forall arg_fits [VStr (Some "bob")]) as Hargs by (repeat constructor; by vm_compute).
  assert (formatted true true ex_wctomb (fun _ => true) ex_vsprintf ex_pe ex_ce ex_client "user %s" [VStr (Some "bob")] = Some (14, "user <private>"))
    as Ef by (by vm_compute).
  destruct (@log_call_stored hist_service hist_laws true true ex_wctomb (fun _ => true) ex_vsprintf (fun _ => None) true ex_pe ex_ce ex_short
    ex_maxsz (fun _ => 100) (fun _ => "p") LOG_CORE LOG_INFO 0xD002D00 "tag" "user %s" [VStr (Some "bob")] ex_client 14 "user <private>" (ex_coll true true) 7 ex_recv
    (new_caches_ok _) ex_ids ex_libc_ok Hargs ex_logged Ef ex_maxsz_ok (ex_coll_ok true true) eq_refl Hr) as (c' & dg & b' & d' & E & _ & Es & _ & Hst).
  exists c', dg, b', d'. split; [exact E|]. split; [exact Es|].
  assert (match HiLogPrintArgs true true ex_wctomb (fun _ => true) ex_vsprintf (fun _ => None) true ex_pe ex_ce LOG_CORE LOG_INFO 0xD002D00 (Some "tag")
      "user %s" [VStr (Some "bob")] ex_client with
    | Some (_, [_; Sent datagram], _) =>
        match serve ex_maxsz (fun _ => 100) (fun _ => "p") ex_recv (ex_coll true true) 7 datagram with
        | Some (_, d') => (((fun d => (d_tag d, d_content d)) ∘ snd) <$> hilogDataList (m_hilogBuffer d'))
            = [("LOGLIMIT", "3 line(s) dropped!"); ("tag", "[abc, 1, 2] user <private>")]
        | None => False
        end
    | _ => False
    end) as Hx by (by vm_compute).
  rewrite E in Hx. cbn [callback_of ex_client set_functions g_logCallback app] in Hx. by rewrite Es in Hx.
Defined.
