(* ===== verification/JsText.v ===== *)
(** * Text of the bindings for JavaScript and ArkTS

    Both bindings build the text of a line themselves, by a loop over the
    format, and split the list of log files the library returns.  This file
    holds what the two share: strings by position, the shape of the loop, and
    what a format means, as a list of pieces. *)

From S2P Require Import Prelude Common Utils.
From Stdlib Require Import Ascii.

Definition PUBLIC_LEN : Z := 6.
Definition PRIVATE_LEN : Z := 7.
Definition PROPERTY_POS : Z := 2.
Definition PRIV_STR : string := "<private>".

(** [s[i]] of a [std::string], and [s.substr(pos, n)] for [pos] in range. *)
Definition char_at (s : string) (i : Z) : ascii := default NUL (String.get (Z.to_nat i) s).
Definition substr (s : string) (pos n : Z) : string := str_take (Z.to_nat n) (str_drop (Z.to_nat pos) s).

(** [SpiltString]: the pieces between the delimiters, none for the empty string. *)
Fixpoint tokens (delimiter : ascii) (s : string) : list string :=
  match s with
  | EmptyString => [""]
  | String c s =>
      if Ascii.eqb c delimiter then "" :: tokens delimiter s
      else match tokens delimiter s with
           | t :: ts => String c t :: ts
           | [] => [String c ""]
           end
  end.
Definition SpiltString (str : string) (delimiter : ascii) : list string := if bool_decide (str = "") then [] else tokens delimiter str.

(** ** The loop over the format *)

(** One pass of [for (; pos < len; ++pos)]: it ends with [++pos], or leaves
    the loop; [pos] and the number of parameters used are [uint32_t]. *)
Inductive pass := Continue (pos count : Z) (logContent : string) | Break (pos : Z) (logContent : string).

Fixpoint passes (body : Z -> Z -> string -> pass) (len : Z) (fuel : nat) (pos count : Z) (logContent : string) : option (Z * string) :=
  match fuel with
  | O => None
  | S fuel =>
      if pos <? len then
        match body pos count logContent with
        | Continue pos count logContent => passes body len fuel (u32 (pos + 1)) count logContent
        | Break pos logContent => Some (pos, logContent)
        end
      else Some (pos, logContent)
  end.

(** After the loop the rest of the format is copied. *)
Definition with_rest (formatStr : string) (r : Z * string) : string :=
  let '(pos, logContent) := r in
  if pos <? slen formatStr then logContent +:+ substr formatStr pos (slen formatStr - pos) else logContent.

(** ** What a format means *)

Inductive mark := Bare | Public | Private.
#[export] Instance mark_eq_dec : EqDecision mark.
Proof. solve_decision. Defined.

Inductive piece :=
| Lit (c : ascii)                   (* a character that is not '%' *)
| Percent                           (* "%%" *)
| Stray (c : ascii)                 (* '%' and a character that asks for nothing *)
| Hole (m : mark) (k : ascii).      (* a parameter *)

Definition show_mark (m : mark) : string := match m with Bare => "" | Public => "{public}" | Private => "{private}" end.
Definition show_piece (p : piece) : string :=
  match p with
  | Lit c => String c ""
  | Percent => "%%"
  | Stray c => String "%" (String c "")
  | Hole m k => String "%" (show_mark m +:+ String k "")
  end.
Definition show (ps : list piece) : string := foldr (fun p s => show_piece p +:+ s) "" ps.

Definition hole_char (c : ascii) : bool := str_mem c "disoO".

(** The words that the loops take for a mark two characters after '%'. *)
Definition unmarked (rest : string) : bool := negb (String.prefix "public" rest) && negb (String.prefix "private" rest).

Fixpoint wf (ps : list piece) (tail : string) : bool :=
  match ps with
  | [] => true
  | p :: ps =>
      (match p with
       | Lit c => negb (Ascii.eqb c "%")
       | Percent => unmarked (show ps +:+ tail)
       | Stray c => negb (Ascii.eqb c "%") && negb (hole_char c) && unmarked (show ps +:+ tail)
       | Hole _ k => hole_char k && unmarked (show ps +:+ tail)
       end) && wf ps tail
  end.

Section render.
Context {P : Type} (accepts : ascii -> P -> bool) (val : P -> string) (isPrivateEnable : bool).

(** A parameter of a type that the conversion does not take leaves nothing. *)
Definition shown (m : mark) (k : ascii) (p : P) : string :=
  if accepts k p then (if isPrivateEnable && bool_decide (m <> Public) then PRIV_STR else val p) else "".

(** When there are no parameters left the format is copied as it is. *)
Fixpoint render (ps : list piece) (params : list P) (tail : string) (kept : string) : string :=
  match params, ps with
  | [], _ => show ps +:+ tail
  | _, [] => kept
  | _, Lit c :: ps => String c (render ps params tail kept)
  | _, Percent :: ps => String "%" (render ps params tail kept)
  | _, Stray c :: ps => String "%" (String c (render ps params tail kept))
  | p :: params, Hole m k :: ps => shown m k p +:+ render ps params tail kept
  end.
End render.

(** ** Loops that read formats piece by piece *)

Section reads.
Context {P : Type} (accepts : ascii -> P -> bool) (val : P -> string) (isPrivateEnable : bool).
Context (body : Z -> Z -> string -> pass) (formatStr : string) (params : list P) (kept : string).

(** What a pass does with each piece; [kept] is what is left of a '%' at the end. *)
Record reads_pieces : Prop := {
  rp_out : forall pos count log, Z.of_nat (length params) <= count -> body pos count log = Break pos log;
  rp_lit : forall pre c rest count log, formatStr = pre +:+ String c rest -> c <> "%"%char -> 0 <= count < Z.of_nat (length params) ->
    body (slen pre) count log = Continue (slen pre) count (log +:+ String c "");
  rp_percent : forall pre rest count log, formatStr = pre +:+ "%%" +:+ rest -> unmarked rest = true -> 0 <= count < Z.of_nat (length params) ->
    body (slen pre) count log = Continue (slen pre + 1) count (log +:+ "%");
  rp_stray : forall pre c rest count log, formatStr = pre +:+ String "%" (String c rest) -> c <> "%"%char -> hole_char c = false ->
    unmarked rest = true -> 0 <= count < Z.of_nat (length params) ->
    body (slen pre) count log = Continue (slen pre) count (log +:+ "%");
  rp_hole : forall pre m k rest p done left log, formatStr = pre +:+ show_piece (Hole m k) +:+ rest -> hole_char k = true ->
    unmarked rest = true -> params = done ++ p :: left ->
    body (slen pre) (Z.of_nat (length done)) log =
      Continue (slen pre + slen (show_mark m) + 1) (Z.of_nat (length done) + 1) (log +:+ shown accepts val isPrivateEnable m k p);
  rp_end : forall pre count log, formatStr = pre +:+ "%" -> 0 <= count < Z.of_nat (length params) ->
    (body (slen pre) count log = Break (slen pre) log /\ kept = "%") \/ (body (slen pre) count log = Continue (slen pre) count log /\ kept = "");
}.

Context (Hbody : reads_pieces) (Hlen : slen formatStr < 2 ^ 32 - 1).

Abbreviation run := (fun fuel pos count log => with_rest formatStr <$> passes body (slen formatStr) fuel pos count log).

Lemma with_rest_split pre rest log : formatStr = pre +:+ rest -> with_rest formatStr (slen pre, log) = log +:+ rest.
Proof using.
  intros E. unfold with_rest. rewrite E, slen_app. pose proof (slen_nonneg rest). destruct (Z.ltb_spec (slen pre) (slen pre + slen rest)).
  - unfold substr. rewrite slen_Z_to_nat, str_drop_app_length. by rewrite str_take_all by lia.
  - assert (rest = "") as -> by (apply slen_zero; lia). by rewrite str_app_nil_r.
Qed.

Lemma run_out fuel pre rest count log :
  formatStr = pre +:+ rest -> Z.of_nat (length params) <= count -> run (S fuel) (slen pre) count log = Some (log +:+ rest).
Proof using Hbody.
  intros E Hc. cbn [passes]. rewrite (rp_out Hbody) by done. destruct (_ <? _); cbn [fmap option_fmap option_map]; by rewrite (with_rest_split pre rest).
Qed.

Lemma run_end fuel count log : run (S fuel) (slen formatStr) count log = Some log.
Proof using. cbn [passes]. rewrite Z.ltb_irrefl. cbn [fmap option_fmap option_map with_rest]. by rewrite Z.ltb_irrefl. Qed.

(** A pass that reads the text [s] goes on behind it. *)
Lemma run_pass fuel pre s rest count count' log log' :
  formatStr = pre +:+ s +:+ rest -> 0 < slen s -> body (slen pre) count log = Continue (slen pre + slen s - 1) count' log' ->
  run (S fuel) (slen pre) count log = run fuel (slen (pre +:+ s)) count' log'.
Proof using Hlen.
  intros E Hs Hb. cbn [passes]. rewrite Hb. pose proof (f_equal slen E) as El. rewrite !slen_app in El. rewrite slen_app. pose proof (slen_nonneg pre). pose proof (slen_nonneg rest).
  rewrite (proj2 (Z.ltb_lt _ _)) by lia. rewrite wrapu_small by lia. do 2 f_equal. lia.
Qed.

Lemma run_tail tail k0 fuel pre count log :
  formatStr = pre +:+ tail -> tail = "" /\ k0 = "" \/ tail = "%" /\ k0 = kept -> 0 <= count < Z.of_nat (length params) -> slen tail < Z.of_nat fuel ->
  run fuel (slen pre) count log = Some (log +:+ k0).
Proof using Hbody Hlen.
  intros E Ht Hc Hf. destruct fuel as [|fuel]; [pose proof (slen_nonneg tail); lia|]. destruct Ht as [[-> ->]|[-> ->]].
  - replace pre with formatStr by (rewrite E; by rewrite str_app_nil_r). by rewrite run_end, str_app_nil_r.
  - change (slen "%") with 1 in Hf. destruct fuel as [|fuel]; [lia|]. destruct (rp_end Hbody pre count log E Hc) as [[Hb ->]|[Hb ->]].
    + cbn [passes]. rewrite Hb. destruct (_ <? _); cbn [fmap option_fmap option_map]; by rewrite (with_rest_split pre "%").
    + rewrite (run_pass _ pre "%" "" _ count log log); [|by rewrite str_app_nil_r | done | by rewrite Hb, Z.add_simpl_r].
      rewrite <- E. by rewrite run_end, str_app_nil_r.
Qed.

Lemma run_render ps tail k0 fuel pre done left log :
  formatStr = pre +:+ show ps +:+ tail -> tail = "" /\ k0 = "" \/ tail = "%" /\ k0 = kept -> wf ps tail = true -> params = done ++ left ->
  slen (show ps +:+ tail) < Z.of_nat fuel ->
  run fuel (slen pre) (Z.of_nat (length done)) log = Some (log +:+ render accepts val isPrivateEnable ps left tail k0).
Proof using Hbody Hlen.
  intros E Ht. revert fuel pre done left log E. induction ps as [|p ps IH]; intros fuel pre done left log E Hwf Hp Hf.
  all: destruct fuel as [|fuel]; [pose proof (slen_nonneg (show [] +:+ tail)); try pose proof (slen_nonneg (show (p :: ps) +:+ tail)); lia|].
  all: destruct left as [|x left]; [rewrite (run_out _ _ _ _ _ E) by (rewrite Hp, length_app; cbn; lia); done|].
  all: assert (0 <= Z.of_nat (length done) < Z.of_nat (length params)) as Hc by (rewrite Hp, length_app; cbn; lia).
  - cbn [render show foldr] in *. by apply (run_tail tail).
  - cbn [wf] in Hwf. apply andb_prop in Hwf as [Hw Hwf].
    assert (forall count' log', body (slen pre) (Z.of_nat (length done)) log = Continue (slen pre + slen (show_piece p) - 1) count' log' ->
      run (S fuel) (slen pre) (Z.of_nat (length done)) log = run fuel (slen (pre +:+ show_piece p)) count' log') as Hpass.
    { intros count' log' Hb. apply (run_pass fuel pre (show_piece p) (show ps +:+ tail)); [|by destruct p | done].
      rewrite E. cbn [show foldr]. by rewrite <- (str_app_assoc (show_piece p)). }
    assert (formatStr = (pre +:+ show_piece p) +:+ show ps +:+ tail) as E' by (rewrite E; cbn [show foldr]; by rewrite <- !str_app_assoc).
    assert (slen (show ps +:+ tail) < Z.of_nat fuel) as Hf'.
    { cbn [show foldr] in Hf. rewrite <- str_app_assoc, slen_app in Hf. assert (0 < slen (show_piece p)) by (by destruct p). fold (show ps) in Hf. lia. }
    destruct p as [c| |c|m k]; cbn [render].
    + rewrite (Hpass (Z.of_nat (length done)) (log +:+ String c "")), (IH _ _ done (x :: left)); try done; [by rewrite <- str_app_assoc|].
      erewrite (rp_lit Hbody pre c); [|exact E | by destruct (Ascii.eqb_spec c "%") | done]. f_equal. change (slen (show_piece (Lit c))) with 1. lia.
    + rewrite (Hpass (Z.of_nat (length done)) (log +:+ "%")), (IH _ _ done (x :: left)); try done; [by rewrite <- str_app_assoc|].
      erewrite (rp_percent Hbody pre); [|exact E | done | done]. f_equal. change (slen (show_piece Percent)) with 2. lia.
    + apply andb_prop in Hw as [[Hc1 Hc2]%andb_prop Hu]. apply negb_true_iff in Hc1, Hc2. apply Ascii.eqb_neq in Hc1.
      assert (slen (show_piece (Stray c)) = 2) as Hs by done. destruct fuel as [|fuel].
      { cbn [show foldr] in Hf. rewrite <- str_app_assoc, slen_app, Hs in Hf. pose proof (slen_nonneg (show ps +:+ tail)). fold (show ps) in Hf. lia. }
      rewrite (run_pass _ pre "%" (String c (show ps +:+ tail)) _ (Z.of_nat (length done)) log (log +:+ "%"));
        [|exact E | done | erewrite (rp_stray Hbody pre c); [|exact E|done..]; by rewrite Z.add_simpl_r].
      rewrite (run_pass _ (pre +:+ "%") (String c "") (show ps +:+ tail) _ (Z.of_nat (length done)) _ ((log +:+ "%") +:+ String c ""));
        [|rewrite E; by rewrite <- str_app_assoc | done | erewrite (rp_lit Hbody (pre +:+ "%") c); [|rewrite E; by rewrite <- str_app_assoc | done | done]; by rewrite Z.add_simpl_r].
      rewrite (IH _ _ done (x :: left)); [by rewrite <- !str_app_assoc | by rewrite E, <- !str_app_assoc | done | done|].
      cbn [show foldr] in Hf. rewrite <- str_app_assoc, slen_app, Hs in Hf. fold (show ps) in Hf. lia.
    + apply andb_prop in Hw as [Hk Hu]. rewrite (Hpass (Z.of_nat (length done) + 1) (log +:+ shown accepts val isPrivateEnable m k x)).
      * replace (Z.of_nat (length done) + 1) with (Z.of_nat (length (done ++ [x]))) by (rewrite length_app; cbn; lia).
        rewrite (IH _ _ (done ++ [x]) left); try done; [by rewrite <- str_app_assoc | by rewrite <- app_assoc].
      * erewrite (rp_hole Hbody pre m k); [|rewrite E; cbn [show foldr]; by rewrite <- (str_app_assoc (show_piece _)) | done..]. f_equal.
        cbn [show_piece]. rewrite slen_cons, slen_app. change (slen (String k "")) with 1. lia.
Qed.
End reads.
