(* ===== verification/NapiLog.v ===== *)
(** * The binding for JavaScript: hilog_napi_base.cpp

    The functions of the module [hilog] for JavaScript, with the helpers for
    arguments (n_func_arg.cpp) and values (n_val.cpp) that they use.  The
    engine is given by its interface: what the node API says of a value.  A
    value that a C++ caller has as [napi_value] is [None] when it is null, and
    the node API fails on it; the result of a function is [None] where it is
    undefined. *)

From S2P Require Import Prelude Common TimeStamp Utils LogData LogPrint Format Properties LogCollector PageSwitchLog Printf JsText.
From Stdlib Require Import Ascii.

Inductive napi_valuetype :=
| napi_undefined | napi_null | napi_boolean | napi_number | napi_string | napi_symbol | napi_object | napi_function
| napi_external | napi_bigint.

#[export] Instance napi_valuetype_eq_dec : EqDecision napi_valuetype.
Proof. solve_decision. Defined.

Record napiParam := mkNapiParam { np_type : napi_valuetype; np_val : string }.

Class Napi := {
  napi_value : Type;
  napi_typeof : napi_value -> option napi_valuetype;
  napi_coerce_to_string : napi_value -> option napi_value;
  napi_get_value_string_utf8 : napi_value -> option string;
  napi_get_value_int32 : napi_value -> option Z;
  napi_get_value_bool : napi_value -> option bool;
  napi_is_array : napi_value -> bool;
  napi_get_array_length : napi_value -> option Z;
  napi_get_element : napi_value -> Z -> option napi_value;
  napi_get_global : option napi_value;
  napi_get_named_property : napi_value -> string -> option napi_value;
  napi_call_function : napi_value -> napi_value -> list napi_value -> option (option napi_value);
  napi_get_print_string : napi_value -> string;
}.

Definition MIN_NUMBER : nat := 3.
Definition MAX_NUMBER : nat := 100.
Definition SANDBOX_NAPI_OUTPUT_DIR_SIZE : Z := 128.
Definition SANDBOX_NAPI_LOG_FILE_SIZE : Z := 4096.

(** ** The text of a line *)

Section parse.
Context (isPrivateEnable : bool) (formatStr : string) (params : list napiParam).

(** The types that a conversion takes. *)
Definition takes (k : ascii) (t : napi_valuetype) : bool :=
  if str_mem k "di" then bool_decide (t ∈ [napi_number; napi_bigint])
  else if str_mem k "s" then bool_decide (t ∈ [napi_string; napi_undefined; napi_boolean; napi_null])
  else if str_mem k "Oo" then bool_decide (t ∈ [napi_object; napi_function; napi_undefined; napi_null])
  else false.

(** The text for parameter [count] under a conversion. *)
Definition param_text (k : ascii) (showPriv : bool) (count : Z) : string :=
  match params !! Z.to_nat count with
  | Some p => if takes k (np_type p) then (if isPrivateEnable && showPriv then PRIV_STR else np_val p) else ""
  | None => ""
  end.

Definition property (pos : Z) : Z * bool :=
  let len := slen formatStr in
  if (u32 (pos + PUBLIC_LEN + PROPERTY_POS) <? len) && bool_decide (substr formatStr (u32 (pos + PROPERTY_POS)) PUBLIC_LEN = "public")
  then (u32 (pos + (PUBLIC_LEN + PROPERTY_POS)), false)
  else if (u32 (pos + PRIVATE_LEN + PROPERTY_POS) <? len) && bool_decide (substr formatStr (u32 (pos + PROPERTY_POS)) PRIVATE_LEN = "private")
  then (u32 (pos + (PRIVATE_LEN + PROPERTY_POS)), true)
  else (pos, true).

Definition parse_pass (pos count : Z) (logContent : string) : pass :=
  if Z.of_nat (length params) <=? count then Break pos logContent
  else
    let c := char_at formatStr pos in
    if negb (Ascii.eqb c "%") then Continue pos count (logContent +:+ String c "")
    else
      let '(pos, showPriv) := property pos in
      if slen formatStr <=? u32 (pos + 1) then Break pos logContent
      else
        let k := char_at formatStr (u32 (pos + 1)) in
        if str_mem k "disOo" then Continue (u32 (pos + 1)) (u32 (count + 1)) (logContent +:+ param_text k showPriv count)
        else if Ascii.eqb k "%" then Continue (u32 (pos + 1)) count (logContent +:+ String (char_at formatStr pos) "")
        else Continue pos count (logContent +:+ String (char_at formatStr pos) "").

Definition parse_text : option string :=
  with_rest formatStr <$> passes parse_pass (slen formatStr) (S (String.length formatStr)) 0 0 "".
End parse.

Section napi.
Context `{Napi} `{ParamService}.
Context (lp64 char_signed : bool) (wctomb : Z -> option string) (SECUREC_MALLOC : Z -> bool).
Context (vsprintf_s : Z -> string -> list Z -> Z -> option string).
Context (localtime_r : Z -> option tm) (va_copied : bool).
Context (pe : penv) (ce : call_env).

Abbreviation HiLogPrint := (HiLogPrint lp64 char_signed wctomb SECUREC_MALLOC vsprintf_s localtime_r va_copied pe ce).
Abbreviation HiLog_Print := (HiLog_Print lp64 char_signed wctomb SECUREC_MALLOC vsprintf_s localtime_r va_copied pe ce).

(** The parameters of the system are only read when there are parameters. *)
Definition ParseLogContent (formatStr : string) (params : list napiParam) : callM string :=
  if bool_decide (params = []) then mret formatStr
  else
    isPrivateEnable ← props pe IsPrivateModeEnable;
    lift (parse_text isPrivateEnable formatStr params).

(** ** Values and arguments *)

Definition ValueTypeIs (value : napi_value) (expType : napi_valuetype) : bool := bool_decide (napi_typeof value = Some expType).

(** Where the callers take the buffer for a C string it ends at the first NUL. *)
Definition ToUTF8String (v : option napi_value) : option string := v ≫= napi_get_value_string_utf8.
Definition ToInt32 (v : option napi_value) : option Z := v ≫= napi_get_value_int32.
Definition ToBool (v : option napi_value) : option bool := v ≫= napi_get_value_bool.

Definition GetPrintString (value : napi_value) : string :=
  if ValueTypeIs value napi_string then napi_get_print_string value
  else match napi_coerce_to_string value with Some strValue => napi_get_print_string strValue | None => "" end.

Definition GetValObjectAsStr (val : napi_value) : option string :=
  globalValue ← napi_get_global;
  jsonValue ← napi_get_named_property globalValue "JSON";
  stringifyValue ← napi_get_named_property jsonValue "stringify";
  transValue ← napi_call_function jsonValue stringifyValue [val];
  GetPrintString <$> transValue.

(** The arguments of a call; none when the engine does not give them. *)
Definition InitArgs (info : option (list napi_value)) (argcChecker : nat -> bool) : list napi_value * bool :=
  match info with
  | Some args => (args, argcChecker (length args))
  | None => ([], false)
  end.
Definition exactly (argc realArgc : nat) : bool := (argc =? realArgc)%nat.
Definition between (minArgc maxArgc realArgc : nat) : bool := (minArgc <=? realArgc)%nat && (realArgc <=? maxArgc)%nat.

(** ** Logging *)

Definition LABEL : HiLogLabel := mkLabel LOG_CORE 0xD002D00 (Some "Hilog_JS").
Definition note (text : string) : callM unit := HiLog_Print LOG_INFO LABEL "%{public}s" [VStr (Some text)];; mret tt.

Definition ParseNapiValue (element : napi_value) (params : list napiParam) : callM (list napiParam) :=
  match napi_typeof element with
  | None => mret params
  | Some type =>
      if bool_decide (type ∈ [napi_number; napi_bigint; napi_undefined; napi_boolean; napi_null]) then
        mret match napi_coerce_to_string element ≫= napi_get_value_string_utf8 with
             | Some name => params ++ [mkNapiParam type (cstr name)]
             | None => params
             end
      else if bool_decide (type ∈ [napi_object; napi_function]) then
        mret (params ++ [mkNapiParam type (default "" (GetValObjectAsStr element))])
      else if bool_decide (type = napi_string) then
        mret match napi_get_value_string_utf8 element with
             | Some name => params ++ [mkNapiParam type (cstr name)]
             | None => params
             end
      else note "type mismatch";; mret (params ++ [mkNapiParam type ""])
  end.

Fixpoint parse_values (elements : list napi_value) (params : list napiParam) : callM (list napiParam) :=
  match elements with
  | [] => mret params
  | element :: elements => params ← ParseNapiValue element params; parse_values elements params
  end.

(** The elements of an array, one after the other; [None] when one cannot be read. *)
Fixpoint parse_elements (array : napi_value) (indices : list Z) (params : list napiParam) : callM (option (list napiParam)) :=
  match indices with
  | [] => mret (Some params)
  | i :: indices =>
      match napi_get_element array i with
      | Some element => params ← ParseNapiValue element params; parse_elements array indices params
      | None => mret None
      end
  end.

(** The parameters of the line: the elements of an array, or the arguments
    behind the format.  [NAPI_ASSERT] throws and returns when there are
    arguments behind an array. *)
Definition line_params (args : list napi_value) : callM (option (list napiParam)) :=
  match args !! 3%nat with
  | Some array =>
      if napi_is_array array then
        if negb (length args =? MIN_NUMBER + 1)%nat then mret None
        else match napi_get_array_length array with
             | Some length => parse_elements array (seqZ 0 length) []
             | None => mret None
             end
      else params ← parse_values (drop MIN_NUMBER args) []; mret (Some params)
  | None => mret (Some [])
  end.

(** The number of arguments is looked at, and not acted on. *)
Definition HilogImpl (info : option (list napi_value)) (level : Z) (isAppLog : bool) : callM unit :=
  let '(args, _) := InitArgs info (between MIN_NUMBER MAX_NUMBER) in
  match ToInt32 (args !! 0%nat) with
  | None => note "domain mismatch"
  | Some domain =>
      match ToUTF8String (args !! 1%nat) with
      | None => note "tag mismatch"
      | Some tag =>
          match ToUTF8String (args !! 2%nat) with
          | None => note "Format mismatch"
          | Some fmt =>
              params ← line_params args;
              match params with
              | None => mret tt
              | Some params =>
                  logContent ← ParseLogContent (cstr fmt) params;
                  HiLogPrint (if isAppLog then LOG_APP else LOG_CORE) level (u32 domain) (Some (cstr tag)) "%{public}s"
                    [VStr (Some (cstr logContent))];;
                  mret tt
              end
          end
      end
  end.

(** ** Settings *)

Definition IsLoggable (info : option (list napi_value)) : callM (option bool) :=
  let '(args, ok) := InitArgs info (exactly 3) in
  if negb ok then mret None else
  match ToInt32 (args !! 0%nat) with
  | None => mret None
  | Some domain =>
      if (domain <? DOMAIN_APP_MIN) || (DOMAIN_APP_MAX <? domain) then mret (Some false) else
      match ToInt32 (args !! 2%nat), ToUTF8String (args !! 1%nat) with
      | Some level, Some tag => res ← HiLogIsLoggable pe (u32 domain) (Some (cstr tag)) level; mret (Some res)
      | _, _ => mret None
      end
  end.

Definition SetMinLogLevel (info : option (list napi_value)) (c : client) : client :=
  let '(args, ok) := InitArgs info (exactly 1) in
  match guard (ok = true);; ToInt32 (args !! 0%nat) with
  | Some level => HiLogSetAppMinLogLevel level c
  | None => c
  end.

Definition SetLogLevel (info : option (list napi_value)) (c : client) : client :=
  let '(args, ok) := InitArgs info (exactly 2) in
  match guard (ok = true);; ToInt32 (args !! 0%nat), ToInt32 (args !! 1%nat) with
  | Some level, Some prefer => HiLogSetAppLogLevel level prefer c
  | _, _ => c
  end.

Definition SetOutputType (info : option (list napi_value)) : callM (option Z) :=
  let '(args, ok) := InitArgs info (exactly 1) in
  match guard (ok = true);; ToInt32 (args !! 0%nat) with
  | Some type => lastType ← InnerSetOutputType type; mret (Some lastType)
  | None => mret None
  end.

Definition SetOutputTypeByDomainID (info : option (list napi_value)) : callM (option Z) :=
  let '(args, ok) := InitArgs info (exactly 3) in
  let input :=
    guard (ok = true);;
    type ← ToInt32 (args !! 0%nat);
    array ← args !! 1%nat;
    length ← napi_get_array_length array;
    domains ← mapM (fun i => napi_get_element array i ≫= napi_get_value_int32) (seqZ 0 length);
    isExclude ← ToBool (args !! 2%nat);
    Some (type, domains, isExclude) in
  match input with
  | Some (type, domains, isExclude) => lastType ← InnerSetOutputTypeByDomainId type domains isExclude; mret (Some lastType)
  | None => mret None
  end.

Definition GetOutputType (c : client) : Z := g_sandboxStatus c.
Definition GetOutputDir (c : client) : string := (HiLogGetOutputDir SANDBOX_NAPI_OUTPUT_DIR_SIZE c).2.

Definition Clean : callM unit := HiLogCleanAppLog.
Definition Flush : callM unit := HiLogFlushAppLog.

(** [files] are the names that the sandbox log returns; the result of
    [HiLogGetAppLogFile] is not looked at. *)
Definition GetLogFile (files : sandbox_call -> list string) (info : option (list napi_value)) : callM (option (list string)) :=
  let '(args, ok) := InitArgs info (exactly 1) in
  match guard (ok = true);; ToInt32 (args !! 0%nat) with
  | Some seconds =>
      names ← app_log_files files seconds;
      mret (Some (SpiltString (HiLogGetAppLogFile names SANDBOX_NAPI_LOG_FILE_SIZE).2 ","))
  | None => mret None
  end.
End napi.
