(* ===== verification/AniLog.v ===== *)
(** * The binding for ArkTS: hilog_ani_base.cpp

    The functions of the namespace [hilog] for ArkTS, with the helpers of
    ani_util.cpp.  The virtual machine is given by its interface.  Results are
    [None] where the functions return a null reference; a status
    that is not OK is on the left where it is printed. *)

From S2P Require Import Prelude Common TimeStamp Utils LogData LogPrint Format Properties LogCollector PageSwitchLog Printf JsText.
From Stdlib Require Import Ascii.

Inductive AniArgsType :=
| ANI_UNKNOWN | ANI_INT | ANI_BOOLEAN | ANI_NUMBER | ANI_STRING | ANI_BIGINT | ANI_OBJECT | ANI_UNDEFINED | ANI_NULL.

#[export] Instance AniArgsType_eq_dec : EqDecision AniArgsType.
Proof. solve_decision. Defined.

Record AniParam := mkAniParam { ap_type : AniArgsType; ap_val : string }.

Class Ani := {
  ani_ref : Type;
  ani_class : Type;
  ani_enum : Type;
  ani_enum_item : Type;
  Reference_IsUndefined : ani_ref -> bool;
  Reference_IsNull : ani_ref -> bool;
  FindClass : string -> option ani_class;
  Object_InstanceOf : ani_ref -> ani_class -> option bool;
  Call_toString : ani_ref -> option ani_ref;
  Call_toInt : ani_ref -> option Z;
  String_GetUTF8 : ani_ref -> string;
  Array_GetLength : ani_ref -> option Z;
  Array_Get : ani_ref -> Z -> option ani_ref;
  EnumItem_GetValue_Int : ani_enum_item -> option Z;
  FindEnum : string -> Z + ani_enum;
  Enum_GetEnumItemByIndex : ani_enum -> Z -> Z + ani_enum_item;
}.

Definition MIN_NUMBER : Z := 0.
Definition MAX_NUMBER : Z := 97.
Definition SANDBOX_ANI_OUTPUT_DIR_SIZE : Z := 128.
Definition SANDBOX_ANI_LOG_FILE_SIZE : Z := 4096.

(** ** The text of a line *)

Section parse.
Context (isPrivateEnable : bool) (formatStr : string) (params : list AniParam).

Definition takes (k : ascii) (t : AniArgsType) : bool :=
  if str_mem k "di" then bool_decide (t ∈ [ANI_INT; ANI_NUMBER; ANI_BIGINT])
  else if str_mem k "s" then bool_decide (t ∈ [ANI_STRING; ANI_UNDEFINED; ANI_BOOLEAN; ANI_NULL])
  else if str_mem k "Oo" then bool_decide (t ∈ [ANI_OBJECT])
  else false.

Definition param_text (k : ascii) (isPriv : bool) (count : Z) : string :=
  match params !! Z.to_nat count with
  | Some p => if takes k (ap_type p) then (if isPriv then PRIV_STR else ap_val p) else ""
  | None => ""
  end.

(** One mark after the other. *)
Definition HandleFormatFlags (pos : Z) : Z * bool :=
  let len := slen formatStr in
  let '(pos, showPriv) :=
    if (u32 (pos + PUBLIC_LEN + PROPERTY_POS) <? len) && bool_decide (substr formatStr (u32 (pos + PROPERTY_POS)) PUBLIC_LEN = "public")
    then (u32 (pos + (PUBLIC_LEN + PROPERTY_POS)), false) else (pos, true) in
  if (u32 (pos + PRIVATE_LEN + PROPERTY_POS) <? len) && bool_decide (substr formatStr (u32 (pos + PROPERTY_POS)) PRIVATE_LEN = "private")
  then (u32 (pos + (PRIVATE_LEN + PROPERTY_POS)), showPriv) else (pos, showPriv).

Definition ProcessLogContent (isPriv : bool) (pos count : Z) (ret : string) : pass :=
  if slen formatStr <=? u32 (pos + 1) then Continue pos count ret
  else
    let k := char_at formatStr (u32 (pos + 1)) in
    if str_mem k "disOo" then Continue (u32 (pos + 1)) (u32 (count + 1)) (ret +:+ param_text k isPriv count)
    else if Ascii.eqb k "%" then Continue (u32 (pos + 1)) count (ret +:+ String (char_at formatStr pos) "")
    else Continue pos count (ret +:+ String (char_at formatStr pos) "").

Definition parse_pass (pos count : Z) (logContent : string) : pass :=
  if Z.of_nat (length params) <=? count then Break pos logContent
  else
    let c := char_at formatStr pos in
    if negb (Ascii.eqb c "%") then Continue pos count (logContent +:+ String c "")
    else
      let '(pos, showPriv) := HandleFormatFlags pos in
      ProcessLogContent (isPrivateEnable && showPriv) pos count logContent.

Definition parse_text : option string :=
  with_rest formatStr <$> passes parse_pass (slen formatStr) (S (String.length formatStr)) 0 0 "".
End parse.

Section ani.
Context `{Ani} `{ParamService}.
Context (lp64 char_signed : bool) (wctomb : Z -> option string) (SECUREC_MALLOC : Z -> bool).
Context (vsprintf_s : Z -> string -> list Z -> Z -> option string).
Context (localtime_r : Z -> option tm) (va_copied : bool).
Context (pe : penv) (ce : call_env).

Abbreviation HiLogPrint := (HiLogPrint lp64 char_signed wctomb SECUREC_MALLOC vsprintf_s localtime_r va_copied pe ce).
Abbreviation HiLog_Print := (HiLog_Print lp64 char_signed wctomb SECUREC_MALLOC vsprintf_s localtime_r va_copied pe ce).

Definition ParseLogContent (formatStr : string) (params : list AniParam) : callM string :=
  if bool_decide (params = []) then mret formatStr
  else
    isPrivateEnable ← props pe IsPrivateModeEnable;
    lift (parse_text isPrivateEnable formatStr params).

Definition log (level : Z) (name fmt : string) (args : list varg) : callM unit :=
  HiLog_Print level (mkLabel LOG_CORE 0xD002D00 (Some name)) fmt args;; mret tt.
Definition note := log LOG_INFO "HILOG_ETS".
Definition warn := log LOG_WARN "HILOG_ETS".
Definition util_note := log LOG_INFO "HILOG_ANI_UTIL".

(** ** Values *)

Definition OBJECT_TYPE : list (string * AniArgsType) :=
  [("std.core.Int", ANI_INT); ("std.core.Boolean", ANI_BOOLEAN); ("std.core.Double", ANI_NUMBER); ("std.core.String", ANI_STRING);
   ("std.core.BigInt", ANI_BIGINT); ("std.core.Object", ANI_OBJECT)].

(** The first class of the table that the value belongs to. *)
Definition is_instance (element : ani_ref) (name : string) : bool :=
  match cls ← FindClass name; Object_InstanceOf element cls with Some b => b | None => false end.

Definition AniArgGetType (element : ani_ref) : AniArgsType :=
  if Reference_IsUndefined element then ANI_UNDEFINED
  else if Reference_IsNull element then ANI_NULL
  else match list_find (fun e => is_instance element e.1 = true) OBJECT_TYPE with
       | Some (_, (_, type)) => type
       | None => ANI_UNKNOWN
       end.

Definition AniEnumToInt32 (enumItem : ani_enum_item) : callM (option Z) :=
  match EnumItem_GetValue_Int enumItem with
  | Some v => mret (Some (i32 v))
  | None => util_note "Get enum value failed." [];; mret None
  end.

Definition AniStringToStdString (aniStr : ani_ref) : string := cstr (String_GetUTF8 aniStr).

Definition AniArgToString (arg : ani_ref) : callM string :=
  match Call_toString arg with
  | Some argStrRef => mret (AniStringToStdString argStrRef)
  | None => util_note "Call ets method toString() failed." [];; mret ""
  end.

Definition AniArgToInt (arg : ani_ref) : callM (option Z) :=
  match Call_toInt arg with
  | Some value => mret (Some (i32 value))
  | None => util_note "Call ets method toString() failed." [];; mret None
  end.

Definition OUTPUTTYPE_STRING : string := "@ohos.hilog.hilog.OutputType".

(** The enumeration has two names for 0. *)
Definition TransformOutputTypeIndex (index : Z) : Z := index + 1.
Definition EnumNativeToETSByValue (enumClassName : string) (value : Z) : callM (option ani_enum_item) :=
  match FindEnum enumClassName with
  | inl status => util_note "FindEnum failed %{public}d" [VInt status];; mret None
  | inr aniEnum =>
      match Enum_GetEnumItemByIndex aniEnum (TransformOutputTypeIndex value) with
      | inl status => util_note "Enum_GetEnumItemByIndex failed %{public}d" [VInt status];; mret None
      | inr enumItem => mret (Some enumItem)
      end
  end.

(** The result is true also when there is no item. *)
Definition AniInt32ToEnumOutputType (value : Z) : callM (option (option ani_enum_item)) :=
  if value <? 0 then mret None else item ← EnumNativeToETSByValue OUTPUTTYPE_STRING value; mret (Some item).

(** ** Logging *)

Definition ParseAniValue (element : ani_ref) (params : list AniParam) : callM (list AniParam) :=
  let type := AniArgGetType element in
  val ←
    (if bool_decide (type = ANI_UNDEFINED) then mret "undefined"
     else if bool_decide (type = ANI_NULL) then mret "null"
     else if bool_decide (type <> ANI_UNKNOWN) then AniArgToString element
     else note "%{public}s" [VStr (Some "Type mismatch")];; mret "");
  mret (params ++ [mkAniParam type val]).

(** The elements of the array; [None] when one cannot be read. *)
Fixpoint parse_elements (args : ani_ref) (indices : list Z) (params : list AniParam) : callM (option (list AniParam)) :=
  match indices with
  | [] => mret (Some params)
  | i :: indices =>
      match Array_Get args i with
      | Some element => params ← ParseAniValue element params; parse_elements args indices params
      | None => note "Get element at index %{public}zu from array failed" [VLong i];; mret None
      end
  end.

Definition HilogImpl (domain : Z) (tag format args : ani_ref) (level : Z) (isAppLog : bool) : callM unit :=
  let tagString := AniStringToStdString tag in
  let fmtString := AniStringToStdString format in
  match Array_GetLength args with
  | None => note "Get array length failed" []
  | Some length =>
      if (length <? MIN_NUMBER) || (MAX_NUMBER <? length) then note "%{public}s" [VStr (Some "Argc mismatch")]
      else
        params ← parse_elements args (seqZ 0 length) [];
        match params with
        | None => mret tt
        | Some params =>
            logContent ← ParseLogContent fmtString params;
            HiLogPrint (if isAppLog then LOG_APP else LOG_CORE) level (u32 domain) (Some tagString) "%{public}s"
              [VStr (Some (cstr logContent))];;
            mret tt
        end
  end.

(** ** Settings *)

Definition IsLoggable (domain : Z) (tag : ani_ref) (level : ani_enum_item) : callM bool :=
  if (i32 domain <? DOMAIN_APP_MIN) || (DOMAIN_APP_MAX <? i32 domain) then mret false
  else
    levelVal ← AniEnumToInt32 level;
    match levelVal with
    | None => mret false
    | Some levelVal => HiLogIsLoggable pe (u32 domain) (Some (AniStringToStdString tag)) levelVal
    end.

Definition SetMinLogLevel (level : ani_enum_item) : callM unit :=
  levelVal ← AniEnumToInt32 level;
  match levelVal with
  | None => mret tt
  | Some levelVal => c ← get; put (HiLogSetAppMinLogLevel levelVal c)
  end.

Definition SetLogLevel (level prefer : ani_enum_item) : callM unit :=
  levelVal ← AniEnumToInt32 level;
  match levelVal with
  | None => mret tt
  | Some levelVal =>
      preferVal ← AniEnumToInt32 prefer;
      match preferVal with
      | None => mret tt
      | Some preferVal => c ← get; put (HiLogSetAppLogLevel levelVal preferVal c)
      end
  end.

(** The item for an output, with a line when there is none. *)
Definition output_item (type : Z) : callM (option ani_enum_item) :=
  item ← AniInt32ToEnumOutputType type;
  match item with
  | Some item => mret item
  | None => warn "Int32 To Enum OutputType failed" [];; mret None
  end.

Definition SetOutputType (type : ani_enum_item) : callM (option ani_enum_item) :=
  typeVal ← AniEnumToInt32 type;
  match typeVal with
  | None => mret None
  | Some typeVal => lastType ← InnerSetOutputType typeVal; output_item lastType
  end.

(** Elements that are not numbers are left out. *)
Fixpoint domain_ids (domainIDs : ani_ref) (indices : list Z) (domains : list Z) : callM (option (list Z)) :=
  match indices with
  | [] => mret (Some domains)
  | i :: indices =>
      match Array_Get domainIDs i with
      | Some element =>
          domain ← AniArgToInt element;
          domain_ids domainIDs indices (domains ++ match domain with Some d => [d] | None => [] end)
      | None => warn "Get element at index %{public}zu from array failed" [VLong i];; mret None
      end
  end.

Definition SetOutputTypeByDomainID (type : ani_enum_item) (domainIDs : ani_ref) (isExclude : bool) : callM (option ani_enum_item) :=
  typeVal ← AniEnumToInt32 type;
  match typeVal with
  | None => mret None
  | Some typeVal =>
      match Array_GetLength domainIDs with
      | None => warn "Get array length failed" [];; mret None
      | Some length =>
          domains ← domain_ids domainIDs (seqZ 0 length) [];
          match domains with
          | None => mret None
          | Some domains => lastType ← InnerSetOutputTypeByDomainId typeVal domains isExclude; output_item lastType
          end
      end
  end.

Definition GetOutputType : callM (option ani_enum_item) := c ← get; output_item (g_sandboxStatus c).
Definition GetOutputDir (c : client) : string := (HiLogGetOutputDir SANDBOX_ANI_OUTPUT_DIR_SIZE c).2.

Definition Clean : callM unit := HiLogCleanAppLog.
Definition Flush : callM unit := HiLogFlushAppLog.

Definition GetLogFile (files : sandbox_call -> list string) (latestSeconds : Z) : callM (list string) :=
  names ← app_log_files files (i32 latestSeconds);
  mret (SpiltString (HiLogGetAppLogFile names SANDBOX_ANI_LOG_FILE_SIZE).2 ",").
End ani.
