(* ===== verification/JsProps.v ===== *)
(** * What the bindings print

    Both loops over the format mean the same for formats made of known pieces,
    a parameter without a public mark leaves no trace of its value while
    privacy is on, and a call of a binding is a call of the library with that
    text. *)

From S2P Require Import Prelude Common TimeStamp Utils LogData LogPrint Format FormatProps Properties LogCollector PageSwitchLog Printf JsText NapiLog AniLog.
From Stdlib Require Import Ascii.

(** ** Positions in a format *)

Lemma char_at_app pre c rest : char_at (pre +:+ String c rest) (slen pre) = c.
Proof. unfold char_at. rewrite slen_Z_to_nat. induction pre; [done | exact IHpre]. Qed.

Lemma char_at_S pre c s : char_at (pre +:+ String c s) (slen pre + 1) = char_at s 0.
Proof.
  unfold char_at. replace (Z.to_nat (slen pre + 1)) with (S (String.length pre)) by (unfold slen; lia).
  induction pre; [done | exact IHpre].
Qed.

Lemma substr_app pre rest n : 0 <= n -> substr (pre +:+ rest) (slen pre) n = str_take (Z.to_nat n) rest.
Proof. intros Hn. unfold substr. by rewrite slen_Z_to_nat, str_drop_app_length. Qed.

Lemma substr_S pre c s i n : 0 <= i -> substr (pre +:+ String c s) (slen pre + (i + 1)) n = substr s i n.
Proof.
  intros Hi. unfold substr. f_equal. replace (Z.to_nat (slen pre + (i + 1))) with (String.length pre + (1 + Z.to_nat i))%nat by (unfold slen; lia).
  by rewrite !str_drop_add, str_drop_app_length.
Qed.

Lemma prefix_take w s : String.prefix w s = bool_decide (str_take (String.length w) s = w).
Proof.
  revert s; induction w as [|a w IH]; intros [|b s]; [done | done | by cbn|]. cbn. destruct (Ascii.ascii_dec a b) as [->|Hne].
  - rewrite IH. apply bool_decide_ext. split; [intros ->; done | by intros [= ?]].
  - symmetry. apply bool_decide_eq_false. intros [= ? _]. congruence.
Qed.

Lemma unmarked_words s : unmarked s = true -> str_take 6 s <> "public" /\ str_take 7 s <> "private".
Proof.
  unfold unmarked. rewrite !prefix_take. intros [H1%negb_true_iff H2%negb_true_iff]%andb_prop.
  apply bool_decide_eq_false in H1, H2. done.
Qed.

(** Lengths in this file are of formats that a [uint32_t] can count. *)
Definition countable (formatStr : string) : Prop := slen formatStr < 2 ^ 32 - 16.

Section marks.
Context (formatStr pre s : string) (Hlen : countable formatStr) (E : formatStr = pre +:+ String "%" s).

Lemma mark_room : 0 <= slen pre /\ slen formatStr = slen pre + 1 + slen s /\ 0 <= slen s.
Proof using E. rewrite E, slen_app, slen_cons. pose proof (slen_nonneg pre). pose proof (slen_nonneg s). lia. Qed.

Lemma after_mark n : 0 <= n -> substr formatStr (slen pre + PROPERTY_POS) n = str_take (Z.to_nat n) (str_drop 1 s).
Proof using E. intros Hn. rewrite E. unfold PROPERTY_POS. change 2 with (1 + 1). by rewrite substr_S. Qed.

Lemma property_bare : unmarked (str_drop 1 s) = true -> property formatStr (slen pre) = (slen pre, true).
Proof using E Hlen.
  intros [H1 H2]%unmarked_words. unfold countable in Hlen. pose proof mark_room. unfold property, PUBLIC_LEN, PRIVATE_LEN in *.
  rewrite (wrapu_small 32 (slen pre + PROPERTY_POS)) by (unfold PROPERTY_POS; lia). rewrite !after_mark by lia.
  rewrite (bool_decide_false _ H1), (bool_decide_false _ H2). by rewrite !andb_false_r.
Qed.

Lemma HandleFormatFlags_bare : unmarked (str_drop 1 s) = true -> HandleFormatFlags formatStr (slen pre) = (slen pre, true).
Proof using E Hlen.
  intros [H1 H2]%unmarked_words. unfold countable in Hlen. pose proof mark_room. unfold HandleFormatFlags, PUBLIC_LEN, PRIVATE_LEN in *.
  rewrite (wrapu_small 32 (slen pre + PROPERTY_POS)) by (unfold PROPERTY_POS; lia). rewrite after_mark by lia.
  rewrite (bool_decide_false _ H1), andb_false_r. rewrite (wrapu_small 32 (slen pre + PROPERTY_POS)) by (unfold PROPERTY_POS; lia).
  rewrite after_mark by lia. by rewrite (bool_decide_false _ H2), andb_false_r.
Qed.
End marks.

Lemma property_mark formatStr pre m k rest :
  countable formatStr -> formatStr = pre +:+ String "%" (show_mark m +:+ String k rest) -> unmarked rest = true ->
  property formatStr (slen pre) = (slen pre + slen (show_mark m), bool_decide (m <> Public)).
Proof.
  intros Hlen E Hu. pose proof (mark_room _ _ _ E) as Hr. unfold countable in Hlen. rewrite slen_app, slen_cons in Hr. pose proof (slen_nonneg rest).
  destruct m.
  - rewrite (property_bare _ _ _ Hlen E Hu). change (slen (show_mark Bare)) with 0. by rewrite Z.add_0_r.
  - change (slen (show_mark Public)) with 8 in *. unfold property, PUBLIC_LEN, PRIVATE_LEN.
    rewrite !wrapu_small by (unfold PROPERTY_POS; lia). rewrite !(after_mark _ _ _ E) by lia.
    rewrite (proj2 (Z.ltb_lt _ _)) by (unfold PROPERTY_POS; lia). done.
  - change (slen (show_mark Private)) with 9 in *. unfold property, PUBLIC_LEN, PRIVATE_LEN.
    rewrite !wrapu_small by (unfold PROPERTY_POS; lia). rewrite !(after_mark _ _ _ E) by lia.
    rewrite !(proj2 (Z.ltb_lt _ _)) by (unfold PROPERTY_POS; lia). done.
Qed.

Lemma HandleFormatFlags_mark formatStr pre m k rest :
  countable formatStr -> formatStr = pre +:+ String "%" (show_mark m +:+ String k rest) -> unmarked rest = true ->
  HandleFormatFlags formatStr (slen pre) = (slen pre + slen (show_mark m), bool_decide (m <> Public)).
Proof.
  intros Hlen E Hu. pose proof (mark_room _ _ _ E) as Hr. unfold countable in Hlen. rewrite slen_app, slen_cons in Hr. pose proof (slen_nonneg rest).
  destruct m.
  - rewrite (HandleFormatFlags_bare _ _ _ Hlen E Hu). change (slen (show_mark Bare)) with 0. by rewrite Z.add_0_r.
  - change (slen (show_mark Public)) with 8 in *. unfold HandleFormatFlags, PUBLIC_LEN, PRIVATE_LEN.
    rewrite !wrapu_small by (unfold PROPERTY_POS; lia). rewrite !(after_mark _ _ _ E) by lia.
    rewrite (proj2 (Z.ltb_lt _ _)) by (unfold PROPERTY_POS; lia). cbn [andb]. change (bool_decide (str_take _ _ = _)) with true. cbv iota beta.
    replace (slen pre + (6 + PROPERTY_POS)) with (slen (pre +:+ "%{public")) by (rewrite slen_app; done).
    rewrite (wrapu_small 32 (slen (pre +:+ "%{public") + PROPERTY_POS)) by (rewrite slen_app; change (slen "%{public") with 8; unfold PROPERTY_POS; lia).
    assert (substr formatStr (slen (pre +:+ "%{public") + PROPERTY_POS) 7 = str_take 7 rest) as ->.
    { rewrite E. replace (pre +:+ String "%" (show_mark Public +:+ String k rest))%string with ((pre +:+ "%{public") +:+ String "}" (String k rest))%string
        by (by rewrite <- str_app_assoc). unfold PROPERTY_POS. change 2 with (1 + 1). by rewrite substr_S. }
    rewrite (bool_decide_false _ (proj2 (unmarked_words _ Hu))), andb_false_r. rewrite slen_app. done.
  - change (slen (show_mark Private)) with 9 in *. unfold HandleFormatFlags, PUBLIC_LEN, PRIVATE_LEN.
    rewrite !wrapu_small by (unfold PROPERTY_POS; lia). rewrite !(after_mark _ _ _ E) by lia.
    change (bool_decide (str_take (Z.to_nat 6) _ = _)) with false. rewrite andb_false_r. cbv iota beta.
    rewrite !wrapu_small by (unfold PROPERTY_POS; lia). rewrite !(after_mark _ _ _ E) by lia.
    rewrite !(proj2 (Z.ltb_lt _ _)) by (unfold PROPERTY_POS; lia). done.
Qed.

(** ** The two loops read pieces *)

Lemma hole_chars k : hole_char k = str_mem k "disOo".
Proof. by destruct k as [[] [] [] [] [] [] [] []]. Qed.

Section reading.
Context (isPrivateEnable : bool) (formatStr : string) (Hlen : countable formatStr).

Lemma pos_next pre s : formatStr = pre +:+ s -> 0 < slen s -> (slen formatStr <=? u32 (slen pre + 1)) = (slen s <=? 1).
Proof using Hlen.
  intros E Hs. pose proof (slen_nonneg pre). unfold countable in Hlen. pose proof (f_equal slen E) as El. rewrite slen_app in El.
  rewrite wrapu_small by lia. rewrite El. destruct (Z.leb_spec (slen s) 1), (Z.leb_spec (slen pre + slen s) (slen pre + 1)); lia || done.
Qed.

(** The place of the last character of a mark, or of the '%'. *)
Lemma mark_split pre m k rest :
  formatStr = pre +:+ show_piece (Hole m k) +:+ rest ->
  exists pre' c, formatStr = pre' +:+ String c (String k rest) /\ slen pre' = slen pre + slen (show_mark m).
Proof using.
  intros E. rewrite E. destruct m.
  - exists pre, "%"%char. split; [done|]. change (slen (show_mark Bare)) with 0. lia.
  - exists (pre +:+ "%{public")%string, "}"%char. split; [by rewrite <- str_app_assoc | by rewrite slen_app].
  - exists (pre +:+ "%{private")%string, "}"%char. split; [by rewrite <- str_app_assoc | by rewrite slen_app].
Qed.

(** A loop reads pieces when its marks and its conversions are as expected. *)
Lemma reads_from {P} (accepts : ascii -> P -> bool) (val : P -> string) (body : Z -> Z -> string -> pass) (flags : Z -> Z * bool)
    (text : ascii -> bool -> Z -> string) (params : list P) (kept : string) :
  (forall pos count log, Z.of_nat (length params) <= count -> body pos count log = Break pos log) ->
  (forall pos count log, 0 <= count < Z.of_nat (length params) -> char_at formatStr pos <> "%"%char ->
    body pos count log = Continue pos count (log +:+ String (char_at formatStr pos) "")) ->
  (forall pre m k rest, formatStr = pre +:+ String "%" (show_mark m +:+ String k rest) -> unmarked rest = true ->
    flags (slen pre) = (slen pre + slen (show_mark m), bool_decide (m <> Public))) ->
  (forall pos count log showPriv pre c k rest, 0 <= count < Z.of_nat (length params) -> char_at formatStr pos = "%"%char ->
    flags pos = (slen pre, showPriv) -> formatStr = pre +:+ String c (String k rest) ->
    body pos count log =
      if str_mem k "disOo" then Continue (slen pre + 1) (count + 1) (log +:+ text k showPriv count)
      else if Ascii.eqb k "%" then Continue (slen pre + 1) count (log +:+ String c "") else Continue (slen pre) count (log +:+ String c "")) ->
  (forall k m done p left, params = done ++ p :: left ->
    text k (bool_decide (m <> Public)) (Z.of_nat (length done)) = shown accepts val isPrivateEnable m k p) ->
  (forall pre count log, formatStr = pre +:+ "%" -> 0 <= count < Z.of_nat (length params) ->
    (body (slen pre) count log = Break (slen pre) log /\ kept = "%") \/ (body (slen pre) count log = Continue (slen pre) count log /\ kept = "")) ->
  reads_pieces accepts val isPrivateEnable body formatStr params kept.
Proof using.
  intros Hout Hlit Hflags Hat Htext Hend.
  assert (forall pre k rest, formatStr = pre +:+ String "%" (String k rest) -> unmarked rest = true -> flags (slen pre) = (slen pre, true)) as Hbare.
  { intros pre k rest E Hu. rewrite (Hflags pre Bare k rest E Hu). change (slen (show_mark Bare)) with 0. by rewrite Z.add_0_r. }
  split; [done| | | | |done].
  - intros pre c rest count log E Hc H. rewrite Hlit; rewrite ?E, ?char_at_app; done.
  - intros pre rest count log E Hu H. erewrite Hat; [|done | rewrite E; apply char_at_app | exact (Hbare pre "%"%char rest E Hu) | exact E]. done.
  - intros pre c rest count log E Hc Hh Hu H. erewrite Hat; [|done | by rewrite E, char_at_app | exact (Hbare pre c rest E Hu) | exact E].
    rewrite <- hole_chars, Hh. by rewrite (proj2 (Ascii.eqb_neq _ _) Hc).
  - intros pre m k rest p done left log E Hk Hu Hp. destruct (mark_split pre m k rest E) as (pre' & c & E' & Hpre).
    assert (formatStr = pre +:+ String "%" (show_mark m +:+ String k rest)) as E2 by (rewrite E; cbn [show_piece]; by rewrite str_cons_app, <- str_app_assoc).
    erewrite Hat; [|rewrite Hp, length_app; cbn; lia | by rewrite E2, char_at_app | by rewrite (Hflags _ _ _ _ E2 Hu), Hpre | exact E'].
    rewrite <- hole_chars, Hk, (Htext k m done p left Hp), Hpre. done.
Qed.

(** What a pass of either loop does at a '%'. *)
Lemma napi_pass_at (params : list napiParam) pos count log showPriv pre c k rest :
  Z.of_nat (length params) < 2 ^ 32 -> 0 <= count < Z.of_nat (length params) -> char_at formatStr pos = "%"%char ->
  property formatStr pos = (slen pre, showPriv) -> formatStr = pre +:+ String c (String k rest) ->
  NapiLog.parse_pass isPrivateEnable formatStr params pos count log =
    if str_mem k "disOo" then Continue (slen pre + 1) (count + 1) (log +:+ NapiLog.param_text isPrivateEnable params k showPriv count)
    else if Ascii.eqb k "%" then Continue (slen pre + 1) count (log +:+ String c "") else Continue (slen pre) count (log +:+ String c "").
Proof using Hlen.
  intros Hp Hc Hpos Hf E. unfold NapiLog.parse_pass. rewrite (proj2 (Z.leb_gt _ _)) by lia. rewrite Hpos, Hf. cbn [negb Ascii.eqb].
  rewrite (pos_next pre _ E), !slen_cons by (rewrite slen_cons; pose proof (slen_nonneg (String k rest)); lia). pose proof (slen_nonneg rest).
  rewrite (proj2 (Z.leb_gt _ _)) by lia. pose proof (f_equal slen E) as El. rewrite slen_app, !slen_cons in El. pose proof (slen_nonneg pre).
  unfold countable in Hlen. rewrite !wrapu_small by lia. rewrite E. rewrite char_at_app, char_at_S. done.
Qed.

Lemma ani_pass_at (params : list AniParam) pos count log showPriv pre c k rest :
  Z.of_nat (length params) < 2 ^ 32 -> 0 <= count < Z.of_nat (length params) -> char_at formatStr pos = "%"%char ->
  HandleFormatFlags formatStr pos = (slen pre, showPriv) -> formatStr = pre +:+ String c (String k rest) ->
  AniLog.parse_pass isPrivateEnable formatStr params pos count log =
    if str_mem k "disOo" then Continue (slen pre + 1) (count + 1) (log +:+ AniLog.param_text params k (isPrivateEnable && showPriv) count)
    else if Ascii.eqb k "%" then Continue (slen pre + 1) count (log +:+ String c "") else Continue (slen pre) count (log +:+ String c "").
Proof using Hlen.
  intros Hp Hc Hpos Hf E. unfold AniLog.parse_pass. rewrite (proj2 (Z.leb_gt _ _)) by lia. rewrite Hpos, Hf. cbn [negb Ascii.eqb]. unfold ProcessLogContent.
  rewrite (pos_next pre _ E), !slen_cons by (rewrite slen_cons; pose proof (slen_nonneg (String k rest)); lia). pose proof (slen_nonneg rest).
  rewrite (proj2 (Z.leb_gt _ _)) by lia. pose proof (f_equal slen E) as El. rewrite slen_app, !slen_cons in El. pose proof (slen_nonneg pre).
  unfold countable in Hlen. rewrite !wrapu_small by lia. rewrite E. rewrite char_at_app, char_at_S. done.
Qed.

Lemma napi_reads (params : list napiParam) :
  Z.of_nat (length params) < 2 ^ 32 ->
  reads_pieces (fun k p => NapiLog.takes k (np_type p)) np_val isPrivateEnable (NapiLog.parse_pass isPrivateEnable formatStr params) formatStr params "%".
Proof using Hlen.
  intros Hp. apply (reads_from _ _ _ (property formatStr) (NapiLog.param_text isPrivateEnable params)).
  - intros pos count log H. unfold NapiLog.parse_pass. by rewrite (proj2 (Z.leb_le _ _) H).
  - intros pos count log H Hc. unfold NapiLog.parse_pass. rewrite (proj2 (Z.leb_gt _ _)) by lia. by rewrite (proj2 (Ascii.eqb_neq _ _) Hc).
  - intros pre m k rest. by apply property_mark.
  - intros. by eapply napi_pass_at.
  - intros k m done p left ->. unfold NapiLog.param_text. rewrite Nat2Z.id, list_lookup_middle; done.
  - intros pre count log E H. left. split; [|done]. unfold NapiLog.parse_pass. rewrite (proj2 (Z.leb_gt _ _)) by lia.
    rewrite (property_bare _ pre "" Hlen E eq_refl), (pos_next pre _ E) by done. by rewrite E, char_at_app.
Qed.

Lemma ani_reads (params : list AniParam) :
  Z.of_nat (length params) < 2 ^ 32 ->
  reads_pieces (fun k p => AniLog.takes k (ap_type p)) ap_val isPrivateEnable (AniLog.parse_pass isPrivateEnable formatStr params) formatStr params "".
Proof using Hlen.
  intros Hp. apply (reads_from _ _ _ (HandleFormatFlags formatStr) (fun k showPriv => AniLog.param_text params k (isPrivateEnable && showPriv))).
  - intros pos count log H. unfold AniLog.parse_pass. by rewrite (proj2 (Z.leb_le _ _) H).
  - intros pos count log H Hc. unfold AniLog.parse_pass. rewrite (proj2 (Z.leb_gt _ _)) by lia. by rewrite (proj2 (Ascii.eqb_neq _ _) Hc).
  - intros pre m k rest. by apply HandleFormatFlags_mark.
  - intros. by eapply ani_pass_at.
  - intros k m done p left ->. unfold AniLog.param_text. rewrite Nat2Z.id, list_lookup_middle; done.
  - intros pre count log E H. right. split; [|done]. unfold AniLog.parse_pass. rewrite (proj2 (Z.leb_gt _ _)) by lia.
    rewrite (HandleFormatFlags_bare _ pre "" Hlen E eq_refl). unfold ProcessLogContent. rewrite (pos_next pre _ E) by done. by rewrite E, char_at_app.
Qed.
End reading.

(** ** The text of a line *)

Section text.
Context (isPrivateEnable : bool) (ps : list piece) (tail : string).
Context (Hwf : wf ps tail = true) (Ht : tail = "" \/ tail = "%") (Hlen : countable (show ps +:+ tail)).

Definition napi_line (params : list napiParam) : string :=
  render (fun k p => NapiLog.takes k (np_type p)) np_val isPrivateEnable ps params tail tail.
Definition ani_line (params : list AniParam) : string :=
  render (fun k p => AniLog.takes k (ap_type p)) ap_val isPrivateEnable ps params tail "".

Lemma napi_text params : Z.of_nat (length params) < 2 ^ 32 -> NapiLog.parse_text isPrivateEnable (show ps +:+ tail) params = Some (napi_line params).
Proof using Hwf Ht Hlen.
  intros Hp. pose proof Hlen as Hl. unfold countable in Hl. unfold NapiLog.parse_text.
  eapply (run_render _ _ _ _ _ _ _ (napi_reads _ _ Hlen params Hp) ltac:(lia) ps tail tail _ "" [] params ""); try done; [|unfold slen; lia].
  destruct Ht as [->| ->]; auto.
Qed.

Lemma ani_text params : Z.of_nat (length params) < 2 ^ 32 -> AniLog.parse_text isPrivateEnable (show ps +:+ tail) params = Some (ani_line params).
Proof using Hwf Ht Hlen.
  intros Hp. pose proof Hlen as Hl. unfold countable in Hl. unfold AniLog.parse_text.
  eapply (run_render _ _ _ _ _ _ _ (ani_reads _ _ Hlen params Hp) ltac:(lia) ps tail "" _ "" [] params ""); try done; [|unfold slen; lia].
  destruct Ht as [->| ->]; auto.
Qed.
End text.

(** C15: the text that the bindings for JavaScript and for ArkTS make of a format
    and its parameters.  For a format made of characters, "%%", '%' before a
    character that asks for nothing, and conversions that may be marked public
    or private, possibly with a '%' at its end, both print the characters, and
    for each conversion the parameter, "<private>" for one that is not public
    while privacy is on, or nothing for one of another type; when the
    parameters are used up, the rest of the format is copied with its marks.
    The two differ in the types they take and in the '%' at the end, which is
    lost in ArkTS. *)
Theorem js_format_reference isPrivateEnable ps tail params params' :
  wf ps tail = true -> tail = "" \/ tail = "%" -> countable (show ps +:+ tail) ->
  Z.of_nat (length params) < 2 ^ 32 -> Z.of_nat (length params') < 2 ^ 32 ->
  NapiLog.parse_text isPrivateEnable (show ps +:+ tail) params = Some (napi_line isPrivateEnable ps tail params) /\
  AniLog.parse_text isPrivateEnable (show ps +:+ tail) params' = Some (ani_line isPrivateEnable ps tail params').
Proof. intros. split; [by apply napi_text | by apply ani_text]. Qed.

(** ** Parameters that are not public *)

Section hidden.
Context {P T : Type} (accepts : ascii -> T -> bool) (type : P -> T) (val : P -> string).

(** The same parameters but for the values of those that are not marked public. *)
Fixpoint same_public (ps : list piece) (params params' : list P) : Prop :=
  match ps, params, params' with
  | Hole m _ :: ps, p :: params, p' :: params' => type p = type p' /\ (m = Public -> val p = val p') /\ same_public ps params params'
  | [], [], [] | Hole _ _ :: _, [], [] => True
  | [], _ :: _, _ :: _ => length params = length params'
  | (Lit _ | Percent | Stray _) :: ps, _, _ => same_public ps params params'
  | _, _, _ => False
  end.

Lemma same_public_nil ps params : same_public ps [] params -> params = [].
Proof. induction ps as [|[] ps IH]; destruct params; cbn; auto; done. Qed.
Lemma same_public_cons ps p params params' : same_public ps (p :: params) params' -> exists p' l, params' = p' :: l.
Proof. revert p params. induction ps as [|[] ps IH]; intros p params; destruct params'; cbn; eauto; try done. all: by intros (? & ? & ?)%IH. Qed.

Lemma render_hidden ps params params' tail kept :
  same_public ps params params' ->
  render (fun k p => accepts k (type p)) val true ps params tail kept = render (fun k p => accepts k (type p)) val true ps params' tail kept.
Proof.
  revert params params'; induction ps as [|p ps IH]; intros [|x params] params' H.
  1,3: by apply same_public_nil in H as ->.
  - by destruct params'.
  - destruct (same_public_cons _ _ _ _ H) as (x' & params'' & ->). destruct p; cbn [render]; cbn [same_public] in H.
    1-3: by rewrite (IH (x :: params) (x' :: params'')).
    destruct H as (Hty & Hpub & H). rewrite (IH _ _ H). unfold shown. rewrite Hty. destruct (accepts k (type x')); [|done].
    destruct m; [done | by rewrite Hpub | done].
Qed.
End hidden.

(** C11: while privacy is on, the text that a binding makes of a format of known
    pieces does not depend on the values of the parameters whose conversions
    are not marked public, only on their types.  A conversion that the word
    public happens to follow, as in "%spublic key", is not one of the pieces:
    the bindings take the word for a mark. *)
Theorem js_private_hidden ps tail params1 params2 params1' params2' :
  wf ps tail = true -> tail = "" \/ tail = "%" -> countable (show ps +:+ tail) ->
  Z.of_nat (length params1) < 2 ^ 32 -> Z.of_nat (length params2) < 2 ^ 32 ->
  Z.of_nat (length params1') < 2 ^ 32 -> Z.of_nat (length params2') < 2 ^ 32 ->
  same_public np_type np_val ps params1 params2 -> same_public ap_type ap_val ps params1' params2' ->
  NapiLog.parse_text true (show ps +:+ tail) params1 = NapiLog.parse_text true (show ps +:+ tail) params2 /\
  AniLog.parse_text true (show ps +:+ tail) params1' = AniLog.parse_text true (show ps +:+ tail) params2'.
Proof.
  intros Hwf Ht Hlen ? ? ? ? Hn Ha. rewrite !(napi_text _ _ _ Hwf Ht Hlen), !(ani_text _ _ _ Hwf Ht Hlen) by done.
  unfold napi_line, ani_line. by rewrite (render_hidden NapiLog.takes np_type np_val _ _ _ _ _ Hn), (render_hidden AniLog.takes ap_type ap_val _ _ _ _ _ Ha).
Qed.

(** ** Instances *)

Definition ex_pieces : list piece :=
  [Lit "a"; Percent; Hole Public "d"; Lit " "; Hole Bare "s"; Stray "x"; Hole Private "o"; Hole Public "s"; Lit "!"].

Lemma js_format_reference_witness :
  let fmt := "a%%%{public}d %s%x%{private}o%{public}s!%" in
  let params := [mkNapiParam napi_number "7"; mkNapiParam napi_string "bob"; mkNapiParam napi_object "{}"; mkNapiParam napi_string "end"; mkNapiParam napi_null "null"] in
  let params' := [mkAniParam ANI_INT "7"; mkAniParam ANI_STRING "bob"; mkAniParam ANI_OBJECT "{}"; mkAniParam ANI_STRING "end"; mkAniParam ANI_NULL "null"] in
  NapiLog.parse_text true fmt params = Some "a%7 <private>%x<private>end!%" /\
  AniLog.parse_text true fmt params' = Some "a%7 <private>%x<private>end!".
Proof.
  intros fmt params params'. refine (js_format_reference true ex_pieces "%" params params' _ _ _ _ _); [by vm_compute | by right | by vm_compute | by vm_compute | by vm_compute].
Defined.

Lemma js_private_hidden_witness :
  let fmt := "a%%%{public}d %s%x%{private}o%{public}s!" in
  NapiLog.parse_text true fmt [mkNapiParam napi_number "7"; mkNapiParam napi_string "bob"] =
    NapiLog.parse_text true fmt [mkNapiParam napi_number "7"; mkNapiParam napi_string "alice"] /\
  AniLog.parse_text true fmt [mkAniParam ANI_INT "7"; mkAniParam ANI_STRING "bob"] =
    AniLog.parse_text true fmt [mkAniParam ANI_INT "7"; mkAniParam ANI_STRING "alice"].
Proof.
  intros fmt. refine (js_private_hidden ex_pieces "" _ _ _ _ _ _ _ _ _ _ _ _ _); try (by vm_compute); try (by left); by repeat split.
Defined.
