(* ===== verification/JsCallProps.v ===== *)
(** * Calls of the bindings

    A logging call from JavaScript or ArkTS sends the line with the text of
    the reference, cut to what a line holds; the list of log files survives
    the way through one string when it fits. *)

From S2P Require Import Prelude Common TimeStamp Utils LogData LogPrint Format FormatProps FormatRef Properties LogBuffer FlowControl LogCollector Kmsg PageSwitchLog Printf PrintfProps JsText NapiLog AniLog JsProps.
From Stdlib Require Import Ascii.

Section calls.
Context {PS : ParamService} {PL : ParamLaws PS}.
Context (lp64 char_signed : bool) (wctomb : Z -> option string) (malloc : Z -> bool).
Context (vsprintf_s : Z -> string -> list Z -> Z -> option string).
Context (localtime_r : Z -> option tm) (va_copied : bool).
Context (pe : penv) (ce : call_env) (Hshort : short_values (pe_sys pe)).

Abbreviation HiLogPrintArgs := (HiLogPrintArgs lp64 char_signed wctomb malloc vsprintf_s localtime_r va_copied pe ce).

(** ** Privacy *)

Definition private_mode (c : client) : bool :=
  negb (debug_on pe) && negb (hap_debuggable pe (g_props c)) && the_switch PROP_PRIVATE true (pe_sys pe).

Lemma props_pbind {A B} (m : propsM A) (f : A -> propsM B) c : props pe (pbind m f) c = (x ← props pe m; props pe (f x)) c.
Proof.
  unfold props, pbind, mbind, callM_bind. destruct (m pe (g_props c)) as [p x]. cbn.
  destruct (f x pe p) as [p' y]. done.
Qed.

Lemma reads_eq {A} (m m' : callM A) c v : m c = m' c -> reads pe m' c v -> reads pe m c v.
Proof. intros E (c' & E' & H). exists c'. by rewrite E. Qed.

Lemma reads_pret {A} (x : A) c : client_ok pe c -> reads pe (props pe (pret x)) c x.
Proof. intros Hc. eapply (reads_eq _ (mret x)); [by destruct c | by apply reads_ret]. Qed.

Lemma private_mode_reads c : client_ok pe c -> reads pe (props pe IsPrivateModeEnable) c (private_mode c).
Proof using PL Hshort.
  intros Hc. unfold IsPrivateModeEnable, private_mode. eapply reads_eq; [apply props_pbind|].
  eapply reads_bind; [apply (reads_props pe Hshort _ _ c IsDebugOn_ok Hc)|]. intros c1 H1. cbv beta. fold (debug_on pe).
  destruct (debug_on pe); cbn [negb andb]; [apply reads_pret, H1|]. eapply reads_eq; [apply props_pbind|].
  rewrite <- (ag_hap _ _ _ H1). eapply reads_bind; [apply reads_hap, H1|]. intros c2 H2. cbv beta.
  destruct (hap_debuggable pe (g_props c1)); cbn [negb andb]; [apply reads_pret, H2|]. apply (reads_props pe Hshort _ _ c2 IsPrivateSwitchOn_ok), H2.
Qed.

(** ** A line with a ready text *)

(** What fits behind the identifiers of the trace. *)
Definition fitting (c : client) (content : string) : string := str_take (Z.to_nat (MAX_LOG_LEN - slen (PrintTraceId ce c) - 1)) content.

Lemma formatted_public c content :
  ids_ok ce -> no_char NUL content -> slen content <= 2 ^ 30 ->
  exists r, formatted lp64 char_signed wctomb malloc vsprintf_s pe ce c "%{public}s" [VStr (Some content)] = Some (r, fitting c content).
Proof.
  intros Hi Hn Hs. destruct (PrintTraceId_ok ce c Hi) as [_ Ht]. pose proof (slen_nonneg (PrintTraceId ce c)). unfold formatted.
  rewrite vsnprintfp_public by (try done; unfold MAX_LOG_LEN, SECUREC_STRING_MAX_LEN; lia). unfold fitting.
  destruct (Z.ltb_spec (slen content) (MAX_LOG_LEN - slen (PrintTraceId ce c))) as [Hlt|Hge]; [|by eexists].
  eexists. rewrite str_take_all; [done|]. unfold MAX_LOG_LEN in *. pose proof (slen_nonneg content). lia.
Qed.

(** A format that gives a content, cut to what fits. *)
Definition gives (fmt : string) (args : list varg) (content : string) : Prop :=
  forall c, exists r, formatted lp64 char_signed wctomb malloc vsprintf_s pe ce c fmt args = Some (r, fitting c content).

Lemma print_run_gives type level domain tag fmt args content c :
  client_ok pe c -> logged pe c type level domain tag -> no_char NUL content -> gives fmt args content ->
  let text := fitting c content in
  let d := datagram_of ce type level domain tag (PrintTraceId ce c +:+ text) in
  exists c', HiLogPrintArgs type level domain (Some tag) fmt args c
    = Some (c', callback_of c type level domain tag text ++ [Sent d], ce_send ce d).
Proof using PL Hshort.
  intros Hc [Hcon [Hty Hk] Hlv [Hdom Hval] Htag Hlog Hflow] Hn Hg text d. destruct (Hg c) as (r & E).
  assert (type = LOG_APP \/ DOMAIN_OS_MIN <= domain <= DOMAIN_OS_MAX) as Hrange by (by apply valid_domain_range).
  destruct (print_run lp64 char_signed wctomb malloc vsprintf_s localtime_r va_copied pe ce Hshort type level domain tag fmt _ c r _
    Hc Hcon Hk Hrange Hlog Hflow E) as (c' & Ec & _).
  exists c'. rewrite (cstr_id (fitting c content)) in Ec by (by apply no_char_take). exact Ec.
Qed.

(** Reading parameters of the system does not change what becomes of a line. *)
Lemma logged_agrees c c1 type level domain tag : agrees pe c c1 -> logged pe c type level domain tag -> logged pe c1 type level domain tag.
Proof.
  intros Ha [Hcon Hty Hlv Hdom Htag Hlog Hflow]. split; try done.
  - by rewrite (ag_client _ _ _ Ha).
  - revert Hlog. unfold loggable, final_level. rewrite (ag_hap _ _ _ Ha). by rewrite (ag_client _ _ _ Ha).
  - revert Hflow. unfold flow_applies. by rewrite (ag_hap _ _ _ Ha).
Qed.

Lemma print_agrees type level domain tag fmt args content c c1 :
  agrees pe c c1 -> logged pe c type level domain tag -> no_char NUL content -> gives fmt args content ->
  let text := fitting c content in
  let d := datagram_of ce type level domain tag (PrintTraceId ce c +:+ text) in
  exists c', HiLogPrintArgs type level domain (Some tag) fmt args c1
    = Some (c', callback_of c type level domain tag text ++ [Sent d], ce_send ce d).
Proof using PL Hshort.
  intros Ha Hl Hn Hg. destruct (print_run_gives type level domain tag fmt args content c1 (ag_ok _ _ _ Ha) (logged_agrees _ _ _ _ _ _ Ha Hl) Hn Hg) as (c' & E).
  assert (PrintTraceId ce c1 = PrintTraceId ce c) as Ht by (by rewrite (ag_client _ _ _ Ha)).
  assert (forall t, callback_of c1 type level domain tag t = callback_of c type level domain tag t) as Hcb by (intros; by rewrite (ag_client _ _ _ Ha)).
  exists c'. unfold fitting in *. rewrite Ht, Hcb in E. exact E.
Qed.

Lemma print_public_agrees type level domain tag content c c1 :
  agrees pe c c1 -> ids_ok ce -> logged pe c type level domain tag -> no_char NUL content -> slen content <= 2 ^ 30 ->
  let text := fitting c content in
  let d := datagram_of ce type level domain tag (PrintTraceId ce c +:+ text) in
  exists c', HiLogPrintArgs type level domain (Some tag) "%{public}s" [VStr (Some content)] c1
    = Some (c', callback_of c type level domain tag text ++ [Sent d], ce_send ce d).
Proof using PL Hshort. intros Ha Hi Hl Hn Hs. apply print_agrees; [done.. |]. intros c0. by apply formatted_public. Qed.

(** ** The text that the bindings make *)

Section text.
Context (ps : list piece) (tail : string).
Context (Hwf : wf ps tail = true) (Ht : tail = "" \/ tail = "%") (Hlen : countable (show ps +:+ tail)).

Lemma napi_content_reads params c :
  client_ok pe c -> Z.of_nat (length params) < 2 ^ 32 ->
  reads pe (NapiLog.ParseLogContent pe (show ps +:+ tail) params) c (napi_line (private_mode c) ps tail params).
Proof using PL Hshort Hwf Ht Hlen.
  intros Hc Hp. unfold NapiLog.ParseLogContent. case_bool_decide as Hnil; [subst params; destruct ps; by apply reads_ret|].
  eapply reads_bind; [by apply private_mode_reads|]. intros c1 H1. rewrite napi_text by done.
  eexists. split; [done | apply agrees_refl, H1].
Qed.

Lemma ani_content_reads params c :
  client_ok pe c -> Z.of_nat (length params) < 2 ^ 32 ->
  reads pe (AniLog.ParseLogContent pe (show ps +:+ tail) params) c (ani_line (private_mode c) ps tail params).
Proof using PL Hshort Hwf Ht Hlen.
  intros Hc Hp. unfold AniLog.ParseLogContent. case_bool_decide as Hnil; [subst params; destruct ps; by apply reads_ret|].
  eapply reads_bind; [by apply private_mode_reads|]. intros c1 H1. rewrite ani_text by done.
  eexists. split; [done | apply agrees_refl, H1].
Qed.
End text.

(** ** JavaScript *)

Section napi.
Context {N : Napi}.

(** The parameter that a value gives; symbols and external values give none. *)
Definition napi_param (v : napi_value) : option napiParam :=
  t ← napi_typeof v;
  if bool_decide (t ∈ [napi_number; napi_bigint; napi_undefined; napi_boolean; napi_null]) then
    name ← napi_coerce_to_string v ≫= napi_get_value_string_utf8; Some (mkNapiParam t (cstr name))
  else if bool_decide (t ∈ [napi_object; napi_function]) then Some (mkNapiParam t (default "" (GetValObjectAsStr v)))
  else if bool_decide (t = napi_string) then name ← napi_get_value_string_utf8 v; Some (mkNapiParam t (cstr name))
  else None.

Abbreviation parse_values := (parse_values lp64 char_signed wctomb malloc vsprintf_s localtime_r va_copied pe ce).

Abbreviation parse_elements := (NapiLog.parse_elements lp64 char_signed wctomb malloc vsprintf_s localtime_r va_copied pe ce).

Lemma ParseNapiValue_param v p done c :
  napi_param v = Some p ->
  ParseNapiValue lp64 char_signed wctomb malloc vsprintf_s localtime_r va_copied pe ce v done c = Some (c, [], done ++ [p]).
Proof.
  intros Hv. unfold napi_param in Hv. unfold ParseNapiValue. destruct (napi_typeof v) as [t|]; [|done]. cbn [mbind option_bind] in Hv.
  destruct (bool_decide (t ∈ _)); [|destruct (bool_decide (t ∈ _)); [|destruct (bool_decide (t = _)); [|done]]].
  - destruct (napi_coerce_to_string v ≫= napi_get_value_string_utf8); [|done]. by injection Hv as <-.
  - by injection Hv as <-.
  - destruct (napi_get_value_string_utf8 v); [|done]. by injection Hv as <-.
Qed.

Lemma parse_values_params vs params done c :
  Forall2 (fun v p => napi_param v = Some p) vs params -> parse_values vs done c = Some (c, [], done ++ params).
Proof.
  intros H. revert done. induction H as [|v p vs params Hv H IH]; intros done; cbn [NapiLog.parse_values]; [by rewrite app_nil_r|].
  rewrite (callM_bind_run _ _ c c [] (done ++ [p])); [rewrite IH; by rewrite <- app_assoc | by apply ParseNapiValue_param].
Qed.

Lemma parse_elements_params array indices params done c :
  Forall2 (fun i p => napi_get_element array i ≫= napi_param = Some p) indices params ->
  parse_elements array indices done c = Some (c, [], Some (done ++ params)).
Proof.
  intros H. revert done. induction H as [|i p ixs params Hv H IH]; intros done; cbn [NapiLog.parse_elements]; [by rewrite app_nil_r|].
  destruct (napi_get_element array i) as [v|]; [|done]. cbn [mbind option_bind] in Hv.
  rewrite (callM_bind_run _ _ c c [] (done ++ [p])); [rewrite IH; by rewrite <- app_assoc | by apply ParseNapiValue_param].
Qed.

(** The parameters behind the format: the arguments themselves, or the
    elements of the one argument that is an array. *)
Definition js_values (vs : list napi_value) (params : list napiParam) : Prop :=
  (forall v, head vs = Some v -> napi_is_array v = false) /\ Forall2 (fun v p => napi_param v = Some p) vs params \/
  exists array n, vs = [array] /\ napi_is_array array = true /\ napi_get_array_length array = Some n /\
    Forall2 (fun i p => napi_get_element array i ≫= napi_param = Some p) (seqZ 0 n) params.

(** What a call from JavaScript hands over. *)
Definition js_call (args : list napi_value) (domain : Z) (tag fmt : string) (params : list napiParam) : Prop :=
  exists dv tv fv vs, args = dv :: tv :: fv :: vs /\ napi_get_value_int32 dv = Some domain /\
    napi_get_value_string_utf8 tv = Some tag /\ napi_get_value_string_utf8 fv = Some fmt /\ js_values vs params.

Lemma line_params_values args domain tag fmt params c :
  js_call args domain tag fmt params ->
  line_params lp64 char_signed wctomb malloc vsprintf_s localtime_r va_copied pe ce args c = Some (c, [], Some params).
Proof.
  intros (dv & tv & fv & vs & -> & _ & _ & _ & [[Harr Hvs]|(array & n & -> & Ha & Hn & Hel)]); unfold line_params.
  - destruct vs as [|v vs]; cbn [lookup list_lookup]; [by inversion Hvs|].
    rewrite (Harr v eq_refl). cbn [NapiLog.MIN_NUMBER drop]. by rewrite (callM_bind_run _ _ _ _ _ _ (parse_values_params _ _ [] c Hvs)).
  - cbn [lookup list_lookup length]. rewrite Ha, Hn. by apply (parse_elements_params array (seqZ 0 n) params []).
Qed.

(** C21: a logging call from JavaScript whose line is logged (the levels let it
    through, there is no sandbox log, and flow control of processes does not
    apply), for a format made of known pieces, with the parameters passed one
    by one or as an array: the
    callback gets, and one datagram carries, the text of the reference for the
    parameters, private where the parameters of the system and the debug flag
    of the application say so, up to its first NUL and cut to what fits behind
    the identifiers of the trace; it is not formatted a second time. *)
Theorem js_line_sent args domain tag fmt params ps tail level (isAppLog : bool) c :
  let type := if isAppLog then LOG_APP else LOG_CORE in
  let text := fitting c (cstr (napi_line (private_mode c) ps tail params)) in
  let d := datagram_of ce type level (u32 domain) (cstr tag) (PrintTraceId ce c +:+ text) in
  client_ok pe c -> ids_ok ce -> js_call args domain tag fmt params -> cstr fmt = show ps +:+ tail ->
  wf ps tail = true -> tail = "" \/ tail = "%" -> countable (show ps +:+ tail) -> Z.of_nat (length params) < 2 ^ 32 ->
  slen (napi_line (private_mode c) ps tail params) <= 2 ^ 30 -> logged pe c type level (u32 domain) (cstr tag) ->
  exists c', NapiLog.HilogImpl lp64 char_signed wctomb malloc vsprintf_s localtime_r va_copied pe ce (Some args) level isAppLog c
    = Some (c', callback_of c type level (u32 domain) (cstr tag) text ++ [Sent d], tt).
Proof using PL Hshort.
  intros type text d Hc Hi Hargs Ef Hwf Ht Hlen Hp Hs Hl. pose proof (line_params_values _ _ _ _ _ c Hargs) as Ep.
  destruct Hargs as (dv & tv & fv & vs & -> & Ed & Et & Efv & _). unfold NapiLog.HilogImpl. cbn [InitArgs lookup list_lookup].
  unfold ToInt32, ToUTF8String. cbn [mbind option_bind]. rewrite Ed, Et, Efv. rewrite (callM_bind_run _ _ _ _ _ _ Ep), Ef.
  destruct (napi_content_reads ps tail Hwf Ht Hlen params c Hc Hp) as (c1 & E1 & H1). rewrite (callM_bind_run _ _ _ _ _ _ E1).
  set (content := cstr (napi_line (private_mode c) ps tail params)) in *.
  assert (slen content <= 2 ^ 30) as Hsc by (etransitivity; [apply slen_cstr | exact Hs]).
  destruct (print_public_agrees type level (u32 domain) (cstr tag) content c c1 H1 Hi Hl (cstr_no_nul _) Hsc) as (c' & E).
  exists c'. unfold HiLogPrint. fold type. rewrite (callM_bind_run _ _ _ _ _ _ E). cbn [mret callM_ret mbind option_bind app]. by rewrite app_nil_r.
Qed.
End napi.

(** ** ArkTS *)

Section ani.
Context {A : Ani}.

Definition ani_param (v : ani_ref) : option AniParam :=
  match AniArgGetType v with
  | ANI_UNKNOWN => None
  | ANI_UNDEFINED => Some (mkAniParam ANI_UNDEFINED "undefined")
  | ANI_NULL => Some (mkAniParam ANI_NULL "null")
  | t => s ← Call_toString v; Some (mkAniParam t (AniStringToStdString s))
  end.

Abbreviation ani_elements := (AniLog.parse_elements lp64 char_signed wctomb malloc vsprintf_s localtime_r va_copied pe ce).

(** The elements of the array at some indices, as parameters. *)
Definition ani_values (args : ani_ref) (indices : list Z) (params : list AniParam) : Prop :=
  Forall2 (fun i p => Array_Get args i ≫= ani_param = Some p) indices params.

Lemma ani_elements_params args indices params done c :
  ani_values args indices params -> ani_elements args indices done c = Some (c, [], Some (done ++ params)).
Proof.
  intros H. revert done. induction H as [|i p ixs params Hv H IH]; intros done; cbn [AniLog.parse_elements]; [by rewrite app_nil_r|].
  destruct (Array_Get args i) as [v|]; [|done]. cbn [mbind option_bind] in Hv.
  rewrite (callM_bind_run _ _ c c [] (done ++ [p])); [rewrite IH; by rewrite <- app_assoc|].
  unfold ani_param in Hv. unfold ParseAniValue, AniArgToString.
  destruct (AniArgGetType v); [done|..]; try (by injection Hv as <-); (destruct (Call_toString v); [|done]); cbn [mbind option_bind] in Hv; by injection Hv as <-.
Qed.

(** A logging call from ArkTS does the same: the text of the reference is
    sent as it is, up to its first NUL and cut to what fits. *)
Theorem ets_line_sent args tag format domain n params ps tail level (isAppLog : bool) c :
  let type := if isAppLog then LOG_APP else LOG_CORE in
  let text := fitting c (cstr (ani_line (private_mode c) ps tail params)) in
  let d := datagram_of ce type level (u32 domain) (AniStringToStdString tag) (PrintTraceId ce c +:+ text) in
  client_ok pe c -> ids_ok ce -> Array_GetLength args = Some n -> 0 <= n <= AniLog.MAX_NUMBER -> ani_values args (seqZ 0 n) params ->
  AniStringToStdString format = show ps +:+ tail -> wf ps tail = true -> tail = "" \/ tail = "%" -> countable (show ps +:+ tail) ->
  slen (ani_line (private_mode c) ps tail params) <= 2 ^ 30 -> logged pe c type level (u32 domain) (AniStringToStdString tag) ->
  exists c', AniLog.HilogImpl lp64 char_signed wctomb malloc vsprintf_s localtime_r va_copied pe ce domain tag format args level isAppLog c
    = Some (c', callback_of c type level (u32 domain) (AniStringToStdString tag) text ++ [Sent d], tt).
Proof using PL Hshort.
  intros type text d Hc Hi Hn Hr Hv Ef Hwf Ht Hlen Hs Hl. unfold AniLog.MAX_NUMBER in Hr. unfold AniLog.HilogImpl. rewrite Hn.
  rewrite (proj2 (Z.ltb_ge n AniLog.MIN_NUMBER)), (proj2 (Z.ltb_ge AniLog.MAX_NUMBER n)) by (unfold AniLog.MIN_NUMBER, AniLog.MAX_NUMBER; lia). cbn [orb].
  rewrite (callM_bind_run _ _ _ _ _ _ (ani_elements_params _ _ _ [] c Hv)), Ef. cbn [app].
  assert (Z.of_nat (length params) < 2 ^ 32) as Hp by (apply Forall2_length in Hv; rewrite length_seqZ in Hv; lia).
  destruct (ani_content_reads ps tail Hwf Ht Hlen params c Hc Hp) as (c1 & E1 & H1). rewrite (callM_bind_run _ _ _ _ _ _ E1).
  set (content := cstr (ani_line (private_mode c) ps tail params)) in *.
  assert (slen content <= 2 ^ 30) as Hsc by (etransitivity; [apply slen_cstr | exact Hs]).
  destruct (print_public_agrees type level (u32 domain) _ content c c1 H1 Hi Hl (cstr_no_nul _) Hsc) as (c' & E).
  exists c'. unfold HiLogPrint. fold type. rewrite (callM_bind_run _ _ _ _ _ _ E). cbn [mret callM_ret mbind option_bind app]. by rewrite app_nil_r.
Qed.
End ani.
End calls.

(** ** The list of log files *)

Lemma tokens_comma t s : no_char "," t -> tokens "," (t +:+ String "," s) = t :: tokens "," s.
Proof.
  induction t as [|ch t IH]; intros Ht; [done|]. apply no_char_cons in Ht as [Hc Ht]. rewrite str_cons_app. cbn [tokens].
  rewrite (proj2 (Ascii.eqb_neq ch ",")) by congruence. by rewrite (IH Ht).
Qed.
Lemma tokens_last t : no_char "," t -> tokens "," t = [t].
Proof.
  induction t as [|ch t IH]; intros Ht; [done|]. apply no_char_cons in Ht as [Hc Ht]. cbn [tokens].
  rewrite (proj2 (Ascii.eqb_neq ch ",")) by congruence. by rewrite (IH Ht).
Qed.

Lemma tokens_concat files : files <> [] -> Forall (no_char ",") files -> tokens "," (String.concat "," files) = files.
Proof.
  induction files as [|f [|f' files] IH]; intros Hne Hf; [done | by apply tokens_last, (Forall_inv Hf)|].
  apply Forall_cons in Hf as [Hf Hfs]. change (String.concat "," (f :: f' :: files)) with (f +:+ String "," (String.concat "," (f' :: files)))%string.
  rewrite (tokens_comma f _ Hf), IH; done.
Qed.

Lemma SpiltString_concat files :
  Forall (no_char ",") files -> files <> [""] -> SpiltString (String.concat "," files) "," = files.
Proof.
  intros Hf Hne. unfold SpiltString. destruct files as [|f files]; [done|]. rewrite bool_decide_false; [by apply tokens_concat|].
  destruct files as [|f' files]; [by intros E; cbn in E; subst f|].
  change (String.concat "," (f :: f' :: files)) with (f +:+ String "," (String.concat "," (f' :: files)))%string. by destruct f.
Qed.

(** The names of the log files that the sandbox log returns to the library
    reach a caller from JavaScript and from ArkTS, although they pass through
    one string with commas in a buffer of 4096 bytes, when none of them holds
    a comma or a NUL and all of them fit. *)
Theorem log_files_roundtrip {N : Napi} answer v seconds call c :
  let files := answer call in
  napi_get_value_int32 v = Some seconds -> - 2 ^ 31 <= seconds < 2 ^ 31 -> InnerGetAppLogFile seconds c = Some call ->
  Forall (no_char ",") files -> Forall (no_char NUL) files -> files <> [""] -> slen (String.concat "," files) < SANDBOX_NAPI_LOG_FILE_SIZE ->
  NapiLog.GetLogFile answer (Some [v]) c = Some (c, [Sandbox call], Some files) /\
  AniLog.GetLogFile answer seconds c = Some (c, [Sandbox call], files).
Proof.
  intros files Hv Hr Hc Hf Hnul Hne Hlen.
  assert (no_char NUL (String.concat "," files)) as Hn.
  { clear -Hnul. induction files as [|f [|f' fs] IH]; [apply not_elem_of_nil | by apply (Forall_inv Hnul)|].
    apply Forall_cons in Hnul as [H1 H2]. change (no_char NUL (f +:+ String "," (String.concat "," (f' :: fs)))).
    apply no_char_app; [done|]. apply no_char_cons. split; [done | by apply IH]. }
  assert ((HiLogGetAppLogFile files SANDBOX_NAPI_LOG_FILE_SIZE).2 = String.concat "," files) as Ef.
  { unfold HiLogGetAppLogFile, copy_out. rewrite cstr_id by done. unfold SANDBOX_NAPI_LOG_FILE_SIZE in *. change (4096 <=? 0) with false. cbv iota.
    by rewrite (proj2 (Z.leb_le _ _)) by lia. }
  assert (app_log_files answer seconds c = Some (c, [Sandbox call], files)) as Ea.
  { unfold app_log_files, tell, mbind, callM_bind, get. cbn. rewrite Hc. cbn. by rewrite Hc. }
  split.
  - unfold NapiLog.GetLogFile. cbn [InitArgs exactly length Nat.eqb lookup list_lookup]. unfold ToInt32. cbn [mbind option_bind]. rewrite Hv.
    rewrite option_guard_True by done. rewrite (callM_bind_run _ _ _ _ _ _ Ea). rewrite Ef, SpiltString_concat by done. done.
  - unfold AniLog.GetLogFile. rewrite (wraps_small 32 seconds) by lia. rewrite (callM_bind_run _ _ _ _ _ _ Ea).
    change SANDBOX_ANI_LOG_FILE_SIZE with SANDBOX_NAPI_LOG_FILE_SIZE. by rewrite Ef, SpiltString_concat.
Qed.

(** ** Instances *)

(** An engine with numbers, strings and arrays. *)
Inductive ex_value := ENum (z : Z) | EStr (s : string) | EArr (l : list ex_value).
#[local] Instance ex_napi : Napi := {|
  napi_value := ex_value;
  napi_typeof v := Some match v with ENum _ => napi_number | EStr _ => napi_string | EArr _ => napi_object end;
  napi_coerce_to_string v := match v with ENum z => Some (EStr (to_string z)) | EStr s => Some (EStr s) | EArr _ => None end;
  napi_get_value_string_utf8 v := match v with EStr s => Some s | _ => None end;
  napi_get_value_int32 v := match v with ENum z => Some (i32 z) | _ => None end;
  napi_get_value_bool _ := None;
  napi_is_array v := match v with EArr _ => true | _ => false end;
  napi_get_array_length v := match v with EArr l => Some (Z.of_nat (length l)) | _ => None end;
  napi_get_element v i := match v with EArr l => l !! Z.to_nat i | _ => None end;
  napi_get_global := None;
  napi_get_named_property _ _ := None;
  napi_call_function _ _ _ := None;
  napi_get_print_string v := match v with EStr s => s | _ => "" end;
|}.

(** A machine with integers, strings and arrays of them. *)
Inductive ex_aref := AInt (z : Z) | AStr (s : string) | AArr (l : list ex_aref).
#[local] Instance ex_ani : Ani := {|
  ani_ref := ex_aref; ani_class := string; ani_enum := unit; ani_enum_item := Z;
  Reference_IsUndefined _ := false;
  Reference_IsNull _ := false;
  FindClass name := Some name;
  Object_InstanceOf v name := Some (bool_decide (match v with AInt _ => "std.core.Int" | AStr _ => "std.core.String" | AArr _ => "std.core.Object" end = name));
  Call_toString v := Some match v with AInt z => AStr (to_string z) | _ => v end;
  Call_toInt v := match v with AInt z => Some z | _ => None end;
  String_GetUTF8 v := match v with AStr s => s | _ => "" end;
  Array_GetLength v := match v with AArr l => Some (Z.of_nat (length l)) | _ => None end;
  Array_Get v i := match v with AArr l => l !! Z.to_nat i | _ => None end;
  EnumItem_GetValue_Int := Some;
  FindEnum _ := inr tt;
  Enum_GetEnumItemByIndex _ := inr;
|}.

Lemma ex_logged_app : logged ex_pe ex_client LOG_APP LOG_INFO 16 "tag".
Proof.
  split; [by split | by split | by split | by vm_compute | | by vm_compute | by vm_compute].
  split; [apply (bool_decide_unpack _); by vm_compute | by vm_compute].
Qed.

Definition ex_line : list piece := [Lit "n"; Hole Public "d"; Lit " "; Hole Bare "s"].

Lemma js_line_sent_witness :
  exists c' d, NapiLog.HilogImpl (H := ex_napi) true true ex_wctomb (fun _ => true) ex_vsprintf (fun _ => None) true ex_pe ex_ce
    (Some [ENum 16; EStr "tag"; EStr "n%{public}d %s"; EArr [ENum 7; EStr "bob"]]) LOG_INFO true ex_client
    = Some (c', [Callback 2 LOG_APP LOG_INFO 16 "tag" "n7 <private>"; Sent d], tt).
Proof.
  assert (js_call (N := ex_napi) [ENum 16; EStr "tag"; EStr "n%{public}d %s"; EArr [ENum 7; EStr "bob"]] 16 "tag" "n%{public}d %s"
    [mkNapiParam napi_number "7"; mkNapiParam napi_string "bob"]) as Hcall.
  { exists (ENum 16), (EStr "tag"), (EStr "n%{public}d %s"), [EArr [ENum 7; EStr "bob"]]. do 4 (split; [done|]). right.
    exists (EArr [ENum 7; EStr "bob"]), 2. do 3 (split; [done|]).
    repeat (constructor; [by vm_compute|]). constructor. }
  destruct (@js_line_sent hist_service hist_laws true true ex_wctomb (fun _ => true) ex_vsprintf (fun _ => None) true ex_pe ex_ce ex_short ex_napi
    [ENum 16; EStr "tag"; EStr "n%{public}d %s"; EArr [ENum 7; EStr "bob"]] 16 "tag" "n%{public}d %s"
    [mkNapiParam napi_number "7"; mkNapiParam napi_string "bob"] ex_line "" LOG_INFO true ex_client
    (new_caches_ok _) ex_ids Hcall eq_refl eq_refl (or_introl eq_refl) eq_refl eq_refl ltac:(by vm_compute) ex_logged_app) as (c' & E).
  eexists c', _. exact E.
Defined.

Lemma ets_line_sent_witness :
  exists c' d, AniLog.HilogImpl (H := ex_ani) true true ex_wctomb (fun _ => true) ex_vsprintf (fun _ => None) true ex_pe ex_ce
    16 (AStr "tag") (AStr "n%{public}d %s") (AArr [AInt 7; AStr "bob"]) LOG_INFO true ex_client
    = Some (c', [Callback 2 LOG_APP LOG_INFO 16 "tag" "n7 <private>"; Sent d], tt).
Proof.
  assert (ani_values (A := ex_ani) (AArr [AInt 7; AStr "bob"]) (seqZ 0 2) [mkAniParam ANI_INT "7"; mkAniParam ANI_STRING "bob"]) as Hv
    by (repeat (constructor; [by vm_compute|]); constructor).
  destruct (@ets_line_sent hist_service hist_laws true true ex_wctomb (fun _ => true) ex_vsprintf (fun _ => None) true ex_pe ex_ce ex_short ex_ani
    (AArr [AInt 7; AStr "bob"]) (AStr "tag") (AStr "n%{public}d %s") 16 2 [mkAniParam ANI_INT "7"; mkAniParam ANI_STRING "bob"] ex_line "" LOG_INFO true ex_client
    (new_caches_ok _) ex_ids eq_refl ltac:(by vm_compute) Hv eq_refl eq_refl (or_introl eq_refl) eq_refl ltac:(by vm_compute) ex_logged_app) as (c' & E).
  eexists c', _. exact E.
Defined.

Lemma log_files_roundtrip_witness :
  let c := set_sandbox ex_client PRIVATE_SANDBOX_ONLY [] false in
  let answer := fun _ => ["/data/a.log"; "/data/b.log"] in
  NapiLog.GetLogFile (H := ex_napi) answer (Some [ENum 60]) c = Some (c, [Sandbox (GetPrivateSandboxLogFile 60)], Some ["/data/a.log"; "/data/b.log"]).
Proof.
  intros c answer.
  apply (@log_files_roundtrip ex_napi answer (ENum 60) 60 (GetPrivateSandboxLogFile 60) c); try (by vm_compute);
    repeat constructor; apply (bool_decide_unpack _); by vm_compute.
Defined.
