(* ===== verification/LogSocket.v ===== *)
(** * The sockets to the daemon

    The descriptors of a process, and how the two client libraries find the
    socket for a datagram: [DgramSocketClient] and [HilogInputSocketClient]
    (libhilog/socket), and the socket of hilog_base.c.  Threads share the
    descriptors and the variables of the libraries; between two accesses to
    them another thread may run, so that a call is also given by its steps. *)

From S2P Require Import Prelude.

(** ** Descriptors *)

(** What a descriptor refers to: a datagram socket, connected to the daemon or
    not, or something else that the process has opened. *)
Inductive object := Sock (connected : bool) | Other (name : string).

#[export] Instance object_eq_dec : EqDecision object.
Proof. solve_decision. Defined.

Record proc := mkProc {
  fds : gmap Z object;
  fdHandler : Z;                        (* std::atomic_int of DgramSocketClient *)
  socketHandler : Z;                    (* of Socket *)
  g_socketFd : Z;                       (* atomic_int of hilog_base.c *)
  delivered : list string;              (* what the daemon has received *)
  elsewhere : list (string * string);   (* what was written to other objects *)
}.

Definition new_proc (opened : gmap Z object) : proc := mkProc opened (-1) 0 (-1) [] [].

Definition set_fds (p : proc) (m : gmap Z object) : proc := mkProc m (fdHandler p) (socketHandler p) (g_socketFd p) (delivered p) (elsewhere p).
Definition set_fdHandler (p : proc) (fd : Z) : proc := mkProc (fds p) fd (socketHandler p) (g_socketFd p) (delivered p) (elsewhere p).
Definition set_socketHandler (p : proc) (fd : Z) : proc := mkProc (fds p) (fdHandler p) fd (g_socketFd p) (delivered p) (elsewhere p).
Definition set_g (p : proc) (fd : Z) : proc := mkProc (fds p) (fdHandler p) (socketHandler p) fd (delivered p) (elsewhere p).
Definition deliver (p : proc) (d : string) : proc := mkProc (fds p) (fdHandler p) (socketHandler p) (g_socketFd p) (delivered p ++ [d]) (elsewhere p).
Definition misplace (p : proc) (name d : string) : proc :=
  mkProc (fds p) (fdHandler p) (socketHandler p) (g_socketFd p) (delivered p) (elsewhere p ++ [(name, d)]).

(** ** System calls *)

(** The lowest descriptor that is free. *)
Fixpoint lowest_from (m : gmap Z object) (fuel : nat) (fd : Z) : Z :=
  match fuel with
  | O => fd
  | S fuel => match m !! fd with None => fd | Some _ => lowest_from m fuel (fd + 1) end
  end.
Definition lowest (m : gmap Z object) : Z := lowest_from m (size m) 0.

(** Whether a new descriptor is to be had, whether the daemon listens, and
    whether it has room for a datagram. *)
Record sys_env := mkSysEnv { can_open : bool; daemon : bool; has_room : bool }.

Definition sys_open (o : object) (env : sys_env) (p : proc) : proc * Z :=
  if can_open env then let fd := lowest (fds p) in (set_fds p (<[fd := o]> (fds p)), fd) else (p, -1).

Definition sys_close (fd : Z) (p : proc) : proc := set_fds p (delete fd (fds p)).

Definition sys_connect (fd : Z) (env : sys_env) (p : proc) : proc * Z :=
  match fds p !! fd with
  | Some (Sock _) => if daemon env then (set_fds p (<[fd := Sock true]> (fds p)), 0) else (p, -1)
  | _ => (p, -1)
  end.

Definition sys_writev (fd : Z) (d : string) (env : sys_env) (p : proc) : proc * Z :=
  match fds p !! fd with
  | Some (Sock true) => if has_room env then (deliver p d, slen d) else (p, -1)
  | Some (Other name) => (misplace p name d, slen d)
  | _ => (p, -1)
  end.

(** ** libhilog *)

Definition GenerateFD (env : sys_env) (p : proc) : proc * Z :=
  let '(p, tmpFd) := sys_open (Sock false) env p in
  if tmpFd =? 0 then
    let '(p, res) := sys_open (Sock false) env p in
    (sys_close tmpFd p, res)
  else (p, tmpFd).

Definition SetHandler (handler : Z) (p : proc) : proc := if 0 <? socketHandler p then p else set_socketHandler p handler.
Definition Connect (env : sys_env) (p : proc) : proc * Z := sys_connect (socketHandler p) env p.
Definition WriteV (d : string) (env : sys_env) (p : proc) : proc * Z := sys_writev (socketHandler p) d env p.

Definition CloseFd (p : proc) : proc :=
  if 0 <=? fdHandler p then set_fdHandler (sys_close (fdHandler p) p) (-1) else p.

Definition CheckSocket (env : sys_env) (p : proc) : proc * Z :=
  if 0 <=? fdHandler p then (p, fdHandler p)
  else
    let '(p, fd) := GenerateFD env p in
    if fd <? 0 then (p, fd)
    else if negb (fdHandler p =? -1) then (sys_close fd p, fdHandler p)
    else
      let p := SetHandler fd (set_fdHandler p fd) in
      ((Connect env p).1, fd).

(** The header, the tag and the text are one datagram. *)
Definition WriteDatagram (env : sys_env) (d : string) (p : proc) : proc * Z :=
  let '(p, ret) := CheckSocket env p in
  if ret <? 0 then (p, ret)
  else
    let '(p, ret) := WriteV d env p in
    if ret <? 0 then WriteV d env (Connect env p).1 else (p, ret).

(** The places of a thread in [WriteLogMessage] between accesses to what it shares. *)
Inductive place :=
| AtCheck | AtGenerate | AtExchange (fd : Z) | AtDiscard (fd ret : Z) | AtSetHandler (fd : Z) | AtConnect | AtWrite | AtReconnect | AtRewrite
| Returned (ret : Z).

Definition thread_step (env : sys_env) (d : string) (t : place) (p : proc) : proc * place :=
  match t with
  | AtCheck => (p, if 0 <=? fdHandler p then AtWrite else AtGenerate)
  | AtGenerate => let '(p, fd) := GenerateFD env p in (p, if fd <? 0 then Returned fd else AtExchange fd)
  | AtExchange fd => if fdHandler p =? -1 then (set_fdHandler p fd, AtSetHandler fd) else (p, AtDiscard fd (fdHandler p))
  | AtDiscard fd ret => (sys_close fd p, if ret <? 0 then Returned ret else AtWrite)
  | AtSetHandler fd => (SetHandler fd p, AtConnect)
  | AtConnect => ((Connect env p).1, AtWrite)
  | AtWrite => let '(p, ret) := WriteV d env p in (p, if ret <? 0 then AtReconnect else Returned ret)
  | AtReconnect => ((Connect env p).1, AtRewrite)
  | AtRewrite => let '(p, ret) := WriteV d env p in (p, Returned ret)
  | Returned ret => (p, Returned ret)
  end.

Fixpoint thread_run (fuel : nat) (env : sys_env) (d : string) (t : place) (p : proc) : proc * place :=
  match fuel with
  | O => (p, t)
  | S fuel => let '(p, t) := thread_step env d t p in thread_run fuel env d t p
  end.

(** Threads with their datagrams, run in the order of a schedule. *)
Definition turn (env : sys_env) (s : proc * list (string * place)) (i : nat) : proc * list (string * place) :=
  match s.2 !! i with
  | Some (d, t) => let '(p, t) := thread_step env d t s.1 in (p, <[i := (d, t)]> s.2)
  | None => s
  end.
Definition schedule (env : sys_env) (s : proc * list (string * place)) (order : list nat) : proc * list (string * place) := foldl (turn env) s order.

(** ** hilog_base.c *)

(** The places of a thread in [SendMessage]; [release] says that the socket is
    the thread's own, and is closed after the datagram. *)
Inductive bplace :=
| BLoad | BSocket | BConnect (fd : Z) | BExchange (fd : Z) | BWrite (fd : Z) (release : bool) | BClose (fd ret : Z) | BReturned (ret : Z).

(** [CloseSocket] runs in the child of a fork, and when the library is unloaded. *)
Definition CloseSocket (p : proc) : proc :=
  let socketFd := g_socketFd p in
  if 0 <=? socketFd then set_g (sys_close socketFd p) (-1) else p.

(** A step of a call.  [CloseSocket] is not one of the steps that calls
    interleave with: the child of a fork has one thread, which is not inside a
    call; a thread that logs while the process exits is not represented. *)
Definition base_step (env : sys_env) (d : string) (t : bplace) (p : proc) : proc * bplace :=
  match t with
  | BLoad => (p, if g_socketFd p =? -1 then BSocket else BWrite (g_socketFd p) false)
  | BSocket => let '(p, fd) := sys_open (Sock false) env p in (p, if fd =? -1 then BReturned (-1) else BConnect fd)
  | BConnect fd =>
      let '(p, result) := sys_connect fd env p in
      if result =? -1 then (sys_close fd p, BReturned (-1)) else (p, BExchange fd)
  | BExchange fd => if g_socketFd p =? -1 then (set_g p fd, BWrite fd false) else (p, BWrite fd true)
  | BWrite fd release => let '(p, ret) := sys_writev fd d env p in (p, if release : bool then BClose fd ret else BReturned ret)
  | BClose fd ret => (sys_close fd p, BReturned ret)
  | BReturned ret => (p, BReturned ret)
  end.

(** A turn of thread [i], in the state the system is in then. *)
Definition base_turn (s : proc * list (string * bplace)) (e : nat * sys_env) : proc * list (string * bplace) :=
  match s.2 !! e.1 with
  | Some (d, t) => let '(p, t) := base_step e.2 d t s.1 in (p, <[e.1 := (d, t)]> s.2)
  | None => s
  end.
Definition base_schedule (s : proc * list (string * bplace)) (order : list (nat * sys_env)) : proc * list (string * bplace) := foldl base_turn s order.
