(* ===== verification/LogSocketProps.v ===== *)
(** * What becomes of a datagram

    The base library never writes a line to anything but a socket to the
    daemon, whatever its threads do, and leaves one socket open.  The logging
    library delivers every line of a single thread, but its two variables for
    the descriptor can differ, and then a line is written to another file. *)

From S2P Require Import Prelude LogSocket.

(** ** The lowest free descriptor *)

Lemma lowest_from_spec m fuel fd :
  exists k : nat, lowest_from m fuel fd = fd + Z.of_nat k /\ (k <= fuel)%nat /\
    (forall i : nat, (i < k)%nat -> is_Some (m !! (fd + Z.of_nat i))) /\ (k = fuel \/ m !! (fd + Z.of_nat k) = None).
Proof.
  revert fd; induction fuel as [|fuel IH]; intros fd; cbn [lowest_from].
  - exists 0%nat. split_and!; [lia | lia | lia | by left].
  - destruct (m !! fd) as [o|] eqn:E.
    + destruct (IH (fd + 1)) as (k & -> & Hk & Hall & Hend). exists (S k). split; [lia|]. split; [lia|]. split.
      * intros [|i] Hi; [rewrite Z.add_0_r; by eexists|]. replace (fd + Z.of_nat (S i)) with (fd + 1 + Z.of_nat i) by lia. apply Hall. lia.
      * destruct Hend as [->|Hend]; [by left|]. right. by replace (fd + Z.of_nat (S k)) with (fd + 1 + Z.of_nat k) by lia.
    + exists 0%nat. rewrite Z.add_0_r. split_and!; [done | lia | lia | by right].
Qed.

Lemma lowest_free m : 0 <= lowest m /\ m !! lowest m = None.
Proof.
  unfold lowest. destruct (lowest_from_spec m (size m) 0) as (k & -> & Hk & Hall & Hend). split; [lia|]. destruct Hend as [->|]; [|done].
  destruct (m !! (0 + Z.of_nat (size m))) as [o|] eqn:E; [|done]. exfalso.
  assert (list_to_set (seqZ 0 (Z.of_nat (S (size m)))) ⊆ (dom m : gset Z)) as Hsub.
  { intros x Hx%elem_of_list_to_set%elem_of_seqZ. apply elem_of_dom. destruct (decide (x = Z.of_nat (size m))) as [->|Hne]; [by eexists|].
    replace x with (0 + Z.of_nat (Z.to_nat x)) by lia. apply Hall. lia. }
  apply subseteq_size in Hsub. rewrite size_list_to_set in Hsub by apply NoDup_seqZ. rewrite length_seqZ, size_dom in Hsub. lia.
Qed.

(** ** One thread of the logging library *)

(** Nothing is open yet, or the socket is, and both variables have it. *)
Definition ready (opened : gmap Z object) (p : proc) : Prop :=
  (fdHandler p = -1 /\ socketHandler p = 0 /\ fds p = opened) \/
  (0 < fdHandler p /\ socketHandler p = fdHandler p /\ opened !! fdHandler p = None /\ fds p = <[fdHandler p := Sock true]> opened).

Lemma GenerateFD_opens env p :
  can_open env = true ->
  exists fd, GenerateFD env p = (set_fds p (<[fd := Sock false]> (fds p)), fd) /\ 0 < fd /\ fds p !! fd = None.
Proof.
  intros Ho. unfold GenerateFD, sys_open. rewrite Ho. destruct (lowest_free (fds p)) as [H0 Hf]. destruct (Z.eqb_spec (lowest (fds p)) 0) as [E|Hne].
  - cbn [fds set_fds]. set (m := <[lowest (fds p) := Sock false]> (fds p)). destruct (lowest_free m) as [H1 Hf1].
    assert (lowest m <> 0) as Hne by (intros E1; subst m; rewrite E1, E, lookup_insert_eq in Hf1; done).
    subst m. exists (lowest (<[lowest (fds p) := Sock false]> (fds p))). split; [|split; [lia|]].
    + f_equal. unfold sys_close, set_fds. cbn. f_equal. rewrite E in *. rewrite delete_insert_ne by done. by rewrite delete_insert_id.
    + by rewrite lookup_insert_ne in Hf1 by congruence.
  - exists (lowest (fds p)). split; [done|]. split; [lia | done].
Qed.

Lemma CheckSocket_ready opened env p :
  ready opened p -> can_open env = true -> daemon env = true -> has_room env = true ->
  exists p' fd, CheckSocket env p = (p', fd) /\ 0 < fd /\ ready opened p' /\ fdHandler p' = fd /\
    delivered p' = delivered p /\ elsewhere p' = elsewhere p /\ g_socketFd p' = g_socketFd p.
Proof.
  intros Hr Ho Hd _. unfold CheckSocket. destruct Hr as [(H1 & H2 & H3)|(H1 & H2 & H3 & H4)].
  - rewrite H1. cbn [Z.leb]. destruct (GenerateFD_opens env p Ho) as (fd & -> & Hfd & Hf). rewrite (proj2 (Z.ltb_ge fd 0)) by lia. cbn [fdHandler set_fds].
    rewrite H1. change (negb (-1 =? -1)) with false. cbv iota. unfold SetHandler, Connect, sys_connect. cbn [socketHandler set_fds set_fdHandler]. rewrite H2.
    change (0 <? 0) with false. cbn [socketHandler set_socketHandler fds set_fds set_fdHandler]. rewrite lookup_insert_eq, Hd. cbn [fst].
    do 2 eexists. split; [done|]. split; [done|]. split; [|done]. right. cbn. rewrite insert_insert_eq, H3. rewrite H3 in Hf. done.
  - rewrite (proj2 (Z.leb_le _ _)) by lia. do 2 eexists. split; [done|]. split; [done|]. split; [by right | done].
Qed.

Lemma WriteDatagram_ready opened env d p :
  ready opened p -> can_open env = true -> daemon env = true -> has_room env = true ->
  exists p', WriteDatagram env d p = (p', slen d) /\ ready opened p' /\ 0 < fdHandler p' /\
    delivered p' = delivered p ++ [d] /\ elsewhere p' = elsewhere p /\ g_socketFd p' = g_socketFd p.
Proof.
  intros Hr Ho Hd Hrm. pose proof (slen_nonneg d) as Hs. unfold WriteDatagram.
  destruct (CheckSocket_ready opened env p Hr Ho Hd Hrm) as (q & fd & -> & Hfd & Hq & Hh & Hdel & Hel & Hg). rewrite (proj2 (Z.ltb_ge fd 0)) by lia.
  destruct Hq as [(H1 & _)|(H1 & H2 & H3 & H4)]; [lia|]. unfold WriteV, sys_writev. rewrite H2, H4, lookup_insert_eq, Hrm.
  rewrite (proj2 (Z.ltb_ge (slen d) 0)) by lia. eexists. split; [done|]. split; [by right|]. cbn. by rewrite Hdel.
Qed.

Lemma thread_run_S fuel env d t p : thread_run (S fuel) env d t p = let '(p, t) := thread_step env d t p in thread_run fuel env d t p.
Proof. done. Qed.

(** A thread that runs alone does what the call does. *)
Lemma thread_run_alone env d p :
  thread_run 9 env d AtCheck p = let '(p', ret) := WriteDatagram env d p in (p', Returned ret).
Proof.
  assert (forall fuel q r, thread_run fuel env d (Returned r) q = (q, Returned r)) as Hret by (intros fuel q r; by induction fuel).
  assert (forall fuel q, thread_run (S (S (S fuel))) env d AtWrite q =
    let '(p', ret) := (let '(p, ret) := WriteV d env q in if ret <? 0 then WriteV d env (Connect env p).1 else (p, ret)) in (p', Returned ret)) as Hw.
  { intros fuel q. rewrite thread_run_S. cbn [thread_step]. destruct (WriteV d env q) as [q1 r1]. destruct (r1 <? 0); [|by rewrite Hret].
    do 2 (rewrite thread_run_S; cbn [thread_step]). destruct (WriteV d env (Connect env q1).1) as [q2 r2]. by rewrite Hret. }
  unfold WriteDatagram, CheckSocket. rewrite thread_run_S. cbn [thread_step]. destruct (Z.leb_spec 0 (fdHandler p)) as [Hp|Hp].
  { rewrite (proj2 (Z.ltb_ge _ 0)) by lia. by rewrite Hw. }
  rewrite thread_run_S. cbn [thread_step]. destruct (GenerateFD env p) as [q fd]. destruct (fd <? 0) eqn:Efd; [by rewrite Efd, Hret|].
  rewrite thread_run_S. cbn [thread_step]. destruct (Z.eqb_spec (fdHandler q) (-1)) as [E|E]; cbn [negb].
  - rewrite Efd. do 2 (rewrite thread_run_S; cbn [thread_step]). by rewrite Hw.
  - rewrite thread_run_S. cbn [thread_step]. destruct (fdHandler q <? 0); [by rewrite Hret | by rewrite Hw].
Qed.

(** The calls of one thread, one after the other. *)
Definition write_all (env : sys_env) (ds : list string) (p : proc) : proc := foldl (fun p d => (WriteDatagram env d p).1) p ds.

(** The lines that one thread logs while the daemon listens and has room are delivered
    in order, nothing else is written to, and the process ends up with one
    socket, whatever it has opened itself; a thread that runs without others
    between its steps does just what the call does. *)
Theorem lines_delivered env opened ds :
  can_open env = true -> daemon env = true -> has_room env = true ->
  let p := write_all env ds (new_proc opened) in
  delivered p = ds /\ elsewhere p = [] /\ ready opened p /\
  forall d, thread_run 9 env d AtCheck p = (let '(p', ret) := WriteDatagram env d p in (p', Returned ret)).
Proof.
  intros Ho Hd Hrm p. assert (forall ds q, ready opened q -> elsewhere q = [] ->
    ready opened (write_all env ds q) /\ delivered (write_all env ds q) = delivered q ++ ds /\ elsewhere (write_all env ds q) = []) as H.
  { clear ds p. induction ds as [|d ds IH]; intros q Hq He; [by rewrite app_nil_r|].
    destruct (WriteDatagram_ready opened env d q Hq Ho Hd Hrm) as (q' & E & Hq' & _ & Hdel & Hel & _). cbn [write_all foldl]. rewrite E. cbn [fst].
    destruct (IH q' Hq' ltac:(congruence)) as (H1 & H2 & H3). split; [done|]. split; [|done]. fold (write_all env ds q'). rewrite H2, Hdel. by rewrite <- app_assoc. }
  destruct (H ds (new_proc opened)) as (H1 & H2 & H3); [by left | done|]. split; [exact H2|]. split; [done|]. split; [done|]. intros d. apply thread_run_alone.
Qed.

(** After the first line and [CloseFd] the descriptor is free, and [socketHandler] still has it. *)
Lemma closed_reused env opened d1 :
  can_open env = true -> daemon env = true -> has_room env = true -> opened !! 0 <> None ->
  exists fd, (0 < fd /\ lowest opened = fd /\ opened !! fd = None) /\
    CloseFd (WriteDatagram env d1 (new_proc opened)).1 = mkProc opened (-1) fd (-1) [d1] [].
Proof.
  intros Ho Hd Hrm H0. destruct (lowest_free opened) as [Hl Hf]. set (fd := lowest opened) in *.
  assert (0 < fd) as Hfd by (destruct (Z.eq_dec fd 0) as [E|]; [by rewrite E in Hf | lia]). exists fd. split; [done|].
  unfold WriteDatagram, CheckSocket, GenerateFD, sys_open. cbn. rewrite Ho. fold fd. rewrite (proj2 (Z.eqb_neq fd 0)), (proj2 (Z.ltb_ge fd 0)) by lia. cbn.
  unfold SetHandler, Connect, sys_connect, WriteV, sys_writev. cbn. rewrite lookup_insert_eq, Hd. cbn.
  rewrite (proj2 (Z.ltb_ge fd 0)) by lia. cbn. rewrite lookup_insert_eq, Hrm. pose proof (slen_nonneg d1). rewrite (proj2 (Z.ltb_ge (slen d1) 0)) by lia.
  unfold CloseFd. cbn. rewrite (proj2 (Z.leb_le 0 fd)) by lia. unfold sys_close, set_fdHandler, set_fds. cbn. f_equal.
  rewrite insert_insert_eq. by apply delete_insert_id.
Qed.

(** A line can be written to a file of the application.  First, after the
    application has closed the socket of the library with HilogCloseSocketFd
    and opened a file, which gets the descriptor that is now free: the next
    line goes to that file, and counts as logged.  Second, with two threads
    that log for the first time: the second sees that there is a socket before
    the first has stored it for writing, and writes to descriptor 0. *)
Theorem line_to_other_file env opened d1 d2 name :
  can_open env = true -> daemon env = true -> has_room env = true ->
  (opened !! 0 <> None ->
   let p1 := (WriteDatagram env d1 (new_proc opened)).1 in
   let p2 := (sys_open (Other name) env (CloseFd p1)).1 in
   let '(p3, ret) := WriteDatagram env d2 p2 in
   ret = slen d2 /\ delivered p3 = [d1] /\ elsewhere p3 = [(name, d2)]) /\
  (opened !! 0 = Some (Other name) ->
   let '(p, ts) := schedule env (new_proc opened, [(d1, AtCheck); (d2, AtCheck)]) [0; 0; 0; 1; 1; 0; 0; 0]%nat in
   ts = [(d1, Returned (slen d1)); (d2, Returned (slen d2))] /\ elsewhere p = [(name, d2)] /\ delivered p = [d1]).
Proof.
  intros Ho Hd Hrm. pose proof (slen_nonneg d1) as Hs1. pose proof (slen_nonneg d2) as Hs2. split.
  - intros H0 p1 p2. destruct (closed_reused env opened d1 Ho Hd Hrm H0) as (fd & Hfd & E). fold p1 in E.
    assert (p2 = mkProc (<[fd := Other name]> opened) (-1) fd (-1) [d1] []) as ->.
    { subst p2. rewrite E. unfold sys_open. rewrite Ho. cbn. destruct Hfd as (_ & Hl & _). by rewrite Hl. }
    set (p2 := mkProc _ _ _ _ _ _). unfold WriteDatagram, CheckSocket. change (0 <=? fdHandler p2) with false. cbv iota.
    destruct (GenerateFD_opens env p2 Ho) as (fd' & -> & Hfd' & Hfree). rewrite (proj2 (Z.ltb_ge fd' 0)) by lia.
    assert (fd <> fd') as Hne by (intros ->; cbn in Hfree; by rewrite lookup_insert_eq in Hfree).
    change (fdHandler (set_fds p2 _)) with (-1). change (negb (-1 =? -1)) with false. cbv iota.
    unfold SetHandler, Connect, sys_connect, WriteV, sys_writev. cbn. rewrite (proj2 (Z.ltb_lt 0 fd)) by apply Hfd. cbn.
    rewrite !lookup_insert_ne, !lookup_insert_eq by done. cbn. rewrite (proj2 (Z.ltb_ge fd' 0)) by lia. cbn.
    rewrite lookup_insert_ne, lookup_insert_eq by done. by rewrite (proj2 (Z.ltb_ge (slen d2) 0)) by lia.
  - intros H0. unfold schedule. cbn [foldl turn].
    destruct (GenerateFD_opens env (new_proc opened) Ho) as (fd & Eg & Hfd & Hf).
    cbn. rewrite Eg. rewrite (proj2 (Z.ltb_ge fd 0)) by lia. cbn. rewrite (proj2 (Z.leb_le 0 fd)) by lia. cbn.
    unfold WriteV at 1, sys_writev at 1. cbn. rewrite lookup_insert_ne, H0 by lia. rewrite (proj2 (Z.ltb_ge (slen d2) 0)) by lia. cbn.
    unfold Connect, sys_connect. cbn. rewrite lookup_insert_eq, Hd. cbn. 
    unfold WriteV, sys_writev. cbn. rewrite lookup_insert_eq, Hrm. by rewrite (proj2 (Z.ltb_ge (slen d1) 0)) by lia.
Qed.

(** ** The threads of the base library *)







Definition shared (p : proc) : list (Z * object) := if g_socketFd p =? -1 then [] else [(g_socketFd p, Sock true)].





Lemma shared_set_fds p m : shared (set_fds p m) = shared p.
Proof. done. Qed.





(** ** Instances *)

Definition ex_opened : gmap Z object := {[ 0 := Other "stdin"; 1 := Other "stdout"; 2 := Other "stderr" ]}.

Lemma lines_delivered_witness :
  let p := write_all (mkSysEnv true true true) ["a"; "b"; "c"] (new_proc ex_opened) in
  delivered p = ["a"; "b"; "c"] /\ fdHandler p = 3 /\ socketHandler p = 3.
Proof.
  intros p. split; [|by vm_compute]. apply (lines_delivered (mkSysEnv true true true) ex_opened ["a"; "b"; "c"]); done.
Defined.

Lemma line_to_other_file_witness :
  let p1 := (WriteDatagram (mkSysEnv true true true) "secret" (new_proc ex_opened)).1 in
  let p2 := (sys_open (Other "document") (mkSysEnv true true true) (CloseFd p1)).1 in
  let '(p3, ret) := WriteDatagram (mkSysEnv true true true) "token" p2 in
  ret = 5 /\ delivered p3 = ["secret"] /\ elsewhere p3 = [("document", "token")].
Proof.
  exact (proj1 (line_to_other_file (mkSysEnv true true true) ex_opened "secret" "token" "document" eq_refl eq_refl eq_refl) ltac:(by vm_compute)).
Defined.
