(* ===== verification/CmdExecutor.v ===== *)
(** * Threads that serve the clients

    [CmdExecutor] (services/hilogd/cmd_executor.cpp) with the loop that accepts
    its connections (socket/seq_packet_socket_server.cpp): one thread per
    connection, which looks itself up in the list of clients, serves the client
    and enters itself in the list of those that have finished; the main thread
    joins these when no connection arrives for a while.  An event is the next
    step of one thread.  A section under a lock is one step, unless the thread
    waits or starts another one while it holds the lock: then [m_clientAccess]
    is held between steps.  That memory is to be had and that a thread can be
    started is assumed, as in the code. *)

From S2P Require Import Prelude.

Record ClientThread := mkClientThread { m_clientThread : Z; m_stopThread : bool }.

(** Where a thread is in [ClientEventLoop]. *)
Inductive place :=
| AtFind        (* about to take m_clientAccess and to look for its entry *)
| NotFound      (* returned: it has no entry *)
| AtServe       (* in CommunicationLoop, with a reference to its entry *)
| AtFinish      (* about to take m_finishedClientAccess *)
| AtReturn      (* entered in m_finishedClients *)
| AtEnd.        (* returned *)

#[export] Instance place_eq_dec : EqDecision place.
Proof. solve_decision. Defined.

(** Where the main thread is; ids of threads that it has yet to join. *)
Inductive main_place :=
| Polling                       (* in AcceptingLoop *)
| Adding (tid : Z)              (* in OnAcceptedConnection, the thread is started; holds m_clientAccess *)
| Joining (tids : list Z)       (* in CleanFinishedClients, after its locks *)
| Leaving                       (* MainLoop has returned *)
| Destroying (tids : list Z)    (* in the destructor; holds m_clientAccess *)
| Gone.

Record CmdExecutor := mkCmdExecutor {
  m_clients : list ClientThread;
  m_finishedClients : list Z;
  threads : gmap Z place;       (* those that are not joined, by their ids *)
  main : main_place;
}.

Definition new_executor : CmdExecutor := mkCmdExecutor [] [] ∅ Polling.

Definition set_main (s : CmdExecutor) (m : main_place) : CmdExecutor := mkCmdExecutor (m_clients s) (m_finishedClients s) (threads s) m.
Definition set_thread (s : CmdExecutor) (tid : Z) (t : place) : CmdExecutor :=
  mkCmdExecutor (m_clients s) (m_finishedClients s) (<[tid := t]> (threads s)) (main s).

Definition client_locked (s : CmdExecutor) : bool := match main s with Adding _ | Destroying _ => true | _ => false end.

(** What a step does: it can have to wait, or use an entry that is gone. *)
Inductive outcome := Blocked | Undefined | Next (s : CmdExecutor).

(** ** The main thread *)

Definition POLLIN : Z := 1.

Inductive pass := OnTimeout | OnAccepted (fd : Z) | OnBreak.

(** One pass of [AcceptingLoop], for the results of poll and accept. *)
Definition AcceptingLoop (pollResult outEvent acceptResult : Z) : pass :=
  if pollResult =? 0 then OnTimeout
  else if pollResult <? 0 then OnBreak
  else if negb (pollResult =? 1) || negb (outEvent =? POLLIN) then OnBreak
  else if 0 <? acceptResult then OnAccepted acceptResult
  else OnBreak.

(** An id that no thread has which is not joined yet. *)
Definition OnAcceptedConnection (tid : Z) (s : CmdExecutor) : outcome :=
  match threads s !! tid with
  | None => Next (set_main (set_thread s tid AtFind) (Adding tid))
  | Some _ => Blocked
  end.

Fixpoint erase_client (tid : Z) (clients : list ClientThread) : option (list ClientThread) :=
  match clients with
  | [] => None
  | c :: clients => if m_clientThread c =? tid then Some clients else cons c <$> erase_client tid clients
  end.

(** The loop over [m_finishedClients]: the clients that stay, the threads to join. *)
Fixpoint select_finished (finished : list Z) (clients : list ClientThread) : list ClientThread * list Z :=
  match finished with
  | [] => (clients, [])
  | tid :: finished =>
      match erase_client tid clients with
      | Some clients => let '(clients, tids) := select_finished finished clients in (clients, tid :: tids)
      | None => select_finished finished clients
      end
  end.

Definition CleanFinishedClients (s : CmdExecutor) : CmdExecutor :=
  let '(clients, tids) := select_finished (m_finishedClients s) (m_clients s) in
  mkCmdExecutor clients [] (threads s) (Joining tids).

Definition join (tid : Z) (s : CmdExecutor) (next : main_place) : outcome :=
  match threads s !! tid with
  | Some AtEnd | Some NotFound => Next (mkCmdExecutor (m_clients s) (m_finishedClients s) (delete tid (threads s)) next)
  | _ => Blocked
  end.

Definition main_step (s : CmdExecutor) : outcome :=
  match main s with
  | Polling | Gone => Blocked
  | Adding tid => Next (mkCmdExecutor (m_clients s ++ [mkClientThread tid false]) (m_finishedClients s) (threads s) Polling)
  | Joining [] => Next (set_main s Polling)
  | Joining (tid :: tids) => join tid s (Joining tids)
  | Leaving =>
      Next (mkCmdExecutor ((fun c => mkClientThread (m_clientThread c) true) <$> m_clients s) (m_finishedClients s) (threads s)
              (Destroying (m_clientThread <$> m_clients s)))
  | Destroying [] => Next (set_main s Gone)
  | Destroying (tid :: tids) => join tid s (Destroying tids)
  end.

(** [MainLoop] after Init: a pass of the loop. *)
Definition MainLoop (pollResult outEvent acceptResult tid : Z) (s : CmdExecutor) : outcome :=
  match main s with
  | Polling =>
      match AcceptingLoop pollResult outEvent acceptResult with
      | OnTimeout => Next (CleanFinishedClients s)
      | OnAccepted _ => OnAcceptedConnection tid s
      | OnBreak => Next (set_main s Leaving)
      end
  | _ => Blocked
  end.

(** ** A client's thread *)

Fixpoint store_stop (tid : Z) (clients : list ClientThread) : option (list ClientThread) :=
  match clients with
  | [] => None
  | c :: clients => if m_clientThread c =? tid then Some (mkClientThread tid true :: clients) else cons c <$> store_stop tid clients
  end.

Definition has_client (tid : Z) (clients : list ClientThread) : bool := bool_decide (tid ∈ m_clientThread <$> clients).

(** [handled]: CommunicationLoop has dispatched a request, and ends with the
    store to the flag of the entry; it returns early otherwise. *)
Definition ClientEventLoop (tid : Z) (handled : bool) (s : CmdExecutor) : outcome :=
  match threads s !! tid with
  | Some AtFind =>
      if client_locked s then Blocked
      else Next (set_thread s tid (if has_client tid (m_clients s) then AtServe else NotFound))
  | Some AtServe =>
      if handled then
        match store_stop tid (m_clients s) with
        | Some clients => Next (mkCmdExecutor clients (m_finishedClients s) (<[tid := AtFinish]> (threads s)) (main s))
        | None => Undefined
        end
      else Next (set_thread s tid AtFinish)
  | Some AtFinish => Next (mkCmdExecutor (m_clients s) (m_finishedClients s ++ [tid]) (<[tid := AtReturn]> (threads s)) (main s))
  | Some AtReturn => Next (set_thread s tid AtEnd)
  | _ => Blocked
  end.

(** ** Steps *)

Inductive event := Poll (pollResult outEvent acceptResult tid : Z) | Main | Client (tid : Z) (handled : bool).

Definition on_event (s : CmdExecutor) (e : event) : outcome :=
  match e with
  | Poll r o a tid => MainLoop r o a tid s
  | Main => main_step s
  | Client tid handled => ClientEventLoop tid handled s
  end.

Inductive step (s s' : CmdExecutor) : Prop := step_event e : on_event s e = Next s' -> step s s'.

Fixpoint run (s : CmdExecutor) (es : list event) : outcome :=
  match es with
  | [] => Next s
  | e :: es => match on_event s e with Next s' => run s' es | r => r end
  end.

Definition reachable (s : CmdExecutor) : Prop := rtc step new_executor s.
