(* ===== verification/CmdExecutorProps.v ===== *)
(** * Properties of the threads that serve the clients

    The invariant of [CmdExecutor] in every interleaving, the cleaning of the
    finished threads, and when the destructor returns. *)

From S2P Require Import Prelude CmdExecutor.

(** ** The invariant *)

Abbreviation ids := (fmap (M := list) m_clientThread).

(** Threads that the main thread has taken from the list to join. *)
Definition joining (s : CmdExecutor) : list Z := match main s with Joining ts => ts | _ => [] end.

(** The threads that are not joined, as the main thread knows them. *)
Definition owned (s : CmdExecutor) : list Z :=
  match main s with
  | Adding t => t :: ids (m_clients s)
  | Destroying ts => ts
  | Gone => []
  | _ => joining s ++ ids (m_clients s)
  end.

Definition after (p : place) : bool := match p with AtReturn | AtEnd => true | _ => false end.

Record exec_ok (s : CmdExecutor) : Prop := {
  eo_ids : NoDup (ids (m_clients s));
  eo_owned : NoDup (owned s);
  eo_threads : forall t, is_Some (threads s !! t) <-> t ∈ owned s;
  eo_finished : NoDup (m_finishedClients s) /\ m_finishedClients s ⊆ ids (m_clients s);
  eo_place : forall t p, threads s !! t = Some p -> p <> NotFound /\ (after p = true <-> t ∈ m_finishedClients s ++ joining s);
  eo_main : match main s with
            | Adding t => threads s !! t = Some AtFind
            | Destroying ts => ts ⊆ ids (m_clients s)
            | _ => True
            end;
}.

Lemma erase_client_spec t clients :
  NoDup (ids clients) -> t ∈ ids clients ->
  exists rest, erase_client t clients = Some rest /\ rest = filter (fun c => m_clientThread c <> t) clients /\ ids clients ≡ₚ t :: ids rest.
Proof.
  induction clients as [|c clients IH]; [by intros _ ?%elem_of_nil|]. cbn [fmap list_fmap erase_client]. intros [Hn Hnd]%NoDup_cons [->|Hin]%elem_of_cons.
  - rewrite Z.eqb_refl. exists clients. split; [done|]. split; [|done]. rewrite filter_cons_False by naive_solver. symmetry. apply list_filter_id.
    intros c' Hc' E. apply Hn. rewrite <- E. by apply list_elem_of_fmap_2.
  - destruct (Z.eqb_spec (m_clientThread c) t) as [E|Hne]; [by rewrite E in Hn|]. destruct (IH Hnd Hin) as (rest & -> & -> & Hp).
    eexists. split; [done|]. split; [by rewrite filter_cons_True|]. cbn. rewrite Hp. apply Permutation_swap.
Qed.

Lemma select_finished_spec finished clients :
  NoDup finished -> NoDup (ids clients) -> finished ⊆ ids clients ->
  exists rest, select_finished finished clients = (rest, finished) /\ rest = filter (fun c => m_clientThread c ∉ finished) clients /\
    ids clients ≡ₚ finished ++ ids rest.
Proof.
  revert clients. induction finished as [|t finished IH]; intros clients Hf Hc Hsub.
  { exists clients. split; [done|]. split; [|done]. symmetry. apply list_filter_id. intros c _. apply not_elem_of_nil. }
  apply NoDup_cons in Hf as [Hn Hf]. cbn [select_finished]. destruct (erase_client_spec t clients Hc) as (r1 & -> & E1 & Hp1); [apply Hsub; by left|].
  rewrite Hp1 in Hc. apply NoDup_cons in Hc as [Hn1 Hc].
  destruct (IH r1 Hf Hc) as (r2 & -> & E2 & Hp2).
  { intros x Hx. assert (x ∈ t :: ids r1) as [->|?]%elem_of_cons; [rewrite <- Hp1; apply Hsub; by right|done|done]. }
  exists r2. split; [done|]. split; [|cbn; by rewrite Hp1, Hp2]. rewrite E2, E1, list_filter_filter. apply list_filter_iff. intros c. rewrite not_elem_of_cons. naive_solver.
Qed.

Lemma store_stop_spec t clients :
  t ∈ ids clients -> exists clients', store_stop t clients = Some clients' /\ ids clients' = ids clients.
Proof.
  induction clients as [|c clients IH]; [by intros ?%elem_of_nil|]. cbn [fmap list_fmap store_stop]. intros Hin.
  destruct (Z.eqb_spec (m_clientThread c) t) as [->|Hne]; [by eexists|]. apply elem_of_cons in Hin as [?|Hin]; [done|].
  destruct (IH Hin) as (cs & -> & E). eexists. split; [done|]. cbn. by rewrite E.
Qed.

Lemma owned_client s t p : exec_ok s -> threads s !! t = Some p -> p <> AtFind \/ client_locked s = false -> after p = false -> t ∈ ids (m_clients s).
Proof.
  intros [_ _ Ht _ Hp Hm] E Hl Ha. assert (t ∈ owned s) as Ho by (apply Ht; by eexists). destruct (Hp t p E) as [_ Haft]. unfold owned, joining, client_locked in *.
  destruct (main s) as [|t'|ts| |ts|]; try done.
  - apply elem_of_cons in Ho as [->|Ho]; [|done]. destruct Hl as [Hl|Hl]; congruence.
  - apply elem_of_app in Ho as [Ho|Ho]; [|done]. destruct Haft as [_ Haft]. rewrite Haft in Ha; [done|]. apply elem_of_app. by right.
  - by apply Hm.
  - by apply elem_of_nil in Ho.
Qed.

(** A step of a client's thread that changes its place only. *)
Lemma set_thread_ok s t p p' :
  exec_ok s -> threads s !! t = Some p -> p' <> NotFound -> after p' = after p -> (p = AtFind -> client_locked s = false) -> exec_ok (set_thread s t p').
Proof.
  intros [H1 H2 Ht H3 Hp Hm] E Hn Ha Hl. split; cbn [m_clients m_finishedClients threads main set_thread]; try done.
  - intros x. fold (owned s). change (owned (set_thread s t p')) with (owned s). rewrite <- Ht. destruct (decide (t = x)) as [<-|Hne]; [|by rewrite lookup_insert_ne].
    rewrite lookup_insert_eq, E. split; by eexists.
  - intros x q. change (joining (set_thread s t p')) with (joining s). destruct (decide (t = x)) as [<-|Hne]; [|rewrite lookup_insert_ne by done; apply Hp].
    rewrite lookup_insert_eq. intros [= <-]. rewrite Ha. split; [done|]. by apply Hp.
  - unfold client_locked in Hl. destruct (main s) as [|t'|ts| |ts|]; try done. destruct (decide (t = t')) as [->|Hne]; [|by rewrite lookup_insert_ne].
    rewrite Hm in E. injection E as <-. by specialize (Hl eq_refl).
Qed.

Lemma clients_ok s clients : exec_ok s -> ids clients = ids (m_clients s) -> exec_ok (mkCmdExecutor clients (m_finishedClients s) (threads s) (main s)).
Proof.
  intros [H1 H2 Ht H3 Hp Hm] E. assert (owned (mkCmdExecutor clients (m_finishedClients s) (threads s) (main s)) = owned s) as Eo by (unfold owned, joining; cbn; by rewrite E).
  split; rewrite ?Eo; cbn [m_clients m_finishedClients threads main]; rewrite ?E; done.
Qed.

Lemma finish_ok s t :
  exec_ok s -> threads s !! t = Some AtFinish -> exec_ok (mkCmdExecutor (m_clients s) (m_finishedClients s ++ [t]) (<[t := AtReturn]> (threads s)) (main s)).
Proof.
  intros Hs E. assert (t ∈ ids (m_clients s)) as Hin by (by eapply owned_client; [done|exact E|left|]). destruct Hs as [H1 H2 Ht [H3 H4] Hp Hm].
  destruct (Hp t _ E) as [_ Haft]. assert (t ∉ m_finishedClients s ++ joining s) as Hno by (intros H; by apply Haft in H).
  split; cbn [m_clients m_finishedClients threads main]; try done.
  - intros x. change (owned _) with (owned s). rewrite <- Ht. destruct (decide (t = x)) as [<-|Hne]; [|by rewrite lookup_insert_ne]. rewrite lookup_insert_eq, E. split; by eexists.
  - split; [|set_solver]. apply NoDup_app. split; [done|]. split; [|apply NoDup_singleton]. intros x Hx ->%list_elem_of_singleton. apply Hno, elem_of_app. by left.
  - intros x q. change (joining _) with (joining s). destruct (decide (t = x)) as [<-|Hne].
    + rewrite lookup_insert_eq. intros [= <-]. split; [done|]. set_solver.
    + rewrite lookup_insert_ne by done. intros Hx. destruct (Hp x q Hx) as [? ->]. split; [done|]. set_solver.
  - destruct (main s) as [|t'|ts| |ts|]; try done. rewrite lookup_insert_ne; [done|]. intros ->. congruence.
Qed.

Lemma client_ok s t handled : exec_ok s -> match ClientEventLoop t handled s with Next s' => exec_ok s' | Undefined => False | Blocked => True end.
Proof.
  intros Hs. unfold ClientEventLoop. destruct (threads s !! t) as [[]|] eqn:E; try done.
  - destruct (client_locked s) eqn:El; [done|]. assert (t ∈ ids (m_clients s)) as Hin by (by eapply owned_client; [done|exact E|right|]).
    unfold has_client. rewrite bool_decide_true by done. by eapply set_thread_ok; [done|exact E|..].
  - assert (t ∈ ids (m_clients s)) as Hin by (by eapply owned_client; [done|exact E|left|]). destruct handled; [|by eapply set_thread_ok; [done|exact E|..]].
    destruct (store_stop_spec t _ Hin) as (cs & -> & Ec). apply (clients_ok s cs) in Hs; [|done].
    by apply (set_thread_ok (mkCmdExecutor cs (m_finishedClients s) (threads s) (main s)) t AtServe AtFinish).
  - by apply finish_ok.
  - by eapply set_thread_ok; [done|exact E|..].
Qed.

Lemma set_main_ok s m : exec_ok s -> joining s = [] -> owned (set_main s m) = owned s -> joining (set_main s m) = [] ->
  match m with Adding _ | Destroying _ => False | _ => True end -> exec_ok (set_main s m).
Proof.
  intros [H1 H2 Ht H3 Hp _] Hj Ho Hj' Hm. split; rewrite ?Ho; cbn [m_clients m_finishedClients threads main set_main]; try done.
  - intros t p E. rewrite Hj'. rewrite <- Hj. by apply Hp.
  - by destruct m.
Qed.

Lemma accepted_ok s t : exec_ok s -> main s = Polling -> threads s !! t = None -> exec_ok (set_main (set_thread s t AtFind) (Adding t)).
Proof.
  intros [H1 H2 Ht [H3 H4] Hp _] Em En. unfold owned, joining in *. rewrite Em in *. cbn [app] in *.
  assert (t ∉ ids (m_clients s)) as Hn by (intros Hin; apply Ht in Hin as [? ?]; congruence).
  split; unfold owned, joining; cbn [m_clients m_finishedClients threads main set_main set_thread app]; try done.
  - by constructor.
  - intros x. rewrite elem_of_cons, <- Ht. destruct (decide (t = x)) as [<-|Hne]; [rewrite lookup_insert_eq; naive_solver|]. rewrite lookup_insert_ne by done. naive_solver.
  - intros x p. rewrite app_nil_r in *. destruct (decide (t = x)) as [<-|Hne]; [|rewrite lookup_insert_ne by done; apply Hp].
    rewrite lookup_insert_eq. intros [= <-]. split; [done|]. split; [done|]. intros Hin. by apply H4 in Hin.
  - apply lookup_insert_eq.
Qed.

Lemma added_ok s t : exec_ok s -> main s = Adding t -> exec_ok (mkCmdExecutor (m_clients s ++ [mkClientThread t false]) (m_finishedClients s) (threads s) Polling).
Proof.
  intros [H1 H2 Ht [H3 H4] Hp _] Em. unfold owned, joining in *. rewrite Em in *.
  assert (ids (m_clients s ++ [mkClientThread t false]) ≡ₚ t :: ids (m_clients s)) as Hperm by (rewrite fmap_app; cbn; by rewrite Permutation_app_comm).
  split; unfold owned, joining; cbn [m_clients m_finishedClients threads main app]; try done.
  - by rewrite Hperm.
  - by rewrite Hperm.
  - intros x. rewrite Hperm. apply Ht.
  - split; [done|]. rewrite Hperm. set_solver.
Qed.

Lemma cleaned_ok s : exec_ok s -> main s = Polling -> exec_ok (CleanFinishedClients s).
Proof.
  intros [H1 H2 Ht [H3 H4] Hp _] Em. unfold CleanFinishedClients. destruct (select_finished_spec _ _ H3 H1 H4) as (rest & -> & _ & Hperm).
  unfold owned, joining in *. rewrite Em in *. cbn [app] in *. rewrite Hperm in H1.
  split; unfold owned, joining; cbn [m_clients m_finishedClients threads main app]; try done.
  - by apply NoDup_app in H1 as (_ & _ & ?).
  - intros x. by rewrite Ht, Hperm.
  - split; [constructor|set_solver].
  - intros x p E. rewrite app_nil_r in Hp. by apply Hp.
Qed.

(** [next] has one thread less to join. *)
Lemma join_ok s t ts next :
  exec_ok s -> owned s = t :: ts -> owned (set_main s next) = ts ->
  (joining s = t :: joining (set_main s next) \/ joining s = [] /\ joining (set_main s next) = []) ->
  match next with Adding _ => False | Destroying ts => ts ⊆ ids (m_clients s) | _ => True end ->
  match join t s next with Next s' => exec_ok s' | Undefined => False | Blocked => True end.
Proof.
  intros [H1 H2 Ht H3 Hp _] Eo En Ej Hm. unfold join. rewrite Eo in *. apply NoDup_cons in H2 as [Hn H2].
  assert (exec_ok (mkCmdExecutor (m_clients s) (m_finishedClients s) (delete t (threads s)) next)) as Hok.
  { assert (forall m, owned (mkCmdExecutor (m_clients s) (m_finishedClients s) m next) = ts) as Eo' by done.
    assert (forall m, joining (mkCmdExecutor (m_clients s) (m_finishedClients s) m next) = joining (set_main s next)) as Ej' by done.
    split; rewrite ?Eo', ?Ej'; cbn [m_clients m_finishedClients threads main]; try done; [|intros x p|by destruct next].
    - intros x. destruct (decide (t = x)) as [<-|Hne]; [rewrite lookup_delete_eq|rewrite lookup_delete_ne by done; rewrite Ht, elem_of_cons; naive_solver].
      split; [by intros [? ?]|done].
    - destruct (decide (t = x)) as [<-|Hne]; [by rewrite lookup_delete_eq|]. rewrite lookup_delete_ne by done. intros E. destruct (Hp x p E) as [? ->]. split; [done|].
      destruct Ej as [->|[-> ->]]; [|done]. rewrite !elem_of_app, elem_of_cons. naive_solver. }
  by destruct (threads s !! t) as [[]|].
Qed.

Lemma leaving_ok s clients :
  exec_ok s -> main s = Leaving -> ids clients = ids (m_clients s) ->
  exec_ok (mkCmdExecutor clients (m_finishedClients s) (threads s) (Destroying (ids (m_clients s)))).
Proof.
  intros [H1 H2 Ht H3 Hp _] Em E. unfold owned, joining in *. rewrite Em in *. split; unfold owned, joining; cbn [m_clients m_finishedClients threads main]; by rewrite ?E.
Qed.

Lemma main_step_ok s : exec_ok s -> match main_step s with Next s' => exec_ok s' | Undefined => False | Blocked => True end.
Proof.
  intros Hs. unfold main_step. destruct (main s) as [|t|[|t ts]| |[|t ts]|] eqn:Em; try done.
  - by apply added_ok.
  - apply set_main_ok; [done|unfold owned, joining; cbn; by rewrite ?Em..].
  - eapply (join_ok _ _ (ts ++ ids (m_clients s))); [done|unfold owned, joining; cbn; rewrite ?Em..|done]; [done..|by left].
  - apply leaving_ok; [done..|]. rewrite <- list_fmap_compose. by apply list_fmap_ext.
  - apply set_main_ok; [done|unfold owned, joining; cbn; by rewrite ?Em..].
  - eapply (join_ok _ _ ts); [done|unfold owned, joining; cbn; rewrite ?Em..|]; [done..|by right|].
    destruct Hs as [_ _ _ _ _ Hm]. rewrite Em in Hm. set_solver.
Qed.

Lemma event_ok s e : exec_ok s -> match on_event s e with Next s' => exec_ok s' | Undefined => False | Blocked => True end.
Proof.
  intros Hs. destruct e as [r o a t| |t handled]; cbn [on_event]; [|by apply main_step_ok|by apply client_ok].
  unfold MainLoop. destruct (main s) eqn:Em; try done. destruct (AcceptingLoop r o a); [by apply cleaned_ok| |].
  - unfold OnAcceptedConnection. destruct (threads s !! t) eqn:E; [done|]. by apply accepted_ok.
  - apply set_main_ok; [done|unfold owned, joining; cbn; by rewrite ?Em..].
Qed.

Lemma new_ok : exec_ok new_executor.
Proof.
  split; cbn; try done; [constructor..| |split; [constructor|done]]. intros t. rewrite lookup_empty. split; [by intros [? ?]|by intros ?%elem_of_nil].
Qed.

Lemma reachable_ok s : reachable s -> exec_ok s.
Proof.
  apply rtc_ind_r; [apply new_ok|]. intros x y _ [e He] Hx. pose proof (event_ok x e Hx) as H. by rewrite He in H.
Qed.

(** C25: in every interleaving of connections, clients and cleaning, a thread
    finds its entry in the list of clients, the entry is there as long as the
    thread uses it, and no thread has two; the threads that are not joined are
    those in the list and those that the main thread is about to add or to
    join, so that none is lost. *)
Theorem clients_safe s :
  reachable s ->
  (forall e, on_event s e <> Undefined) /\
  (forall t, threads s !! t <> Some NotFound) /\
  (forall t, threads s !! t = Some AtServe -> t ∈ ids (m_clients s)) /\
  NoDup (ids (m_clients s)) /\
  match main s with
  | Polling | Leaving => forall t, is_Some (threads s !! t) <-> t ∈ ids (m_clients s)
  | Adding t' => forall t, is_Some (threads s !! t) <-> t = t' \/ t ∈ ids (m_clients s)
  | Joining ts | Destroying ts => forall t, t ∈ ts -> is_Some (threads s !! t)
  | Gone => threads s = ∅
  end.
Proof.
  intros Hs%reachable_ok. split; [intros e He; pose proof (event_ok s e Hs) as H; by rewrite He in H|].
  split; [intros t E; by destruct (eo_place _ Hs _ _ E)|]. split; [intros t E; by eapply owned_client; [done|exact E|left|]|].
  destruct Hs as [H1 _ Ht _ _ _]. split; [done|]. unfold owned, joining in Ht. destruct (main s) as [|t'|ts| |ts|]; try done.
  - intros t. by rewrite Ht, elem_of_cons.
  - intros t Hin. apply Ht, elem_of_app. by left.
  - intros t Hin. by apply Ht.
  - apply map_empty. intros t. apply eq_None_not_Some. intros H. by apply Ht, elem_of_nil in H.
Qed.

(** ** Cleaning *)

Lemma run_app s es1 es2 s1 : run s es1 = Next s1 -> run s (es1 ++ es2) = run s1 es2.
Proof.
  revert s. induction es1 as [|e es1 IH]; intros s; cbn [run app]; [by intros [= ->]|]. destruct (on_event s e); [done|done|]. apply IH.
Qed.

Lemma run_reaches s es s' : run s es = Next s' -> rtc step s s'.
Proof.
  revert s. induction es as [|e es IH]; intros s; cbn [run]; [by intros [= ->]|]. destruct (on_event s e) as [| |s1] eqn:E; [done|done|].
  intros H. eapply rtc_l; [by econstructor|by apply IH].
Qed.

(** A thread that has found its entry can go on to its end. *)
Lemma drive s t p :
  threads s !! t = Some p -> p <> AtFind -> p <> NotFound ->
  exists es finished, run s es = Next (mkCmdExecutor (m_clients s) finished (<[t := AtEnd]> (threads s)) (main s)) /\
    (after p = true -> finished = m_finishedClients s) /\ Forall (fun e => e = Client t false) es.
Proof.
  intros E Hf Hn. destruct p; try done.
  - exists [Client t false; Client t false; Client t false], (m_finishedClients s ++ [t]). split; [|split; [done|by repeat constructor]].
    cbn. unfold ClientEventLoop at 1. rewrite E. cbn. unfold ClientEventLoop. cbn. rewrite !lookup_insert_eq. cbn. rewrite !lookup_insert_eq. unfold set_thread. cbn. by rewrite !insert_insert_eq.
  - exists [Client t false; Client t false], (m_finishedClients s ++ [t]). split; [|split; [done|by repeat constructor]].
    cbn. unfold ClientEventLoop at 1. rewrite E. cbn. unfold ClientEventLoop. cbn. rewrite !lookup_insert_eq. unfold set_thread. cbn. by rewrite !insert_insert_eq.
  - exists [Client t false], (m_finishedClients s). split; [|split; [done|by repeat constructor]]. cbn. unfold ClientEventLoop. by rewrite E.
  - exists [], (m_finishedClients s). split; [|split; [done|constructor]]. cbn. rewrite insert_id by done. by destruct s.
Qed.

(** The main thread joins the threads it has taken from the list. *)
Lemma joins s ts :
  main s = Joining ts -> NoDup ts -> (forall t, t ∈ ts -> exists p, threads s !! t = Some p /\ after p = true) ->
  exists es s', run s es = Next s' /\ main s' = Polling /\ m_clients s' = m_clients s /\ m_finishedClients s' = m_finishedClients s /\
    (forall t, threads s' !! t = if decide (t ∈ ts) then None else threads s !! t) /\
    Forall (fun e => e = Main \/ exists t, t ∈ ts /\ e = Client t false) es.
Proof.
  revert s. induction ts as [|t ts IH]; intros s Em Hnd Hp.
  { exists [Main], (set_main s Polling). cbn. unfold main_step. rewrite Em. do 4 (split; [done|]). split; [|by repeat constructor]. intros t. by rewrite decide_False by apply not_elem_of_nil. }
  apply NoDup_cons in Hnd as [Hn Hnd]. destruct (Hp t ltac:(by left)) as (p & E & Ha). destruct (drive s t p E) as (es1 & fin & Hr1 & Hfin & Hes1); [by intros ->|by intros ->|].
  rewrite (Hfin Ha) in Hr1. set (s1 := mkCmdExecutor (m_clients s) (m_finishedClients s) (delete t (threads s)) (Joining ts)).
  destruct (IH s1) as (es2 & s' & Hr2 & Hm & Hc & Hf & Ht & Hes2); [done|done| |].
  { intros x Hx. cbn. rewrite lookup_delete_ne by (intros ->; done). apply Hp. by right. }
  exists (es1 ++ Main :: es2), s'. split.
  { rewrite (run_app _ _ _ _ Hr1). cbn [run on_event]. unfold main_step, join. cbn [main threads]. rewrite Em, lookup_insert_eq. cbn [m_clients m_finishedClients]. by rewrite delete_insert_eq. }
  split; [done|]. split; [done|]. split; [done|]. split.
  - intros x. rewrite Ht. cbn [threads s1]. destruct (decide (x = t)) as [->|Hne]; [rewrite (decide_True (P := t ∈ t :: ts)) by (by left); rewrite lookup_delete_eq; by destruct (decide _)|].
    rewrite lookup_delete_ne by done. destruct (decide (x ∈ ts)), (decide (x ∈ t :: ts)); set_solver.
  - apply Forall_app. split; [eapply Forall_impl; [exact Hes1|]; intros e ->; right; exists t; split; [by left|done]|]. constructor; [by left|].
    eapply Forall_impl; [exact Hes2|]. intros e [->|(x & Hx & ->)]; [by left|]. right. exists x. split; [by right|done].
Qed.

(** C29: when no connection arrives for a while, the threads that have entered
    themselves as finished are joined and leave the list, whatever the others
    do: the steps of the main thread and of those threads suffice, and the
    clients that are served keep their entries. *)
Theorem finished_joined s o a t0 :
  reachable s -> main s = Polling ->
  exists es s', run s (Poll 0 o a t0 :: es) = Next s' /\ main s' = Polling /\ m_finishedClients s' = [] /\
    m_clients s' = filter (fun c => m_clientThread c ∉ m_finishedClients s) (m_clients s) /\
    (forall t, threads s' !! t = if decide (t ∈ m_finishedClients s) then None else threads s !! t) /\
    Forall (fun e => e = Main \/ exists t, t ∈ m_finishedClients s /\ e = Client t false) es.
Proof.
  intros Hs%reachable_ok Em. cbn [run on_event]. unfold MainLoop. rewrite Em. change (AcceptingLoop 0 o a) with OnTimeout. cbn iota.
  destruct Hs as [H1 _ Ht [H3 H4] Hp _]. unfold CleanFinishedClients. destruct (select_finished_spec _ _ H3 H1 H4) as (rest & -> & Er & _).
  destruct (joins (mkCmdExecutor rest [] (threads s) (Joining (m_finishedClients s))) (m_finishedClients s)) as (es & s' & Hr & Hm & Hc & Hf & Hth & Hes); [done|done| |].
  - intros t Hin. cbn. unfold owned, joining in Ht, Hp. rewrite Em in *. destruct (proj2 (Ht t)) as [p E]; [by apply H4|]. exists p. split; [done|]. apply (Hp t p E). by rewrite app_nil_r.
  - exists es, s'. cbn in Hc, Hf. by rewrite Hc, Hf, <- Er.
Qed.

(** ** The destructor *)

Lemma destroys s ts :
  main s = Destroying ts -> NoDup ts -> (forall t, t ∈ ts -> exists p, threads s !! t = Some p /\ p <> AtFind /\ p <> NotFound) ->
  exists s', rtc step s s' /\ main s' = Gone.
Proof.
  revert s. induction ts as [|t ts IH]; intros s Em Hnd Hp.
  { exists (set_main s Gone). split; [|done]. apply rtc_once. exists Main. cbn. unfold main_step. by rewrite Em. }
  apply NoDup_cons in Hnd as [Hn Hnd]. destruct (Hp t ltac:(by left)) as (p & E & Hf & Hnf). destruct (drive s t p E Hf Hnf) as (es & fin & Hr & _).
  destruct (IH (mkCmdExecutor (m_clients s) fin (delete t (threads s)) (Destroying ts))) as (s' & Hs' & Hm); [done|done| |].
  { intros x Hx. cbn. rewrite lookup_delete_ne by (intros ->; done). apply Hp. by right. }
  exists s'. split; [|done]. etrans; [exact (run_reaches _ _ _ Hr)|]. eapply rtc_l; [|exact Hs']. exists Main. cbn. unfold main_step, join. cbn. rewrite Em, lookup_insert_eq.
  by rewrite delete_insert_eq.
Qed.

(** A thread that waits for the lock which the destructor holds. *)
Definition waits (t : Z) (s : CmdExecutor) : Prop := exists ts, main s = Destroying ts /\ t ∈ ts /\ threads s !! t = Some AtFind.

Lemma waits_step t s s' : waits t s -> step s s' -> waits t s'.
Proof.
  intros (ts & Em & Hin & Ht) [e He]. destruct e as [r o a t'| |t' handled]; cbn [on_event] in He.
  - unfold MainLoop in He. by rewrite Em in He.
  - unfold main_step in He. rewrite Em in He. destruct ts as [|t1 ts]; [by apply elem_of_nil in Hin|]. unfold join in He.
    destruct (decide (t = t1)) as [<-|Hne]; [by rewrite Ht in He|]. apply elem_of_cons in Hin as [?|Hin]; [done|].
    destruct (threads s !! t1) as [[]|]; simplify_eq; exists ts; cbn; by rewrite lookup_delete_ne.
  - unfold ClientEventLoop in He. exists ts. destruct (decide (t = t')) as [<-|Hne].
    { rewrite Ht in He. unfold client_locked in He. by rewrite Em in He. }
    destruct (threads s !! t') as [[]|]; try done; repeat case_match; simplify_eq; cbn; by rewrite ?lookup_insert_ne.
Qed.

Lemma waits_forever t s s' : waits t s -> rtc step s s' -> main s' <> Gone.
Proof.
  intros Hw Hr. assert (waits t s') as (ts & -> & _); [|done]. revert Hw. induction Hr as [|x y z Hxy _ IH]; [done|]. intros Hw. apply IH. by eapply waits_step.
Qed.

(** C34: the destructor can return exactly if no client's thread is still about
    to look itself up when it takes the lock.  It joins the threads under the
    lock that such a thread waits for, so that neither goes on, whatever else
    happens; otherwise there are steps after which it has returned, those in
    which the clients it waits for come to their ends. *)
Theorem destructor_returns s ts :
  reachable s -> main s = Destroying ts ->
  ((exists s', rtc step s s' /\ main s' = Gone) <-> forall t, t ∈ ts -> threads s !! t <> Some AtFind).
Proof.
  intros Hs%reachable_ok Em. split.
  - intros (s' & Hr & Hm) t Hin Ht. eapply (waits_forever t s s'); [|done|done]. by exists ts.
  - intros Hno. destruct Hs as [_ Ho Ht _ Hp _]. unfold owned in *. rewrite Em in *. apply (destroys s ts); [done|done|].
    intros t Hin. destruct (proj2 (Ht t) Hin) as [p E]. exists p. split; [done|]. split; [intros ->; by apply (Hno t)|]. by apply (Hp t p E).
Qed.

(** ** Clients that come and go *)

Definition visit (t : Z) : list event := [Poll 1 POLLIN 5 t; Main; Client t false; Client t true; Client t false; Client t false].

Lemma visit_run s t :
  main s = Polling -> threads s !! t = None -> t ∉ ids (m_clients s) ->
  run s (visit t) = Next (mkCmdExecutor (m_clients s ++ [mkClientThread t true]) (m_finishedClients s ++ [t]) (<[t := AtEnd]> (threads s)) Polling).
Proof.
  intros Em Ht Hn. unfold visit. cbn [run on_event]. unfold MainLoop. rewrite Em. cbn. unfold OnAcceptedConnection. rewrite Ht. unfold main_step. cbn.
  unfold ClientEventLoop. cbn. rewrite lookup_insert_eq. unfold has_client. rewrite bool_decide_true by (rewrite fmap_app; set_solver). cbn. rewrite lookup_insert_eq.
  assert (forall l, t ∉ ids l -> store_stop t (l ++ [mkClientThread t false]) = Some (l ++ [mkClientThread t true])) as Hstore.
  { induction l as [|c l IH]; cbn; [by rewrite Z.eqb_refl|]. intros [H1 H2]%not_elem_of_cons. rewrite (proj2 (Z.eqb_neq _ _)) by congruence. by rewrite IH. }
  rewrite Hstore by done. cbn. rewrite lookup_insert_eq. cbn. rewrite lookup_insert_eq. unfold set_thread. cbn. by rewrite !insert_insert_eq.
Qed.

(** Threads that have ended stay, in any number, as long as connections arrive
    before the wait of the loop is over. *)
Lemma finished_pile_up (n : nat) :
  exists s, run new_executor (seqZ 1 (Z.of_nat n) ≫= visit) = Next s /\ length (m_clients s) = n /\ forall t, 1 <= t <= Z.of_nat n -> threads s !! t = Some AtEnd.
Proof.
  assert (exists s, run new_executor (seqZ 1 (Z.of_nat n) ≫= visit) = Next s /\ main s = Polling /\ ids (m_clients s) = seqZ 1 (Z.of_nat n) /\
    forall t, threads s !! t = if decide (1 <= t <= Z.of_nat n) then Some AtEnd else None) as (s & Hr & _ & Hc & Ht).
  { induction n as [|n (s & Hr & Hm & Hc & Ht)]; [exists new_executor; repeat split; intros t; by rewrite decide_False by lia|].
    replace (Z.of_nat (S n)) with (Z.of_nat n + 1) by lia. rewrite seqZ_app by lia. rewrite bind_app, (run_app _ _ _ _ Hr).
    set (t := 1 + Z.of_nat n). assert (seqZ t 1 = [t]) as Et by (rewrite seqZ_cons by lia; by rewrite seqZ_nil by lia). rewrite Et. cbn [mbind list_bind]. rewrite app_nil_r.
    rewrite visit_run; [|done|rewrite Ht; apply decide_False; lia|rewrite Hc, elem_of_seqZ; lia]. eexists. split; [done|]. split; [done|]. split.
    - cbn [m_clients]. by rewrite fmap_app, Hc.
    - intros x. cbn [threads]. destruct (decide (x = t)) as [->|Hne]; [rewrite lookup_insert_eq, decide_True; [done|lia]|].
      rewrite lookup_insert_ne, Ht by done. destruct (decide (1 <= x <= Z.of_nat n)), (decide (1 <= x <= Z.of_nat n + 1)); [done|lia|lia|done]. }
  exists s. split; [done|]. split; [by rewrite <- (length_fmap m_clientThread), Hc, length_seqZ, Nat2Z.id|]. intros t Hin. rewrite Ht. by apply decide_True.
Qed.

(** ** A run *)

(** Two clients; the first has finished, the second has just connected. *)
Definition ex_events : list event := visit 7 ++ [Poll 1 POLLIN 5 8; Main].
Definition ex_state : CmdExecutor := mkCmdExecutor [mkClientThread 7 true; mkClientThread 8 false] [7] (<[8 := AtFind]> {[7 := AtEnd]}) Polling.

Lemma ex_reachable : reachable ex_state.
Proof. apply (run_reaches _ ex_events). by vm_compute. Qed.

Definition ex_destroyed : CmdExecutor := mkCmdExecutor [mkClientThread 7 true; mkClientThread 8 true] [7] (<[8 := AtFind]> {[7 := AtEnd]}) (Destroying [7; 8]).

Lemma ex_destroyed_reachable : reachable ex_destroyed.
Proof. apply (run_reaches _ (ex_events ++ [Poll (-1) 0 0 0; Main])). by vm_compute. Qed.

Lemma clients_safe_witness : reachable ex_state /\ NoDup (ids (m_clients ex_state)) /\ (forall e, on_event ex_state e <> Undefined).
Proof.
  split; [exact ex_reachable|]. destruct (clients_safe ex_state ex_reachable) as (H1 & _ & _ & H2 & _). by split.
Defined.

Lemma finished_joined_witness :
  exists es s', run ex_state (Poll 0 0 0 0 :: es) = Next s' /\ main s' = Polling /\ m_clients s' = [mkClientThread 8 false] /\ threads s' !! 7 = None.
Proof.
  destruct (finished_joined ex_state 0 0 0 ex_reachable eq_refl) as (es & s' & H1 & H2 & _ & H3 & H4 & _). exists es, s'.
  split; [exact H1|]. split; [exact H2|]. split; [exact H3|]. exact (H4 7).
Defined.

Lemma destructor_returns_witness : reachable ex_destroyed /\ ~ (exists s', rtc step ex_destroyed s' /\ main s' = Gone).
Proof.
  split; [exact ex_destroyed_reachable|]. intros H. apply (proj1 (destructor_returns ex_destroyed [7; 8] ex_destroyed_reachable eq_refl) H 8); [|done].
  apply elem_of_cons. right. by left.
Defined.
