(* ===== verification/Hilogd.v ===== *)
(** * Start-up of the daemon

    The sockets that the daemon serves (socket/socket_server.cpp,
    hilog_input_socket_server.cpp) and the end of them that the tool opens
    (seq_packet_socket_client.cpp), the thread that receives lines, and
    [HilogdEntry] (services/hilogd/main.cpp), which builds the state of the
    daemon from the system parameters and starts its threads.  The answers of
    the system are arguments.  Compiled without DEBUG. *)

From S2P Require Import Prelude Common TimeStamp Utils LogStats LogData LogBuffer FlowControl LogCollector Properties.
From S2P Require Import Kmsg Compress Rotator Recovery Persister Cmd Controller CmdExecutor.

(** ** Sockets *)

Definition SOCKET_FILE_DIR : string := "/dev/unix/socket/".
Definition INPUT_SOCKET_NAME : string := "hilogInput".
Definition OUTPUT_SOCKET_NAME : string := "hilogOutput".
Definition CONTROL_SOCKET_NAME : string := "hilogControl".

(** What the system answers while a server is set up. *)
Record server_env := mkServerEnv {
  GetControlSocket : string -> Z;
  sv_socket : Z; sv_setsockopt : Z; sv_bind : Z; sv_listen : Z;
}.

Inductive syscall := Unlink (path : string) | SetPassCred | Bind (path : string).

(** [SocketServer::Init]: the handler, the result, and the calls that change something. *)
Definition Init (env : server_env) (socketName : string) : Z * Z * list syscall :=
  let sun_path := SOCKET_FILE_DIR +:+ socketName in
  let fd := GetControlSocket env socketName in
  if negb (bool_decide (socketName = "")) && (0 <=? fd) then (fd, fd, [])
  else
    let socketHandler := sv_socket env in
    if socketHandler <? 0 then (socketHandler, socketHandler, [])
    else
      let ret := sv_setsockopt env in
      if ret <? 0 then (socketHandler, ret, [Unlink sun_path; SetPassCred])
      else (socketHandler, sv_bind env, [Unlink sun_path; SetPassCred; Bind sun_path]).

(** [MainLoop] up to the first pass of its loop, with [StartAcceptingConnection]. *)
Definition start_executor (env : server_env) (socketName : string) : CmdExecutor :=
  if (Init env socketName).1.2 <? 0 then set_main new_executor Leaving
  else if sv_listen env <? 0 then set_main new_executor Leaving
  else new_executor.

Inductive SeqPacketSocketResult := CREATE_AND_CONNECTED | CREATE_SOCKET_FAILED | CONNECT_FAILED.

(** [Socket::Create], for the descriptor that socket returns. *)
Definition Create (fd socketHandler : Z) : Z * Z :=
  if negb (socketHandler =? 0) then (socketHandler, socketHandler)
  else if fd <? 0 then (socketHandler, fd)
  else (fd, fd).

(** [SeqPacketSocketClient::Init]. *)
Definition InitClient (fd connect socketHandler : Z) : Z * SeqPacketSocketResult :=
  let '(socketHandler, res) := Create fd socketHandler in
  if res <? 0 then (socketHandler, CREATE_SOCKET_FAILED)
  else if connect =? -1 then (socketHandler, CONNECT_FAILED)
  else (socketHandler, CREATE_AND_CONNECTED).

Definition GetSocketName (cmd : Z) : string := if cmd =? OUTPUT_RQST then OUTPUT_SOCKET_NAME else CONTROL_SOCKET_NAME.

(** ** The thread that receives lines *)

Inductive ServerThreadState := JUST_STARTED | ALREADY_STARTED | CAN_NOT_START.

Record HilogInputSocketServer := mkInputServer { m_serverThread : bool; m_stopServer : bool }.

(** A thread has an id as long as it is not joined. *)
Definition RunServingThread (s : HilogInputSocketServer) : HilogInputSocketServer * ServerThreadState :=
  if m_serverThread s then (s, ALREADY_STARTED) else (mkInputServer true false, JUST_STARTED).

(** The state, and whether the caller waits for the thread to end. *)
Definition StopServingThread (s : HilogInputSocketServer) : HilogInputSocketServer * bool :=
  if negb (m_serverThread s) then (s, false) else (mkInputServer false true, true).

(** What [RecvPacket] finds, and the flag as it is read afterwards. *)
Inductive receipt := Packet (pid : Z) (datagram : string) (stop : bool) | Failed.

(** The receive buffer, the collector, and whether the thread has ended. *)
Fixpoint ServingThread (maxsz : list Z) (quota : Z -> Z) (name : Z -> string) (receipts : list receipt) (data : string) (c : LogCollector)
    : option (string * LogCollector * bool) :=
  match receipts with
  | [] => Some (data, c, false)
  | Failed :: _ => Some (data, c, true)
  | Packet pid datagram stop :: receipts =>
      '(data, c) ← serve maxsz quota name data c pid datagram;
      if stop : bool then Some (data, c, true) else ServingThread maxsz quota name receipts data c
  end.

(** ** Writing a file *)

(** The results of write; what is written, and the result. [None]: it goes on. *)
Fixpoint write_string (writes : list Z) (content : string) : option (string * bool) :=
  if slen content =? 0 then Some ("", true)
  else
    match writes with
    | [] => None
    | n :: writes =>
        if n =? -1 then Some ("", false)
        else '(w, r) ← write_string writes (str_drop (Z.to_nat n) content); Some (str_take (Z.to_nat n) content +:+ w, r)
    end.

(** An attempt: whether the file may be written to, whether it can be opened,
    and whether the time is up. *)
Record attempt := mkAttempt { at_access : bool; at_open : bool; at_late : bool }.

Definition WriteStringToFile (attempts : list attempt) (last : attempt) (writes : list Z) (content : string) : option (string * bool) :=
  ret ← WaitingToDo ((fun a => (at_access a && at_open a, at_late a)) <$> attempts);
  if negb (ret =? RET_SUCCESS) then Some ("", false)
  else if negb (at_access last) then Some ("", false)
  else if negb (at_open last) then Some ("", false)
  else write_string writes content.

(** ** The daemon *)

Section boot.
Context {PS : ParamService} {ZL : Zlib} (char_signed : bool).

(** What the system contributes to the start. *)
Record boot := mkBoot {
  bt_env : penv;                                    (* the system parameters *)
  bt_clk : bool -> Z -> clocks;                     (* clocks, as each of the two buffers reads them *)
  bt_begin : bool -> LogTimeStamp * LogTimeStamp;   (* of the statistics of a buffer *)
  bt_input : server_env; bt_control : server_env; bt_output : server_env;
  bt_fs : filesystem;
}.

(** The constructor of [LogStats]. *)
Definition new_LogStats (s : sys) (now : LogTimeStamp * LogTimeStamp) : LogStats :=
  mkLogStats (replicate 6 ∅) ∅ now.1 now.2 zeros zeros (IsStatsEnable s) (IsTagStatsEnable s).

(** The parameters that [InitBuffLen] reads. *)
Definition size_params : list (Z * bool) := type ← [0; 1; 2; 3; 4; 5; LOG_TYPE_MAX]; [(type, false); (type, true)].

(** A buffer; [None]: [stoi] throws. *)
Definition create_buffer (bt : boot) (maxsz : list Z) (isSupportSkipLog : bool) : option (list Z * HilogBuffer) :=
  let s := pe_sys (bt_env bt) in
  if forallb (fun p => match GetBufferSize s p.1 p.2 with Some _ => true | None => false end) size_params then
    Some (new_HilogBuffer (fun type persist => default 0 (GetBufferSize s type persist)) (bt_clk bt isSupportSkipLog) maxsz
            (new_LogStats s (bt_begin bt isSupportSkipLog)) isSupportSkipLog)
  else None.

(** The constructor of [LogCollector]. *)
Definition new_LogCollector (e : penv) (buffer : HilogBuffer) : LogCollector :=
  let '(caches, flowControl) := IsDomainSwitchOn e new_caches in
  let '(_, debug) := IsPersistDebugOn e caches in
  mkLogCollector buffer ∅ (enable (stats buffer)) flowControl debug.

Definition controlCmdList : list Z :=
  [PERSIST_START_RQST; PERSIST_STOP_RQST; PERSIST_QUERY_RQST; PERSIST_REFRESH_RQST; PERSIST_CLEAR_RQST; BUFFERSIZE_GET_RQST;
   BUFFERSIZE_SET_RQST; STATS_QUERY_RQST; STATS_CLEAR_RQST; DOMAIN_FLOWCTRL_RQST; LOG_REMOVE_RQST; KMSG_ENABLE_RQST].
Definition outputList : list Z := [OUTPUT_RQST].

Record hilogd := mkHilogd {
  hd_daemon : Daemon;
  hd_input : HilogInputSocketServer;
  hd_control : CmdExecutor;
  hd_output : CmdExecutor;
}.

(** Up to the main loops of the executors; the tasks that it submits are below. *)
Definition HilogdEntry (bt : boot) : option hilogd :=
  '(maxsz, hilogBuffer) ← create_buffer bt g_maxBufferSizeByType true;
  let logCollector := new_LogCollector (bt_env bt) hilogBuffer in
  let incomingLogsServer := mkInputServer false false in
  let incomingLogsServer :=
    if (Init (bt_input bt) INPUT_SOCKET_NAME).1.2 <? 0 then incomingLogsServer else (RunServingThread incomingLogsServer).1 in
  '(maxsz, kmsgBuffer) ← create_buffer bt maxsz false;
  let kmsgStatus := if IsKmsgSwitchOn (pe_sys (bt_env bt)) then (Start NONEXIST).1 else NONEXIST in
  Some (mkHilogd (mkDaemon logCollector kmsgBuffer maxsz [] (bt_fs bt) kmsgStatus (pe_sys (bt_env bt))) incomingLogsServer
          (start_executor (bt_control bt) CONTROL_SOCKET_NAME) (start_executor (bt_output bt) OUTPUT_SOCKET_NAME)).

(** The commands that the daemon accepts on a socket. *)
Definition socket_cmds (socketName : string) : list Z :=
  if bool_decide (socketName = OUTPUT_SOCKET_NAME) then outputList
  else if bool_decide (socketName = CONTROL_SOCKET_NAME) then controlCmdList
  else [].

(** ** Tasks *)

(** One entry of the directory, with the reader that a job gets and what the
    system answers to its start. *)
Definition restore_job (d : Daemon) (entry : string * Z * init_env) : option Daemon :=
  let '(name, reader, ie) := entry in
  if negb (is_info_file name) then Some d
  else
    match file ← dm_fs d !! (HILOG_FILE_DIR +:+ name); read_info char_signed file with
    | None => Some d
    | Some info =>
        let isKmsg := IsKmsg (f_types (sm_filter (ri_msg info))) in
        let b := CreateBufReader (buffer_of d isKmsg) reader true in
        '(jobs, fs, ret) ← StartPersistStoreJob char_signed ie reader isKmsg info true (dm_jobs d) (dm_fs d);
        let b := if ret =? RET_SUCCESS then b else RemoveBufReader b reader in
        Some (with_buffer (with_jobs d jobs fs) isKmsg b)
    end.

Fixpoint RestorePersistJobs (entries : list (string * Z * init_env)) (d : Daemon) : option Daemon :=
  match entries with
  | [] => Some d
  | entry :: entries => d ← restore_job d entry; RestorePersistJobs entries d
  end.

(** The task hilogd.pst_res; [None]: it still waits, or an exception. [entries] is
    [None] when the directory cannot be opened. *)
Definition restore_task (dir : list (bool * bool)) (entries : option (list (string * Z * init_env))) (d : Daemon) : option Daemon :=
  ret ← WaitingToDo dir;
  if negb (ret =? RET_SUCCESS) then Some d
  else match entries with Some entries => RestorePersistJobs entries d | None => Some d end.
End boot.
