(* ===== verification/HilogdProps.v ===== *)
(** * Properties of the start-up of the daemon

    The state that [HilogdEntry] builds satisfies the invariants that the
    other files assume, and keeps them while jobs are restored; the sockets
    serve the requests that clients send to them; the receiving thread hands
    on what arrives. *)

From S2P Require Import Prelude Common TimeStamp Utils LogStats LogData LogBuffer LogBufferSpec FlowControl LogCollector Properties.
From S2P Require Import Kmsg LogPrint Compress Rotator Recovery Persister Cmd Controller ControllerProps Ioctl CmdExecutor Hilogd.

(** ** Waiting *)

(** The attempts of [WaitingToDo] for [max] milliseconds: whether each
    succeeds, and the time since the start after its pause, in nanoseconds. *)
Definition timed (max : Z) (attempts : list (bool * Z)) : list (bool * bool) := (fun a => (a.1, max * 1000000 <? a.2)) <$> attempts.

(** Every attempt is followed by a pause of ten milliseconds. *)
Fixpoint paused (from : Z) (attempts : list (bool * Z)) : Prop :=
  match attempts with
  | [] => True
  | a :: attempts => from + 10000000 <= a.2 /\ paused a.2 attempts
  end.

(** Waiting for a path ends, after as many attempts as there are pauses of
    ten milliseconds in the time given, and one more; it succeeds exactly if an
    attempt does before the time is up. *)
Theorem waiting_ends max attempts :
  0 <= max -> paused 0 attempts -> max / 10 + 1 <= Z.of_nat (length attempts) ->
  exists k a, attempts !! k = Some a /\ Z.of_nat k <= max / 10 /\
    (forall i b, (i < k)%nat -> attempts !! i = Some b -> b.1 = false /\ b.2 <= max * 1000000) /\
    WaitingToDo (timed max attempts) = Some (if a.1 : bool then RET_SUCCESS else RET_FAIL) /\ (a.1 = false -> max * 1000000 < a.2).
Proof.
  intros Hmax Hp Hlen.
  assert (forall attempts from, paused from attempts -> from <= max * 1000000 -> max * 1000000 < from + 10000000 * Z.of_nat (length attempts) ->
    exists k a, attempts !! k = Some a /\ from + 10000000 * Z.of_nat k <= max * 1000000 /\
      (forall i b, (i < k)%nat -> attempts !! i = Some b -> b.1 = false /\ b.2 <= max * 1000000) /\
      WaitingToDo (timed max attempts) = Some (if a.1 : bool then RET_SUCCESS else RET_FAIL) /\ (a.1 = false -> max * 1000000 < a.2)) as H.
  { clear. induction attempts as [|[ok t] attempts IH]; intros from Hp Hf Hl; [cbn in Hl; lia|]. destruct Hp as [Ht Hp]. cbn [snd length] in *. cbn.
    destruct ok; [exists 0%nat, (true, t); cbn; repeat split; lia || done|].
    destruct (Z.ltb_spec (max * 1000000) t) as [Hlt|Hge]; [exists 0%nat, (false, t); cbn; repeat split; lia || done|].
    destruct (IH t Hp Hge ltac:(lia)) as (k & a & Hk & Hkt & Hall & Hw & Ha). exists (S k), a. split; [done|]. split; [lia|]. split; [|done].
    intros [|i] b Hi; [by intros [= <-]|]. apply Hall. lia. }
  destruct (H attempts 0 Hp) as (k & a & Hk & Hkt & Hall & Hw & Ha); [lia|pose proof (Z.div_mod max 10 ltac:(lia)); pose proof (Z.mod_pos_bound max 10 ltac:(lia)); lia|].
  exists k, a. split; [done|]. split; [apply Z.div_le_lower_bound; lia|]. done.
Qed.

(** ** Writing *)

Lemma write_string_prefix writes content w r :
  Forall (fun n => n = -1 \/ 0 <= n) writes -> write_string writes content = Some (w, r) ->
  (r = true -> w = content) /\ exists rest, content = w +:+ rest.
Proof.
  revert content w r. induction writes as [|n writes IH]; intros content w r Hw; cbn [write_string].
  { destruct (Z.eqb_spec (slen content) 0) as [E|]; [|done]. intros [= <- <-]. rewrite (slen_zero _ E). split; [done|]. by exists "". }
  apply Forall_cons in Hw as [Hn Hw]. destruct (Z.eqb_spec (slen content) 0) as [E|].
  { intros [= <- <-]. rewrite (slen_zero _ E). split; [done|]. by exists "". }
  destruct (Z.eqb_spec n (-1)) as [->|Hne]; [intros [= <- <-]; split; [done|by exists content]|].
  destruct (write_string writes (str_drop (Z.to_nat n) content)) as [[w1 r1]|] eqn:E; [|done]. intros [= <- <-]. destruct (IH _ _ _ Hw E) as [H1 [rest H2]]. split.
  - intros Hr. rewrite (H1 Hr). apply str_take_drop.
  - exists rest. rewrite <- (str_take_drop (Z.to_nat n) content) at 1. rewrite H2. apply str_app_assoc.
Qed.

(** ** The receiving thread *)

Definition packets (ps : list (Z * string)) : list receipt := (fun p => Packet p.1 p.2 false) <$> ps.

Lemma ServingThread_packets maxsz quota name ps rest data c :
  ServingThread maxsz quota name (packets ps ++ rest) data c =
  '(data, c) ← serve_all maxsz quota name data c ps; ServingThread maxsz quota name rest data c.
Proof.
  revert data c. induction ps as [|[pid dg] ps IH]; intros data c; [done|]. cbn [packets fmap list_fmap app ServingThread serve_all fst snd].
  destruct (serve maxsz quota name data c pid dg) as [[data1 c1]|]; [|done]. cbn [mbind option_bind]. apply IH.
Qed.

(** The receiving thread hands the datagrams to the collector one by one, in
    the order they arrive.  A request to stop takes effect with the next
    datagram, which is still handed on: until one arrives the thread goes on
    waiting, and with it the caller of StopServingThread. *)
Theorem serving_thread_stops maxsz quota name ps pid datagram rest data c :
  let server := (RunServingThread (mkInputServer false false)).1 in
  StopServingThread server = (mkInputServer false true, true) /\
  ServingThread maxsz quota name (packets ps) data c = ('(data, c) ← serve_all maxsz quota name data c ps; Some (data, c, false)) /\
  ServingThread maxsz quota name (packets ps ++ Packet pid datagram true :: rest) data c =
    ('(data, c) ← serve_all maxsz quota name data c (ps ++ [(pid, datagram)]); Some (data, c, true)) /\
  ServingThread maxsz quota name (packets ps ++ Failed :: rest) data c = ('(data, c) ← serve_all maxsz quota name data c ps; Some (data, c, true)).
Proof.
  split; [done|]. split; [by rewrite <- (app_nil_r (packets ps)), ServingThread_packets|]. split; [|by rewrite ServingThread_packets].
  rewrite ServingThread_packets. revert data c. induction ps as [|[p1 dg] ps IH]; intros data c; cbn [serve_all app mbind option_bind].
  - cbn [ServingThread]. by destruct (serve maxsz quota name data c pid datagram) as [[? ?]|].
  - destruct (serve maxsz quota name data c p1 dg) as [[data1 c1]|]; [|done]. cbn [mbind option_bind]. apply IH.
Qed.

(** ** The state of the daemon *)

Section start.
Context {PS : ParamService} {PL : ParamLaws PS} {ZL : Zlib} (char_signed : bool).

Record daemon_ok (d : Daemon) : Prop := {
  do_limits : limits_ok (dm_maxsz d);
  do_collector : coll_ok (dm_collector d);
  do_kmsg : buf_ok (dm_kmsgBuffer d);
  do_jobs : jobs_ok (dm_jobs d);
}.

Lemma g_max_ok : limits_ok g_maxBufferSizeByType.
Proof. split; [done|]. intros t Ht. unfold LOG_TYPE_MAX in Ht. assert (t = 0 \/ t = 1 \/ t = 2 \/ t = 3 \/ t = 4 \/ t = 5) as Hc by lia. by destruct_or! Hc; subst t; vm_compute. Qed.

Lemma Insert_stats maxsz b msg full : stats (Insert maxsz b msg full).1.1.1 = stats b.
Proof. unfold Insert. destruct (insert_invalid msg); [done|]. repeat case_match; by simplify_eq. Qed.

Lemma InitBuffHead_stats clk maxsz b : stats (InitBuffHead clk maxsz b) = stats b.
Proof.
  unfold InitBuffHead. generalize [0; 1; 2; 3; 4; 5]. intros l. revert b. induction l as [|i l IH]; intros b; [done|]. cbn [foldl]. rewrite IH.
  destruct (bool_decide _); [done|]. destruct (GenerateHilogMsgInside _ _ _) as [msg|]; [|done].
  rewrite <- (Insert_stats maxsz b msg false). by destruct (Insert maxsz b msg false) as [[[? ?] ?] ?].
Qed.

Lemma create_buffer_ok bt maxsz sk :
  limits_ok maxsz ->
  match create_buffer bt maxsz sk with
  | Some (maxsz', b) => limits_ok maxsz' /\ buf_ok b /\ stats b = new_LogStats (pe_sys (bt_env bt)) (bt_begin bt sk)
  | None => exists p, p ∈ size_params /\ GetBufferSize (pe_sys (bt_env bt)) p.1 p.2 = None
  end.
Proof.
  intros Hl. unfold create_buffer. destruct (forallb _ size_params) eqn:E.
  - unfold new_HilogBuffer. cbv zeta. split; [by apply InitBuffLen_ok|]. rewrite InitBuffHead_stats. split; [|done]. apply InitBuffHead_ok; [by apply InitBuffLen_ok | apply empty_ok].
  - assert (exists p, p ∈ size_params /\ match GetBufferSize (pe_sys (bt_env bt)) p.1 p.2 with Some _ => true | None => false end = false) as (p & Hp & Hn).
    { revert E. generalize size_params. induction l as [|p l IH]; [done|]. cbn [forallb]. destruct (match GetBufferSize _ _ _ with Some _ => true | None => false end) eqn:Ep.
      - intros (q & Hq & Hn)%IH. exists q. split; [by right|done].
      - intros _. exists p. split; [by left|done]. }
    exists p. split; [done|]. by destruct (GetBufferSize _ _ _).
Qed.

Lemma new_stats_wf s now : stats_wf (new_LogStats s now).
Proof. exact (Reset_wf now.1 now.2 (mkLogStats [] ∅ now.1 now.2 [] [] (IsStatsEnable s) (IsTagStatsEnable s))). Qed.

Lemma new_LogCollector_flags e b :
  short_values (pe_sys e) ->
  new_LogCollector e b = mkLogCollector b ∅ (enable (stats b)) (the_switch PROP_DOMAIN_FLOWCTRL false (pe_sys e)) (the_switch PROP_PERSIST_DEBUG false (pe_sys e)).
Proof.
  intros Hs. unfold new_LogCollector. pose proof (IsDomainSwitchOn_ok e new_caches Hs (new_caches_ok _)) as H. destruct (IsDomainSwitchOn e new_caches) as [c1 v1].
  destruct H as (-> & Hc & _). pose proof (IsPersistDebugOn_ok e c1 Hs Hc) as H. destruct (IsPersistDebugOn e c1) as [c2 v2]. by destruct H as (-> & _).
Qed.

Lemma with_buffer_ok d k b jobs fs :
  daemon_ok d -> buf_ok b -> stats b = stats (buffer_of d k) -> jobs_ok jobs -> daemon_ok (with_buffer (with_jobs d jobs fs) k b).
Proof. intros [H1 [H2 H2'] H3 H4] Hb Hst Hj. destruct k; split; cbn in *; try done. split; cbn; [done|]. by rewrite Hst. Qed.

Lemma restore_job_ok d entry d' : daemon_ok d -> restore_job char_signed d entry = Some d' -> daemon_ok d'.
Proof.
  intros Hd. destruct entry as [[name reader] ie]. unfold restore_job. destruct (negb (is_info_file name)); [by intros [= <-]|].
  destruct (_ ≫= _) as [info|]; [|by intros [= <-]]. set (k := IsKmsg _). set (b := CreateBufReader (buffer_of d k) reader true).
  destruct (StartPersistStoreJob _ _ _ _ _ _ _ _) as [[[jobs fs] ret]|] eqn:E; [|done]. cbn [mbind option_bind]. intros [= <-].
  assert (buf_ok (buffer_of d k)) as Hb by (destruct Hd as [_ [? _] ? _]; by destruct k).
  apply StartPersistStoreJob_ok in E as [Hj _]; [|by destruct Hd]. assert (stats b = stats (buffer_of d k)) as Hst by (subst b; unfold CreateBufReader; by destruct (m_logReaders _ !! _)).
  apply with_buffer_ok; [done| | |done]; destruct (ret =? RET_SUCCESS); try done; [by apply CreateBufReader_ok | by apply RemoveBufReader_ok, CreateBufReader_ok].
Qed.

(** The switches of the daemon. *)
Definition same_switches (d d' : Daemon) : Prop :=
  countEnable (dm_collector d') = countEnable (dm_collector d) /\ flowControl (dm_collector d') = flowControl (dm_collector d) /\
  debug (dm_collector d') = debug (dm_collector d) /\ dm_kmsgStatus d' = dm_kmsgStatus d /\ dm_maxsz d' = dm_maxsz d.

Lemma restore_job_switches d entry d' : restore_job char_signed d entry = Some d' -> same_switches d d'.
Proof.
  destruct entry as [[name reader] ie]. unfold restore_job. destruct (negb (is_info_file name)); [by intros [= <-]|].
  destruct (_ ≫= _) as [info|]; [|by intros [= <-]]. destruct (StartPersistStoreJob _ _ _ _ _ _ _ _) as [[[jobs fs] ret]|]; [|done].
  cbn [mbind option_bind]. intros [= <-]. by destruct (IsKmsg _).
Qed.

Lemma restore_switches dir entries d d' : restore_task char_signed dir entries d = Some d' -> same_switches d d'.
Proof.
  unfold restore_task. destruct (WaitingToDo dir) as [ret|]; [|done]. cbn [mbind option_bind]. destruct (negb _); [by intros [= <-]|].
  destruct entries as [entries|]; [|by intros [= <-]]. revert d. induction entries as [|e entries IH]; intros d; cbn [RestorePersistJobs]; [by intros [= <-]|].
  destruct (restore_job char_signed d e) as [d1|] eqn:E; [|done]. cbn [mbind option_bind]. apply restore_job_switches in E as (E1 & E2 & E3 & E4 & E5).
  intros (F1 & F2 & F3 & F4 & F5)%IH. unfold same_switches. by rewrite F1, F2, F3, F4, F5.
Qed.

(** A size that [stoi] cannot read. *)
Lemma GetBufferSize_throws s t persist :
  GetBufferSize s t persist = None ->
  exists v, PropertyGet s (GetBufferSizePropName t persist) HILOG_PROP_VALUE_MAX = Some v /\ stoi (cstr v) = None.
Proof.
  unfold GetBufferSize. destruct (_ || _); [done|]. intros H%fmap_None. unfold number_value in H. destruct (PropertyGet _ _ _) as [v|]; [|done].
  destruct (bool_decide _); [done|]. by exists v.
Qed.

Lemma restore_ok dir entries d d' : daemon_ok d -> restore_task char_signed dir entries d = Some d' -> daemon_ok d'.
Proof.
  intros Hd. unfold restore_task. destruct (WaitingToDo dir) as [ret|]; [|done]. cbn [mbind option_bind]. destruct (negb _); [by intros [= <-]|].
  destruct entries as [entries|]; [|by intros [= <-]]. revert d Hd. induction entries as [|e entries IH]; intros d Hd; cbn [RestorePersistJobs]; [by intros [= <-]|].
  destruct (restore_job char_signed d e) as [d1|] eqn:E; [|done]. cbn [mbind option_bind]. apply IH. by eapply restore_job_ok.
Qed.

(** C26: the daemon starts with consistent buffers and statistics, limits in
    range, and the switches of its collector as the system parameters say; it
    receives lines if it has the socket for them.  The restoring of persist
    jobs, when it comes to its end, keeps the consistency and the switches.
    The only parameters it does not survive are sizes of buffers that [stoi]
    throws for: those that do not start with a number, and those whose number
    is no [int]. *)
Theorem daemon_starts bt :
  let s := pe_sys (bt_env bt) in
  short_values s ->
  match HilogdEntry bt with
  | Some h =>
      let d := hd_daemon h in
      daemon_ok d /\ dm_jobs d = [] /\ countEnable (dm_collector d) = IsStatsEnable s /\
      flowControl (dm_collector d) = the_switch PROP_DOMAIN_FLOWCTRL false s /\ debug (dm_collector d) = the_switch PROP_PERSIST_DEBUG false s /\
      dm_kmsgStatus d = (if IsKmsgSwitchOn s then START else NONEXIST) /\
      m_serverThread (hd_input h) = (0 <=? (Init (bt_input bt) INPUT_SOCKET_NAME).1.2) /\
      forall dir entries d', restore_task char_signed dir entries d = Some d' -> daemon_ok d' /\ same_switches d d'
  | None => exists p v, p ∈ size_params /\ PropertyGet s (GetBufferSizePropName p.1 p.2) HILOG_PROP_VALUE_MAX = Some v /\ stoi (cstr v) = None
  end.
Proof.
  intros s Hs. unfold HilogdEntry.
  assert ((exists p, p ∈ size_params /\ GetBufferSize s p.1 p.2 = None) ->
    exists p v, p ∈ size_params /\ PropertyGet s (GetBufferSizePropName p.1 p.2) HILOG_PROP_VALUE_MAX = Some v /\ stoi (cstr v) = None) as Hthrow.
  { intros (p & Hp & (v & Hv & Hn)%GetBufferSize_throws). by exists p, v. }
  pose proof (create_buffer_ok bt g_maxBufferSizeByType true g_max_ok) as H1. destruct (create_buffer bt g_maxBufferSizeByType true) as [[m1 b1]|]; [|by apply Hthrow].
  destruct H1 as (Hm1 & Hb1 & Hs1). cbn [mbind option_bind]. pose proof (create_buffer_ok bt m1 false Hm1) as H2. destruct (create_buffer bt m1 false) as [[m2 b2]|]; [|by apply Hthrow].
  destruct H2 as (Hm2 & Hb2 & Hs2). cbn [mbind option_bind]. rewrite new_LogCollector_flags by done. cbv zeta. cbn [hd_daemon hd_input dm_jobs dm_collector dm_kmsgStatus countEnable flowControl debug].
  match goal with |- daemon_ok ?d /\ _ => assert (daemon_ok d) as Hd end.
  { split; cbn [dm_maxsz dm_collector dm_kmsgBuffer dm_jobs]; [done| |done|by split; [constructor|split; constructor]]. split; cbn [m_hilogBuffer]; [done|]. rewrite Hs1. apply new_stats_wf. }
  split; [exact Hd|]. split; [done|]. split; [by rewrite Hs1|]. split; [done|]. split; [done|]. split; [by destruct (IsKmsgSwitchOn _)|].
  split; [|intros dir entries d' Hr; split; [by eapply restore_ok | by eapply restore_switches]].
  destruct (Z.ltb_spec (Init (bt_input bt) INPUT_SOCKET_NAME).1.2 0), (Z.leb_spec 0 (Init (bt_input bt) INPUT_SOCKET_NAME).1.2); done || lia.
Qed.
End start.

(** ** The requests of a socket *)

Section sockets.
Context {PS : ParamService} {ZL : Zlib}.
Context (localtime_r : Z -> option tm) (char_signed : bool) (regex_search : string -> string -> option bool).
Context (allTypes : list Z) (ptr_size : nat) (cn : conn) (d : Daemon).
Abbreviation loop name := (CommunicationLoop localtime_r char_signed regex_search allTypes ptr_size (socket_cmds name) cn).

Lemma own_socket q : rq_cmd q ∈ socket_cmds (GetSocketName (rq_cmd q)).
Proof. apply (bool_decide_unpack _). by destruct q. Qed.

Lemma other_socket q name : name <> GetSocketName (rq_cmd q) -> rq_cmd q ∉ socket_cmds name.
Proof.
  intros Hn. unfold socket_cmds. destruct (bool_decide_reflect (name = OUTPUT_SOCKET_NAME)) as [->|H1].
  { destruct q; first [by destruct Hn | apply (bool_decide_unpack _); by vm_compute]. }
  destruct (bool_decide_reflect (name = CONTROL_SOCKET_NAME)) as [->|H2]; [|apply not_elem_of_nil].
  destruct q; first [by destruct Hn | apply (bool_decide_unpack _); by vm_compute].
Qed.

(** C17: a request that a client sends to the socket which it opens for it is
    handled by the daemon; the same request is turned down, without any effect,
    on any other socket of the daemon, so that a client which may only read
    lines cannot administer it. *)
Theorem requests_on_sockets q rest name :
  rq_wf q ->
  loop (GetSocketName (rq_cmd q)) (rq_packets q ++ rest) d =
    rq_handle localtime_r char_signed regex_search allTypes ptr_size cn d q /\
  (name <> GetSocketName (rq_cmd q) -> loop name (rq_packets q ++ rest) d = Some (d, [WriteErrorRsp ERR_INVALID_RQST_CMD], true)).
Proof.
  intros Hwf. split; [apply loop_request; [done|apply own_socket]|]. intros Hn%other_socket. unfold CommunicationLoop, rq_packets. cbn [app].
  pose proof (rq_size_range q). pose proof (rq_cmd_range q). rewrite GetMsgHeader_enc by (apply MsgHeader_wf; unfold MSG_VER; lia). cbn [hdr_cmd].
  unfold IsValidCmd. by rewrite bool_decide_false.
Qed.
End sockets.

(** ** Examples *)

Definition ex_server : server_env := mkServerEnv (fun _ => 5) 6 0 0 0.
Definition ex_boot : boot :=
  mkBoot (mkPenv (ex_sys : @sys hist_service) (fun _ => true) (fun _ => None)) (fun _ _ => LogBufferProps.ex_clocks) (fun _ => (mkTS 1 0, mkTS 1 0)) ex_server ex_server ex_server ∅.

Lemma ex_boot_short : short_values (pe_sys (bt_env ex_boot)).
Proof. intros k v H. by vm_compute in H. Qed.

Lemma waiting_ends_witness :
  WaitingToDo (timed 25 [(false, 10000000); (false, 21000000); (true, 32000000)]) = Some RET_SUCCESS.
Proof.
  destruct (waiting_ends 25 [(false, 10000000); (false, 21000000); (true, 32000000)]) as (k & a & Hk & _ & _ & Hw & Hlate); [done|by repeat split|done|].
  rewrite Hw. destruct k as [|[|[|k]]]; simplify_eq/=; try done; by specialize (Hlate eq_refl).
Defined.

Lemma ex_boot_starts : match HilogdEntry ex_boot with Some _ => true | None => false end = true.
Proof. by vm_compute. Qed.

Lemma daemon_starts_witness :
  match HilogdEntry ex_boot with Some h => daemon_ok (hd_daemon h) | None => False end.
Proof.
  generalize (@daemon_starts hist_service hist_laws stored_zlib true ex_boot ex_boot_short), ex_boot_starts. cbv zeta.
  generalize (HilogdEntry ex_boot). intros [h|] H E; [exact (proj1 H)|discriminate E].
Defined.

Lemma requests_on_sockets_witness :
  CommunicationLoop ex_localtime false LogBufferProps.ex_regex ex_types 8 (socket_cmds OUTPUT_SOCKET_NAME) (ex_conn APP_UID) (rq_packets (RqPersistStop 5)) ex_daemon =
    Some (ex_daemon, [WriteErrorRsp ERR_INVALID_RQST_CMD], true).
Proof.
  assert (rq_wf (RqPersistStop 5)) as Hwf by (by vm_compute).
  apply (proj2 (requests_on_sockets ex_localtime false LogBufferProps.ex_regex ex_types 8 (ex_conn APP_UID) ex_daemon (RqPersistStop 5) [] OUTPUT_SOCKET_NAME Hwf)). done.
Defined.
