(* ===== verification/Display.v ===== *)
(** * The statistics report of the tool

    services/hilogtool/log_display.cpp: the overall numbers, the table of the
    domains and the table of the processes, written to a stream whose fill
    character, alignment and number format stay as they are set.  [None] is the
    text of a time that localtime_r cannot convert, for which the code makes a
    string of a null pointer. *)

From stdpp Require Import sorting.
From S2P Require Import Prelude Common TimeStamp Utils LogStats LogPrint Cmd StatsWire FloatText.
From Stdlib Require Import Ascii SpecFloat.

(** ** The stream *)

Record ostream := mkStream {
  os_text : string; os_width : Z; os_fill : ascii; os_left : bool; os_fixed : bool; os_precision : nat; os_hex : bool;
}.
Definition new_stream : ostream := mkStream "" 0 " " false false 6 false.

Inductive manip :=
| Setw (w : Z) | Setfill (c : ascii) | Left | Fixed | Setprecision (p : nat) | Hex | Dec
| Str (s : string) | Num (z : Z) | Float (f : spec_float).

Definition padded (o : ostream) (s : string) : string :=
  let pad := fill (Z.to_nat (os_width o - slen s)) (os_fill o) in
  if os_left o then s +:+ pad else pad +:+ s.

(** What is inserted takes the width, which is then zero again. *)
Definition insert_text (o : ostream) (s : string) : ostream :=
  mkStream (os_text o +:+ padded o s) 0 (os_fill o) (os_left o) (os_fixed o) (os_precision o) (os_hex o).

(** The code prints floats with a precision of two. *)
Definition put (o : ostream) (m : manip) : ostream :=
  match m with
  | Setw w => mkStream (os_text o) w (os_fill o) (os_left o) (os_fixed o) (os_precision o) (os_hex o)
  | Setfill c => mkStream (os_text o) (os_width o) c (os_left o) (os_fixed o) (os_precision o) (os_hex o)
  | Left => mkStream (os_text o) (os_width o) (os_fill o) true (os_fixed o) (os_precision o) (os_hex o)
  | Fixed => mkStream (os_text o) (os_width o) (os_fill o) (os_left o) true (os_precision o) (os_hex o)
  | Setprecision p => mkStream (os_text o) (os_width o) (os_fill o) (os_left o) (os_fixed o) p (os_hex o)
  | Hex => mkStream (os_text o) (os_width o) (os_fill o) (os_left o) (os_fixed o) (os_precision o) true
  | Dec => mkStream (os_text o) (os_width o) (os_fill o) (os_left o) (os_fixed o) (os_precision o) false
  | Str s => insert_text o s
  | Num z => insert_text o (if os_hex o then Uint2HexStr z else to_string z)
  | Float f => insert_text o (if os_fixed o then fixed_text (os_precision o) f else general_text f)
  end.

Definition print_all (ms : list manip) (o : ostream) : ostream := foldl put o ms.

(** ** The report *)

Definition colCmd : string := " ".
Definition LOGTYPE_W : Z := 8.
Definition DOMAIN_TITLE_W : Z := 10.
Definition DOMAIN_W : Z := DOMAIN_TITLE_W - 2.
Definition PID_W : Z := 7.
Definition PNAME_W : Z := 32.
Definition TAG_W : Z := 32.
Definition FREQ_W : Z := 10.
Definition TIME_W : Z := 20.
Definition TP_W : Z := 10.
Definition LINES_W : Z := 10.
Definition LENGTH_W : Z := 10.
Definition DROPPED_W : Z := 10.
Definition FLOAT_PRECSION : nat := 2.
Definition STATS_W : Z := 60.
Definition MIN2SEC : Z := 60.
Definition HOUR2SEC : Z := 3600.

(** What std::sort promises for a comparison of keys, the largest first. *)
Class SortBy := sort_by : forall {A}, (A -> Z) -> list A -> list A.
Class SortLaws (SB : SortBy) := {
  sort_perm {A} (key : A -> Z) l : sort_by key l ≡ₚ l;
  sort_sorted {A} (key : A -> Z) l : Sorted (fun a b => key b <= key a) (sort_by key l);
}.

Section display.
Context {SB : SortBy}.
Context (localtime_r : Z -> option tm) (GetNameByPid : Z -> string).

Definition TimeStr (tv_sec tv_nsec : Z) : option string :=
  t ← localtime_r tv_sec;
  let buffer := setw "0" 2 (to_string (tm_mon t + 1)) +:+ "-" +:+ setw "0" 2 (to_string (tm_mday t)) +:+ " " +:+
                setw "0" 2 (to_string (tm_hour t)) +:+ ":" +:+ setw "0" 2 (to_string (tm_min t)) +:+ ":" +:+ setw "0" 2 (to_string (tm_sec t)) in
  Some (buffer +:+ "." +:+ setw "0" 3 (to_string (tv_nsec / NS2MS))).

Definition PrintDomainTitle : list manip := [Setw LOGTYPE_W; Str "LOGTYPE"; Str colCmd; Setw DOMAIN_TITLE_W; Str "DOMAIN"; Str colCmd].
Definition PrintPidTitle : list manip :=
  [Setw LOGTYPE_W; Str "LOGTYPE"; Str colCmd; Setw PID_W; Str "PID"; Str colCmd; Setw PNAME_W; Str "NAME"; Str colCmd].
Definition PrintStatsTitile : list manip :=
  [Setw TAG_W; Str "TAG"; Str colCmd; Setw FREQ_W; Str "MAX_FREQ"; Str colCmd; Setw TIME_W; Str "TIME"; Str colCmd;
   Setw TP_W; Str "MAX_TP"; Str colCmd; Setw TIME_W; Str "TIME"; Str colCmd; Setw LINES_W; Str "LINES"; Str colCmd;
   Setw LENGTH_W; Str "LENGTH"; Str colCmd; Setw DROPPED_W; Str "DROPPED"; Str colCmd].

Definition GetTotalLines (rsp : StatsRsp) : Z := foldl (fun lines i => u32 (lines + i)) 0 (sr_lines rsp).
Definition GetTotalLen (rsp : StatsRsp) : Z := foldl (fun len i => u64 (len + i)) 0 (sr_len rsp).

Definition PrintStats (rsp : StatsRsp) : option (list manip) :=
  freqTime ← TimeStr (sr_freqMaxSec rsp) (sr_freqMaxNsec rsp);
  tpTime ← TimeStr (sr_tpMaxSec rsp) (sr_tpMaxNsec rsp);
  Some [Fixed;
    Setw FREQ_W; Setprecision FLOAT_PRECSION; Float (f32_of_bits (sr_freqMax rsp)); Str colCmd;
    Setw TIME_W; Str freqTime; Str colCmd;
    Setw TP_W; Setprecision FLOAT_PRECSION; Float (f32_of_bits (sr_throughputMax rsp)); Str colCmd;
    Setw TIME_W; Str tpTime; Str colCmd;
    Setw LINES_W; Num (GetTotalLines rsp); Str colCmd;
    Setw LENGTH_W; Str (Size2Str (GetTotalLen rsp)); Str colCmd;
    Setw DROPPED_W; Num (sr_dropped rsp); Str colCmd].

Definition DurationStr (tv_sec tv_nsec : Z) : string :=
  let hour := tv_sec / HOUR2SEC in
  let tmp := tv_sec - hour * HOUR2SEC in
  let min := tmp / MIN2SEC in
  let sec := tmp - min * MIN2SEC in
  let msec := tv_nsec / NS2MS in
  to_string hour +:+ "h" +:+ to_string min +:+ "m" +:+ to_string sec +:+ "s." +:+ to_string msec.

Definition SortDomainList : list DomainTree -> list DomainTree := sort_by (fun d => GetTotalLen (dr_stats (dt_rsp d))).
Definition SortProcList : list ProcTree -> list ProcTree := sort_by (fun p => GetTotalLen (pr_stats (pt_rsp p))).
Definition SortTagList : list TagStatsRsp -> list TagStatsRsp := sort_by (fun t => GetTotalLen (tr_stats t)).

(** The rows one after the other; [None] as soon as one cannot be printed. *)
Fixpoint rows_of {A} (row : A -> option (list manip)) (l : list A) : option (list manip) :=
  match l with
  | [] => Some []
  | a :: l => r ← row a; rs ← rows_of row l; Some (r ++ rs)
  end.

Definition domain_row (type domain : Z) (tag : string) (stats : StatsRsp) : option (list manip) :=
  st ← PrintStats stats;
  Some ([Setw LOGTYPE_W; Str (LogType2Str type); Str colCmd; Hex; Str "0x"; Setw DOMAIN_W; Num domain; Dec; Str colCmd;
         Setw TAG_W; Str tag; Str colCmd] ++ st ++ [Str endl]).

Definition HilogShowDomainStatsInfo (rsp : StatsTree) : option (list manip) :=
  rows ← rows_of (fun ldStats =>
    rows_of (fun dStats =>
      row ← domain_row (lr_type (tt_rsp ldStats)) (dr_domain (dt_rsp dStats)) "-" (dr_stats (dt_rsp dStats));
      tags ← rows_of (fun tStats => domain_row (lr_type (tt_rsp ldStats)) (dr_domain (dt_rsp dStats)) (cstr (tr_tag tStats)) (tr_stats tStats))
               (SortTagList (dt_tags dStats));
      Some (row ++ tags)) (SortDomainList (tt_domains ldStats))) (st_types rsp);
  Some ([Str "Domain Table:"; Str endl] ++ PrintDomainTitle ++ PrintStatsTitile ++ [Str endl] ++ rows).

Definition GetProcessName (pStats : ProcStatsRsp) : string :=
  let name := GetNameByPid (pr_pid pStats) in
  str_take (Z.to_nat (PNAME_W - 1)) (if bool_decide (name = "") then cstr (pr_name pStats) else name).

Definition HiLogShowProcInfo (logType : string) (pid : Z) (processName tag : string) : list manip :=
  [Setw LOGTYPE_W; Str logType; Str colCmd; Setw PID_W; Num pid; Str colCmd; Setw PNAME_W; Str processName; Str colCmd; Setw TAG_W; Str tag; Str colCmd].

Definition proc_row (logType : string) (pid : Z) (name tag : string) (stats : StatsRsp) : option (list manip) :=
  st ← PrintStats stats; Some (HiLogShowProcInfo logType pid name tag ++ st ++ [Str endl]).

Definition HilogShowProcStatsInfo (rsp : StatsTree) : option (list manip) :=
  rows ← rows_of (fun p =>
    let pStats := pt_rsp p in
    let name := GetProcessName pStats in
    row ← proc_row "-" (pr_pid pStats) name "-" (pr_stats pStats);
    if bool_decide (pt_types p = []) then Some row else
    types ← rows_of (fun lStats => proc_row (LogType2Str (ltr_type lStats)) (pr_pid pStats) name "-" (ltr_stats lStats))
              (filter (fun lStats => GetTotalLines (ltr_stats lStats) <> 0) (pt_types p));
    tags ← rows_of (fun tStats => proc_row "-" (pr_pid pStats) name (cstr (tr_tag tStats)) (tr_stats tStats)) (SortTagList (pt_tags p));
    Some (row ++ types ++ tags)) (SortProcList (st_procs rsp));
  Some ([Str "Pid Table:"; Str endl] ++ PrintPidTitle ++ PrintStatsTitile ++ [Str endl] ++ rows).

Definition PERCENT : Z := 100.

(** The share of [n] in [total], where the product has the width of [n]. *)
Definition share (w n total : Z) : spec_float := f32_div (f32_of_Z (wrapu w (n * PERCENT))) (f32_of_Z total).

Definition level_row (lines lens : Z) (i : Z) (totalLine totalLen : Z) : list manip :=
  [Str (LogLevel2Str (u16 (i + LevelBase))); Str " lines: "; Num totalLine;
   Str "("; Setprecision FLOAT_PRECSION; Float (share 32 totalLine lines); Str "%)";
   Str ", length: "; Str (Size2Str totalLen);
   Str "("; Setprecision FLOAT_PRECSION; Float (share 64 totalLen lens); Str "%)"; Str endl].

Definition separator : list manip := [Setw STATS_W; Setfill "-"; Str "-"; Str endl].

Definition level_rows (rsp : StatsQueryRsp) (lines lens : Z) : list manip :=
  mjoin (imap (fun i n => level_row lines lens (Z.of_nat i) n.1 n.2) (zip (qr_totalLines rsp) (qr_totalLens rsp))).

(** A row of the tables sets the format of the floats to fixed, which comes
    after the shares. *)
Definition HilogShowLogStatsInfo (tree : StatsTree) : option string :=
  let rsp := st_rsp tree in
  from ← TimeStr (qr_tsBeginSec rsp) (qr_tsBeginNsec rsp);
  let title := [Left; Str "Log statistic report (Duration: "; Str (DurationStr (qr_durationSec rsp) (qr_durationNsec rsp)); Str ", From: "; Str from; Str "):"; Str endl] in
  let lines := foldl (fun a i => u32 (a + i)) 0 (qr_totalLines rsp) in
  let lens := foldl (fun a i => u64 (a + i)) 0 (qr_totalLens rsp) in
  if lines =? 0 then Some (os_text (print_all title new_stream))
  else
    domains ← HilogShowDomainStatsInfo tree;
    procs ← HilogShowProcStatsInfo tree;
    Some (os_text (print_all
      (title ++ [Str "Total lines: "; Num lines; Str ", length: "; Str (Size2Str lens); Str endl] ++ level_rows rsp lines lens ++
       separator ++ domains ++ separator ++ procs) new_stream)).
End display.
