(* ===== verification/DisplayProps.v ===== *)
(** * Properties of the statistics report

    The text of the report is given by a reference without a stream; every
    entry that the daemon counts has its line in it, the largest first. *)

From stdpp Require Import sorting.
From S2P Require Import Prelude Common TimeStamp Utils LogStats LogPrint Cmd StatsWire FloatText Display.
From Stdlib Require Import Ascii SpecFloat.

Fixpoint strs (l : list string) : string := match l with [] => "" | s :: l => s +:+ strs l end.

Lemma strs_app l1 l2 : strs (l1 ++ l2) = strs l1 +:+ strs l2.
Proof. induction l1 as [|s l1 IH]; [done|]. cbn. by rewrite IH, str_app_assoc. Qed.

(** ** The stream in the tables *)

(** [fx]: the stream is known to print floats in the fixed format. *)
Definition in_table (fx : bool) (o : ostream) : Prop :=
  os_width o = 0 /\ os_fill o = "-"%char /\ os_left o = true /\ os_hex o = false /\ (fx = true -> os_fixed o = true).

(** The manipulators print a text, and leave the stream as the tables have it. *)
Definition prints (fx : bool) (ms : list manip) (t : string) : Prop :=
  forall o, in_table fx o -> in_table fx (print_all ms o) /\ os_text (print_all ms o) = os_text o +:+ t.

Definition cell (w : Z) (s : string) : string := s +:+ fill (Z.to_nat (w - slen s)) "-".

Lemma prints_nil fx : prints fx [] "".
Proof. intros o Ho. split; [done|]. by rewrite str_app_nil_r. Qed.

Lemma prints_app fx ms1 ms2 t1 t2 : prints fx ms1 t1 -> prints fx ms2 t2 -> prints fx (ms1 ++ ms2) (t1 +:+ t2).
Proof.
  intros H1 H2 o Ho. unfold print_all. rewrite foldl_app. destruct (H1 o Ho) as [Ho1 E1]. destruct (H2 _ Ho1) as [Ho2 E2]. split; [exact Ho2|].
  fold (print_all ms1 o) (print_all ms2 (print_all ms1 o)). rewrite E2, E1. by rewrite str_app_assoc.
Qed.

(** The first manipulators of a list, on a stream of which the state is known. *)
Ltac prints_head ms0 t0 :=
  intros H; apply (prints_app _ ms0 _ t0 _); [clear H|exact H];
  intros [x w' c l f p h] (Hw & Hc & Hl & Hh & Hf); cbn in *; subst; cbn; unfold padded; cbn.

Lemma prints_str fx s ms t : prints fx ms t -> prints fx (Str s :: ms) (s +:+ t).
Proof.
  prints_head [Str s] s. replace (Z.to_nat (0 - slen s)) with 0%nat by (pose proof (slen_nonneg s); lia). cbn. by rewrite str_app_nil_r.
Qed.

Lemma prints_cell fx w s ms t : prints fx ms t -> prints fx (Setw w :: Str s :: ms) (cell w s +:+ t).
Proof. by prints_head [Setw w; Str s] (cell w s). Qed.

Lemma prints_num fx w z ms t : prints fx ms t -> prints fx (Setw w :: Num z :: ms) (cell w (to_string z) +:+ t).
Proof. by prints_head [Setw w; Num z] (cell w (to_string z)). Qed.

Lemma prints_hex fx w z ms t : prints fx ms t -> prints fx (Hex :: Str "0x" :: Setw w :: Num z :: Dec :: ms) (("0x" +:+ cell w (Uint2HexStr z)) +:+ t).
Proof. prints_head [Hex; Str "0x"; Setw w; Num z; Dec] ("0x" +:+ cell w (Uint2HexStr z)). split; [done|]. by rewrite <- str_app_assoc. Qed.

Lemma prints_float w q ms t :
  prints true ms t -> prints true (Setw w :: Setprecision FLOAT_PRECSION :: Float q :: ms) (cell w (fixed_text FLOAT_PRECSION q) +:+ t).
Proof. prints_head [Setw w; Setprecision FLOAT_PRECSION; Float q] (cell w (fixed_text FLOAT_PRECSION q)). by rewrite Hf. Qed.

Lemma prints_fixed fx ms t : prints true ms t -> prints fx (Fixed :: ms) t.
Proof.
  intros H o (Hw & Hc & Hl & Hh & Hf). destruct (H (put o Fixed)) as [(? & ? & ? & ? & ?) E]; [by repeat split|]. split; [|exact E]. repeat split; [done..|]. naive_solver.
Qed.

(** A text without inner parentheses and empty parts. *)
Ltac flatten := rewrite <- ?str_app_assoc; repeat match goal with |- context [(EmptyString +:+ ?x)%string] => change (EmptyString +:+ x)%string with x end.

Create HintDb printing.
#[export] Hint Resolve prints_nil prints_str prints_cell prints_num prints_hex prints_float prints_fixed : printing.

(** ** Lines *)

Section lines.
Context {SB : SortBy}.
Context (local : Z -> tm) (GetNameByPid : Z -> string).
Abbreviation localtime := (fun t => Some (local t)).

Definition time_text (sec nsec : Z) : string := default "" (TimeStr localtime sec nsec).

Definition stats_text (r : StatsRsp) : string :=
  strs [cell FREQ_W (fixed_text 2 (f32_of_bits (sr_freqMax r))); " "; cell TIME_W (time_text (sr_freqMaxSec r) (sr_freqMaxNsec r)); " ";
        cell TP_W (fixed_text 2 (f32_of_bits (sr_throughputMax r))); " "; cell TIME_W (time_text (sr_tpMaxSec r) (sr_tpMaxNsec r)); " ";
        cell LINES_W (to_string (GetTotalLines r)); " "; cell LENGTH_W (Size2Str (GetTotalLen r)); " "; cell DROPPED_W (to_string (sr_dropped r)); " "].

Lemma prints_stats fx r : exists ms, PrintStats localtime r = Some ms /\ prints fx ms (stats_text r).
Proof.
  unfold PrintStats. eexists. split; [done|]. unfold stats_text. cbn [strs]. eauto 30 with printing.
Qed.

Definition domain_line (type domain : Z) (tag : string) (r : StatsRsp) : string :=
  strs [cell LOGTYPE_W (LogType2Str type); " "; "0x" +:+ cell DOMAIN_W (Uint2HexStr domain); " "; cell TAG_W tag; " "; stats_text r; endl].

Definition proc_line (logType : string) (pid : Z) (name tag : string) (r : StatsRsp) : string :=
  strs [cell LOGTYPE_W logType; " "; cell PID_W (to_string pid); " "; cell PNAME_W name; " "; cell TAG_W tag; " "; stats_text r; endl].

Lemma prints_domain_row fx type domain tag r : exists ms, domain_row localtime type domain tag r = Some ms /\ prints fx ms (domain_line type domain tag r).
Proof.
  unfold domain_row. destruct (prints_stats fx r) as (st & -> & Hst). eexists. split; [done|]. unfold domain_line. cbn [strs].
  assert (prints fx (st ++ [Str endl]) (stats_text r +:+ endl +:+ "")) by (apply prints_app; auto with printing). cbn [app]. eauto 30 with printing.
Qed.

Lemma prints_proc_row fx logType pid name tag r : exists ms, proc_row localtime logType pid name tag r = Some ms /\ prints fx ms (proc_line logType pid name tag r).
Proof.
  unfold proc_row. destruct (prints_stats fx r) as (st & -> & Hst). eexists. split; [done|]. unfold proc_line, HiLogShowProcInfo. cbn [strs].
  assert (prints fx (st ++ [Str endl]) (stats_text r +:+ endl +:+ "")) by (apply prints_app; auto with printing). cbn [app]. eauto 30 with printing.
Qed.

Lemma prints_rows {A} fx (row : A -> option (list manip)) (lines : A -> list string) l :
  (forall a, exists ms, row a = Some ms /\ prints fx ms (strs (lines a))) -> exists ms, rows_of row l = Some ms /\ prints fx ms (strs (l ≫= lines)).
Proof.
  intros H. induction l as [|a l (rs & Er & Hr)]; [exists []; split; [done|apply prints_nil]|]. cbn [rows_of]. destruct (H a) as (r & -> & Ha). rewrite Er.
  eexists. split; [done|]. rewrite bind_cons, strs_app. by apply prints_app.
Qed.

Lemma prints_lines {A} fx (row : A -> option (list manip)) (line : A -> string) l :
  (forall a, exists ms, row a = Some ms /\ prints fx ms (line a)) -> exists ms, rows_of row l = Some ms /\ prints fx ms (strs (line <$> l)).
Proof.
  intros H. destruct (prints_rows fx row (fun a => [line a]) l) as (ms & E & Hms).
  { intros a. destruct (H a) as (m & E & Hm). exists m. split; [done|]. cbn. by rewrite str_app_nil_r. }
  exists ms. split; [done|]. replace (line <$> l) with (l ≫= fun a => [line a]); [done|]. clear. induction l as [|a l IH]; [done|]. rewrite bind_cons, IH. done.
Qed.

(** ** The tables *)

Definition tag_lines (type domain : Z) (tags : list TagStatsRsp) : list string := (fun t => domain_line type domain (cstr (tr_tag t)) (tr_stats t)) <$> tags.
Definition domain_lines (type : Z) (d : DomainTree) : list string :=
  domain_line type (dr_domain (dt_rsp d)) "-" (dr_stats (dt_rsp d)) :: tag_lines type (dr_domain (dt_rsp d)) (dt_tags d).
Definition type_lines (t : TypeTree) : list string := tt_domains t ≫= domain_lines (lr_type (tt_rsp t)).

Definition proc_lines (p : ProcTree) : list string :=
  let pid := pr_pid (pt_rsp p) in
  let name := GetProcessName GetNameByPid (pt_rsp p) in
  proc_line "-" pid name "-" (pr_stats (pt_rsp p)) ::
  if bool_decide (pt_types p = []) then []
  else ((fun l => proc_line (LogType2Str (ltr_type l)) pid name "-" (ltr_stats l)) <$> filter (fun l => GetTotalLines (ltr_stats l) <> 0) (pt_types p)) ++
       ((fun t => proc_line "-" pid name (cstr (tr_tag t)) (tr_stats t)) <$> pt_tags p).

(** The tree in the order of the report. *)
Definition sort_domain (d : DomainTree) : DomainTree := mkDomainTree (dt_rsp d) (SortTagList (dt_tags d)).
Definition sort_type (t : TypeTree) : TypeTree := mkTypeTree (tt_rsp t) (sort_domain <$> SortDomainList (tt_domains t)).
Definition sort_proc (p : ProcTree) : ProcTree := mkProcTree (pt_rsp p) (pt_types p) (SortTagList (pt_tags p)).
Definition sort_tree (t : StatsTree) : StatsTree := mkStatsTree (st_rsp t) (sort_type <$> st_types t) (sort_proc <$> SortProcList (st_procs t)).

Definition domain_title : string := strs [cell LOGTYPE_W "LOGTYPE"; " "; cell DOMAIN_TITLE_W "DOMAIN"; " "].
Definition pid_title : string := strs [cell LOGTYPE_W "LOGTYPE"; " "; cell PID_W "PID"; " "; cell PNAME_W "NAME"; " "].
Definition stats_title : string :=
  strs [cell TAG_W "TAG"; " "; cell FREQ_W "MAX_FREQ"; " "; cell TIME_W "TIME"; " "; cell TP_W "MAX_TP"; " "; cell TIME_W "TIME"; " ";
        cell LINES_W "LINES"; " "; cell LENGTH_W "LENGTH"; " "; cell DROPPED_W "DROPPED"; " "].

Lemma bind_fmap_l {A B C} (f : A -> B) (g : B -> list C) l : (f <$> l) ≫= g = l ≫= fun a => g (f a).
Proof. induction l as [|a l IH]; [done|]. cbn. by rewrite <- IH. Qed.

Lemma prints_domains fx tree :
  exists ms, HilogShowDomainStatsInfo localtime tree = Some ms /\
    prints fx ms (strs (["Domain Table:"; endl; domain_title; stats_title; endl] ++ (st_types (sort_tree tree) ≫= type_lines))).
Proof.
  unfold HilogShowDomainStatsInfo.
  match goal with |- context [rows_of ?row (st_types tree)] => destruct (prints_rows fx row (fun t => type_lines (sort_type t)) (st_types tree)) as (ms & -> & Hms) end.
  - intros t. unfold type_lines, sort_type. cbn [tt_domains tt_rsp]. rewrite bind_fmap_l. apply prints_rows. intros d.
    destruct (prints_domain_row fx (lr_type (tt_rsp t)) (dr_domain (dt_rsp d)) "-" (dr_stats (dt_rsp d))) as (m1 & -> & H1).
    match goal with |- context [rows_of ?row (SortTagList (dt_tags d))] =>
      destruct (prints_lines fx row (fun g => domain_line (lr_type (tt_rsp t)) (dr_domain (dt_rsp d)) (cstr (tr_tag g)) (tr_stats g)) (SortTagList (dt_tags d))) as (m2 & -> & H2) end.
    { intros g. apply prints_domain_row. }
    eexists. split; [done|]. by apply prints_app.
  - eexists. split; [done|]. cbn [sort_tree st_types]. rewrite bind_fmap_l. rewrite strs_app. revert Hms. generalize (strs (st_types tree ≫= fun t => type_lines (sort_type t))). intros rows Hms.
    unfold PrintDomainTitle, PrintStatsTitile, domain_title, stats_title. cbn [strs app]. flatten. eauto 50 with printing.
Qed.

Lemma prints_procs fx tree :
  exists ms, HilogShowProcStatsInfo localtime GetNameByPid tree = Some ms /\
    prints fx ms (strs (["Pid Table:"; endl; pid_title; stats_title; endl] ++ (st_procs (sort_tree tree) ≫= proc_lines))).
Proof.
  unfold HilogShowProcStatsInfo.
  match goal with |- context [rows_of ?row (SortProcList (st_procs tree))] =>
    destruct (prints_rows fx row (fun p => proc_lines (sort_proc p)) (SortProcList (st_procs tree))) as (ms & -> & Hms) end.
  - intros p. unfold proc_lines. cbn [sort_proc pt_rsp pt_types pt_tags]. set (pid := pr_pid (pt_rsp p)). set (name := GetProcessName GetNameByPid (pt_rsp p)).
    destruct (prints_proc_row fx "-" pid name "-" (pr_stats (pt_rsp p))) as (m1 & -> & H1). cbn [mbind option_bind]. destruct (bool_decide (pt_types p = [])).
    { exists m1. split; [done|]. cbn [strs]. by rewrite str_app_nil_r. }
    match goal with |- context [rows_of ?row (filter ?P (pt_types p))] =>
      destruct (prints_lines fx row (fun l => proc_line (LogType2Str (ltr_type l)) pid name "-" (ltr_stats l)) (filter P (pt_types p))) as (m2 & -> & H2) end.
    { intros l. apply prints_proc_row. }
    match goal with |- context [rows_of ?row (SortTagList (pt_tags p))] =>
      destruct (prints_lines fx row (fun t => proc_line "-" pid name (cstr (tr_tag t)) (tr_stats t)) (SortTagList (pt_tags p))) as (m3 & -> & H3) end.
    { intros g. apply prints_proc_row. }
    eexists. split; [done|]. cbn [strs]. rewrite strs_app. apply prints_app; [done|]. by apply prints_app.
  - eexists. split; [done|]. cbn [sort_tree st_procs]. rewrite bind_fmap_l, strs_app. revert Hms. generalize (strs (SortProcList (st_procs tree) ≫= fun p => proc_lines (sort_proc p))). intros rows Hms.
    unfold PrintPidTitle, PrintStatsTitile, pid_title, stats_title. cbn [strs app]. flatten. eauto 50 with printing.
Qed.

Definition dashes : string := cell STATS_W "-" +:+ endl.

Lemma prints_separator fx : prints fx separator dashes.
Proof. intros [x w' c l f p h] (Hw & Hc & Hl & Hh & Hf). cbn in *. subst. split; [done|]. cbn. unfold padded. cbn. by rewrite <- str_app_assoc. Qed.

(** Before the tables: the stream is aligned to the left, and fills with blanks. *)
Definition plain (m : manip) : Prop := match m with Str _ | Num _ | Float _ | Setprecision _ => True | _ => False end.

Lemma plain_state ms o :
  Forall plain ms -> os_width o = 0 -> os_left o = true -> os_hex o = false ->
  os_width (print_all ms o) = 0 /\ os_left (print_all ms o) = true /\ os_hex (print_all ms o) = false.
Proof. intros Hms. revert o. induction Hms as [|m ms Hm _ IH]; intros o Hw Hl Hh; [done|]. apply IH; by destruct m. Qed.

Lemma separator_enters ms o :
  Forall plain ms -> os_width o = 0 -> os_left o = true -> os_hex o = false ->
  in_table false (print_all (ms ++ separator) o) /\ os_text (print_all (ms ++ separator) o) = os_text (print_all ms o) +:+ dashes.
Proof.
  intros Hms Hw Hl Hh. unfold print_all. rewrite foldl_app. fold (print_all ms o). destruct (plain_state ms o Hms Hw Hl Hh) as (Hw' & Hl' & Hh').
  destruct (print_all ms o) as [x w c l f p h]. cbn in *. subst. split; [done|]. unfold padded. cbn. by rewrite <- str_app_assoc.
Qed.

(** What comes before the tables. *)
Definition total_lines (t : StatsTree) : Z := foldl (fun a i => u32 (a + i)) 0 (qr_totalLines (st_rsp t)).
Definition total_lens (t : StatsTree) : Z := foldl (fun a i => u64 (a + i)) 0 (qr_totalLens (st_rsp t)).
Definition overview (tree : StatsTree) : list manip :=
  let rsp := st_rsp tree in
  [Str "Log statistic report (Duration: "; Str (DurationStr (qr_durationSec rsp) (qr_durationNsec rsp)); Str ", From: ";
   Str (time_text (qr_tsBeginSec rsp) (qr_tsBeginNsec rsp)); Str "):"; Str endl;
   Str "Total lines: "; Num (total_lines tree); Str ", length: "; Str (Size2Str (total_lens tree)); Str endl] ++
  level_rows rsp (total_lines tree) (total_lens tree).

Lemma overview_plain tree : Forall plain (overview tree).
Proof.
  unfold overview. apply Forall_app. split; [repeat constructor|]. unfold level_rows. apply Forall_join, Forall_forall.
  intros row (i & n & -> & _)%elem_of_lookup_imap. repeat constructor.
Qed.

Definition overview_text (tree : StatsTree) : string := os_text (print_all (overview tree) (put new_stream Left)).

Lemma report_text tree :
  total_lines tree <> 0 ->
  HilogShowLogStatsInfo localtime GetNameByPid tree =
  Some (overview_text tree +:+ dashes +:+
        strs (["Domain Table:"; endl; domain_title; stats_title; endl] ++ (st_types (sort_tree tree) ≫= type_lines)) +:+ dashes +:+
        strs (["Pid Table:"; endl; pid_title; stats_title; endl] ++ (st_procs (sort_tree tree) ≫= proc_lines))).
Proof.
  intros Hne. unfold HilogShowLogStatsInfo. cbn [TimeStr mbind option_bind]. fold (total_lines tree) (total_lens tree).
  rewrite (proj2 (Z.eqb_neq _ _) Hne). destruct (prints_domains false tree) as (md & -> & Hd). destruct (prints_procs false tree) as (mp & -> & Hp). cbn [mbind option_bind]. f_equal.
  pose proof (prints_app _ _ _ _ _ Hd (prints_app _ _ _ _ _ (prints_separator false) Hp)) as Ht.
  destruct (separator_enters (overview tree) (put new_stream Left) (overview_plain tree) eq_refl eq_refl eq_refl) as [Hs Es].
  destruct (Ht _ Hs) as [_ Et]. fold (overview_text tree) in Es. rewrite Es in Et. rewrite <- !str_app_assoc in Et. rewrite <- Et.
  unfold print_all. rewrite <- foldl_app. f_equal. unfold overview. cbn [app foldl put]. rewrite <- !app_assoc. done.
Qed.
End lines.

(** ** Order *)

Lemma bind_perm {A B} (f g : A -> list B) l l' : (forall a, f a ≡ₚ g a) -> l ≡ₚ l' -> l ≫= f ≡ₚ l' ≫= g.
Proof.
  intros Hfg Hl. transitivity (l ≫= g).
  - clear Hl. induction l as [|a l IH]; [done|]. by rewrite !bind_cons, Hfg, IH.
  - induction Hl as [|a l l' _ IH|a b l|l1 l2 l3 _ IH1 _ IH2]; [done|by rewrite !bind_cons, IH| |by etrans].
    rewrite !bind_cons, !app_assoc. f_equiv. apply Permutation_app_comm.
Qed.

Lemma Sorted_fmap {A} (R R' : A -> A -> Prop) (f : A -> A) l : (forall a b, R a b -> R' (f a) (f b)) -> Sorted R l -> Sorted R' (f <$> l).
Proof. intros Hf. induction 1 as [|a l _ IH Hd]; cbn; constructor; [done|]. destruct Hd; cbn; constructor. by apply Hf. Qed.

Section report.
Context {SB : SortBy} {SL : SortLaws SB}.
Context (local : Z -> tm) (GetNameByPid : Z -> string).
Abbreviation localtime := (fun t => Some (local t)).

Definition shrinking {A} (stats : A -> StatsRsp) : list A -> Prop := Sorted (fun a b => GetTotalLen (stats b) <= GetTotalLen (stats a)).

Lemma tags_perm l : SortTagList l ≡ₚ l.
Proof. apply sort_perm. Qed.

Lemma domain_table_perm tree : st_types (sort_tree tree) ≫= type_lines local ≡ₚ st_types tree ≫= type_lines local.
Proof.
  cbn [sort_tree st_types]. rewrite bind_fmap_l. apply bind_perm; [|done]. intros t. unfold type_lines. cbn [sort_type tt_domains tt_rsp]. rewrite bind_fmap_l.
  apply bind_perm; [|apply sort_perm]. intros d. unfold domain_lines, tag_lines. cbn [sort_domain dt_rsp dt_tags]. by rewrite tags_perm.
Qed.

Lemma proc_table_perm tree : st_procs (sort_tree tree) ≫= proc_lines local GetNameByPid ≡ₚ st_procs tree ≫= proc_lines local GetNameByPid.
Proof.
  cbn [sort_tree st_procs]. rewrite bind_fmap_l. apply bind_perm; [|apply sort_perm]. intros p. unfold proc_lines. cbn [sort_proc pt_rsp pt_types pt_tags].
  destruct (bool_decide _); [done|]. by rewrite tags_perm.
Qed.

(** C31: the report is the overview and two tables with one line for each entry
    and each of its tags, none left out and none repeated; the domains of a
    type, the processes and the tags of each are in the order of their bytes,
    the largest first.  The fill character of the separators is kept, so that
    every column is filled up with dashes. *)
Theorem stats_report tree :
  total_lines tree <> 0 ->
  let tree' := sort_tree tree in
  HilogShowLogStatsInfo localtime GetNameByPid tree =
    Some (overview_text local tree +:+ dashes +:+
          strs (["Domain Table:"; endl; domain_title; stats_title; endl] ++ (st_types tree' ≫= type_lines local)) +:+ dashes +:+
          strs (["Pid Table:"; endl; pid_title; stats_title; endl] ++ (st_procs tree' ≫= proc_lines local GetNameByPid))) /\
  st_types tree' ≫= type_lines local ≡ₚ st_types tree ≫= type_lines local /\
  st_procs tree' ≫= proc_lines local GetNameByPid ≡ₚ st_procs tree ≫= proc_lines local GetNameByPid /\
  Forall (fun t => shrinking (fun d => dr_stats (dt_rsp d)) (tt_domains t) /\ Forall (fun d => shrinking tr_stats (dt_tags d)) (tt_domains t)) (st_types tree') /\
  shrinking (fun p => pr_stats (pt_rsp p)) (st_procs tree') /\ Forall (fun p => shrinking tr_stats (pt_tags p)) (st_procs tree').
Proof.
  intros Hne tree'. split; [by apply report_text|]. split; [apply domain_table_perm|]. split; [apply proc_table_perm|].
  assert (forall l, shrinking tr_stats (SortTagList l)) as Htags by (intros l; apply sort_sorted). split; [|split].
  - apply Forall_fmap, Forall_true. intros t. cbn [compose sort_type tt_domains]. split; [|apply Forall_fmap, Forall_true; intros d; apply Htags].
    eapply Sorted_fmap; [|apply sort_sorted]. done.
  - eapply Sorted_fmap; [|apply sort_sorted]. done.
  - apply Forall_fmap, Forall_true. intros p. apply Htags.
Qed.

(** ** From the daemon to the screen *)

(** The lines that the tables of the daemon should give: one for each type and
    domain, one for each process, one for each type of a process that has
    lines, and one for each tag of these when tags are counted. *)
Definition shown_tag (te : string * StatsEntry) : string := cstr (tr_tag (tag_entry te)).

Definition counted_domain_lines (s : LogStats) : list string :=
  imap pair (domainStats s) ≫= fun jd =>
  map_to_list jd.2 ≫= fun kd =>
    domain_line local (u16 (Z.of_nat jd.1)) kd.1 "-" (StatsEntry2StatsRsp (ds_stats kd.2)) ::
    if tagEnable s
    then (fun te => domain_line local (u16 (Z.of_nat jd.1)) kd.1 (shown_tag te) (StatsEntry2StatsRsp te.2)) <$> map_to_list (ds_tagStats kd.2)
    else [].

Definition counted_proc_lines (s : LogStats) : list string :=
  map_to_list (pidStats s) ≫= fun kp =>
    let name := GetProcessName GetNameByPid (proc_entry s kp) in
    proc_line local "-" kp.1 name "-" (StatsEntry2StatsRsp (ps_statsAll kp.2)) ::
    ((fun je => proc_line local (LogType2Str (u16 (Z.of_nat je.1))) kp.1 name "-" (StatsEntry2StatsRsp je.2)) <$>
       filter (fun je => LogStats.GetTotalLines je.2 <> 0) (imap pair (ps_stats kp.2))) ++
    if tagEnable s
    then (fun te => proc_line local "-" kp.1 name (shown_tag te) (StatsEntry2StatsRsp te.2)) <$> map_to_list (ps_tagStats kp.2)
    else [].

Lemma bind_ext_in {A B} (f g : A -> list B) l : (forall a, a ∈ l -> f a = g a) -> l ≫= f = l ≫= g.
Proof.
  intros H. induction l as [|a l IH]; [done|]. rewrite !bind_cons, H, IH; [done| |left]. intros b Hb. apply H. by right.
Qed.

Lemma bind_filter {A B} (P : A -> Prop) `{!forall a, Decision (P a)} (f : A -> list B) l :
  (forall a, ~ P a -> f a = []) -> filter P l ≫= f = l ≫= f.
Proof.
  intros Hf. induction l as [|a l IH]; [done|]. rewrite filter_cons, bind_cons. case_decide as Ha; [by rewrite bind_cons, IH|]. by rewrite Hf, IH.
Qed.

Lemma tree_domain_lines monoNow s : st_types (stats_tree monoNow s) ≫= type_lines local = counted_domain_lines s.
Proof.
  cbn [stats_tree st_types]. rewrite bind_fmap_l. unfold counted_domain_lines, typed_tables.
  rewrite bind_filter by (intros [j dt] Hdt; cbn in Hdt; destruct (decide (dt = ∅)) as [->|]; [done | by destruct Hdt]).
  apply bind_ext_in. intros [j dt] _. unfold type_lines. cbn [tt_domains tt_rsp type_entry_of lr_type fst snd]. rewrite bind_fmap_l.
  apply bind_ext_in. intros [k d] _. unfold domain_lines, tag_lines, domain_tags. cbn [dt_rsp dt_tags domain_entry dr_domain dr_stats fst snd]. f_equal.
  destruct (tagEnable s); [|done]. by rewrite <- list_fmap_compose.
Qed.

Lemma tree_proc_lines monoNow s :
  sendable s -> st_procs (stats_tree monoNow s) ≫= proc_lines local GetNameByPid = counted_proc_lines s.
Proof.
  intros Hs. cbn [stats_tree st_procs]. rewrite bind_fmap_l. apply bind_ext_in. intros [pid p] Hp%elem_of_map_to_list.
  destruct (proj2 (sd_procs s Hs) pid p Hp) as (_ & _ & _ & _ & _ & Hu). unfold proc_lines. cbn [pt_rsp pt_types pt_tags fst snd] in *.
  assert (pr_pid (proc_entry s (pid, p)) = pid /\ pr_stats (proc_entry s (pid, p)) = StatsEntry2StatsRsp (ps_statsAll p)) as [-> ->]
    by (unfold proc_entry; cbn [fst snd]; by rewrite strncpy_s_short).
  f_equal. rewrite bool_decide_false by (intros E%fmap_nil_inv; done). f_equal.
  - rewrite list_filter_id by (intros l Hl; apply list_elem_of_fmap in Hl as ([j e] & -> & [Hj _]%list_elem_of_filter); exact Hj).
    by rewrite <- list_fmap_compose.
  - unfold proc_tags. destruct (tagEnable s); [|done]. by rewrite <- list_fmap_compose.
Qed.

(** C18: what the daemon counts is on the screen.  When something was counted,
    the tool shows, from the packets of the daemon, the overview of the overall
    numbers and two tables.  Their lines are exactly those of the tables of the
    daemon, each once: of every type and domain, of every process, of every
    type of a process that has lines, and of the tags of each when tags are
    counted.  The statistics have to be such that they can be sent. *)
Theorem counters_shown ptr_size monoNow s :
  sendable s -> nothing_counted s = false -> foldl (fun a i => u32 (a + i)) 0 (totalLines s) <> 0 ->
  exists tree domains procs,
    ReceiveAndProcessStatsQueryRsp ptr_size (send_stats ptr_size monoNow s) = Some (tree, []) /\
    st_rsp tree = overall_rsp monoNow s /\
    HilogShowLogStatsInfo localtime GetNameByPid tree =
      Some (overview_text local tree +:+ dashes +:+
            strs (["Domain Table:"; endl; domain_title; stats_title; endl] ++ domains) +:+ dashes +:+
            strs (["Pid Table:"; endl; pid_title; stats_title; endl] ++ procs)) /\
    domains ≡ₚ counted_domain_lines s /\ procs ≡ₚ counted_proc_lines s.
Proof.
  intros Hs Hc Hne. exists (stats_tree monoNow s). do 2 eexists. split; [|split; [done|split; [apply report_text; exact Hne|]]].
  { rewrite <- (app_nil_r (send_stats ptr_size monoNow s)). by rewrite stats_received, Hc. }
  rewrite domain_table_perm, proc_table_perm, tree_domain_lines, tree_proc_lines by done. done.
Qed.
End report.

(** ** Example *)

Definition larger {A} (key : A -> Z) (a b : A) : Prop := key b <= key a.
#[export] Instance larger_dec {A} (key : A -> Z) a b : Decision (larger key a b).
Proof. unfold larger. apply _. Defined.
#[export] Instance larger_total {A} (key : A -> Z) : Total (larger key).
Proof. intros a b. unfold larger. lia. Qed.
#[export] Instance merge_by : SortBy := fun A key l => merge_sort (larger key) l.
#[export] Instance merge_laws : SortLaws merge_by.
Proof.
  split; intros A key l; [apply merge_sort_Permutation|]. apply (Sorted_merge_sort (larger key)).
Qed.

Definition ex_local (t : Z) : tm := mkTm 1 2 3 4 5 100 "CST".

Lemma stats_report_witness :
  total_lines (stats_tree (mkTS 100 7000000) ex_wire_stats) <> 0 /\
  st_procs (sort_tree (stats_tree (mkTS 100 7000000) ex_wire_stats)) ≫= proc_lines ex_local (fun _ => "") ≡ₚ
  st_procs (stats_tree (mkTS 100 7000000) ex_wire_stats) ≫= proc_lines ex_local (fun _ => "").
Proof.
  assert (total_lines (stats_tree (mkTS 100 7000000) ex_wire_stats) <> 0) as H by (by vm_compute). split; [exact H|].
  exact (proj1 (proj2 (proj2 (stats_report ex_local (fun _ => "") (stats_tree (mkTS 100 7000000) ex_wire_stats) H)))).
Defined.

Lemma counters_shown_witness :
  exists tree domains procs,
    ReceiveAndProcessStatsQueryRsp 8 (send_stats 8 (mkTS 100 0) ex_wire_stats) = Some (tree, []) /\
    is_Some (HilogShowLogStatsInfo (fun t => Some (ex_local t)) (fun _ => "") tree) /\
    domains ≡ₚ counted_domain_lines ex_local ex_wire_stats /\ procs ≡ₚ counted_proc_lines ex_local (fun _ => "") ex_wire_stats /\
    length (counted_domain_lines ex_local ex_wire_stats) = 2%nat /\ length (counted_proc_lines ex_local (fun _ => "") ex_wire_stats) = 3%nat.
Proof.
  destruct (counters_shown ex_local (fun _ => "") 8 (mkTS 100 0) ex_wire_stats ex_wire_sendable ltac:(by vm_compute) ltac:(by vm_compute))
    as (tree & domains & procs & H1 & _ & H2 & H3 & H4).
  exists tree, domains, procs. split; [exact H1|]. split; [by eexists|]. split; [exact H3|]. split; [exact H4|]. split; vm_compute; reflexivity.
Defined.

(** Shares are printed with two significant digits, and the product overflows
    for more than 42949672 lines of a level: all lines are 14 percent then. *)
Lemma shares_printed : general_text (share 32 3 3) = "1e+02" /\ general_text (share 32 50000000 50000000) = "14".
Proof. by vm_compute. Qed.
