(* ===== verification/Help.v ===== *)
(** * The help pages of the tool

    Helper of hilogtool/main.cpp: the pages, and which of them an argument
    selects; and what they say of the options that the tool takes. *)

From S2P Require Import Prelude Common Utils LogData LogStats LogBuffer FlowControl LogPrint FloatText Cmd Properties StatsWire Controller Ioctl Tool.
From Stdlib Require Import Ascii.

Fixpoint text (l : list string) : string := match l with [] => "" | s :: l => s +:+ text l end.

Definition quote : string := String "034" "".
Definition esc : string := String ESC "".

Definition FormatHelper : string :=
  text ["  -v <format>, --format=<format>"; endl;
   "    Show logs in different formats, options are:"; endl;
   "      color or colour      display colorful logs by log level.i.e."; endl;
   "        "; esc; "[38;5;75mDEBUG        "; esc; "[38;5;40mINFO        "; esc; "[38;5;166mWARN"; "        "; esc; "[38;5;196mERROR       "; esc; "[38;5;226mFATAL"; esc; "[0m"; endl;
   "      time format options are(single accepted):"; endl;
   "        time       display local time, this is default."; endl;
   "        epoch      display the time from 1970/1/1."; endl;
   "        monotonic  display the cpu time from bootup."; endl;
   "      time accuracy format options are(single accepted):"; endl;
   "        msec       display time by millisecond, this is default."; endl;
   "        usec       display time by microsecond."; endl;
   "        nsec       display time by nanosecond."; endl;
   "      year       display the year when -v time is specified."; endl;
   "      zone       display the time zone when -v time is specified."; endl;
   "      wrap       display the log without prefix when a log line is wrapped."; endl;
   "    Different types of formats can be combined, such as:"; endl;
   "    -v color -v time -v msec -v year -v zone."; endl].

Definition QueryHelper : string :=
  text ["Querying logs options:"; endl;
   "  No option performs a blocking read and keeps printing."; endl;
   "  -x --exit"; endl;
   "    Performs a non-blocking read and exits when all logs in buffer are printed."; endl;
   "  -a <n>, --head=<n>"; endl;
   "    Show n lines logs on head of buffer."; endl;
   "  -z <n>, --tail=<n>"; endl;
   "    Show n lines logs on tail of buffer."; endl;
   "  -t <type>, --type=<type>"; endl;
   "    Show specific type/types logs with format: type1,type2,type3"; endl;
   "    Don't show specific type/types logs with format: ^type1,type2,type3"; endl;
   "    Type coule be: app/core/init/kmsg/only_prerelease, kmsg can't combine with others."; endl;
   "    Default types are: app,core,init,only_prerelease."; endl;
   "  -L <level>, --level=<level>"; endl;
   "    Show specific level/levels logs with format: level1,level2,level3"; endl;
   "    Don't show specific level/levels logs with format: ^level1,level2,level3"; endl;
   "    Long and short level string are both accepted"; endl;
   "    Long level string coule be: DEBUG/INFO/WARN/ERROR/FATAL."; endl;
   "    Short level string coule be: D/I/W/E/F."; endl;
   "    Default levels are all levels."; endl;
   "  -D <domain>, --domain=<domain>"; endl;
   "    Show specific domain/domains logs with format: domain1,domain2,doman3"; endl;
   "    Don't show specific domain/domains logs with format: ^domain1,domain2,doman3"; endl;
   "    Max domain count is "; to_string MAX_DOMAINS; "."; endl;
   "    See domain description at the end of this message."; endl;
   "  -T <tag>, --tag=<tag>"; endl;
   "    Show specific tag/tags logs with format: tag1,tag2,tag3"; endl;
   "    Don't show specific tag/tags logs with format: ^tag1,tag2,tag3"; endl;
   "    Max tag count is "; to_string MAX_TAGS; "."; endl;
   "  -P <pid>, --pid=<pid>"; endl;
   "    Show specific pid/pids logs with format: pid1,pid2,pid3"; endl;
   "    Don't show specific domain/domains logs with format: ^pid1,pid2,pid3"; endl;
   "    Max pid count is "; to_string MAX_PIDS; "."; endl;
   "  -e <expr>, --regex=<expr>"; endl;
   "    Show the logs which match the regular expression <expr>."; endl;
   FormatHelper].

Definition ClearHelper : string :=
  text ["-r"; endl;
   "  Remove all logs in hilogd buffer, advanced option:"; endl;
   "  -t <type>, --type=<type>"; endl;
   "    Remove specific type/types logs in buffer with format: type1,type2,type3"; endl;
   "    Type coule be: app/core/init/kmsg/only_prerelease."; endl;
   "    Default types are: app,core,only_prerelease"; endl].

Definition BufferHelper : string :=
  text ["-g"; endl;
   "  Query hilogd buffer size, advanced option:"; endl;
   "  -t <type>, --type=<type>"; endl;
   "    Query specific type/types buffer size with format: type1,type2,type3"; endl;
   "    Type coule be: app/core/init/kmsg/only_prerelease."; endl;
   "    Default types are: app,core,only_prerelease"; endl;
   "-G <size>, --buffer-size=<size>"; endl;
   "  Set hilogd buffer size, <size> could be number or number with unit."; endl;
   "  Unit could be: B/K/M/G which represents Byte/Kilobyte/Megabyte/Gigabyte."; endl;
   "  <size> range: ["; Size2Str MIN_BUFFER_SIZE; ","; Size2Str MAX_BUFFER_SIZE; "]."; endl;
   "  Advanced option:"; endl;
   "  -t <type>, --type=<type>"; endl;
   "    Set specific type/types log buffer size with format: type1,type2,type3"; endl;
   "    Type coule be: app/core/init/kmsg/only_prerelease."; endl;
   "    Default types are: app,core,only_prerelease"; endl;
   "  **It's a persistant configuration**"; endl].

Definition StatisticHelper : string :=
  text ["-s, --statistics"; endl;
   "  Query log statistic information."; endl;
   "  Set param persist.sys.hilog.stats true to enable statistic."; endl;
   "  Set param persist.sys.hilog.stats.tag true to enable statistic of log tag."; endl;
   "-S"; endl;
   "  Clear hilogd statistic information."; endl].

Definition PersistTaskHelper : string :=
  text ["-w <control>,--write=<control>"; endl;
   "  Log persistance task control, options are:"; endl;
   "    query      query tasks informations"; endl;
   "    stop       stop all tasks"; endl;
   "    start      start one task"; endl;
   "    refresh    refresh buffer content to file"; endl;
   "    clear      clear /data/log/hilog/hilog*.gz"; endl;
   "  Persistance task is used for saving logs in files."; endl;
   "  The files are saved in directory: "; HILOG_FILE_DIR; endl;
   "  Advanced options:"; endl;
   "  -f <filename>, --filename=<filename>"; endl;
   "    Set log file name, name should be valid of Linux FS."; endl;
   "  -l <length>, --length=<length>"; endl;
   "    Set single log file size. <length> could be number or number with unit."; endl;
   "    Unit could be: B/K/M/G which represents Byte/Kilobyte/Megabyte/Gigabyte."; endl;
   "    <length> range: ["; Size2Str MIN_LOG_FILE_SIZE; ", "; Size2Str MAX_LOG_FILE_SIZE; "]."; endl;
   "  -n <number>, --number<number>"; endl;
   "    Set max log file numbers, log file rotate when files count over this number."; endl;
   "    <number> range: ["; to_string MIN_LOG_FILE_NUM; ", "; to_string MAX_LOG_FILE_NUM; "]."; endl;
   "  -m <compress algorithm>,--stream=<compress algorithm>"; endl;
   "    Set log file compressed algorithm, options are:"; endl;
   "      none       write file with non-compressed logs."; endl;
   "      zlib       write file with zlib compressed logs."; endl;
   "  -j <jobid>, --jobid<jobid>"; endl;
   "    Start/stop specific task of <jobid>."; endl;
   "    <jobid> range: ["; to_string JOB_ID_MIN; ", 0x"; Uint2HexStr JOB_ID_MAX; ")."; endl;
   "  User can start task with options (t/L/D/T/P/e/v) as if using them when "; quote; "Query logs"; quote; " too."; endl;
   "  **It's a persistant configuration**"; endl].

Definition PrivateHelper : string :=
  text ["-p <on/off>, --privacy <on/off>"; endl;
   "  Set HILOG api privacy formatter feature on or off."; endl;
   "  **It's a temporary configuration, will be lost after reboot**"; endl].

Definition KmsgHelper : string :=
  text ["-k <on/off>, --kmsg <on/off>"; endl;
   "  Set hilogd storing kmsg log feature on or off"; endl;
   "  **It's a persistant configuration**"; endl].

Definition FlowControlHelper : string :=
  text ["-Q <control-type>"; endl;
   "  Set log flow-control feature on or off, options are:"; endl;
   "    pidon     process flow control on"; endl;
   "    pidoff    process flow control off"; endl;
   "    domainon  domain flow control on"; endl;
   "    domainoff domain flow control off"; endl;
   "  **It's a temporary configuration, will be lost after reboot**"; endl].

Definition BaseLevelHelper : string :=
  text ["-b <loglevel>, --baselevel=<loglevel>"; endl;
   "  Set global loggable level to <loglevel>"; endl;
   "  Long and short level string are both accepted."; endl;
   "  Long level string coule be: DEBUG/INFO/WARN/ERROR/FATAL/X."; endl;
   "  Short level string coule be: D/I/W/E/F/X."; endl;
   "  X means that loggable level is higher than the max level, no log could be printed."; endl;
   "  Advanced options:"; endl;
   "  -D <domain>, --domain=<domain>"; endl;
   "    Set specific domain loggable level."; endl;
   "    See domain description at the end of this message."; endl;
   "  -T <tag>, --tag=<tag>"; endl;
   "    Set specific tag loggable level."; endl;
   "    The priority is: tag level > domain level > global level."; endl;
   "  **It's a temporary configuration, will be lost after reboot**"; endl;
   "  --persist"; endl;
   "    Set persist configuration."; endl;
   "    The priority is: tag level > persist tag level > domain level > persist domain level > global level"; " > persist global level."; endl].

Definition DomainHelper : string :=
  text [endl;
   endl;
   "Domain description:"; endl;
   "  Log type "; quote; "core"; quote; " & "; quote; "init"; quote; " & "; quote; "only_prerelease"; quote; " are used for OS subsystems, the range is"; "  [0x"; Uint2HexStr DOMAIN_OS_MIN; ",  0x"; Uint2HexStr DOMAIN_OS_MAX; "]"; endl;
   "  Log type "; quote; "app"; quote; " is used for applications, the range is [0x"; Uint2HexStr DOMAIN_APP_MIN; ","; "  0x"; Uint2HexStr DOMAIN_APP_MAX; "]"; endl;
   "  To reduce redundant info when printing logs, only last five hex numbers of domain are printed"; endl;
   "  So if user wants to use -D option to filter OS logs, user should add 0xD0 as prefix to the printed domain:"; endl;
   "  Exapmle: hilog -D 0xD0xxxxx"; endl;
   "  The xxxxx is the domain string printed in logs."; endl].

Definition ComboHelper : string :=
  text ["The first layer options can't be used in combination, ILLEGAL expamples:"; endl;
   "    hilog -S -s; hilog -w start -r; hilog -p on -k on -b D"; endl].

Definition g_HelperList : list (string * string) :=
  [("query", QueryHelper); ("clear", ClearHelper); ("buffer", BufferHelper); ("stats", StatisticHelper); ("persist", PersistTaskHelper);
   ("private", PrivateHelper); ("kmsg", KmsgHelper); ("flowcontrol", FlowControlHelper); ("baselevel", BaseLevelHelper);
   ("combo", ComboHelper); ("domain", DomainHelper)].

Definition Helper (arg : string) : string :=
  text ["Usage:"; endl; "-h --help"; endl; "  Show all help information."; endl; "  Show single help information with option: "; endl;
        "  query/clear/buffer/stats/persist/private/kmsg/flowcontrol/baselevel/domain/combo"; endl] +:+
  text (snd <$> filter (fun it => arg = "" \/ arg = it.1) g_HelperList).

(** ** What the pages say *)

Fixpoint occurs (s t : string) : bool :=
  String.prefix s t || match t with String _ t => occurs s t | EmptyString => false end.

(** A line of the text begins with the option, after at most two blanks. *)
Definition explained (opt : ascii) (t : string) : bool :=
  occurs (endl +:+ "-" +:+ String opt "") t || occurs (endl +:+ "  -" +:+ String opt "") t.

Section options.
Context {PS : ParamService}.
Context (localtime_r : Z -> option tm) (ptr_size : nat) (IsNumericStr : string -> bool) (StrToInt : string -> option Z).
Context (allTypes : list Z) (HilogShowLogStatsInfo : StatsTree -> string) (lk : link).
Abbreviation entries := (optEntries localtime_r ptr_size IsNumericStr StrToInt allTypes Helper HilogShowLogStatsInfo lk).

(** Every option with a letter is explained on a page.  Of the long options
    two are not: that of the privacy switch, which the page calls --privacy,
    and that of the flow control. *)
Theorem help_options :
  forallb (fun opt => explained opt (Helper "")) (filter (fun opt => opt <> NUL) (oe_opt <$> entries)) = true /\
  filter (fun name => occurs ("--" +:+ name) (Helper "") = false) (omap oe_longOpt entries) = ["private"; "flowctrl"] /\
  occurs "--privacy" (Helper "private") = true.
Proof. by vm_compute. Qed.

(** The pages about the size of the buffer name three types as the default;
    the daemon takes a fourth. *)
Lemma help_default_types :
  occurs "Query specific type/types buffer size" (Helper "buffer") = true /\ occurs "Default types are: app,core,only_prerelease" (Helper "buffer") = true /\
  Z.testbit DEFAULT_LOG_TYPES LOG_INIT = true /\ Z.testbit DEFAULT_REMOVE_LOG_TYPES LOG_INIT = false.
Proof. by vm_compute. Qed.
End options.
