(* ===== verification/RustLog.v ===== *)
(** * The binding for Rust

    interfaces/rust/src: the macro hilog! with its marks for private and public
    arguments, and the macros for the levels. *)

From S2P Require Import Prelude Common TimeStamp Utils LogData LogPrint Format Properties LogCollector PageSwitchLog Printf.
From Stdlib Require Import Ascii.

(** ** Data *)

Inductive LogLevel := LogLevelMin | Debug | Info | Warn | Error | Fatal | LogLevelMax.
Inductive LogType := LogApp | LogInit | LogCore | LogKmsg | LogTypeMax.

(** [as u8]. *)
Definition level_as_u8 (l : LogLevel) : Z :=
  match l with LogLevelMin => 0 | Debug => 3 | Info => 4 | Warn => 5 | Error => 6 | Fatal => 7 | LogLevelMax => 8 end.
Definition type_as_u8 (t : LogType) : Z := match t with LogApp => 0 | LogInit => 1 | LogCore => 3 | LogKmsg => 4 | LogTypeMax => 5 end.

Record HiLogLabel := mkHiLogLabel { log_type : LogType; domain : Z; tag : string }.

(** An argument of the macro, with its text. *)
Inductive arg := Plain (s : string) | Private (s : string) | Public (s : string).

(** ** The text *)

(** [format!] for formats of text, of escaped braces and of [{}], where every
    argument is written with its default format.  [None] for a format that does
    not compile, and for one with other pieces, as [{0}], [{:?}] or [{x}], which
    is outside the model. *)
Fixpoint format (fmt : string) (args : list string) : option string :=
  match fmt with
  | "" => match args with [] => Some "" | _ => None end
  | String "{" (String "{" fmt) => s ← format fmt args; Some (String "{" s)
  | String "{" (String "}" fmt) => match args with a :: args => s ← format fmt args; Some (a +:+ s) | [] => None end
  | String "{" _ => None
  | String "}" (String "}" fmt) => s ← format fmt args; Some (String "}" s)
  | String "}" _ => None
  | String c fmt => s ← format fmt args; Some (String c s)
  end.

(** What an argument becomes. *)
Definition process (priv_flag : bool) (a : arg) : string :=
  match a with Public s => s | Plain s | Private s => if priv_flag then "<private>" else s end.

(** ** The macros *)

Section hilog.
Context `{ParamService}.
Context (lp64 char_signed : bool) (wctomb : Z -> option string) (malloc : Z -> bool).
Context (vsprintf_s : Z -> string -> list Z -> Z -> option string).
Context (localtime_r : Z -> option tm) (va_copied : bool).
Context (pe : penv) (ce : call_env).

(** The rule [@call]: the tag in its buffer of 31 bytes, and the text. *)
Definition hilog_call (log_label : HiLogLabel) (level : LogLevel) (fmt : string) (processed_args : list string) : callM unit :=
  let buf := cstr (str_take 30 (tag log_label)) in
  log_str ← lift (format fmt processed_args);
  Printf.HiLogPrint lp64 char_signed wctomb malloc vsprintf_s localtime_r va_copied pe ce
    (type_as_u8 (log_type log_label)) (level_as_u8 level) (domain log_label) (Some buf) (cstr log_str) [];;
  mret tt.

(** The rules [@rec]; none of them takes an empty list. *)
Fixpoint hilog_rec (priv_flag : bool) (log_label : HiLogLabel) (level : LogLevel) (fmt : string) (unprocessed_args : list arg)
    (processed_args : list string) : callM unit :=
  match unprocessed_args with
  | [] => lift None
  | [a] => hilog_call log_label level fmt (processed_args ++ [process priv_flag a])
  | a :: unprocessed_args => hilog_rec priv_flag log_label level fmt unprocessed_args (processed_args ++ [process priv_flag a])
  end.

(** [IsPrivateSwitchOn() && !IsDebugOn()]. *)
Definition priv_switch : callM bool :=
  on ← props pe IsPrivateSwitchOn;
  if on : bool then debug ← props pe IsDebugOn; mret (negb debug) else mret false.

Definition hilog (log_label : HiLogLabel) (level : LogLevel) (fmt : string) (args : list arg) : callM unit :=
  match args with
  | [] => hilog_call log_label level fmt []
  | _ =>
      priv_flag ← priv_switch;
      hilog_rec priv_flag log_label level fmt args []
  end.

Definition debug (log_label : HiLogLabel) := hilog log_label Debug.
Definition info (log_label : HiLogLabel) := hilog log_label Info.
Definition warn (log_label : HiLogLabel) := hilog log_label Warn.
Definition error (log_label : HiLogLabel) := hilog log_label Error.
Definition fatal (log_label : HiLogLabel) := hilog log_label Fatal.
End hilog.
