(* ===== verification/RustProps.v ===== *)
(** * What the macros of Rust do

    The text that the macro makes is passed on as a format without arguments: a
    text with no percent sign is sent as it is, another one makes the formatter
    read arguments that are not there.  While privacy is on, what is not marked
    as public is hidden. *)

From S2P Require Import Prelude Common TimeStamp Utils LogData LogPrint Format FormatProps FormatRef Properties LogCollector PageSwitchLog Printf PrintfProps JsCallProps RustLog.
From Stdlib Require Import Ascii.

(** ** What a call does *)

Section calls.
Context {PS : ParamService} {PL : ParamLaws PS}.
Context (lp64 char_signed : bool) (wctomb : Z -> option string) (malloc : Z -> bool).
Context (vsprintf_s : Z -> string -> list Z -> Z -> option string).
Context (localtime_r : Z -> option tm) (va_copied : bool).
Context (pe : penv) (ce : call_env) (Hshort : short_values (pe_sys pe)).

Abbreviation hilog := (hilog lp64 char_signed wctomb malloc vsprintf_s localtime_r va_copied pe ce).
Abbreviation hilog_rec := (hilog_rec lp64 char_signed wctomb malloc vsprintf_s localtime_r va_copied pe ce).
Abbreviation hilog_call := (hilog_call lp64 char_signed wctomb malloc vsprintf_s localtime_r va_copied pe ce).

Lemma hilog_rec_call priv label level fmt args processed :
  args <> [] -> hilog_rec priv label level fmt args processed = hilog_call label level fmt (processed ++ (process priv <$> args)).
Proof.
  revert processed; induction args as [|a args IH]; [done|]. intros processed _. destruct args as [|b args]; [done|].
  change (hilog_rec priv label level fmt (a :: b :: args) processed)
    with (hilog_rec priv label level fmt (b :: args) (processed ++ [process priv a])).
  rewrite IH by done. by rewrite <- app_assoc.
Qed.

Lemma priv_switch_reads c : client_ok pe c -> reads pe (priv_switch pe) c (private_now pe).
Proof using PL Hshort.
  intros Hc. unfold priv_switch, private_now. eapply reads_bind; [apply (reads_props pe Hshort _ _ c IsPrivateSwitchOn_ok Hc)|]. intros c1 H1. cbv beta.
  destruct (the_switch PROP_PRIVATE true (pe_sys pe)); [|rewrite andb_false_r; apply reads_ret, H1].
  eapply reads_bind; [apply (reads_props pe Hshort _ _ c1 IsDebugOn_ok), H1|]. intros c2 H2. cbv beta. fold (debug_on pe).
  rewrite andb_true_r. apply reads_ret, H2.
Qed.





(** Two arguments that are public and the same, or both not public. *)
Definition same_public (a b : arg) : Prop :=
  match a, b with Public s, Public t => s = t | Public _, _ | _, Public _ => False | _, _ => True end.

(** C19: while privacy is on, what the macros do does not depend on the
    arguments that are not marked as public, whatever is in the text. *)
Theorem rust_private_hidden label level fmt args args' c :
  privacy_on pe -> client_ok pe c -> Forall2 same_public args args' ->
  hilog label level fmt args c = hilog label level fmt args' c.
Proof using PL Hshort.
  intros (H1 & H2 & H3) Hc Hs. assert (private_now pe = true) as Hp by (unfold private_now, debug_on; by rewrite H1, H2, H3).
  assert (process true <$> args = process true <$> args') as E.
  { induction Hs as [|a b l l' Hab _ IH]; [done|]. rewrite !fmap_cons, IH. f_equal. destruct a, b; cbn in Hab |- *; congruence || done. }
  destruct Hs as [|a b args args' Hab Hs]; [done|].
  unfold RustLog.hilog. apply callM_bind_ext. intros c' es x Ex. destruct (priv_switch_reads c Hc) as (c1 & E1 & _).
  rewrite E1 in Ex. injection Ex as <- <- <-. rewrite Hp, !hilog_rec_call by done. by rewrite E.
Qed.
End calls.

(** ** Examples *)

Definition ex_label : HiLogLabel := mkHiLogLabel LogApp 16 "tag".


Lemma rust_private_hidden_witness :
  hilog true true ex_wctomb (fun _ => true) ex_vsprintf (fun _ => None) true ex_pe ex_ce ex_label Info "{} {}" [Private "bob"; Public "7"] ex_client
  = hilog true true ex_wctomb (fun _ => true) ex_vsprintf (fun _ => None) true ex_pe ex_ce ex_label Info "{} {}" [Plain "50%"; Public "7"] ex_client.
Proof.
  apply (@rust_private_hidden hist_service hist_laws true true ex_wctomb (fun _ => true) ex_vsprintf (fun _ => None) true ex_pe ex_ce ex_short
    ex_label Info "{} {}" [Private "bob"; Public "7"] [Plain "50%"; Public "7"] ex_client); [by vm_compute | apply new_caches_ok | by repeat constructor].
Defined.

(** A percent sign in the text starts a conversion, for which there is no
    argument: the call of the formatter is undefined. *)
Lemma rust_percent_undefined :
  format "{} done" ["50%"] = Some "50% done" /\
  hilog true true ex_wctomb (fun _ => true) ex_vsprintf (fun _ => None) true ex_pe ex_ce ex_label Info "{} done" [Public "50%"] ex_client = None /\
  exists c' es, hilog true true ex_wctomb (fun _ => true) ex_vsprintf (fun _ => None) true ex_pe ex_ce ex_label Info "{} done" [Public "half"] ex_client
    = Some (c', es, tt).
Proof. split; [done|]. split; [by vm_compute|]. eexists _, _. by vm_compute. Qed.
