(* ===== verification/Exports.v ===== *)
(** * What the bindings export

    hilog_napi.cpp, hilog_ani.cpp and @ohos.hilog.ets: the functions and the
    enumerations that programs in JavaScript and ArkTS see, and the functions
    for the levels behind them.  The enumerations of the two bindings agree
    with each other and with the library, but for one name; the item that
    ArkTS gets for an output has the value of the output. *)

From S2P Require Import Prelude Common TimeStamp Utils LogData LogPrint Format Properties LogCollector PageSwitchLog Printf PrintfProps JsText NapiLog AniLog.
From Stdlib Require Import Ascii.

(** ** Enumerations *)

Definition SANDBOXLOG_CONSOLE_ONLY : Z := 0.

Definition LogLevelTypeEnumInit : list (string * Z) :=
  [("DEBUG", LOG_DEBUG); ("INFO", LOG_INFO); ("WARN", LOG_WARN); ("ERROR", LOG_ERROR); ("FATAL", LOG_FATAL)].
Definition PreferStrategyTypeEnumInit : list (string * Z) :=
  [("UNSET_LOGLEVEL", UNSET_LOGLEVEL); ("PREFER_CLOSE_LOG", PREFER_CLOSE_LOG); ("PREFER_OPEN_LOG", PREFER_OPEN_LOG)].
Definition OutputTypeTypeEnumInit : list (string * Z) :=
  [("DEFAULT", SANDBOXLOG_DEFAULT); ("CONSOLE_ONLY", SANDBOXLOG_CONSOLE_ONLY); ("PRIVATE_SANDBOX_ONLY", PRIVATE_SANDBOX_ONLY);
   ("SHARE_SANDBOX_ONLY", SHARE_SANDBOX_ONLY); ("PRIVATE_SANDBOX_WITH_CONSOLE", PRIVATE_SANDBOX_WITH_CONSOLE);
   ("SHARE_SANDBOX_WITH_CONSOLE", SHARE_SANDBOX_WITH_CONSOLE)].

(** @ohos.hilog.ets. *)
Definition ets_LogLevel : list (string * Z) := [("DEBUG", 3); ("INFO", 4); ("WARN", 5); ("ERROR", 6); ("FATAL", 7)].
Definition ets_PreferStrategy : list (string * Z) := [("UNSET_LOGLEVEL", 0); ("PREFER_CLOSE_LOG", 1); ("PREFER_OPEN_LOG", 2)].
Definition ets_OutputType : list (string * Z) :=
  [("DEFAULT", 0); ("CONSOLE_ONLY", 0); ("PRIVATE_SANDBOX_OMLY", 1); ("SHARE_SANDBOX_ONLY", 2); ("PRIVATE_SANDBOX_WITH_CONSOLE", 3);
   ("SHARE_SANDBOX_WITH_CONSOLE", 4)].

(** ** JavaScript *)

(** What a function returns to the program. *)
Inductive reply := Undefined | Boolean (b : bool) | Number (z : Z) | Text (s : string) | Texts (l : list string).
Definition reply_of {A} (f : A -> reply) (o : option A) : reply := match o with Some x => f x | None => Undefined end.

Section napi.
Context `{Napi} `{ParamService}.
Context (lp64 char_signed : bool) (wctomb : Z -> option string) (malloc : Z -> bool).
Context (vsprintf_s : Z -> string -> list Z -> Z -> option string).
Context (localtime_r : Z -> option tm) (va_copied : bool).
Context (pe : penv) (ce : call_env) (files : sandbox_call -> list string).

Abbreviation HilogImpl := (NapiLog.HilogImpl lp64 char_signed wctomb malloc vsprintf_s localtime_r va_copied pe ce).
Abbreviation args := (option (list napi_value)).

Definition Debug (info : args) : callM unit := HilogImpl info LOG_DEBUG true.
Definition Info (info : args) : callM unit := HilogImpl info LOG_INFO true.
Definition Warn (info : args) : callM unit := HilogImpl info LOG_WARN true.
Definition Error (info : args) : callM unit := HilogImpl info LOG_ERROR true.
Definition Fatal (info : args) : callM unit := HilogImpl info LOG_FATAL true.
Definition SysLogDebug (info : args) : callM unit := HilogImpl info LOG_DEBUG false.
Definition SysLogInfo (info : args) : callM unit := HilogImpl info LOG_INFO false.
Definition SysLogWarn (info : args) : callM unit := HilogImpl info LOG_WARN false.
Definition SysLogError (info : args) : callM unit := HilogImpl info LOG_ERROR false.
Definition SysLogFatal (info : args) : callM unit := HilogImpl info LOG_FATAL false.

Definition quiet (f : args -> callM unit) (info : args) : callM reply := f info;; mret Undefined.
Definition update (f : args -> client -> client) (info : args) : callM reply := c ← get; put (f info c);; mret Undefined.
Definition answer {A} (r : A -> reply) (f : args -> callM (option A)) (info : args) : callM reply := o ← f info; mret (reply_of r o).
Definition query {A} (r : A -> reply) (f : client -> A) (_ : args) : callM reply := c ← get; mret (r (f c)).

Definition Export : list (string * (args -> callM reply)) :=
  [("debug", quiet Debug); ("info", quiet Info); ("error", quiet Error); ("warn", quiet Warn); ("fatal", quiet Fatal);
   ("sLogD", quiet SysLogDebug); ("sLogI", quiet SysLogInfo); ("sLogW", quiet SysLogWarn); ("sLogE", quiet SysLogError);
   ("sLogF", quiet SysLogFatal);
   ("isLoggable", answer Boolean (NapiLog.IsLoggable pe)); ("setMinLogLevel", update NapiLog.SetMinLogLevel);
   ("setLogLevel", update NapiLog.SetLogLevel); ("setOutputType", answer Number NapiLog.SetOutputType);
   ("setOutputTypeByDomainID", answer Number NapiLog.SetOutputTypeByDomainID); ("getOutputType", query Number NapiLog.GetOutputType);
   ("clean", quiet (fun _ => NapiLog.Clean)); ("flush", quiet (fun _ => NapiLog.Flush));
   ("getLogFile", answer Texts (NapiLog.GetLogFile files)); ("getOutputDir", query Text NapiLog.GetOutputDir)].

(** What a program gets that calls a function by its name. *)
Definition js_call (name : string) (info : args) : option (callM reply) :=
  (fun e => e.2.2 info) <$> list_find (fun e : string * (args -> callM reply) => e.1 = name) Export.

(** Every function has a name of its own; a program that logs by the name of a
    level logs with that level, and as an application unless it takes the name
    for the system. *)
Lemma js_names : NoDup Export.*1.
Proof. apply (bool_decide_unpack _). by vm_compute. Qed.

Lemma js_levels info :
  (fun n => js_call n info) <$> ["debug"; "info"; "warn"; "error"; "fatal"; "sLogD"; "sLogI"; "sLogW"; "sLogE"; "sLogF"]
  = (fun '(app, level) => Some (HilogImpl info level app;; mret Undefined)) <$>
      (pair true <$> LogLevelTypeEnumInit.*2) ++ (pair false <$> LogLevelTypeEnumInit.*2).
Proof. done. Qed.
End napi.

(** ** ArkTS *)

Section ani.
Context `{Ani} `{ParamService}.
Context (lp64 char_signed : bool) (wctomb : Z -> option string) (malloc : Z -> bool).
Context (vsprintf_s : Z -> string -> list Z -> Z -> option string).
Context (localtime_r : Z -> option tm) (va_copied : bool).
Context (pe : penv) (ce : call_env).

Abbreviation HilogImpl := (AniLog.HilogImpl lp64 char_signed wctomb malloc vsprintf_s localtime_r va_copied pe ce).
Abbreviation GetOutputType := (AniLog.GetOutputType lp64 char_signed wctomb malloc vsprintf_s localtime_r va_copied pe ce).

(** The functions that log, by their names. *)
Definition log_methods : list (string * (Z -> ani_ref -> ani_ref -> ani_ref -> callM unit)) :=
  [("debug", fun domain tag format args => HilogImpl domain tag format args LOG_DEBUG true);
   ("info", fun domain tag format args => HilogImpl domain tag format args LOG_INFO true);
   ("warn", fun domain tag format args => HilogImpl domain tag format args LOG_WARN true);
   ("error", fun domain tag format args => HilogImpl domain tag format args LOG_ERROR true);
   ("fatal", fun domain tag format args => HilogImpl domain tag format args LOG_FATAL true)].

(** The runtime has the enumeration of @ohos.hilog.ets: its items by their
    position, with their values. *)
Definition has_enum (e : ani_enum) : Prop :=
  FindEnum OUTPUTTYPE_STRING = inr e /\
  forall i name v, ets_OutputType !! i = Some (name, v) ->
    exists item, Enum_GetEnumItemByIndex e (Z.of_nat i) = inr item /\ EnumItem_GetValue_Int item = Some v.

(** The item that stands for the output has its value, although two items
    have the value 0. *)
Theorem ets_output_item e c :
  has_enum e -> SANDBOXLOG_DEFAULT <= g_sandboxStatus c <= SHARE_SANDBOX_WITH_CONSOLE ->
  exists item, GetOutputType c = Some (c, [], Some item) /\ EnumItem_GetValue_Int item = Some (g_sandboxStatus c).
Proof.
  intros [Hf Hi] Hr. unfold SANDBOXLOG_DEFAULT, SHARE_SANDBOX_WITH_CONSOLE in Hr. set (v := g_sandboxStatus c) in *.
  assert (exists name, ets_OutputType !! Z.to_nat (v + 1) = Some (name, v)) as [name Hn].
  { assert (v = 0 \/ v = 1 \/ v = 2 \/ v = 3 \/ v = 4) as [-> | [-> | [-> | [-> | ->]]]] by lia; by eexists. }
  destruct (Hi _ _ _ Hn) as (item & E & Ev). rewrite Z2Nat.id in E by lia. exists item. split; [|done].
  assert (AniLog.output_item lp64 char_signed wctomb malloc vsprintf_s localtime_r va_copied pe ce v c = Some (c, [], Some item)) as Ho.
  { unfold AniLog.output_item, AniInt32ToEnumOutputType, EnumNativeToETSByValue, TransformOutputTypeIndex.
    rewrite (proj2 (Z.ltb_ge v 0)) by lia. by rewrite Hf, E. }
  unfold AniLog.GetOutputType. rewrite (callM_bind_run get _ c c [] c eq_refl). fold v. by rewrite Ho.
Qed.
End ani.

(** ** The enumerations agree *)

Lemma enums_agree :
  ets_LogLevel = LogLevelTypeEnumInit /\ ets_PreferStrategy = PreferStrategyTypeEnumInit /\ ets_OutputType.*2 = OutputTypeTypeEnumInit.*2 /\
  filter (fun n => n ∉ OutputTypeTypeEnumInit.*1) ets_OutputType.*1 = ["PRIVATE_SANDBOX_OMLY"].
Proof. by vm_compute. Qed.

(** A runtime with the enumeration. *)
Definition ex_enum_ani : Ani := {|
  ani_ref := unit; ani_class := unit; ani_enum := unit; ani_enum_item := Z;
  Reference_IsUndefined _ := true; Reference_IsNull _ := false; FindClass _ := None; Object_InstanceOf _ _ := None;
  Call_toString _ := None; Call_toInt _ := None; String_GetUTF8 _ := ""; Array_GetLength _ := None; Array_Get _ _ := None;
  EnumItem_GetValue_Int i := snd <$> ets_OutputType !! Z.to_nat i;
  FindEnum _ := inr tt;
  Enum_GetEnumItemByIndex _ := inr;
|}.

Lemma has_enum_satisfiable : has_enum (H := ex_enum_ani) tt.
Proof. split; [done|]. intros i name v E. exists (Z.of_nat i). split; [done|]. cbn. by rewrite Nat2Z.id, E. Qed.
