(* ===== verification/PlatformLog.v ===== *)
(** * The library on other platforms

    src/platform, the library for previews on a desktop, and hilog_ffi.cpp: a
    line that is logged goes to the printing function of the host, which is
    given.  For an application the library prints at least what the library on
    the device does. *)

From S2P Require Import Prelude Common TimeStamp Utils LogData LogPrint Format Properties LogCollector PageSwitchLog Printf PrintfProps JsCallProps.
From Stdlib Require Import Ascii.

(** ** State *)

(** The levels of the host. *)
Inductive AceLevel := ACE_DEBUG | ACE_INFO | ACE_WARN | ACE_ERROR | ACE_FATAL.

Record platform := mkPlatform { p_logLevel : Z; p_preferStrategy : Z }.
Definition new_platform : platform := mkPlatform LOG_LEVEL_MIN UNSET_LOGLEVEL.

(** The calls of the host. *)
Record host_line := mkHostLine { hl_level : AceLevel; hl_fmt : string; hl_args : list varg }.

(** ** Operations *)

Definition ConvertLogLevel (level : Z) : AceLevel :=
  if level =? LOG_DEBUG then ACE_DEBUG else if level =? LOG_INFO then ACE_INFO else if level =? LOG_WARN then ACE_WARN
  else if level =? LOG_ERROR then ACE_ERROR else if level =? LOG_FATAL then ACE_FATAL else ACE_DEBUG.

Definition HiLogIsLoggable (domain : Z) (tag : option string) (level : Z) (p : platform) : bool :=
  if negb (p_preferStrategy p =? UNSET_LOGLEVEL) && (p_preferStrategy p =? PREFER_CLOSE_LOG) && (level <? p_logLevel p) then false
  else if negb (p_preferStrategy p =? UNSET_LOGLEVEL) && (p_preferStrategy p =? PREFER_OPEN_LOG) && (p_logLevel p <=? level) then true
  else if (level <=? LOG_LEVEL_MIN) || (LOG_LEVEL_MAX <=? level) || bool_decide (tag = None) then false
  else true.

Definition HiLogSetAppLogLevel (level prefer : Z) (p : platform) : platform := mkPlatform level prefer.
Definition HiLogSetAppMinLogLevel (level : Z) (p : platform) : platform := HiLogSetAppLogLevel level PREFER_CLOSE_LOG p.

Definition HiLogPrintArgs (type level domain : Z) (tag : option string) (fmt : string) (args : list varg) (p : platform) : list host_line * Z :=
  (if HiLogIsLoggable domain tag level p then [mkHostLine (ConvertLogLevel level) fmt args] else [], 0).
Definition HiLogPrint := HiLogPrintArgs.

(** HiLog::Debug, Info, Warn, Error and Fatal. *)
Definition HiLog_Print (level : Z) (label : HiLogLabel) := HiLogPrintArgs (label_type label) level (label_domain label) (label_tag label).

(** hilog_utils.cpp. *)
Definition IsDebugOn : bool := false.
Definition IsPrivateModeEnable : bool := true.

(** ** The binding for Cangjie, on the device *)

Section cangjie.
Context `{ParamService} (pe : penv).
Definition FfiOHOSHiLogIsLoggable (domain : Z) (tag : option string) (level : Z) : callM bool := Printf.HiLogIsLoggable pe domain tag level.
Definition FfiOHOSIsPrivateSwitchOn : callM bool := props pe Properties.IsPrivateModeEnable.
End cangjie.

(** ** Properties *)

Section device.
Context `{ParamService}.

(** The checks that both libraries make when the program has no preference. *)
Lemma device_checks pe domain tag level c c' es :
  (if (level <=? LOG_LEVEL_MIN) || (LOG_LEVEL_MAX <=? level) || (DOMAIN_OS_MAX <=? domain) then mret false
   else match tag with
        | None => mret false
        | Some tag => finalLevel ← GetFinalLevel pe domain tag; mret (finalLevel <=? level)
        end) c = Some (c', es, true) ->
  (if (level <=? LOG_LEVEL_MIN) || (LOG_LEVEL_MAX <=? level) || bool_decide (tag = None) then false else true) = true.
Proof. destruct (level <=? LOG_LEVEL_MIN); [done|]. destruct (LOG_LEVEL_MAX <=? level); [done|]. destruct (DOMAIN_OS_MAX <=? domain); [done|]. by destruct tag. Qed.

(** What the device logs for an application, the host logs as well, when the
    program has set the same level. *)
Theorem platform_logs_more pe domain tag level c c' es p :
  IsAppDomain domain = true -> p_logLevel p = g_logLevel c -> p_preferStrategy p = g_preferStrategy c ->
  Printf.HiLogIsLoggable pe domain tag level c = Some (c', es, true) -> HiLogIsLoggable domain tag level p = true.
Proof.
  intros Ha Hl Hp E. unfold Printf.HiLogIsLoggable in E. rewrite (callM_bind_run get _ c c [] c eq_refl), Ha in E.
  cbv beta in E. apply bind_Some in E as ([[c1 es1] x] & E & [= -> _ ->]).
  unfold HiLogIsLoggable. rewrite Hl, Hp. cbn [andb] in E. unfold UNSET_LOGLEVEL, PREFER_CLOSE_LOG, PREFER_OPEN_LOG in *.
  destruct (Z.eqb_spec (g_preferStrategy c) 1) as [E1|]; [|destruct (Z.eqb_spec (g_preferStrategy c) 2) as [E2|]].
  - rewrite E1 in *. cbn [negb andb Z.eqb Pos.eqb] in *. destruct (level <? g_logLevel c); [done | eapply device_checks; exact E].
  - rewrite E2 in *. cbn [negb andb Z.eqb Pos.eqb] in *. destruct (g_logLevel c <=? level); [done | eapply device_checks; exact E].
  - rewrite !andb_false_r. eapply device_checks; exact E.
Qed.
End device.

(** A line without a tag, or with a level that does not exist, is logged when
    the program prefers open logs. *)
Lemma platform_open_unchecked domain tag level :
  LOG_LEVEL_MIN <= level -> HiLogIsLoggable domain tag level (HiLogSetAppLogLevel LOG_LEVEL_MIN PREFER_OPEN_LOG new_platform) = true.
Proof. intros Hl. unfold HiLogIsLoggable. cbn. by rewrite (proj2 (Z.leb_le _ _) Hl). Qed.
